(* ===== verification/_CoqProject ===== *)
-Q . S2P
Prelude.v
PyStr.v
Regex.v
Sha256.v
PyVal.v
PyTime.v
Json.v
PyBytes.v
IsoText.v
JsonText.v
Effects.v
RedisAof.v
RedisAofSpec.v
BuildkitGate.v
BuildkitGateSpec.v
GateNative.v
GateNativeSpec.v
GateController.v
GateControllerSpec.v
GateOutcome.v
BoundedBuild.v
ShellScript.v
BoundedBuildSpec.v
CanaryAcceptance.v
CanaryAcceptanceSpec.v
SoakReconnect.v
SoakReconnectSpec.v
EpochPublication.v
EpochPublicationSpec.v
EpochSource.v
EpochSourceSpec.v
EpochFetchSpec.v
EpochTransport.v
EpochTransportSpec.v
EpochRuntime.v
EpochRuntimeSpec.v
EpochBoot.v
EpochBootSpec.v
HistoryStream.v
HistoryStreamSpec.v
HistorySeed.v
HistorySeedSpec.v
ColdRedis.v
ColdRedisSpec.v
ColdLayout.v
ColdLayoutSpec.v
ColdClone.v
ColdCloneSpec.v
ColdReceiptSpec.v
AlertDelivery.v
AlertDeliverySpec.v
AlertJournalSpec.v
EpochControl.v
EpochControlSpec.v
EpochDocker.v
EpochDockerSpec.v
EpochRun.v
EpochConfigSpec.v
EpochRunSpec.v
EpochTraceSpec.v
EpochAcceptSpec.v
EpochSample.v
