(* ===== verification/Prelude.v ===== *)
(** * Kairos deployment tooling

    The repository holds the operations scripts of a trading system
    ([src/scripts/*.py]): they build images under resource limits, publish and
    consume market bars through PostgreSQL and Redis, qualify a deployment, and
    judge evidence files.  Every one of them fails closed: it raises an error
    with a fixed category string rather than guess.  This library models the
    scripts listed below and proves what their checks and loops guarantee.

    ** Conventions
    - A Python [str] is the Rocq [string] of its UTF-8 bytes ([PyStr]); values
      parsed from JSON are [value] ([PyVal]), a dict being an association list
      in insertion order; [Json] is [json.loads] and [json.dumps]; [Sha256] and
      [Regex] are [hashlib.sha256] and [re.fullmatch].  Integers are unbounded
      as in Python; floats are binary64 ([spec_float]).
    - An exception is an [exc], a class and a message.  Pure code returns
      [result] (this file); stateful code is [M S A] ([Effects]), which ends with
      a value, an exception or [Fuel], and keeps the state that the effects
      before an exception left.
    - What the code cannot determine (processes, clocks, files, databases,
      Redis, HTTP) answers through an [environment], a function of the history of
      events; theorems quantify over all environments, and what little a
      theorem assumes of one is a named hypothesis with a witness.  Code that is
      not in the repository (the contracts of kairos_core, canonical_payload of
      kairos_persistence, the recovery routine of kairos_quant) is a parameter.
    - [while] loops take fuel; [Fuel] is an outcome of its own, and no theorem
      that says a routine ends counts it as one.

    ** Parts
    - [RedisAof], [RedisAofSpec]: [runtime_epoch_redis_aof.py].  The reader of an
      append-only file, the command validators and the transaction and ledger
      machine that folds over it.
    - [BuildkitGate], [GateNative], [GateController], [GateOutcome] and their
      Specs: [buildkit_resource_gate.py].  Parsers of Docker's answers; [call]
      with its process tree; the controller with the resources it owns; what
      [execute] leaves behind however it ends.
    - [BoundedBuild(Spec)]: [bounded_build.py].  Capacity rows, the observed
      transports and the script that cancels them, which [ShellScript] reads back
      and executes.
    - [CanaryAcceptance(Spec)]: [paper_canary_acceptance.py].  The evaluator of a
      durable evidence file, against a declarative criterion.
    - [SoakReconnect(Spec)]: [soak_reconnect.py].  The health observer with its
      restart drill, against a specification over the recorded polls.
    - [runtime_epoch_worker.py] in five parts.  [EpochPublication(Spec)]: [flush],
      the Lua script and the outbox statements on a shared world of outbox,
      stream and ledger in which any remote call may be lost before or after
      it took effect.  [EpochSource], [EpochSourceSpec], [EpochFetchSpec]: stored
      chains and batches, which failures may be waited for, the back-off
      circuit, the fetch of a page and the confirmation rounds.
      [EpochTransport(Spec)]: the bounded replay of commands and the
      subscription.  [EpochRuntime(Spec)]: the consumer, the serving loop, which
      calls the batches and the circuit of [EpochSource], and the shutdown.
      [EpochBoot(Spec)]: the configuration each mode accepts, the seed of a
      stopped epoch and the state of its queues.
    - [PyTime], [IsoText]: [datetime] with its ISO format, and that the one reads
      what the other writes; [PyBytes], [JsonText]: bytes with the encodings that
      [json.loads] detects, and that it reads what [json.dumps] writes.
    - [HistoryStream(Spec)]: the frames in which a paper history is copied
      ([paper_runtime_history_stream.py] and the two workers that speak it).
    - [HistorySeed(Spec)]: [runtime_epoch_history_seed.py] and the seed of
      [runtime_epoch_worker.py].  Chains and digest of the exported rows, and the
      transaction that writes them.
    - [cold_redis_acceptance.py] in three parts.  [ColdRedis(Spec)]: the RESP
      reader and the read-only probe of a stream.  [ColdLayout(Spec)]: which files
      of a volume are an accepted persistence image, and how a rejection travels
      from the worker to the controller.  [ColdClone], [ColdCloneSpec],
      [ColdReceiptSpec]: the Docker work of [execute], its cleanup and its receipt.
    - [runtime_epoch_controller.py] in three parts.  [EpochControl(Spec)]: what the
      controller checks and writes (names, worker configurations, the end of a
      catch-up batch, the Redis ACL, the status of the server).  [EpochDocker]: the
      Docker work of [EpochController] (network, volumes, databases, Redis, workers,
      removal).  [EpochRun]: backup, [run_epoch], the failure receipt and the end of
      [main].  [EpochDockerSpec] and [EpochRunSpec] prove what a run may do to
      Docker and that its catch-up ends, [EpochTraceSpec] and [EpochAcceptSpec] what a run that
      returns has done and shown ([EpochSample] is one, on a small Docker), [EpochConfigSpec] that the worker
      ([EpochBoot]) accepts the configurations the controller writes.
    - [AlertDelivery(Spec)], [AlertJournalSpec]: [alert_delivery.py].  The one
      qualification message, its journal on a file store in which any write may
      be torn, its reader, and the operator's acknowledgement of it.

    ** What is proved
    - Exact acceptance: a parser or checker accepts exactly the renderings of a
      declarative description (capacity, mounts, audit chains [anchors_exact],
      evidence [pass_iff_accepted], AOF replay, queues [boot_queue_exact], volumes
      [layout_exact], journals [journal_exact]), and what else an acceptance
      implies (serving configurations, boot seeds, [accepted_run],
      [accepted_epoch]).
    - Round trips: cancellation scripts, command streams, measured histories and
      the journal of a test send ([accepted_journal_reads_back]) are read back as
      they were written.
    - Refinement: the probe of a stream answers as its specification does on the
      first 120000 entries ([inspection_exact]); a seed writes all or nothing.
    - Invariants of state machines over all histories: exactly-once publication
      under lost calls, ownership of containers and processes, drain before
      read in the subscription, sanitized telemetry, authority over Docker
      ([docker_calls_authorised], [docker_authority], [epoch_authority]), one
      message at most ([one_send]).
    - Agreement of scripts: the worker accepts each configuration of a run
      ([run_configs_accepted]), and the ACL that the controller writes is the one
      that the recovery of an append-only file expects ([acl_text_is_candidate]).
    - What a script of another language does: the cancellation script signals no
      process but those observed ([cancel_script_confined]).
    - Errors and ends: which errors can escape, what is released before they
      do, that loops end within stated fuel (a fetched body is at most
      2,000,000 bytes of non-empty chunks, so 2,000,001 steps are enough; the
      confirmation rounds need 3; [soak_returns] bounds the rounds by the
      sleeps; a probe reads at most its byte cap plus one, so that many steps are
      enough; a catch-up takes the least number of batches, at most 32, so 33
      rounds are enough [catch_up_exact]), and where the code does not end although it means to
      ([soak_spins_without_a_sample]).
    - Bounds: a batch to publish never exceeds 100 bars and is maximal; one of a
      catch-up never asks for more than its cap of bars ([catchup_end_exact]).

    ** Not modelled
    Command-line parsing, logging, file modes and symlink checks of every
    [main]; the parts of the modelled scripts named in the manifest; and the
    remaining scripts, chiefly the admission of the epoch controller (Git
    snapshots, signatures and wheels), the controllers that continue or recover
    one particular stopped epoch and the static validators of Compose files, which are long
    sequences of comparisons with literals of one incident or release. *)

From Stdlib Require Export ZArith NArith Lia Ascii Bool.
From stdpp Require Export base tactics decidable list strings gmap.

#[global] Arguments String.append : simpl nomatch.
#[global] Set Default Goal Selector "!".

(** ** Python exceptions

    The scripts raise a handful of exception classes of their own, every one
    of which carries a fixed category string, and rely on the built-in classes
    the standard library raises.  [exc_class] enumerates both; [exc] is an
    exception object reduced to its class and message. *)
Inductive exc_class :=
  | AofError | GateError | EvidenceSchemaError | EpochError | Rejected
  | SeedError | DeliveryError | StateGateError | AdjudicationError
  | ColdRedisError | SuccessorRejected | CurrentEpochRejected
  | ValueError | JSONDecodeError | UnicodeDecodeError | UnicodeEncodeError
  | TypeError | KeyError | IndexError | AttributeError | LookupError
  | OverflowError | ZeroDivisionError | RuntimeError | RecursionError
  | OSError | FileExistsError | TimeoutError | SubprocessError
  | CancelledError | KeyboardInterrupt
  | AssertionError | ResponseError | RedisConnectionError | RedisTimeoutError | AuthenticationError
  | NoPermissionError | PostgresError | InsufficientPrivilegeError | ClientConnectorDNSError | RecoveryError
  | ExceptionGroup | SnapshotError | AtomicError | ProbeError | WorkerError | PreparationError | PreflightError
  | UpgradeError | RehearsalError | CurrentBootRejected | FreshRejected.

#[global] Instance exc_class_eq_dec : EqDecision exc_class.
Proof. solve_decision. Defined.

(** [except Exception], [except OSError], [except ValueError] *)
Definition is_exception (c : exc_class) : bool := negb (bool_decide (c ∈ [CancelledError; KeyboardInterrupt])).
Definition os_error (c : exc_class) : bool := bool_decide (c ∈ [OSError; TimeoutError; FileExistsError]).
Definition value_error (c : exc_class) : bool := bool_decide (c ∈ [ValueError; JSONDecodeError; UnicodeDecodeError; UnicodeEncodeError]).

Record exc := Exc { exc_cls : exc_class; exc_msg : string }.

#[global] Instance exc_eq_dec : EqDecision exc.
Proof. solve_decision. Defined.

(** ** The error monad: a Python computation that returns or raises *)
Inductive result (A : Type) :=
  | Ok (a : A)
  | Err (e : exc).
Arguments Ok {A} a.
Arguments Err {A} e.

#[global] Instance result_eq_dec `{EqDecision A} : EqDecision (result A).
Proof. solve_decision. Defined.

#[global] Instance result_ret : MRet result := fun A => Ok.
#[global] Instance result_bind : MBind result := fun A B f m =>
  match m with Ok a => f a | Err e => Err e end.
#[global] Instance result_fmap : FMap result := fun A B f m =>
  match m with Ok a => Ok (f a) | Err e => Err e end.

Definition raise {A} (cls : exc_class) (msg : string) : result A := Err (Exc cls msg).

(** [if b: raise cls(msg)] *)
Definition raise_if (b : bool) (cls : exc_class) (msg : string) : result unit :=
  if b then raise cls msg else Ok tt.

(** [try: m except cls in cs: h] *)
Definition catch {A} (cs : exc_class → bool) (m : result A) (h : exc → result A) : result A :=
  match m with
  | Ok a => Ok a
  | Err e => if cs (exc_cls e) then h e else Err e
  end.

Fixpoint mapR {A B} (f : A → result B) (l : list A) : result (list B) :=
  match l with
  | [] => Ok []
  | x :: l => y ← f x; ys ← mapR f l; Ok (y :: ys)
  end.

Fixpoint foldR {A S} (f : S → A → result S) (s : S) (l : list A) : result S :=
  match l with
  | [] => Ok s
  | x :: l => s' ← f s x; foldR f s' l
  end.

Definition is_ok {A} (m : result A) : bool := match m with Ok _ => true | Err _ => false end.

Lemma bind_Ok {A B} (m : result A) (f : A → result B) b :
  m ≫= f = Ok b ↔ ∃ a, m = Ok a ∧ f a = Ok b.
Proof. destruct m as [x|e]; cbn; naive_solver. Qed.

Lemma bind_Err {A B} (m : result A) (f : A → result B) e :
  m ≫= f = Err e ↔ m = Err e ∨ ∃ a, m = Ok a ∧ f a = Err e.
Proof. destruct m as [a|e']; cbn; naive_solver. Qed.

Lemma raise_if_Ok b cls msg u : raise_if b cls msg = Ok u ↔ b = false.
Proof. destruct b, u; cbn; naive_solver. Qed.

Lemma guard_pass {A} b cls msg (f : unit → result A) : b = false → (raise_if b cls msg ≫= f) = f tt.
Proof. by intros ->. Qed.

Lemma raise_if_Err b cls msg e : raise_if b cls msg = Err e ↔ b = true ∧ e = Exc cls msg.
Proof. destruct b; cbn; unfold raise; naive_solver. Qed.

Lemma raise_Ok {A} cls msg (a : A) : raise cls msg = Ok a ↔ False.
Proof. unfold raise; naive_solver. Qed.

Lemma raise_Err {A} cls msg e : @raise A cls msg = Err e ↔ e = Exc cls msg.
Proof. unfold raise; naive_solver. Qed.

Lemma fmap_Ok {A B} (f : A → B) (m : result A) b :
  f <$> m = Ok b ↔ ∃ a, m = Ok a ∧ f a = b.
Proof. destruct m; cbn; naive_solver. Qed.

Lemma catch_Ok {A} cs (m : result A) h a :
  catch cs m h = Ok a ↔ m = Ok a ∨ ∃ e, m = Err e ∧ cs (exc_cls e) = true ∧ h e = Ok a.
Proof.
  destruct m as [x|e]; cbn.
  - split; [by left|]. intros [H|(e & H & _)]; [done|discriminate].
  - destruct (cs (exc_cls e)) eqn:Hcs.
    + split; [by right; exists e|]. intros [?|(e' & [= <-] & _ & ?)]; [discriminate|done].
    + split; [discriminate|]. intros [?|(e' & [= <-] & ? & ?)]; congruence.
Qed.

Lemma bind_ret {A B} (a : A) (f : A → result B) : Ok a ≫= f = f a.
Proof. done. Qed.

Lemma raise_if_pass {B} b cls msg (f : unit → result B) : b = false → raise_if b cls msg ≫= f = f tt.
Proof. by intros ->. Qed.

Lemma raise_if_fail {B} b cls msg (f : unit → result B) :
  b = true → raise_if b cls msg ≫= f = Err (Exc cls msg).
Proof. by intros ->. Qed.

Lemma mapR_Ok {A B} (f : A → result B) l ys :
  mapR f l = Ok ys ↔ Forall2 (λ x y, f x = Ok y) l ys.
Proof.
  revert ys; induction l as [|x l IH]; intros ys; cbn.
  - split; [intros [= <-]; constructor | inversion 1; done].
  - setoid_rewrite bind_Ok; setoid_rewrite bind_Ok; setoid_rewrite IH. split.
    + intros (y & Hy & ys' & Hl & [= <-]); by constructor.
    + inversion 1; subst; eauto.
Qed.

Lemma foldR_app {A S} (f : S → A → result S) s l1 l2 :
  foldR f s (l1 ++ l2) = foldR f s l1 ≫= λ s', foldR f s' l2.
Proof.
  revert s; induction l1 as [|x l1 IH]; intros s; cbn; [done|].
  destruct (f s x); cbn; [apply IH|done].
Qed.

(** An invariant preserved by every step of a fold holds at its end. *)
Lemma foldR_inv {A S} (f : S → A → result S) (P : S → Prop) s l s' :
  (∀ s x s', x ∈ l → P s → f s x = Ok s' → P s') →
  P s → foldR f s l = Ok s' → P s'.
Proof.
  revert s; induction l as [|x l IH]; intros s Hstep HP; cbn.
  - by intros [= <-].
  - rewrite bind_Ok. intros (s1 & H1 & H2). eapply IH; [..|exact H2].
    + intros; eapply Hstep; eauto; by right.
    + eapply Hstep; eauto; by left.
Qed.

Lemma Ok_inj {A} (a b : A) : Ok a = Ok b → a = b.
Proof. by intros [=]. Qed.

Ltac pair_inv H :=
  lazymatch type of H with
  | (_, _) = (_, _) =>
      let H1 := fresh H in
      apply pair_equal_spec in H; destruct H as [H H1]; pair_inv H; pair_inv H1
  | Some _ = Some _ => apply (inj Some) in H; pair_inv H
  | _ => idtac
  end.

(** A property of the processed prefix and the state, preserved by every step. *)
Lemma foldR_hist {A S} (f : S → A → result S) (P : list A → S → Prop) s0 :
  P [] s0 →
  (∀ l s x s', foldR f s0 l = Ok s → P l s → f s x = Ok s' → P (l ++ [x]) s') →
  ∀ l s, foldR f s0 l = Ok s → P l s.
Proof.
  intros H0 Hstep l. induction l as [|x l IH] using rev_ind; intros s.
  - by intros [= <-].
  - rewrite foldR_app, bind_Ok. intros (s1 & H1 & H2). cbn [foldR] in H2.
    apply bind_Ok in H2 as (s2 & H2 & [= <-]). eauto.
Qed.

(** [ok_inv H] takes a hypothesis [m = Ok r] apart along its binds, checks and
    returns; the remaining pieces keep their equations. *)
Ltac pair_destruct a :=
  lazymatch type of a with
  | (_ * _)%type => let b := fresh "b" in destruct a as [a b]; pair_destruct a; pair_destruct b
  | _ => idtac
  end.

Ltac ok_step H :=
  lazymatch type of H with
  | (_ ≫= _) = Ok _ =>
      apply bind_Ok in H;
      let a := fresh "a" in let H1 := fresh "Hok" in
      destruct H as (a & H1 & H); pair_destruct a; cbn beta iota in H; ok_step H1; ok_step H
  | raise_if _ _ _ = Ok _ => apply raise_if_Ok in H
  | raise _ _ = Ok _ => apply raise_Ok in H; destruct H
  | Err _ = Ok _ => discriminate H
  | Ok _ = Ok _ => apply Ok_inj in H; pair_inv H; try subst
  | fmap _ _ = Ok _ =>
      apply fmap_Ok in H;
      let a := fresh "a" in let H1 := fresh "Hok" in
      destruct H as (a & H1 & H); try subst; ok_step H1
  | _ => idtac
  end.
Ltac ok_inv H := cbn beta iota in H; ok_step H.

(** Split boolean hypotheses produced by the guards. *)
Ltac bool_inv :=
  repeat match goal with
  | H : orb _ _ = false |- _ => apply orb_false_iff in H; destruct H
  | H : andb _ _ = true |- _ => apply andb_true_iff in H; destruct H
  | H : negb _ = false |- _ => apply negb_false_iff in H
  | H : negb _ = true |- _ => apply negb_true_iff in H
  | H : bool_decide _ = true |- _ => apply bool_decide_eq_true in H
  | H : bool_decide _ = false |- _ => apply bool_decide_eq_false in H
  | H : Z.ltb _ _ = true |- _ => apply Z.ltb_lt in H
  | H : Z.ltb _ _ = false |- _ => apply Z.ltb_ge in H
  | H : Z.leb _ _ = true |- _ => apply Z.leb_le in H
  | H : Z.leb _ _ = false |- _ => apply Z.leb_gt in H
  | H : Z.eqb _ _ = true |- _ => apply Z.eqb_eq in H
  | H : Z.eqb _ _ = false |- _ => apply Z.eqb_neq in H
  | H : String.eqb _ _ = true |- _ => apply String.eqb_eq in H
  | H : String.eqb _ _ = false |- _ => apply String.eqb_neq in H
  end.

(** Membership in a list that is written out *)
Ltac member := repeat first [apply list_elem_of_here | apply list_elem_of_further].

(** Decide a closed decidable goal by computation. *)
Ltac by_decide := refine (bool_decide_unpack _ _); vm_compute; exact I.

(** ** Generic list facts *)
(** [len(set(l)) == len(l)] *)
Definition no_dup {A} `{EqDecision A} (l : list A) : bool := bool_decide (NoDup l).

Lemma no_dup_true {A} `{EqDecision A} (l : list A) : no_dup l = true ↔ NoDup l.
Proof. apply bool_decide_eq_true. Qed.

(** [set(a) == set(b)] *)
Definition same_set {A} `{EqDecision A} (a b : list A) : bool :=
  forallb (λ x, bool_decide (x ∈ b)) a && forallb (λ x, bool_decide (x ∈ a)) b.

Lemma same_set_true {A} `{EqDecision A} (a b : list A) :
  same_set a b = true ↔ ∀ x, x ∈ a ↔ x ∈ b.
Proof.
  unfold same_set. rewrite andb_true_iff, !forallb_forall.
  setoid_rewrite <- list_elem_of_In. setoid_rewrite bool_decide_eq_true. naive_solver.
Qed.

Definition zsum (l : list Z) : Z := foldr Z.add 0%Z l.

Lemma zsum_app l1 l2 : zsum (l1 ++ l2) = (zsum l1 + zsum l2)%Z.
Proof. induction l1 as [|x l1 IH]; cbn; [done|]. unfold zsum in *; lia. Qed.

(** ** Projections: lines that each fill one slot
    A parser that folds a step over lines, where the step accepts exactly the
    rendering of a well-formed item whose slot is free, accepts exactly the
    renderings of well-formed items on distinct slots, in any order. *)
Section SlotFold.
Context {Item Slot State : Type} (render : Item → string) (wf : Item → Prop) (slot : Item → Slot).
Context (step : State → string → result State) (put : State → Item → State) (s0 : State)
  (free : State → Item → Prop).
Context (step_Ok : ∀ s line s', step s line = Ok s' → ∃ i, line = render i ∧ wf i ∧ free s i ∧ s' = put s i)
  (step_render : ∀ s i, wf i → free s i → step s (render i) = Ok (put s i))
  (free_slot : ∀ l i, free (foldl put s0 l) i ↔ slot i ∉ slot <$> l).

Lemma slot_fold lines s :
  foldR step s0 lines = Ok s ↔
  ∃ items, lines = render <$> items ∧ Forall wf items ∧ NoDup (slot <$> items) ∧ s = foldl put s0 items.
Proof.
  split.
  - apply (foldR_hist step (λ lines s, ∃ items, lines = render <$> items ∧ Forall wf items ∧
      NoDup (slot <$> items) ∧ s = foldl put s0 items)).
    + exists []. split_and!; constructor.
    + intros l s1 x s' _ (items & -> & Hw & Hn & ->) H.
      apply step_Ok in H as (i & -> & Hwi & Hf & ->). exists (items ++ [i]).
      apply free_slot in Hf. rewrite !fmap_app, foldl_app. split_and!; [done| | |done].
      * apply Forall_app. by split; [|constructor].
      * apply NoDup_app. split_and!; [done| |apply NoDup_singleton].
        intros y Hy ->%list_elem_of_singleton. done.
  - intros (items & -> & Hw & Hn & ->). induction items as [|i items IH] using rev_ind; [done|].
    rewrite !fmap_app in *. apply Forall_app in Hw as [Hw Hwi]. apply Forall_cons in Hwi as [Hwi _].
    apply NoDup_app in Hn as (Hn & Hd & _). rewrite foldR_app, IH, bind_ret, foldl_app by done.
    cbn [fmap list_fmap foldR foldl].
    assert (free (foldl put s0 items) i) as Hf.
    { apply free_slot. intros Hin. apply (Hd _ Hin). by left. }
    by rewrite step_render.
Qed.
End SlotFold.

(** Two lists of the same length, one without duplicates inside the other. *)
Lemma perm_of_sub {A} (l k : list A) :
  NoDup k → (∀ x, x ∈ k → x ∈ l) → (length l <= length k)%nat → l ≡ₚ k.
Proof.
  intros Hn Hin Hlen. symmetry. apply submseteq_length_Permutation; [by apply NoDup_submseteq|done].
Qed.
