(* ===== verification/PyStr.v ===== *)
(** * Python text and bytes

    A Python [str] is the string of its UTF-8 encoding (lone surrogates, which
    JSON escapes can produce, are kept as their three-byte generalised UTF-8
    form) and a Python [bytes] is the string of its bytes; both are Rocq's
    [string].  An ASCII pattern, separator or comparison means the same on the
    encoding as on the text, so the operations below are exact; the few that
    look at code points ([isdecimal], [strip], [splitlines], [split()]) work on
    [uchars], the list of encoded code points. *)

From S2P Require Import Prelude.

Local Open Scope string_scope.
Local Open Scope list_scope.
Local Open Scope Z_scope.

(** ** Characters *)
Definition ord (c : ascii) : Z := Z.of_N (N_of_ascii c).
Definition chr (n : Z) : ascii := ascii_of_N (Z.to_N n).

Definition in_range (lo hi : ascii) (c : ascii) : bool := (ord lo <=? ord c) && (ord c <=? ord hi).

Definition is_digit (c : ascii) : bool := in_range "0" "9" c.
Definition is_lower_hex (c : ascii) : bool := is_digit c || in_range "a" "f" c.
Definition is_hex (c : ascii) : bool := is_lower_hex c || in_range "A" "F" c.
Definition is_lower (c : ascii) : bool := in_range "a" "z" c.
Definition is_upper (c : ascii) : bool := in_range "A" "Z" c.
Definition is_alnum (c : ascii) : bool := is_digit c || is_lower c || is_upper c.
Definition is_ascii7 (c : ascii) : bool := ord c <? 128.
Definition is_one (k c : ascii) : bool := Ascii.eqb k c.
Definition is_any (l : list ascii) (c : ascii) : bool := existsb (Ascii.eqb c) l.

Lemma ord_bounds c : 0 <= ord c < 256.
Proof.
  unfold ord. split; [lia|].
  pose proof (N_ascii_bounded c). lia.
Qed.

Lemma chr_ord c : chr (ord c) = c.
Proof. unfold chr, ord. rewrite N2Z.id. apply ascii_N_embedding. Qed.

Lemma ord_chr n : 0 <= n < 256 → ord (chr n) = n.
Proof. intros H. unfold ord, chr. rewrite N_ascii_embedding; lia. Qed.

Lemma ord_inj a b : ord a = ord b → a = b.
Proof. intros H. rewrite <- (chr_ord a), <- (chr_ord b). by rewrite H. Qed.

(** ** Basic string functions *)
Fixpoint sall (p : ascii → bool) (s : string) : bool :=
  match s with EmptyString => true | String c s => p c && sall p s end.

Definition sany (p : ascii → bool) (s : string) : bool := negb (sall (λ c, negb (p c)) s).

Definition slen (s : string) : Z := Z.of_nat (String.length s).

Fixpoint smap (f : ascii → ascii) (s : string) : string :=
  match s with EmptyString => EmptyString | String c s => String (f c) (smap f s) end.

Definition lower_char (c : ascii) : ascii := if is_upper c then chr (ord c + 32) else c.
Definition upper_char (c : ascii) : ascii := if is_lower c then chr (ord c - 32) else c.
(** [bytes.upper], [bytes.lower] (ASCII only, as the language defines them for bytes). *)
Definition bupper : string → string := smap upper_char.
Definition blower : string → string := smap lower_char.

Definition isascii (s : string) : bool := sall is_ascii7 s.

(** [s.startswith(p)], [s.endswith(p)] *)
Definition startswith (p s : string) : bool := String.prefix p s.

Fixpoint sdrop (n : nat) (s : string) : string :=
  match n, s with
  | O, _ => s
  | S n, EmptyString => EmptyString
  | S n, String _ s => sdrop n s
  end.

Fixpoint stake (n : nat) (s : string) : string :=
  match n, s with
  | O, _ => EmptyString
  | S n, EmptyString => EmptyString
  | S n, String c s => String c (stake n s)
  end.

Definition endswith (p s : string) : bool :=
  (String.length p <=? String.length s)%nat
  && String.eqb (sdrop (String.length s - String.length p) s) p.

(** [needle in s] *)
Fixpoint contains (needle s : string) : bool :=
  startswith needle s || match s with EmptyString => false | String _ s => contains needle s end.

(** [s.split(c)] for a one-character separator *)
Fixpoint split_on (c : ascii) (s : string) : list string :=
  match s with
  | EmptyString => [EmptyString]
  | String a s =>
      if Ascii.eqb a c then EmptyString :: split_on c s
      else match split_on c s with
           | h :: t => String a h :: t
           | [] => [String a EmptyString]
           end
  end.

(** [sep.join(l)] *)
Fixpoint join (sep : string) (l : list string) : string :=
  match l with
  | [] => EmptyString
  | [s] => s
  | s :: l => s +:+ sep +:+ join sep l
  end.

(** [s.split(c, 1)]: the pieces around the first occurrence. *)
Fixpoint split_once (c : ascii) (s : string) : option (string * string) :=
  match s with
  | EmptyString => None
  | String a s =>
      if Ascii.eqb a c then Some (EmptyString, s)
      else '(h, t) ← split_once c s; Some (String a h, t)
  end.

Fixpoint lstrip_c (p : ascii → bool) (s : string) : string :=
  match s with
  | EmptyString => EmptyString
  | String a s' => if p a then lstrip_c p s' else s
  end.
(** [s.rstrip(c)] for a set of ASCII characters *)
Fixpoint rstrip_c (p : ascii → bool) (s : string) : string :=
  match s with
  | EmptyString => EmptyString
  | String a s' =>
      match rstrip_c p s' with
      | EmptyString => if p a then EmptyString else String a EmptyString
      | r => String a r
      end
  end.

(** ** Code points *)
Definition is_cont (c : ascii) : bool := in_range (chr 128) (chr 191) c.

(** The encoded code points of a text, in order. *)
Fixpoint uchars (s : string) : list string :=
  match s with
  | EmptyString => []
  | String c s =>
      match uchars s with
      | (String d h) :: t => if is_cont d then String c (String d h) :: t
                             else String c EmptyString :: String d h :: t
      | r => String c EmptyString :: r
      end
  end.

Definition sconcat (l : list string) : string := foldr String.append EmptyString l.

(** The code point of one encoded character. *)
Definition code_point (s : string) : Z :=
  match s with
  | String a EmptyString => ord a
  | String a (String b EmptyString) => (ord a - 192) * 64 + (ord b - 128)
  | String a (String b (String c EmptyString)) =>
      ((ord a - 224) * 64 + (ord b - 128)) * 64 + (ord c - 128)
  | String a (String b (String c (String d EmptyString))) =>
      (((ord a - 240) * 64 + (ord b - 128)) * 64 + (ord c - 128)) * 64 + (ord d - 128)
  | _ => 0
  end.

(** The bytes [decode("utf-8")] accepts: shortest forms, no surrogates. *)
Definition byte_in (lo hi : Z) (c : ascii) : bool := (lo <=? ord c) && (ord c <=? hi).
Fixpoint utf8_ok (s : string) : bool :=
  match s with
  | EmptyString => true
  | String a s1 =>
      if ord a <? 128 then utf8_ok s1
      else match s1 with
      | EmptyString => false
      | String b s2 =>
          if byte_in 194 223 a then byte_in 128 191 b && utf8_ok s2
          else match s2 with
          | EmptyString => false
          | String c s3 =>
              let lo := if ord a =? 224 then 160 else 128 in
              let hi := if ord a =? 237 then 159 else 191 in
              if byte_in 224 239 a then byte_in lo hi b && byte_in 128 191 c && utf8_ok s3
              else match s3 with
              | EmptyString => false
              | String d s4 =>
                  let lo := if ord a =? 240 then 144 else 128 in
                  let hi := if ord a =? 244 then 143 else 191 in
                  byte_in 240 244 a && byte_in lo hi b && byte_in 128 191 c && byte_in 128 191 d && utf8_ok s4
              end
          end
      end
  end.
(** [data.decode("utf-8")]: the text of the same bytes *)
Definition utf8_decode (s : string) : result string :=
  if utf8_ok s then Ok s else raise UnicodeDecodeError "utf-8".

(** The encoding of one code point. *)
Definition encode_cp (n : Z) : string :=
  if n <? 128 then String (chr n) EmptyString
  else if n <? 2048 then String (chr (192 + n / 64)) (String (chr (128 + n mod 64)) EmptyString)
  else if n <? 65536 then
    String (chr (224 + n / 4096)) (String (chr (128 + n / 64 mod 64))
      (String (chr (128 + n mod 64)) EmptyString))
  else
    String (chr (240 + n / 262144)) (String (chr (128 + n / 4096 mod 64))
      (String (chr (128 + n / 64 mod 64)) (String (chr (128 + n mod 64)) EmptyString))).

(** [str.isspace] code points, and the line boundaries of [str.splitlines]. *)
Definition space_points : list Z :=
  [9; 10; 11; 12; 13; 28; 29; 30; 31; 32; 133; 160; 5760; 8192; 8193; 8194; 8195; 8196; 8197;
   8198; 8199; 8200; 8201; 8202; 8232; 8233; 8239; 8287; 12288].
Definition line_points : list Z := [10; 11; 12; 13; 28; 29; 30; 133; 8232; 8233].

Definition is_space_u (s : string) : bool := bool_decide (code_point s ∈ space_points).
Definition is_line_u (s : string) : bool := bool_decide (code_point s ∈ line_points).

Fixpoint drop_while {A} (p : A → bool) (l : list A) : list A :=
  match l with [] => [] | x :: l' => if p x then drop_while p l' else l end.

(** [s.strip()] *)
Definition strip (s : string) : string :=
  sconcat (reverse (drop_while is_space_u (reverse (drop_while is_space_u (uchars s))))).

(** [s.split()] *)
Fixpoint words_go (cur : list string) (l : list string) : list string :=
  match l with
  | [] => match cur with [] => [] | _ => [sconcat (reverse cur)] end
  | x :: l =>
      if is_space_u x
      then match cur with [] => words_go [] l | _ => sconcat (reverse cur) :: words_go [] l end
      else words_go (x :: cur) l
  end.
Definition words (s : string) : list string := words_go [] (uchars s).

(** [splitlines] over a list of characters; [\r\n] is one boundary and a final
    boundary ends the last line without starting another. *)
Fixpoint lines_go (is_line : string → bool) (cur : list string) (l : list string) : list string :=
  match l with
  | [] => match cur with [] => [] | _ => [sconcat (reverse cur)] end
  | x :: l =>
      if is_line x
      then sconcat (reverse cur) ::
           (match l with
            | y :: l' => if String.eqb x (String "013" EmptyString) && String.eqb y (String "010" EmptyString)
                         then lines_go is_line [] l' else lines_go is_line [] l
            | [] => []
            end)
      else lines_go is_line (x :: cur) l
  end.

(** [str.splitlines()] and [bytes.splitlines()] *)
Definition splitlines (s : string) : list string := lines_go is_line_u [] (uchars s).
Definition bsplitlines (s : string) : list string :=
  lines_go (λ x, String.eqb x (String "013" EmptyString) || String.eqb x (String "010" EmptyString)) []
    ((λ c, String c EmptyString) <$> String.list_ascii_of_string s).

(** ** Decimal numbers *)
(** The zero of every block of ten Unicode decimal digits (category Nd of
    the Unicode 14 database of CPython 3.11, the pinned interpreter). *)
Definition nd_zeros : list Z :=
  [48; 1632; 1776; 1984; 2406; 2534; 2662; 2790; 2918; 3046; 3174; 3302; 3430; 3558; 3664; 3792;
   3872; 4160; 4240; 6112; 6160; 6470; 6608; 6784; 6800; 6992; 7088; 7232; 7248; 42528; 43216;
   43264; 43472; 43504; 43600; 44016; 65296; 66720; 68912; 69734; 69872; 69942; 70096; 70384;
   70736; 70864; 71248; 71360; 71472; 71904; 72016; 72784; 73040; 73120; 92768; 92864; 93008;
   120782; 120792; 120802; 120812; 120822; 123200; 123632; 125264; 130032].

Definition digit_of_cp (n : Z) : option Z :=
  z ← list_find (λ z, z <= n ∧ n <= z + 9) nd_zeros; Some (n - z.2).

(** [s.isdecimal()] *)
Definition isdecimal (s : string) : bool :=
  negb (String.eqb s EmptyString)
  && forallb (λ u, bool_decide (is_Some (digit_of_cp (code_point u)))) (uchars s).

Definition dec_step (acc : Z) (d : Z) : Z := acc * 10 + d.

(** The value of a string of ASCII digits. *)
Fixpoint dec_acc (acc : Z) (s : string) : Z :=
  match s with EmptyString => acc | String c s => dec_acc (acc * 10 + (ord c - 48)) s end.
Definition dec_val (s : string) : Z := dec_acc 0 s.

(** [int(s)] of a text accepted by [isdecimal]; CPython refuses more than 4300 digits. *)
Definition int_of_decimal (s : string) : result Z :=
  let ds := (λ u, default 0 (digit_of_cp (code_point u))) <$> uchars s in
  if (4300 <? length ds)%nat then raise ValueError "Exceeds the limit (4300 digits) for integer string conversion"
  else Ok (foldl dec_step 0 ds).

(** [int(s)] of a text of ASCII digits, with the same limit. *)
Definition int_of_digits (s : string) : result Z :=
  if 4300 <? slen s then raise ValueError "Exceeds the limit (4300 digits) for integer string conversion"
  else Ok (dec_val s).

Definition digit_char (n : N) : ascii := ascii_of_N (48 + n).

Fixpoint dec_digits (fuel : nat) (n : N) (acc : string) : string :=
  match fuel with
  | O => acc
  | S fuel =>
      let acc := String (digit_char (n mod 10)) acc in
      if (n <? 10)%N then acc else dec_digits fuel (n / 10) acc
  end.

(** [str(n)]: the binary logarithm bounds the number of decimal digits, so the fuel suffices. *)
Definition dec_of_N (n : N) : string := dec_digits (S (N.to_nat (N.log2 n))) n EmptyString.
Definition dec_of_Z (z : Z) : string :=
  match z with
  | Z0 => "0"
  | Zpos p => dec_of_N (Npos p)
  | Zneg p => String "-" (dec_of_N (Npos p))
  end.

(** Text written with apostrophes for its quotation marks, for literals. *)
Definition sq : string → string := smap (λ c, if Ascii.eqb c "'" then "034"%char else c).

(** The same with backquotes, for scripts that hold apostrophes too. *)
Definition bt : string → string := smap (λ c, if Ascii.eqb c "`" then "034"%char else c).
Definition LF : string := String "010" EmptyString.
(** [s + "\n"] of every piece, joined: a text of lines each ended by a newline. *)
Definition unlines (l : list string) : string := foldr (λ a r, a +:+ LF +:+ r) EmptyString l.

(** ** Facts about the string functions *)
Lemma app_length_str (a b : string) : String.length (a +:+ b) = (String.length a + String.length b)%nat.
Proof. induction a as [|c a IH]; cbn; [done|by rewrite IH]. Qed.

Lemma app_nil_r_str (a : string) : a +:+ EmptyString = a.
Proof. induction a as [|c a IH]; cbn; [done|by rewrite IH]. Qed.

Lemma app_assoc_str (a b c : string) : a +:+ (b +:+ c) = (a +:+ b) +:+ c.
Proof. induction a as [|x a IH]; cbn; [done|by rewrite IH]. Qed.

Lemma slen_app a b : slen (a +:+ b) = slen a + slen b.
Proof. unfold slen. rewrite app_length_str. lia. Qed.

Lemma slen_nonneg s : 0 <= slen s.
Proof. unfold slen; lia. Qed.

Lemma sall_app p a b : sall p (a +:+ b) = sall p a && sall p b.
Proof. induction a as [|c a IH]; cbn; [done|]. by rewrite IH, andb_assoc. Qed.

Lemma sall_impl (p q : ascii → bool) s : (∀ c, p c = true → q c = true) → sall p s = true → sall q s = true.
Proof.
  intros Hpq. induction s as [|c s IH]; cbn; [done|].
  rewrite !andb_true_iff. intros [? ?]; auto.
Qed.

Lemma sdrop_app a b : sdrop (String.length a) (a +:+ b) = b.
Proof. by induction a as [|c a IH]; cbn. Qed.

Lemma stake_app a b : stake (String.length a) (a +:+ b) = a.
Proof. induction a as [|c a IH]; cbn; [by destruct b|]. by rewrite IH. Qed.

Lemma stake_sdrop n s : stake n s +:+ sdrop n s = s.
Proof. revert s; induction n as [|n IH]; intros [|c s]; cbn; try done. by rewrite IH. Qed.

Lemma sdrop_length n s : String.length (sdrop n s) = (String.length s - n)%nat.
Proof. revert s; induction n as [|n IH]; intros [|c s]; cbn; try done. Qed.

Lemma sdrop_sdrop m n s : sdrop m (sdrop n s) = sdrop (n + m) s.
Proof.
  revert s; induction n as [|n IH]; intros [|c s]; cbn; [done..|by destruct m|].
  apply IH.
Qed.

Lemma stake_length n s : (n <= String.length s)%nat → String.length (stake n s) = n.
Proof.
  revert s; induction n as [|n IH]; intros [|c s]; cbn; try done; try lia.
  intros H. rewrite IH; lia.
Qed.

Lemma prefix_app p s : startswith p s = true ↔ ∃ t, s = p +:+ t.
Proof.
  unfold startswith. revert s; induction p as [|c p IH]; intros s; cbn.
  - split; [by exists s|]. by destruct s.
  - destruct s as [|d s]; cbn; [split; [done|by intros [? ?]]|].
    destruct (ascii_dec c d) as [->|Hne].
    + rewrite IH. split; intros [t Ht]; exists t; congruence.
    + split; [done|]. intros [t Ht]. congruence.
Qed.

Lemma startswith_app p t : startswith p (p +:+ t) = true.
Proof. apply prefix_app. by exists t. Qed.

(** Splitting inverts joining when no piece holds the separator. *)
Definition free_of (c : ascii) (s : string) : bool := sall (λ a, negb (Ascii.eqb a c)) s.

Lemma split_on_free c s : free_of c s = true → split_on c s = [s].
Proof.
  unfold free_of. induction s as [|a s IH]; cbn; [done|].
  rewrite andb_true_iff, negb_true_iff. intros [-> Hs]. by rewrite IH.
Qed.

Lemma split_on_app c a b :
  free_of c a = true → split_on c (a +:+ String c b) = a :: split_on c b.
Proof.
  unfold free_of. induction a as [|x a IH]; cbn.
  - by rewrite Ascii.eqb_refl.
  - rewrite andb_true_iff, negb_true_iff. intros [-> Hs]. by rewrite IH.
Qed.

Lemma join_cons sep s s' l : join sep (s :: s' :: l) = s +:+ sep +:+ join sep (s' :: l).
Proof. done. Qed.

Lemma split_on_join c l :
  l ≠ [] → forallb (free_of c) l = true → split_on c (join (String c EmptyString) l) = l.
Proof.
  induction l as [|s l IH]; [done|]. intros _. cbn [forallb]. rewrite andb_true_iff. intros [Hs Hl].
  destruct l as [|s' l]; [by apply split_on_free|].
  rewrite join_cons. change (String c EmptyString +:+ ?x) with (String c x).
  rewrite split_on_app by done. by rewrite IH.
Qed.

Lemma split_on_nonempty c s : split_on c s ≠ [].
Proof. destruct s as [|a s]; cbn; [done|]. destruct (Ascii.eqb a c); [done|]. by destruct (split_on c s). Qed.

Lemma join_split_on c s : join (String c EmptyString) (split_on c s) = s.
Proof.
  induction s as [|a s IH]; [done|]. cbn [split_on].
  pose proof (split_on_nonempty c s) as Hne.
  destruct (split_on c s) as [|h t] eqn:E; [done|].
  destruct (Ascii.eqb a c) eqn:Hac.
  - apply Ascii.eqb_eq in Hac as ->. rewrite join_cons, IH. done.
  - destruct t as [|h' t]; [cbn in *; by rewrite IH|].
    rewrite join_cons in *. cbn. by rewrite <- IH.
Qed.

Lemma split_on_pieces c s : forallb (free_of c) (split_on c s) = true.
Proof.
  induction s as [|a s IH]; cbn; [done|].
  destruct (Ascii.eqb a c) eqn:Hac; cbn; [done|].
  destruct (split_on c s) as [|h t]; cbn in *; unfold free_of in *; cbn; by rewrite Hac.
Qed.

(** ASCII text is its own list of characters. *)
Lemma uchars_ascii s :
  isascii s = true → uchars s = (λ c, String c EmptyString) <$> String.list_ascii_of_string s.
Proof.
  unfold isascii. induction s as [|c s IH]; cbn; [done|].
  rewrite andb_true_iff. intros [Hc Hs]. rewrite (IH Hs).
  destruct s as [|d s]; cbn; [done|].
  cbn in Hs. apply andb_true_iff in Hs as [Hd _].
  replace (is_cont d) with false; [done|].
  symmetry. unfold is_cont, in_range, is_ascii7 in *.
  rewrite Z.ltb_lt in Hd. rewrite andb_false_iff, Z.leb_gt. left.
  by rewrite ord_chr by lia.
Qed.

Lemma sconcat_uchars s : sconcat (uchars s) = s.
Proof.
  induction s as [|c s IH]; cbn; [done|].
  destruct (uchars s) as [|[|d h] t] eqn:E; cbn in *; try by rewrite IH.
  destruct (is_cont d); cbn; by rewrite IH.
Qed.

Lemma sconcat_snoc l x : sconcat (l ++ [x]) = sconcat l +:+ x.
Proof. induction l as [|y l IH]; cbn; [by rewrite app_nil_r_str|]. unfold sconcat in IH. by rewrite IH, app_assoc_str. Qed.

Lemma sconcat_singletons l : sconcat ((λ c, String c EmptyString) <$> l) = String.string_of_list_ascii l.
Proof. induction l as [|c l IH]; cbn; [done|]. by rewrite <- IH. Qed.

(** ** Decimal printing and parsing are inverse *)
Lemma dec_acc_app acc a b : dec_acc acc (a +:+ b) = dec_acc (dec_acc acc a) b.
Proof. revert acc; induction a as [|c a IH]; intros acc; cbn; [done|apply IH]. Qed.

Lemma digit_char_ord n : (n < 10)%N → ord (digit_char n) = 48 + Z.of_N n.
Proof. intros H. unfold ord, digit_char. rewrite N_ascii_embedding; lia. Qed.

Lemma digit_char_digit n : (n < 10)%N → is_digit (digit_char n) = true.
Proof.
  intros H. unfold is_digit, in_range. rewrite digit_char_ord by done.
  change (ord "0") with 48. change (ord "9") with 57. lia.
Qed.

(** The canonical decimal numerals: ["0"], or a non-zero digit first. *)
Definition canonical_dec (s : string) : bool :=
  match s with
  | EmptyString => false
  | String c EmptyString => is_digit c
  | String c s => is_digit c && negb (Ascii.eqb c "0") && sall is_digit s
  end.

Lemma canonical_dec_digits s : canonical_dec s = true → sall is_digit s = true ∧ s ≠ EmptyString.
Proof.
  destruct s as [|c [|d s]]; cbn; [done| |].
  - by rewrite andb_true_r.
  - rewrite !andb_true_iff. naive_solver.
Qed.

Lemma canonical_dec_cons c d s :
  canonical_dec (String c (String d s)) = is_digit c && negb (Ascii.eqb c "0") && sall is_digit (String d s).
Proof. done. Qed.

Lemma dec_digits_spec fuel n acc :
  (0 < fuel)%nat → (n < 10 ^ N.of_nat fuel)%N →
  ∃ ds, dec_digits fuel n acc = ds +:+ acc ∧ dec_val ds = Z.of_N n ∧
        canonical_dec ds = true ∧ (n ≠ 0%N → startswith "0" ds = false).
Proof.
  revert n acc; induction fuel as [|fuel IH]; intros n acc Hf Hn; [lia|].
  cbn [dec_digits]. pose proof (N.mod_upper_bound n 10 ltac:(done)) as Hm.
  destruct (n <? 10)%N eqn:Hlt.
  - apply N.ltb_lt in Hlt. rewrite N.mod_small by done.
    exists (String (digit_char n) EmptyString). split_and!; [done| | |].
    + unfold dec_val; cbn. rewrite digit_char_ord by done. lia.
    + cbn. by apply digit_char_digit.
    + intros Hnz. apply not_true_iff_false. rewrite prefix_app. intros [t [= Ht _]].
      apply (f_equal ord) in Ht. rewrite digit_char_ord in Ht by done. change (ord "0") with 48 in Ht. lia.
  - apply N.ltb_ge in Hlt.
    assert (Hdiv : (n / 10 < 10 ^ N.of_nat fuel)%N).
    { rewrite Nat2N.inj_succ, N.pow_succ_r' in Hn. by apply N.Div0.div_lt_upper_bound. }
    assert (Hq : (0 < n / 10)%N) by (apply N.div_str_pos; lia).
    assert (Hfuel : (0 < fuel)%nat).
    { destruct fuel; [|lia]. cbn in Hdiv. lia. }
    destruct (IH (n / 10)%N (String (digit_char (n mod 10)) acc) Hfuel Hdiv)
      as (ds & -> & Hv & Hc & Hz).
    exists (ds +:+ String (digit_char (n mod 10)) EmptyString). split_and!.
    + by rewrite <- app_assoc_str.
    + unfold dec_val in *. rewrite dec_acc_app, Hv. cbn. rewrite digit_char_ord by done.
      pose proof (N.div_mod' n 10). lia.
    + destruct (canonical_dec_digits _ Hc) as [Hd Hne]. specialize (Hz ltac:(lia)).
      destruct ds as [|c ds]; [done|].
      assert (Hc0 : Ascii.eqb c "0" = false).
      { apply not_true_iff_false. intros ->%Ascii.eqb_eq. by destruct ds. }
      cbn in Hd. apply andb_true_iff in Hd as [Hd1 Hd2].
      assert (Hall : sall is_digit (ds +:+ String (digit_char (n mod 10)) "") = true).
      { rewrite sall_app, Hd2. cbn. by rewrite digit_char_digit. }
      change (String c ds +:+ ?x) with (String c (ds +:+ x)).
      destruct (ds +:+ String (digit_char (n mod 10)) "") as [|d r]; [done|].
      by rewrite canonical_dec_cons, Hd1, Hc0, Hall.
    + intros _. specialize (Hz ltac:(lia)). destruct ds as [|c ds]; [done|].
      apply not_true_iff_false. intros [t Ht]%prefix_app. injection Ht as -> _.
      cbn in Hz. by destruct ds.
Qed.

Lemma dec_of_N_spec n :
  dec_val (dec_of_N n) = Z.of_N n ∧ canonical_dec (dec_of_N n) = true.
Proof.
  unfold dec_of_N.
  destruct (dec_digits_spec (S (N.to_nat (N.log2 n))) n EmptyString) as (ds & -> & Hv & Hc & _).
  - lia.
  - rewrite Nat2N.inj_succ, N2Nat.id.
    destruct (decide (n = 0%N)) as [->|]; [done|].
    destruct (N.log2_spec n) as [_ H]; [lia|].
    eapply N.lt_le_trans; [exact H|]. apply N.pow_le_mono_l. lia.
  - by rewrite app_nil_r_str.
Qed.

Lemma dec_of_Z_val z : 0 <= z → dec_val (dec_of_Z z) = z.
Proof.
  intros Hz. destruct z as [|p|p]; [done| |lia].
  cbn [dec_of_Z]. by destruct (dec_of_N_spec (Npos p)) as [-> _].
Qed.

Lemma dec_of_Z_canonical z : 0 <= z → canonical_dec (dec_of_Z z) = true.
Proof.
  intros Hz. destruct z as [|p|p]; [done| |lia].
  cbn [dec_of_Z]. by destruct (dec_of_N_spec (Npos p)) as [_ ->].
Qed.

(** A numeral is determined by its length and value; a canonical numeral by its value. *)
Lemma digit_bounds c : is_digit c = true → 0 <= ord c - 48 <= 9.
Proof.
  unfold is_digit, in_range. change (ord "0") with 48. change (ord "9") with 57. lia.
Qed.

Lemma slen_cons c s : slen (String c s) = slen s + 1.
Proof. unfold slen; cbn [String.length]; lia. Qed.

Lemma dec_acc_shift acc s : dec_acc acc s = acc * 10 ^ slen s + dec_val s.
Proof.
  unfold dec_val. revert acc. induction s as [|c s IH]; intros acc; cbn; [unfold slen; cbn; lia|].
  rewrite (IH (acc * 10 + _)), (IH (0 * 10 + _)), slen_cons, Z.pow_add_r; [lia|apply slen_nonneg|done].
Qed.

Lemma dec_val_cons c s : dec_val (String c s) = (ord c - 48) * 10 ^ slen s + dec_val s.
Proof. unfold dec_val at 1; cbn [dec_acc]. by rewrite dec_acc_shift. Qed.

Lemma pow10_pos s : 0 < 10 ^ slen s.
Proof. apply Z.pow_pos_nonneg; [lia|apply slen_nonneg]. Qed.

Lemma dec_val_bounds s : sall is_digit s = true → 0 <= dec_val s < 10 ^ slen s.
Proof.
  induction s as [|c s IH]; cbn [sall]; [unfold dec_val, slen; cbn; lia|].
  rewrite andb_true_iff. intros [Hc Hs]. specialize (IH Hs). apply digit_bounds in Hc.
  rewrite dec_val_cons, slen_cons, Z.pow_add_r by (try apply slen_nonneg; lia). nia.
Qed.

Lemma dec_val_inj_len s t :
  sall is_digit s = true → sall is_digit t = true → String.length s = String.length t →
  dec_val s = dec_val t → s = t.
Proof.
  revert t; induction s as [|c s IH]; intros [|d t]; cbn [sall String.length]; try done.
  rewrite !andb_true_iff. intros [Hc Hs] [Hd Ht] [= Hl].
  rewrite !dec_val_cons. intros Heq.
  apply digit_bounds in Hc, Hd.
  pose proof (dec_val_bounds s Hs). pose proof (dec_val_bounds t Ht).
  assert (Hsl : slen s = slen t) by (unfold slen; lia). rewrite Hsl in *.
  assert (ord c = ord d) by nia.
  f_equal; [by apply ord_inj|]. apply IH; [done..|nia].
Qed.

Lemma canonical_dec_lower s :
  canonical_dec s = true → s = "0" ∨ 10 ^ (slen s - 1) <= dec_val s.
Proof.
  destruct s as [|c s]; [done|]. intros H.
  destruct (decide (c = "0"%char)) as [->|Hne].
  { destruct s as [|d s]; [by left|]. done. }
  right. destruct (canonical_dec_digits _ H) as [Hds _]. cbn [sall] in Hds. bool_inv.
  pose proof (dec_val_bounds s ltac:(done)). pose proof (digit_bounds c ltac:(done)).
  assert (ord c ≠ 48). { intros Hc. apply Hne, ord_inj. by rewrite Hc. }
  rewrite dec_val_cons, slen_cons. replace (slen s + 1 - 1) with (slen s) by lia.
  pose proof (pow10_pos s). nia.
Qed.

Lemma canonical_dec_zero u : canonical_dec u = true → dec_val u = 0 → u = "0".
Proof.
  intros Hu Hv. destruct (canonical_dec_lower u Hu) as [?|Hl]; [done|].
  rewrite Hv in Hl. assert (0 < 10 ^ (slen u - 1)); [|lia].
  destruct u; [done|]. rewrite slen_cons.
  apply Z.pow_pos_nonneg; [lia|]. pose proof (slen_nonneg u). lia.
Qed.

Lemma canonical_dec_inj s t :
  canonical_dec s = true → canonical_dec t = true → dec_val s = dec_val t → s = t.
Proof.
  intros Hs Ht Heq.
  destruct (canonical_dec_digits _ Hs) as [Hsd Hsn], (canonical_dec_digits _ Ht) as [Htd Htn].
  pose proof (dec_val_bounds s Hsd). pose proof (dec_val_bounds t Htd).
  destruct (canonical_dec_lower s Hs) as [Es|Ls].
  { subst s. symmetry. by apply canonical_dec_zero. }
  destruct (canonical_dec_lower t Ht) as [Et|Lt].
  { subst t. by apply canonical_dec_zero. }
  apply dec_val_inj_len; try done.
  pose proof (slen_nonneg s). pose proof (slen_nonneg t).
  assert (slen s - 1 < slen t) by (apply (Z.pow_lt_mono_r_iff 10); lia).
  assert (slen t - 1 < slen s) by (apply (Z.pow_lt_mono_r_iff 10); lia).
  unfold slen in *; lia.
Qed.

Lemma canonical_dec_of_Z s : canonical_dec s = true → s = dec_of_Z (dec_val s).
Proof.
  intros Hs. destruct (canonical_dec_digits _ Hs) as [Hd _].
  pose proof (dec_val_bounds s Hd).
  apply canonical_dec_inj; [done|apply dec_of_Z_canonical; lia|by rewrite dec_of_Z_val by lia].
Qed.

Lemma int_of_digits_canonical s :
  sall is_digit s = true → slen s <= 4300 → int_of_digits s = Ok (dec_val s).
Proof. intros _ Hs. unfold int_of_digits. by destruct (Z.ltb_spec 4300 (slen s)); [lia|]. Qed.

Lemma is_digit_ascii c : is_digit c = true → is_ascii7 c = true.
Proof. intros H%digit_bounds. unfold is_ascii7. lia. Qed.

Lemma digit_of_cp_digit c : is_digit c = true → digit_of_cp (ord c) = Some (ord c - 48).
Proof.
  intros H%digit_bounds. unfold digit_of_cp, nd_zeros. cbn [list_find].
  by rewrite decide_True by lia.
Qed.

Lemma digits_uchars s : sall is_digit s = true →
  uchars s = (λ c, String c EmptyString) <$> String.list_ascii_of_string s.
Proof. intros H. apply uchars_ascii. eapply sall_impl; [apply is_digit_ascii|done]. Qed.

(** On ASCII digits [isdecimal] holds and [int] is the positional value. *)
Lemma isdecimal_digits s : sall is_digit s = true → s ≠ EmptyString → isdecimal s = true.
Proof.
  intros H Hne. unfold isdecimal. apply andb_true_iff. split.
  { destruct s; done. }
  rewrite digits_uchars by done. clear Hne. induction s as [|c s IH]; [done|].
  cbn [sall] in H. apply andb_true_iff in H as [Hc Hs].
  cbn [String.list_ascii_of_string fmap list_fmap forallb]. rewrite (IH Hs), andb_true_r.
  cbn [code_point]. by rewrite digit_of_cp_digit.
Qed.

Lemma length_list_ascii s : length (String.list_ascii_of_string s) = String.length s.
Proof. induction s; cbn; congruence. Qed.

Lemma foldl_digits acc s :
  sall is_digit s = true →
  foldl dec_step acc ((λ u, default 0 (digit_of_cp (code_point u))) <$>
    ((λ c, String c EmptyString) <$> String.list_ascii_of_string s)) = dec_acc acc s.
Proof.
  revert acc; induction s as [|c s IH]; intros acc H; [done|]. cbn [sall] in H.
  apply andb_true_iff in H as [Hc Hs].
  cbn [String.list_ascii_of_string fmap list_fmap foldl dec_acc code_point].
  rewrite digit_of_cp_digit by done. by apply IH.
Qed.

Lemma int_of_decimal_digits s :
  sall is_digit s = true → slen s <= 4300 → int_of_decimal s = Ok (dec_val s).
Proof.
  intros H Hl. unfold int_of_decimal. rewrite digits_uchars by done.
  rewrite length_fmap, length_fmap, length_list_ascii.
  destruct (Nat.ltb_spec 4300 (String.length s)); [unfold slen in Hl; lia|].
  f_equal. by apply foldl_digits.
Qed.

Lemma dec_of_Z_digits n : 0 <= n → sall is_digit (dec_of_Z n) = true.
Proof. intros H. by apply canonical_dec_digits, dec_of_Z_canonical. Qed.

Lemma dec_of_Z_len n k : 0 <= n < 10 ^ k → 1 <= k → slen (dec_of_Z n) <= k.
Proof.
  intros Hn Hk. destruct (canonical_dec_lower (dec_of_Z n)) as [->|Hl].
  - apply dec_of_Z_canonical; lia.
  - unfold slen; cbn; lia.
  - rewrite dec_of_Z_val in Hl by lia.
    destruct (Z.le_gt_cases (slen (dec_of_Z n)) k) as [?|Hgt]; [done|].
    assert (10 ^ k <= 10 ^ (slen (dec_of_Z n) - 1)); [|lia].
    apply Z.pow_le_mono_r; lia.
Qed.

Lemma split_once_app c s a b : split_once c s = Some (a, b) → s = a +:+ String c b.
Proof.
  revert a b; induction s as [|x s IH]; intros a b; cbn [split_once]; [done|].
  destruct (Ascii.eqb x c) eqn:E.
  - apply Ascii.eqb_eq in E as ->. by intros [= <- <-].
  - destruct (split_once c s) as [[h t]|] eqn:F; [|done]. cbn. intros [= <- <-].
    by rewrite (IH _ _ eq_refl).
Qed.

Lemma split_once_free c s t : free_of c s = true → split_once c (s +:+ String c t) = Some (s, t).
Proof.
  unfold free_of. induction s as [|x s IH]; cbn [sall].
  - intros _. change (EmptyString +:+ String c t) with (String c t). cbn. by rewrite Ascii.eqb_refl.
  - rewrite andb_true_iff, negb_true_iff. intros [Hx Hs].
    change (String x s +:+ String c t) with (String x (s +:+ String c t)). cbn [split_once].
    rewrite Hx. by rewrite IH.
Qed.

Lemma smap_length f s : String.length (smap f s) = String.length s.
Proof. induction s; cbn; congruence. Qed.

Lemma isascii_app a b : isascii (a +:+ b) = isascii a && isascii b.
Proof. apply sall_app. Qed.

Lemma endswith_split p s :
  endswith p s = true → s = stake (String.length s - String.length p) s +:+ p.
Proof.
  unfold endswith. rewrite andb_true_iff. intros [_ He]. apply String.eqb_eq in He.
  transitivity (stake (String.length s - String.length p) s +:+ sdrop (String.length s - String.length p) s); [by rewrite stake_sdrop|by rewrite He].
Qed.

Lemma endswith_app p s : endswith p (s +:+ p) = true.
Proof.
  unfold endswith. rewrite app_length_str, andb_true_iff. split.
  - apply Nat.leb_le. lia.
  - replace (String.length s + String.length p - String.length p)%nat with (String.length s) by lia.
    by rewrite sdrop_app, String.eqb_refl.
Qed.

Lemma split_on_cat c a b : split_on c (a +:+ String c b) = split_on c a ++ split_on c b.
Proof.
  induction a as [|x a IH]; cbn.
  - by rewrite Ascii.eqb_refl.
  - destruct (Ascii.eqb x c); cbn; rewrite IH; [done|].
    pose proof (split_on_nonempty c a). by destruct (split_on c a).
Qed.

(** What [rstrip] leaves and what it takes off. *)
Lemma rstrip_c_split p s : ∃ t, s = rstrip_c p s +:+ t ∧ sall p t = true.
Proof.
  induction s as [|c s (t & Hs & Ht)]; [by exists EmptyString|]. cbn [rstrip_c].
  destruct (rstrip_c p s) as [|d r] eqn:E.
  - destruct (p c) eqn:Hc.
    + exists (String c s). split; [done|]. cbn [sall]. rewrite Hc. cbn. by rewrite Hs.
    + exists t. split; [|done]. change (String c EmptyString +:+ t) with (String c t). by rewrite Hs at 1.
  - exists t. split; [|done]. rewrite Hs at 1. done.
Qed.

(** Lengths of concatenations with literal parts. *)
Ltac slen_norm :=
  rewrite ?slen_app;
  repeat match goal with
  | |- context [slen (String ?c ?s)] =>
      let n := eval vm_compute in (slen (String c s)) in
      lazymatch n with Zpos _ => change (slen (String c s)) with n end
  end.

(** ** Printable lines *)
(** ASCII text without spaces and control characters. *)
Definition printable (s : string) : bool := sall (in_range "!" "~") s.
Abbreviation singles s := ((λ c, String c EmptyString) <$> String.list_ascii_of_string s).

Lemma printable_ascii s : printable s = true → isascii s = true.
Proof.
  apply sall_impl. intros c. unfold in_range, is_ascii7. rewrite andb_true_iff, !Z.leb_le, Z.ltb_lt.
  change (ord "~") with 126. lia.
Qed.

Lemma code_point_single c : is_ascii7 c = true → code_point (String c EmptyString) = ord c.
Proof. unfold is_ascii7. intros H%Z.ltb_lt. unfold code_point. cbn. by destruct (ord c <? 128) eqn:E; [|lia]. Qed.

Lemma printable_char c : in_range "!" "~" c = true →
  is_space_u (String c EmptyString) = false ∧ is_line_u (String c EmptyString) = false.
Proof.
  intros H. assert (is_ascii7 c = true) as Ha.
  { revert H. unfold in_range, is_ascii7. rewrite andb_true_iff, !Z.leb_le, Z.ltb_lt. change (ord "~") with 126. lia. }
  unfold in_range in H. rewrite andb_true_iff, !Z.leb_le in H. change (ord "!") with 33 in H. change (ord "~") with 126 in H.
  unfold is_space_u, is_line_u. rewrite !code_point_single by done. split; apply bool_decide_eq_false.
  - unfold space_points. rewrite !elem_of_cons, elem_of_nil. lia.
  - unfold line_points. rewrite !elem_of_cons, elem_of_nil. lia.
Qed.

Lemma lines_go_printable s : printable s = true → ∀ cur rest,
  lines_go is_line_u cur (singles s ++ rest) = lines_go is_line_u (reverse (singles s) ++ cur) rest.
Proof.
  induction s as [|c s IH]; intros Hs cur rest; [done|]. cbn in Hs. apply andb_true_iff in Hs as [Hc Hs].
  cbn [String.list_ascii_of_string fmap list_fmap app lines_go].
  destruct (printable_char c Hc) as [_ ->]. rewrite IH by done. by rewrite reverse_cons, <- app_assoc.
Qed.

Lemma sconcat_singles s : sconcat (singles s) = s.
Proof. rewrite sconcat_singletons. apply String.string_of_list_ascii_of_string. Qed.

Lemma list_ascii_app a b :
  String.list_ascii_of_string (a +:+ b) = String.list_ascii_of_string a ++ String.list_ascii_of_string b.
Proof. induction a as [|c a IH]; [done|]. cbn. by rewrite IH. Qed.

Definition printable_lines (ls : list string) : Prop := Forall (λ l, printable l = true ∧ l ≠ EmptyString) ls.

Lemma join_ascii ls : printable_lines ls → isascii (join LF ls) = true.
Proof.
  induction 1 as [|l ls [Hl _] Hls IH]; [done|]. destruct ls as [|l' ls]; [by apply printable_ascii|].
  rewrite join_cons, !isascii_app, IH, printable_ascii by done. done.
Qed.

Lemma splitlines_join ls : printable_lines ls → splitlines (join LF ls) = ls.
Proof.
  intros H. unfold splitlines. rewrite uchars_ascii by (by apply join_ascii).
  induction H as [|l ls [Hl Hn] Hls IH]; [done|]. destruct ls as [|l' ls].
  - cbn [join]. rewrite <- (app_nil_r (singles l)), lines_go_printable by done. cbn [lines_go].
    rewrite app_nil_r. destruct (reverse (singles l)) as [|x r] eqn:E.
    + destruct l as [|c l]; [done|]. apply (f_equal reverse) in E. rewrite reverse_involutive in E. done.
    + rewrite <- E, reverse_involutive. by rewrite sconcat_singles.
  - rewrite join_cons, !list_ascii_app, !fmap_app, lines_go_printable by done.
    rewrite app_nil_r. cbn [String.list_ascii_of_string LF fmap list_fmap app lines_go].
    replace (is_line_u (String "010" EmptyString)) with true by (by vm_compute).
    rewrite reverse_involutive, sconcat_singles. f_equal.
    rewrite <- IH at 2. destruct (singles (join LF (l' :: ls))); [done|]. by cbn.
Qed.

Lemma drop_while_head {A} (p : A → bool) l : (∀ x, head l = Some x → p x = false) → drop_while p l = l.
Proof. destruct l as [|x l]; [done|]. intros H. cbn. by rewrite (H x). Qed.

Lemma strip_ends s :
  isascii s = true →
  (∀ c, head (String.list_ascii_of_string s) = Some c → in_range "!" "~" c = true) →
  (∀ c, last (String.list_ascii_of_string s) = Some c → in_range "!" "~" c = true) → strip s = s.
Proof.
  intros Ha Hh Hl. unfold strip. rewrite uchars_ascii by done.
  rewrite (drop_while_head _ (singles s)).
  - rewrite drop_while_head, reverse_involutive, sconcat_singles; [done|].
    intros x Hx. rewrite head_reverse, fmap_last in Hx. destruct (last _) as [c|] eqn:E; [|done].
    injection Hx as <-. by apply printable_char, Hl.
  - intros x Hx. destruct (String.list_ascii_of_string s) as [|c r]; [done|].
    injection Hx as <-. by apply printable_char, Hh.
Qed.

Lemma join_head sep l ls : l ≠ EmptyString →
  head (String.list_ascii_of_string (join sep (l :: ls))) = head (String.list_ascii_of_string l).
Proof. intros Hn. destruct l as [|c l]; [done|]. by destruct ls. Qed.

Lemma join_last sep l ls : ls ≠ [] → Forall (λ l, l ≠ EmptyString) ls →
  last (String.list_ascii_of_string (join sep (l :: ls))) = last (String.list_ascii_of_string (join sep ls)).
Proof.
  intros Hn Hf. destruct ls as [|l' ls]; [done|]. rewrite join_cons, !list_ascii_app, app_assoc.
  apply Forall_cons in Hf as [Hl' _].
  assert (String.list_ascii_of_string (join sep (l' :: ls)) ≠ []) as Hne.
  { destruct l' as [|c l']; [done|]. by destruct ls. }
  destruct (String.list_ascii_of_string (join sep (l' :: ls))) as [|x r _] using rev_ind; [done|].
  by rewrite app_assoc, !last_snoc.
Qed.

Lemma sall_list p s c : sall p s = true → c ∈ String.list_ascii_of_string s → p c = true.
Proof.
  induction s as [|d s IH]; cbn; [by intros _ ?%elem_of_nil|].
  rewrite andb_true_iff, elem_of_cons. intros [Hd Hs] [->|H]; auto.
Qed.

Lemma strip_join ls : printable_lines ls → strip (join LF ls) = join LF ls.
Proof.
  intros H. apply strip_ends; [by apply join_ascii|..].
  - destruct H as [|l ls [Hl Hn] _]; [done|]. rewrite join_head by done. intros c Hc.
    eapply sall_list; [exact Hl|]. destruct (String.list_ascii_of_string l) as [|d r]; [done|]. injection Hc as ->. left.
  - induction H as [|l ls [Hl Hn] Hls IH]; [done|]. destruct ls as [|l' ls].
    + intros c Hc. eapply sall_list; [exact Hl|]. by apply last_Some_elem_of.
    + rewrite join_last; [done|done|]. eapply Forall_impl; [exact Hls|]. by intros ? [].
Qed.

Lemma rstrip_c_idem p s : rstrip_c p (rstrip_c p s) = rstrip_c p s.
Proof.
  induction s as [|c s IH]; [done|]. cbn [rstrip_c]. destruct (rstrip_c p s) as [|d r] eqn:E.
  - destruct (p c) eqn:Hc; [done|]. cbn. by rewrite Hc.
  - cbn [rstrip_c] in *. by rewrite IH.
Qed.

(** [str(z)], with CPython's limit of 4300 digits. *)
Definition int_text (z : Z) : result string :=
  if 4300 <? slen (dec_of_Z (Z.abs z)) then raise ValueError "int string conversion limit" else Ok (dec_of_Z z).
