(* ===== verification/Regex.v ===== *)
(** * Regular expressions

    The scripts validate almost every identity with [re.fullmatch].  A pattern
    is a term of [regex]; [fullmatch] runs it by derivatives and
    [fullmatch_spec] relates it to the language of the pattern.  Character
    classes are ASCII predicates, so matching the UTF-8 encoding is matching
    the text. *)

From S2P Require Import Prelude PyStr.

Local Open Scope string_scope.
Local Open Scope list_scope.

Inductive regex :=
  | RFail
  | REmpty
  | RChar (p : ascii → bool)
  | RSeq (r1 r2 : regex)
  | RAlt (r1 r2 : regex)
  | RStar (r : regex).

Declare Scope regex_scope.
Delimit Scope regex_scope with re.
Infix "⋅" := RSeq (at level 40, left associativity) : regex_scope.
Infix "∣" := RAlt (at level 50, left associativity) : regex_scope.
Local Open Scope regex_scope.

(** A literal text, [r{n}], [r{0,n}], [r{m,n}], [r+], [r?]. *)
Fixpoint RLit (s : string) : regex :=
  match s with EmptyString => REmpty | String c s => RSeq (RChar (is_one c)) (RLit s) end.
Fixpoint RRep (n : nat) (r : regex) : regex :=
  match n with O => REmpty | S n => RSeq r (RRep n r) end.
Fixpoint RUpto (n : nat) (r : regex) : regex :=
  match n with O => REmpty | S n => RAlt REmpty (RSeq r (RUpto n r)) end.
Definition RRange (m n : nat) (r : regex) : regex := RSeq (RRep m r) (RUpto (n - m) r).
Definition RPlus (r : regex) : regex := RSeq r (RStar r).
Definition ROpt (r : regex) : regex := RAlt REmpty r.
Fixpoint RAny (l : list string) : regex :=
  match l with [] => RFail | s :: l => RAlt (RLit s) (RAny l) end.

(** ** The language of a pattern *)
Inductive matches : regex → string → Prop :=
  | m_empty : matches REmpty EmptyString
  | m_char p c : p c = true → matches (RChar p) (String c EmptyString)
  | m_seq r1 r2 s1 s2 : matches r1 s1 → matches r2 s2 → matches (RSeq r1 r2) (s1 +:+ s2)
  | m_alt_l r1 r2 s : matches r1 s → matches (RAlt r1 r2) s
  | m_alt_r r1 r2 s : matches r2 s → matches (RAlt r1 r2) s
  | m_star_nil r : matches (RStar r) EmptyString
  | m_star_app r s1 s2 : matches r s1 → matches (RStar r) s2 → matches (RStar r) (s1 +:+ s2).

(** ** Matching by derivatives *)
Fixpoint nullable (r : regex) : bool :=
  match r with
  | RFail | RChar _ => false
  | REmpty | RStar _ => true
  | RSeq r1 r2 => nullable r1 && nullable r2
  | RAlt r1 r2 => nullable r1 || nullable r2
  end.

(** Smart constructors keep the derivatives small. *)
Definition seq' (r1 r2 : regex) : regex :=
  match r1 with RFail => RFail | REmpty => r2 | _ => RSeq r1 r2 end.
Definition alt' (r1 r2 : regex) : regex :=
  match r1, r2 with RFail, _ => r2 | _, RFail => r1 | _, _ => RAlt r1 r2 end.

Fixpoint deriv (c : ascii) (r : regex) : regex :=
  match r with
  | RFail | REmpty => RFail
  | RChar p => if p c then REmpty else RFail
  | RSeq r1 r2 =>
      if nullable r1 then alt' (seq' (deriv c r1) r2) (deriv c r2) else seq' (deriv c r1) r2
  | RAlt r1 r2 => alt' (deriv c r1) (deriv c r2)
  | RStar r => seq' (deriv c r) (RStar r)
  end.

Fixpoint fullmatch (r : regex) (s : string) : bool :=
  match s with EmptyString => nullable r | String c s => fullmatch (deriv c r) s end.

(** ** Inversion of the language *)
Lemma matches_fail s : matches RFail s ↔ False.
Proof. split; [inversion 1|done]. Qed.
Lemma matches_empty s : matches REmpty s ↔ s = EmptyString.
Proof. split; [by inversion 1|]. intros ->. constructor. Qed.
Lemma matches_char p s : matches (RChar p) s ↔ ∃ c, s = String c EmptyString ∧ p c = true.
Proof. split; [inversion 1; eauto|]. intros (c & -> & ?). by constructor. Qed.
Lemma matches_seq r1 r2 s :
  matches (RSeq r1 r2) s ↔ ∃ s1 s2, s = s1 +:+ s2 ∧ matches r1 s1 ∧ matches r2 s2.
Proof. split; [inversion 1; eauto 6|]. intros (s1 & s2 & -> & ? & ?). by constructor. Qed.
Lemma matches_alt r1 r2 s : matches (RAlt r1 r2) s ↔ matches r1 s ∨ matches r2 s.
Proof. split; [inversion 1; auto|]. intros [?|?]; [by apply m_alt_l|by apply m_alt_r]. Qed.

Lemma matches_seq' r1 r2 s : matches (seq' r1 r2) s ↔ matches (RSeq r1 r2) s.
Proof.
  destruct r1; try done; cbn; rewrite matches_seq.
  - rewrite matches_fail. setoid_rewrite matches_fail. naive_solver.
  - setoid_rewrite matches_empty. split.
    + intros H. by exists EmptyString, s.
    + by intros (? & ? & -> & -> & ?).
Qed.

Lemma matches_alt' r1 r2 s : matches (alt' r1 r2) s ↔ matches (RAlt r1 r2) s.
Proof.
  rewrite (matches_alt r1 r2).
  assert (r1 = RFail ∨ r2 = RFail ∨ alt' r1 r2 = RAlt r1 r2) as [->|[->| ->]].
  - destruct r1; auto; destruct r2; auto.
  - cbn. rewrite matches_fail. tauto.
  - rewrite matches_fail. destruct r1; cbn; rewrite ?matches_fail; tauto.
  - by rewrite matches_alt.
Qed.

Lemma nullable_spec r : nullable r = true ↔ matches r EmptyString.
Proof.
  induction r as [| |p|r1 IH1 r2 IH2|r1 IH1 r2 IH2|r IH]; cbn.
  - by rewrite matches_fail.
  - by rewrite matches_empty.
  - rewrite matches_char. naive_solver.
  - rewrite andb_true_iff, IH1, IH2, matches_seq. split.
    + intros [? ?]. by exists EmptyString, EmptyString.
    + intros ([|x s1] & [|y s2] & H & ? & ?); done.
  - by rewrite orb_true_iff, IH1, IH2, matches_alt.
  - split; [constructor|done].
Qed.

Lemma star_cons r c s :
  matches (RStar r) (String c s) →
  ∃ s1 s2, s = s1 +:+ s2 ∧ matches r (String c s1) ∧ matches (RStar r) s2.
Proof.
  remember (RStar r) as r' eqn:Hr. remember (String c s) as t eqn:Ht.
  intros H. revert r Hr c s Ht.
  induction H as [| | | | | |r0 s1 s2 H1 _ H2 IH2]; intros r' Hr c' s' Ht; try discriminate.
  injection Hr as <-. destruct s1 as [|d s1]; cbn in Ht.
  - destruct (IH2 _ eq_refl _ _ Ht) as (a & b & ? & ? & ?). eauto.
  - injection Ht as -> <-. eauto.
Qed.

Lemma deriv_spec r c s : matches (deriv c r) s ↔ matches r (String c s).
Proof.
  revert s; induction r as [| |p|r1 IH1 r2 IH2|r1 IH1 r2 IH2|r IH]; intros s; cbn.
  - by rewrite !matches_fail.
  - by rewrite matches_fail, matches_empty.
  - rewrite matches_char. destruct (p c) eqn:Hp.
    + rewrite matches_empty. split; [intros ->; eauto|]. intros (d & Hd & _); by injection Hd.
    + rewrite matches_fail. split; [done|]. intros (d & Hd & ?); injection Hd; congruence.
  - assert (Hseq : matches (seq' (deriv c r1) r2) s ↔
      ∃ s1 s2, s = s1 +:+ s2 ∧ matches r1 (String c s1) ∧ matches r2 s2).
    { rewrite matches_seq', matches_seq. by setoid_rewrite IH1. }
    assert (Hall : matches (RSeq r1 r2) (String c s) ↔
      matches (seq' (deriv c r1) r2) s ∨ (matches r1 EmptyString ∧ matches r2 (String c s))).
    { rewrite Hseq, matches_seq. split.
      - intros ([|d s1] & s2 & Heq & H1 & H2); cbn in Heq.
        + right. subst. done.
        + injection Heq as -> ->. left; eauto.
      - intros [(s1 & s2 & -> & ? & ?)|[? ?]].
        + by exists (String c s1), s2.
        + by exists EmptyString, (String c s). }
    destruct (nullable r1) eqn:Hn.
    + apply nullable_spec in Hn. rewrite matches_alt', matches_alt, IH2. tauto.
    + rewrite Hall. split; [by left|]. intros [?|[Hm _]]; [done|].
      apply nullable_spec in Hm. congruence.
  - by rewrite matches_alt', !matches_alt, IH1, IH2.
  - rewrite matches_seq', matches_seq. setoid_rewrite IH. split.
    + intros (s1 & s2 & -> & ? & ?). change (String c (s1 +:+ s2)) with (String c s1 +:+ s2).
      by constructor.
    + apply star_cons.
Qed.

Lemma fullmatch_spec r s : fullmatch r s = true ↔ matches r s.
Proof.
  revert r; induction s as [|c s IH]; intros r; cbn; [apply nullable_spec|].
  rewrite IH. apply deriv_spec.
Qed.

(** ** Languages of the derived forms *)
Lemma matches_lit s t : matches (RLit s) t ↔ t = s.
Proof.
  revert t; induction s as [|c s IH]; intros t; cbn [RLit]; [apply matches_empty|].
  rewrite matches_seq. split.
  - intros (a & b & -> & (d & -> & Hd)%matches_char & ->%IH).
    apply Ascii.eqb_eq in Hd as ->. done.
  - intros ->. exists (String c EmptyString), s. split_and!; [done| |by apply IH].
    apply matches_char. exists c. split; [done|apply Ascii.eqb_refl].
Qed.

Lemma matches_any l t : matches (RAny l) t ↔ t ∈ l.
Proof.
  induction l as [|s l IH]; cbn [RAny].
  - rewrite matches_fail. set_solver.
  - rewrite matches_alt, matches_lit, IH. set_solver.
Qed.

Lemma matches_rep_char n p s :
  matches (RRep n (RChar p)) s ↔ String.length s = n ∧ sall p s = true.
Proof.
  revert s; induction n as [|n IH]; intros s; cbn [RRep].
  - rewrite matches_empty. split; [by intros ->|]. intros [? _]. by destruct s.
  - rewrite matches_seq. split.
    + intros (a & b & -> & (c & -> & Hc)%matches_char & [<- Hb]%IH). cbn. by rewrite Hc, Hb.
    + destruct s as [|c s]; cbn; [by intros []|]. rewrite andb_true_iff. intros ([= Hl] & Hc & Hs).
      exists (String c EmptyString), s. split_and!; [done| |by apply IH].
      apply matches_char; eauto.
Qed.

Lemma matches_upto_char n p s :
  matches (RUpto n (RChar p)) s ↔ (String.length s <= n)%nat ∧ sall p s = true.
Proof.
  revert s; induction n as [|n IH]; intros s; cbn [RUpto].
  - rewrite matches_empty. split; [by intros ->|]. intros [? _]. destruct s; cbn in *; [done|lia].
  - rewrite matches_alt, matches_empty, matches_seq. split.
    + intros [->|(a & b & -> & (c & -> & Hc)%matches_char & [? Hb]%IH)]; cbn; [split; [lia|done]|].
      rewrite Hc, Hb. split; [lia|done].
    + destruct s as [|c s]; cbn; [by left|]. rewrite andb_true_iff. intros (Hl & Hc & Hs). right.
      exists (String c EmptyString), s. split_and!; [done| |].
      * apply matches_char; eauto.
      * apply IH. split; [lia|done].
Qed.

Lemma matches_star_char p s : matches (RStar (RChar p)) s ↔ sall p s = true.
Proof.
  split.
  - remember (RStar (RChar p)) as r eqn:Hr. induction 1; try discriminate; [done|].
    injection Hr as ->. rewrite sall_app, IHmatches2 by done.
    apply matches_char in H as (c & -> & Hc). cbn. by rewrite Hc.
  - induction s as [|c s IH]; cbn; [constructor|]. rewrite andb_true_iff. intros [Hc Hs].
    apply (m_star_app _ (String c EmptyString)); [by constructor|auto].
Qed.

Lemma matches_plus_char p s : matches (RPlus (RChar p)) s ↔ s ≠ EmptyString ∧ sall p s = true.
Proof.
  unfold RPlus. rewrite matches_seq. setoid_rewrite matches_star_char. setoid_rewrite matches_char. split.
  - intros (a & b & -> & (c & -> & Hc) & Hb). cbn. by rewrite Hc.
  - intros [Hne Hs]. destruct s as [|c s]; [done|]. cbn in Hs. apply andb_true_iff in Hs as [Hc Hs].
    exists (String c EmptyString), s. eauto.
Qed.

Lemma fullmatch_rep n p s :
  fullmatch (RRep n (RChar p)) s = true ↔ String.length s = n ∧ sall p s = true.
Proof. rewrite fullmatch_spec. apply matches_rep_char. Qed.

(** Canonical decimal numerals of at most [n + 1] digits. *)
Definition decimal_re (n : nat) : regex :=
  RLit "0" ∣ RChar (in_range "1" "9") ⋅ RUpto n (RChar is_digit).

Lemma nonzero_digit c : in_range "1" "9" c = is_digit c && negb (Ascii.eqb c "0").
Proof. destruct c as [[] [] [] [] [] [] [] []]; reflexivity. Qed.

Lemma decimal_re_canonical n s :
  fullmatch (decimal_re n) s = true ↔ canonical_dec s = true ∧ (String.length s <= S n)%nat.
Proof.
  rewrite fullmatch_spec. unfold decimal_re. rewrite matches_alt, matches_lit, matches_seq. split.
  - intros [->|(a & b & -> & (c & -> & Hc)%matches_char & [Hl Hb]%matches_upto_char)]; [cbn; split; [done|lia]|].
    rewrite nonzero_digit in Hc. apply andb_true_iff in Hc as [Hd H0]. split; [|cbn; lia].
    destruct b as [|d b]; [exact Hd|]. change (String c EmptyString +:+ String d b) with (String c (String d b)).
    by rewrite canonical_dec_cons, Hd, H0, Hb.
  - intros [Hs Hl]. destruct s as [|c [|d s]]; [done| |].
    + cbn in Hs. destruct (Ascii.eqb c "0") eqn:E.
      * apply Ascii.eqb_eq in E as ->. by left.
      * right. exists (String c EmptyString), EmptyString. split_and!; [done| |by apply matches_upto_char; split; [cbn; lia|]].
        apply matches_char. exists c. rewrite nonzero_digit, Hs, E. done.
    + rewrite canonical_dec_cons in Hs. rewrite !andb_true_iff in Hs. destruct Hs as [[Hd H0] Hs]. right.
      exists (String c EmptyString), (String d s). split_and!; [done| |].
      * apply matches_char. exists c. by rewrite nonzero_digit, Hd, H0.
      * apply matches_upto_char. cbn [String.length] in *. split; [lia|done].
Qed.

(** A numeral the pattern accepts is the numeral of its value. *)
Lemma decimal_re_value n s :
  fullmatch (decimal_re n) s = true ↔ ∃ z, s = dec_of_Z z ∧ (0 <= z < 10 ^ (Z.of_nat n + 1))%Z.
Proof.
  rewrite decimal_re_canonical. split.
  - intros [Hs Hl]. exists (dec_val s). split; [by apply canonical_dec_of_Z|].
    destruct (canonical_dec_digits _ Hs) as [Hd _]. pose proof (dec_val_bounds s Hd).
    assert (10 ^ slen s <= 10 ^ (Z.of_nat n + 1))%Z; [|lia].
    apply Z.pow_le_mono_r; unfold slen; lia.
  - intros (z & -> & Hz). split; [apply dec_of_Z_canonical; lia|].
    pose proof (dec_of_Z_len z (Z.of_nat n + 1)%Z Hz ltac:(lia)). unfold slen in *. lia.
Qed.

(** [.]: one code point other than a newline, by its encoding *)
Definition RDot : regex :=
  RChar (λ c, is_ascii7 c && negb (Ascii.eqb c "010"))
  ∣ RChar (byte_in 192 223) ⋅ RChar is_cont
  ∣ RChar (byte_in 224 239) ⋅ RChar is_cont ⋅ RChar is_cont
  ∣ RChar (byte_in 240 247) ⋅ RChar is_cont ⋅ RChar is_cont ⋅ RChar is_cont.

(** The identity formats the scripts share. *)
Definition HEX64 : regex := RRep 64 (RChar is_lower_hex).
Definition HEX40 : regex := RRep 40 (RChar is_lower_hex).
Definition HEX32 : regex := RRep 32 (RChar is_lower_hex).

(** ** The characters a pattern can match *)
Fixpoint rall (p : ascii → bool) (r : regex) : bool :=
  match r with
  | RFail | REmpty => true
  | RChar q => forallb (λ n, implb (q (ascii_of_nat n)) (p (ascii_of_nat n))) (seq 0 256)
  | RSeq r1 r2 | RAlt r1 r2 => rall p r1 && rall p r2
  | RStar r => rall p r
  end.

Lemma matches_chars p r s : rall p r = true → matches r s → sall p s = true.
Proof.
  intros Hr H. induction H as [|q c Hc|r1 r2 s1 s2 _ IH1 _ IH2|r1 r2 s _ IH|r1 r2 s _ IH|r|r s1 s2 _ IH1 _ IH2];
    cbn [rall] in Hr; rewrite ?andb_true_iff in Hr.
  - done.
  - cbn. rewrite andb_true_r. rewrite forallb_forall in Hr.
    specialize (Hr (nat_of_ascii c)). rewrite ascii_nat_embedding in Hr.
    rewrite Hc in Hr. apply Hr. apply in_seq. pose proof (nat_ascii_bounded c). lia.
  - rewrite sall_app, IH1, IH2; naive_solver.
  - naive_solver.
  - naive_solver.
  - done.
  - by rewrite sall_app, IH1, IH2.
Qed.

Lemma fullmatch_chars p r s : rall p r = true → fullmatch r s = true → sall p s = true.
Proof. rewrite fullmatch_spec. apply matches_chars. Qed.

(** [[0-9a-f]{n}] *)
Definition hex (n : nat) : regex := RRep n (RChar is_lower_hex).
