(* ===== verification/Sha256.v ===== *)
(** * SHA-256 (FIPS 180-4), the digest behind [hashlib.sha256]

    32-bit words are [Z] values below [2^32]; every addition wraps.  The
    digest is executable, so witnesses compute real digests; nothing in the
    development assumes collision resistance. *)

From S2P Require Import Prelude PyStr.

Local Open Scope string_scope.
Local Open Scope list_scope.
Local Open Scope Z_scope.

Definition w32 (x : Z) : Z := Z.land x 4294967295.
Definition rotr (n x : Z) : Z := Z.lor (Z.shiftr x n) (w32 (Z.shiftl x (32 - n))).

Definition ch x y z := Z.lxor (Z.land x y) (Z.land (Z.lxor x 4294967295) z).
Definition maj x y z := Z.lxor (Z.lxor (Z.land x y) (Z.land x z)) (Z.land y z).
Definition bsig0 x := Z.lxor (Z.lxor (rotr 2 x) (rotr 13 x)) (rotr 22 x).
Definition bsig1 x := Z.lxor (Z.lxor (rotr 6 x) (rotr 11 x)) (rotr 25 x).
Definition ssig0 x := Z.lxor (Z.lxor (rotr 7 x) (rotr 18 x)) (Z.shiftr x 3).
Definition ssig1 x := Z.lxor (Z.lxor (rotr 17 x) (rotr 19 x)) (Z.shiftr x 10).

(** The round constants are the first 32 bits of the fractional parts of the
    cube roots of the first 64 primes, the initial hash those of the square
    roots of the first 8. *)
Fixpoint primes_from (fuel : nat) (n : Z) (found : list Z) : list Z :=
  match fuel with
  | O => reverse found
  | S fuel =>
      primes_from fuel (n + 1)
        (if forallb (λ p, negb (n mod p =? 0)) found then n :: found else found)
  end.

Fixpoint cbrt_bits (fuel : nat) (root n : Z) : Z :=
  match fuel with
  | O => root
  | S k => let r := root + 2 ^ Z.of_nat k in cbrt_bits k (if r * r * r <=? n then r else root) n
  end.

Definition small_primes : list Z := Eval vm_compute in primes_from 310 2 [].
Definition K256 : list Z :=
  Eval vm_compute in (λ p, cbrt_bits 36 0 (p * 2 ^ 96) mod 2 ^ 32) <$> small_primes.
Definition H0 : list Z :=
  Eval vm_compute in (λ p, Z.sqrt (p * 2 ^ 64) mod 2 ^ 32) <$> take 8 small_primes.

(** The message schedule, kept as the last sixteen words in reverse order. *)
Fixpoint schedule (n : nat) (rev16 : list Z) : list Z :=
  match n with
  | O => []
  | S n =>
      let w i := nth i rev16 0 in
      let x := w32 (ssig1 (w 1%nat) + w 6%nat + ssig0 (w 14%nat) + w 15%nat) in
      x :: schedule n (x :: take 15 rev16)
  end.

Definition sha_round (st : list Z) (kw : Z * Z) : list Z :=
  match st with
  | [a; b; c; d; e; f; g; h] =>
      let t1 := w32 (h + bsig1 e + ch e f g + kw.1 + kw.2) in
      let t2 := w32 (bsig0 a + maj a b c) in
      [w32 (t1 + t2); a; b; c; w32 (d + t1); e; f; g]
  | _ => st
  end.

Definition compress (h : list Z) (block : list Z) : list Z :=
  let ws := block ++ schedule 48 (reverse block) in
  zip_with (λ x y, w32 (x + y)) h (foldl sha_round h (zip K256 ws)).

(** ** Padding and blocks *)
Definition bytes_of (s : string) : list Z := ord <$> String.list_ascii_of_string s.

Fixpoint be_bytes (n : nat) (x : Z) : list Z :=
  match n with O => [] | S n => be_bytes n (x / 256) ++ [x mod 256] end.

Definition padded (s : string) : list Z :=
  let n := slen s in
  bytes_of s ++ 128 :: replicate (Z.to_nat ((55 - n) mod 64)) 0 ++ be_bytes 8 (8 * n).

Fixpoint words32 (l : list Z) : list Z :=
  match l with
  | a :: b :: c :: d :: l => (((a * 256 + b) * 256 + c) * 256 + d) :: words32 l
  | _ => []
  end.

Fixpoint sha_blocks (fuel : nat) (h ws : list Z) : list Z :=
  match fuel with
  | O => h
  | S fuel => match ws with [] => h | _ => sha_blocks fuel (compress h (take 16 ws)) (drop 16 ws) end
  end.

(** [hashlib.sha256(s).digest()] as big-endian bytes *)
Definition sha256_words (s : string) : list Z :=
  let ws := words32 (padded s) in sha_blocks (S (length ws)) H0 ws.

Definition hex_digit (n : Z) : ascii := if n <? 10 then chr (48 + n) else chr (87 + n).

(** Eight lower-case hexadecimal digits of a word. *)
Fixpoint hex_word (n : nat) (x : Z) (acc : string) : string :=
  match n with O => acc | S n => hex_word n (x / 16) (String (hex_digit (x mod 16)) acc) end.

(** [hashlib.sha256(s).hexdigest()] *)
Definition sha256_hex (s : string) : string :=
  foldr (λ w acc, hex_word 8 w acc) EmptyString (sha256_words s).

Example sha256_empty :
  sha256_hex "" = "e3b0c44298fc1c149afbf4c8996fb92427ae41e4649b934ca495991b7852b855".
Proof. vm_compute. reflexivity. Qed.

Example sha256_abc :
  sha256_hex "abc" = "ba7816bf8f01cfea414140de5dae2223b00361a396177a9cb410ff61f20015ad".
Proof. vm_compute. reflexivity. Qed.

Example sha256_two_blocks :
  sha256_hex "abcdbcdecdefdefgefghfghighijhijkijkljklmklmnlmnomnopnopq"
  = "248d6a61d20638b8e5c026930c3e6039a33ce45964ff2167f6ecedd419db06c1".
Proof. vm_compute. reflexivity. Qed.

(** ** A digest is 64 lower-case hexadecimal digits *)
Lemma hex_digit_ok n : 0 <= n < 16 → is_lower_hex (hex_digit n) = true.
Proof.
  intros H. assert (n = 0 ∨ n = 1 ∨ n = 2 ∨ n = 3 ∨ n = 4 ∨ n = 5 ∨ n = 6 ∨ n = 7 ∨ n = 8 ∨ n = 9 ∨
    n = 10 ∨ n = 11 ∨ n = 12 ∨ n = 13 ∨ n = 14 ∨ n = 15) as Hn by lia.
  repeat destruct Hn as [->|Hn]; try reflexivity. by subst.
Qed.

Lemma hex_word_ok n x acc :
  String.length (hex_word n x acc) = (n + String.length acc)%nat ∧
  (sall is_lower_hex acc = true → sall is_lower_hex (hex_word n x acc) = true).
Proof.
  revert x acc; induction n as [|n IH]; intros x acc; cbn [hex_word]; [done|].
  destruct (IH (x / 16) (String (hex_digit (x mod 16)) acc)) as [Hl Ha]. split.
  - rewrite Hl. cbn. lia.
  - intros Hacc. apply Ha. cbn. rewrite hex_digit_ok, Hacc; [done|]. apply Z.mod_pos_bound. lia.
Qed.

Lemma foldl_sha_round_length h l :
  length h = 8%nat → length (foldl sha_round h l) = 8%nat.
Proof.
  revert h; induction l as [|kw l IH]; intros h Hh; cbn; [done|]. apply IH.
  by destruct h as [|? [|? [|? [|? [|? [|? [|? [|? [|? ?]]]]]]]]].
Qed.

Lemma compress_length h b : length h = 8%nat → length (compress h b) = 8%nat.
Proof.
  intros Hh. unfold compress. rewrite length_zip_with, foldl_sha_round_length; lia.
Qed.

Lemma sha_blocks_length n h ws : length h = 8%nat → length (sha_blocks n h ws) = 8%nat.
Proof.
  revert h ws; induction n as [|n IH]; intros h ws Hh; cbn; [done|].
  destruct ws; [done|]. by apply IH, compress_length.
Qed.

Lemma sha256_hex_ok s :
  String.length (sha256_hex s) = 64%nat ∧ sall is_lower_hex (sha256_hex s) = true.
Proof.
  unfold sha256_hex.
  assert (Hl : length (sha256_words s) = 8%nat) by (by apply sha_blocks_length).
  revert Hl. generalize (sha256_words s) as l. intros l Hl.
  assert (Hgen : String.length (foldr (λ w acc, hex_word 8 w acc) EmptyString l) = (8 * length l)%nat ∧
    sall is_lower_hex (foldr (λ w acc, hex_word 8 w acc) EmptyString l) = true).
  { clear Hl. induction l as [|w l [IH1 IH2]]; [done|]. cbn [foldr length].
    destruct (hex_word_ok 8 w (foldr (λ w acc, hex_word 8 w acc) EmptyString l)) as [Ha Hb].
    split; [rewrite Ha, IH1; lia|by apply Hb]. }
  by rewrite Hl in Hgen.
Qed.
