(* ===== verification/PyVal.v ===== *)
(** * Python values

    The objects the scripts exchange with [json], the Docker CLI and each
    other.  A [dict] has text keys in insertion order; [VTuple] and [VList]
    are the two sequence types, unequal as in Python.  Floats are IEEE
    binary64 numbers ([spec_float]); [bool] is an integer subtype, so
    [True == 1] holds of [py_eq] as it does of [==]. *)

From S2P Require Import Prelude PyStr.
From Stdlib Require Export SpecFloat.

Local Open Scope string_scope.
Local Open Scope list_scope.
Local Open Scope Z_scope.

Inductive value :=
  | VNone
  | VBool (b : bool)
  | VInt (z : Z)
  | VFloat (f : spec_float)
  | VStr (s : string)
  | VBytes (s : string)
  | VList (l : list value)
  | VTuple (l : list value)
  | VDict (d : list (string * value)).

Notation dict := (list (string * value)).

(** ** Binary64 *)
Definition f64_prec : Z := 53.
Definition f64_emax : Z := 1024.

(** The exact integer [m * 2^e] of a finite float, scaled: [Some (num, den_exp)]
    is the number [num / 2^den_exp]. *)
Definition float_scaled (f : spec_float) : option (Z * Z) :=
  match f with
  | S754_zero _ => Some (0, 0)
  | S754_finite s m e =>
      let v := if s then Zneg m else Zpos m in
      if 0 <=? e then Some (v * 2 ^ e, 0) else Some (v, - e)
  | _ => None
  end.

(** [float(z)]: rounded to nearest even, [OverflowError] beyond the largest finite float. *)
Definition float_of_int (z : Z) : result spec_float :=
  match binary_normalize f64_prec f64_emax z 0 false with
  | S754_infinity _ => raise OverflowError "int too large to convert to float"
  | f => Ok f
  end.

Definition float_isfinite (f : spec_float) : bool :=
  match f with S754_zero _ | S754_finite _ _ _ => true | _ => false end.

(** Arithmetic and comparison of floats *)
Notation flt := spec_float.
Definition fz (z : Z) : flt := binary_normalize f64_prec f64_emax z 0 false.
Definition fadd (a b : flt) : flt := SFadd f64_prec f64_emax a b.
Definition fsub (a b : flt) : flt := SFsub f64_prec f64_emax a b.
Definition fltb (a b : flt) : bool := SFltb a b.
Definition fleb (a b : flt) : bool := SFleb a b.
(** [min(a, b)]: the first argument unless the second is smaller *)
Definition fmin (a b : flt) : flt := if fltb b a then b else a.
Definition fmax (a b : flt) : flt := if fltb a b then b else a.

(** [int(f)] *)
Definition int_of_float (f : flt) : result Z :=
  match f with
  | S754_infinity _ => raise OverflowError "cannot convert float infinity to integer"
  | S754_nan => raise ValueError "cannot convert float NaN to integer"
  | _ => match float_scaled f with Some (n, d) => Ok (Z.quot n (2 ^ d)) | None => Ok 0 end
  end.

(** Exact comparison of an integer with a float, as CPython compares them. *)
Definition cmp_int_float (z : Z) (f : spec_float) : option comparison :=
  match f with
  | S754_nan => None
  | S754_infinity s => Some (if s then Gt else Lt)
  | _ => '(n, d) ← float_scaled f; Some (z * 2 ^ d ?= n)
  end.

(** ** Numeric view: [bool] and [int] are integers *)
Inductive num := NInt (z : Z) | NFloat (f : spec_float).

Definition num_of (v : value) : option num :=
  match v with
  | VBool b => Some (NInt (Z.b2z b))
  | VInt z => Some (NInt z)
  | VFloat f => Some (NFloat f)
  | _ => None
  end.

Definition num_cmp (a b : num) : option comparison :=
  match a, b with
  | NInt x, NInt y => Some (x ?= y)
  | NInt x, NFloat f => cmp_int_float x f
  | NFloat f, NInt y => CompOpp <$> cmp_int_float y f
  | NFloat f, NFloat g => SFcompare f g
  end.

Definition num_eqb (a b : num) : bool := match num_cmp a b with Some Eq => true | _ => false end.
Definition num_ltb (a b : num) : bool := match num_cmp a b with Some Lt => true | _ => false end.
Definition num_leb (a b : num) : bool := match num_cmp a b with Some Lt | Some Eq => true | _ => false end.

(** ** Dictionaries *)
Fixpoint dlookup {A} (k : string) (d : list (string * A)) : option A :=
  match d with
  | [] => None
  | (k', v) :: d => if String.eqb k k' then Some v else dlookup k d
  end.

(** [d[k] = v]: a present key keeps its position. *)
Fixpoint dset {A} (k : string) (v : A) (d : list (string * A)) : list (string * A) :=
  match d with
  | [] => [(k, v)]
  | (k', v') :: d => if String.eqb k k' then (k', v) :: d else (k', v') :: dset k v d
  end.

Definition dkeys {A} (d : list (string * A)) : list string := d.*1.
Definition dmem {A} (k : string) (d : list (string * A)) : bool := bool_decide (is_Some (dlookup k d)).

(** [d.get(k)], [d.get(k, default)] *)
Definition dget (k : string) (d : dict) : value := default VNone (dlookup k d).
Definition dgetd (k : string) (dflt : value) (d : dict) : value := default dflt (dlookup k d).

(** [set(d) == set(ks)] for keys that are pairwise distinct on both sides *)
Definition keys_are {A} (d : list (string * A)) (ks : list string) : bool := same_set (dkeys d) ks.

(** ** Equality, truth, types *)
Fixpoint py_eq (a b : value) {struct a} : bool :=
  match a, b with
  | VNone, VNone => true
  | VStr s, VStr t => String.eqb s t
  | VBytes s, VBytes t => String.eqb s t
  | VList l, VList m =>
      (fix go (l m : list value) : bool :=
         match l, m with
         | [], [] => true
         | x :: l, y :: m => py_eq x y && go l m
         | _, _ => false
         end) l m
  | VTuple l, VTuple m =>
      (fix go (l m : list value) : bool :=
         match l, m with
         | [], [] => true
         | x :: l, y :: m => py_eq x y && go l m
         | _, _ => false
         end) l m
  | VDict d, VDict e =>
      Nat.eqb (length d) (length e) &&
      (fix go (d : dict) : bool :=
         match d with
         | [] => true
         | (k, v) :: d =>
             match dlookup k e with Some w => py_eq v w | None => false end && go d
         end) d
  | _, _ => match num_of a, num_of b with Some x, Some y => num_eqb x y | _, _ => false end
  end.

(** [bool(v)] *)
Definition py_truthy (v : value) : bool :=
  match v with
  | VNone => false
  | VBool b => b
  | VInt z => negb (z =? 0)
  | VFloat (S754_zero _) => false
  | VFloat _ => true
  | VStr s | VBytes s => negb (String.eqb s EmptyString)
  | VList l | VTuple l => match l with [] => false | _ => true end
  | VDict d => match d with [] => false | _ => true end
  end.

(** [a or b] *)
Definition py_or (a b : value) : value := if py_truthy a then a else b.

Inductive pytype := TNone | TBool | TInt | TFloat | TStr | TBytes | TList | TTuple | TDict.
#[global] Instance pytype_eq_dec : EqDecision pytype.
Proof. solve_decision. Defined.

(** [type(v)] *)
Definition py_type (v : value) : pytype :=
  match v with
  | VNone => TNone | VBool _ => TBool | VInt _ => TInt | VFloat _ => TFloat | VStr _ => TStr
  | VBytes _ => TBytes | VList _ => TList | VTuple _ => TTuple | VDict _ => TDict
  end.

Definition is_str (v : value) : bool := bool_decide (py_type v = TStr).
Definition is_list (v : value) : bool := bool_decide (py_type v = TList).
Definition is_dict (v : value) : bool := bool_decide (py_type v = TDict).
(** [type(v) is int] *)
Definition is_exact_int (v : value) : bool := bool_decide (py_type v = TInt).
(** [v is True], [v is False], [v is None] *)
Definition is_true (v : value) : bool := match v with VBool true => true | _ => false end.
Definition is_false (v : value) : bool := match v with VBool false => true | _ => false end.
Definition is_none (v : value) : bool := match v with VNone => true | _ => false end.

(** ** Operations that raise on the wrong type *)
Definition no_attr {A} (name : string) : result A :=
  raise AttributeError ("object has no attribute " +:+ name).

(** [v.get(k)], [v.get(k, dflt)] *)
Definition py_getd (k : string) (dflt : value) (v : value) : result value :=
  match v with VDict d => Ok (dgetd k dflt d) | _ => no_attr "get" end.
Definition py_get (k : string) (v : value) : result value := py_getd k VNone v.

(** [v[k]] of a mapping *)
Definition py_item (k : string) (v : value) : result value :=
  match v with
  | VDict d => match dlookup k d with Some x => Ok x | None => raise KeyError k end
  | VStr _ | VBytes _ | VList _ | VTuple _ => raise TypeError "indices must be integers or slices, not str"
  | _ => raise TypeError "object is not subscriptable"
  end.

(** [len(v)]; text is counted in code points. *)
Definition py_len (v : value) : result Z :=
  match v with
  | VStr s => Ok (Z.of_nat (length (uchars s)))
  | VBytes s => Ok (slen s)
  | VList l | VTuple l => Ok (Z.of_nat (length l))
  | VDict d => Ok (Z.of_nat (length d))
  | _ => raise TypeError "object has no len()"
  end.

(** The elements a [for] loop draws from [v]. *)
Definition py_iter (v : value) : result (list value) :=
  match v with
  | VList l | VTuple l => Ok l
  | VStr s => Ok (VStr <$> uchars s)
  | VBytes s => Ok ((λ c, VInt (ord c)) <$> String.list_ascii_of_string s)
  | VDict d => Ok (VStr <$> dkeys d)
  | _ => raise TypeError "object is not iterable"
  end.

(** Short-circuit [or] and [and] over conditions that may raise. *)
Definition orR (a b : result bool) : result bool := x ← a; if (x : bool) then Ok true else b.
Definition andR (a b : result bool) : result bool := x ← a; if (x : bool) then b else Ok false.
Infix "||?" := orR (at level 50, left associativity).
Infix "&&?" := andR (at level 40, left associativity).

Fixpoint anyR {A} (f : A → result bool) (l : list A) : result bool :=
  match l with [] => Ok false | x :: l => f x ||? anyR f l end.

(** [if c: raise cls(msg)] for a condition that may itself raise *)
Definition raise_ifR (c : result bool) (cls : exc_class) (msg : string) : result unit :=
  b ← c; raise_if b cls msg.

Lemma orR_Ok_false a b : (a ||? b) = Ok false ↔ a = Ok false ∧ b = Ok false.
Proof. unfold orR. destruct a as [[]|]; cbn; naive_solver. Qed.

Lemma raise_ifR_Ok c cls msg u : raise_ifR c cls msg = Ok u ↔ c = Ok false.
Proof. unfold raise_ifR. destruct c as [[]|]; cbn; destruct u; naive_solver. Qed.

Lemma anyR_Ok_false {A} (f : A → result bool) l :
  anyR f l = Ok false ↔ Forall (λ x, f x = Ok false) l.
Proof.
  induction l as [|x l IH]; cbn; [split; [constructor|done]|].
  rewrite orR_Ok_false, IH, Forall_cons. done.
Qed.

(** [a < b], [TypeError] between kinds that have no order *)
Fixpoint py_lt (a b : value) {struct a} : result bool :=
  match a, b with
  | VStr s, VStr t | VBytes s, VBytes t => Ok (bool_decide (String.compare s t = Lt))
  | VList l, VList m | VTuple l, VTuple m =>
      (fix go (l m : list value) : result bool :=
         match l, m with
         | _, [] => Ok false
         | [], _ :: _ => Ok true
         | x :: l, y :: m => if py_eq x y then go l m else py_lt x y
         end) l m
  | _, _ =>
      match num_of a, num_of b with
      | Some x, Some y => Ok (num_ltb x y)
      | _, _ => raise TypeError "not supported between instances"
      end
  end.

(** [sorted(l)]; every comparison sort compares values of two kinds when both occur. *)
Fixpoint py_insert (x : value) (l : list value) : result (list value) :=
  match l with
  | [] => Ok [x]
  | y :: l => lt ← py_lt y x; if (lt : bool) then r ← py_insert x l; Ok (y :: r) else Ok (x :: y :: l)
  end.
Fixpoint py_sort (l : list value) : result (list value) :=
  match l with [] => Ok [] | x :: l => r ← py_sort l; py_insert x r end.
Definition py_sorted (v : value) : result (list value) := l ← py_iter v; py_sort l.

(** [x in v] *)
Definition py_in (x v : value) : result bool :=
  match v with
  | VStr s => match x with VStr t => Ok (contains t s) | _ => raise TypeError "requires string as left operand" end
  | VDict d =>
      match x with
      | VStr k => Ok (dmem k d)
      | VList _ | VDict _ => raise TypeError "unhashable type"
      | _ => Ok false
      end
  | _ => l ← py_iter v; Ok (existsb (λ y, py_eq y x) l)
  end.

(** Whether [hash(v)] is defined, as [set(..)] needs of every element. *)
Fixpoint hashable (v : value) : bool :=
  match v with
  | VList _ | VDict _ => false
  | VTuple l => (fix go (l : list value) : bool := match l with [] => true | x :: l => hashable x && go l end) l
  | _ => true
  end.
(** [set(v)], as the list of its elements with repetitions *)
Definition py_set (v : value) : result (list value) :=
  l ← py_iter v; _ ← raise_if (negb (forallb hashable l)) TypeError "unhashable type"; Ok l.

(** [a | b] of two dictionaries *)
Definition dmerge (a b : dict) : dict := foldl (λ d p, dset p.1 p.2 d) a b.
Definition py_merge (a : value) (b : dict) : result value :=
  match a with VDict d => Ok (VDict (dmerge d b)) | _ => raise TypeError "unsupported operand type(s) for |" end.

(** ** Facts about dictionaries *)
Lemma dlookup_dset {A} k k' (v : A) d :
  dlookup k (dset k' v d) = if String.eqb k k' then Some v else dlookup k d.
Proof.
  induction d as [|[k1 v1] d IH]; cbn; [done|].
  destruct (String.eqb k' k1) eqn:E1; cbn.
  - apply String.eqb_eq in E1 as ->. by destruct (String.eqb k k1).
  - rewrite IH. destruct (String.eqb k k1) eqn:E2, (String.eqb k k') eqn:E3; try done.
    apply String.eqb_eq in E2, E3. subst. by rewrite String.eqb_refl in E1.
Qed.

Lemma dlookup_elem {A} k (v : A) d : dlookup k d = Some v → (k, v) ∈ d.
Proof.
  induction d as [|[k1 v1] d IH]; cbn; [done|].
  destruct (String.eqb k k1) eqn:E.
  - apply String.eqb_eq in E as ->. intros [= ->]. left.
  - intros H. right. auto.
Qed.

Lemma dget_Some k (v : dict) x : dlookup k v = Some x → dget k v = x.
Proof. unfold dget. by intros ->. Qed.

Lemma dgetd_Some k d (v : dict) x : dlookup k v = Some x → dgetd k d v = x.
Proof. unfold dgetd. by intros ->. Qed.

Lemma dlookup_None {A} k (d : list (string * A)) : dlookup k d = None ↔ k ∉ dkeys d.
Proof.
  induction d as [|[k1 v1] d IH]; cbn; [set_solver|].
  destruct (String.eqb k k1) eqn:E.
  - apply String.eqb_eq in E as ->. split; [done|set_solver].
  - apply String.eqb_neq in E. rewrite IH. set_solver.
Qed.

Lemma dkeys_dset {A} k (v : A) d :
  dkeys (dset k v d) = if dmem k d then dkeys d else dkeys d ++ [k].
Proof.
  unfold dmem, dkeys in *. induction d as [|[k1 v1] d IH]; [done|]. cbn [dset dlookup].
  destruct (String.eqb k k1) eqn:E; [done|]. rewrite !fmap_cons, IH.
  by destruct (dlookup k d).
Qed.

Lemma py_eq_ints a b : py_eq (VInt a) (VInt b) = true → a = b.
Proof. cbn. unfold num_eqb. cbn. destruct (a ?= b) eqn:E; try done. intros _. by apply Z.compare_eq. Qed.

Lemma py_eq_str v s : py_eq v (VStr s) = true → v = VStr s.
Proof. destruct v; try done. cbn. by intros ->%String.eqb_eq. Qed.

Lemma py_eq_refl_str s : py_eq (VStr s) (VStr s) = true.
Proof. cbn. apply String.eqb_refl. Qed.
