(* ===== verification/PyTime.v ===== *)
(** * Dates and times: the [datetime] of Python 3.11

    A [datetime] is its local time, in microseconds since the start of the year
    1, and its offset from UTC when it is aware.  [fromisoformat] reads the
    formats that CPython 3.11 accepts (calendar and ISO week dates, basic and
    extended times, fractions of any length, offsets), [isoformat] writes one. *)

From S2P Require Import Prelude PyStr.

Local Open Scope string_scope.
Local Open Scope list_scope.
Local Open Scope Z_scope.

Record datetime := DateTime { dt_local : Z; dt_offset : option Z }.
#[global] Instance datetime_eq_dec : EqDecision datetime.
Proof. solve_decision. Defined.

Definition US_SECOND : Z := 1000000.
Definition US_DAY : Z := 86400 * US_SECOND.

(** ** The calendar *)
Definition is_leap (y : Z) : bool := (y mod 4 =? 0) && (negb (y mod 100 =? 0) || (y mod 400 =? 0)).
Definition days_in_month (y m : Z) : Z :=
  if m =? 2 then (if is_leap y then 29 else 28) else if bool_decide (m ∈ [4; 6; 9; 11]) then 30 else 31.
(** Days before January 1 of [y], counted from 0 on 0001-01-01 *)
Definition days_before_year (y : Z) : Z := let p := y - 1 in p * 365 + p / 4 - p / 100 + p / 400.
Definition days_before_month (y m : Z) : Z :=
  foldr Z.add 0 ((λ k, days_in_month y (Z.of_nat k + 1)) <$> seq 0 (Z.to_nat (m - 1))).
Definition days_of (y m d : Z) : Z := days_before_year y + days_before_month y m + d - 1.

(** The year of a day: an estimate that is right or one too small. *)
Definition year_of (n : Z) : Z :=
  let y := n * 400 / 146097 + 1 in
  if n <? days_before_year y then y - 1 else if days_before_year (y + 1) <=? n then y + 1 else y.
Definition month_of (y r : Z) : Z :=
  foldr (λ m found, if days_before_month y m <=? r then m else found) 1 [12; 11; 10; 9; 8; 7; 6; 5; 4; 3; 2].
Definition ymd_of (n : Z) : Z * Z * Z :=
  let y := year_of n in let r := n - days_before_year y in let m := month_of y r in (y, m, r - days_before_month y m + 1).

Definition date_ok (y m d : Z) : bool :=
  (1 <=? y) && (y <=? 9999) && (1 <=? m) && (m <=? 12) && (1 <=? d) && (d <=? days_in_month y m).
Definition time_ok (h m s us : Z) : bool :=
  (0 <=? h) && (h <=? 23) && (0 <=? m) && (m <=? 59) && (0 <=? s) && (s <=? 59) && (0 <=? us) && (us <=? 999999).

(** Monday is 0 *)
Definition weekday (n : Z) : Z := n mod 7.
Definition iso_week1_monday (y : Z) : Z :=
  let first := days_before_year y in let w := weekday first in if 3 <? w then first - w + 7 else first - w.
Definition iso_to_ymd (y week day : Z) : option (Z * Z * Z) :=
  let w := weekday (days_before_year y) in
  if (1 <=? y) && (y <=? 9999) && (1 <=? week)
     && ((week <? 53) || (week =? 53) && ((w =? 3) || (w =? 2) && is_leap y)) && (1 <=? day) && (day <=? 7)
  then Some (ymd_of (iso_week1_monday y + (week - 1) * 7 + day - 1)) else None.

(** ** Reading *)
Definition digits (k : nat) (s : string) : option (Z * string) :=
  if Nat.eqb (String.length (stake k s)) k && sall is_digit (stake k s) then Some (dec_val (stake k s), sdrop k s) else None.
Definition at_ (n : nat) (s : string) : option ascii := String.get n s.
Definition has_char (c : ascii) (o : option ascii) : bool := match o with Some a => Ascii.eqb a c | None => false end.
Definition has_digit (o : option ascii) : bool := match o with Some a => is_digit a | None => false end.

Fixpoint digit_run (s : string) : nat :=
  match s with String c s => if is_digit c then S (digit_run s) else O | EmptyString => O end.

(** The number of bytes of the date part *)
Definition separator_location (s : string) : option nat :=
  let n := String.length s in
  if Nat.eqb n 7 then Some 7%nat
  else if has_char "-" (at_ 4 s) then
    if has_char "W" (at_ 5 s) then
      if (Nat.ltb 8 n) && has_char "-" (at_ 8 s) then
        if Nat.eqb n 9 then None else if (Nat.ltb 10 n) && has_digit (at_ 10 s) then Some 8%nat else Some 10%nat
      else Some 8%nat
    else Some 10%nat
  else if has_char "W" (at_ 4 s) then
    let pos := (7 + digit_run (sdrop 7 s))%nat in
    if Nat.ltb pos 9 then Some pos else if Nat.even pos then Some 7%nat else Some 8%nat
  else Some 8%nat.

(** A dash exactly if the date is written with dashes *)
Definition dash (sep : bool) (s : string) : option string :=
  if sep then (if has_char "-" (at_ 0 s) then Some (sdrop 1 s) else None) else Some s.

Definition parse_date (len : nat) (s : string) : option (Z * Z * Z) :=
  '(y, s1) ← digits 4 s;
  let sep := has_char "-" (at_ 0 s1) in
  let s2 := if sep then sdrop 1 s1 else s1 in
  if has_char "W" (at_ 0 s2) then
    '(week, s3) ← digits 2 (sdrop 1 s2);
    if Nat.ltb (String.length s - String.length s3) len then
      s4 ← dash sep s3; '(day, _) ← digits 1 s4; iso_to_ymd y week day
    else iso_to_ymd y week 1
  else
    '(m, s3) ← digits 2 s2; s4 ← dash sep s3; '(d, s5) ← digits 2 s4;
    if Nat.eqb (String.length s - String.length s5) len then Some (y, m, d) else None.

(** The fraction of a second in microseconds, from a text that is not empty;
    further digits are dropped, and [false] says that something else follows. *)
Definition parse_fraction (s : string) : option (Z * bool) :=
  let k := Nat.min 6 (String.length s) in
  '(us, rest) ← digits k s;
  Some (us * 10 ^ (6 - Z.of_nat k), sall is_digit rest).

(** [HH[:?MM[:?SS[(.|,)f+]]]], the fields read so far reversed in [acc].  As in
    CPython a single character that follows a field is passed over and reported
    by [false], and a fraction may follow the seconds without a point. *)
Fixpoint parse_fields (more : nat) (sep : option bool) (acc : list Z) (s : string) : option (list Z * Z * bool) :=
  '(v, s1) ← digits 2 s;
  let acc := v :: acc in
  match s1 with
  | EmptyString => Some (acc, 0, true)
  | String _ EmptyString => Some (acc, 0, false)
  | String c s2 =>
      let sep := match sep with Some b => b | None => Ascii.eqb c ":" end in
      let go s := match more with
                  | O => '(us, clean) ← parse_fraction s; Some (acc, us, clean)
                  | S more => parse_fields more (Some sep) acc s
                  end in
      if sep && Ascii.eqb c ":" then go s2
      else if Ascii.eqb c "." || Ascii.eqb c "," then '(us, clean) ← parse_fraction s2; Some (acc, us, clean)
      else if sep then None else go s1
  end.

Definition hms (s : string) : option (Z * Z * Z * Z * bool) :=
  '(fields, us, clean) ← parse_fields 2 None [] s;
  match fields with
  | [h] => Some (h, 0, 0, us, clean) | [m; h] => Some (h, m, 0, us, clean) | [sec; m; h] => Some (h, m, sec, us, clean) | _ => None
  end.

Fixpoint tz_position (s : string) : nat :=
  match s with
  | EmptyString => O
  | String c s => if is_any ["+"; "-"; "Z"]%char c then O else S (tz_position s)
  end.

(** The time of day in microseconds, with the offset if there is one *)
Definition parse_time (s : string) : option (Z * option Z) :=
  let k := tz_position s in
  '(h, m, sec, us, clean) ← hms (stake k s);
  if time_ok h m sec us then
    let t := ((h * 60 + m) * 60 + sec) * US_SECOND + us in
    match sdrop k s with
    | EmptyString => if (clean : bool) then Some (t, None) else None
    | String c tz =>
        if Ascii.eqb c "Z" then (match tz with EmptyString => Some (t, Some 0) | _ => None end)
        else '(h', m', s', us', clean') ← hms tz;
             if negb clean' then None else
             let off := (if Ascii.eqb c "-" then -1 else 1) * (((h' * 60 + m') * 60 + s') * US_SECOND + us') in
             if (h' =? 0) && (m' =? 0) && (s' =? 0) then Some (t, Some 0)
             else if (- US_DAY <? off) && (off <? US_DAY) then Some (t, Some off) else None
    end
  else None.

(** The bytes of the one character between date and time *)
Definition separator_width (s : string) : nat :=
  match at_ 0 s with
  | Some c => if ord c <? 128 then 1%nat else if Z.land (ord c) 240 =? 224 then 3%nat else if Z.land (ord c) 240 =? 240 then 4%nat else 2%nat
  | None => O
  end.

Definition parse_datetime (s : string) : option datetime :=
  if Nat.ltb (String.length s) 7 then None
  else
    k ← separator_location s;
    '(y, m, d) ← parse_date k s;
    '(t, off) ← (if Nat.ltb k (String.length s) then parse_time (sdrop (separator_width (sdrop k s)) (sdrop k s)) else Some (0, None));
    if date_ok y m d then Some (DateTime (days_of y m d * US_DAY + t) off) else None.

(** [datetime.fromisoformat(s)] *)
Definition fromisoformat (s : string) : result datetime :=
  match parse_datetime s with Some d => Ok d | None => raise ValueError "Invalid isoformat string" end.

(** ** Conversion and writing *)
Definition MAX_LOCAL : Z := days_of 10000 1 1 * US_DAY.
(** [value.astimezone(UTC)] of an aware value *)
Definition astimezone_utc (d : datetime) : result datetime :=
  let t := dt_local d - default 0 (dt_offset d) in
  if (0 <=? t) && (t <? MAX_LOCAL) then Ok (DateTime t (Some 0)) else raise OverflowError "date value out of range".

(** The instant of an aware value: two such are equal exactly if their instants are. *)
Definition instant (d : datetime) : Z := dt_local d - default 0 (dt_offset d).

(** [format(n, "0kd")] of a non-negative [n] *)
Definition pad (k : nat) (n : Z) : string :=
  let t := dec_of_Z n in sconcat (replicate (k - String.length t) "0") +:+ t.

Definition write_hms (t : Z) : string :=
  let s := t / US_SECOND in
  pad 2 (s / 3600) +:+ ":" +:+ pad 2 (s / 60 mod 60) +:+ ":" +:+ pad 2 (s mod 60).
Definition write_fraction (us : Z) : string := if us =? 0 then EmptyString else "." +:+ pad 6 us.
Definition write_offset (off : Z) : string :=
  let a := Z.abs off in
  let s := a / US_SECOND in
  (if off <? 0 then "-" else "+") +:+ pad 2 (s / 3600) +:+ ":" +:+ pad 2 (s / 60 mod 60)
  +:+ (if a mod (60 * US_SECOND) =? 0 then EmptyString else ":" +:+ pad 2 (s mod 60) +:+ write_fraction (a mod US_SECOND)).

(** [d.isoformat()] *)
Definition isoformat (d : datetime) : string :=
  let '(y, m, day) := ymd_of (dt_local d / US_DAY) in
  let t := dt_local d mod US_DAY in
  pad 4 y +:+ "-" +:+ pad 2 m +:+ "-" +:+ pad 2 day +:+ "T" +:+ write_hms t +:+ write_fraction (t mod US_SECOND)
  +:+ match dt_offset d with Some off => write_offset off | None => EmptyString end.

Example iso_week : (λ d, isoformat d) <$> fromisoformat "2026-W01-1T10:20:30.5+0530" = Ok "2025-12-29T10:20:30.500000+05:30".
Proof. vm_compute. reflexivity. Qed.
