(* ===== verification/Json.v ===== *)
(** * JSON: [json.loads] and [json.dumps]

    The decoder follows CPython's scanner: strict strings, [\u] escapes with
    surrogate joining, the number grammar, [NaN] and [Infinity], last value
    wins for a repeated key unless an [object_pairs_hook] decides otherwise.
    Every recursive call consumes text, so the text's length is enough fuel.
    Nesting beyond the interpreter's recursion limit is not modelled. *)

From S2P Require Import Prelude PyStr PyVal.

Local Open Scope string_scope.
Local Open Scope list_scope.
Local Open Scope Z_scope.

Definition jfail {A} : result A := raise JSONDecodeError "json".

Definition jws (s : string) : string := lstrip_c (is_any [" "; "009"; "010"; "013"]%char) s.

(** ** Numbers *)
Fixpoint span (p : ascii → bool) (s : string) : string * string :=
  match s with
  | EmptyString => (EmptyString, EmptyString)
  | String c t => if p c then let '(a, b) := span p t in (String c a, b) else (EmptyString, s)
  end.

(** The float nearest to [±m * 10^e]. *)
Definition float_of_dec (neg : bool) (m : Z) (e : Z) : spec_float :=
  if m =? 0 then S754_zero neg
  else
    let digits := slen (dec_of_Z m) in
    if 400 <? digits + e then S754_infinity neg
    else if digits + e <? -400 then S754_zero neg
    else if 0 <=? e then binary_normalize f64_prec f64_emax (if neg then - (m * 10 ^ e) else m * 10 ^ e) 0 neg
    else
      match m, 10 ^ (- e) with
      | Zpos p, Zpos q => SFdiv f64_prec f64_emax (S754_finite neg p 0) (S754_finite false q 0)
      | _, _ => S754_nan
      end.

(** The integer part of a JSON number: ["0"] or a digit string without leading zero. *)
Definition jint_part (s : string) : option (string * string) :=
  match s with
  | String "0" t => Some ("0", t)
  | _ => let '(a, b) := span is_digit s in if String.eqb a EmptyString then None else Some (a, b)
  end.

(** [(\.[0-9]+)?] and [([eE][-+]?[0-9]+)?]: what does not match is left in place. *)
Definition jfrac_part (s : string) : option string * string :=
  match s with
  | String "." t =>
      let '(a, b) := span is_digit t in if String.eqb a EmptyString then (None, s) else (Some a, b)
  | _ => (None, s)
  end.
Definition jexp_part (s : string) : option Z * string :=
  match s with
  | String c t =>
      if is_any ["e"; "E"]%char c then
        let '(sg, t1) := match t with
                         | String "-" u => (-1, u) | String "+" u => (1, u) | _ => (1, t) end in
        let '(a, b) := span is_digit t1 in
        if String.eqb a EmptyString then (None, s) else (Some (sg * dec_val a), b)
      else (None, s)
  | EmptyString => (None, s)
  end.

Definition jnumber (neg : bool) (s : string) : result (value * string) :=
  match jint_part s with
  | None => jfail
  | Some (ip, r) =>
      let '(fp, r) := jfrac_part r in
      let '(ep, r) := jexp_part r in
      match fp, ep with
      | None, None => n ← int_of_digits ip; Ok (VInt (if neg then - n else n), r)
      | _, _ =>
          let f := default EmptyString fp in
          Ok (VFloat (float_of_dec neg (dec_val (ip +:+ f)) (default 0 ep - slen f)), r)
      end
  end.

(** ** Strings *)
Definition hex_val (c : ascii) : option Z :=
  if is_digit c then Some (ord c - 48)
  else if in_range "a" "f" c then Some (ord c - 87)
  else if in_range "A" "F" c then Some (ord c - 55)
  else None.

Definition jhex4 (s : string) : option (Z * string) :=
  match s with
  | String a (String b (String c (String d t))) =>
      x ← hex_val a; y ← hex_val b; z ← hex_val c; w ← hex_val d;
      Some (((x * 16 + y) * 16 + z) * 16 + w, t)
  | _ => None
  end.

(** [\u] with a joined low surrogate when one follows *)
Definition junicode (s : string) : result (string * string) :=
  match jhex4 s with
  | None => jfail
  | Some (n, t) =>
      if (0xd800 <=? n) && (n <=? 0xdbff) then
        match t with
        | String "\" (String "u" u) =>
            match jhex4 u with
            | None => jfail
            | Some (m, t') =>
                if (0xdc00 <=? m) && (m <=? 0xdfff)
                then Ok (encode_cp (0x10000 + (n - 0xd800) * 1024 + (m - 0xdc00)), t')
                else Ok (encode_cp n, t)
            end
        | _ => Ok (encode_cp n, t)
        end
      else Ok (encode_cp n, t)
  end.

Definition jescape (c : ascii) : option ascii :=
  match c with
  | "034" | "\" | "/" => Some c
  | "b" => Some "008" | "f" => Some "012" | "n" => Some "010" | "r" => Some "013" | "t" => Some "009"
  | _ => None
  end%char.

(** The rest of a string after its opening quote. *)
Fixpoint jstring (fuel : nat) (s : string) : result (string * string) :=
  match fuel with
  | O => jfail
  | S fuel =>
      match s with
      | EmptyString => jfail
      | String "034" t => Ok (EmptyString, t)
      | String "\" (String "u" t) =>
          '(u, t) ← junicode t; '(r, t) ← jstring fuel t; Ok (u +:+ r, t)
      | String "\" (String e t) =>
          match jescape e with
          | Some c => '(r, t) ← jstring fuel t; Ok (String c r, t)
          | None => jfail
          end
      | String "\" EmptyString => jfail
      | String c t =>
          if ord c <? 32 then jfail else '(r, t) ← jstring fuel t; Ok (String c r, t)
      end
  end.

(** ** Values *)
Section Decoder.
  (** [object_pairs_hook]; the default builds the dictionary. *)
  Context (hook : list (string * value) → result value).
  (** [parse_constant], given [NaN], [Infinity] or [-Infinity] *)
  Context (constant : spec_float → result value).

Definition starts (p s : string) : option string :=
    if startswith p s then Some (sdrop (String.length p) s) else None.

Fixpoint jvalue (fuel : nat) (s : string) {struct fuel} : result (value * string) :=
    match fuel with
    | O => jfail
    | S fuel =>
        match s with
        | String "034" t => '(u, t) ← jstring (S (String.length t)) t; Ok (VStr u, t)
        | String "[" t =>
            match jws t with
            | String "]" r => Ok (VList [], r)
            | t => '(l, r) ← jitems fuel t; Ok (VList l, r)
            end
        | String "{" t =>
            match jws t with
            | String "}" r => v ← hook []; Ok (v, r)
            | t => '(ps, r) ← jpairs fuel t; v ← hook ps; Ok (v, r)
            end
        | String "n" _ => match starts "null" s with Some r => Ok (VNone, r) | None => jfail end
        | String "t" _ => match starts "true" s with Some r => Ok (VBool true, r) | None => jfail end
        | String "f" _ => match starts "false" s with Some r => Ok (VBool false, r) | None => jfail end
        | String "N" _ => match starts "NaN" s with Some r => v ← constant S754_nan; Ok (v, r) | None => jfail end
        | String "I" _ =>
            match starts "Infinity" s with Some r => v ← constant (S754_infinity false); Ok (v, r) | None => jfail end
        | String "-" t =>
            match starts "Infinity" t with
            | Some r => v ← constant (S754_infinity true); Ok (v, r)
            | None => jnumber true t
            end
        | _ => jnumber false s
        end
    end
with jitems (fuel : nat) (s : string) {struct fuel} : result (list value * string) :=
    match fuel with
    | O => jfail
    | S fuel =>
        '(v, r) ← jvalue fuel s;
        match jws r with
        | String "]" r => Ok ([v], r)
        | String "," r => '(l, r) ← jitems fuel (jws r); Ok (v :: l, r)
        | _ => jfail
        end
    end
with jpairs (fuel : nat) (s : string) {struct fuel} : result (list (string * value) * string) :=
    match fuel with
    | O => jfail
    | S fuel =>
        match s with
        | String "034" t =>
            '(k, t) ← jstring (S (String.length t)) t;
            match jws t with
            | String ":" t =>
                '(v, r) ← jvalue fuel (jws t);
                match jws r with
                | String "}" r => Ok ([(k, v)], r)
                | String "," r => '(l, r) ← jpairs fuel (jws r); Ok ((k, v) :: l, r)
                | _ => jfail
                end
            | _ => jfail
            end
        | _ => jfail
        end
    end.

  (** [json.loads(s, object_pairs_hook=hook, parse_constant=constant)] *)
Definition json_loads_hook (s : string) : result value :=
    if startswith (encode_cp 0xfeff) s then jfail
    else
      '(v, r) ← jvalue (2 * String.length s + 2) (jws s);
      match jws r with EmptyString => Ok v | _ => jfail end.
End Decoder.

Definition dict_of_pairs (ps : list (string * value)) : dict := foldl (λ d p, dset p.1 p.2 d) [] ps.

(** [json.loads(s)] *)
Definition plain_dict (ps : list (string * value)) : result value := Ok (VDict (dict_of_pairs ps)).
Definition plain_constant (f : spec_float) : result value := Ok (VFloat f).
Definition json_loads : string → result value := json_loads_hook plain_dict plain_constant.

(** ** Encoding *)
(** [\uXXXX] of a 16-bit unit *)
Definition hexd (n : Z) : ascii := if n <? 10 then chr (48 + n) else chr (87 + n).
Definition u_escape (n : Z) : string :=
  String "\" (String "u" (String (hexd (n / 4096 mod 16)) (String (hexd (n / 256 mod 16))
    (String (hexd (n / 16 mod 16)) (String (hexd (n mod 16)) EmptyString))))).

(** One character of a string literal under [ensure_ascii=True]. *)
Definition jchar (u : string) : string :=
  let n := code_point u in
  if n =? 34 then "\" +:+ String "034" EmptyString
  else if n =? 92 then "\\"
  else if n =? 10 then "\n" else if n =? 13 then "\r" else if n =? 9 then "\t"
  else if n =? 8 then "\b" else if n =? 12 then "\f"
  else if (32 <=? n) && (n <? 127) then u
  else if n <? 65536 then u_escape n
  else u_escape (0xd800 + (n - 65536) / 1024) +:+ u_escape (0xdc00 + (n - 65536) mod 1024).

(** The same under [ensure_ascii=False]. *)
Definition jchar_utf8 (u : string) : string := let n := code_point u in if 127 <=? n then u else jchar u.

Definition quote : string := String "034" EmptyString.
Definition jstr (s : string) : string := quote +:+ sconcat (jchar <$> uchars s) +:+ quote.

(** [round(x, n)]: the exact value to the nearest multiple of [10^-n], ties to
    even, as the nearest float. *)
Definition round_digits (n : Z) (f : spec_float) : spec_float :=
  match float_scaled f with
  | None => f
  | Some (num, d) =>
      let a := Z.abs num * 10 ^ n in
      let q := a / 2 ^ d in
      let r := a mod 2 ^ d in
      let q := match 2 * r ?= 2 ^ d with
               | Lt => q | Gt => q + 1 | Eq => if Z.even q then q else q + 1 end in
      float_of_dec (num <? 0) q (- n)
  end.

(** *** [repr] of a float: the shortest decimal that reads back as it *)
(** [round(num/den * 10^k)] to the nearest integer. *)
Definition scaled_round (num den k : Z) : Z :=
  let '(n, d) := if 0 <=? k then (num * 10 ^ k, den) else (num, den * 10 ^ (- k)) in
  (2 * n + d) / (2 * d).

(** Among the decimals of exponent [-k] next to [num/den], the closest that reads back. *)
Definition repr_candidate (f : spec_float) (num den k : Z) : option Z :=
  let D := scaled_round num den k in
  let ok c := bool_decide (SFcompare (float_of_dec false c (- k)) f = Some Eq) in
  if ok D then Some D else if ok (D - 1) then Some (D - 1) else if ok (D + 1) then Some (D + 1) else None.

Fixpoint repr_search (f : spec_float) (num den e10 : Z) (fuel : nat) (p : Z) : Z * Z :=
  match fuel with
  | O => (0, 0)
  | S fuel =>
      match repr_candidate f num den (p - e10) with
      | Some D => (D, e10 - p)
      | None => repr_search f num den e10 fuel (p + 1)
      end
  end.

Fixpoint strip_zeros (fuel : nat) (D e : Z) : Z * Z :=
  match fuel with
  | O => (D, e)
  | S fuel => if (D mod 10 =? 0) && negb (D =? 0) then strip_zeros fuel (D / 10) (e + 1) else (D, e)
  end.

Definition zeros (n : Z) : string := sconcat (replicate (Z.to_nat n) "0").

Definition format_digits (D e : Z) : string :=
  let ds := dec_of_Z D in
  let n := slen ds in
  let decpt := n + e in
  if (-4 <? decpt) && (decpt <=? 16) then
    if 0 <=? e then ds +:+ zeros e +:+ ".0"
    else if 0 <? decpt then
      stake (Z.to_nat decpt) ds +:+ "." +:+ sdrop (Z.to_nat decpt) ds
    else "0." +:+ zeros (- decpt) +:+ ds
  else
    let x := decpt - 1 in
    let m := if n =? 1 then ds else stake 1 ds +:+ "." +:+ sdrop 1 ds in
    let xs := dec_of_Z (Z.abs x) in
    m +:+ "e" +:+ (if x <? 0 then "-" else "+") +:+ (if slen xs <? 2 then "0" +:+ xs else xs).

Definition float_repr (f : spec_float) : string :=
  match f with
  | S754_nan => "NaN"
  | S754_infinity s => if s then "-Infinity" else "Infinity"
  | S754_zero s => if s then "-0.0" else "0.0"
  | S754_finite s m e =>
      let num := if 0 <=? e then Zpos m * 2 ^ e else Zpos m in
      let den := if 0 <=? e then 1 else 2 ^ (- e) in
      let q := num / den in
      let e10 := if 0 <? q then slen (dec_of_Z q)
                 else 1 - slen (dec_of_Z (den / num)) in
      let '(D, x) := repr_search (S754_finite false m e) num den e10 20 1 in
      let '(D, x) := strip_zeros 400 D x in
      (if s then "-" else EmptyString) +:+ format_digits D x
  end.

(** *** [json.dumps] *)
Fixpoint insert_key {A} (p : string * A) (l : list (string * A)) : list (string * A) :=
  match l with
  | [] => [p]
  | q :: l' => if String.leb p.1 q.1 then p :: l else q :: insert_key p l'
  end.
(** [sort_keys=True]; UTF-8 order is code point order. *)
Definition sort_dict {A} (l : list (string * A)) : list (string * A) := foldr insert_key [] l.

Fixpoint insert_str (s : string) (l : list string) : list string :=
  match l with
  | [] => [s]
  | t :: l' => if String.leb s t then s :: l else t :: insert_str s l'
  end.
(** [sorted(l)] of texts *)
Definition sort_str (l : list string) : list string := foldr insert_str [] l.

Lemma insert_str_perm s l : insert_str s l ≡ₚ s :: l.
Proof. induction l as [|t l IH]; [done|]. cbn. destruct (String.leb s t); [done|]. rewrite IH. apply Permutation_swap. Qed.

Lemma sort_str_perm l : sort_str l ≡ₚ l.
Proof. induction l as [|x l IH]; [done|]. cbn. rewrite insert_str_perm. by f_equiv. Qed.

Record dump_style := DumpStyle {
  ds_item_sep : string;
  ds_key_sep : string;
  ds_indent : option Z;
  ds_ascii : bool;
  ds_nan : bool;
}.
(** [separators=(",", ":")]; the default; [indent=n] *)
Definition compact_style := DumpStyle "," ":" None true true.
Definition default_style := DumpStyle ", " ": " None true true.
Definition indent_style (n : Z) := DumpStyle "," ": " (Some n) true true.
(** [separators=(",", ":"), ensure_ascii=False, allow_nan=False] *)
Definition canonical_style := DumpStyle "," ":" None false false.

Section Encoder.
  Context (st : dump_style).

Definition ds_str (s : string) : string :=
    if ds_ascii st then jstr s else quote +:+ sconcat (jchar_utf8 <$> uchars s) +:+ quote.

Definition newline_indent (depth : Z) : string :=
    match ds_indent st with
    | None => EmptyString
    | Some n => String "010" (sconcat (replicate (Z.to_nat (n * depth)) " "))
    end.

Definition enclose (l r : string) (depth : Z) (items : list string) : string :=
    match items with
    | [] => l +:+ r
    | _ => l +:+ newline_indent (depth + 1)
             +:+ join (ds_item_sep st +:+ newline_indent (depth + 1)) items
             +:+ newline_indent depth +:+ r
    end.

  (** [json.dumps(v, sort_keys=True, ...)] in the style [st]; bytes are not serialisable. *)
Fixpoint jdump (depth : Z) (v : value) : result string :=
    match v with
    | VNone => Ok "null"
    | VBool b => Ok (if b then "true" else "false")
    | VInt z => int_text z
    | VFloat f =>
        if ds_nan st || float_isfinite f then Ok (float_repr f) else raise ValueError "Out of range float values are not JSON compliant"
    | VStr s => Ok (ds_str s)
    | VBytes _ => raise TypeError "Object of type bytes is not JSON serializable"
    | VList l | VTuple l =>
        items ← (fix go (l : list value) : result (list string) :=
           match l with
           | [] => Ok []
           | x :: l => s ← jdump (depth + 1) x; r ← go l; Ok (s :: r)
           end) l;
        Ok (enclose "[" "]" depth items)
    | VDict d =>
        items ← (fix go (d : dict) : result (list (string * string)) :=
           match d with
           | [] => Ok []
           | (k, x) :: d => s ← jdump (depth + 1) x; r ← go d; Ok ((k, s) :: r)
           end) d;
        Ok (enclose "{" "}" depth ((λ p, ds_str p.1 +:+ ds_key_sep st +:+ p.2) <$> sort_dict items))
    end.
End Encoder.

Definition json_dumps (st : dump_style) (v : value) : result string := jdump st 0 v.

Example loads_example :
  json_loads (sq " {'a' : [1, -2.5e3, 'x\u00e9\ud83d\ude00'], 'b': null, 'a': true} ")
  = Ok (VDict [("a", VBool true); ("b", VNone)]).
Proof. vm_compute. reflexivity. Qed.

Example dumps_compact_example :
  json_dumps compact_style (VDict [("b", VList [VInt 1; VFloat (float_of_dec false 15 (-1))]); ("a", VStr "é")])
  = Ok (sq "{'a':'\u00e9','b':[1,1.5]}").
Proof. vm_compute. reflexivity. Qed.

(** ** Decoding plain strings *)
(** Characters a JSON string holds literally: not a quote, a backslash or a control. *)
Definition jplain (c : ascii) : bool :=
  negb (Ascii.eqb c "034") && negb (Ascii.eqb c "\") && (32 <=? ord c).

Lemma jstring_cons fuel c t :
  jplain c = true →
  jstring (S fuel) (String c t) = ('(r, t) ← jstring fuel t; Ok (String c r, t)).
Proof.
  intros Hc. destruct c as [[] [] [] [] [] [] [] []]; (discriminate Hc || reflexivity).
Qed.

Lemma jstring_plain fuel s t :
  sall jplain s = true → (String.length s < fuel)%nat →
  jstring fuel (s +:+ String "034" t) = Ok (s, t).
Proof.
  revert fuel; induction s as [|c s IH]; intros [|fuel] Hs Hf; cbn [String.length] in Hf; try lia.
  - done.
  - cbn [sall] in Hs. apply andb_true_iff in Hs as [Hc Hs].
    change (String c s +:+ String "034" t) with (String c (s +:+ String "034" t)).
    rewrite jstring_cons by done. rewrite IH by (done || lia). done.
Qed.

Lemma jvalue_string hook constant fuel s t :
  sall jplain s = true → jvalue hook constant (S fuel) (String "034" (s +:+ String "034" t)) = Ok (VStr s, t).
Proof.
  intros Hs. cbn [jvalue]. rewrite jstring_plain; [done|done|].
  rewrite app_length_str. lia.
Qed.

Lemma jvalue_list hook constant fuel t :
  jvalue hook constant (S fuel) (String "[" t) =
  match jws t with
  | String "]" r => Ok (VList [], r)
  | t => '(l, r) ← jitems hook constant fuel t; Ok (VList l, r)
  end.
Proof. reflexivity. Qed.

Lemma jitems_step hook constant fuel s :
  jitems hook constant (S fuel) s =
  ('(v, r) ← jvalue hook constant fuel s;
   match jws r with
   | String "]" r => Ok ([v], r)
   | String "," r => '(l, r) ← jitems hook constant fuel (jws r); Ok (v :: l, r)
   | _ => jfail
   end).
Proof. reflexivity. Qed.

(** The two-text array a publication receipt is: [["d","id"]]. *)
Definition pair_json (a b : string) : string :=
  "[" +:+ quote +:+ a +:+ quote +:+ "," +:+ quote +:+ b +:+ quote +:+ "]".

Lemma json_loads_pair a b :
  sall jplain a = true → sall jplain b = true →
  json_loads (pair_json a b) = Ok (VList [VStr a; VStr b]).
Proof.
  intros Ha Hb. unfold json_loads, json_loads_hook, pair_json.
  change ("[" +:+ quote +:+ a +:+ quote +:+ "," +:+ quote +:+ b +:+ quote +:+ "]")
    with (String "[" (String "034" (a +:+ String "034" (String "," (String "034" (b +:+ String "034" "]")))))).
  set (tl := String "," (String "034" (b +:+ String "034" "]"))).
  replace (startswith _ _) with false by done.
  set (n := String.length _). assert (∃ k, (2 * n + 2)%nat = S (S (S (S k)))) as [k ->].
  { exists (2 * n - 2)%nat. unfold n. cbn [String.length]. lia. }
  change (jws (String "[" ?x)) with (String "[" x).
  rewrite jvalue_list. change (jws (String "034" ?x)) with (String "034" x). cbn iota.
  rewrite jitems_step, jvalue_string by done. rewrite bind_ret. unfold tl.
  change (jws (String "," ?x)) with (String "," x). cbn iota.
  change (jws (String "034" ?x)) with (String "034" x).
  rewrite jitems_step, jvalue_string by done. rewrite bind_ret. done.
Qed.

(** A list of texts always has a dump. *)
Lemma json_dumps_strings st l :
  json_dumps st (VList (VStr <$> l)) = Ok (enclose st "[" "]" 0 (ds_str st <$> l)).
Proof.
  unfold json_dumps. cbn [jdump].
  match goal with |- (?go _ ≫= _) = _ => assert (go (VStr <$> l) = Ok (ds_str st <$> l)) as -> end; [|done].
  induction l as [|x l IH]; [done|]. cbn -[ds_str]. cbn -[ds_str] in IH. setoid_rewrite IH. done.
Qed.
