(* ===== verification/PyBytes.v ===== *)
(** * Numbers and JSON out of bytes

    [int(b)] and [json.loads(b)] of a [bytes] object, the latter with the
    encoding it detects ([json.detect_encoding]) and the [surrogatepass] error
    handler; [str.encode] and [str.replace].  Text is its UTF-8 bytes, a lone
    surrogate being the three bytes its code point has in that scheme. *)

From S2P Require Import Prelude PyStr PyVal Json.

Local Open Scope string_scope.
Local Open Scope list_scope.
Local Open Scope Z_scope.

(** [s.encode("utf-8")] *)
Definition encode_utf8 (s : string) : result string := if utf8_ok s then Ok s else raise UnicodeEncodeError "surrogates not allowed".

(** [s.replace(old, new)] of a non-empty [old]; [skip] characters are left to drop. *)
Fixpoint replace_go (old new : string) (skip : nat) (s : string) : string :=
  match s with
  | EmptyString => EmptyString
  | String c t =>
      match skip with
      | S skip => replace_go old new skip t
      | O => if startswith old s then new +:+ replace_go old new (String.length old - 1) t else String c (replace_go old new 0 t)
      end
  end.
Definition replace_str (old new s : string) : string := replace_go old new 0 s.

(** ** [int(b)] *)
Definition byte_space (c : ascii) : bool := byte_in 9 13 c || is_one " " c.

Definition int_of_bytes (b : string) : result Z :=
  let b := rstrip_c byte_space (lstrip_c byte_space b) in
  let '(neg, b) := match b with String "-" t => (true, t) | String "+" t => (false, t) | _ => (false, b) end in
  let groups := split_on "_" b in
  let digits := sconcat groups in
  if negb (forallb (λ g, negb (String.eqb g "") && sall is_digit g) groups) then raise ValueError "invalid literal for int()"
  else if 4300 <? slen digits then raise ValueError "int string conversion limit"
  else Ok (if neg : bool then - dec_val digits else dec_val digits).

(** ** [json.detect_encoding] and the decoders *)
Inductive encoding := Utf8 | Utf8Sig | Utf16 (big : bool) | Utf32 (big : bool) | Utf16Bom (big : bool) | Utf32Bom (big : bool).

Definition bytes_string (l : list Z) : string := String.string_of_list_ascii (chr <$> l).
Definition nonzero_at (i : nat) (b : string) : bool := match String.get i b with Some c => negb (ord c =? 0) | None => false end.

Definition detect_encoding (b : string) : encoding :=
  if startswith (bytes_string [0; 0; 254; 255]) b then Utf32Bom true
  else if startswith (bytes_string [255; 254; 0; 0]) b then Utf32Bom false
  else if startswith (bytes_string [254; 255]) b then Utf16Bom true
  else if startswith (bytes_string [255; 254]) b then Utf16Bom false
  else if startswith (bytes_string [239; 187; 191]) b then Utf8Sig
  else if 4 <=? slen b then
    if negb (nonzero_at 0 b) then if nonzero_at 1 b then Utf16 true else Utf32 true
    else if negb (nonzero_at 1 b) then if nonzero_at 2 b || nonzero_at 3 b then Utf16 false else Utf32 false
    else Utf8
  else if slen b =? 2 then
    if negb (nonzero_at 0 b) then Utf16 true else if negb (nonzero_at 1 b) then Utf16 false else Utf8
  else Utf8.

Definition bad_bytes {A} : result A := raise UnicodeDecodeError "json".

(** The three bytes of a surrogate *)
Definition surrogate_at (a b c : ascii) : bool := (ord a =? 237) && byte_in 160 191 b && byte_in 128 191 c.

(** The rest of the bytes once the surrogates are taken care of *)
Fixpoint mask_surrogates (s : string) : string :=
  match s with
  | String a t =>
      match t with
      | String b (String c r) => if surrogate_at a b c then String "?" (mask_surrogates r) else String a (mask_surrogates t)
      | _ => String a (mask_surrogates t)
      end
  | EmptyString => EmptyString
  end.

(** The units of two or four bytes *)
Fixpoint units16 (big : bool) (s : string) : option (list Z) :=
  match s with
  | EmptyString => Some []
  | String a (String b t) => l ← units16 big t; Some ((if big then ord a * 256 + ord b else ord b * 256 + ord a) :: l)
  | _ => None
  end.
Fixpoint units32 (big : bool) (s : string) : option (list Z) :=
  match s with
  | EmptyString => Some []
  | String a (String b (String c (String d t))) =>
      l ← units32 big t;
      Some ((if big then ((ord a * 256 + ord b) * 256 + ord c) * 256 + ord d
             else ((ord d * 256 + ord c) * 256 + ord b) * 256 + ord a) :: l)
  | _ => None
  end.

Definition high_surrogate (n : Z) : bool := (0xd800 <=? n) && (n <=? 0xdbff).
Definition low_surrogate (n : Z) : bool := (0xdc00 <=? n) && (n <=? 0xdfff).
Fixpoint utf16_text (l : list Z) : string :=
  match l with
  | [] => EmptyString
  | n :: l =>
      match l with
      | m :: l' =>
          if high_surrogate n && low_surrogate m then encode_cp (0x10000 + (n - 0xd800) * 1024 + (m - 0xdc00)) +:+ utf16_text l'
          else encode_cp n +:+ utf16_text l
      | [] => encode_cp n
      end
  end.

Definition decode_bytes (e : encoding) (b : string) : result string :=
  let utf8 b := if utf8_ok (mask_surrogates b) then Ok b else bad_bytes in
  let utf16 big b := match units16 big b with Some l => Ok (utf16_text l) | None => bad_bytes end in
  let utf32 big b :=
    match units32 big b with
    | Some l => if forallb (λ n, n <=? 0x10ffff) l then Ok (sconcat (encode_cp <$> l)) else bad_bytes
    | None => bad_bytes
    end in
  match e with
  | Utf8 => utf8 b
  | Utf8Sig => utf8 (sdrop 3 b)
  | Utf16 big => utf16 big b
  | Utf16Bom big => utf16 big (sdrop 2 b)
  | Utf32 big => utf32 big b
  | Utf32Bom big => utf32 big (sdrop 4 b)
  end.

(** [json.loads(b, object_pairs_hook=hook, parse_constant=constant)] *)
Definition json_loads_bytes_hook (hook : list (string * value) → result value) (constant : spec_float → result value) (b : string) : result value :=
  text ← decode_bytes (detect_encoding b) b; json_loads_hook hook constant text.

(** [json.loads(b)] *)
Definition json_loads_bytes : string → result value := json_loads_bytes_hook plain_dict plain_constant.
