(* ===== verification/IsoText.v ===== *)
(** * [datetime.fromisoformat] reads what [isoformat] writes

    For UTC times: the calendar, and the text. *)

From S2P Require Import Prelude PyStr PyTime.

Local Open Scope string_scope.
Local Open Scope list_scope.
Local Open Scope Z_scope.

(** ** The calendar *)
Lemma days_before_year_linear y :
  let p := y - 1 in 146097 * p - 800 < 400 * days_before_year y <= 146097 * p + 400.
Proof. unfold days_before_year. cbn zeta. Z.to_euclidean_division_equations. lia. Qed.

Lemma year_of_spec n : days_before_year (year_of n) <= n < days_before_year (year_of n + 1).
Proof.
  unfold year_of. set (y := n * 400 / 146097 + 1).
  assert (146097 * (y - 1) <= 400 * n < 146097 * y) as Hy by (unfold y; Z.to_euclidean_division_equations; lia).
  pose proof (days_before_year_linear (y - 1)) as H1. pose proof (days_before_year_linear (y + 1 + 1)) as H2. cbn zeta in *.
  destruct (Z.ltb_spec n (days_before_year y)).
  - replace (y - 1 + 1) with y by lia. lia.
  - destruct (Z.leb_spec (days_before_year (y + 1)) n); lia.
Qed.

Definition year_days (leap : bool) : Z := if leap then 366 else 365.

Lemma year_length y : days_before_year (y + 1) = days_before_year y + year_days (is_leap y).
Proof.
  unfold days_before_year, year_days, is_leap. replace (y + 1 - 1) with y by lia.
  destruct (Z.eqb_spec (y mod 4) 0), (Z.eqb_spec (y mod 100) 0), (Z.eqb_spec (y mod 400) 0); cbn; Z.to_euclidean_division_equations; lia.
Qed.

Lemma days_before_year_mono a b : a <= b → days_before_year a <= days_before_year b.
Proof. intros H. unfold days_before_year. Z.to_euclidean_division_equations. lia. Qed.

Definition month_starts (leap : bool) : list Z :=
  if leap then [0; 31; 60; 91; 121; 152; 182; 213; 244; 274; 305; 335] else [0; 31; 59; 90; 120; 151; 181; 212; 243; 273; 304; 334].

Lemma month_start y m : (1 <= m <= 12)%nat → days_before_month y (Z.of_nat m) = nth (m - 1) (month_starts (is_leap y)) 0.
Proof.
  intros Hm. unfold days_before_month, days_in_month.
  do 13 (destruct m as [|m]; [first [lia|cbn; by destruct (is_leap y)]|]). lia.
Qed.

Lemma month_end y m :
  (1 <= m <= 12)%nat →
  days_before_month y (Z.of_nat m) + days_in_month y (Z.of_nat m) = nth m (month_starts (is_leap y) ++ [year_days (is_leap y)]) 0.
Proof.
  intros Hm. rewrite month_start by done. unfold days_in_month.
  do 13 (destruct m as [|m]; [first [lia|cbn; by destruct (is_leap y)]|]). lia.
Qed.

(** The month found is the last that starts no later than [r]. *)
Lemma month_of_last y r k :
  foldr (λ m found, if days_before_month y m <=? r then m else found) 1 (rev (Z.of_nat <$> seq 2 k)) =
  Z.of_nat (foldr (λ m found, if days_before_month y (Z.of_nat m) <=? r then m else found) 1%nat (rev (seq 2 k))).
Proof.
  rewrite <- map_rev. induction (rev (seq 2 k)) as [|m l IH]; [done|]. cbn. destruct (_ <=? r); [done|apply IH].
Qed.

Lemma month_search y r k :
  0 <= r → (k <= 11)%nat →
  let m := foldr (λ m found, if days_before_month y (Z.of_nat m) <=? r then m else found) 1%nat (rev (seq 2 k)) in
  (1 <= m <= S k)%nat ∧ days_before_month y (Z.of_nat m) <= r ∧ ((m < S k)%nat → r < days_before_month y (Z.of_nat (S m))).
Proof.
  intros Hr. induction k as [|k IH]; intros Hk; cbn zeta.
  - cbn [seq rev foldr]. change (days_before_month y (Z.of_nat 1)) with 0. lia.
  - rewrite seq_S, rev_app_distr. cbn [rev app foldr]. replace (2 + k)%nat with (S (S k)) by lia. specialize (IH ltac:(lia)).
    destruct (Z.leb_spec (days_before_month y (Z.of_nat (S (S k)))) r); [lia|]. cbn zeta in IH. destruct IH as (H1 & H2 & H3).
    split_and!; [lia|lia|done|]. intros Hm. set (m := foldr _ _ _) in *.
    destruct (decide (m = S k)) as [->|]; [done|]. apply H3. lia.
Qed.

Lemma month_of_spec y r :
  0 <= r < year_days (is_leap y) →
  1 <= month_of y r <= 12 ∧ days_before_month y (month_of y r) <= r < days_before_month y (month_of y r) + days_in_month y (month_of y r).
Proof.
  intros Hr. pose proof (month_search y r 11 ltac:(lia) ltac:(lia)) as H. cbn zeta in H.
  assert (month_of y r = Z.of_nat (foldr (λ m found, if days_before_month y (Z.of_nat m) <=? r then m else found) 1%nat (rev (seq 2 11)))) as ->.
  { rewrite <- month_of_last. done. }
  set (m := foldr _ _ _) in *. clearbody m. destruct H as (H1 & H2 & H3). split; [lia|]. split; [done|]. rewrite month_end by lia.
  destruct (decide (m = 12%nat)) as [->|]; [destruct (is_leap y); cbn in *; lia|].
  specialize (H3 ltac:(lia)). rewrite month_start in H3 by lia. replace (S m - 1)%nat with m in H3 by lia.
  rewrite app_nth1; [done|]. destruct (is_leap y); cbn; lia.
Qed.

(** The date of a day, and the day of a date *)
Definition MAX_DAY : Z := days_of 10000 1 1.

Lemma ymd_of_spec n : 0 <= n < MAX_DAY → let '(y, m, d) := ymd_of n in date_ok y m d = true ∧ days_of y m d = n.
Proof.
  intros Hn. unfold ymd_of. pose proof (year_of_spec n) as Hy. pose proof (year_length (year_of n)) as Hl.
  destruct (month_of_spec (year_of n) (n - days_before_year (year_of n)) ltac:(lia)) as [Hm Hd].
  assert (1 <= year_of n <= 9999) as Hyr.
  { change MAX_DAY with (days_before_year 10000) in Hn. split.
    - destruct (Z.le_gt_cases 1 (year_of n)) as [?|Hlt]; [done|]. pose proof (days_before_year_mono (year_of n + 1) 1 ltac:(lia)) as H.
      change (days_before_year 1) with 0 in H. lia.
    - destruct (Z.le_gt_cases (year_of n) 9999) as [?|Hgt]; [done|]. pose proof (days_before_year_mono 10000 (year_of n) ltac:(lia)). lia. }
  split; [unfold date_ok; lia|unfold days_of; lia].
Qed.

(** ** Fields of digits *)
Lemma zeros_val k s : dec_val (sconcat (replicate k "0") +:+ s) = dec_val s.
Proof. induction k as [|k IH]; [done|]. cbn [replicate sconcat foldr]. change (("0" +:+ ?a) +:+ s) with (String "0" (a +:+ s)). rewrite dec_val_cons. change (ord "0") with 48. unfold sconcat in IH. lia. Qed.

Lemma zeros_digits k : sall is_digit (sconcat (replicate k "0")) = true ∧ String.length (sconcat (replicate k "0")) = k.
Proof. induction k as [|k [IH1 IH2]]; [done|]. split; [exact IH1|]. cbn. f_equal. exact IH2. Qed.

Lemma pad_spec k n :
  (1 <= k)%nat → 0 <= n < 10 ^ Z.of_nat k → String.length (pad k n) = k ∧ sall is_digit (pad k n) = true ∧ dec_val (pad k n) = n.
Proof.
  intros Hk Hn. pose proof (dec_of_Z_len n (Z.of_nat k) Hn ltac:(lia)) as Hl. unfold slen in Hl. unfold pad.
  destruct (zeros_digits (k - String.length (dec_of_Z n))) as [Hz Hzl].
  rewrite app_length_str, sall_app, zeros_val, Hz, Hzl, dec_of_Z_digits, dec_of_Z_val by lia. split_and!; [lia|done|done].
Qed.

Lemma pad_digits k n : (1 <= k)%nat → 0 <= n < 10 ^ Z.of_nat k → sall is_digit (pad k n) = true.
Proof. intros Hk Hn. by destruct (pad_spec k n Hk Hn) as (_ & ? & _). Qed.

Lemma digits_pad k n rest : (1 <= k)%nat → 0 <= n < 10 ^ Z.of_nat k → digits k (pad k n +:+ rest) = Some (n, rest).
Proof.
  intros Hk Hn. destruct (pad_spec k n Hk Hn) as (Hl & Hd & Hv). unfold digits.
  assert (∀ a b, stake (String.length a) (a +:+ b) = a ∧ sdrop (String.length a) (a +:+ b) = b) as Hs.
  { intros a b. induction a as [|c a [IH1 IH2]]; [done|]. split; [cbn; f_equal; exact IH1|exact IH2]. }
  rewrite <- Hl. destruct (Hs (pad k n) rest) as [H1 H2]. rewrite !Hl in *. rewrite H1, H2, Hd, Hl, Nat.eqb_refl, Hv. done.
Qed.

(** Its characters: none of the separators *)
Lemma pad2 n : 0 <= n < 100 → ∃ a b, pad 2 n = String a (String b EmptyString) ∧ is_digit a = true ∧ is_digit b = true.
Proof.
  intros Hn. destruct (pad_spec 2 n ltac:(lia) Hn) as (Hl & Hd & _). destruct (pad 2 n) as [|a [|b [|]]]; try done.
  cbn in Hd. rewrite !andb_true_iff in Hd. exists a, b. tauto.
Qed.

Lemma pad4 n : 0 <= n < 10000 → ∃ a b c d, pad 4 n = String a (String b (String c (String d EmptyString))) ∧ sall is_digit (pad 4 n) = true.
Proof.
  intros Hn. destruct (pad_spec 4 n ltac:(lia) Hn) as (Hl & Hd & _). destruct (pad 4 n) as [|a [|b [|c [|d [|]]]]]; try done. eauto 10.
Qed.

(** ** The text of a UTC time *)
Definition utc_text (t : Z) : string :=
  let '(y, m, d) := ymd_of (t / US_DAY) in let u := t mod US_DAY in
  pad 4 y +:+ "-" +:+ pad 2 m +:+ "-" +:+ pad 2 d +:+ "T" +:+ write_hms u +:+ write_fraction (u mod US_SECOND) +:+ "+00:00".

Lemma isoformat_utc t : isoformat (DateTime t (Some 0)) = utc_text t.
Proof. unfold isoformat, utc_text. cbn [dt_local dt_offset]. by destruct (ymd_of (t / US_DAY)) as [[y m] d]. Qed.

Lemma take_drop_app a b : stake (String.length a) (a +:+ b) = a ∧ sdrop (String.length a) (a +:+ b) = b.
Proof. induction a as [|c a [IH1 IH2]]; [done|]. split; [cbn; f_equal; exact IH1|exact IH2]. Qed.

(** The characters of a time without its offset *)
Definition clock_char (c : ascii) : bool := is_digit c || is_any [":"; "."]%char c.

Lemma tz_position_clock s t : sall clock_char s = true → tz_position (s +:+ String "+" t) = String.length s.
Proof.
  induction s as [|c s IH]; [done|]. cbn [sall]. rewrite andb_true_iff. intros [Hc Hs]. change (String c s +:+ ?t) with (String c (s +:+ t)).
  cbn [tz_position String.length]. rewrite IH by done.
  destruct c as [[] [] [] [] [] [] [] []]; (discriminate Hc || reflexivity).
Qed.

Lemma digits_clock s : sall is_digit s = true → sall clock_char s = true.
Proof. apply sall_impl. intros c Hc. unfold clock_char. by rewrite Hc. Qed.

Lemma write_fraction_clock us : 0 <= us < 1000000 → sall clock_char (write_fraction us) = true.
Proof.
  intros Hu. unfold write_fraction. destruct (us =? 0); [done|]. rewrite sall_app. cbn [sall]. 
  rewrite digits_clock; [done|]. apply pad_digits; [lia|done].
Qed.

Lemma write_hms_clock t : 0 <= t < US_DAY → sall clock_char (write_hms t) = true.
Proof.
  intros Ht. unfold write_hms. unfold US_DAY in Ht. change US_SECOND with 1000000 in *.
  assert (∀ n, 0 <= n < 100 → sall clock_char (pad 2 n) = true) as H by (intros n Hn; apply digits_clock, pad_digits; [lia|done]).
  rewrite !sall_app, !H by (Z.to_euclidean_division_equations; lia). done.
Qed.

Lemma field_step more sep acc v t :
  0 <= v < 100 → t ≠ EmptyString → default true sep = true →
  parse_fields (S more) sep acc (pad 2 v +:+ ":" +:+ t) = parse_fields more (Some true) (v :: acc) t.
Proof.
  intros Hv Ht Hs. cbn [parse_fields]. rewrite digits_pad by (done || lia). cbn [mbind option_bind].
  destruct t as [|c t]; [done|]. destruct sep as [[]|]; done.
Qed.

Lemma field_last acc v us :
  0 <= v < 100 → 0 <= us < 1000000 → parse_fields 0 (Some true) acc (pad 2 v +:+ write_fraction us) = Some (v :: acc, us, true).
Proof.
  intros Hv Hu. cbn [parse_fields]. rewrite digits_pad by (done || lia). cbn [mbind option_bind]. unfold write_fraction.
  destruct (Z.eqb_spec us 0) as [->|Hn]; [done|]. pose proof (pad_spec 6 us ltac:(lia) Hu) as (Hl & _ & _).
  pose proof (digits_pad 6 us EmptyString ltac:(lia) Hu) as Hd. rewrite app_nil_r_str in Hd.
  assert (parse_fraction (pad 6 us) = Some (us, true)) as Hf.
  { unfold parse_fraction. rewrite Hl. cbn [Nat.min]. rewrite Hd. cbn. do 2 f_equal. lia. }
  destruct (pad 6 us) as [|c s]; [done|]. change ("." +:+ String c s) with (String "." (String c s)). cbn -[parse_fraction]. by rewrite Hf.
Qed.

Lemma pad_nonempty k n t : (1 <= k)%nat → 0 <= n < 10 ^ Z.of_nat k → pad k n +:+ t ≠ EmptyString.
Proof. intros Hk Hn. destruct (pad_spec k n Hk Hn) as (Hl & _). destruct (pad k n); cbn in *; [lia|done]. Qed.

Lemma hms_text h m s us :
  0 <= h < 100 → 0 <= m < 100 → 0 <= s < 100 → 0 <= us < 1000000 →
  hms (pad 2 h +:+ ":" +:+ pad 2 m +:+ ":" +:+ pad 2 s +:+ write_fraction us) = Some (h, m, s, us, true).
Proof.
  intros Hh Hm Hs Hu. unfold hms.
  rewrite !field_step, field_last by (done || by apply pad_nonempty; lia). done.
Qed.

(** The time of day [u] *)
Lemma parse_time_text u : 0 <= u < US_DAY → parse_time (write_hms u +:+ write_fraction (u mod US_SECOND) +:+ "+00:00") = Some (u, Some 0).
Proof.
  intros Hu. pose proof (write_hms_clock u Hu) as Hc. unfold parse_time.
  assert (0 <= u mod US_SECOND < 1000000) as Hus by (apply Z.mod_pos_bound; done).
  set (a := write_hms u +:+ write_fraction (u mod US_SECOND)).
  assert (sall clock_char a = true) as Ha by (unfold a; by rewrite sall_app, Hc, write_fraction_clock).
  rewrite app_assoc_str. fold a. change "+00:00" with (String "+" "00:00"). rewrite tz_position_clock by done.
  destruct (take_drop_app a (String "+" "00:00")) as [-> ->].
  assert (hms a = Some (u / US_SECOND / 3600, u / US_SECOND / 60 mod 60, u / US_SECOND mod 60, u mod US_SECOND, true)) as ->.
  { unfold a, write_hms. rewrite <- !app_assoc_str. unfold US_DAY in Hu. change US_SECOND with 1000000 in *.
    apply hms_text; [..|done]; Z.to_euclidean_division_equations; lia. }
  cbn [mbind option_bind]. unfold US_DAY in Hu. change US_SECOND with 1000000 in *.
  assert (time_ok (u / 1000000 / 3600) (u / 1000000 / 60 mod 60) (u / 1000000 mod 60) (u mod 1000000) = true) as ->.
  { unfold time_ok. rewrite !andb_true_iff, !Z.leb_le. split_and!; Z.to_euclidean_division_equations; lia. }
  change (hms "00:00") with (Some (0, 0, 0, 0, true)). cbn. do 2 f_equal. Z.to_euclidean_division_equations; lia.
Qed.

(** The date and the time around their separator *)
Lemma parse_text y m d rest :
  0 <= y < 10000 → 0 <= m < 100 → 0 <= d < 100 →
  let s := pad 4 y +:+ "-" +:+ pad 2 m +:+ "-" +:+ pad 2 d +:+ "T" +:+ rest in
  (String.length s <? 7)%nat = false ∧ separator_location s = Some 10%nat ∧ parse_date 10 s = Some (y, m, d) ∧ (10 <? String.length s)%nat = true
  ∧ sdrop (separator_width (sdrop 10 s)) (sdrop 10 s) = rest.
Proof.
  intros Hy Hm Hd s. pose proof (pad_spec 4 y ltac:(lia) Hy) as (Hly & _).
  assert (parse_date 10 s = Some (y, m, d)) as Hp.
  { unfold parse_date, s. rewrite digits_pad by (done || lia). cbn [mbind option_bind].
    change (has_char "-" (at_ 0 ("-" +:+ ?t))) with true. cbn iota. change (sdrop 1 ("-" +:+ ?t)) with t.
    destruct (pad2 m Hm) as (a & b & E & Ha & Hb).
    assert (has_char "W" (at_ 0 (pad 2 m +:+ "-" +:+ pad 2 d +:+ "T" +:+ rest)) = false) as ->.
    { rewrite E. cbn. destruct a as [[] [] [] [] [] [] [] []]; (discriminate Ha || reflexivity). }
    rewrite digits_pad by (done || lia). cbn [mbind option_bind dash]. change (has_char "-" (at_ 0 ("-" +:+ ?t))) with true. cbn iota.
    change (sdrop 1 ("-" +:+ ?t)) with t. cbn [mbind option_bind]. rewrite digits_pad by (done || lia). cbn [mbind option_bind].
    rewrite !app_length_str, Hly. destruct (pad_spec 2 m ltac:(lia) Hm) as (-> & _), (pad_spec 2 d ltac:(lia) Hd) as (-> & _). cbn [String.length].
    replace (_ - _)%nat with 10%nat by lia. done. }
  destruct (pad4 y Hy) as (y1 & y2 & y3 & y4 & Ey & _), (pad2 m Hm) as (m1 & m2 & Em & Hm1 & _), (pad2 d Hd) as (d1 & d2 & Ed & _).
  split_and!; [..|done| |]; unfold s; rewrite Ey, Em, Ed; [reflexivity| |reflexivity|reflexivity].
  unfold separator_location. change (Nat.eqb _ 7) with false. cbn iota.
  change (has_char "-" (at_ 4 _)) with true. cbn iota. change (has_char "W" (at_ 5 _)) with (Ascii.eqb m1 "W").
  by destruct m1 as [[] [] [] [] [] [] [] []].
Qed.

(** The fields of a local time in the years 1 to 9999 *)
Lemma fields_spec t : 0 <= t < MAX_LOCAL →
  let '(y, m, d) := ymd_of (t / US_DAY) in
  date_ok y m d = true ∧ days_of y m d = t / US_DAY ∧ 0 <= y < 10000 ∧ 0 <= m < 100 ∧ 0 <= d < 100.
Proof.
  intros Ht. assert (0 <= t / US_DAY < MAX_DAY) as Hd.
  { change MAX_LOCAL with (MAX_DAY * US_DAY) in Ht. unfold US_DAY in *. change US_SECOND with 1000000 in *. Z.to_euclidean_division_equations; lia. }
  pose proof (ymd_of_spec (t / US_DAY) Hd) as Hs. destruct (ymd_of (t / US_DAY)) as [[y m] d]. destruct Hs as [Hok Hday].
  split_and!; [done..| | | | | |]; unfold date_ok in Hok; rewrite !andb_true_iff, !Z.leb_le in Hok; try lia.
  unfold days_in_month in Hok. repeat case_match; lia.
Qed.

(** [datetime.fromisoformat(d.isoformat()) == d] for a UTC time [d] *)
Theorem fromisoformat_isoformat t : 0 <= t < MAX_LOCAL → fromisoformat (isoformat (DateTime t (Some 0))) = Ok (DateTime t (Some 0)).
Proof.
  intros Ht. rewrite isoformat_utc. unfold utc_text. pose proof (fields_spec t Ht) as Hs.
  destruct (ymd_of (t / US_DAY)) as [[y m] d]. destruct Hs as (Hok & Hday & Hy & Hm & Hd).
  destruct (parse_text y m d (write_hms (t mod US_DAY) +:+ write_fraction (t mod US_DAY mod US_SECOND) +:+ "+00:00")) as (H1 & H2 & H3 & H4 & H5); [done..|].
  unfold fromisoformat, parse_datetime. rewrite H1, H2. cbn [mbind option_bind]. rewrite H3. cbn [mbind option_bind]. rewrite H4, H5.
  rewrite parse_time_text by (by apply Z.mod_pos_bound). cbn [mbind option_bind]. rewrite Hok. do 2 f_equal. rewrite Hday.
  rewrite Z.mul_comm. symmetry. apply Z.div_mod. done.
Qed.

(** Its text is clear ASCII. *)
Definition iso_char (c : ascii) : bool := is_digit c || is_any ["-"; ":"; "."; "T"; "+"]%char c.

Lemma isoformat_chars t : 0 <= t < MAX_LOCAL → sall iso_char (isoformat (DateTime t (Some 0))) = true.
Proof.
  intros Ht. rewrite isoformat_utc. unfold utc_text. pose proof (fields_spec t Ht) as Hs.
  destruct (ymd_of (t / US_DAY)) as [[y m] d]. destruct Hs as (_ & _ & Hy & Hm & Hd).
  assert (∀ k n, (1 <= k)%nat → 0 <= n < 10 ^ Z.of_nat k → sall iso_char (pad k n) = true) as Hpad.
  { intros k n Hk Hn. eapply sall_impl; [|by apply pad_digits]. intros c Hc. unfold iso_char. by rewrite Hc. }
  assert (∀ s, sall clock_char s = true → sall iso_char s = true) as Hclock.
  { intros s. apply sall_impl. intros c Hc. unfold clock_char, iso_char in *. cbn in *. destruct (is_digit c); [done|]. cbn in *.
    destruct (Ascii.eqb c ":"), (Ascii.eqb c "."); try done; by rewrite ?orb_true_r. }
  rewrite !sall_app, !Hpad, (Hclock (write_hms _)), (Hclock (write_fraction _));
    [done|apply write_fraction_clock; apply Z.mod_pos_bound; done|apply write_hms_clock; by apply Z.mod_pos_bound|first [done|lia]..].
Qed.
