(* ===== verification/JsonText.v ===== *)
(** * What [json.dumps] writes, [json.loads] reads

    Values made of null, booleans, integers, lists, dictionaries with distinct
    keys, and texts of printable ASCII characters without quote and backslash:
    the compact text of such a value, with its keys sorted, is read back as the
    same value with its dictionaries sorted. *)

From S2P Require Import Prelude PyStr PyVal Json PyBytes.

Local Open Scope string_scope.
Local Open Scope list_scope.
Local Open Scope Z_scope.

(** Characters that a text holds as they are, in either encoding *)
Definition jclear (c : ascii) : bool := jplain c && (ord c <? 127).

Fixpoint plain (v : value) : bool :=
  match v with
  | VNone | VBool _ => true
  | VInt z => slen (dec_of_Z (Z.abs z)) <=? 4300
  | VStr s => sall jclear s
  | VList l => forallb plain l
  | VDict d => no_dup d.*1 && forallb (λ kv, sall jclear kv.1 && plain kv.2) d
  | _ => false
  end.

(** The value with its dictionaries sorted *)
Fixpoint sorted (v : value) : value :=
  match v with
  | VList l => VList (sorted <$> l)
  | VDict d => VDict (sort_dict ((λ kv, (kv.1, sorted kv.2)) <$> d))
  | _ => v
  end.

Definition quoted (s : string) : string := quote +:+ s +:+ quote.
Definition jmember (kv : string * string) : string := quoted kv.1 +:+ ":" +:+ kv.2.
Fixpoint jtext (v : value) : string :=
  match v with
  | VNone => "null"
  | VBool b => if b then "true" else "false"
  | VInt z => dec_of_Z z
  | VStr s => quoted s
  | VList l => "[" +:+ join "," (jtext <$> l) +:+ "]"
  | VDict d => "{" +:+ join "," (jmember <$> sort_dict ((λ kv, (kv.1, jtext kv.2)) <$> d)) +:+ "}"
  | _ => EmptyString
  end.

Lemma value_induction (P : value → Prop) :
  P VNone → (∀ b, P (VBool b)) → (∀ z, P (VInt z)) → (∀ f, P (VFloat f)) → (∀ s, P (VStr s)) → (∀ s, P (VBytes s)) →
  (∀ l, Forall P l → P (VList l)) → (∀ l, P (VTuple l)) → (∀ d, Forall (λ kv, P kv.2) d → P (VDict d)) → ∀ v, P v.
Proof.
  intros HN HB HI HF HS HY HL HT HD. fix IH 1. intros [| | | | | |l|l|d]; [done..| | |].
  - apply HL. induction l as [|x l IHl]; constructor; [apply IH|exact IHl].
  - apply HT.
  - apply HD. induction d as [|[k x] d IHd]; constructor; [apply IH|exact IHd].
Qed.

(** ** Sorting looks at the keys only *)
Lemma insert_key_map {A B} (f : A → B) p l :
  insert_key (p.1, f p.2) ((λ kv, (kv.1, f kv.2)) <$> l) = (λ kv, (kv.1, f kv.2)) <$> insert_key p l.
Proof. induction l as [|q l IH]; [done|]. cbn. destruct (String.leb p.1 q.1); [done|]. cbn. f_equal. apply IH. Qed.

Lemma sort_dict_map {A B} (f : A → B) l :
  sort_dict ((λ kv, (kv.1, f kv.2)) <$> l) = (λ kv, (kv.1, f kv.2)) <$> sort_dict l.
Proof. induction l as [|p l IH]; [done|]. cbn. unfold sort_dict in IH. rewrite IH. apply insert_key_map. Qed.

Lemma insert_key_perm {A} (p : string * A) l : insert_key p l ≡ₚ p :: l.
Proof. induction l as [|q l IH]; [done|]. cbn. destruct (String.leb p.1 q.1); [done|]. rewrite IH. apply Permutation_swap. Qed.

Lemma sort_dict_perm {A} (l : list (string * A)) : sort_dict l ≡ₚ l.
Proof. induction l as [|p l IH]; [done|]. cbn. rewrite insert_key_perm. by f_equiv. Qed.

(** ** Writing *)
Lemma jclear_char c : jclear c = true → jchar (String c EmptyString) = String c EmptyString ∧ jchar_utf8 (String c EmptyString) = String c EmptyString.
Proof. destruct c as [[] [] [] [] [] [] [] []]; (discriminate || by split). Qed.

Lemma jclear_ascii s : sall jclear s = true → isascii s = true.
Proof.
  unfold isascii. induction s as [|c s IH]; [done|]. cbn. rewrite !andb_true_iff. intros [Hc Hs]. split; [|by apply IH].
  unfold jclear in Hc. unfold is_ascii7. lia.
Qed.

Lemma ds_str_clear st s : sall jclear s = true → ds_str st s = quoted s.
Proof.
  intros Hs. unfold ds_str, jstr, quoted. rewrite uchars_ascii by by apply jclear_ascii. rewrite <- !list_fmap_compose.
  assert (∀ f : string → string, (∀ c, jclear c = true → f (String c EmptyString) = String c EmptyString) →
    sconcat ((f ∘ (λ c, String c EmptyString)) <$> String.list_ascii_of_string s) = s) as H.
  { intros f Hf. induction s as [|c s IH]; [done|]. cbn in Hs. apply andb_true_iff in Hs as [Hc Hs]. cbn. rewrite Hf by done. cbn. f_equal. by apply IH. }
  destruct (ds_ascii st); rewrite H; [done| |done|]; intros c Hc; by apply jclear_char.
Qed.

(** The styles that separate by a comma and a colon only *)
Definition compact (st : dump_style) : bool :=
  String.eqb (ds_item_sep st) "," && String.eqb (ds_key_sep st) ":" && bool_decide (ds_indent st = None).

Lemma enclose_compact st l r depth items : compact st = true → enclose st l r depth items = l +:+ join "," items +:+ r.
Proof.
  unfold compact. rewrite !andb_true_iff, !String.eqb_eq, bool_decide_eq_true. intros [[Hi Hk] Hn].
  unfold enclose, newline_indent. rewrite Hi, Hn. by destruct items.
Qed.

Lemma jdump_plain st v depth : compact st = true → plain v = true → jdump st depth v = Ok (jtext v).
Proof.
  intros Hst. revert depth. induction v as [|b|z|f|s|s|l IH|l|d IH] using value_induction; intros depth Hv; try done.
  - cbn in *. unfold int_text. destruct (Z.ltb_spec 4300 (slen (dec_of_Z (Z.abs z)))); [lia|done].
  - cbn in *. by rewrite ds_str_clear.
  - cbn [jdump plain jtext] in *.
    match goal with |- (?go _ ≫= _) = _ => assert (go l = Ok (jtext <$> l)) as -> end; [|cbn; by rewrite enclose_compact].
    induction IH as [|x l Hx _ IHl]; [done|]. cbn in Hv. apply andb_true_iff in Hv as [Hvx Hv].
    cbn -[jdump]. rewrite Hx by done. cbn -[jdump]. by rewrite IHl.
  - cbn [jdump plain jtext] in *. apply andb_true_iff in Hv as [_ Hv].
    match goal with |- (?go _ ≫= _) = _ => assert (go d = Ok ((λ kv, (kv.1, jtext kv.2)) <$> d)) as -> end.
    + induction IH as [|[k x] d Hx _ IHl]; [done|]. cbn [forallb fst snd] in Hv. rewrite !andb_true_iff in Hv. destruct Hv as [[_ Hvx] Hv].
      cbn -[jdump]. rewrite Hx by done. cbn -[jdump]. by rewrite IHl.
    + cbn. rewrite enclose_compact by done. do 3 f_equal. 
      unfold compact in Hst. rewrite !andb_true_iff, !String.eqb_eq in Hst. destruct Hst as [[_ Hk] _].
      rewrite sort_dict_map. rewrite <- !list_fmap_compose. f_equal. apply list_fmap_ext. intros i [k x] Hi. cbn. unfold jmember. cbn.
      apply list_elem_of_lookup_2 in Hi. rewrite sort_dict_perm in Hi.
      rewrite ds_str_clear, Hk; [done|]. rewrite forallb_forall in Hv. apply list_elem_of_In in Hi. specialize (Hv _ Hi). cbn in Hv. by apply andb_true_iff in Hv as [? _].
Qed.

(** ** Reading *)
(** What may follow a number *)
Definition stops (s : string) : bool :=
  match s with EmptyString => true | String c _ => negb (is_digit c || is_any ["."; "e"; "E"]%char c) end.
(** The text of a value starts where the decoder expects one. *)
Definition opens (s : string) : bool :=
  match s with EmptyString => false | String c _ => negb (is_any [" "; "009"; "010"; "013"; "]"; "}"]%char c) end.

Lemma opens_jws s : opens s = true → jws s = s.
Proof. destruct s as [|c s]; [done|]. destruct c as [[] [] [] [] [] [] [] []]; (discriminate || done). Qed.

Lemma cons_app_str c s t : String c s +:+ t = String c (s +:+ t).
Proof. done. Qed.

Lemma nil_app_str t : EmptyString +:+ t = t.
Proof. done. Qed.

Lemma opens_app s t : opens s = true → opens (s +:+ t) = true.
Proof. by destruct s. Qed.

Lemma span_digits s rest : sall is_digit s = true → stops rest = true → span is_digit (s +:+ rest) = (s, rest).
Proof.
  intros Hs Hr. induction s as [|c s IH].
  - rewrite nil_app_str. destruct rest as [|c r]; [done|]. cbn in *. rewrite negb_true_iff, orb_false_iff in Hr. destruct Hr as [Hr _]. by rewrite Hr.
  - rewrite cons_app_str. cbn in *. apply andb_true_iff in Hs as [Hc Hs]. by rewrite Hc, IH.
Qed.

Lemma stops_parts rest : stops rest = true → jfrac_part rest = (None, rest) ∧ jexp_part rest = (None, rest).
Proof. destruct rest as [|c r]; [done|]. destruct c as [[] [] [] [] [] [] [] []]; (discriminate || done). Qed.

Lemma jint_dec n rest : 0 <= n → stops rest = true → jint_part (dec_of_Z n +:+ rest) = Some (dec_of_Z n, rest).
Proof.
  intros Hn Hr. pose proof (dec_of_Z_canonical n Hn) as Hc. pose proof (dec_of_Z_digits n Hn) as Hd.
  pose proof (span_digits _ rest Hd Hr) as Hsp. destruct (dec_of_Z n) as [|c s] eqn:E; [done|].
  destruct (Ascii.eqb c "0") eqn:Hz.
  - apply Ascii.eqb_eq in Hz as ->. destruct s; [done|]. exfalso. by vm_compute in Hc.
  - unfold jint_part. rewrite cons_app_str in *.
    assert (∀ A (x y : A), match c with "0"%char => x | _ => y end = y) as Hm.
    { intros A x y. destruct c as [[] [] [] [] [] [] [] []]; (discriminate || done). }
    rewrite Hsp. apply Hm.
Qed.

Lemma jnumber_dec neg n rest :
  0 <= n → slen (dec_of_Z n) <= 4300 → stops rest = true → jnumber neg (dec_of_Z n +:+ rest) = Ok (VInt (if neg then - n else n), rest).
Proof.
  intros Hn Hl Hr. unfold jnumber. rewrite jint_dec by done. destruct (stops_parts rest Hr) as [-> ->].
  unfold int_of_digits. destruct (Z.ltb_spec 4300 (slen (dec_of_Z n))); [lia|]. cbn. by rewrite dec_of_Z_val.
Qed.

Section Reading.
Context (hook : list (string * value) → result value) (constant : spec_float → result value).
(** Distinct keys make a dictionary. *)
Context (Hhook : ∀ ps, NoDup ps.*1 → hook ps = Ok (VDict ps)).

Lemma jvalue_digit fuel c t : is_digit c = true → jvalue hook constant (S fuel) (String c t) = jnumber false (String c t).
Proof. destruct c as [[] [] [] [] [] [] [] []]; (discriminate || reflexivity). Qed.

Lemma jvalue_minus fuel c t : is_digit c = true → jvalue hook constant (S fuel) (String "-" (String c t)) = jnumber true (String c t).
Proof. destruct c as [[] [] [] [] [] [] [] []]; (discriminate || reflexivity). Qed.

Lemma dec_of_Z_head n : 0 <= n → ∃ c s, dec_of_Z n = String c s ∧ is_digit c = true.
Proof.
  intros Hn. pose proof (dec_of_Z_digits n Hn) as Hd. pose proof (dec_of_Z_canonical n Hn) as Hc.
  destruct (dec_of_Z n) as [|c s]; [done|]. cbn in Hd. apply andb_true_iff in Hd as [Hd _]. eauto.
Qed.

Lemma jvalue_int fuel z rest :
  slen (dec_of_Z (Z.abs z)) <= 4300 → stops rest = true → jvalue hook constant (S fuel) (dec_of_Z z +:+ rest) = Ok (VInt z, rest).
Proof.
  intros Hl Hr. destruct (Z.le_gt_cases 0 z) as [Hz|Hz].
  - rewrite Z.abs_eq in Hl by done. pose proof (jnumber_dec false z rest Hz Hl Hr) as H.
    destruct (dec_of_Z_head z Hz) as (c & s & E & Hc). rewrite E in *. rewrite cons_app_str in *. by rewrite jvalue_digit.
  - assert (dec_of_Z z = String "-" (dec_of_Z (- z))) as -> by (destruct z; done).
    rewrite Z.abs_neq in Hl by lia. pose proof (jnumber_dec true (- z) rest ltac:(lia) Hl Hr) as H. rewrite Z.opp_involutive in H.
    destruct (dec_of_Z_head (- z) ltac:(lia)) as (c & s & E & Hc). rewrite E in *. rewrite !cons_app_str in *. by rewrite jvalue_minus.
Qed.

Lemma jvalue_items fuel t :
  opens t = true → jvalue hook constant (S fuel) (String "[" t) = ('(l, r) ← jitems hook constant fuel t; Ok (VList l, r)).
Proof.
  intros Ht. rewrite jvalue_list, opens_jws by done. destruct t as [|c t]; [done|].
  destruct c as [[] [] [] [] [] [] [] []]; (discriminate || reflexivity).
Qed.

Lemma jvalue_pairs fuel t :
  opens t = true → jvalue hook constant (S fuel) (String "{" t) = ('(ps, r) ← jpairs hook constant fuel t; v ← hook ps; Ok (v, r)).
Proof.
  intros Ht. change (jvalue hook constant (S fuel) (String "{" t)) with
    (match jws t with String "}" r => v ← hook []; Ok (v, r) | t => '(ps, r) ← jpairs hook constant fuel t; v ← hook ps; Ok (v, r) end).
  rewrite opens_jws by done. destruct t as [|c t]; [done|]. destruct c as [[] [] [] [] [] [] [] []]; (discriminate || reflexivity).
Qed.

Lemma jclear_plain s : sall jclear s = true → sall jplain s = true.
Proof. induction s as [|c s IH]; [done|]. cbn. rewrite !andb_true_iff. intros [Hc Hs]. split; [|by apply IH]. unfold jclear in Hc. by apply andb_true_iff in Hc as [? _]. Qed.

Lemma quoted_app s t : quoted s +:+ t = String "034" (s +:+ String "034" t).
Proof. unfold quoted, quote. by rewrite <- !app_assoc_str. Qed.

Lemma jpairs_step fuel k t :
  sall jclear k = true → opens t = true →
  jpairs hook constant (S fuel) (quoted k +:+ ":" +:+ t) =
  ('(v, r) ← jvalue hook constant fuel t;
   match jws r with
   | String "}" r => Ok ([(k, v)], r)
   | String "," r => '(l, r) ← jpairs hook constant fuel (jws r); Ok ((k, v) :: l, r)
   | _ => jfail
   end).
Proof.
  intros Hk Ht. rewrite quoted_app. change (":" +:+ t) with (String ":" t).
  change (jpairs hook constant (S fuel) (String "034" ?u)) with
    ('(k, t) ← jstring (S (String.length u)) u;
     match jws t with
     | String ":" t => '(v, r) ← jvalue hook constant fuel (jws t);
         match jws r with
         | String "}" r => Ok ([(k, v)], r)
         | String "," r => '(l, r) ← jpairs hook constant fuel (jws r); Ok ((k, v) :: l, r)
         | _ => jfail
         end
     | _ => jfail
     end).
  rewrite jstring_plain; [|by apply jclear_plain|rewrite app_length_str; lia].
  rewrite bind_ret. change (jws (String ":" t)) with (String ":" t). cbn iota. by rewrite opens_jws.
Qed.

Lemma jtext_opens v : plain v = true → opens (jtext v) = true.
Proof.
  destruct v as [|[]|z|f|s|s|l|l|d]; try done. intros _. cbn [jtext].
  destruct (Z.le_gt_cases 0 z) as [Hz|Hz].
  - destruct (dec_of_Z_head z Hz) as (c & s & -> & Hc). destruct c as [[] [] [] [] [] [] [] []]; (discriminate || reflexivity).
  - by destruct z.
Qed.

Definition reads (v : value) : Prop := ∀ fuel rest,
  (String.length (jtext v) < fuel)%nat → stops rest = true → jvalue hook constant fuel (jtext v +:+ rest) = Ok (sorted v, rest).

Lemma opens_join sep a l t : opens a = true → opens (join sep (a :: l) +:+ t) = true.
Proof. intros Ha. destruct l; cbn [join]; rewrite <- ?app_assoc_str; by apply opens_app. Qed.

Lemma opens_member kv : opens (jmember kv) = true.
Proof. done. Qed.

Lemma jitems_text l fuel rest :
  l ≠ [] → Forall (λ v, reads v ∧ opens (jtext v) = true) l → (S (String.length (join "," (jtext <$> l))) < fuel)%nat →
  jitems hook constant fuel (join "," (jtext <$> l) +:+ String "]" rest) = Ok (sorted <$> l, rest).
Proof.
  intros Hn Hl. revert fuel Hn. induction Hl as [|v l [Hv Ho] Hl IH]; intros fuel Hn Hf; [done|].
  destruct fuel as [|fuel]; [lia|]. rewrite jitems_step. destruct l as [|w l].
  - cbn [fmap list_fmap join] in *. rewrite Hv by (done || lia). done.
  - rewrite !fmap_cons, join_cons in *. rewrite !app_length_str in Hf. cbn [String.length] in Hf.
    rewrite <- app_assoc_str, Hv by (done || lia). rewrite bind_ret. rewrite <- app_assoc_str, cons_app_str.
    change (jws (String "," ?x)) with (String "," x). cbn iota. apply Forall_cons in Hl as [[_ Ho'] _].
    rewrite nil_app_str, opens_jws.
    + rewrite IH by (done || lia). done.
    + by apply opens_join.
Qed.

Lemma jpairs_text (d : dict) fuel rest :
  d ≠ [] → Forall (λ kv, sall jclear kv.1 = true ∧ reads kv.2 ∧ opens (jtext kv.2) = true) d →
  (S (String.length (join "," ((λ kv, jmember (kv.1, jtext kv.2)) <$> d))) < fuel)%nat →
  jpairs hook constant fuel (join "," ((λ kv, jmember (kv.1, jtext kv.2)) <$> d) +:+ String "}" rest) = Ok ((λ kv, (kv.1, sorted kv.2)) <$> d, rest).
Proof.
  intros Hn Hd. revert fuel Hn. induction Hd as [|[k v] d (Hk & Hv & Ho) Hd IH]; intros fuel Hn Hf; [done|].
  cbn [fst snd] in Hk, Hv, Ho. destruct fuel as [|fuel]; [lia|]. destruct d as [|[k' w] d].
  - cbn [fmap list_fmap join fst snd] in *. unfold jmember in *. cbn [fst snd] in *. rewrite !app_length_str in Hf. 
    rewrite <- !app_assoc_str, jpairs_step by (done || by apply opens_app). rewrite Hv by (done || lia). done.
  - rewrite !fmap_cons, join_cons in *. cbn [fst snd] in *. rewrite !app_length_str in Hf. cbn [String.length] in Hf.
    unfold jmember at 1. unfold jmember at 1 in Hf. cbn [fst snd] in *. rewrite !app_length_str in Hf.
    rewrite <- !app_assoc_str, jpairs_step by (done || by apply opens_app). rewrite Hv by (done || lia). rewrite bind_ret.
    rewrite cons_app_str, nil_app_str. change (jws (String "," ?x)) with (String "," x). cbn iota.
    rewrite opens_jws.
    + rewrite IH by (done || lia). done.
    + by apply opens_join.
Qed.

Lemma jvalue_text v : plain v = true → reads v.
Proof.
  induction v as [|[]|z|f|s|s|l IH|l|d IH] using value_induction; intros Hv; try done; intros [|fuel] rest Hf Hr; try lia.
  - by destruct rest.
  - by destruct rest.
  - by destruct rest.
  - cbn [jtext plain sorted] in *. apply jvalue_int; [lia|done].
  - cbn [jtext plain sorted] in *. rewrite quoted_app. by apply jvalue_string, jclear_plain.
  - cbn [jtext plain sorted] in *. rewrite !app_length_str in Hf. cbn [String.length] in Hf.
    rewrite <- !app_assoc_str, !cons_app_str, !nil_app_str.
    assert (Forall (λ v, reads v ∧ opens (jtext v) = true) l) as Hl.
    { apply Forall_forall. intros x Hx. rewrite forallb_forall in Hv. rewrite Forall_forall in IH.
      assert (plain x = true) by (by apply Hv, list_elem_of_In). split; [by apply IH|by apply jtext_opens]. }
    destruct l as [|x l]; [done|].
    rewrite jvalue_items by (apply opens_join; by apply Forall_cons in Hl as [[_ ?] _]). by rewrite jitems_text by (done || lia).
  - cbn [jtext plain sorted] in *. apply andb_true_iff in Hv as [Hnd Hv]. apply no_dup_true in Hnd.
    rewrite sort_dict_map in *. rewrite sort_dict_map, <- list_fmap_compose in *. rewrite !app_length_str in Hf. cbn [String.length] in Hf.
    rewrite <- !app_assoc_str, !cons_app_str, !nil_app_str.
    assert (Forall (λ kv, sall jclear kv.1 = true ∧ reads kv.2 ∧ opens (jtext kv.2) = true) (sort_dict d)) as Hd.
    { rewrite (sort_dict_perm d). apply Forall_forall. intros [k x] Hx. rewrite forallb_forall in Hv. rewrite Forall_forall in IH. cbn.
      specialize (Hv _ (proj1 (list_elem_of_In _ _) Hx)). cbn in Hv. apply andb_true_iff in Hv as [Hk Hp].
      split_and!; [done|by apply (IH _ Hx)|by apply jtext_opens]. }
    destruct (decide (d = [])) as [->|Hn].
    + cbn. rewrite Hhook by constructor. done.
    + assert (sort_dict d ≠ []) as Hs by (intros E; pose proof (sort_dict_perm d) as Hp; rewrite E in Hp; by apply Permutation_nil_l in Hp).
      rewrite jvalue_pairs.
      * rewrite jpairs_text by (done || (unfold compose in Hf; lia)). rewrite bind_ret, Hhook; [done|].
        rewrite <- list_fmap_compose. change (fst ∘ _) with (@fst string value). by rewrite (sort_dict_perm d).
      * destruct (sort_dict d) as [|kv l]; [done|]. rewrite fmap_cons. by apply opens_join.
Qed.
End Reading.

(** [plain_dict] and hooks that refuse repeated keys *)
Lemma dset_new {A} k (v : A) d : k ∉ d.*1 → dset k v d = d ++ [(k, v)].
Proof.
  induction d as [|[k' v'] d IH]; [done|]. cbn. rewrite not_elem_of_cons. intros [Hk Hd].
  apply String.eqb_neq in Hk. rewrite Hk. cbn. by rewrite IH.
Qed.

Lemma dict_of_pairs_distinct ps : NoDup ps.*1 → dict_of_pairs ps = ps.
Proof.
  unfold dict_of_pairs. assert (∀ acc, NoDup (acc ++ ps).*1 → foldl (λ d p, dset p.1 p.2 d) acc ps = acc ++ ps) as H; [|apply (H [])].
  induction ps as [|[k v] ps IH]; intros acc Hn; cbn; [by rewrite app_nil_r|].
  rewrite dset_new.
  - rewrite IH, <- app_assoc; [done|]. by rewrite <- app_assoc.
  - rewrite fmap_app in Hn. apply NoDup_app in Hn as (_ & Hn & _). intros Hk. apply (Hn k Hk). left.
Qed.

Lemma plain_dict_distinct ps : NoDup ps.*1 → plain_dict ps = Ok (VDict ps).
Proof. intros H. unfold plain_dict. by rewrite dict_of_pairs_distinct. Qed.

(** ** The text is one line of printable ASCII. *)
Definition line_char (c : ascii) : bool := (32 <=? ord c) && (ord c <? 127).

Lemma sall_join p sep l : sall p sep = true → Forall (λ s, sall p s = true) l → sall p (join sep l) = true.
Proof.
  intros Hs. induction 1 as [|x l Hx Hl IH]; [done|]. destruct l as [|y l]; [done|].
  rewrite join_cons, !sall_app, Hx, Hs. exact IH.
Qed.

Lemma sall_around p a s b : sall p a = true → sall p b = true → sall p s = true → sall p (a +:+ s +:+ b) = true.
Proof. intros Ha Hb Hs. by rewrite !sall_app, Ha, Hb, Hs. Qed.

Lemma quoted_line s : sall jclear s = true → sall line_char (quoted s) = true.
Proof.
  intros Hs. apply sall_around; [done..|]. eapply sall_impl; [|exact Hs]. intros c Hc. unfold jclear, jplain in Hc. unfold line_char. rewrite !andb_true_iff in *. tauto.
Qed.

Lemma dec_line z : sall line_char (dec_of_Z z) = true.
Proof.
  assert (∀ n, 0 <= n → sall line_char (dec_of_Z n) = true) as H.
  { intros n Hn. eapply sall_impl; [|by apply dec_of_Z_digits]. intros c Hc. apply digit_bounds in Hc. unfold line_char. lia. }
  destruct (Z.le_gt_cases 0 z) as [Hz|Hz]; [by apply H|].
  assert (dec_of_Z z = String "-" (dec_of_Z (- z))) as -> by (destruct z; done). cbn [sall]. by rewrite H by lia.
Qed.

Lemma jtext_line v : plain v = true → sall line_char (jtext v) = true.
Proof.
  induction v as [|[]|z|f|s|s|l IH|l|d IH] using value_induction; intros Hv; try done.
  - apply dec_line.
  - by apply quoted_line.
  - cbn [jtext plain] in *. apply sall_around; [done..|]. apply sall_join; [done|]. apply Forall_fmap.
    rewrite forallb_forall in Hv. rewrite Forall_forall in *. intros x Hx. apply IH; [done|]. by apply Hv, list_elem_of_In.
  - cbn [jtext plain] in *. apply andb_true_iff in Hv as [_ Hv]. apply sall_around; [done..|]. apply sall_join; [done|].
    rewrite sort_dict_map, <- list_fmap_compose. apply Forall_fmap. rewrite (sort_dict_perm d).
    rewrite forallb_forall in Hv. rewrite Forall_forall in *. intros [k x] Hx. specialize (Hv _ (proj1 (list_elem_of_In _ _) Hx)).
    apply andb_true_iff in Hv as [Hk Hp]. change (sall line_char (quoted k +:+ ":" +:+ jtext x) = true).
    rewrite !sall_app, quoted_line by done. by apply (IH _ Hx).
Qed.

Lemma line_ascii s : sall line_char s = true → isascii s = true.
Proof. apply sall_impl. intros c Hc. unfold line_char in Hc. unfold is_ascii7. lia. Qed.

(** ** The round trips *)
Lemma loads_jtext hook constant v :
  (∀ ps, NoDup ps.*1 → hook ps = Ok (VDict ps)) → plain v = true → json_loads_hook hook constant (jtext v) = Ok (sorted v).
Proof.
  intros Hh Hv. pose proof (jtext_opens v Hv) as Ho. pose proof (line_ascii _ (jtext_line v Hv)) as Ha. unfold json_loads_hook.
  replace (startswith (encode_cp 65279) (jtext v)) with false.
  - rewrite opens_jws by done. rewrite <- (app_nil_r_str (jtext v)) at 2. rewrite (jvalue_text hook constant Hh v Hv) by (done || lia). done.
  - destruct (jtext v) as [|c s]; [done|]. cbn in Ha. apply andb_true_iff in Ha as [Ha _].
    destruct c as [[] [] [] [] [] [] [] []]; (discriminate || done).
Qed.

(** [json.loads(json.dumps(v, sort_keys=True, separators=(",", ":")))] *)
Lemma dumps_loads st hook constant v :
  compact st = true → (∀ ps, NoDup ps.*1 → hook ps = Ok (VDict ps)) → plain v = true →
  ∃ text, json_dumps st v = Ok text ∧ sall line_char text = true ∧ json_loads_hook hook constant text = Ok (sorted v).
Proof. intros Hs Hh Hv. exists (jtext v). split_and!; [by apply jdump_plain|by apply jtext_line|by apply loads_jtext]. Qed.

Lemma ascii_utf8_ok s : isascii s = true → utf8_ok s = true.
Proof.
  unfold isascii. induction s as [|c s IH]; [done|]. cbn. rewrite andb_true_iff. intros [Hc Hs]. unfold is_ascii7 in Hc. rewrite Hc. by apply IH.
Qed.

Lemma ascii_no_surrogates s : isascii s = true → mask_surrogates s = s.
Proof.
  unfold isascii. induction s as [|a s IH]; [done|]. cbn [sall]. rewrite andb_true_iff. intros [Ha Hs]. cbn [mask_surrogates].
  rewrite IH by done. destruct s as [|b [|c r]]; [done..|].
  assert (surrogate_at a b c = false) as ->; [|done]. unfold surrogate_at. unfold is_ascii7 in Ha. lia.
Qed.

(** Bytes of printable ASCII are UTF-8, and their text. *)
Lemma line_get s i : sall line_char s = true → match String.get i s with Some c => line_char c = true | None => (String.length s <= i)%nat end.
Proof.
  revert i. induction s as [|c s IH]; intros [|i]; cbn; [lia|lia| |]; rewrite andb_true_iff; intros [Hc Hs]; [done|].
  specialize (IH i Hs). destruct (String.get i s); [done|lia].
Qed.

Lemma line_nonzero s i : sall line_char s = true → (i < String.length s)%nat → nonzero_at i s = true.
Proof.
  intros Hs Hi. pose proof (line_get s i Hs) as H. unfold nonzero_at. destruct (String.get i s) as [c|]; [|lia]. unfold line_char in H. lia.
Qed.

Lemma decode_line s : sall line_char s = true → decode_bytes (detect_encoding s) s = Ok s.
Proof.
  intros Hs. assert (detect_encoding s = Utf8) as ->.
  - unfold detect_encoding.
    assert (∀ n l, line_char (chr n) = false → startswith (bytes_string (n :: l)) s = false) as Hb.
    { intros n l Hn. destruct s as [|c s]; [done|]. cbn. destruct (ascii_dec (chr n) c) as [<-|]; [|done]. cbn in Hs. by rewrite Hn in Hs. }
    rewrite !Hb by done. unfold slen. destruct (Z.leb_spec 4 (Z.of_nat (String.length s))).
    + by rewrite !line_nonzero by (done || lia).
    + destruct (Z.eqb_spec (Z.of_nat (String.length s)) 2); [|done]. by rewrite !line_nonzero by (done || lia).
  - pose proof (line_ascii s Hs) as Ha. cbn. by rewrite ascii_no_surrogates, ascii_utf8_ok.
Qed.

(** [json.loads] of the encoded text *)
Lemma dumps_loads_bytes st hook constant v :
  compact st = true → (∀ ps, NoDup ps.*1 → hook ps = Ok (VDict ps)) → plain v = true →
  ∃ text, json_dumps st v = Ok text ∧ encode_utf8 text = Ok text ∧ sall line_char text = true ∧ json_loads_bytes_hook hook constant text = Ok (sorted v).
Proof.
  intros Hs Hh Hv. destruct (dumps_loads st hook constant v Hs Hh Hv) as (text & Hd & Hl & Ht). exists text. split_and!; [done| |done|].
  - unfold encode_utf8. by rewrite ascii_utf8_ok by by apply line_ascii.
  - unfold json_loads_bytes_hook. by rewrite decode_line.
Qed.

(** ** Texts of such lines *)
Definition line_end (x : string) : bool := String.eqb x (String "013" EmptyString) || String.eqb x (String "010" EmptyString).

Lemma lines_go_line s cur rest :
  sall line_char s = true →
  lines_go line_end cur ((λ c, String c EmptyString) <$> String.list_ascii_of_string s ++ "010"%char :: rest) =
  (sconcat (reverse cur) +:+ s) :: lines_go line_end [] ((λ c, String c EmptyString) <$> rest).
Proof.
  revert cur. induction s as [|c s IH]; intros cur Hs.
  - cbn. rewrite app_nil_r_str. f_equal. by destruct rest.
  - cbn [sall] in Hs. apply andb_true_iff in Hs as [Hc Hs]. cbn [String.list_ascii_of_string app fmap list_fmap lines_go].
    assert (line_end (String c EmptyString) = false) as ->.
    { destruct c as [[] [] [] [] [] [] [] []]; (discriminate || done). }
    setoid_rewrite IH; [|done]. f_equal. rewrite reverse_cons, sconcat_snoc. by rewrite <- app_assoc_str.
Qed.

Lemma bsplitlines_unlines ls : Forall (λ s, sall line_char s = true) ls → bsplitlines (unlines ls) = ls.
Proof.
  intros H. change (lines_go line_end [] ((λ c, String c EmptyString) <$> String.list_ascii_of_string (unlines ls)) = ls).
  induction H as [|s ls Hs Hls IH]; [done|]. cbn [unlines foldr]. rewrite !list_ascii_app. cbn [String.list_ascii_of_string app LF].
  rewrite lines_go_line by done. f_equal. exact IH.
Qed.
