(* ===== verification/Effects.v ===== *)
(** * Stateful Python code: state, exceptions, loops

    [M S A] is a Python routine over a mutable state [S]: it ends with a value
    or an exception and the state as the effects so far left it, so a handler
    or a [finally] block sees the mutations made before the exception.  A
    [while] loop takes fuel; [Fuel] is the outcome of a loop that was cut off,
    and no handler catches it.  The environment (processes, clocks, files)
    answers through functions of the history of events, which the state of each
    component records; nothing is assumed about the answers. *)

From S2P Require Import Prelude.

Local Open Scope list_scope.

Inductive out (A : Type) :=
  | Ret (a : A)
  | Exn (e : exc)
  | Fuel.
Arguments Ret {A} a.
Arguments Exn {A} e.
Arguments Fuel {A}.

Definition M (S A : Type) : Type := S → out A * S.

#[global] Instance M_ret {S} : MRet (M S) := λ A a s, (Ret a, s).
#[global] Instance M_bind {S} : MBind (M S) := λ A B f m s,
  match m s with
  | (Ret a, s') => f a s'
  | (Exn e, s') => (Exn e, s')
  | (Fuel, s') => (Fuel, s')
  end.

Section Ops.
Context {S : Type}.

Definition out_of {A} (r : result A) : out A := match r with Ok a => Ret a | Err e => Exn e end.
Definition liftR {A} (r : result A) : M S A := λ s, (out_of r, s).
Definition throw {A} (cls : exc_class) (msg : string) : M S A := liftR (raise cls msg).
Definition throw_if (b : bool) (cls : exc_class) (msg : string) : M S unit := liftR (raise_if b cls msg).
Definition get : M S S := λ s, (Ret s, s).
Definition gets {A} (f : S → A) : M S A := λ s, (Ret (f s), s).
Definition modify (f : S → S) : M S unit := λ s, (Ret tt, f s).

(** [try: m except cls: h] for the classes [cs] *)
Definition try_except {A} (cs : exc_class → bool) (m : M S A) (h : exc → M S A) : M S A := λ s,
  match m s with
  | (Exn e, s') => if cs (exc_cls e) then h e s' else (Exn e, s')
  | r => r
  end.

(** [try: m finally: f]; an exception of [f] replaces the outcome of [m]. *)
Definition try_finally {A} (m : M S A) (f : M S unit) : M S A := λ s,
  match m s with
  | (Fuel, s') => (Fuel, s')
  | (r, s') => match f s' with
               | (Ret _, s'') => (r, s'')
               | (Exn e, s'') => (Exn e, s'')
               | (Fuel, s'') => (Fuel, s'')
               end
  end.

(** [while c: body]; the body yields [Some b] to [break] with [b]; [els] is the
    [else] clause, which runs when the condition fails. *)
Fixpoint while {B} (fuel : nat) (c : M S bool) (body : M S (option B)) (els : M S B) : M S B :=
  match fuel with
  | O => λ s, (Fuel, s)
  | Datatypes.S fuel =>
      go ← c;
      if (go : bool) then
        r ← body;
        match r with Some b => mret b | None => while fuel c body els end
      else els
  end.

Fixpoint mapM {A B} (f : A → M S B) (l : list A) : M S (list B) :=
  match l with
  | [] => mret []
  | x :: l => y ← f x; ys ← mapM f l; mret (y :: ys)
  end.

Fixpoint forM {A} (l : list A) (f : A → M S unit) : M S unit :=
  match l with
  | [] => mret tt
  | x :: l => f x ;; forM l f
  end.

End Ops.

(** ** The environment
    An operation [o] of the outside world answers with a [res o] or an
    exception; the answer may depend on everything that happened before. *)
Section Environment.
Context {op : Type} (res : op → Type).

Record event := Ev { ev_op : op; ev_ans : result (res ev_op) }.

Definition environment : Type := list event → ∀ o, result (res o).

(** Perform [o]: the answer is that of [env] to the history, which it joins. *)
Definition perform {S} (hist : S → list event) (log : event → S → S) (env : environment) (o : op)
    : M S (res o) := λ s,
  let r := env (hist s) o in (out_of r, log (Ev o r) s).
End Environment.
Arguments Ev {op res} ev_op ev_ans.
Arguments ev_op {op res} e.
Arguments ev_ans {op res} e.
Arguments event {op} res.
Arguments environment {op} res.

(** Run a routine on a part of the state. *)
Definition on_part {S T A} (proj : S → T) (upd : T → S → S) (m : M T A) : M S A := λ s,
  let '(r, t) := m (proj s) in (r, upd t s).

(** ** Reasoning *)
Section Logic.
Context {S : Type}.

(** [post P m Q]: from a state in [P], whatever way [m] ends, [Q] holds of the
    outcome and the state it leaves, cut-off loops included. *)
Definition post {A} (P : S → Prop) (m : M S A) (Q : out A → S → Prop) : Prop :=
  ∀ s, P s → Q (m s).1 (m s).2.

(** [m] keeps [I], however it ends. *)
Definition keeps {A} (I : S → Prop) (m : M S A) : Prop := post I m (λ _ s, I s).

Lemma post_weaken {A} P P' (m : M S A) Q Q' :
  post P' m Q' → (∀ s, P s → P' s) → (∀ r s, Q' r s → Q r s) → post P m Q.
Proof. intros H HP HQ s Hs. apply HQ, H, HP, Hs. Qed.

Lemma post_ret {A} (P : S → Prop) (a : A) Q : (∀ s, P s → Q (Ret a) s) → post P (mret a) Q.
Proof. intros H s Hs. by apply H. Qed.

Lemma post_bind {A B} P (m : M S A) (f : A → M S B) R Q :
  post P m R →
  (∀ a, post (R (Ret a)) (f a) Q) →
  (∀ e s, R (Exn e) s → Q (Exn e) s) → (∀ s, R Fuel s → Q Fuel s) →
  post P (m ≫= f) Q.
Proof.
  intros Hm Hf He Hl s Hs. specialize (Hm s Hs). unfold mbind, M_bind.
  destruct (m s) as [[a|e|] s']; cbn in *; [by apply Hf|by apply He|by apply Hl].
Qed.

(** Sequencing where the intermediate assertion does not look at the outcome. *)
Lemma post_seq {A B} (P R Q : S → Prop) (m : M S A) (f : A → M S B) :
  post P m (λ _, R) → (∀ a, post R (f a) (λ _, Q)) → (∀ s, R s → Q s) → post P (m ≫= f) (λ _, Q).
Proof. intros Hm Hf HRQ. apply (post_bind _ _ _ (λ _, R)); eauto. Qed.

(** Assertions that tell a normal end ([QR]) from any other ([QE]). *)
Definition ends {A} (QR : A → S → Prop) (QE : S → Prop) (r : out A) (s : S) : Prop :=
  match r with Ret a => QR a s | _ => QE s end.

Lemma post_step {A B} P (R : A → S → Prop) QR QE (m : M S A) (f : A → M S B) :
  post P m (ends R QE) → (∀ a, post (R a) (f a) (ends QR QE)) → post P (m ≫= f) (ends QR QE).
Proof. intros Hm Hf. by apply (post_bind _ _ _ (ends R QE)). Qed.

Lemma post_keeps {A} (I QE : S → Prop) (m : M S A) :
  keeps I m → (∀ s, I s → QE s) → post I m (ends (λ _, I) QE).
Proof. intros Hk HQ s Hs. specialize (Hk s Hs). destruct (m s).1; cbn; auto. Qed.

Lemma post_liftR {A} (P QE : S → Prop) (r : result A) :
  (∀ s, P s → QE s) → post P (liftR r) (ends (λ a s, r = Ok a ∧ P s) QE).
Proof. intros HQ s Hs. unfold liftR. destruct r; cbn; auto. Qed.

Lemma post_mret {A} (P QE : S → Prop) (a : A) : post P (mret a) (ends (λ b s, b = a ∧ P s) QE).
Proof. by intros s Hs. Qed.

Lemma post_strengthen {A} P (QR QR' : A → S → Prop) QE (m : M S A) :
  post P m (ends QR QE) → (∀ a s, QR a s → QR' a s) → post P m (ends QR' QE).
Proof. intros H HQ. eapply post_weaken; [exact H|done|]. intros [a|e|] s; cbn; auto. Qed.

Lemma post_assoc {A B C} P (m : M S A) (f : A → M S B) (g : B → M S C) Q :
  post P ((m ≫= f) ≫= g) Q → post P (m ≫= λ a, f a ≫= g) Q.
Proof.
  intros H s Hs. specialize (H s Hs). unfold mbind, M_bind in *. by destruct (m s) as [[]].
Qed.

Lemma post_finally {A} (P R Q : S → Prop) (m : M S A) f :
  post P m (λ _, R) → post R f (λ _, Q) → (∀ s, R s → Q s) → post P (try_finally m f) (λ _, Q).
Proof.
  intros Hm Hf HRQ s Hs. specialize (Hm s Hs). unfold try_finally.
  destruct (m s) as [[a|e|] s1]; cbn in *; [| |auto]; specialize (Hf s1 Hm); by destruct (f s1) as [[] ?].
Qed.

Lemma post_try {A} (P P' R : S → Prop) cs (m : M S A) h :
  post P m (λ r s, match r with Exn _ => P' s | _ => R s end) →
  (∀ e, post P' (h e) (λ _, R)) → (∀ s, P' s → R s) → post P (try_except cs m h) (λ _, R).
Proof.
  intros Hm Hh HPR s Hs. specialize (Hm s Hs). unfold try_except.
  destruct (m s) as [[a|e|] s1]; cbn in *; [done| |done].
  destruct (cs (exc_cls e)); [by apply Hh|by apply HPR].
Qed.

Lemma post_any {A} P (m : M S A) : post P m (ends (λ _ _, True) (λ _, True)).
Proof. intros s _. by destruct (m s) as [[] ?]. Qed.

Lemma post_bind_pure {A B} P (r : result A) (f : A → M S B) QR :
  (∀ a, r = Ok a → post P (f a) (ends QR (λ _, True))) → post P (liftR r ≫= f) (ends QR (λ _, True)).
Proof. intros H s Hs. destruct r as [a|e]; [by apply H|done]. Qed.

(** A part of the assertion that does not look at the state *)
Lemma post_fact {A} (P : S → Prop) (φ : Prop) (m : M S A) Q : (φ → post P m Q) → post (λ s, P s ∧ φ) m Q.
Proof. intros H s [Hs Hφ]. by apply H. Qed.

(** A routine that keeps [J] and ends with [QR] ends with both. *)
Lemma post_with {A} (J : S → Prop) (QR : A → S → Prop) (m : M S A) :
  keeps J m → post (λ _, True) m (ends QR (λ _, True)) → post J m (ends (λ a s, J s ∧ QR a s) (λ _, True)).
Proof. intros Hk Hm s Hs. specialize (Hk s Hs). specialize (Hm s I). by destruct (m s) as [[] ?]. Qed.

(** An assertion read off an actual run. *)
Lemma post_run {A} (P Q : S → Prop) (m : M S A) s r s' :
  post P m (λ _, Q) → P s → m s = (r, s') → Q s'.
Proof. intros Hm Hs E. specialize (Hm s Hs). by rewrite E in Hm. Qed.

(** What holds of a normal end may use the run itself. *)
Lemma keeps_Ret {A} (I : S → Prop) (m : M S A) (Q : A → S → Prop) :
  keeps I m → (∀ s a s', m s = (Ret a, s') → I s' → Q a s') →
  post I m (λ r s, match r with Ret a => Q a s | _ => I s end).
Proof.
  intros Hk HQ s Hs. specialize (Hk s Hs). destruct (m s) as [[a|e|] s1] eqn:E; cbn in *; [|done..].
  by eapply HQ.
Qed.

Lemma keeps_ret {A} (I : S → Prop) (a : A) : keeps I (mret a).
Proof. by intros s Hs. Qed.

Lemma keeps_bind {A B} (I : S → Prop) (m : M S A) (f : A → M S B) :
  keeps I m → (∀ a, keeps I (f a)) → keeps I (m ≫= f).
Proof. intros Hm Hf. by apply (post_bind _ _ _ (λ _ s, I s)). Qed.

Lemma keeps_liftR {A} I (r : result A) : keeps I (@liftR S A r).
Proof. by intros s Hs. Qed.

Lemma keeps_pure {A B} I (m : result A) (f : A → M S B) : (∀ a, m = Ok a → keeps I (f a)) → keeps I (liftR m ≫= f).
Proof. intros H s Hs. destruct m as [a|e]; [by apply H|done]. Qed.

Lemma keeps_throw {A} I cls msg : keeps I (@throw S A cls msg).
Proof. by intros s Hs. Qed.

Lemma keeps_throw_if I b cls msg : keeps I (@throw_if S b cls msg).
Proof. by intros s Hs. Qed.

Lemma keeps_get I : keeps I (@get S).
Proof. by intros s Hs. Qed.

Lemma keeps_gets {A} I (f : S → A) : keeps I (gets f).
Proof. by intros s Hs. Qed.

Lemma keeps_modify (I : S → Prop) f : (∀ s, I s → I (f s)) → keeps I (modify f).
Proof. intros H s Hs. by apply H. Qed.

Lemma keeps_try {A} I cs (m : M S A) h : keeps I m → (∀ e, keeps I (h e)) → keeps I (try_except cs m h).
Proof.
  intros Hm Hh s Hs. specialize (Hm s Hs). unfold try_except.
  destruct (m s) as [[a|e|] s']; cbn in *; [done| |done].
  destruct (cs (exc_cls e)); [by apply Hh|done].
Qed.

Lemma keeps_finally {A} I (m : M S A) f : keeps I m → keeps I f → keeps I (try_finally m f).
Proof.
  intros Hm Hf s Hs. specialize (Hm s Hs). unfold try_finally.
  destruct (m s) as [[a|e|] s']; cbn in *; [| |done];
    specialize (Hf s' Hm); by destruct (f s') as [[]].
Qed.

Lemma keeps_while {B} I fuel c (body : M S (option B)) els :
  keeps I c → keeps I body → keeps I els → keeps I (while fuel c body els).
Proof.
  intros Hc Hb He. induction fuel as [|fuel IH]; [by intros s Hs|]. cbn [while].
  apply keeps_bind; [done|]. intros [|]; [|done].
  apply keeps_bind; [done|]. by intros [b|]; [apply keeps_ret|].
Qed.

Lemma keeps_mapM {A B} I (f : A → M S B) l : (∀ a, keeps I (f a)) → keeps I (mapM f l).
Proof.
  intros Hf. induction l as [|x l IH]; cbn [mapM]; [apply keeps_ret|].
  apply keeps_bind; [done|]. intros y. apply keeps_bind; [done|]. intros ys. apply keeps_ret.
Qed.

Lemma keeps_forM {A} I (l : list A) (f : A → M S unit) : (∀ a, keeps I (f a)) → keeps I (forM l f).
Proof.
  intros Hf. induction l as [|x l IH]; cbn [forM]; [apply keeps_ret|]. by apply keeps_bind.
Qed.

(** Taking a finished run apart. *)
Lemma bind_Ret {A B} (m : M S A) (f : A → M S B) s b s' :
  (m ≫= f) s = (Ret b, s') ↔ ∃ a s1, m s = (Ret a, s1) ∧ f a s1 = (Ret b, s').
Proof.
  unfold mbind, M_bind. destruct (m s) as [[a|e|] s1].
  - split; [eauto|]. by intros (? & ? & [= <- <-] & ?).
  - split; [done|]. by intros (? & ? & [=] & _).
  - split; [done|]. by intros (? & ? & [=] & _).
Qed.

Lemma bind_val {A B} (m : M S A) (f : A → M S B) s a s1 : m s = (Ret a, s1) → (m ≫= f) s = f a s1.
Proof. unfold mbind, M_bind. by intros ->. Qed.

Lemma bind_out {A B} (m : M S A) (f : A → M S B) s r s1 :
  m s = (r, s1) → (m ≫= f) s = match r with Ret a => f a s1 | Exn e => (Exn e, s1) | Fuel => (Fuel, s1) end.
Proof. unfold mbind, M_bind. by intros ->. Qed.

Lemma bind_fuel {A B} (m : M S A) (f : A → M S B) s s1 : m s = (Fuel, s1) → (m ≫= f) s = (Fuel, s1).
Proof. unfold mbind, M_bind. by intros ->. Qed.

Lemma liftR_Ret {A} (r : result A) (s : S) a s' : liftR r s = (Ret a, s') ↔ r = Ok a ∧ s' = s.
Proof. unfold liftR. destruct r as [x|e]; cbn; naive_solver. Qed.

Lemma throw_if_Ret b cls msg (s : S) u s' : throw_if b cls msg s = (Ret u, s') ↔ b = false ∧ s' = s.
Proof. unfold throw_if. rewrite liftR_Ret, raise_if_Ok. done. Qed.

Lemma throw_Ret {A} cls msg (s : S) (a : A) s' : throw cls msg s = (Ret a, s') ↔ False.
Proof. unfold throw. rewrite liftR_Ret, raise_Ok. tauto. Qed.

Lemma mret_Ret {A} (a b : A) (s s' : S) : (mret a : M S A) s = (Ret b, s') ↔ b = a ∧ s' = s.
Proof. unfold mret, M_ret. naive_solver. Qed.

Lemma gets_Ret {A} (f : S → A) (s : S) a s' : gets f s = (Ret a, s') ↔ a = f s ∧ s' = s.
Proof. unfold gets. naive_solver. Qed.

Lemma modify_Ret (f : S → S) s u s' : modify f s = (Ret u, s') ↔ s' = f s.
Proof. unfold modify. destruct u. naive_solver. Qed.

(** A loop that ended ended by a [break] of some iteration or by its [else] clause. *)
Lemma while_Ret {B} fuel c (body : M S (option B)) els s b s' :
  while fuel c body els s = (Ret b, s') →
  (∃ s1 s2, c s1 = (Ret true, s2) ∧ body s2 = (Ret (Some b), s')) ∨
  (∃ s1 s2, c s1 = (Ret false, s2) ∧ els s2 = (Ret b, s')).
Proof.
  revert s; induction fuel as [|fuel IH]; intros s; [done|]. cbn [while].
  intros ([|] & s1 & Hc & H)%bind_Ret; [|right; eauto].
  apply bind_Ret in H as ([b'|] & s2 & Hb & H); [|by apply IH in H].
  apply mret_Ret in H as [-> ->]. left. eauto.
Qed.

(** An invariant of the iterations, for loops that end normally: [I] before the
    condition, [T] when it holds, [E] when it fails. *)
Lemma while_cond_ends {B} (I T E : S → Prop) (QR : B → S → Prop) fuel c body els :
  post I c (ends (λ b, if b : bool then T else E) (λ _, True)) →
  post T body (ends (λ r, match r with Some b => QR b | None => I end) (λ _, True)) →
  post E els (ends QR (λ _, True)) → post I (while fuel c body els) (ends QR (λ _, True)).
Proof.
  intros Hc Hb He. induction fuel as [|fuel IH]; [by intros s Hs|]. cbn [while].
  eapply post_step; [exact Hc|]. intros [|]; [|exact He].
  eapply post_step; [exact Hb|]. intros [b|]; [by intros s Hs|exact IH].
Qed.

Lemma while_ends {B} (I : S → Prop) (QR : B → S → Prop) fuel c body els :
  post I c (ends (λ _, I) (λ _, True)) →
  post I body (ends (λ r, match r with Some b => QR b | None => I end) (λ _, True)) →
  post I els (ends QR (λ _, True)) → post I (while fuel c body els) (ends QR (λ _, True)).
Proof.
  intros Hc. apply while_cond_ends. eapply post_weaken; [exact Hc|done|]. by intros [[]| |].
Qed.

(** A normal end read off an actual run. *)
Lemma ends_run {A} (P : S → Prop) (QR : A → S → Prop) (m : M S A) s a s' :
  post P m (ends QR (λ _, True)) → P s → m s = (Ret a, s') → QR a s'.
Proof. intros Hm Hs E. specialize (Hm s Hs). by rewrite E in Hm. Qed.

Lemma post_ends {A} (P : S → Prop) (QR : A → S → Prop) (m : M S A) :
  (∀ s a s', P s → m s = (Ret a, s') → QR a s') → post P m (ends QR (λ _, True)).
Proof. intros H s Hs. destruct (m s) as [[a|e|] s'] eqn:E; cbn; eauto. Qed.

End Logic.

Create HintDb keeps discriminated.
#[export] Hint Resolve keeps_ret keeps_bind keeps_liftR keeps_throw keeps_throw_if keeps_get keeps_gets
  keeps_try keeps_finally keeps_while keeps_mapM keeps_forM : keeps.

(** Walk through a routine: binds, branches and the primitives of the [keeps] database. *)
Ltac keeps_step :=
  match goal with
  | |- keeps _ (_ ≫= _) => apply keeps_bind; [|intros ?]
  | |- keeps _ (match ?x with _ => _ end) => destruct x
  | |- keeps _ (let '(_, _) := ?x in _) => destruct x
  | |- keeps _ (try_except _ _ _) => apply keeps_try; [|intros ?]
  | |- keeps _ (try_finally _ _) => apply keeps_finally
  | |- keeps _ (while _ _ _ _) => apply keeps_while
  | |- keeps _ (mapM _ _) => apply keeps_mapM; intros ?
  | |- keeps _ (forM _ _) => apply keeps_forM; intros ?
  | |- keeps _ _ => solve [auto with keeps nocore]
  end.
Ltac as_keeps := try lazymatch goal with |- post ?P ?m _ => change (keeps P m) end.
Ltac keeps_walk := as_keeps; repeat (cbn beta iota zeta; keeps_step).

(** ** Routines that always end *)
Definition settles {S A} (m : M S A) : Prop := ∀ s, (m s).1 ≠ Fuel.

Section Settles.
Context {S : Type}.

Lemma settles_bind {A B} (m : M S A) (f : A → M S B) : settles m → (∀ a, settles (f a)) → settles (m ≫= f).
Proof. intros Hm Hf s. unfold mbind, M_bind. specialize (Hm s). destruct (m s) as [[a|e|] s1]; [apply Hf|done|done]. Qed.
Lemma settles_mret {A} (a : A) : settles (mret a : M S A).
Proof. done. Qed.
Lemma settles_liftR {A} (r : result A) : settles (@liftR S A r).
Proof. intros s. by destruct r. Qed.
Lemma settles_throw {A} cls msg : settles (@throw S A cls msg).
Proof. apply settles_liftR. Qed.
Lemma settles_throw_if b cls msg : settles (@throw_if S b cls msg).
Proof. apply settles_liftR. Qed.
Lemma settles_gets {A} (f : S → A) : settles (gets f).
Proof. done. Qed.
Lemma settles_modify (f : S → S) : settles (modify f).
Proof. done. Qed.
Lemma settles_try {A} cs (m : M S A) h : settles m → (∀ e, settles (h e)) → settles (try_except cs m h).
Proof.
  intros Hm Hh s. unfold try_except. specialize (Hm s). destruct (m s) as [[a|e|] s1]; [done| |done].
  destruct (cs (exc_cls e)); [apply Hh|done].
Qed.
Lemma settles_forM {A} (l : list A) (f : A → M S unit) : (∀ a, settles (f a)) → settles (forM l f).
Proof. intros Hf. induction l as [|x l IH]; cbn [forM]; [done|]. by apply settles_bind. Qed.
Lemma settles_perform {op} (res : op → Type) hist log env o : settles (@perform op res S hist log env o).
Proof. intros s. unfold perform. by destruct (env (hist s) o). Qed.
End Settles.

Create HintDb settle discriminated.
#[export] Hint Resolve settles_bind settles_mret settles_liftR settles_throw settles_throw_if settles_gets settles_modify
  settles_try settles_forM settles_perform : settle.

Ltac settle_step :=
  match goal with
  | |- settles (_ ≫= _) => apply settles_bind; [|intros ?]
  | |- settles (match ?x with _ => _ end) => destruct x
  | |- settles (let '(_, _) := ?x in _) => destruct x
  | |- settles (try_except _ _ _) => apply settles_try; [|intros ?]
  | |- settles (forM _ _) => apply settles_forM; intros ?
  | |- settles _ => solve [auto with settle nocore]
  end.
Ltac settle_walk := repeat (cbn beta iota zeta; settle_step).

(** [run_inv H] takes [m s = (Ret a, s')] apart along its binds. *)
Ltac run_step H :=
  lazymatch type of H with
  | (_ ≫= _) _ = (Ret _, _) =>
      apply bind_Ret in H;
      let a := fresh "a" in let s := fresh "s" in let H1 := fresh "Hrun" in
      destruct H as (a & s & H1 & H); pair_destruct a; cbn beta iota in H; run_step H1; run_step H
  | liftR _ _ = (Ret _, _) => let E := fresh "E" in apply liftR_Ret in H; destruct H as [H E]; subst
  | throw_if _ _ _ _ = (Ret _, _) => let E := fresh "E" in apply throw_if_Ret in H; destruct H as [H E]; subst
  | throw _ _ _ = (Ret _, _) => apply throw_Ret in H; destruct H
  | mret _ _ = (Ret _, _) => let E := fresh "E" in apply mret_Ret in H; destruct H as [H E]; pair_inv H; subst
  | gets _ _ = (Ret _, _) => let E := fresh "E" in apply gets_Ret in H; destruct H as [H E]; subst
  | modify _ _ = (Ret _, _) => apply modify_Ret in H; subst
  | _ => idtac
  end.
Ltac run_inv H := cbn beta iota in H; run_step H.
