(* ===== verification/RedisAof.v ===== *)
(** * Bounded Redis AOF inventory ([scripts/runtime_epoch_redis_aof.py])

    [_RespReader] is the record [reader]: its [rd_rest] is [data[offset:]].
    [inventory_bytes] is the fold of [inv_step] (one iteration of the [while]
    loop) over the commands the reader yields; [inventory_loop] is the loop,
    whose fuel is the number of bytes left since every command consumes some.
    The ACL helpers are [replay_default_acl] and [candidate_acl]. *)

From S2P Require Import Prelude PyStr Regex Sha256 PyVal Json.

Local Open Scope string_scope.
Local Open Scope list_scope.
Local Open Scope Z_scope.
Local Open Scope regex_scope.

Definition TOPIC : string := "kairos.market.closed_bar.v1".
Definition OWNER : string := "69893dc7b7c647f49967387e7efca9fb".
Definition MAX_AOF_BYTES : Z := 8 * 1024 * 1024.
Definition MAX_COMMANDS : Z := 50000.
Definition MAX_ARRAY_LENGTH : Z := 32.
Definition MAX_TOKEN_BYTES : Z := 128 * 1024.
Definition FORENSIC_AOF_PROFILES : list (string * (Z * Z)) :=
  [("standard", (MAX_AOF_BYTES, MAX_COMMANDS)); ("forensic32m", (32 * 1024 * 1024, 200000))].
Definition _GROUP : string := "bars".

Definition _HEX64 : regex := RRep 64 (RChar is_hex).
Definition dec_re : regex :=
  RLit "0" ∣ RChar (in_range "1" "9") ⋅ RStar (RChar is_digit).
Definition _STREAM_ID : regex := dec_re ⋅ RLit "-" ⋅ dec_re.
Definition _OWNER : regex := RRep 32 (RChar is_lower_hex).
Definition _CONSUMER : regex :=
  RLit "consumer-" ⋅ RRep 12 (RChar is_lower_hex) ⋅ RLit "-" ⋅ RChar (in_range "1" "9")
    ⋅ RStar (RChar is_digit).

Definition _fail {A} (code : string) : result A := raise AofError code.
Definition fail_if (b : bool) (code : string) : result unit := raise_if b AofError code.

Definition _owner (owner : value) : result string :=
  match owner with
  | VStr o => _ ← fail_if (negb (fullmatch _OWNER o)) "OWNER_INVALID"; Ok o
  | _ => _fail "OWNER_INVALID"
  end.

Definition _key (owner : string) : string := "kairos.runtime." +:+ owner +:+ ".publication".

(** [value.decode("ascii")] with the error the handler maps it to *)
Definition _ascii (v code : string) : result string :=
  if isascii v then Ok v else _fail code.

Definition _stream_id (v : string) (allow_zero : bool) : result string :=
  text ← _ascii v "STREAM_ID_INVALID";
  _ ← fail_if (negb (fullmatch _STREAM_ID text)) "STREAM_ID_INVALID";
  match split_once "-" text with
  | None => _fail "STREAM_ID_INVALID" (* unreachable: the pattern holds a separator *)
  | Some (p1, p2) =>
      _ ← fail_if ((20 <? slen p1) || (20 <? slen p2)) "STREAM_ID_INVALID";
      let ms := dec_val p1 in
      let seq := dec_val p2 in
      _ ← fail_if ((2 ^ 64 - 1 <? ms) || (2 ^ 64 - 1 <? seq)
                   || ((ms =? 0) && (seq =? 0) && negb allow_zero)) "STREAM_ID_INVALID";
      Ok text
  end.

Definition _unsigned (v : string) (maximum : Z) (code : string) : result Z :=
  _ ← fail_if (String.eqb v EmptyString || (20 <? slen v) || negb (sall is_digit v))
        "AOF_MALFORMED_OR_TRUNCATED";
  let number := dec_val v in
  _ ← fail_if (maximum <? number) code;
  Ok number.

(** ** The RESP reader *)
Record reader := Reader {
  rd_rest : string;       (* data[offset:] *)
  rd_commands : Z;
  rd_max_commands : Z;
}.

Definition CRLF : string := String "013" (String "010" EmptyString).

(** The bytes before the first CRLF and after it. *)
Fixpoint find_crlf (s : string) : option (string * string) :=
  match s with
  | EmptyString => None
  | String a s' =>
      match startswith CRLF s with
      | true => Some (EmptyString, sdrop 2 s)
      | false => '(h, t) ← find_crlf s'; Some (String a h, t)
      end
  end.

Definition _line (rest : string) : result (string * string) :=
  match find_crlf rest with
  | None => _fail "AOF_MALFORMED_OR_TRUNCATED"
  | Some (line, rest) =>
      _ ← fail_if (MAX_TOKEN_BYTES <? slen line) "AOF_LIMIT_EXCEEDED"; Ok (line, rest)
  end.

(** One bulk string of a command: the body of the [for _ in range(count)] loop. *)
Definition read_token (rest : string) : result (string * string) :=
  _ ← fail_if (negb (startswith "$" rest)) "AOF_MALFORMED_OR_TRUNCATED";
  '(raw_length, rest) ← _line (sdrop 1 rest);
  len ← _unsigned raw_length MAX_TOKEN_BYTES "AOF_LIMIT_EXCEEDED";
  _ ← fail_if (MAX_TOKEN_BYTES <? len) "AOF_LIMIT_EXCEEDED";
  let body := sdrop (Z.to_nat len) rest in
  _ ← fail_if ((slen rest <? len + 2) || negb (startswith CRLF body)) "AOF_MALFORMED_OR_TRUNCATED";
  Ok (stake (Z.to_nat len) rest, sdrop 2 body).

Fixpoint read_tokens (count : nat) (rest : string) : result (list string * string) :=
  match count with
  | O => Ok ([], rest)
  | S n => '(t, rest) ← read_token rest; '(ts, rest) ← read_tokens n rest; Ok (t :: ts, rest)
  end.

Definition next_command (r : reader) : result (option (list string) * reader) :=
  if String.eqb (rd_rest r) EmptyString then Ok (None, r)
  else
    _ ← fail_if (negb (startswith "*" (rd_rest r))) "AOF_MALFORMED_OR_TRUNCATED";
    '(raw_count, rest) ← _line (sdrop 1 (rd_rest r));
    count ← _unsigned raw_count MAX_ARRAY_LENGTH "AOF_LIMIT_EXCEEDED";
    _ ← fail_if ((count <? 1) || (MAX_ARRAY_LENGTH <? count)) "AOF_LIMIT_EXCEEDED";
    '(command, rest) ← read_tokens (Z.to_nat count) rest;
    let commands := rd_commands r + 1 in
    _ ← fail_if (rd_max_commands r <? commands) "AOF_LIMIT_EXCEEDED";
    Ok (Some command, Reader rest commands (rd_max_commands r)).

(** ** Command validators *)
Definition arg (i : nat) (args : list string) : string := nth i args EmptyString.

Definition _valid_group_args (args : list string) : result string :=
  let n := Z.of_nat (length args) in
  _ ← fail_if ((n <? 4) || negb (String.eqb (arg 1 args) TOPIC) || negb (String.eqb (arg 2 args) _GROUP))
        "AOF_UNKNOWN_COMMAND_OR_KEY";
  _ ← (if String.eqb (arg 0 args) "CREATE" then
         fail_if (negb (n =? 5) || negb (String.eqb (arg 4 args) "MKSTREAM")) "AOF_UNKNOWN_COMMAND_OR_KEY"
       else if String.eqb (arg 0 args) "SETID" then
         _ ← fail_if (negb (n =? 6) || negb (String.eqb (arg 4 args) "ENTRIESREAD"))
               "AOF_UNKNOWN_COMMAND_OR_KEY";
         _ ← _unsigned (arg 5 args) (2 ^ 63 - 1) "AOF_MALFORMED_OR_TRUNCATED"; Ok tt
       else _fail "AOF_UNKNOWN_COMMAND_OR_KEY");
  _ ← (if bool_decide (arg 3 args ∈ ["$"; "0"]) then Ok tt
       else _ ← _stream_id (arg 3 args) true; Ok tt);
  Ok (blower (arg 0 args)).

(** [options]: name, arity, in the order [enumerate] numbers them *)
Definition claim_options : list (string * (nat * Z)) :=
  [("TIME", (1%nat, 0)); ("RETRYCOUNT", (1%nat, 1)); ("FORCE", (0%nat, 2)); ("JUSTID", (0%nat, 3));
   ("LASTID", (1%nat, 4))].

(** The ids before the first option: how many, and what follows them. *)
Fixpoint claim_ids (args : list string) : result (Z * list string) :=
  match args with
  | [] => Ok (0, [])
  | a :: rest =>
      if dmem (bupper a) claim_options then Ok (0, args)
      else _ ← _stream_id a false; '(n, r) ← claim_ids rest; Ok (n + 1, r)
  end.

Fixpoint claim_opts (last_option : Z) (args : list string) : result unit :=
  match args with
  | [] => Ok tt
  | a :: rest =>
      match dlookup (bupper a) claim_options with
      | None => _fail "AOF_UNKNOWN_COMMAND_OR_KEY"
      | Some (arity, order) =>
          _ ← fail_if (order <=? last_option) "AOF_MALFORMED_OR_TRUNCATED";
          match arity, rest with
          | O, _ => claim_opts order rest
          | _, [] => _fail "AOF_MALFORMED_OR_TRUNCATED"
          | _, operand :: rest =>
              _ ← (if String.eqb (bupper a) "LASTID" then _ ← _stream_id operand true; Ok tt
                   else _ ← _unsigned operand (2 ^ 63 - 1) "AOF_MALFORMED_OR_TRUNCATED"; Ok tt);
              claim_opts order rest
          end
      end
  end.

Definition _valid_claim (args : list string) : result unit :=
  _ ← fail_if ((Z.of_nat (length args) <? 5) || negb (String.eqb (arg 0 args) TOPIC)
               || negb (String.eqb (arg 1 args) _GROUP)) "AOF_UNKNOWN_COMMAND_OR_KEY";
  consumer ← _ascii (arg 2 args) "AOF_MALFORMED_OR_TRUNCATED";
  _ ← fail_if (negb (fullmatch _CONSUMER consumer)) "AOF_CONSUMER_IDENTITY_INVALID";
  _ ← _unsigned (arg 3 args) (2 ^ 63 - 1) "AOF_MALFORMED_OR_TRUNCATED";
  '(ids, rest) ← claim_ids (drop 4 args);
  _ ← fail_if (ids =? 0) "AOF_MALFORMED_OR_TRUNCATED";
  claim_opts (-1) rest.

Definition _profile_limits (profile : string) : result (Z * Z) :=
  match dlookup profile FORENSIC_AOF_PROFILES with
  | Some l => Ok l
  | None => _fail "AOF_PROFILE_INVALID"
  end.

(** ** The inventory *)
Abbreviation receipt := (string * string)%type. (* payload digest, stream id *)

Record inv := Inv {
  iv_counts : list (string * Z);                  (* Counter *)
  iv_dbs : gset Z;
  iv_publication_ids : list string;
  iv_receipt_fields : gmap string receipt;
  iv_stream_receipts : gmap string string;
  iv_in_multi : bool;
  iv_tx_streams : gset receipt;
  iv_tx_hset : bool;
  iv_tx_xadd : bool;
  iv_xadd_receipts : gset receipt;
}.

Definition inv0 : inv := Inv [] ∅ [] ∅ ∅ false ∅ false false ∅.

(** [counts[k]] and [counts[k] += 1] *)
Definition count (k : string) (c : list (string * Z)) : Z := default 0 (dlookup k c).
Definition bump (k : string) (c : list (string * Z)) : list (string * Z) := dset k (count k c + 1) c.

Definition with_counts (s : inv) (c : list (string * Z)) : inv :=
  Inv c (iv_dbs s) (iv_publication_ids s) (iv_receipt_fields s) (iv_stream_receipts s)
    (iv_in_multi s) (iv_tx_streams s) (iv_tx_hset s) (iv_tx_xadd s) (iv_xadd_receipts s).

Definition do_multi (s : inv) (args : list string) : result inv :=
  _ ← fail_if (negb (bool_decide (args = [])) || iv_in_multi s) "AOF_TRANSACTION_INVALID";
  Ok (Inv (bump "multi" (iv_counts s)) (iv_dbs s) (iv_publication_ids s) (iv_receipt_fields s)
        (iv_stream_receipts s) true ∅ false false (iv_xadd_receipts s)).

Definition do_exec (s : inv) (args : list string) : result inv :=
  _ ← fail_if (negb (bool_decide (args = [])) || negb (iv_in_multi s)) "AOF_TRANSACTION_INVALID";
  _ ← fail_if (negb (Bool.eqb (iv_tx_hset s) (iv_tx_xadd s))) "AOF_TRANSACTION_INVALID";
  Ok (Inv (bump "exec" (iv_counts s)) (iv_dbs s) (iv_publication_ids s) (iv_receipt_fields s)
        (iv_stream_receipts s) false (iv_tx_streams s) (iv_tx_hset s) (iv_tx_xadd s)
        (iv_xadd_receipts s)).

Definition do_select (s : inv) (args : list string) : result inv :=
  _ ← fail_if (negb (bool_decide (args = ["0"]))) "AOF_DB_INVALID";
  Ok (Inv (bump "select" (iv_counts s)) ({[0]} ∪ iv_dbs s) (iv_publication_ids s)
        (iv_receipt_fields s) (iv_stream_receipts s) (iv_in_multi s) (iv_tx_streams s)
        (iv_tx_hset s) (iv_tx_xadd s) (iv_xadd_receipts s)).

Definition do_xadd (s : inv) (args : list string) : result inv :=
  match args with
  | [topic; id; field; payload] =>
      _ ← fail_if (negb (String.eqb topic TOPIC) || negb (String.eqb field "data"))
            "AOF_UNKNOWN_COMMAND_OR_KEY";
      sid ← _stream_id id false;
      let digest := sha256_hex payload in
      _ ← fail_if (bool_decide (is_Some (iv_stream_receipts s !! sid))) "AOF_STREAM_ID_REUSED";
      Ok (Inv (bump "xadd" (iv_counts s)) (iv_dbs s) (iv_publication_ids s) (iv_receipt_fields s)
            (<[sid := digest]> (iv_stream_receipts s)) (iv_in_multi s)
            (if iv_in_multi s then {[(digest, sid)]} ∪ iv_tx_streams s else iv_tx_streams s)
            (iv_tx_hset s) (iv_in_multi s || iv_tx_xadd s)
            ({[(digest, sid)]} ∪ iv_xadd_receipts s))
  | _ => _fail "AOF_UNKNOWN_COMMAND_OR_KEY"
  end.

(** The decoded receipt of an [HSET] field value. *)
Definition parse_receipt (v : string) : result receipt :=
  r ← catch (λ c, bool_decide (c = JSONDecodeError) || bool_decide (c = UnicodeDecodeError))
        (if isascii v then json_loads v else raise UnicodeDecodeError "ascii")
        (λ _, _fail "AOF_RECEIPT_INVALID");
  match r with
  | VList [VStr d; VStr id] =>
      _ ← fail_if (negb (fullmatch _HEX64 d)) "AOF_RECEIPT_INVALID";
      _ ← fail_if (negb (isascii id)) "AOF_RECEIPT_INVALID";
      sid ← _stream_id id false;
      Ok (blower d, sid)
  | _ => _fail "AOF_RECEIPT_INVALID"
  end.

Definition do_hset (owner : string) (s : inv) (args : list string) : result inv :=
  _ ← fail_if (negb (iv_in_multi s)) "AOF_TRANSACTION_INVALID";
  match args with
  | [key; field; v] =>
      _ ← fail_if (negb (String.eqb key (_key owner))) "AOF_UNKNOWN_COMMAND_OR_KEY";
      f ← _ascii field "AOF_MALFORMED_OR_TRUNCATED";
      _ ← fail_if (negb (fullmatch _HEX64 f)) "AOF_UNKNOWN_COMMAND_OR_KEY";
      pair ← parse_receipt v;
      _ ← fail_if (negb (bool_decide (pair ∈ iv_tx_streams s))
                   || negb (bool_decide (pair ∈ iv_xadd_receipts s))) "AOF_RECEIPT_INVALID";
      let message_id := blower f in
      let old := iv_receipt_fields s !! message_id in
      _ ← fail_if (bool_decide (is_Some old) && negb (bool_decide (old = Some pair)))
            "AOF_RECEIPT_FIELD_REWRITTEN";
      Ok (Inv (bump "hset" (iv_counts s)) (iv_dbs s)
            (if bool_decide (old = None) then iv_publication_ids s ++ [message_id]
             else iv_publication_ids s)
            (<[message_id := pair]> (iv_receipt_fields s)) (iv_stream_receipts s) (iv_in_multi s)
            (iv_tx_streams s) true (iv_tx_xadd s) (iv_xadd_receipts s))
  | _ => _fail "AOF_UNKNOWN_COMMAND_OR_KEY"
  end.

Definition do_xack (s : inv) (args : list string) : result inv :=
  _ ← fail_if ((Z.of_nat (length args) <? 3) || negb (String.eqb (arg 0 args) TOPIC)
               || negb (String.eqb (arg 1 args) _GROUP)) "AOF_UNKNOWN_COMMAND_OR_KEY";
  _ ← mapR (λ sid, _stream_id sid false) (drop 2 args);
  Ok (with_counts s (bump "xack" (iv_counts s))).

(** One iteration of the loop of [inventory_bytes]. *)
Definition inv_step (owner : string) (s : inv) (command : list string) : result inv :=
  match command with
  | [] => _fail "AOF_MALFORMED_OR_TRUNCATED"
  | c :: args =>
      let name := bupper c in
      if String.eqb name "MULTI" then do_multi s args
      else if String.eqb name "EXEC" then do_exec s args
      else if String.eqb name "SELECT" then do_select s args
      else if String.eqb name "XADD" then do_xadd s args
      else if String.eqb name "HSET" then do_hset owner s args
      else if String.eqb name "XGROUP" then
        sub ← _valid_group_args args;
        Ok (with_counts s (bump ("xgroup|" +:+ sub) (iv_counts s)))
      else if String.eqb name "XCLAIM" then
        _ ← _valid_claim args; Ok (with_counts s (bump "xclaim" (iv_counts s)))
      else if String.eqb name "XACK" then do_xack s args
      else _fail "AOF_UNKNOWN_COMMAND_OR_KEY"
  end.

(** [while (command := reader.next_command()) is not None]; [None] is lack of fuel. *)
Fixpoint inventory_loop (owner : string) (fuel : nat) (r : reader) (s : inv)
    : option (result (reader * inv)) :=
  match fuel with
  | O => None
  | S fuel =>
      match next_command r with
      | Err e => Some (Err e)
      | Ok (None, r) => Some (Ok (r, s))
      | Ok (Some command, r) =>
          match inv_step owner s command with
          | Err e => Some (Err e)
          | Ok s => inventory_loop owner fuel r s
          end
      end
  end.

Record aof_report := AofReport {
  ar_bytes : Z;
  ar_parsed_source_sha256 : string;
  ar_command_count : Z;
  ar_dbs : list Z;
  ar_subcommand_counts : list (string * Z);
  ar_xadd_count : Z;
  ar_ledger_fields : Z;
  ar_receipt_count : Z;
  ar_publication_message_ids_sha256 : string;
  ar_first_publication_message_id : option string;
  ar_last_publication_message_id : option string;
  ar_matched_receipt_count : Z;
  ar_actor_format_valid : bool;
  ar_transactions_balanced : bool;
}.

Definition make_report (data : string) (r : reader) (s : inv) : result aof_report :=
  ids ← json_dumps compact_style (VList (VStr <$> sort_str (iv_publication_ids s)));
  let c := iv_counts s in
  Ok {| ar_bytes := slen data;
        ar_parsed_source_sha256 := sha256_hex data;
        ar_command_count := rd_commands r;
        ar_dbs := elements (iv_dbs s);
        ar_subcommand_counts := sort_dict c;
        ar_xadd_count := count "xadd" c;
        ar_ledger_fields := Z.of_nat (length (iv_publication_ids s));
        ar_receipt_count := count "hset" c;
        ar_publication_message_ids_sha256 := sha256_hex ids;
        ar_first_publication_message_id := head (iv_publication_ids s);
        ar_last_publication_message_id := last (iv_publication_ids s);
        ar_matched_receipt_count := Z.of_nat (size (iv_receipt_fields s));
        ar_actor_format_valid := 0 <? count "xclaim" c;
        ar_transactions_balanced := count "multi" c =? count "exec" c |}.

Definition inventory_bytes (data : value) (owner : value) (profile : string) : result aof_report :=
  '(max_aof_bytes, max_commands) ← _profile_limits profile;
  owner ← _owner owner;
  match data with
  | VBytes data =>
      _ ← fail_if (max_aof_bytes <? slen data) "AOF_LIMIT_EXCEEDED";
      match inventory_loop owner (S (String.length data)) (Reader data 0 max_commands) inv0 with
      | None => raise RuntimeError "out of fuel"
      | Some (Err e) => Err e
      | Some (Ok (r, s)) =>
          _ ← fail_if (iv_in_multi s) "AOF_TRANSACTION_INVALID";
          _ ← fail_if (String.eqb data EmptyString) "AOF_MALFORMED_OR_TRUNCATED";
          make_report data r s
      end
  | _ => _fail "AOF_INPUT_INVALID"
  end.

(** What [inventory_aof] observes of the file: [None] where the call raises [OSError]. *)
Record aof_file := AofFile {
  af_is_symlink : option bool;
  af_stat : option (bool * Z);   (* S_ISREG, st_size of the path *)
  af_fstat : option (bool * Z);  (* the same of the opened descriptor; None: open failed *)
  af_read : option string;       (* the whole content a read would return *)
}.

Definition os_call {A} (x : option A) : result A :=
  match x with Some a => Ok a | None => _fail "AOF_FILE_INVALID" end.

Definition inventory_aof (f : aof_file) (owner : value) (profile : string) : result aof_report :=
  '(max_aof_bytes, max_commands) ← _profile_limits profile;
  o ← _owner owner;
  sym ← os_call (af_is_symlink f);
  _ ← fail_if sym "AOF_FILE_INVALID";
  '(isreg, size) ← os_call (af_stat f);
  _ ← fail_if (negb isreg || (max_aof_bytes <? size))
        (if negb isreg then "AOF_FILE_INVALID" else "AOF_LIMIT_EXCEEDED");
  '(fisreg, fsize) ← os_call (af_fstat f);
  _ ← fail_if (negb fisreg || (max_aof_bytes <? fsize)) "AOF_FILE_INVALID";
  content ← os_call (af_read f);
  let data := stake (Z.to_nat (max_aof_bytes + 1)) content in
  _ ← fail_if (max_aof_bytes <? slen data) "AOF_LIMIT_EXCEEDED";
  inventory_bytes (VBytes data) (VStr o) profile.

(** ** ACL helpers *)
Definition replay_default_acl (owner : value) : result string :=
  owner ← _owner owner;
  Ok ("user default reset off resetpass ~" +:+ TOPIC +:+ " ~" +:+ _key owner
      +:+ " +select +multi +exec +xadd +hset +xgroup|create +xgroup|setid +xclaim +xack").

Definition expected_users : list string :=
  ["kairos_epoch_admin"; "kairos_epoch_producer"; "kairos_epoch_consumer"].

(** [re.match(r"^user ([a-zA-Z0-9_]+) (?:on|off)(?: |$)", line)], group 1.  The
    name holds no blank, so it is the text up to the first one. *)
Definition acl_line_user (line : string) : option string :=
  if startswith "user " line then
    '(name, rest) ← split_once " " (sdrop 5 line);
    if negb (String.eqb name EmptyString) && sall (λ c, is_alnum c || is_one "_" c) name
       && (startswith "on " rest || String.eqb rest "on" || startswith "off " rest || String.eqb rest "off")
    then Some name else None
  else None.

Definition acl_check (found : list string) (line : string) : result (list string) :=
  match acl_line_user line with
  | Some name => if bool_decide (name ∈ expected_users) then Ok (found ++ [name]) else _fail "ACL_INPUT_INVALID"
  | None => _fail "ACL_INPUT_INVALID"
  end.

Definition candidate_acl (original : value) (owner : value) : result string :=
  o ← _owner owner;
  match original with
  | VBytes original =>
      _ ← fail_if (sany (is_one "000") original) "ACL_INPUT_INVALID";
      let nl := split_once "010" original in
      let first := match nl with Some (h, _) => h | None => original end in
      let cr := endswith (String "013" EmptyString) first in
      let ending := if cr then CRLF else String "010" EmptyString in
      let first := if cr then stake (String.length first - 1) first else first in
      first_text ← _ascii first "ACL_INPUT_INVALID";
      let remainder := match nl with Some (_, t) => t | None => EmptyString end in
      decoded ← mapR (λ line, _ascii line "ACL_INPUT_INVALID")
                  (filter (λ l, negb (String.eqb l EmptyString)) (bsplitlines remainder));
      _ ← fail_if (negb (String.eqb first_text "user default off")) "ACL_INPUT_INVALID";
      found ← foldR acl_check [] decoded;
      _ ← fail_if (negb (same_set found expected_users)
                   || negb (Nat.eqb (length found) (length expected_users))) "ACL_INPUT_INVALID";
      _ ← fail_if (bool_decide (nl = None)) "ACL_INPUT_INVALID";
      acl ← replay_default_acl owner;
      Ok (acl +:+ ending +:+ remainder)
  | _ => _fail "ACL_INPUT_INVALID"
  end.
