(* ===== verification/RedisAofSpec.v ===== *)
(** * Properties of the AOF inventory ([RedisAof])

    The RESP writer [encode_command] is the specification the reader is
    checked against; [publication] is the command sequence of one publication
    transaction, the log the producer's Lua script leaves behind. *)

From S2P Require Import Prelude PyStr Regex Sha256 PyVal Json RedisAof.

Local Open Scope string_scope.
Local Open Scope list_scope.
Local Open Scope Z_scope.

(** ** The RESP writer *)
Definition encode_token (a : string) : string :=
  "$" +:+ dec_of_Z (slen a) +:+ CRLF +:+ a +:+ CRLF.
Definition encode_tokens (l : list string) : string := sconcat (encode_token <$> l).
Definition encode_command (c : list string) : string :=
  "*" +:+ dec_of_Z (Z.of_nat (length c)) +:+ CRLF +:+ encode_tokens c.
Definition encode_log (l : list (list string)) : string := sconcat (encode_command <$> l).

(** A command within the reader's fixed limits. *)
Definition command_ok (c : list string) : bool :=
  (1 <=? Z.of_nat (length c)) && (Z.of_nat (length c) <=? MAX_ARRAY_LENGTH)
  && forallb (λ a, slen a <=? MAX_TOKEN_BYTES) c.

(** What the loop of [inventory_bytes] draws from a reader. *)
Inductive reads : reader → list (list string) → reader → Prop :=
  | reads_end r r' : next_command r = Ok (None, r') → reads r [] r'
  | reads_cons r c r1 cs r2 :
      next_command r = Ok (Some c, r1) → reads r1 cs r2 → reads r (c :: cs) r2.

(** ** Reader lemmas *)
Lemma find_crlf_cons c s :
  find_crlf (String c s) =
    if startswith CRLF (String c s) then Some (EmptyString, sdrop 2 (String c s))
    else '(h, t) ← find_crlf s; Some (String c h, t).
Proof. done. Qed.

Lemma find_crlf_free s t :
  free_of "013" s = true → find_crlf (s +:+ CRLF +:+ t) = Some (s, t).
Proof.
  unfold free_of. induction s as [|c s IH]; cbn [sall].
  - intros _. by destruct t.
  - rewrite andb_true_iff, negb_true_iff. intros [Hc Hs].
    change (String c s +:+ CRLF +:+ t) with (String c (s +:+ CRLF +:+ t)). rewrite find_crlf_cons.
    replace (startswith CRLF _) with false.
    + by rewrite IH.
    + symmetry. apply not_true_iff_false. intros [u Hu]%prefix_app. injection Hu as -> _.
      by rewrite Ascii.eqb_refl in Hc.
Qed.

Lemma find_crlf_len s a b : find_crlf s = Some (a, b) → (String.length b < String.length s)%nat.
Proof.
  revert a b; induction s as [|c s IH]; intros a b; [done|].
  rewrite find_crlf_cons. destruct (startswith CRLF (String c s)) eqn:E.
  - intros Heq. assert (Hb : sdrop 2 (String c s) = b) by congruence.
    rewrite <- Hb, sdrop_length. cbn [String.length]. lia.
  - destruct (find_crlf s) as [[h t]|] eqn:F; [|done]. cbn.
    intros [= <- <-]. specialize (IH _ _ eq_refl). cbn [String.length]. lia.
Qed.

Lemma line_len s a b : _line s = Ok (a, b) → (String.length b < String.length s)%nat.
Proof.
  unfold _line. destruct (find_crlf s) as [[h t]|] eqn:F; [|done].
  intros H. ok_inv H. eapply find_crlf_len; eauto.
Qed.

Lemma digit_free_cr s : sall is_digit s = true → free_of "013" s = true.
Proof.
  apply sall_impl. intros c Hc. apply negb_true_iff, not_true_iff_false.
  by intros ->%Ascii.eqb_eq.
Qed.

Lemma line_dec n t :
  0 <= n <= MAX_TOKEN_BYTES → _line (dec_of_Z n +:+ CRLF +:+ t) = Ok (dec_of_Z n, t).
Proof.
  unfold MAX_TOKEN_BYTES. intros Hn. unfold _line.
  rewrite find_crlf_free by (apply digit_free_cr, dec_of_Z_digits; lia).
  pose proof (dec_of_Z_len n 6 ltac:(lia) ltac:(lia)).
  unfold fail_if, raise_if, MAX_TOKEN_BYTES. by destruct (Z.ltb_spec (128 * 1024) (slen (dec_of_Z n))); [lia|].
Qed.

Lemma unsigned_dec n maximum code :
  0 <= n <= maximum → n < 10 ^ 20 → _unsigned (dec_of_Z n) maximum code = Ok n.
Proof.
  intros Hn Hb. unfold _unsigned, fail_if.
  pose proof (dec_of_Z_len n 20 ltac:(lia) ltac:(lia)) as Hl.
  destruct (canonical_dec_digits _ (dec_of_Z_canonical n ltac:(lia))) as [Hd Hne].
  rewrite Hd. apply String.eqb_neq in Hne. rewrite Hne.
  destruct (Z.ltb_spec 20 (slen (dec_of_Z n))); [lia|]. cbn.
  rewrite dec_of_Z_val by lia. by destruct (Z.ltb_spec maximum n); [lia|].
Qed.

Lemma unsigned_Ok v m c n :
  _unsigned v m c = Ok n → n = dec_val v ∧ sall is_digit v = true ∧ 0 <= n <= m.
Proof.
  unfold _unsigned, fail_if. intros H. ok_inv H. bool_inv.
  pose proof (dec_val_bounds v ltac:(done)). split_and!; try done; lia.
Qed.

Lemma ascii_Ok v code x : _ascii v code = Ok x ↔ x = v ∧ isascii v = true.
Proof. unfold _ascii, _fail, raise. destruct (isascii v); naive_solver. Qed.

(** An accepted stream id is the given text, two 64-bit canonical numerals. *)
Lemma stream_id_Ok v z x :
  _stream_id v z = Ok x →
  x = v ∧ fullmatch _STREAM_ID v = true ∧
  ∃ a b, split_once "-" v = Some (a, b) ∧ dec_val a < 2 ^ 64 ∧ dec_val b < 2 ^ 64 ∧
         (z = false → dec_val a ≠ 0 ∨ dec_val b ≠ 0).
Proof.
  unfold _stream_id, fail_if. intros H. ok_inv H. apply ascii_Ok in Hok as [-> _].
  destruct (split_once "-" v) as [[a b]|] eqn:E; [|discriminate H]. ok_inv H. bool_inv.
  split_and!; [done..|]. exists a, b. split_and!; [done|lia|lia|].
  intros ->. cbn in *. lia.
Qed.

Lemma read_token_encode a t :
  slen a <= MAX_TOKEN_BYTES → read_token (encode_token a +:+ t) = Ok (a, t).
Proof.
  intros Ha. unfold encode_token. rewrite <- !app_assoc_str. unfold read_token, fail_if.
  pose proof (slen_nonneg a). rewrite startswith_app, raise_if_pass by done.
  change (sdrop 1) with (sdrop (String.length "$")). rewrite sdrop_app.
  rewrite line_dec by lia. rewrite bind_ret.
  rewrite unsigned_dec by (unfold MAX_TOKEN_BYTES in *; lia). rewrite bind_ret.
  rewrite raise_if_pass by lia.
  unfold slen at 1 2 5. rewrite Nat2Z.id, sdrop_app, stake_app, startswith_app.
  rewrite raise_if_pass.
  - by change (sdrop 2) with (sdrop (String.length CRLF)); rewrite sdrop_app.
  - rewrite !slen_app. change (slen CRLF) with 2. pose proof (slen_nonneg t).
    unfold slen in *. lia.
Qed.

Lemma read_tokens_encode l t :
  forallb (λ a, slen a <=? MAX_TOKEN_BYTES) l = true →
  read_tokens (length l) (encode_tokens l +:+ t) = Ok (l, t).
Proof.
  induction l as [|a l IH]; intros Hl; [done|].
  cbn [forallb] in Hl. apply andb_true_iff in Hl as [Ha Hl]. apply Z.leb_le in Ha.
  cbn [length read_tokens]. unfold encode_tokens. cbn [fmap list_fmap sconcat foldr].
  rewrite <- app_assoc_str, read_token_encode by done. rewrite bind_ret.
  change (foldr String.append EmptyString (encode_token <$> l)) with (encode_tokens l).
  by rewrite IH.
Qed.

Lemma next_command_encode c t n m :
  command_ok c = true → n + 1 <= m →
  next_command (Reader (encode_command c +:+ t) n m) = Ok (Some c, Reader t (n + 1) m).
Proof.
  unfold command_ok, MAX_ARRAY_LENGTH. rewrite !andb_true_iff, !Z.leb_le. intros [[H1 H2] H3] Hm.
  unfold encode_command. rewrite <- !app_assoc_str. unfold next_command, fail_if. cbn [rd_rest rd_commands rd_max_commands].
  rewrite startswith_app, raise_if_pass by done. replace (String.eqb _ EmptyString) with false by done.
  change (sdrop 1) with (sdrop (String.length "*")). rewrite sdrop_app.
  rewrite line_dec by (unfold MAX_TOKEN_BYTES; lia). rewrite bind_ret.
  rewrite unsigned_dec by (unfold MAX_ARRAY_LENGTH; lia). rewrite bind_ret.
  rewrite raise_if_pass by (unfold MAX_ARRAY_LENGTH; lia).
  rewrite Nat2Z.id, read_tokens_encode by done. rewrite bind_ret.
  by rewrite raise_if_pass by lia.
Qed.

(** Reading shortens the input, so the loop cannot run out of fuel. *)
Lemma read_token_len s a b : read_token s = Ok (a, b) → (String.length b < String.length s)%nat.
Proof.
  unfold read_token, fail_if. intros H. ok_inv H.
  apply line_len in Hok0. rewrite sdrop_length in Hok0. rewrite !sdrop_length. lia.
Qed.

Lemma read_tokens_len n s l b :
  read_tokens n s = Ok (l, b) → (String.length b + n <= String.length s)%nat.
Proof.
  revert s l b; induction n as [|n IH]; intros s l b H; cbn [read_tokens] in H; ok_inv H; [lia|].
  apply read_token_len in Hok. apply IH in Hok0. lia.
Qed.

Lemma next_command_Some r c r' :
  next_command r = Ok (Some c, r') →
  (String.length (rd_rest r') < String.length (rd_rest r))%nat ∧
  rd_commands r' = rd_commands r + 1 ∧ rd_max_commands r' = rd_max_commands r ∧
  rd_commands r' <= rd_max_commands r.
Proof.
  unfold next_command, fail_if. destruct (String.eqb (rd_rest r) EmptyString) eqn:E.
  { intros [=]. }
  intros H. ok_inv H.
  cbn [rd_rest rd_commands rd_max_commands]. bool_inv.
  apply line_len in Hok0. rewrite sdrop_length in Hok0. apply read_tokens_len in Hok3.
  split_and!; try done; lia.
Qed.

Lemma next_command_None r r' : next_command r = Ok (None, r') → r' = r ∧ rd_rest r = EmptyString.
Proof.
  unfold next_command. destruct (String.eqb (rd_rest r) EmptyString) eqn:E.
  { apply String.eqb_eq in E. by intros [= <-]. }
  intros H. ok_inv H. done.
Qed.

Lemma inventory_loop_total owner fuel r s :
  (String.length (rd_rest r) < fuel)%nat → inventory_loop owner fuel r s ≠ None.
Proof.
  revert r s; induction fuel as [|fuel IH]; intros r s Hf; [lia|]. cbn [inventory_loop].
  destruct (next_command r) as [[[c|] r']|e] eqn:E; [|done..].
  destruct (inv_step owner s c); [|done].
  apply IH. apply next_command_Some in E. lia.
Qed.

Lemma inventory_loop_reads owner fuel r s r' s' :
  inventory_loop owner fuel r s = Some (Ok (r', s')) →
  ∃ cs, reads r cs r' ∧ foldR (inv_step owner) s cs = Ok s' ∧ rd_rest r' = EmptyString ∧
        rd_commands r' = rd_commands r + Z.of_nat (length cs).
Proof.
  revert r s; induction fuel as [|fuel IH]; intros r s; [done|]. cbn [inventory_loop].
  destruct (next_command r) as [[[c|] r1]|e] eqn:E; [| |done].
  - destruct (inv_step owner s c) as [s1|] eqn:Es; [|done].
    intros (cs & Hr & Hf & Hn & Hc)%IH. exists (c :: cs). split_and!; [by econstructor| |done|].
    + cbn [foldR]. by rewrite Es.
    + destruct (next_command_Some _ _ _ E) as (_ & Hc1 & _). cbn [length]. lia.
  - intros [= <- <-]. destruct (next_command_None _ _ E) as [-> ?].
    exists []. split_and!; [by constructor|done|done|cbn; lia].
Qed.

Lemma inventory_loop_of_reads owner r cs r' :
  reads r cs r' → ∀ fuel s s', foldR (inv_step owner) s cs = Ok s' →
  (String.length (rd_rest r) < fuel)%nat → inventory_loop owner fuel r s = Some (Ok (r', s')).
Proof.
  induction 1 as [r r' E|r c r1 cs r2 E _ IH]; intros [|fuel] s s' Hf Hl; try lia;
    cbn [inventory_loop]; rewrite E.
  - by injection Hf as <-.
  - cbn [foldR] in Hf. ok_inv Hf. rewrite Hok. apply IH; [done|].
    apply next_command_Some in E. lia.
Qed.

Lemma reads_encode cs n m :
  forallb command_ok cs = true → n + Z.of_nat (length cs) <= m →
  reads (Reader (encode_log cs) n m) cs (Reader EmptyString (n + Z.of_nat (length cs)) m).
Proof.
  revert n; induction cs as [|c cs IH]; intros n Hok Hm.
  - constructor. cbn. by rewrite Z.add_0_r.
  - cbn [forallb] in Hok. apply andb_true_iff in Hok as [Hc Hcs]. cbn [length] in *.
    replace (n + Z.of_nat (S (length cs))) with (n + 1 + Z.of_nat (length cs)) by lia.
    econstructor; [|apply IH; [done|lia]].
    change (encode_log (c :: cs)) with (encode_command c +:+ encode_log cs).
    apply next_command_encode; [done|lia].
Qed.

(** ** What a command list means *)
Definition cmd_name (c : list string) : string := bupper (default EmptyString (head c)).
Definition occurrences (n : string) (cs : list (list string)) : Z :=
  zsum ((λ c, if String.eqb (cmd_name c) n then 1 else 0) <$> cs).

(** The stream ids appended, in order. *)
Definition xadd_ids (cs : list (list string)) : list string :=
  c ← cs; if String.eqb (cmd_name c) "XADD" then [nth 2 c EmptyString] else [].

(** The command at [i] is an [XADD] of [payload] under [sid]. *)
Definition is_xadd (c : list string) (sid payload : string) : Prop :=
  ∃ n, c = [n; TOPIC; sid; "data"; payload] ∧ bupper n = "XADD".

Definition boundary (c : list string) : bool :=
  String.eqb (cmd_name c) "MULTI" || String.eqb (cmd_name c) "EXEC".

(** Some earlier [XADD] of the same transaction appended exactly the payload the receipt names. *)
Definition backed (cs : list (list string)) (rc : receipt) : Prop :=
  ∃ pre c mid payload, cs = pre ++ c :: mid ∧ is_xadd c rc.2 payload ∧
    rc.1 = sha256_hex payload ∧ forallb (λ x, negb (boundary x)) mid = true.

(** Every ledger write is backed. *)
Definition ledger_backed (cs : list (list string)) : Prop :=
  ∀ pre n key field v post, cs = pre ++ [n; key; field; v] :: post → bupper n = "HSET" →
  ∃ rc, parse_receipt v = Ok rc ∧ backed pre rc.

(** The counters that count exactly the commands of one name. *)
Definition tracked : list (string * string) :=
  [("multi", "MULTI"); ("exec", "EXEC"); ("xadd", "XADD"); ("hset", "HSET")].

Lemma tracked_inj k n k0 n0 :
  (k, n) ∈ tracked → (k0, n0) ∈ tracked → String.eqb k k0 = String.eqb n0 n.
Proof.
  assert (Hall : forallb (λ p, forallb (λ q,
    Bool.eqb (String.eqb p.1 q.1) (String.eqb q.2 p.2)) tracked) tracked = true) by done.
  rewrite forallb_forall in Hall. intros H H0. apply list_elem_of_In in H, H0.
  specialize (Hall _ H). cbn beta in Hall. rewrite forallb_forall in Hall.
  specialize (Hall _ H0). by apply Bool.eqb_prop in Hall.
Qed.
(** ** The loop body as a step relation *)
Inductive inv_rel (owner : string) (s : inv) : list string → inv → Prop :=
  | rel_multi n s' : bupper n = "MULTI" → do_multi s [] = Ok s' → inv_rel owner s [n] s'
  | rel_exec n s' : bupper n = "EXEC" → do_exec s [] = Ok s' → inv_rel owner s [n] s'
  | rel_select n s' : bupper n = "SELECT" → do_select s ["0"] = Ok s' → inv_rel owner s [n; "0"] s'
  | rel_xadd n id payload s' :
      bupper n = "XADD" → do_xadd s [TOPIC; id; "data"; payload] = Ok s' →
      inv_rel owner s [n; TOPIC; id; "data"; payload] s'
  | rel_hset n field v s' :
      bupper n = "HSET" → do_hset owner s [_key owner; field; v] = Ok s' →
      inv_rel owner s [n; _key owner; field; v] s'
  | rel_other n args k :
      bupper n ∉ tracked.*2 → k ∉ tracked.*1 →
      inv_rel owner s (n :: args) (with_counts s (bump k (iv_counts s))).

Lemma valid_group_lower args sub :
  _valid_group_args args = Ok sub → sub = "create" ∨ sub = "setid".
Proof.
  unfold _valid_group_args, fail_if. intros H. ok_inv H.
  destruct (String.eqb (arg 0 args) "CREATE") eqn:E1.
  - apply String.eqb_eq in E1. rewrite E1. by left.
  - destruct (String.eqb (arg 0 args) "SETID") eqn:E2.
    + apply String.eqb_eq in E2. rewrite E2. by right.
    + by match goal with H : _fail _ = Ok _ |- _ => discriminate H end.
Qed.

Lemma inv_step_rel owner s c s' : inv_step owner s c = Ok s' → inv_rel owner s c s'.
Proof.
  destruct c as [|n args]; [done|]. unfold inv_step.
  destruct (String.eqb (bupper n) "MULTI") eqn:E.
  { intros H. apply String.eqb_eq in E. pose proof H as H'. unfold do_multi, fail_if in H'. ok_inv H'.
    bool_inv. subst. by constructor. }
  clear E. destruct (String.eqb (bupper n) "EXEC") eqn:E.
  { intros H. apply String.eqb_eq in E. pose proof H as H'. unfold do_exec, fail_if in H'. ok_inv H'.
    bool_inv. subst. by constructor. }
  clear E. destruct (String.eqb (bupper n) "SELECT") eqn:E.
  { intros H. apply String.eqb_eq in E. pose proof H as H'. unfold do_select, fail_if in H'. ok_inv H'.
    bool_inv. subst. by constructor. }
  clear E. destruct (String.eqb (bupper n) "XADD") eqn:E.
  { intros H. apply String.eqb_eq in E. pose proof H as H'. unfold do_xadd, fail_if in H'.
    destruct args as [|? [|? [|? [|? [|? ?]]]]]; try done.
    ok_inv H'. bool_inv. subst. by constructor. }
  clear E. destruct (String.eqb (bupper n) "HSET") eqn:E.
  { intros H. apply String.eqb_eq in E. pose proof H as H'. unfold do_hset, fail_if in H'. ok_inv H'.
    destruct args as [|? [|? [|? [|? ?]]]]; try done.
    ok_inv H'. bool_inv. subst. by constructor. }
  clear E. destruct (String.eqb (bupper n) "XGROUP") eqn:E.
  { intros H. apply String.eqb_eq in E. ok_inv H. apply valid_group_lower in Hok.
    apply rel_other; [rewrite E; by_decide|]. destruct Hok; subst; by_decide. }
  clear E. destruct (String.eqb (bupper n) "XCLAIM") eqn:E.
  { intros H. apply String.eqb_eq in E. ok_inv H. apply rel_other; [rewrite E|]; by_decide. }
  clear E. destruct (String.eqb (bupper n) "XACK") eqn:E; [|done].
  intros H. apply String.eqb_eq in E. unfold do_xack, fail_if in H. ok_inv H.
  apply rel_other; [rewrite E|]; by_decide.
Qed.

(** ** Counters *)
Lemma count_bump k k' c : count k (bump k' c) = count k c + (if String.eqb k k' then 1 else 0).
Proof.
  unfold count at 1, bump. rewrite dlookup_dset. destruct (String.eqb k k') eqn:E; cbn.
  - apply String.eqb_eq in E as ->. done.
  - unfold count. lia.
Qed.

Lemma occurrences_snoc n cs c :
  occurrences n (cs ++ [c]) = occurrences n cs + (if String.eqb (cmd_name c) n then 1 else 0).
Proof. unfold occurrences. rewrite fmap_app, zsum_app. cbn. lia. Qed.

Lemma xadd_ids_snoc cs c :
  xadd_ids (cs ++ [c]) = xadd_ids cs ++ if String.eqb (cmd_name c) "XADD" then [nth 2 c EmptyString] else [].
Proof. unfold xadd_ids. rewrite bind_app. cbn. by rewrite app_nil_r. Qed.

Lemma backed_snoc cs rc c : backed cs rc → boundary c = false → backed (cs ++ [c]) rc.
Proof.
  intros (pre & x & mid & p & -> & Hx & Hd & Hm) Hc.
  exists pre, x, (mid ++ [c]), p. split_and!; [by rewrite <- app_assoc|done|done|].
  rewrite forallb_app, Hm. cbn. by rewrite Hc.
Qed.

Lemma ledger_backed_snoc cs c :
  ledger_backed cs →
  (∀ n key field v, c = [n; key; field; v] → bupper n = "HSET" →
     ∃ rc, parse_receipt v = Ok rc ∧ backed cs rc) →
  ledger_backed (cs ++ [c]).
Proof.
  intros Hl Hc pre n key field v post Heq Hn.
  destruct post as [|c' post _] using rev_ind.
  - apply app_inj_tail in Heq as [<- ->]. eauto.
  - rewrite app_comm_cons, app_assoc in Heq. apply app_inj_tail in Heq as [-> _]. eauto.
Qed.

(** ** The invariant of the inventory *)
Record inv_ok (cs : list (list string)) (s : inv) : Prop := InvOk {
  ok_counts : ∀ k n, (k, n) ∈ tracked →
    count k (iv_counts s) = occurrences n cs;
  ok_balance : count "multi" (iv_counts s) = count "exec" (iv_counts s) + Z.b2z (iv_in_multi s);
  ok_ids : NoDup (xadd_ids cs) ∧ ∀ sid, sid ∈ xadd_ids cs ↔ is_Some (iv_stream_receipts s !! sid);
  ok_tx : iv_in_multi s = true → ∀ rc, rc ∈ iv_tx_streams s → backed cs rc;
  ok_ledger : ledger_backed cs;
  ok_pub : NoDup (iv_publication_ids s) ∧
    list_to_set (iv_publication_ids s) =@{gset string} dom (iv_receipt_fields s);
}.

Lemma inv_ok_init : inv_ok [] inv0.
Proof.
  constructor; cbn.
  - done.
  - done.
  - split; [constructor|]. intros sid. rewrite lookup_empty. split; [set_solver|by intros []].
  - done.
  - intros [|? ?] ? ? ? ? ? H; discriminate H.
  - split; [constructor|]. by rewrite dom_empty_L.
Qed.

(** The counters of one step: the counter of the command's own name advances. *)
Lemma counts_snoc cs c s k0 n0 :
  cmd_name c = n0 →
  (k0, n0) ∈ tracked →
  inv_ok cs s → ∀ k n, (k, n) ∈ tracked →
  count k (bump k0 (iv_counts s)) = occurrences n (cs ++ [c]).
Proof.
  intros Hc H0 Hs k n H. rewrite count_bump, occurrences_snoc, Hc, (ok_counts _ _ Hs k n H).
  f_equal. by rewrite (tracked_inj k n k0 n0).
Qed.

Lemma counts_other cs c s k0 :
  cmd_name c ∉ tracked.*2 → k0 ∉ tracked.*1 →
  inv_ok cs s → ∀ k n, (k, n) ∈ tracked →
  count k (bump k0 (iv_counts s)) = occurrences n (cs ++ [c]).
Proof.
  intros Hc H0 Hs k n H. rewrite count_bump, occurrences_snoc, (ok_counts _ _ Hs k n H).
  f_equal. apply (list_elem_of_fmap_2 fst) in H as Hk. apply (list_elem_of_fmap_2 snd) in H as Hn.
  cbn in Hk, Hn. replace (String.eqb k k0) with false.
  - replace (String.eqb (cmd_name c) n) with false; [done|]. symmetry. apply String.eqb_neq.
    intros Heq. apply Hc. by rewrite Heq.
  - symmetry. apply String.eqb_neq. by intros ->.
Qed.

(** Steps that are not an [XADD], not an [HSET]. *)
Lemma ids_other cs c s :
  String.eqb (cmd_name c) "XADD" = false → inv_ok cs s →
  NoDup (xadd_ids (cs ++ [c])) ∧ ∀ sid, sid ∈ xadd_ids (cs ++ [c]) ↔ is_Some (iv_stream_receipts s !! sid).
Proof. intros Hc Hs. rewrite xadd_ids_snoc, Hc, app_nil_r. by apply ok_ids. Qed.

Lemma ledger_other cs c s :
  String.eqb (cmd_name c) "HSET" = false → inv_ok cs s → ledger_backed (cs ++ [c]).
Proof.
  intros Hc Hs. apply ledger_backed_snoc; [by eapply ok_ledger|].
  intros n key f v -> Hn. unfold cmd_name in Hc. cbn in Hc. by rewrite Hn in Hc.
Qed.

Lemma balance_bump cs s k d b :
  inv_ok cs s → count "multi" (bump k (iv_counts s)) = count "multi" (iv_counts s) + d →
  Z.b2z (iv_in_multi s) + d = (if String.eqb "exec" k then 1 else 0) + Z.b2z b →
  count "multi" (bump k (iv_counts s)) = count "exec" (bump k (iv_counts s)) + Z.b2z b.
Proof. intros Hs -> Hb. rewrite count_bump, (ok_balance _ _ Hs). lia. Qed.

Lemma name_false c n m : cmd_name c = n → String.eqb n m = false → String.eqb (cmd_name c) m = false.
Proof. by intros ->. Qed.

Ltac inv_fields Hs Hn :=
  constructor;
  cbn [iv_counts iv_in_multi iv_stream_receipts iv_tx_streams iv_publication_ids iv_receipt_fields with_counts];
  [ idtac | idtac | try (eapply ids_other; [by eapply name_false; [exact Hn|]|exact Hs])
  | idtac | try (eapply ledger_other; [by eapply name_false; [exact Hn|]|exact Hs]) | try exact (ok_pub _ _ Hs) ].

Lemma ok_multi cs s n s' :
  inv_ok cs s → bupper n = "MULTI" → do_multi s [] = Ok s' → inv_ok (cs ++ [[n]]) s'.
Proof.
  intros Hs Hn H. unfold do_multi, fail_if in H. ok_inv H. bool_inv.
  inv_fields Hs Hn.
  - eapply counts_snoc; [exact Hn|by_decide|done].
  - eapply (balance_bump _ _ _ 1); [done|by rewrite count_bump|]. by rewrite H0.
  - set_solver.
Qed.

Lemma ok_exec cs s n s' :
  inv_ok cs s → bupper n = "EXEC" → do_exec s [] = Ok s' → inv_ok (cs ++ [[n]]) s'.
Proof.
  intros Hs Hn H. unfold do_exec, fail_if in H. ok_inv H. bool_inv.
  inv_fields Hs Hn.
  - eapply counts_snoc; [exact Hn|by_decide|done].
  - eapply (balance_bump _ _ _ 0); [done|by rewrite count_bump|]. by rewrite H0.
  - done.
Qed.

Lemma not_boundary c :
  String.eqb (cmd_name c) "MULTI" = false → String.eqb (cmd_name c) "EXEC" = false → boundary c = false.
Proof. unfold boundary. by intros -> ->. Qed.

Lemma ok_select cs s n s' :
  inv_ok cs s → bupper n = "SELECT" → do_select s ["0"] = Ok s' → inv_ok (cs ++ [[n; "0"]]) s'.
Proof.
  intros Hs Hn H. unfold do_select, fail_if in H. ok_inv H.
  inv_fields Hs Hn.
  - apply counts_other; [|by_decide|done]. unfold cmd_name; cbn. rewrite Hn. by_decide.
  - eapply (balance_bump _ _ _ 0); [done|by rewrite count_bump|]. cbn. lia.
  - intros Hm rc Hrc. apply backed_snoc; [by eapply ok_tx|].
    apply not_boundary; by (eapply name_false; [exact Hn|]).
Qed.

Lemma ok_other cs s n args k :
  inv_ok cs s → bupper n ∉ tracked.*2 → k ∉ tracked.*1 →
  inv_ok (cs ++ [n :: args]) (with_counts s (bump k (iv_counts s))).
Proof.
  intros Hs Hn Hk.
  assert (Hname : ∀ m, m ∈ tracked.*2 → String.eqb (cmd_name (n :: args)) m = false).
  { intros m Hm. apply String.eqb_neq. intros <-. by apply Hn. }
  assert (Hkey : ∀ m, m ∈ tracked.*1 → String.eqb m k = false).
  { intros m Hm. apply String.eqb_neq. by intros ->. }
  constructor;
    cbn [iv_counts iv_in_multi iv_stream_receipts iv_tx_streams iv_publication_ids iv_receipt_fields with_counts].
  - by apply counts_other.
  - eapply (balance_bump _ _ _ 0); [done| |].
    + rewrite count_bump, Hkey; [done|by_decide].
    + rewrite Hkey; [lia|by_decide].
  - apply ids_other; [|done]. apply Hname. by_decide.
  - intros Hm rc Hrc. apply backed_snoc; [by eapply ok_tx|].
    apply not_boundary; apply Hname; by_decide.
  - apply (ledger_other _ _ s); [|done]. apply Hname. by_decide.
  - by apply (ok_pub cs).
Qed.

Lemma ok_xadd cs s n id p s' :
  inv_ok cs s → bupper n = "XADD" → do_xadd s [TOPIC; id; "data"; p] = Ok s' →
  inv_ok (cs ++ [[n; TOPIC; id; "data"; p]]) s'.
Proof.
  intros Hs Hn H. unfold do_xadd, fail_if in H. ok_inv H. bool_inv.
  apply stream_id_Ok in Hok0 as [-> _].
  inv_fields Hs Hn.
  - eapply counts_snoc; [exact Hn|by_decide|done].
  - eapply (balance_bump _ _ _ 0); [done|by rewrite count_bump|]. cbn. lia.
  - rewrite xadd_ids_snoc. replace (String.eqb (cmd_name _) "XADD") with true
      by (symmetry; apply String.eqb_eq; exact Hn). cbn [nth].
    destruct (ok_ids _ _ Hs) as [Hnd Hids]. split.
    + apply NoDup_app. split_and!; [done| |apply NoDup_singleton].
      intros x Hx ->%list_elem_of_singleton. apply Hids in Hx. done.
    + intros sid. rewrite elem_of_app, list_elem_of_singleton, Hids, lookup_insert_is_Some.
      destruct (decide (id = sid)) as [->|]; naive_solver.
  - intros Hm rc Hrc. rewrite Hm in Hrc. apply elem_of_union in Hrc as [->%elem_of_singleton|Hrc].
    + exists cs, [n; TOPIC; id; "data"; p], [], p. split_and!; [done| |done|done]. by exists n.
    + apply backed_snoc; [by eapply ok_tx|].
      apply not_boundary; by (eapply name_false; [exact Hn|]).
Qed.

Lemma ok_hset owner cs s n f v s' :
  inv_ok cs s → bupper n = "HSET" → do_hset owner s [_key owner; f; v] = Ok s' →
  inv_ok (cs ++ [[n; _key owner; f; v]]) s'.
Proof.
  intros Hs Hn H. unfold do_hset, fail_if in H. ok_inv H. bool_inv.
  assert (Hback : backed cs (a3, b)) by (by eapply ok_tx).
  inv_fields Hs Hn.
  - eapply counts_snoc; [exact Hn|by_decide|done].
  - eapply (balance_bump _ _ _ 0); [done|by rewrite count_bump|]. cbn. lia.
  - intros Hm rc Hrc. apply backed_snoc; [by eapply ok_tx|].
    apply not_boundary; by (eapply name_false; [exact Hn|]).
  - apply ledger_backed_snoc; [by eapply ok_ledger|].
    intros n' key f' v' [= <- <- <- <-] _. eauto.
  - destruct (ok_pub _ _ Hs) as [Hnd Hdom]. set (mid := blower a1).
    assert (Hin : mid ∈ iv_publication_ids s ↔ is_Some (iv_receipt_fields s !! mid)).
    { rewrite <- elem_of_dom, <- Hdom. by rewrite elem_of_list_to_set. }
    rewrite dom_insert_L, <- Hdom. clear Hok5. case_bool_decide as Hold.
    + split.
      * apply NoDup_app. split_and!; [done| |apply NoDup_singleton].
        intros x Hx ->%list_elem_of_singleton. rewrite Hin in Hx. destruct Hx as [? Hx]. congruence.
      * rewrite list_to_set_app_L. set_solver.
    + split; [done|]. assert (mid ∈ iv_publication_ids s); [|set_solver].
      apply Hin. by apply not_eq_None_Some.
Qed.

Lemma inv_ok_run owner cs s : foldR (inv_step owner) inv0 cs = Ok s → inv_ok cs s.
Proof.
  apply (foldR_hist (inv_step owner) inv_ok); [apply inv_ok_init|].
  intros l s0 c s' _ Hs Hstep%inv_step_rel.
  destruct Hstep as [n s' Hn H|n s' Hn H|n s' Hn H|n id p s' Hn H|n f v s' Hn H|n args k Hn Hk].
  - by eapply ok_multi.
  - by eapply ok_exec.
  - by eapply ok_select.
  - by eapply ok_xadd.
  - by eapply ok_hset.
  - by apply ok_other.
Qed.

(** Everything an accepted inventory went through. *)
Lemma inventory_bytes_Ok data owner profile rep :
  inventory_bytes (VBytes data) owner profile = Ok rep →
  ∃ o maxb maxc cs r s,
    owner = VStr o ∧ fullmatch _OWNER o = true ∧
    dlookup profile FORENSIC_AOF_PROFILES = Some (maxb, maxc) ∧ slen data <= maxb ∧
    reads (Reader data 0 maxc) cs r ∧ rd_rest r = EmptyString ∧
    rd_commands r = Z.of_nat (length cs) ∧
    foldR (inv_step o) inv0 cs = Ok s ∧ iv_in_multi s = false ∧ make_report data r s = Ok rep.
Proof.
  unfold inventory_bytes, _profile_limits, fail_if. intros H. ok_inv H.
  destruct (dlookup profile FORENSIC_AOF_PROFILES) as [[maxb maxc]|] eqn:Ep; [|discriminate Hok].
  injection Hok as <- <-.
  destruct owner as [| | | |o| | | |]; try discriminate Hok0.
  unfold _owner, fail_if in Hok0. ok_inv Hok0. bool_inv.
  destruct (inventory_loop _ _ _ _) as [[[r s]|e]|] eqn:El; try discriminate H.
  ok_inv H. apply inventory_loop_reads in El as (cs & Hr & Hf & Hn & Hc).
  exists a0, maxb, maxc, cs, r, s. split_and!; done.
Qed.

(** ** The log a publisher leaves *)
(** One publication: the transaction that appends the payload under [sid] and
    records its receipt under the message id [mid]. *)
Definition publication (owner : string) (p : string * string * string) : list (list string) :=
  let '(mid, payload, sid) := p in
  [["MULTI"]; ["XADD"; TOPIC; sid; "data"; payload];
   ["HSET"; _key owner; mid; pair_json (sha256_hex payload) sid]; ["EXEC"]].

Definition publications (owner : string) (l : list (string * string * string)) : list (list string) :=
  p ← l; publication owner p.

Definition pub_mid (p : string * string * string) : string := p.1.1.
Definition pub_sid (p : string * string * string) : string := p.2.

Definition publication_ok (p : string * string * string) : bool :=
  let '(mid, payload, sid) := p in
  fullmatch _HEX64 mid && bool_decide (_stream_id sid false = Ok sid) && (slen payload <=? MAX_TOKEN_BYTES).

Lemma hex_plain s : sall is_lower_hex s = true → sall jplain s = true.
Proof. apply sall_impl. intros [[] [] [] [] [] [] [] []]; (done || intros H; discriminate H). Qed.

Lemma blower_hex s : sall is_lower_hex s = true → blower s = s.
Proof.
  unfold blower. induction s as [|c s IH]; cbn; [done|]. rewrite andb_true_iff. intros [Hc Hs].
  rewrite IH by done. f_equal.
  destruct c as [[] [] [] [] [] [] [] []]; (reflexivity || discriminate Hc).
Qed.

Lemma sha_is_hex64 p : fullmatch _HEX64 (sha256_hex p) = true.
Proof.
  destruct (sha256_hex_ok p) as [Hl Hh]. apply fullmatch_rep. split; [done|].
  eapply sall_impl; [|exact Hh]. intros c Hc. unfold is_hex. by rewrite Hc.
Qed.

Lemma stream_id_plain sid : _stream_id sid false = Ok sid →
  sall jplain sid = true ∧ isascii sid = true ∧ slen sid <= 41.
Proof.
  intros H. pose proof (stream_id_Ok _ _ _ H) as (_ & Hm & a & b & Hsp & _).
  split_and!.
  - eapply fullmatch_chars; [|exact Hm]. by vm_compute.
  - eapply fullmatch_chars; [|exact Hm]. by vm_compute.
  - unfold _stream_id, fail_if in H. ok_inv H. rewrite (proj1 (proj1 (ascii_Ok _ _ _) Hok)) in *.
    rewrite Hsp in H. ok_inv H. bool_inv. apply split_once_app in Hsp. rewrite Hsp, slen_app, slen_cons. lia.
Qed.

Lemma jplain_ascii_hex s : sall is_lower_hex s = true → isascii s = true.
Proof. apply sall_impl. intros [[] [] [] [] [] [] [] []]; (done || intros H; discriminate H). Qed.

Lemma parse_receipt_pair payload sid :
  _stream_id sid false = Ok sid →
  parse_receipt (pair_json (sha256_hex payload) sid) = Ok (sha256_hex payload, sid).
Proof.
  intros Hs. destruct (stream_id_plain sid Hs) as (Hp & Ha & _).
  destruct (sha256_hex_ok payload) as [Hl Hh]. unfold parse_receipt.
  replace (isascii (pair_json _ _)) with true.
  - rewrite json_loads_pair by (done || by apply hex_plain). cbn [catch mbind result_bind].
    unfold fail_if. rewrite sha_is_hex64, Ha. rewrite !raise_if_pass by done.
    rewrite Hs. rewrite bind_ret. by rewrite blower_hex.
  - symmetry. unfold pair_json. rewrite !isascii_app, Ha, (jplain_ascii_hex _ Hh). done.
Qed.

(** The dispatch of the four commands a publication is made of. *)
Lemma inv_step_multi owner s args : inv_step owner s ("MULTI" :: args) = do_multi s args.
Proof. reflexivity. Qed.
Lemma inv_step_exec owner s args : inv_step owner s ("EXEC" :: args) = do_exec s args.
Proof. reflexivity. Qed.
Lemma inv_step_xadd owner s args : inv_step owner s ("XADD" :: args) = do_xadd s args.
Proof. reflexivity. Qed.
Lemma inv_step_hset owner s args : inv_step owner s ("HSET" :: args) = do_hset owner s args.
Proof. reflexivity. Qed.

(** One publication runs from any state outside a transaction in which its ids are new. *)
Lemma run_publication owner s mid payload sid :
  iv_in_multi s = false → fullmatch _HEX64 mid = true → _stream_id sid false = Ok sid →
  iv_stream_receipts s !! sid = None → iv_receipt_fields s !! blower mid = None →
  ∃ s', foldR (inv_step owner) s (publication owner (mid, payload, sid)) = Ok s' ∧
    iv_in_multi s' = false ∧
    iv_stream_receipts s' = <[sid := sha256_hex payload]> (iv_stream_receipts s) ∧
    iv_receipt_fields s' = <[blower mid := (sha256_hex payload, sid)]> (iv_receipt_fields s) ∧
    iv_publication_ids s' = iv_publication_ids s ++ [blower mid].
Proof.
  intros Hm Hmid Hsid Hns Hnf.
  assert (Hma : isascii mid = true).
  { eapply fullmatch_chars; [|exact Hmid]. by vm_compute. }
  unfold publication. cbn [foldR].
  rewrite inv_step_multi. unfold do_multi, fail_if. rewrite Hm, raise_if_pass, bind_ret by done.
  rewrite inv_step_xadd. unfold do_xadd, fail_if. cbn [iv_stream_receipts iv_in_multi iv_counts].
  rewrite !String.eqb_refl, raise_if_pass by done. rewrite Hsid, bind_ret, Hns.
  rewrite raise_if_pass, bind_ret by done.
  rewrite inv_step_hset. unfold do_hset, fail_if.
  cbn [iv_in_multi iv_tx_streams iv_xadd_receipts iv_receipt_fields iv_counts].
  rewrite raise_if_pass by done. rewrite String.eqb_refl, raise_if_pass by done.
  rewrite (proj2 (ascii_Ok mid _ mid)), bind_ret, Hmid, raise_if_pass by done.
  rewrite parse_receipt_pair, bind_ret by done.
  rewrite raise_if_pass by (rewrite !bool_decide_true by set_solver; done).
  rewrite Hnf, raise_if_pass, bind_ret by done.
  rewrite inv_step_exec. unfold do_exec, fail_if. cbn [iv_in_multi iv_tx_hset iv_tx_xadd orb].
  rewrite !raise_if_pass, bind_ret by done.
  eexists. split; [done|]. split_and!; done.
Qed.

(** A whole log of publications with fresh ids. *)
Lemma run_publications owner l s :
  iv_in_multi s = false → forallb publication_ok l = true →
  NoDup (pub_sid <$> l) → NoDup (blower ∘ pub_mid <$> l) →
  (∀ p, p ∈ l → iv_stream_receipts s !! pub_sid p = None ∧
                iv_receipt_fields s !! blower (pub_mid p) = None) →
  ∃ s', foldR (inv_step owner) s (publications owner l) = Ok s' ∧ iv_in_multi s' = false ∧
    iv_publication_ids s' = iv_publication_ids s ++ (blower ∘ pub_mid <$> l).
Proof.
  revert s; induction l as [|[[mid payload] sid] l IH]; intros s Hm Hok Hns Hnm Hfresh.
  { exists s. split_and!; [done..|]. cbn. by rewrite app_nil_r. }
  cbn [forallb publication_ok] in Hok. bool_inv. cbn [fmap list_fmap] in Hns, Hnm.
  apply NoDup_cons in Hns as [Hs1 Hns]. apply NoDup_cons in Hnm as [Hm1 Hnm].
  destruct (Hfresh (mid, payload, sid) ltac:(by left)) as [Hf1 Hf2].
  destruct (run_publication owner s mid payload sid) as (s1 & Hr & Hm' & Hst & Hrf & Hids); [done..|].
  destruct (IH s1) as (s2 & Hr2 & Hm2 & Hids2); [done..| |].
  - intros q Hq. destruct (Hfresh q ltac:(by right)) as [Hq1 Hq2].
    rewrite Hst, Hrf, !lookup_insert_None. split_and!; [done| |done|].
    + intros Heq. apply Hs1. unfold pub_sid at 1. cbn [snd]. rewrite Heq. by apply list_elem_of_fmap_2.
    + intros Heq. apply Hm1. unfold pub_mid at 1, compose. cbn [fst]. rewrite Heq.
      by apply (list_elem_of_fmap_2 (blower ∘ pub_mid) l q).
  - exists s2. split_and!; [|done|].
    + change (publications owner ((mid, payload, sid) :: l))
        with (publication owner (mid, payload, sid) ++ publications owner l).
      rewrite foldR_app, Hr. exact Hr2.
    + rewrite Hids2, Hids, <- app_assoc. done.
Qed.

Lemma make_report_Ok data r s : ∃ rep, make_report data r s = Ok rep.
Proof. unfold make_report. rewrite json_dumps_strings. by eexists. Qed.

Lemma hex64_len mid : fullmatch _HEX64 mid = true → slen mid = 64.
Proof. intros [H _]%fullmatch_rep. unfold slen. by rewrite H. Qed.

Lemma publication_commands owner p :
  fullmatch _OWNER owner = true → publication_ok p = true →
  forallb command_ok (publication owner p) = true.
Proof.
  destruct p as [[mid payload] sid]. unfold publication_ok. intros Ho Hp. bool_inv.
  apply hex64_len in H. destruct (stream_id_plain _ H1) as (_ & _ & Hl).
  destruct (sha256_hex_ok payload) as [Hd _].
  assert (slen owner = 32) by (apply fullmatch_rep in Ho as [Ho _]; unfold slen; by rewrite Ho).
  unfold publication, command_ok, MAX_TOKEN_BYTES, MAX_ARRAY_LENGTH in *.
  cbn [forallb length]. unfold _key, pair_json, quote. slen_norm.
  replace (slen (sha256_hex payload)) with 64 by (unfold slen; by rewrite Hd).
  rewrite !andb_true_iff, !Z.leb_le. split_and!; try done; lia.
Qed.

Lemma publications_commands owner l :
  fullmatch _OWNER owner = true → forallb publication_ok l = true →
  forallb command_ok (publications owner l) = true.
Proof.
  intros Ho. induction l as [|p l IH]; [done|]. cbn [forallb]. intros Hl. bool_inv.
  change (publications owner (p :: l)) with (publication owner p ++ publications owner l).
  rewrite forallb_app, IH by done. by rewrite publication_commands.
Qed.

Lemma publications_length owner l : length (publications owner l) = (4 * length l)%nat.
Proof.
  induction l as [|[[mid payload] sid] l IH]; [done|].
  change (publications owner ((mid, payload, sid) :: l))
    with (publication owner (mid, payload, sid) ++ publications owner l).
  rewrite length_app, IH. cbn. lia.
Qed.

Lemma occurrences_app n a b : occurrences n (a ++ b) = occurrences n a + occurrences n b.
Proof. unfold occurrences. by rewrite fmap_app, zsum_app. Qed.

Lemma publications_occurrences owner l n :
  n ∈ tracked.*2 → occurrences n (publications owner l) = Z.of_nat (length l).
Proof.
  intros Hn. induction l as [|[[mid payload] sid] l IH]; [done|].
  change (publications owner ((mid, payload, sid) :: l))
    with (publication owner (mid, payload, sid) ++ publications owner l).
  rewrite occurrences_app, IH. cbn [length].
  replace (occurrences n _) with 1; [lia|]. cbn in Hn.
  repeat (apply elem_of_cons in Hn as [->|Hn]; [reflexivity|]). by apply elem_of_nil in Hn.
Qed.

(** ** ACL files *)
(** The user a non-empty ACL line defines. *)
Definition line_user (l : string) : result string :=
  match acl_line_user l with Some u => Ok u | None => _fail "ACL_INPUT_INVALID" end.

Lemma acl_fold lines acc found :
  foldR acl_check acc lines = Ok found →
  ∃ users, found = acc ++ users ∧ mapR line_user lines = Ok users.
Proof.
  revert acc; induction lines as [|l lines IH]; intros acc H; cbn [foldR] in H.
  - ok_inv H. exists []. by rewrite app_nil_r.
  - ok_inv H. unfold acl_check in Hok. destruct (acl_line_user l) as [u|] eqn:E; [|discriminate Hok].
    case_bool_decide; [|discriminate Hok]. ok_inv Hok.
    apply IH in H as (users & -> & Hm). exists (u :: users). rewrite <- app_assoc. split; [done|].
    cbn [mapR]. replace (line_user l) with (Ok u : result string) by (unfold line_user; by rewrite E).
    by rewrite bind_ret, Hm.
Qed.

Lemma same_set_perm (a b : list string) :
  NoDup b → same_set a b = true → length a = length b → a ≡ₚ b.
Proof.
  intros Hb Hs Hl. rewrite same_set_true in Hs. symmetry.
  apply submseteq_length_Permutation; [|lia]. apply NoDup_submseteq; [done|]. intros x. by rewrite Hs.
Qed.

Lemma mapR_ascii lines l : mapR (λ x, _ascii x "ACL_INPUT_INVALID") lines = Ok l → l = lines.
Proof.
  rewrite mapR_Ok. induction 1 as [|x y lines l [-> _]%ascii_Ok _ IH]; [done|]. by rewrite IH.
Qed.

Lemma expected_users_nodup : NoDup expected_users.
Proof. by_decide. Qed.

Lemma candidate_acl_Ok original owner out :
  candidate_acl (VBytes original) owner = Ok out →
  ∃ o acl ending rest users,
    _owner owner = Ok o ∧ ending ∈ [CRLF; String "010" EmptyString] ∧
    original = "user default off" +:+ ending +:+ rest ∧
    replay_default_acl owner = Ok acl ∧ out = acl +:+ ending +:+ rest ∧
    mapR (λ l, _ascii l "ACL_INPUT_INVALID")
      (filter (λ l, negb (String.eqb l EmptyString)) (bsplitlines rest))
      = Ok (filter (λ l, negb (String.eqb l EmptyString)) (bsplitlines rest)) ∧
    mapR line_user (filter (λ l, negb (String.eqb l EmptyString)) (bsplitlines rest)) = Ok users ∧
    users ≡ₚ expected_users.
Proof.
  unfold candidate_acl, fail_if. intros H. ok_inv H.
  destruct (split_once "010" original) as [[h t]|] eqn:E; [|by cbn in *].
  apply split_once_app in E. apply ascii_Ok in Hok1 as [-> _]. bool_inv.
  apply mapR_ascii in Hok2 as Hd. subst a2. apply acl_fold in Hok4 as (users & -> & Hu).
  match goal with H : Nat.eqb _ _ = true |- _ => apply Nat.eqb_eq in H; rename H into Hlen end.
  exists a, a7, (if endswith (String "013" EmptyString) h then CRLF else String "010" EmptyString), t, users.
  split_and!; try done.
  - destruct (endswith _ h); set_solver.
  - rewrite E. destruct (endswith (String "013" EmptyString) h) eqn:Ee.
    + apply endswith_split in Ee. rewrite Ee. cbn [String.length].
      match goal with H : stake _ h = _ |- _ => rewrite H end. by rewrite <- app_assoc_str.
    + match goal with H : h = _ |- _ => rewrite H end. done.
  - by apply same_set_perm; [apply expected_users_nodup|..].
Qed.

Lemma replay_acl_line owner o acl :
  _owner owner = Ok o → replay_default_acl owner = Ok acl →
  free_of "010" acl = true ∧ free_of "000" acl = true ∧ isascii acl = true ∧
  endswith (String "013" EmptyString) acl = false ∧ acl ≠ "user default off".
Proof.
  intros Ho. unfold replay_default_acl. rewrite Ho, bind_ret. intros <-%Ok_inj.
  destruct owner as [| | | |w| | | |]; try discriminate Ho.
  unfold _owner, fail_if in Ho. ok_inv Ho. bool_inv.
  assert (sall is_lower_hex o = true) as Hx by (by apply fullmatch_rep in Hok as []).
  assert (∀ p, (∀ c, is_lower_hex c = true → p c = true) → sall p o = true) as Hp.
  { intros p Hp. by eapply sall_impl. }
  assert (∀ c, Ascii.eqb c "f" = false → is_lower_hex c = false → free_of c o = true) as Hf.
  { intros c _ Hc. apply Hp. intros d Hd. apply negb_true_iff, not_true_iff_false.
    intros ->%Ascii.eqb_eq. congruence. }
  unfold _key, free_of, isascii. rewrite !sall_app.
  fold (free_of "010" o) (free_of "000" o). rewrite !Hf by done.
  rewrite (Hp is_ascii7) by (intros [[] [] [] [] [] [] [] []]; done).
  split_and!; try done.
  rewrite !app_assoc_str. apply not_true_iff_false. intros Hend%endswith_split.
  apply (f_equal (sall (λ c, negb (Ascii.eqb c "013")))) in Hend. rewrite (sall_app _ (stake _ _)) in Hend.
  cbn [sall] in Hend. rewrite andb_false_r in Hend. rewrite !sall_app in Hend.
  fold (free_of "013" o) in Hend. rewrite (Hf "013"%char) in Hend by done. discriminate Hend.
Qed.

Lemma fail_if_either {B} b code (f : unit → result B) :
  f tt = _fail code → (fail_if b code ≫= f) = _fail code.
Proof. by destruct b. Qed.

(** A replay line is no input: its first line is not the expected one. *)
Lemma candidate_acl_replayed owner o acl ending rest :
  _owner owner = Ok o → replay_default_acl owner = Ok acl → ending ∈ [CRLF; String "010" EmptyString] →
  mapR (λ l, _ascii l "ACL_INPUT_INVALID")
    (filter (λ l, negb (String.eqb l EmptyString)) (bsplitlines rest))
    = Ok (filter (λ l, negb (String.eqb l EmptyString)) (bsplitlines rest)) →
  candidate_acl (VBytes (acl +:+ ending +:+ rest)) owner = _fail "ACL_INPUT_INVALID".
Proof.
  intros Ho Ha He Hd. destruct (replay_acl_line _ _ _ Ho Ha) as (Hf & _ & Hasc & Hcr & Hne).
  apply String.eqb_neq in Hne.
  assert (Hsp : ∃ h, split_once "010" (acl +:+ ending +:+ rest) = Some (h, rest) ∧
    (if endswith (String "013" EmptyString) h then stake (String.length h - 1) h else h) = acl).
  { apply elem_of_cons in He as [->|He]; [|apply list_elem_of_singleton in He as ->].
    - exists (acl +:+ String "013" EmptyString).
      change (CRLF +:+ rest) with (String "013" EmptyString +:+ String "010" rest).
      rewrite app_assoc_str, split_once_free, endswith_app.
      + split; [done|]. rewrite app_length_str. cbn [String.length].
        rewrite Nat.add_sub. apply stake_app.
      + unfold free_of in *. by rewrite sall_app, Hf.
    - exists acl. change (String "010" EmptyString +:+ rest) with (String "010" rest).
      rewrite split_once_free, Hcr by done. done. }
  destruct Hsp as (h & Hsp & Hfirst).
  unfold candidate_acl. rewrite Ho, bind_ret. apply fail_if_either. cbn zeta.
  rewrite Hsp, Hfirst. rewrite (proj2 (ascii_Ok acl _ acl)), bind_ret by done.
  rewrite Hd, bind_ret. unfold fail_if. rewrite Hne. done.
Qed.

(** ** Properties *)

(** C30. Round trip of the bounded RESP parser: a log written by the RESP
    writer from commands within the reader's limits (1 to 32 tokens of at most
    128 KiB, at most [m] commands) is read back as exactly those commands, and
    reading stops at the end of the bytes with the exact command count. *)
Theorem resp_log_roundtrip (cs : list (list string)) (m : Z) :
  forallb command_ok cs = true → Z.of_nat (length cs) <= m →
  reads (Reader (encode_log cs) 0 m) cs (Reader EmptyString (Z.of_nat (length cs)) m).
Proof. intros Hok Hm. by apply (reads_encode cs 0 m). Qed.

Theorem resp_log_roundtrip_witness :
  let cs := [["SELECT"; "0"]; ["XADD"; TOPIC; "1-0"; "data"; "{}"]] in
  forallb command_ok cs = true ∧ Z.of_nat (length cs) <= MAX_COMMANDS ∧
  reads (Reader (encode_log cs) 0 MAX_COMMANDS) cs (Reader EmptyString (Z.of_nat (length cs)) MAX_COMMANDS).
Proof.
  split_and!; [vm_compute; reflexivity|vm_compute; discriminate|].
  apply resp_log_roundtrip; [vm_compute; reflexivity|vm_compute; discriminate].
Defined.

(** Termination of the inventory loop: on every byte string, every state
    and every command limit, the number of bytes left plus one is enough fuel,
    so the parser always returns a verdict (a report or a stable error code). *)
Theorem inventory_terminates (owner data : string) (n m : Z) (s : inv) :
  ∃ verdict, inventory_loop owner (S (String.length data)) (Reader data n m) s = Some verdict.
Proof.
  destruct (inventory_loop _ _ _ _) as [v|] eqn:E; [by exists v|].
  by apply inventory_loop_total in E; [|cbn; lia].
Qed.

(** C11. Integrity of an accepted AOF.  Whatever the bytes are, if the
    inventory accepts them then they are a sequence of complete RESP commands
    (nothing is left over) in which no stream id is appended twice, every
    ledger write ([HSET]) names the payload digest and stream id of an [XADD]
    made earlier in the same [MULTI]/[EXEC] transaction, transactions are
    balanced, and the report counts exactly those commands. *)
Theorem inventory_accepts_only_backed_ledgers (data : string) (owner : value) (profile : string) (rep : aof_report) :
  inventory_bytes (VBytes data) owner profile = Ok rep →
  ∃ cs r maxc, reads (Reader data 0 maxc) cs r ∧ rd_rest r = EmptyString ∧
    ledger_backed cs ∧ NoDup (xadd_ids cs) ∧
    ar_command_count rep = Z.of_nat (length cs) ∧
    ar_xadd_count rep = occurrences "XADD" cs ∧
    ar_receipt_count rep = occurrences "HSET" cs ∧
    occurrences "MULTI" cs = occurrences "EXEC" cs ∧
    ar_transactions_balanced rep = true ∧
    ar_matched_receipt_count rep = ar_ledger_fields rep.
Proof.
  intros (o & maxb & maxc & cs & r & s & -> & _ & _ & _ & Hr & Hn & Hc & Hf & Hm & Hrep)%inventory_bytes_Ok.
  apply inv_ok_run in Hf as Hs. destruct (ok_ids _ _ Hs) as [Hnd _]. destruct (ok_pub _ _ Hs) as [Hpn Hpd].
  pose proof (ok_balance _ _ Hs) as Hb. rewrite Hm in Hb. cbn in Hb.
  unfold make_report in Hrep. ok_inv Hrep.
  exists cs, r, maxc.
  cbn [ar_command_count ar_xadd_count ar_receipt_count ar_transactions_balanced ar_matched_receipt_count ar_ledger_fields].
  split_and!; try done.
  - by eapply ok_ledger.
  - apply (ok_counts _ _ Hs). by_decide.
  - apply (ok_counts _ _ Hs). by_decide.
  - rewrite <- (ok_counts _ _ Hs "multi" "MULTI"), <- (ok_counts _ _ Hs "exec" "EXEC") by by_decide. lia.
  - apply Z.eqb_eq. lia.
  - f_equal. rewrite <- size_dom, <- Hpd. by apply size_list_to_set.
Qed.

(** The intended writer is accepted.  Take any non-empty list of
    publications (message id, payload, stream id) with valid, pairwise
    distinct message ids and pairwise distinct stream ids, and write for each
    the transaction MULTI / XADD / HSET / EXEC; if the log fits the profile's
    byte and command limits then the inventory accepts it, counts every
    publication once as append, receipt and ledger field, and names the
    first and the last message id in publication order. *)
Theorem publication_log_accepted (owner profile : string) (l : list (string * string * string)) (maxb maxc : Z) :
  let log := encode_log (publications owner l) in
  let n := Z.of_nat (length l) in
  fullmatch _OWNER owner = true → l ≠ [] → forallb publication_ok l = true →
  NoDup (pub_sid <$> l) → NoDup (blower ∘ pub_mid <$> l) →
  dlookup profile FORENSIC_AOF_PROFILES = Some (maxb, maxc) →
  slen log <= maxb → 4 * n <= maxc →
  ∃ rep, inventory_bytes (VBytes log) (VStr owner) profile = Ok rep ∧
    ar_command_count rep = 4 * n ∧ ar_xadd_count rep = n ∧ ar_receipt_count rep = n ∧
    ar_ledger_fields rep = n ∧ ar_matched_receipt_count rep = n ∧
    ar_first_publication_message_id rep = blower ∘ pub_mid <$> head l ∧
    ar_last_publication_message_id rep = blower ∘ pub_mid <$> last l ∧
    ar_transactions_balanced rep = true.
Proof.
  intros log n Ho Hne Hok Hns Hnm Hp Hb Hc.
  destruct (run_publications owner l inv0) as (s & Hrun & Hm & Hids); [done..|].
  pose proof (inv_ok_run _ _ _ Hrun) as Hs.
  assert (Hcnt : ∀ k m, (k, m) ∈ tracked → count k (iv_counts s) = n).
  { intros k m Hk. rewrite (ok_counts _ _ Hs k m Hk). apply publications_occurrences.
    by apply (list_elem_of_fmap_2 snd _ (k, m)). }
  destruct (ok_pub _ _ Hs) as [Hpn Hpd]. cbn in Hids.
  set (r := Reader EmptyString (Z.of_nat (length (publications owner l))) maxc).
  assert (Hloop : inventory_loop owner (S (String.length log)) (Reader log 0 maxc) inv0 = Some (Ok (r, s))).
  { eapply inventory_loop_of_reads; [|exact Hrun|cbn; lia].
    apply reads_encode; [by apply publications_commands|]. rewrite publications_length. lia. }
  destruct (make_report_Ok log r s) as [rep Hrep]. exists rep.
  unfold inventory_bytes, _profile_limits, _owner, fail_if. rewrite Hp, bind_ret, Ho.
  cbn [negb]. rewrite (raise_if_pass false), bind_ret, raise_if_pass by (done || lia). rewrite Hloop, Hm, raise_if_pass, raise_if_pass by
    (done || destruct l as [|[[??]?]?]; done).
  split; [exact Hrep|]. unfold make_report in Hrep. ok_inv Hrep. cbn -[length].
  rewrite publications_length, (Hcnt "xadd" "XADD"), (Hcnt "hset" "HSET"),
    (Hcnt "multi" "MULTI"), (Hcnt "exec" "EXEC"), Hids by by_decide.
  rewrite length_fmap, Z.eqb_refl, <- size_dom, <- Hpd, (size_list_to_set _ Hpn), Hids, length_fmap.
  rewrite fmap_last. split_and!; try done; [lia|by destruct l].
Qed.

(** The replay ACL edits exactly one line.  When [candidate_acl] accepts
    an ACL file, the file is the line "user default off", an LF or CRLF
    ending, and a remainder whose non-empty lines define each of the three
    expected users exactly once; the result is the restricted replay line with
    the same ending followed by the same remainder, byte for byte.  The result
    is no valid input itself: a second application fails. *)
Theorem candidate_acl_replaces_first_line (original : string) (owner : value) (out : string) :
  candidate_acl (VBytes original) owner = Ok out →
  ∃ acl ending rest users,
    ending ∈ [CRLF; String "010" EmptyString] ∧
    original = "user default off" +:+ ending +:+ rest ∧
    replay_default_acl owner = Ok acl ∧ out = acl +:+ ending +:+ rest ∧
    mapR line_user (filter (λ l, negb (String.eqb l EmptyString)) (bsplitlines rest)) = Ok users ∧
    users ≡ₚ expected_users ∧
    candidate_acl (VBytes out) owner = _fail "ACL_INPUT_INVALID".
Proof.
  intros H. destruct (candidate_acl_Ok _ _ _ H) as (o & acl & ending & rest & users & Hown & He & Ho & Ha & Hout & Hd & Hu & Hp).
  exists acl, ending, rest, users. split_and!; try done. rewrite Hout.
  by eapply candidate_acl_replayed.
Qed.

(** ** Witnesses *)
(** Two publications of a small log. *)
Definition sample_publications : list (string * string * string) :=
  [(sconcat (replicate 64 "a"), "{}", "1-0"); (sconcat (replicate 64 "B"), "[1]", "1-1")].
Definition sample_log : string := encode_log (publications OWNER sample_publications).

Theorem inventory_accepts_only_backed_ledgers_witness :
  ∃ rep, inventory_bytes (VBytes sample_log) (VStr OWNER) "standard" = Ok rep ∧
  ∃ cs r maxc, reads (Reader sample_log 0 maxc) cs r ∧ rd_rest r = EmptyString ∧
    ledger_backed cs ∧ NoDup (xadd_ids cs) ∧
    ar_command_count rep = Z.of_nat (length cs) ∧
    ar_xadd_count rep = occurrences "XADD" cs ∧
    ar_receipt_count rep = occurrences "HSET" cs ∧
    occurrences "MULTI" cs = occurrences "EXEC" cs ∧
    ar_transactions_balanced rep = true ∧
    ar_matched_receipt_count rep = ar_ledger_fields rep.
Proof.
  destruct (inventory_bytes (VBytes sample_log) (VStr OWNER) "standard") as [rep|e] eqn:E.
  - exists rep. split; [reflexivity|].
    exact (inventory_accepts_only_backed_ledgers sample_log (VStr OWNER) "standard" rep E).
  - exfalso. vm_compute in E. discriminate E.
Defined.

Theorem publication_log_accepted_witness :
  ∃ rep, inventory_bytes (VBytes sample_log) (VStr OWNER) "standard" = Ok rep ∧
    ar_command_count rep = 8 ∧ ar_xadd_count rep = 2 ∧ ar_receipt_count rep = 2 ∧
    ar_ledger_fields rep = 2 ∧ ar_matched_receipt_count rep = 2 ∧
    ar_first_publication_message_id rep = Some (sconcat (replicate 64 "a")) ∧
    ar_last_publication_message_id rep = Some (sconcat (replicate 64 "b")) ∧
    ar_transactions_balanced rep = true.
Proof.
  refine (publication_log_accepted OWNER "standard" sample_publications MAX_AOF_BYTES MAX_COMMANDS
            _ _ _ _ _ _ _ _); [vm_compute; reflexivity|discriminate|vm_compute; reflexivity
    |by_decide|by_decide|reflexivity|vm_compute; discriminate|vm_compute; discriminate].
Defined.

Definition sample_acl : string :=
  join (String "010" EmptyString)
    ["user default off"; "user kairos_epoch_admin on >x"; "user kairos_epoch_producer on >y";
     "user kairos_epoch_consumer off"; EmptyString].

Theorem candidate_acl_replaces_first_line_witness :
  ∃ out, candidate_acl (VBytes sample_acl) (VStr OWNER) = Ok out ∧
  ∃ acl ending rest users,
    ending ∈ [CRLF; String "010" EmptyString] ∧
    sample_acl = "user default off" +:+ ending +:+ rest ∧
    replay_default_acl (VStr OWNER) = Ok acl ∧ out = acl +:+ ending +:+ rest ∧
    mapR line_user (filter (λ l, negb (String.eqb l EmptyString)) (bsplitlines rest)) = Ok users ∧
    users ≡ₚ expected_users ∧
    candidate_acl (VBytes out) (VStr OWNER) = _fail "ACL_INPUT_INVALID".
Proof.
  destruct (candidate_acl (VBytes sample_acl) (VStr OWNER)) as [out|e] eqn:E.
  - exists out. split; [reflexivity|].
    exact (candidate_acl_replaces_first_line sample_acl (VStr OWNER) out E).
  - exfalso. vm_compute in E. discriminate E.
Defined.
