(* ===== verification/BuildkitGate.v ===== *)
(** * BuildKit resource gate: constants, parsers and verifiers
    ([scripts/buildkit_resource_gate.py], lines 25 to 715)

    The shell probes the gate sends into its own server are kept as the exact
    texts of the source; what comes back is read by the parsers below.  A
    parser returns a record where the source returns a dictionary with fixed
    keys; [view] objects decoded from Docker's JSON stay [value]s, so that a
    reply of the wrong shape raises what Python raises. *)

From S2P Require Import Prelude PyStr Regex Sha256 PyVal Json.

Local Open Scope string_scope.
Local Open Scope list_scope.
Local Open Scope Z_scope.
Local Open Scope regex_scope.

(** ** Constants *)
Definition BUILDKIT_IMAGE : string :=
  "moby/buildkit@sha256:60d1f642e29dc938bd6c109ba5500849fccf41921927c5339788b8227f57feb9".
Definition SCOPE : string := "kairos-buildkit-synthetic-resource-v1".
Definition OWNER_LABEL : string := "com.kairos.buildkit.owner".
Definition SCOPE_LABEL : string := "com.kairos.buildkit.scope".
Definition JOB_SHA : string := "601d8c07d52e101c8e16d73a752b5ab85560dc6b745590f0885a11a3399fb95a".
Definition MEMORY : Z := 1024 ^ 3.
Definition PIDS : Z := 128.
Definition CPU_QUOTA : Z := 100000.
Definition CPU_PERIOD : Z := 100000.
Definition WORK_SECONDS : Z := 160.
Definition CLEANUP_SECONDS : Z := 20.
Definition TOTAL_SECONDS : Z := WORK_SECONDS + CLEANUP_SECONDS.
Definition TREE_SECONDS : Z := 4.
Definition MAX_OUTPUT : Z := 256 * 1024.
Definition SOCKET : string := "unix:///run/user/1000/buildkit/buildkitd.sock".
Definition ROOT : string := "/tmp/kairos-buildkit-gate".
Definition TOKEN_PREFIX : string := "KAIROS_SYNTHETIC_BUILDKIT_SPIN_".
Definition PAYLOAD : string := "kairos-buildkit-synthetic-only" +:+ LF.
Definition SECURITY : list string :=
  ["seccomp=unconfined"; "apparmor=unconfined"; "systempaths=unconfined"].
Definition TMPFS : list (string * string) :=
  [("/home/user/.local/share/buildkit", "rw,exec,nosuid,nodev,size=512m,uid=1000,gid=1000,mode=0700");
   ("/run/user/1000", "rw,nosuid,nodev,size=16m,uid=1000,gid=1000,mode=0700");
   ("/tmp", "rw,nosuid,nodev,size=128m,uid=1000,gid=1000,mode=0700");
   ("/home/user/.local/tmp", "rw,nosuid,nodev,size=16m,uid=1000,gid=1000,mode=0700")].
Definition CONFIG : string := unlines
  [bt "root = `/home/user/.local/share/buildkit`";
   "insecure-entitlements = []";
   "[grpc]";
   bt "address = [`unix:///run/user/1000/buildkit/buildkitd.sock`]";
   "[worker.oci]";
   "enabled = true";
   "rootless = true";
   bt "snapshotter = `native`";
   bt "networkMode = `host`";
   "noProcessSandbox = false";
   "max-parallelism = 1";
   "gc = false";
   "[worker.containerd]";
   "enabled = false";
   "[cdi]";
   "disabled = true"].

(** [shlex.quote]: text of safe characters is left as it is. *)
Definition shell_safe (c : ascii) : bool := is_alnum c || is_any ["_"; "@"; "%"; "+"; "="; ":"; ","; "."; "/"; "-"]%char c.
Definition shlex_quote (s : string) : string :=
  if String.eqb s EmptyString then "''"
  else if sall shell_safe s then s
  else "'" +:+ join (bt "'`'`'") (split_on "'" s) +:+ "'".

Definition BOOT : string :=
  "umask 077; printf '%s' " +:+ shlex_quote CONFIG
  +:+ " > /tmp/kairos-buildkitd.toml; exec rootlesskit buildkitd --config /tmp/kairos-buildkitd.toml".
Definition VIEW : string := "{{json .}}".

Definition gate_if (b : bool) (code : string) : result unit := raise_if b GateError code.
Definition gate_ifR (b : result bool) (code : string) : result unit := raise_ifR b GateError code.

(** ** Identities *)
Definition digest_image (v : value) : result string :=
  match v with
  | VStr s => _ ← gate_if (negb (fullmatch (RLit "sha256:" ⋅ HEX64) s)) "IMMUTABLE_DIGEST_REQUIRED"; Ok s
  | _ => raise GateError "IMMUTABLE_DIGEST_REQUIRED"
  end.

Definition digest (v : value) : result string :=
  match v with
  | VStr s => _ ← gate_if (negb (fullmatch HEX64 s)) "IMMUTABLE_DIGEST_REQUIRED"; Ok s
  | _ => raise GateError "IMMUTABLE_DIGEST_REQUIRED"
  end.

Definition image_reference (v : string) : result string :=
  _ ← gate_if (negb (String.eqb v BUILDKIT_IMAGE)) "PINNED_OFFICIAL_ROOTLESS_IMAGE_REQUIRED"; Ok v.

Definition owner_name (owner : string) : result string :=
  _ ← gate_if (negb (fullmatch HEX32 owner)) "EXACT_OWNER_REQUIRED";
  Ok ("kairos-buildkit-gate-" +:+ owner).

Definition create_arguments (owner image_id : string) : result (list string) :=
  name ← owner_name owner;
  let args :=
    ["create"; "--pull=never"; "--name"; name;
     "--label"; OWNER_LABEL +:+ "=" +:+ owner; "--label"; SCOPE_LABEL +:+ "=" +:+ SCOPE;
     "--network=none"; "--restart=no"; "--read-only"; "--user=1000:1000";
     "--memory=1g"; "--memory-swap=1g"; "--cpus=1"; "--pids-limit=128"] in
  let args := args ++ (o ← SECURITY; ["--security-opt"; o]) in
  let args := args ++ (t ← TMPFS; ["--tmpfs"; t.1 +:+ ":" +:+ t.2]) in
  image ← digest_image (VStr image_id);
  Ok (args ++ ["--entrypoint=/bin/sh"; image; "-c"; BOOT]).

(** ** The container Docker reports *)
Definition exact_host : dict :=
  [("Memory", VInt MEMORY); ("MemorySwap", VInt MEMORY); ("NanoCpus", VInt 1000000000);
   ("PidsLimit", VInt PIDS); ("ReadonlyRootfs", VBool true); ("Privileged", VBool false);
   ("NetworkMode", VStr "none")].

Definition vstrs (l : list string) : value := VList (VStr <$> l).
Definition vdict_of (l : list (string * string)) : value := VDict ((λ p, (p.1, VStr p.2)) <$> l).

(** [not (a == b)] of two computed values *)
Definition neqR (a : result value) (b : value) : result bool := x ← a; Ok (negb (py_eq x b)).
Definition truthyR (a : result value) : result bool := x ← a; Ok (py_truthy x).

Definition host_changed (host config view : value) : result bool :=
  truthyR (py_get "Binds" host) ||? truthyR (py_get "PortBindings" host)
  ||? truthyR (py_get "Devices" host) ||? truthyR (py_get "VolumesFrom" host)
  ||? truthyR (py_get "CapAdd" host) ||? truthyR (py_get "PidMode" host)
  ||? (m ← py_get "IpcMode" host; Ok (negb (py_eq m (VStr "private") || py_eq m (VStr EmptyString))))
  ||? neqR (r ← py_getd "RestartPolicy" (VDict []) host; py_get "Name" r) (VStr "no")
  ||? neqR (py_get "Tmpfs" host) (vdict_of TMPFS)
  ||? neqR (o ← py_get "SecurityOpt" host; l ← py_sorted (py_or o (VList [])); Ok (VList l))
        (vstrs (sort_str (take 2 SECURITY)))
  ||? neqR (py_get "MaskedPaths" host) (VList [])
  ||? neqR (py_get "ReadonlyPaths" host) (VList [])
  ||? neqR (py_get "User" config) (VStr "1000:1000")
  ||? neqR (py_get "Entrypoint" config) (vstrs ["/bin/sh"])
  ||? neqR (py_get "Cmd" config) (vstrs ["-c"; BOOT])
  ||? (mounts ← py_getd "Mounts" (VList []) view; items ← py_iter mounts;
       anyR (λ item, neqR (py_get "Type" item) (VStr "tmpfs")) items).

Definition verify_container (view : value) (owner image_id : string) (image_labels : value) : result string :=
  id ← py_get "Id" view;
  cid ← digest id;
  host ← (h ← py_get "HostConfig" view; Ok (py_or h (VDict [])));
  config ← (c ← py_get "Config" view; Ok (py_or c (VDict [])));
  expected_labels ← py_merge image_labels [(OWNER_LABEL, VStr owner); (SCOPE_LABEL, VStr SCOPE)];
  _ ← gate_ifR
        ((n ← py_get "Name" view; name ← owner_name owner; Ok (negb (py_eq n (VStr ("/" +:+ name)))))
         ||? neqR (py_get "Image" view) (VStr image_id)
         ||? neqR (py_get "Labels" config) expected_labels)
        "OWNED_CONTAINER_IDENTITY_CHANGED";
  _ ← gate_ifR
        (anyR (λ kv, x ← py_get kv.1 host;
                     if negb (bool_decide (py_type x = py_type kv.2)) then Ok true
                     else y ← py_item kv.1 host; Ok (negb (py_eq y kv.2))) exact_host)
        "SERVER_RESOURCE_OR_ISOLATION_CHANGED";
  _ ← gate_ifR (host_changed host config view) "SERVER_CAPABILITY_OR_MOUNT_CHANGED";
  settings ← py_getd "NetworkSettings" (VDict []) view;
  networks ← (n ← py_get "Networks" settings; Ok (py_or n (VDict [])));
  names ← py_set networks;
  _ ← gate_if (negb (forallb (λ n, py_eq n (VStr "none")) names)) "SERVER_NETWORK_CHANGED";
  Ok cid.

(** ** Kernel evidence *)
Record cgroup_view := Cgroup {
  cg_cpu_quota : Z; cg_cpu_period : Z; cg_memory_max : Z; cg_swap_max : Z; cg_pids_max : Z;
  cg_nr_throttled : Z; cg_usage_usec : Z; cg_namespace : string;
}.

Definition cgroup_ns_re : regex := RLit "cgroup:[" ⋅ RPlus (RChar is_digit) ⋅ RLit "]".

Definition parse_cgroup (text : string) : result cgroup_view :=
  let lines := splitlines (strip text) in
  let line i := nth i lines EmptyString in
  _ ← gate_if (negb (Nat.eqb (length lines) 7)
        || negb (fullmatch (RPlus (RChar is_digit) ⋅ RLit " " ⋅ RPlus (RChar is_digit)) (line 0%nat))
        || existsb (λ l, negb (isdecimal l)) (take 5 (drop 1 lines))) "KERNEL_CGROUP_PROOF_UNAVAILABLE";
  qp ← mapR int_of_digits (words (line 0%nat));
  ns ← mapR int_of_decimal (take 5 (drop 1 lines));
  match qp, ns with
  | [quota; period], [memory; swap; pids; throttled; usage] =>
      let namespace := line 6%nat in
      _ ← gate_if (negb ((quota =? CPU_QUOTA) && (period =? CPU_PERIOD) && (memory =? MEMORY)
                         && (swap =? 0) && (pids =? PIDS))
                   || negb (fullmatch cgroup_ns_re namespace)) "KERNEL_CGROUP_LIMIT_MISMATCH";
      Ok (Cgroup quota period memory swap pids throttled usage namespace)
  | _, _ => raise ValueError "unpack" (* unreachable: two words, five lines *)
  end.

Definition path_char (c : ascii) : bool := is_alnum c || is_any ["_"; "."; "/"; ":"; "-"]%char c.

Definition cgroup_path (v : string) : result string :=
  _ ← gate_if (negb (startswith "0::/" v) || sany (is_one "010") v || sany (is_one "013") v)
        "WORKER_CGROUP_BOUNDARY";
  let path := sdrop 3 v in
  _ ← gate_if (existsb (String.eqb "..") (split_on "/" path)
               || negb (fullmatch (RLit "/" ⋅ RStar (RChar path_char)) path)) "WORKER_CGROUP_BOUNDARY";
  let stripped := rstrip_c (is_one "/") path in
  Ok (if String.eqb stripped EmptyString then "/" else stripped).

Record worker := Worker { wk_pid : Z; wk_start_ticks : Z; wk_cgroup : string; wk_namespace : string }.

Definition parse_worker (parent : string) (found : list worker) (line : string) : result (list worker) :=
  let fields := split_on "|" line in
  let f i := nth i fields EmptyString in
  _ ← gate_ifR
        (Ok (negb (Nat.eqb (length fields) 4)) ||? Ok (negb (isdecimal (f 0%nat)))
         ||? Ok (negb (isdecimal (f 1%nat)))
         ||? (p ← int_of_decimal (f 0%nat); Ok (p <=? 1))
         ||? (t ← int_of_decimal (f 1%nat); Ok (t <=? 0))) "WORKER_IDENTITY_UNPROVEN";
  path ← cgroup_path (f 2%nat);
  _ ← gate_if (negb (fullmatch cgroup_ns_re (f 3%nat))
        || negb (String.eqb parent "/" || String.eqb path parent || startswith (parent +:+ "/") path))
        "WORKER_ESCAPED_BOUNDED_CGROUP";
  pid ← int_of_decimal (f 0%nat);
  ticks ← int_of_decimal (f 1%nat);
  Ok (found ++ [Worker pid ticks path (f 3%nat)]).

Definition parse_workers (text server_cgroup namespace : string) : result (list worker) :=
  parent ← cgroup_path server_cgroup;
  _ ← gate_if (negb (fullmatch cgroup_ns_re namespace)) "SERVER_CGROUP_NAMESPACE_UNPROVEN";
  found ← foldR (parse_worker parent) [] (splitlines (strip text));
  _ ← gate_if ((4 <? length found)%nat || negb (no_dup (wk_pid <$> found))) "WORKER_COUNT_BOUNDARY";
  Ok found.

Definition expected_modes : list (string * string) :=
  [("executor", "oci"); ("snapshotter", "native"); ("network", "host"); ("oci.process-mode", "sandbox")].

(** [str(v)] where it can match a pattern of hexadecimal digits: text is itself
    and an integer its numeral; the text of any other value holds a character
    outside the pattern or is shorter. *)
Definition str_hex (v : value) : option string :=
  match v with VStr s => Some s | VInt z => Some (dec_of_Z z) | _ => None end.

(** [platform.get("os") == "linux" and platform.get("architecture") == "amd64"] *)
Definition native_platform (row : value) : result bool :=
  (o ← py_get "os" row; Ok (py_eq o (VStr "linux")))
  &&? (a ← py_get "architecture" row; Ok (py_eq a (VStr "amd64"))).

Definition worker_info (text : string) : result value :=
  rows ← json_loads text;
  match rows with
  | VList [VDict w] =>
      let worker := VDict w in
      version ← (v ← py_get "buildkitVersion" worker; Ok (py_or v (VDict [])));
      labels ← (l ← py_get "labels" worker; Ok (py_or l (VDict [])));
      _ ← gate_ifR (anyR (λ kv, neqR (py_get ("org.mobyproject.buildkit.worker." +:+ kv.1) labels) (VStr kv.2))
                      expected_modes) "ACTUAL_WORKER_MODE_CHANGED";
      _ ← gate_ifR
            (neqR (py_get "package" version) (VStr "github.com/moby/buildkit")
             ||? neqR (py_get "version" version) (VStr "v0.32.2")
             ||? (r ← py_getd "revision" (VStr EmptyString) version;
                  Ok (negb (match str_hex r with Some t => fullmatch HEX40 t | None => false end)))
             ||? truthyR (py_get "cdiDevices" worker)) "ACTUAL_BUILDKIT_VERSION_OR_DEVICE_CHANGED";
      platforms ← (p ← py_getd "platforms" (VList []) worker; py_iter p);
      native ← anyR native_platform platforms;
      _ ← gate_if (negb native) "NATIVE_AMD64_WORKER_REQUIRED";
      Ok (VDict [("version", version); ("modes", vdict_of expected_modes)])
  | _ => raise GateError "EXACT_ONE_OCI_WORKER_REQUIRED"
  end.

Definition exited_worker_check (w : worker) : result string :=
  _ ← gate_if ((wk_pid w <=? 1) || (wk_start_ticks w <=? 0)) "OBSERVED_WORKER_NUMERIC_IDENTITY";
  let pid := dec_of_Z (wk_pid w) in
  Ok ("if [ -r /proc/" +:+ pid +:+ "/stat ]; then ticks=$(sed 's/.*) //' /proc/" +:+ pid
      +:+ bt "/stat | awk '{print $20}'); [ `$ticks` != `" +:+ dec_of_Z (wk_start_ticks w)
      +:+ bt "` ] || exit 92; fi").

Definition exited_worker_script (workers : list worker) : result string :=
  _ ← gate_if (bool_decide (workers = []) || (4 <? length workers)%nat) "OBSERVED_WORKERS_REQUIRED";
  checks ← mapR exited_worker_check workers;
  Ok (join "; " ("set -eu" :: checks)).

Definition CGROUP_PROBE : string := unlines
  ["set -eu";
   "cat /sys/fs/cgroup/cpu.max /sys/fs/cgroup/memory.max /sys/fs/cgroup/memory.swap.max /sys/fs/cgroup/pids.max";
   bt "awk '$1==`nr_throttled` {print $2}' /sys/fs/cgroup/cpu.stat";
   bt "awk '$1==`usage_usec` {print $2}' /sys/fs/cgroup/cpu.stat";
   "readlink /proc/1/ns/cgroup"].
Definition WORKER_PROBE : string := unlines
  ["set -eu";
   "token=$(cat /tmp/kairos-buildkit-gate/token)";
   "for file in /proc/[0-9]*/cmdline; do";
   bt "  [ -r `$file` ] || continue";
   bt "  args=$(tr '\000' ' ' < `$file`) || continue";
   bt "  case `$args` in *`$token`*)";
   "    pid=${file#/proc/}; pid=${pid%/cmdline}";
   "    ticks=$(sed 's/.*) //' /proc/$pid/stat | awk '{print $20}') || continue";
   "    cg=$(cat /proc/$pid/cgroup) || continue";
   "    ns=$(readlink /proc/$pid/ns/cgroup) || continue";
   bt "    printf '%s|%s|%s|%s\n' `$pid` `$ticks` `$cg` `$ns`";
   "  esac";
   "done"].

(** ** Effective mounts *)
Definition MOUNT_DATA : string := "/home/user/.local/share/buildkit".
Definition MAX_MOUNT_OUTPUT : Z := 8192.
Definition MOUNT_PATHS : list string := [MOUNT_DATA; "/home/user/.local/tmp"; "/run/user/1000"; "/tmp"].
Definition MOUNT_DOMAINS : list string := ["container"; "daemon"].
Definition MOUNT_PROBE : string := unlines
  ["set -eu";
   "export LC_ALL=C";
   "locate() {";
   "  count=0; daemon=0";
   "  for file in /proc/[0-9]*/comm; do";
   bt "    [ -r `$file` ] || continue";
   bt "    IFS= read -r comm < `$file` || continue";
   bt "    [ `$comm` = buildkitd ] || continue";
   "    daemon=${file#/proc/}; daemon=${daemon%/comm}; count=$((count+1))";
   "  done";
   bt "  [ `$count` = 1 ] || exit 91";
   bt "  case `$daemon` in *[!0-9]*|``) exit 91;; esac";
   "}";
   "locate";
   "expected_daemon=$daemon";
   "identity() {";
   "  ticks=$(sed 's/.*) //' /proc/$daemon/stat | awk '{print $20}')";
   "  ns=$(readlink /proc/$daemon/ns/mnt)";
   bt "  printf 'I|%s|%s|%s|%s\n' `$1` `$daemon` `$ticks` `$ns`";
   "}";
   "identity before";
   bt "printf 'C|%s\n' `$(readlink /proc/self/ns/mnt)`";
   "for domain in container daemon; do";
   bt "  if [ `$domain` = container ]; then info=/proc/self/mountinfo; prefix=; else info=/proc/$daemon/mountinfo; prefix=/proc/$daemon/root; fi";
   "  for path in /home/user/.local/share/buildkit /home/user/.local/tmp /run/user/1000 /tmp; do";
   bt "    row=$(awk -v target=`$path` '";
   "      $5==target {";
   bt "        n++; sep=0; for(i=7;i<=NF;i++)if($i==`-`){sep=i;break}";
   bt "        if(!sep || $(sep+1)!=`tmpfs`)exit 92";
   bt "        rw=nosuid=nodev=noexec=0; k=split($6,opts,`,`)";
   bt "        for(i=1;i<=k;i++){if(opts[i]==`rw`)rw=1;if(opts[i]==`nosuid`)nosuid=1;if(opts[i]==`nodev`)nodev=1;if(opts[i]==`noexec`)noexec=1}";
   bt "        printf `%s|%s|%s|tmpfs|%s|%s|%s|%s`,$1,$2,$3,rw,nosuid,nodev,noexec";
   "      }";
   "      END {if(n!=1)exit 93}";
   bt "    ' `$info`) || exit 94";
   bt "    [ ! -L `$prefix$path` ] && [ -d `$prefix$path` ] || exit 95";
   bt "    meta=$(stat -c '%a|%u|%g' `$prefix$path`)";
   bt "    printf 'M|%s|%s|%s|%s\n' `$domain` `$path` `$row` `$meta`";
   "  done";
   "done";
   "locate";
   bt "[ `$daemon` = `$expected_daemon` ] || exit 96";
   "identity after"].

Definition unsigned_re : regex := decimal_re 19.

Definition mount_unsigned (v : string) (maximum : Z) (positive : bool) : result Z :=
  _ ← gate_if (negb (fullmatch unsigned_re v)) "NUMERIC_PROJECTION_REQUIRED";
  number ← int_of_digits v;
  _ ← gate_if ((maximum <? number) || (positive && (number =? 0))) "NUMERIC_PROJECTION_BOUNDARY";
  Ok number.

Definition U32 : Z := 2 ^ 32 - 1.
Definition U64 : Z := 2 ^ 64 - 1.

Definition mount_ns_re : regex := RLit "mnt:[" ⋅ RPlus (RChar is_digit) ⋅ RLit "]".

(** [match[1]]: what the pattern holds between the brackets *)
Definition mount_namespace (v : string) : result Z :=
  _ ← gate_if (negb (fullmatch mount_ns_re v)) "MOUNT_NAMESPACE_REQUIRED";
  mount_unsigned (stake (String.length v - 6) (sdrop 5 v)) U64 true.

Record daemon_identity := Daemon { dm_pid : Z; dm_start_ticks : Z; dm_mount_namespace_inode : Z }.
#[global] Instance daemon_identity_eq_dec : EqDecision daemon_identity.
Proof. solve_decision. Defined.

Record mount_row := MountRow {
  mr_mount_id : Z; mr_parent_id : Z; mr_device_major : Z; mr_device_minor : Z;
  mr_noexec : bool; mr_mode : string; mr_uid : Z; mr_gid : Z;
}.
#[global] Instance mount_row_eq_dec : EqDecision mount_row.
Proof. solve_decision. Defined.

(** The three dictionaries of the loop, in insertion order. *)
Record mount_state := MountState {
  ms_identities : list (string * daemon_identity);
  ms_mounts : list ((string * string) * mount_row);
  ms_container_ns : option Z;
}.
Definition mount_state0 : mount_state := MountState [] [] None.

Definition parse_identity (fields : list string) : result daemon_identity :=
  let f i := nth i fields EmptyString in
  pid ← mount_unsigned (f 2%nat) U32 true;
  _ ← gate_if (pid <=? 1) "DAEMON_IDENTITY_REQUIRED";
  ticks ← mount_unsigned (f 3%nat) U64 true;
  ns ← mount_namespace (f 4%nat);
  Ok (Daemon pid ticks ns).

Definition parse_mount_row (fields : list string) : result mount_row :=
  let f i := nth i fields EmptyString in
  let device := split_on ":" (f 5%nat) in
  _ ← gate_if (negb (Nat.eqb (length device) 2)
        || negb (bool_decide (take 3 (drop 7 fields) = ["1"; "1"; "1"]))
        || negb (bool_decide (f 10%nat ∈ ["0"; "1"]))
        || negb (fullmatch (RRange 3 4 (RChar (in_range "0" "7"))) (f 11%nat)))
        "EFFECTIVE_MOUNT_POLICY_OR_MODE_CHANGED";
  mount_id ← mount_unsigned (f 3%nat) U32 true;
  parent_id ← mount_unsigned (f 4%nat) U32 true;
  major ← mount_unsigned (nth 0 device EmptyString) U32 false;
  minor ← mount_unsigned (nth 1 device EmptyString) U32 false;
  uid ← mount_unsigned (f 12%nat) U32 false;
  gid ← mount_unsigned (f 13%nat) U32 false;
  Ok (MountRow mount_id parent_id major minor (String.eqb (f 10%nat) "1") (f 11%nat) uid gid).

(** One line of the projection. *)
Definition mount_line (s : mount_state) (line : string) : result mount_state :=
  let fields := split_on "|" line in
  let f i := nth i fields EmptyString in
  let n := length fields in
  if String.eqb (f 0%nat) "I" && Nat.eqb n 5 then
    let when := f 1%nat in
    _ ← gate_if (negb (bool_decide (when ∈ ["before"; "after"])) || bool_decide (when ∈ (ms_identities s).*1))
          "DAEMON_IDENTITY_AMBIGUOUS";
    d ← parse_identity fields;
    Ok (MountState (ms_identities s ++ [(when, d)]) (ms_mounts s) (ms_container_ns s))
  else if String.eqb (f 0%nat) "C" && Nat.eqb n 2 && bool_decide (ms_container_ns s = None) then
    ns ← mount_namespace (f 1%nat);
    Ok (MountState (ms_identities s) (ms_mounts s) (Some ns))
  else if String.eqb (f 0%nat) "M" && Nat.eqb n 14 then
    let key := (f 1%nat, f 2%nat) in
    _ ← gate_if (negb (bool_decide (f 1%nat ∈ MOUNT_DOMAINS)) || negb (bool_decide (f 2%nat ∈ MOUNT_PATHS))
                 || bool_decide (key ∈ (ms_mounts s).*1) || negb (String.eqb (f 6%nat) "tmpfs"))
          "FIXED_TMPFS_SELECTOR_REQUIRED";
    row ← parse_mount_row fields;
    Ok (MountState (ms_identities s) (ms_mounts s ++ [(key, row)]) (ms_container_ns s))
  else raise GateError "FIXED_PROJECTION_REQUIRED".

Fixpoint kfind {K A} `{EqDecision K} (k : K) (l : list (K * A)) : option A :=
  match l with
  | [] => None
  | (k', a) :: l => if bool_decide (k = k') then Some a else kfind k l
  end.

Definition mount_keys : list (string * string) := d ← MOUNT_DOMAINS; p ← MOUNT_PATHS; [(d, p)].

(** The effective policy: private, owned by the daemon's user, executable only for the snapshot data. *)
Definition row_private (key : string * string) (r : mount_row) : bool :=
  String.eqb (mr_mode r) "700" && ((mr_uid r =? 1000) && (mr_gid r =? 1000))
  && Bool.eqb (mr_noexec r) (negb (String.eqb key.2 MOUNT_DATA)).

Record mount_proof := MountProof {
  mp_daemon : daemon_identity;
  mp_container_ns : Z;
  mp_mounts : list ((string * string) * mount_row);   (* the two nested dictionaries, in order *)
}.

Definition parse_mounts (text : string) : result mount_proof :=
  _ ← gate_if (MAX_MOUNT_OUTPUT <? slen text) "PROBE_OUTPUT_BOUNDARY";
  let lines := splitlines text in
  _ ← gate_if (negb (Nat.eqb (length lines) 11)) "EXACT_PROJECTION_ROWS_REQUIRED";
  s ← foldR mount_line mount_state0 lines;
  match kfind "before" (ms_identities s), kfind "after" (ms_identities s), ms_container_ns s with
  | Some before, Some after, Some ns =>
      _ ← gate_if (negb (bool_decide (before = after)) || negb (same_set (ms_mounts s).*1 mount_keys))
            "STABLE_EXACT_MOUNT_PROOF_REQUIRED";
      _ ← gate_if (negb (forallb (λ kr, row_private kr.1 kr.2) (ms_mounts s)))
            "EFFECTIVE_PRIVATE_TMPFS_POLICY_CHANGED";
      rows ← mapR (λ k, match kfind k (ms_mounts s) with
                        | Some r => Ok (k, r)
                        | None => raise KeyError "mounts" (* unreachable: the keys are the fixed set *)
                        end) mount_keys;
      Ok (MountProof before ns rows)
  | _, _, _ => raise GateError "STABLE_EXACT_MOUNT_PROOF_REQUIRED"
  end.

(** ** The synthetic build *)
Definition build_cases : list string := ["success"; "fault"; "cancel"; "inspect-before"; "inspect-after"].

Definition build_arguments (case : string) : result (list string) :=
  _ ← gate_if (negb (bool_decide (case ∈ build_cases))) "FIXED_SYNTHETIC_CASE_REQUIRED";
  let filename := if startswith "inspect-" case then "inspect" else case in
  Ok ["buildctl"; "--addr"; SOCKET; "build"; "--progress=plain"; "--frontend"; "dockerfile.v0";
      "--local"; "context=" +:+ ROOT +:+ "/context"; "--local"; "dockerfile=" +:+ ROOT +:+ "/context";
      "--opt"; "filename=Dockerfile." +:+ filename; "--opt"; "platform=linux/amd64"; "--no-cache";
      "--output"; "type=local,dest=" +:+ ROOT +:+ "/result-" +:+ case].

Definition rootfs_lines : string :=
  unlines ["FROM scratch"; "COPY --chmod=0755 skeleton/ /";
           "COPY --chmod=0555 bin/busybox /bin/busybox";
           "COPY --chmod=0555 lib/ld-musl-x86_64.so.1 /lib/ld-musl-x86_64.so.1";
           "COPY --chmod=0444 payload /result"].

Definition fixture_cases (owner : string) : result (list (string * string)) :=
  run ← json_dumps default_style
          (vstrs ["/bin/busybox"; "sh"; "-c";
                  TOKEN_PREFIX +:+ owner +:+ "=1; (while :; do :; done) & wait"]);
  Ok [("inspect", rootfs_lines);
      ("success", rootfs_lines +:+ bt "RUN [`/bin/busybox`, `sh`, `-c`, `test -s /result`]" +:+ LF);
      ("fault", rootfs_lines
         +:+ bt "RUN [`/bin/busybox`, `sh`, `-c`, `echo KAIROS_SYNTHETIC_FAULT37; exit 37`]" +:+ LF);
      ("cancel", rootfs_lines +:+ "RUN " +:+ run +:+ LF)].

Definition fixture_script (owner : string) : result string :=
  _ ← owner_name owner;
  cases ← fixture_cases owner;
  let shell :=
    "set -eu; umask 077; mkdir " +:+ ROOT +:+ "; mkdir " +:+ ROOT +:+ "/context " +:+ ROOT
    +:+ "/context/bin " +:+ ROOT +:+ "/context/lib " +:+ ROOT +:+ "/context/skeleton " +:+ ROOT
    +:+ "/context/skeleton/bin " +:+ ROOT +:+ "/context/skeleton/lib " +:+ ROOT +:+ "/empty-config; "
    +:+ "chmod 0755 " +:+ ROOT +:+ "/context/skeleton " +:+ ROOT +:+ "/context/skeleton/bin " +:+ ROOT
    +:+ "/context/skeleton/lib; "
    +:+ "test -f /bin/busybox; test -f /lib/ld-musl-x86_64.so.1; cp /bin/busybox " +:+ ROOT
    +:+ "/context/bin/busybox; cp /lib/ld-musl-x86_64.so.1 " +:+ ROOT +:+ "/context/lib/ld-musl-x86_64.so.1; "
    +:+ "printf '%s' '" +:+ PAYLOAD +:+ "' > " +:+ ROOT +:+ "/context/payload; printf '%s' '"
    +:+ TOKEN_PREFIX +:+ owner +:+ "' > " +:+ ROOT +:+ "/token; " in
  let files := (λ nv : string * string,
    "printf '%s' '" +:+ nv.2 +:+ "' > " +:+ ROOT +:+ "/context/Dockerfile." +:+ nv.1 +:+ "; ") <$> cases in
  Ok (shell +:+ sconcat files +:+ "sha256sum " +:+ ROOT +:+ "/context/bin/busybox " +:+ ROOT
      +:+ "/context/lib/ld-musl-x86_64.so.1").

Definition ROOTFS_PATHS : list string := ["bin"; "lib"; "bin/busybox"; "lib/ld-musl-x86_64.so.1"; "result"].

Definition rootfs_mode_probe (case : string) : result string :=
  _ ← gate_if (negb (bool_decide (case ∈ ["inspect-before"; "inspect-after"]))) "FIXED_ROOTFS_INSPECTION_REQUIRED";
  let commands := imap (λ index suffix,
    let path := ROOT +:+ "/result-" +:+ case +:+ "/" +:+ suffix in
    ["test ! -L " +:+ path;
     (if (index <? 2)%nat then "test -d " else "test -f ") +:+ path;
     "LC_ALL=C stat -c '%a|%u|%g' " +:+ path]) ROOTFS_PATHS in
  Ok (join "; " ("set -eu" :: mjoin commands)).

Definition rootfs_line_re : regex :=
  RRep 3 (RChar (in_range "0" "7")) ⋅ RLit "|"
  ⋅ decimal_re 9 ⋅ RLit "|" ⋅ decimal_re 9.

Record file_mode := FileMode { fm_mode : string; fm_uid : Z; fm_gid : Z }.

Definition rootfs_line (index : nat) (line : string) : result file_mode :=
  _ ← gate_if (negb (fullmatch rootfs_line_re line)) "SYNTHETIC_ROOTFS_MODE_PROOF_REQUIRED";
  match split_on "|" line with
  | [mode; uid; gid] =>
      let allowed := if (2 <=? index)%nat then (if Nat.eqb index 4 then "444" else "555") else "755" in
      u ← int_of_digits uid;
      g ← int_of_digits gid;
      _ ← gate_if (negb (String.eqb mode allowed) || (U32 <? u) || (U32 <? g))
            "SYNTHETIC_ROOTFS_PERMISSION_CHANGED";
      Ok (FileMode mode u g)
  | _ => raise ValueError "unpack" (* unreachable: the pattern has two separators *)
  end.

(** The [corrected] flag is part of the signature and unused by the source. *)
Definition parse_rootfs_modes (v : string) (corrected : bool) : result (list (string * file_mode)) :=
  let lines := splitlines v in
  _ ← gate_if (negb (Nat.eqb (length lines) (length ROOTFS_PATHS))) "SYNTHETIC_ROOTFS_MODE_PROOF_REQUIRED";
  rows ← mapR (λ il, rootfs_line il.1 il.2) (imap (λ i l, (i, l)) lines);
  Ok (zip ROOTFS_PATHS rows).

Definition plan (image : option string) : result value :=
  _ ← match image with Some i => _ ← image_reference i; Ok tt | None => Ok tt end;
  let configured := match image with Some i => negb (String.eqb i EmptyString) | None => false end in
  Ok (VDict [
    ("kind", VStr "OWNED_BUILDKIT_RESOURCE_AND_CANCELLATION_V1");
    ("result", VStr "PLAN_ONLY_NO_NATIVE_CALLS");
    ("image", match image with Some i => VStr i | None => VNone end);
    ("native_state", VStr (if configured then "REVIEWED_LAUNCHER_REQUIRED" else "BLOCKED_IMAGE_UNCONFIGURED"));
    ("server", VDict [
      ("memory", VInt MEMORY); ("cpus", VInt 1); ("pids", VInt PIDS); ("swap", VInt 0);
      ("network", VStr "none"); ("rootless", VBool true); ("process_sandbox", VBool true);
      ("privileged", VBool false); ("security_exceptions", vstrs SECURITY); ("tmpfs", vdict_of TMPFS)]);
    ("scope", VStr SCOPE); ("seconds", VInt TOTAL_SECONDS); ("mutates_default_builder", VBool false);
    ("pulls", VInt 0); ("host_data_mounts", VInt 0); ("provider_or_trading_calls", VInt 0);
    ("qualification", VStr "UNPROVEN")]).
