(* ===== verification/BuildkitGateSpec.v ===== *)
(** * Properties of the BuildKit gate's parsers ([BuildkitGate]) *)

From S2P Require Import Prelude PyStr Regex Sha256 PyVal Json BuildkitGate.

Local Open Scope string_scope.
Local Open Scope list_scope.
Local Open Scope Z_scope.

(** ** Numerals and namespaces *)
Lemma mount_unsigned_spec v m pos n :
  0 <= m < 10 ^ 20 →
  mount_unsigned v m pos = Ok n ↔ v = dec_of_Z n ∧ 0 <= n <= m ∧ (pos = true → n ≠ 0).
Proof.
  intros Hm. unfold mount_unsigned, gate_if. split.
  - intros H. ok_inv H. bool_inv.
    match goal with F : fullmatch _ v = true |- _ => apply decimal_re_value in F as (z & -> & Hz) end.
    rewrite int_of_digits_canonical in Hok0.
    + ok_inv Hok0. rewrite dec_of_Z_val in * by lia. split_and!; [done|lia|lia|].
      intros -> ->. done.
    + apply dec_of_Z_digits; lia.
    + pose proof (dec_of_Z_len z 20 Hz ltac:(lia)). lia.
  - intros (-> & Hn & Hp). rewrite raise_if_pass.
    + rewrite int_of_digits_canonical, bind_ret.
      * rewrite dec_of_Z_val by lia. rewrite raise_if_pass; [done|].
        apply orb_false_iff. split; [lia|]. destruct pos; [|done]. apply Z.eqb_neq. auto.
      * apply dec_of_Z_digits; lia.
      * pose proof (dec_of_Z_len n 20 ltac:(lia) ltac:(lia)). lia.
    + apply negb_false_iff, decimal_re_value. exists n. split; [done|]. cbn. lia.
Qed.

Lemma mount_unsigned_dec n m pos :
  0 <= m < 10 ^ 20 → 0 <= n <= m → (pos = true → n ≠ 0) → mount_unsigned (dec_of_Z n) m pos = Ok n.
Proof. intros Hm Hn Hp. by apply mount_unsigned_spec. Qed.

Definition render_ns (n : Z) : string := "mnt:[" +:+ dec_of_Z n +:+ "]".

Lemma ns_inner s : sdrop 5 ("mnt:[" +:+ s +:+ "]") = s +:+ "]".
Proof. apply (sdrop_app "mnt:["). Qed.

Lemma mount_namespace_spec v n :
  mount_namespace v = Ok n ↔ v = render_ns n ∧ 0 < n <= U64.
Proof.
  unfold mount_namespace, gate_if, U64. split.
  - intros H. ok_inv H. bool_inv.
    match goal with F : fullmatch _ v = true |- _ => apply fullmatch_spec in F; rename F into H0 end.
    unfold mount_ns_re in H0. apply matches_seq in H0 as (pre & b & -> & Ha & Hb%matches_lit). subst b.
    apply matches_seq in Ha as (a1 & d & -> & Ha%matches_lit & Hd). subst a1.
    rewrite <- app_assoc_str, ns_inner in H. rewrite !app_length_str in H.
    replace (String.length "mnt:[" + (String.length d + String.length "]") - 6)%nat
      with (String.length d) in H by (cbn; lia).
    rewrite stake_app in H. apply mount_unsigned_spec in H as (-> & Hn & Hp); [|lia].
    specialize (Hp eq_refl). rewrite <- app_assoc_str. split; [done|lia].
  - intros [-> Hn]. rewrite raise_if_pass.
    + unfold render_ns. rewrite ns_inner, !app_length_str.
      replace (String.length "mnt:[" + (String.length (dec_of_Z n) + String.length "]") - 6)%nat
        with (String.length (dec_of_Z n)) by (cbn; lia).
      rewrite stake_app. apply mount_unsigned_spec; [lia|]. split_and!; [done|lia|lia|lia].
    + apply negb_false_iff, fullmatch_spec. unfold mount_ns_re, render_ns. rewrite app_assoc_str.
      apply m_seq; [|by apply matches_lit]. apply m_seq; [by apply matches_lit|].
      apply matches_plus_char. destruct (canonical_dec_digits _ (dec_of_Z_canonical n ltac:(lia))). done.
Qed.

(** ** The lines of a projection *)
Inductive item :=
  | IItem (when : string) (d : daemon_identity)
  | CItem (ns : Z)
  | MItem (key : string * string) (r : mount_row).

Definition item_fields (i : item) : list string :=
  match i with
  | IItem w d => ["I"; w; dec_of_Z (dm_pid d); dec_of_Z (dm_start_ticks d); render_ns (dm_mount_namespace_inode d)]
  | CItem ns => ["C"; render_ns ns]
  | MItem k r =>
      ["M"; k.1; k.2; dec_of_Z (mr_mount_id r); dec_of_Z (mr_parent_id r);
       dec_of_Z (mr_device_major r) +:+ String ":" (dec_of_Z (mr_device_minor r)); "tmpfs"; "1"; "1"; "1";
       if mr_noexec r then "1" else "0"; mr_mode r; dec_of_Z (mr_uid r); dec_of_Z (mr_gid r)]
  end.
Definition render_item (i : item) : string := join "|" (item_fields i).

Definition wf_daemon (d : daemon_identity) : Prop :=
  1 < dm_pid d <= U32 ∧ 0 < dm_start_ticks d <= U64 ∧ 0 < dm_mount_namespace_inode d <= U64.
Definition mode_re : regex := RRange 3 4 (RChar (in_range "0" "7")).
Definition wf_row (r : mount_row) : Prop :=
  0 < mr_mount_id r <= U32 ∧ 0 < mr_parent_id r <= U32 ∧ 0 <= mr_device_major r <= U32 ∧
  0 <= mr_device_minor r <= U32 ∧ 0 <= mr_uid r <= U32 ∧ 0 <= mr_gid r <= U32 ∧
  fullmatch mode_re (mr_mode r) = true.
Definition wf_item (i : item) : Prop :=
  match i with
  | IItem w d => w ∈ ["before"; "after"] ∧ wf_daemon d
  | CItem ns => 0 < ns <= U64
  | MItem k r => k ∈ mount_keys ∧ wf_row r
  end.

(** Each item fills one slot of the state, at most once. *)
Definition slot (i : item) : list string :=
  match i with IItem w _ => ["I"; w] | CItem _ => ["C"] | MItem k _ => ["M"; k.1; k.2] end.
Definition put_item (s : mount_state) (i : item) : mount_state :=
  match i with
  | IItem w d => MountState (ms_identities s ++ [(w, d)]) (ms_mounts s) (ms_container_ns s)
  | CItem ns => MountState (ms_identities s) (ms_mounts s) (Some ns)
  | MItem k r => MountState (ms_identities s) (ms_mounts s ++ [(k, r)]) (ms_container_ns s)
  end.
Definition is_free (s : mount_state) (i : item) : Prop :=
  match i with
  | IItem w _ => w ∉ (ms_identities s).*1
  | CItem _ => ms_container_ns s = None
  | MItem k _ => k ∉ (ms_mounts s).*1
  end.

Lemma mount_keys_elem d p : (d, p) ∈ mount_keys ↔ d ∈ MOUNT_DOMAINS ∧ p ∈ MOUNT_PATHS.
Proof.
  unfold mount_keys. rewrite list_elem_of_bind. setoid_rewrite list_elem_of_bind.
  setoid_rewrite list_elem_of_singleton. naive_solver.
Qed.

Lemma parse_identity_spec w p t n d :
  parse_identity ["I"; w; p; t; n] = Ok d ↔
  p = dec_of_Z (dm_pid d) ∧ t = dec_of_Z (dm_start_ticks d) ∧ n = render_ns (dm_mount_namespace_inode d) ∧ wf_daemon d.
Proof.
  unfold parse_identity, gate_if, wf_daemon. cbn [nth]. split.
  - intros H. ok_inv H. bool_inv.
    apply mount_unsigned_spec in Hok as (-> & ? & _); [|done].
    apply mount_unsigned_spec in Hok1 as (-> & ? & Hp); [|done]. specialize (Hp eq_refl).
    apply mount_namespace_spec in Hok2 as (-> & ?). cbn. split_and!; (done || lia).
  - intros (-> & -> & -> & H1 & H2 & H3).
    rewrite (mount_unsigned_dec (dm_pid d)), bind_ret, raise_if_pass by (done || lia).
    rewrite (mount_unsigned_dec (dm_start_ticks d)), bind_ret, (proj2 (mount_namespace_spec _ (dm_mount_namespace_inode d)))
      by (done || lia).
    by destruct d.
Qed.

Lemma digit_free c s : is_digit c = false → sall is_digit s = true → free_of c s = true.
Proof.
  intros Hc. apply sall_impl. intros d Hd. apply negb_true_iff, not_true_iff_false.
  intros ->%Ascii.eqb_eq. congruence.
Qed.

Lemma dec_free c n : is_digit c = false → 0 <= n → free_of c (dec_of_Z n) = true.
Proof. intros Hc Hn. apply digit_free; [done|by apply dec_of_Z_digits]. Qed.

Lemma device_split n m :
  0 <= n → 0 <= m → split_on ":" (dec_of_Z n +:+ String ":" (dec_of_Z m)) = [dec_of_Z n; dec_of_Z m].
Proof.
  intros Hn Hm. change (dec_of_Z n +:+ String ":" (dec_of_Z m)) with (join ":" [dec_of_Z n; dec_of_Z m]).
  apply split_on_join; [done|]. cbn. by rewrite !dec_free.
Qed.

Lemma device_join dev x y :
  split_on ":" dev = [x; y] → dev = x +:+ String ":" y.
Proof. intros H. rewrite <- (join_split_on ":" dev), H. done. Qed.

Lemma bit_text (b : bool) : bool_decide ((if b then "1" else "0")%string ∈ ["0"; "1"]%string) = true.
Proof. by destruct b. Qed.

Lemma parse_mount_row_spec k f3 f4 f5 f6 g0 g1 g2 f10 f11 f12 f13 r :
  parse_mount_row ["M"; k.1; k.2; f3; f4; f5; f6; g0; g1; g2; f10; f11; f12; f13] = Ok r ↔
  ["M"; k.1; k.2; f3; f4; f5; "tmpfs"; g0; g1; g2; f10; f11; f12; f13] = item_fields (MItem k r) ∧ wf_row r.
Proof.
  unfold parse_mount_row, gate_if. cbn [nth take drop]. split.
  - intros H. ok_inv H. bool_inv.
    match goal with F : Nat.eqb _ 2 = true |- _ => apply Nat.eqb_eq in F; rename F into Hlen end.
    match goal with F : [g0; g1; g2] = _ |- _ => injection F as -> -> -> end.
    match goal with F : f10 ∈ _ |- _ => rename F into Hbit end.
    destruct (split_on ":" f5) as [|x [|y [|]]] eqn:E; try discriminate Hlen. cbn [nth] in *.
    apply device_join in E as ->.
    apply mount_unsigned_spec in Hok0 as (-> & ? & P0), Hok1 as (-> & ? & P1), Hok2 as (-> & ? & _),
      Hok3 as (-> & ? & _), Hok4 as (-> & ? & _), Hok5 as (-> & ? & _); [|done..].
    specialize (P0 eq_refl). specialize (P1 eq_refl). unfold wf_row. cbn -[dec_of_Z render_ns].
    split; [|split_and!; (done || lia)].
    apply elem_of_cons in Hbit as [->|Hbit]; [done|]. by apply list_elem_of_singleton in Hbit as ->.
  - intros [H (W1 & W2 & W3 & W4 & W5 & W6 & W7)]. cbn [item_fields] in H.
    injection H as -> -> -> -> -> -> -> -> -> ->. unfold mode_re in W7.
    rewrite device_split by lia. cbn [nth length Nat.eqb]. rewrite bit_text, W7, raise_if_pass by done.
    rewrite (mount_unsigned_dec (mr_mount_id r)), bind_ret, (mount_unsigned_dec (mr_parent_id r)), bind_ret,
      (mount_unsigned_dec (mr_device_major r)), bind_ret, (mount_unsigned_dec (mr_device_minor r)), bind_ret,
      (mount_unsigned_dec (mr_uid r)), bind_ret, (mount_unsigned_dec (mr_gid r)), bind_ret by (done || lia).
    by destruct r as [? ? ? ? [] ? ? ?].
Qed.

Lemma render_ns_free c n :
  0 <= n → is_digit c = false → free_of c "mnt:[]" = true → free_of c (render_ns n) = true.
Proof.
  intros Hn Hc Hf. unfold render_ns, free_of in *. rewrite !sall_app.
  fold (free_of c (dec_of_Z n)). rewrite dec_free by done.
  cbn in *. rewrite !andb_true_iff in *. tauto.
Qed.

Lemma key_free k : k ∈ mount_keys → free_of "|" k.1 = true ∧ free_of "|" k.2 = true.
Proof.
  assert (Forall (λ k, free_of "|" k.1 = true ∧ free_of "|" k.2 = true) mount_keys) as H.
  { repeat (constructor; [by vm_compute|]). constructor. }
  rewrite Forall_forall in H. apply H.
Qed.

Lemma item_fields_free i : wf_item i → forallb (free_of "|") (item_fields i) = true.
Proof.
  destruct i as [w d|ns|k r]; cbn -[render_ns dec_of_Z free_of].
  - intros [Hw (H1 & H2 & H3)]. rewrite !dec_free, render_ns_free by (done || lia).
    apply elem_of_cons in Hw as [->|Hw]; [done|]. by apply list_elem_of_singleton in Hw as ->.
  - intros H. by rewrite render_ns_free by (done || lia).
  - intros [Hk (W1 & W2 & W3 & W4 & W5 & W6 & W7)]. destruct (key_free k Hk) as [K1 K2].
    assert (Hm : free_of "|" (mr_mode r) = true).
    { eapply fullmatch_chars; [|exact W7]. by vm_compute. }
    assert (Hd : free_of "|" (dec_of_Z (mr_device_major r) +:+ String ":" (dec_of_Z (mr_device_minor r))) = true).
    { unfold free_of. rewrite sall_app. fold (free_of "|" (dec_of_Z (mr_device_major r))).
      rewrite dec_free by (done || lia). cbn [andb sall Ascii.eqb negb].
      fold (free_of "|" (dec_of_Z (mr_device_minor r))). by rewrite dec_free by (done || lia). }
    rewrite K1, K2, Hd, Hm, !dec_free by (done || lia). by destruct (mr_noexec r).
Qed.

Lemma item_fields_nonempty i : item_fields i ≠ [].
Proof. by destruct i. Qed.

Lemma split_render i : wf_item i → split_on "|" (render_item i) = item_fields i.
Proof. intros H. apply split_on_join; [apply item_fields_nonempty|by apply item_fields_free]. Qed.

Lemma list_length_5 {A} (l : list A) : length l = 5%nat → ∃ a b c d e, l = [a; b; c; d; e].
Proof. intros H. destruct l as [|a [|b [|c [|d [|e [|]]]]]]; try discriminate H. eauto 6. Qed.

Lemma list_length_14 {A} (l : list A) : length l = 14%nat →
  ∃ a b c d e f g h i j k m n o, l = [a; b; c; d; e; f; g; h; i; j; k; m; n; o].
Proof.
  intros H. destruct l as [|a [|b [|c [|d [|e [|f [|g [|h [|i [|j [|k [|m [|n [|o [|]]]]]]]]]]]]]]]; try discriminate H.
  do 14 eexists. done.
Qed.

Lemma mount_line_Ok s line s' :
  mount_line s line = Ok s' →
  ∃ i, line = render_item i ∧ wf_item i ∧ is_free s i ∧ s' = put_item s i.
Proof.
  unfold mount_line, gate_if, render_item. cbv zeta. pose proof (join_split_on "|" line) as Hj.
  set (fs := split_on "|" line) in *. clearbody fs. subst line. intros H.
  destruct (String.eqb (nth 0 fs EmptyString) "I" && Nat.eqb (length fs) 5) eqn:EI;
    [|destruct (String.eqb (nth 0 fs EmptyString) "C" && Nat.eqb (length fs) 2
                && bool_decide (ms_container_ns s = None)) eqn:EC;
      [|destruct (String.eqb (nth 0 fs EmptyString) "M" && Nat.eqb (length fs) 14) eqn:EM; [|discriminate H]]].
  - apply andb_true_iff in EI as [E0 E1]. apply String.eqb_eq in E0. apply Nat.eqb_eq in E1.
    destruct (list_length_5 fs E1) as (a & b & c & d & e & ->). cbn [nth] in *. subst a.
    ok_inv H. bool_inv. apply parse_identity_spec in Hok0 as (-> & -> & -> & Hw).
    exists (IItem b a0). split_and!; done.
  - apply andb_true_iff in EC as [EC E2]. apply andb_true_iff in EC as [E0 E1].
    apply String.eqb_eq in E0. apply Nat.eqb_eq in E1. apply bool_decide_eq_true in E2.
    destruct fs as [|a [|b [|]]]; try discriminate E1. cbn [nth] in *. subst a.
    ok_inv H. apply mount_namespace_spec in Hok as [-> Hw]. exists (CItem a). split_and!; done.
  - apply andb_true_iff in EM as [E0 E1]. apply String.eqb_eq in E0. apply Nat.eqb_eq in E1.
    destruct (list_length_14 fs E1) as (a & b & c & d & e & f & g & h & i & j & k & m & n & o & ->).
    cbn [nth] in *. subst a. ok_inv H. bool_inv. subst g.
    apply (parse_mount_row_spec (b, c)) in Hok0 as [Hf Hw].
    exists (MItem (b, c) a0). split_and!; [by rewrite <- Hf| |done|done].
    split; [|done]. by apply mount_keys_elem.
Qed.

Lemma mount_line_render s i :
  wf_item i → is_free s i → mount_line s (render_item i) = Ok (put_item s i).
Proof.
  intros Hw Hf. unfold mount_line, gate_if. rewrite split_render by done.
  destruct i as [w d|ns|k r]; cbn [item_fields nth length Nat.eqb is_free] in *.
  - destruct Hw as [Hw Hd]. rewrite String.eqb_refl. cbn [andb].
    rewrite (bool_decide_true (w ∈ _)), bool_decide_false, raise_if_pass by done.
    rewrite (proj2 (parse_identity_spec _ _ _ _ d)) by (split_and!; done). done.
  - change (String.eqb "C" "I") with false.
    rewrite String.eqb_refl, (bool_decide_true (ms_container_ns s = None)) by done. cbn [andb].
    rewrite (proj2 (mount_namespace_spec _ ns)) by (split; done). done.
  - destruct Hw as [Hk Hr]. change (String.eqb "M" "I") with false. change (String.eqb "M" "C") with false.
    rewrite String.eqb_refl. cbn [andb]. destruct k as [kd kp]. pose proof Hk as [Hk1 Hk2]%mount_keys_elem.
    cbn [fst snd]. rewrite (bool_decide_true (kd ∈ _)), (bool_decide_true (kp ∈ _)), bool_decide_false,
      raise_if_pass by done.
    rewrite (proj2 (parse_mount_row_spec (kd, kp) _ _ _ _ _ _ _ _ _ _ _ r)) by (split; done). done.
Qed.

(** ** The state a sequence of items leaves *)
Definition state_of (l : list item) : mount_state := foldl put_item mount_state0 l.

Definition identities_of (l : list item) : list (string * daemon_identity) :=
  omap (λ i, match i with IItem w d => Some (w, d) | _ => None end) l.
Definition mounts_of (l : list item) : list ((string * string) * mount_row) :=
  omap (λ i, match i with MItem k r => Some (k, r) | _ => None end) l.
Definition namespaces_of (l : list item) : list Z :=
  omap (λ i, match i with CItem n => Some n | _ => None end) l.

Lemma state_of_snoc l i : state_of (l ++ [i]) = put_item (state_of l) i.
Proof. unfold state_of. by rewrite foldl_app. Qed.

Lemma state_of_lists l :
  ms_identities (state_of l) = identities_of l ∧ ms_mounts (state_of l) = mounts_of l ∧
  ms_container_ns (state_of l) = last (namespaces_of l).
Proof.
  induction l as [|i l (IH1 & IH2 & IH3)] using rev_ind; [done|].
  unfold identities_of, mounts_of, namespaces_of in *. rewrite state_of_snoc, !omap_app.
  destruct i; cbn [put_item ms_identities ms_mounts ms_container_ns omap list_omap];
    rewrite ?IH1, ?IH2, ?IH3, ?app_nil_r, ?last_snoc; done.
Qed.

Lemma identities_elem l w d : (w, d) ∈ identities_of l ↔ IItem w d ∈ l.
Proof.
  unfold identities_of. rewrite list_elem_of_omap. split; [|by exists (IItem w d)].
  intros ([] & Hi & [=]); by subst.
Qed.
Lemma mounts_elem l k r : (k, r) ∈ mounts_of l ↔ MItem k r ∈ l.
Proof.
  unfold mounts_of. rewrite list_elem_of_omap. split; [|by exists (MItem k r)].
  intros ([] & Hi & [=]); by subst.
Qed.
Lemma namespaces_elem l n : n ∈ namespaces_of l ↔ CItem n ∈ l.
Proof.
  unfold namespaces_of. rewrite list_elem_of_omap. split; [|by exists (CItem n)].
  intros ([] & Hi & [=]); by subst.
Qed.

Lemma last_None_nil {A} (l : list A) : last l = None ↔ l = [].
Proof.
  split; [|by intros ->]. destruct l as [|x l] using rev_ind; [done|]. by rewrite last_snoc.
Qed.

Lemma is_free_slot l i : is_free (state_of l) i ↔ slot i ∉ slot <$> l.
Proof.
  destruct (state_of_lists l) as (H1 & H2 & H3). rewrite list_elem_of_fmap.
  destruct i as [w d|n|[k1 k2] r]; cbn [is_free slot]; rewrite ?H1, ?H2, ?H3.
  - rewrite list_elem_of_fmap. split.
    + intros H ([] & [=] & Hi). subst. apply H. eexists (_, _). split; [done|]. by apply identities_elem.
    + intros H ([w' d'] & -> & Hi%identities_elem). apply H. by exists (IItem w' d').
  - rewrite last_None_nil. split.
    + intros H ([] & [=] & Hi%namespaces_elem). rewrite H in Hi. by apply elem_of_nil in Hi.
    + intros H. destruct (namespaces_of l) as [|m t] eqn:E; [done|]. exfalso. apply H.
      exists (CItem m). split; [done|]. apply namespaces_elem. rewrite E. by left.
  - rewrite list_elem_of_fmap. split.
    + intros H ([|?|[k1' k2'] r'] & [=] & Hi). subst. apply H. eexists (_, _). split; [done|]. by apply mounts_elem.
    + intros H ([[k1' k2'] r'] & [= -> ->] & Hi%mounts_elem). apply H. by exists (MItem (k1', k2') r').
Qed.

(** What the loop accepts: renderings of well-formed items on distinct slots, in any order. *)
Lemma mount_fold_spec lines s :
  foldR mount_line mount_state0 lines = Ok s ↔
  ∃ items, lines = render_item <$> items ∧ Forall wf_item items ∧ NoDup (slot <$> items) ∧ s = state_of items.
Proof.
  apply (slot_fold render_item wf_item slot mount_line put_item mount_state0 is_free).
  - apply mount_line_Ok.
  - apply mount_line_render.
  - apply is_free_slot.
Qed.

Lemma kfind_elem {K A} `{EqDecision K} (k : K) (a : A) l : kfind k l = Some a → (k, a) ∈ l.
Proof.
  induction l as [|[k' a'] l IH]; cbn [kfind]; [done|]. case_bool_decide as E.
  - subst k'. intros [= ->]. by left.
  - intros H. right. auto.
Qed.

Lemma elem_kfind {K A} `{EqDecision K} (k : K) (a : A) l : NoDup l.*1 → (k, a) ∈ l → kfind k l = Some a.
Proof.
  induction l as [|[k' a'] l IH]; cbn [kfind]; [by intros _ ?%elem_of_nil|].
  cbn [fmap list_fmap fst]. rewrite NoDup_cons, elem_of_cons. intros [Hk Hn] [[= <- <-]|H].
  - by rewrite bool_decide_true.
  - rewrite bool_decide_false; [auto|]. intros ->. apply Hk. apply (list_elem_of_fmap_2 fst _ (k', a)). done.
Qed.

(** ** Accepted proofs *)
(** Private to the server's user; only the snapshot data may execute. *)
Definition private_row (key : string * string) (r : mount_row) : Prop :=
  mr_mode r = "700" ∧ mr_uid r = 1000 ∧ mr_gid r = 1000 ∧ (mr_noexec r = true ↔ key.2 ≠ MOUNT_DATA).
Definition wf_proof (p : mount_proof) : Prop :=
  wf_daemon (mp_daemon p) ∧ 0 < mp_container_ns p <= U64 ∧ (mp_mounts p).*1 = mount_keys ∧
  Forall (λ kr, wf_row kr.2 ∧ private_row kr.1 kr.2) (mp_mounts p).
Definition items_of (p : mount_proof) : list item :=
  [IItem "before" (mp_daemon p); IItem "after" (mp_daemon p); CItem (mp_container_ns p)]
  ++ (uncurry MItem <$> mp_mounts p).
(** The eleven lines the probe prints for a proof. *)
Definition render_proof (p : mount_proof) : list string := render_item <$> items_of p.

Lemma items_of_slots p : (mp_mounts p).*1 = mount_keys → NoDup (slot <$> items_of p).
Proof.
  intros Hk. unfold items_of. rewrite fmap_app, <- list_fmap_compose.
  replace (slot ∘ uncurry MItem <$> mp_mounts p) with ((λ k, ["M"; k.1; k.2]) <$> (mp_mounts p).*1).
  - rewrite Hk. by_decide.
  - rewrite <- list_fmap_compose. apply list_fmap_ext. by intros ? [[] ?].
Qed.

Lemma row_private_spec key r : row_private key r = true ↔ private_row key r.
Proof.
  unfold row_private, private_row. rewrite !andb_true_iff, !Z.eqb_eq, Bool.eqb_true_iff, String.eqb_eq.
  destruct (String.eqb_spec key.2 MOUNT_DATA); destruct (mr_noexec r); cbn; naive_solver.
Qed.

Lemma items_of_wf p : wf_proof p → Forall wf_item (items_of p).
Proof.
  intros (Hd & Hn & Hk & Hr). unfold items_of. apply Forall_app. split.
  - repeat constructor; cbn; (done || set_solver || apply Hd || lia).
  - apply Forall_fmap, Forall_forall. intros [k r] Hin. split.
    + rewrite <- Hk. by apply (list_elem_of_fmap_2 fst _ (k, r)).
    + rewrite Forall_forall in Hr. by destruct (Hr _ Hin).
Qed.

Lemma mapR_kfind (l m : list ((string * string) * mount_row)) :
  NoDup l.*1 → (∀ kr, kr ∈ m → kr ∈ l) →
  mapR (λ k, match kfind k l with Some r => Ok (k, r) | None => raise KeyError "mounts" end) m.*1 = Ok m.
Proof.
  intros Hn. induction m as [|[k r] m IH]; intros Hm; [done|]. cbn [fmap list_fmap mapR fst].
  rewrite (elem_kfind k r l) by (done || apply Hm; left). rewrite bind_ret, IH; [done|].
  intros kr Hkr. apply Hm. by right.
Qed.

(** The checks after the loop, over the items read. *)
Lemma parse_mounts_items text p :
  parse_mounts text = Ok p →
  slen text <= MAX_MOUNT_OUTPUT ∧ wf_proof p ∧ splitlines text ≡ₚ render_proof p.
Proof.
  unfold parse_mounts, gate_if. intros H. ok_inv H. bool_inv.
  apply mount_fold_spec in Hok1 as (items & Hlines & Hw & Hn & ->).
  destruct (state_of_lists items) as (E1 & E2 & E3). rewrite E1, E2, E3 in H.
  destruct (kfind "before" _) as [b|] eqn:Kb; [|discriminate H].
  destruct (kfind "after" _) as [af|] eqn:Ka; [|discriminate H].
  destruct (last (namespaces_of items)) as [ns|] eqn:Kn; [|discriminate H].
  ok_inv H. bool_inv. subst af.
  apply kfind_elem, identities_elem in Kb, Ka. apply last_Some_elem_of, namespaces_elem in Kn.
  match goal with F : mapR _ mount_keys = Ok ?r |- _ => rename F into Hrows, r into rows end.
  apply mapR_Ok in Hrows.
  assert (Hp : Forall2 (λ k kr, kr.1 = k ∧ MItem kr.1 kr.2 ∈ items) mount_keys rows).
  { eapply Forall2_impl; [exact Hrows|]. intros k kr. cbn beta.
    destruct (kfind k (mounts_of items)) as [r|] eqn:Kr; [|by intros ?%raise_Ok].
    intros [= <-]. split; [done|]. by apply mounts_elem, kfind_elem. }
  rewrite Forall_forall in Hw.
  assert (Hkeys : rows.*1 = mount_keys).
  { clear -Hp. induction Hp as [|k kr ks krs [Hk _] _ IH]; [done|]. cbn. by rewrite Hk, IH. }
  assert (Hin : ∀ kr, kr ∈ rows → MItem kr.1 kr.2 ∈ items).
  { intros kr [j Hj]%list_elem_of_lookup. by destruct (Forall2_lookup_r _ _ _ _ _ Hp Hj) as (k & _ & _ & H). }
  assert (Hwf : wf_proof (MountProof b ns rows)).
  { split_and!; [by apply (Hw _ Kb)|apply (Hw _ Kn)|apply (Hw _ Kn)|done|]. apply Forall_forall. intros [k r] Hkr.
    specialize (Hin _ Hkr). split; [by apply (Hw _ Hin)|].
    match goal with F : forallb _ (mounts_of items) = true |- _ => rewrite forallb_forall in F;
      apply row_private_spec, (F (k, r)), list_elem_of_In, mounts_elem, Hin end. }
  split_and!; [lia|done|]. unfold render_proof. rewrite Hlines. apply Permutation_map. symmetry.
  apply submseteq_length_Permutation.
  - apply NoDup_submseteq.
    + eapply NoDup_fmap_1, items_of_slots. done.
    + intros i. unfold items_of. rewrite elem_of_app. intros [Hi|Hi].
      * cbn in Hi. rewrite !elem_of_cons, elem_of_nil in Hi. cbn in Hi. naive_solver.
      * apply list_elem_of_fmap in Hi as (kr & -> & Hkr). specialize (Hin _ Hkr). by destruct kr.
  - match goal with F : Nat.eqb _ 11 = true |- _ => apply Nat.eqb_eq in F; rewrite Hlines, length_fmap in F; rewrite F end.
    unfold items_of. cbn [mp_mounts]. rewrite length_app, length_fmap, <- (length_fmap fst), Hkeys. done.
Qed.

Lemma perm_NoDup_slots l l' : l ≡ₚ l' → NoDup (slot <$> l') → NoDup (slot <$> l).
Proof. intros H. by rewrite H. Qed.

Lemma slots_identities l : NoDup (slot <$> l) → NoDup (identities_of l).*1.
Proof.
  induction l as [|[w d|n|k r] l IH]; cbn; [constructor|..]; rewrite NoDup_cons; intros [Hn Hl]; try by apply IH.
  apply NoDup_cons. split; [|by apply IH]. rewrite list_elem_of_fmap. intros ([w' d'] & -> & Hi%identities_elem).
  apply Hn. by apply (list_elem_of_fmap_2 slot _ (IItem w' d')).
Qed.

Lemma slots_mounts l : NoDup (slot <$> l) → NoDup (mounts_of l).*1.
Proof.
  induction l as [|[w d|n|k r] l IH]; cbn; [constructor|..]; rewrite NoDup_cons; intros [Hn Hl]; try by apply IH.
  apply NoDup_cons. split; [|by apply IH]. rewrite list_elem_of_fmap. intros ([k' r'] & -> & Hi%mounts_elem).
  apply Hn. by apply (list_elem_of_fmap_2 slot _ (MItem k' r')).
Qed.

Lemma items_of_mounts p k r : MItem k r ∈ items_of p ↔ (k, r) ∈ mp_mounts p.
Proof.
  unfold items_of. rewrite elem_of_app, list_elem_of_fmap. split.
  - intros [H|([k' r'] & [= -> ->] & H)]; [|done]. by rewrite !elem_of_cons, elem_of_nil in H; naive_solver.
  - intros H. right. by exists (k, r).
Qed.

Lemma items_of_ns p n : CItem n ∈ items_of p → n = mp_container_ns p.
Proof.
  unfold items_of. rewrite elem_of_app, list_elem_of_fmap.
  intros [H|([k' r'] & [=] & _)]. rewrite !elem_of_cons, elem_of_nil in H. naive_solver.
Qed.

(** Every order of the eleven lines of a well-formed proof is accepted. *)
Lemma parse_mounts_render text p :
  slen text <= MAX_MOUNT_OUTPUT → wf_proof p → splitlines text ≡ₚ render_proof p → parse_mounts text = Ok p.
Proof.
  intros Hlen Hwf Hperm. pose proof Hwf as (Hd & Hns & Hk & Hr).
  apply Permutation_map_inv in Hperm as (items & Hlines & Hp). symmetry in Hp.
  assert (Hslots : NoDup (slot <$> items)) by (eapply perm_NoDup_slots, items_of_slots; done).
  assert (Hitems : Forall wf_item items) by (rewrite Hp; by apply items_of_wf).
  assert (Hfold : foldR mount_line mount_state0 (splitlines text) = Ok (state_of items)).
  { apply mount_fold_spec. by exists items. }
  destruct (state_of_lists items) as (E1 & E2 & E3).
  assert (Hcount : length (splitlines text) = 11%nat).
  { rewrite Hlines, length_map, Hp. unfold items_of. rewrite length_app, length_fmap, <- (length_fmap fst), Hk. done. }
  assert (Hid : ∀ w, w ∈ ["before"; "after"] → kfind w (identities_of items) = Some (mp_daemon p)).
  { intros w Hw. apply elem_kfind; [by apply slots_identities|]. apply identities_elem. rewrite Hp.
    unfold items_of. apply elem_of_app. left.
    apply elem_of_cons in Hw as [->|Hw]; [by left|]. apply list_elem_of_singleton in Hw as ->. right. by left. }
  assert (Hlast : last (namespaces_of items) = Some (mp_container_ns p)).
  { destruct (last (namespaces_of items)) as [n|] eqn:E.
    - f_equal. apply items_of_ns. rewrite <- Hp. by apply namespaces_elem, last_Some_elem_of.
    - apply last_None_nil in E. assert (mp_container_ns p ∈ namespaces_of items) as Hin; [|by rewrite E in Hin; apply elem_of_nil in Hin].
      apply namespaces_elem. rewrite Hp. unfold items_of. apply elem_of_app. left. right. right. by left. }
  assert (Hm : ∀ k r, (k, r) ∈ mounts_of items ↔ (k, r) ∈ mp_mounts p).
  { intros k r. by rewrite mounts_elem, Hp, items_of_mounts. }
  unfold parse_mounts, gate_if. rewrite raise_if_pass by lia. rewrite Hcount, raise_if_pass, Hfold, bind_ret by done.
  rewrite E1, E2, E3, !Hid, Hlast by set_solver. rewrite raise_if_pass.
  - rewrite raise_if_pass.
    + rewrite <- Hk, mapR_kfind; [by destruct p|by apply slots_mounts|]. intros [k r]. by rewrite Hm.
    + apply negb_false_iff, forallb_forall. intros [k r] Hin%list_elem_of_In%Hm.
      rewrite Forall_forall in Hr. apply row_private_spec, (Hr _ Hin).
  - rewrite bool_decide_true by done. apply negb_false_iff, same_set_true. intros k. rewrite <- Hk.
    rewrite !list_elem_of_fmap. split; intros ([k' r] & -> & Hin%Hm); by exists (k', r).
Qed.

(** ** Worker confinement *)
(** [path] is [parent] or lies below it, component by component, with no way up. *)
Definition below (parent path : string) : Prop :=
  ".." ∉ split_on "/" path ∧
  (parent = "/" ∨ ∃ rest, split_on "/" path = split_on "/" parent ++ rest).

Lemma slashes_split t : sall (is_one "/") t = true → t = EmptyString ∨ ∃ u, t = String "/" u.
Proof.
  destruct t as [|c t]; [by left|]. cbn [sall]. rewrite andb_true_iff. intros [Hc _].
  apply Ascii.eqb_eq in Hc as <-. right. by exists t.
Qed.

Lemma cgroup_path_no_up v path : cgroup_path v = Ok path → ".." ∉ split_on "/" path.
Proof.
  unfold cgroup_path, gate_if. intros H. ok_inv H. bool_inv.
  match goal with F : existsb _ _ = false |- _ => rename F into Hup end.
  set (raw := sdrop 3 v) in *. destruct (rstrip_c_split (is_one "/") raw) as (t & Hr & Ht).
  assert (Hraw : ".." ∉ split_on "/" raw).
  { intros Hin%list_elem_of_In. rewrite <- not_true_iff_false in Hup. apply Hup. apply existsb_exists.
    exists "..". by rewrite String.eqb_refl. }
  destruct (String.eqb (rstrip_c (is_one "/") raw) EmptyString) eqn:E; [by_decide|].
  intros Hin. apply Hraw. rewrite Hr. destruct (slashes_split t Ht) as [->|[u ->]].
  - by rewrite app_nil_r_str.
  - rewrite split_on_cat. apply elem_of_app. by left.
Qed.

Lemma parse_worker_Ok parent found line found' :
  parse_worker parent found line = Ok found' →
  ∃ w, found' = found ++ [w] ∧ 1 < wk_pid w ∧ 0 < wk_start_ticks w ∧ below parent (wk_cgroup w).
Proof.
  unfold parse_worker, gate_ifR, gate_if. cbv zeta. intros H. ok_inv H. bool_inv.
  apply raise_ifR_Ok in Hok. rewrite !orR_Ok_false in Hok. destruct Hok as [[[[_ _] _] Hp] Ht].
  ok_inv Hp. ok_inv Ht. bool_inv.
  match goal with F : cgroup_path _ = Ok ?q |- _ => apply cgroup_path_no_up in F as Hup; rename q into path end.
  repeat match goal with F : int_of_decimal ?s = Ok ?x, G : int_of_decimal ?s = Ok ?y |- _ =>
    assert (x = y) by congruence; subst; clear G end.
  eexists. split; [done|]. cbn [wk_pid wk_start_ticks wk_cgroup]. split_and!; [lia|lia|].
  split; [done|].
  match goal with F : (_ || _ || _) = true |- _ => rename F into Hb end.
  rewrite !orb_true_iff in Hb. destruct Hb as [[Hb|Hb]|Hb].
  - left. by apply String.eqb_eq.
  - right. exists []. apply String.eqb_eq in Hb as ->. by rewrite app_nil_r.
  - right. apply prefix_app in Hb as [t ->]. exists (split_on "/" t).
    rewrite <- split_on_cat, <- app_assoc_str. done.
Qed.

Lemma parse_workers_fold parent lines ws :
  foldR (parse_worker parent) [] lines = Ok ws →
  length ws = length lines ∧
  Forall (λ w, 1 < wk_pid w ∧ 0 < wk_start_ticks w ∧ below parent (wk_cgroup w)) ws.
Proof.
  revert lines ws. apply (foldR_hist _ (λ lines ws, length ws = length lines ∧ Forall _ ws)).
  - by split.
  - intros l ws x ws' _ [Hl Hf] (w & -> & Hw)%parse_worker_Ok. rewrite !length_app, Hl.
    split; [done|]. apply Forall_app. split; [done|]. by constructor.
Qed.

Lemma exited_worker_script_total parent ws :
  ws ≠ [] → (length ws <= 4)%nat →
  Forall (λ w, 1 < wk_pid w ∧ 0 < wk_start_ticks w ∧ below parent (wk_cgroup w)) ws →
  ∃ script, exited_worker_script ws = Ok script.
Proof.
  intros Hne Hl Hall. unfold exited_worker_script, gate_if.
  rewrite raise_if_pass by (rewrite bool_decide_false by done; apply Nat.ltb_ge; lia).
  assert (∃ cs, mapR exited_worker_check ws = Ok cs) as [cs ->]; [|by eexists].
  clear Hne Hl. induction Hall as [|w ws (H1 & H2 & _) _ [cs IH]]; [by exists []|].
  cbn [mapR]. assert (∃ c, exited_worker_check w = Ok c) as [c ->].
  { unfold exited_worker_check, gate_if. rewrite raise_if_pass by lia. by eexists. }
  rewrite bind_ret, IH. by eexists.
Qed.

(** ** Container views *)
(** The value under a path of keys. *)
Fixpoint at_path (ks : list string) (v : value) : option value :=
  match ks with
  | [] => Some v
  | k :: ks => match v with VDict d => x ← dlookup k d; at_path ks x | _ => None end
  end.
Definition falsy_at (ks : list string) (v : value) : Prop :=
  match at_path ks v with Some x => py_truthy x = false | None => True end.
Definition is_at (ks : list string) (v x : value) : Prop := ∃ y, at_path ks v = Some y ∧ py_eq y x = true.

Lemma py_get_dict k v x : py_get k v = Ok x → ∃ d, v = VDict d ∧ x = dget k d.
Proof.
  unfold py_get, py_getd, dgetd, dget. destruct v; cbn; intros H; try discriminate H.
  eexists. split; [done|]. by injection H.
Qed.

Lemma py_get_or k v x :
  py_get k v = Ok x → py_truthy x = true → at_path [k] v = Some x.
Proof.
  intros (d & -> & ->)%py_get_dict. unfold dget. cbn. by destruct (dlookup k d).
Qed.

(** The two sub-objects the checks read: the field itself, or an empty object in its absence. *)
Definition sub_object (k : string) (view o : value) : Prop :=
  at_path [k] view = Some o ∨ (o = VDict [] ∧ falsy_at [k] view).

Lemma sub_object_or k view x : py_get k view = Ok x → sub_object k view (py_or x (VDict [])).
Proof.
  intros H. unfold py_or, sub_object. destruct (py_truthy x) eqn:E; [left; by apply py_get_or|right].
  split; [done|]. apply py_get_dict in H as (d & -> & ->). unfold falsy_at, dget in *. cbn.
  by destruct (dlookup k d).
Qed.

Lemma neqR_false a v : neqR a v = Ok false → ∃ x, a = Ok x ∧ py_eq x v = true.
Proof. unfold neqR. intros H. ok_inv H. bool_inv. eauto. Qed.

Lemma get_eq_at k o v : v ≠ VNone → (∃ x, py_get k o = Ok x ∧ py_eq x v = true) → is_at [k] o v.
Proof.
  intros Hv (x & (d & -> & ->)%py_get_dict & He). unfold is_at, dget in *. cbn.
  destruct (dlookup k d) as [y|]; [by exists y|]. cbn in He. by destruct v.
Qed.

Lemma is_at_sub k ks view o x : ks ≠ [] → sub_object k view o → is_at ks o x → is_at (k :: ks) view x.
Proof.
  intros Hne [H|[-> _]] (y & Hy & He).
  - exists y. split; [|done]. cbn in *. destruct view; try discriminate H.
    destruct (dlookup k d) as [z|]; [|discriminate H]. injection H as ->. done.
  - destruct ks; [done|]. discriminate Hy.
Qed.

Lemma truthyR_false k o : truthyR (py_get k o) = Ok false → falsy_at [k] o.
Proof.
  unfold truthyR. intros H. ok_inv H. apply py_get_dict in Hok as (d & -> & ->). unfold falsy_at, dget in *. cbn.
  by destruct (dlookup k d).
Qed.

Lemma falsy_at_sub k ks view o : ks ≠ [] → sub_object k view o → falsy_at ks o → falsy_at (k :: ks) view.
Proof.
  intros Hne [H|[-> H]] Hf; unfold falsy_at in *; cbn in *.
  - destruct view; try done. destruct (dlookup k d) as [z|]; [|done]. injection H as ->. done.
  - destruct view; try done. destruct (dlookup k d) as [z|]; [|done]. cbn in *.
    destruct ks as [|k1 ks]; [done|]. destruct z as [| | | | | | | |[|? ?]]; done.
Qed.

Lemma exact_field_at k v host :
  v ≠ VNone →
  (x ← py_get k host; if negb (bool_decide (py_type x = py_type v)) then Ok true
   else y ← py_item k host; Ok (negb (py_eq y v))) = Ok false → is_at [k] host v.
Proof.
  intros Hv H. ok_inv H. apply py_get_dict in Hok as (d & -> & ->).
  case_bool_decide as Et; cbn [negb] in H; [|discriminate H]. unfold py_item in H.
  destruct (dlookup k d) as [y|] eqn:E; [|discriminate H]. ok_inv H. bool_inv.
  eexists. split; [|eassumption]. cbn. by rewrite E.
Qed.

(** The conditions of the third check, all false. *)
Lemma host_changed_false host config view :
  host_changed host config view = Ok false →
  Forall (λ k, falsy_at [k] host) ["Binds"; "PortBindings"; "Devices"; "VolumesFrom"; "CapAdd"; "PidMode"] ∧
  is_at ["Tmpfs"] host (vdict_of TMPFS) ∧ is_at ["RestartPolicy"; "Name"] host (VStr "no") ∧
  is_at ["User"] config (VStr "1000:1000") ∧ is_at ["Entrypoint"] config (vstrs ["/bin/sh"]) ∧
  is_at ["Cmd"] config (vstrs ["-c"; BOOT]) ∧
  (∀ items m, at_path ["Mounts"] view = Some (VList items) → m ∈ items → is_at ["Type"] m (VStr "tmpfs")).
Proof.
  unfold host_changed. rewrite !orR_Ok_false. intros H.
  destruct H as [[[[[[[[[[[[[[[H1 H2] H3] H4] H5] H6] H7] H8] H9] H10] H11] H12] H13] H14] H15] H16].
  split_and!; try by (apply get_eq_at; [discriminate|by apply neqR_false]).
  - repeat (constructor; [by apply truthyR_false|]). constructor.
  - apply neqR_false in H8 as (x & Hx & He). ok_inv Hx. apply py_get_dict in Hx as (d & -> & ->).
    unfold py_getd, dgetd in Hok. destruct host as [| | | | | | | |hd]; try discriminate Hok. injection Hok as Hd.
    destruct (dlookup "RestartPolicy" hd) as [v|] eqn:E; cbn in Hd; subst.
    + unfold dget in He. destruct (dlookup "Name" d) as [n|] eqn:En; [|discriminate He].
      exists n. cbn. rewrite E. cbn. by rewrite En.
    + injection Hd as <-. discriminate He.
  - intros items m Hm Hin. ok_inv H16.
    unfold at_path in Hm. destruct view as [| | | | | | | |vd]; try discriminate Hm.
    unfold py_getd, dgetd in Hok. destruct (dlookup "Mounts" vd) as [v|]; [|discriminate Hm].
    injection Hm as ->. cbn in Hok. injection Hok as <-. cbn in Hok0. injection Hok0 as <-.
    rewrite anyR_Ok_false, Forall_forall in H16. specialize (H16 _ Hin).
    apply get_eq_at; [discriminate|by apply neqR_false].
Qed.

Lemma digest_Ok v cid : digest v = Ok cid → v = VStr cid ∧ fullmatch HEX64 cid = true.
Proof. unfold digest, gate_if. destruct v; try discriminate. intros H. ok_inv H. bool_inv. done. Qed.

Lemma verify_container_Ok view owner image_id labels cid :
  verify_container view owner image_id labels = Ok cid →
  ∃ host config l, sub_object "HostConfig" view host ∧ sub_object "Config" view config ∧
    fullmatch HEX64 cid = true ∧ fullmatch HEX32 owner = true ∧ labels = VDict l ∧
    is_at ["Id"] view (VStr cid) ∧ is_at ["Name"] view (VStr ("/kairos-buildkit-gate-" +:+ owner)) ∧
    is_at ["Image"] view (VStr image_id) ∧
    is_at ["Labels"] config (VDict (dmerge l [(OWNER_LABEL, VStr owner); (SCOPE_LABEL, VStr SCOPE)])) ∧
    Forall (λ kv, is_at [kv.1] host kv.2) exact_host ∧ host_changed host config view = Ok false.
Proof.
  unfold verify_container, gate_ifR, gate_if. intros H. ok_inv H.
  apply digest_Ok in Hok0 as [-> Hcid].
  unfold py_merge in Hok1. destruct labels as [| | | | | | | |l]; try discriminate Hok1. injection Hok1 as <-.
  apply raise_ifR_Ok in Hok4, Hok5, Hok6. rewrite !orR_Ok_false in Hok4. destruct Hok4 as [[Hn Hi] Hl].
  ok_inv Hn. unfold owner_name, gate_if in Hok1. ok_inv Hok1. bool_inv.
  exists (py_or a2 (VDict [])), (py_or a3 (VDict [])), l.
  split_and!; [by apply sub_object_or|by apply sub_object_or|done|done|done| | | | | |done].
  - apply get_eq_at; [done|]. exists (VStr cid). split; [done|]. apply String.eqb_refl.
  - apply get_eq_at; [done|]. by eexists.
  - apply get_eq_at; [done|]. by apply neqR_false.
  - apply get_eq_at; [done|]. by apply neqR_false.
  - apply anyR_Ok_false in Hok5. rewrite Forall_forall in *. intros kv Hkv. apply exact_field_at; [|by apply Hok5].
    clear -Hkv. unfold exact_host in Hkv. rewrite !elem_of_cons, elem_of_nil in Hkv. naive_solver.
Qed.

(** ** Properties *)

(** C17. The mount projection is read exactly.  [parse_mounts] returns a proof
    [p] if and only if the text is at most 8192 bytes long, [p] is a private
    mount proof (one daemon identity seen before and after, positive 64-bit
    namespaces, for each of the two domains and four paths one tmpfs row of
    mode 700 owned by 1000:1000, executable only for the snapshot data) and
    the lines of the text are, in some order, exactly the eleven lines that
    render [p]: no line is ignored, duplicated or read loosely, and the order
    of the lines cannot matter. *)
Theorem parse_mounts_exact (text : string) (p : mount_proof) :
  parse_mounts text = Ok p ↔
  slen text <= MAX_MOUNT_OUTPUT ∧ wf_proof p ∧ splitlines text ≡ₚ render_proof p.
Proof.
  split; [apply parse_mounts_items|]. intros (H1 & H2 & H3). by apply parse_mounts_render.
Qed.

(** Workers stay inside the server.  Whatever the observer printed, if
    [parse_workers] accepts it then there are at most four workers with
    pairwise distinct process ids above 1 and positive start ticks, one for
    each line printed, and the control group of each is the server's or a
    descendant of it component by component, with no parent reference in it.
    A non-empty result can always be turned into the exit check. *)
Theorem parse_workers_confined (text server_cgroup namespace : string) (ws : list worker) :
  parse_workers text server_cgroup namespace = Ok ws →
  ∃ parent, cgroup_path server_cgroup = Ok parent ∧
    length ws = length (splitlines (strip text)) ∧ (length ws <= 4)%nat ∧ NoDup (wk_pid <$> ws) ∧
    Forall (λ w, 1 < wk_pid w ∧ 0 < wk_start_ticks w ∧ below parent (wk_cgroup w)) ws ∧
    (ws ≠ [] → ∃ script, exited_worker_script ws = Ok script).
Proof.
  unfold parse_workers, gate_if. intros H. ok_inv H. bool_inv. exists a.
  match goal with F : no_dup _ = true |- _ => apply no_dup_true in F end.
  match goal with F : Nat.ltb _ _ = false |- _ => apply Nat.ltb_ge in F end.
  match goal with F : foldR _ _ _ = Ok _ |- _ => apply parse_workers_fold in F as [Hlen Hall] end.
  split_and!; [done..|]. intros Hne. by eapply exited_worker_script_total.
Qed.

(** C33. A verified container is isolated.  Whatever object Docker reports, if
    [verify_container] accepts it then it is this owner's container of this
    image with exactly the image's labels plus the owner and scope labels; its
    memory, swap, CPU and pid limits are the fixed ones with the exact types;
    it is unprivileged, read-only and without network; no bind, port, device,
    volume, capability or pid namespace is added; its tmpfs set, restart
    policy, user and command are the fixed ones, and every mount listed is a
    tmpfs. *)
Theorem verify_container_isolates (view labels : value) (owner image_id cid : string) :
  verify_container view owner image_id labels = Ok cid →
  fullmatch HEX64 cid = true ∧ fullmatch HEX32 owner = true ∧
  is_at ["Id"] view (VStr cid) ∧ is_at ["Image"] view (VStr image_id) ∧
  is_at ["Name"] view (VStr ("/kairos-buildkit-gate-" +:+ owner)) ∧
  (∃ l, labels = VDict l ∧
     is_at ["Config"; "Labels"] view (VDict (dmerge l [(OWNER_LABEL, VStr owner); (SCOPE_LABEL, VStr SCOPE)]))) ∧
  Forall (λ kv, is_at ["HostConfig"; kv.1] view kv.2) exact_host ∧
  Forall (λ k, falsy_at ["HostConfig"; k] view)
    ["Binds"; "PortBindings"; "Devices"; "VolumesFrom"; "CapAdd"; "PidMode"] ∧
  is_at ["HostConfig"; "Tmpfs"] view (vdict_of TMPFS) ∧
  is_at ["HostConfig"; "RestartPolicy"; "Name"] view (VStr "no") ∧
  is_at ["Config"; "User"] view (VStr "1000:1000") ∧
  is_at ["Config"; "Entrypoint"] view (vstrs ["/bin/sh"]) ∧
  is_at ["Config"; "Cmd"] view (vstrs ["-c"; BOOT]) ∧
  (∀ items m, at_path ["Mounts"] view = Some (VList items) → m ∈ items → is_at ["Type"] m (VStr "tmpfs")).
Proof.
  intros H. apply verify_container_Ok in H as (host & config & l & Hh & Hc & Hcid & Hown & -> & Hid & Hn & Hi & Hl & He & Hhost).
  apply host_changed_false in Hhost as (Hf & Ht & Hr & Hu & Hep & Hcmd & Hm).
  split_and!; try done.
  - exists l. split; [done|]. by eapply is_at_sub.
  - eapply Forall_impl; [exact He|]. intros kv Hkv. by eapply is_at_sub.
  - eapply Forall_impl; [exact Hf|]. intros k Hk. by eapply falsy_at_sub.
  - by eapply is_at_sub.
  - by eapply is_at_sub.
  - by eapply is_at_sub.
  - by eapply is_at_sub.
  - by eapply is_at_sub.
Qed.

(** ** Witnesses *)
Definition sample_row (n : Z) (key : string * string) : mount_row :=
  MountRow n (n + 100) 0 (n + 7) (negb (String.eqb key.2 MOUNT_DATA)) "700" 1000 1000.
Definition sample_proof : mount_proof :=
  MountProof (Daemon 42 987654321 4026532000) 4026531999
    (imap (λ i k, (k, sample_row (Z.of_nat i + 1) k)) mount_keys).
Definition sample_projection : string := unlines (reverse (render_proof sample_proof)).

Theorem parse_mounts_exact_witness :
  parse_mounts sample_projection = Ok sample_proof ∧ wf_proof sample_proof ∧
  splitlines sample_projection ≡ₚ render_proof sample_proof.
Proof.
  assert (parse_mounts sample_projection = Ok sample_proof) as H by (vm_compute; reflexivity).
  split; [exact H|]. exact (proj2 (proj1 (parse_mounts_exact sample_projection sample_proof) H)).
Defined.

Definition sample_workers : list worker :=
  [Worker 12 5000 "/kairos/buildkit" "cgroup:[4026531835]"; Worker 77 6000 "/kairos" "cgroup:[4026531836]"].
Definition sample_workers_text : string :=
  unlines ["12|5000|0::/kairos/buildkit|cgroup:[4026531835]"; "77|6000|0::/kairos/|cgroup:[4026531836]"].

Theorem parse_workers_confined_witness :
  parse_workers sample_workers_text "0::/kairos" "cgroup:[1]" = Ok sample_workers ∧
  ∃ parent, cgroup_path "0::/kairos" = Ok parent ∧
    length sample_workers = length (splitlines (strip sample_workers_text)) ∧
    (length sample_workers <= 4)%nat ∧ NoDup (wk_pid <$> sample_workers) ∧
    Forall (λ w, 1 < wk_pid w ∧ 0 < wk_start_ticks w ∧ below parent (wk_cgroup w)) sample_workers ∧
    (sample_workers ≠ [] → ∃ script, exited_worker_script sample_workers = Ok script).
Proof.
  assert (parse_workers sample_workers_text "0::/kairos" "cgroup:[1]" = Ok sample_workers) as H
    by (vm_compute; reflexivity).
  split; [exact H|]. exact (parse_workers_confined _ _ _ _ H).
Defined.

Definition sample_owner : string := sconcat (replicate 32 "7").
Definition sample_cid : string := sconcat (replicate 64 "c").
Definition sample_image : string := "sha256:" +:+ sconcat (replicate 64 "d").
Definition sample_view : value := VDict [
  ("Id", VStr sample_cid); ("Name", VStr ("/kairos-buildkit-gate-" +:+ sample_owner));
  ("Image", VStr sample_image);
  ("HostConfig", VDict (exact_host ++ [
     ("IpcMode", VStr "private"); ("RestartPolicy", VDict [("Name", VStr "no")]);
     ("Tmpfs", vdict_of TMPFS); ("SecurityOpt", vstrs (take 2 SECURITY));
     ("MaskedPaths", VList []); ("ReadonlyPaths", VList [])]));
  ("Config", VDict [
     ("User", VStr "1000:1000"); ("Entrypoint", vstrs ["/bin/sh"]); ("Cmd", vstrs ["-c"; BOOT]);
     ("Labels", VDict [("maintainer", VStr "moby"); (OWNER_LABEL, VStr sample_owner); (SCOPE_LABEL, VStr SCOPE)])]);
  ("Mounts", VList [VDict [("Type", VStr "tmpfs")]]);
  ("NetworkSettings", VDict [("Networks", VDict [("none", VDict [])])])].
Definition sample_labels : value := VDict [("maintainer", VStr "moby")].

Theorem verify_container_isolates_witness :
  verify_container sample_view sample_owner sample_image sample_labels = Ok sample_cid ∧
  Forall (λ kv, is_at ["HostConfig"; kv.1] sample_view kv.2) exact_host.
Proof.
  assert (verify_container sample_view sample_owner sample_image sample_labels = Ok sample_cid) as H
    by (vm_compute; reflexivity).
  split; [exact H|].
  exact (proj1 (proj2 (proj2 (proj2 (proj2 (proj2 (proj2
    (verify_container_isolates sample_view sample_labels sample_owner sample_image sample_cid H)))))))).
Defined.
