(* ===== verification/GateNative.v ===== *)
(** * BuildKit gate: the bounded native CLI call
    ([bounded_finish], [Native.call] and [Native.last_errors] of
    [scripts/buildkit_resource_gate.py], lines 734 to 874)

    One Docker CLI invocation under a Windows job object.  The operating system
    is an environment of [nop] operations; the mutable locals of [call] are the
    frame [nt_frame], since the [except] and [finally] blocks read what the
    [try] block had assigned before it was interrupted.  [process.returncode]
    is read once: [subprocess] never changes it after the process has ended. *)

From S2P Require Import Prelude PyStr PyVal Json Effects BuildkitGate.

Local Open Scope string_scope.
Local Open Scope list_scope.
Local Open Scope Z_scope.

(** What the call asks of the operating system and the job module. *)
Inductive nop :=
  | OClock                                (* time.monotonic() *)
  | OSleep (seconds : flt)
  | OOpenFiles                            (* outpath.open("xb"), errpath.open("xb") *)
  | OJob                                  (* WindowsProcessJob() *)
  | OPopen (argv : list string)
  | OAttach                               (* job.attach_and_resume(process) *)
  | OPoll                                 (* process.poll() *)
  | OStatOut | OStatErr                   (* st_size *)
  | OFlush                                (* flush and fsync of both files *)
  | OAssigned | OResumed                  (* job.assigned, job.resumed *)
  | OKill
  | OAccounting                           (* job.accounting().active_processes *)
  | OTerminate                            (* TerminateJobObject(handle, 125) *)
  | OWait (timeout : flt)
  | OClose                                (* job.close() *)
  | OReturncode
  | OReadOut | OReadErr.                  (* bounded(path) *)

Definition nres (o : nop) : Type :=
  match o with
  | OClock => flt
  | OPoll | OReturncode => option Z
  | OStatOut | OStatErr | OAccounting => Z
  | OAssigned | OResumed | OTerminate => bool
  | OReadOut | OReadErr => string
  | _ => unit
  end.

Record frame := Frame {
  fr_job : bool;            (* job is not None *)
  fr_process : bool;        (* process is not None *)
  fr_proof : option value;
  fr_failed : bool;
  fr_timed_out : bool;
  fr_overflow : bool;
}.
Definition frame0 : frame := Frame false false None false false false.

Record native := NativeState {
  nt_sequence : Z;
  nt_operations : list value;
  nt_frame : frame;
  nt_hist : list (event nres);
}.

Definition log_event (e : event nres) (s : native) : native :=
  NativeState (nt_sequence s) (nt_operations s) (nt_frame s) (nt_hist s ++ [e]).
Definition set_frame (f : frame → frame) (s : native) : native :=
  NativeState (nt_sequence s) (nt_operations s) (f (nt_frame s)) (nt_hist s).

Definition DOCKER : string := "C:\Program Files\Docker\Docker\resources\bin\docker.exe".
Definition ENDPOINT : string := "npipe:////./pipe/dockerDesktopLinuxEngine".

(** [0.025] *)
Definition POLL_SECONDS : flt := float_of_dec false 25 (-3).

Section Call.
Context (env : environment nres) (fuel : nat) (work : string).

Definition ask (o : nop) : M native (nres o) := perform nres nt_hist log_event env o.

Definition bounded_finish (process : bool) (deadline : flt) (cancel : bool) : M native value :=
  assigned ← ask OAssigned;
  (if negb (assigned : bool) then
     if process then r ← ask OPoll; (if bool_decide ((r : option Z) = None) then ask OKill else mret tt)
     else mret tt
   else
     active ← (if cancel then mret true else n ← ask OAccounting; mret (negb (Z.eqb n 0)));
     (if (active : bool) then
        ok ← ask OTerminate; throw_if (negb ok) GateError "WINDOWS_TREE_TERMINATION_FAILED"
      else mret tt);;
     while fuel (n ← ask OAccounting; mret (negb (Z.eqb n 0)))
       (now ← ask OClock;
        throw_if (fleb deadline now) GateError "WINDOWS_TREE_CLEANUP_UNKNOWN";;
        ask (OSleep POLL_SECONDS);; mret None)
       (mret tt));;
  (if process then
     now ← ask OClock;
     let remaining := fsub deadline now in
     throw_if (fleb remaining (fz 0)) GateError "WINDOWS_TREE_CLEANUP_UNKNOWN";;
     ask (OWait remaining)
   else mret tt);;
  n ← ask OAccounting;
  late ← (if negb (Z.eqb n 0) then mret true else now ← ask OClock; mret (fltb deadline now));
  throw_if late GateError "WINDOWS_TREE_CLEANUP_UNKNOWN";;
  assigned ← ask OAssigned;
  resumed ← (if (assigned : bool) then ask OResumed else mret false);
  mret (VDict [("assigned_before_resume", VBool resumed); ("active_processes_after", VInt 0)]).

Definition mark_failed : M native unit :=
  modify (set_frame (λ f, Frame (fr_job f) (fr_process f) (fr_proof f) true (fr_timed_out f) (fr_overflow f))).

(** [outpath.stat().st_size > limit or errpath.stat().st_size > limit] *)
Definition output_overflow (limit : Z) : M native bool :=
  o ← ask OStatOut;
  if limit <? o then mret true else e ← ask OStatErr; mret (limit <? e).

(** The [try] block: start the process and watch it. *)
Definition watch (arguments : list string) (fin : flt) (limit : Z) : M native unit :=
  ask OJob;;
  modify (set_frame (λ f, Frame true (fr_process f) (fr_proof f) (fr_failed f) (fr_timed_out f) (fr_overflow f)));;
  ask (OPopen ([DOCKER; "--config"; work +:+ "\docker-config"; "--host"; ENDPOINT] ++ arguments));;
  modify (set_frame (λ f, Frame (fr_job f) true (fr_proof f) (fr_failed f) (fr_timed_out f) (fr_overflow f)));;
  ask OAttach;;
  while fuel (r ← ask OPoll; mret (bool_decide ((r : option Z) = None)))
    (now ← ask OClock;
     modify (set_frame (λ f, Frame (fr_job f) (fr_process f) (fr_proof f) (fr_failed f) (fleb fin now) (fr_overflow f)));;
     over ← output_overflow limit;
     modify (set_frame (λ f, Frame (fr_job f) (fr_process f) (fr_proof f) (fr_failed f) (fr_timed_out f) over));;
     if fleb fin now || over then mret (Some tt) else ask (OSleep POLL_SECONDS);; mret None)
    (mret tt).

(** The [finally] block: whatever happened, prove the process tree gone. *)
Definition finish (deadline : flt) : M native unit :=
  f ← gets nt_frame;
  (if fr_job f then
     try_finally
       (try_except (λ _, true)
          (now ← ask OClock;
           proof ← bounded_finish (fr_process f) (fmin deadline (fadd now (fz TREE_SECONDS)))
                     (fr_failed f || fr_timed_out f || fr_overflow f);
           modify (set_frame (λ f, Frame (fr_job f) (fr_process f) (Some proof) (fr_failed f) (fr_timed_out f)
                                     (fr_overflow f))))
          (λ _, mark_failed))
       (ask OClose)
   else mret tt);;
  ask OFlush.

Definition is_finite (f : flt) : bool := float_isfinite f.

Definition call (arguments : list string) (deadline seconds : flt) (allow_failure : bool)
    : M native (option Z * string) :=
  now ← ask OClock;
  let output_limit := if bool_decide (last arguments = Some MOUNT_PROBE) then MAX_MOUNT_OUTPUT else MAX_OUTPUT in
  throw_if (negb (is_finite deadline) || negb (is_finite seconds) || fleb seconds (fz 0)
            || fleb (fsub deadline now) (fz TREE_SECONDS)) GateError "INSUFFICIENT_CLI_TREE_PROOF_BUDGET";;
  let fin := fmin (fadd now seconds) (fsub deadline (fz TREE_SECONDS)) in
  modify (λ s, NativeState (nt_sequence s + 1) (nt_operations s) frame0 (nt_hist s));;
  ask OOpenFiles;;
  try_finally
    (try_except (λ _, true) (watch arguments fin output_limit) (λ _, mark_failed))
    (finish deadline);;
  f ← gets nt_frame;
  overflow ← (if fr_overflow f then mret true else output_overflow output_limit);
  exit_code ← (if fr_process f then ask OReturncode else mret None : M native (option Z));
  now2 ← ask OClock;
  modify (λ s, NativeState (nt_sequence s)
    (nt_operations s ++ [VDict [
       ("sequence", VInt (nt_sequence s));
       ("exit_code", match exit_code with Some n => VInt n | None => VNone end);
       ("timed_out", VBool (fr_timed_out f)); ("overflow", VBool overflow);
       ("cli_tree", default VNone (fr_proof f));
       ("elapsed_seconds", VFloat (round_digits 6 (fsub now2 now)))]]) (nt_frame s) (nt_hist s));;
  throw_if (fr_failed f || fr_timed_out f || overflow || bool_decide (fr_proof f = None))
    GateError "NATIVE_OPERATION_OR_CLI_CLEANUP_UNKNOWN";;
  throw_if (negb (fr_process f) || negb (bool_decide (exit_code = Some 0)) && negb allow_failure)
    GateError "NATIVE_DOCKER_OPERATION_FAILED";;
  data ← ask OReadOut;
  text ← liftR (utf8_decode data);
  mret (exit_code, strip text).

Definition last_errors : M native string :=
  data ← ask OReadErr; liftR (utf8_decode data).

End Call.
