(* ===== verification/GateNativeSpec.v ===== *)
(** * Properties of the bounded native call ([GateNative]) *)

From S2P Require Import Prelude PyStr PyVal Json Effects BuildkitGate GateNative.

Local Open Scope string_scope.
Local Open Scope list_scope.
Local Open Scope Z_scope.

(** The argument vectors of the processes that were started. *)
Definition started (e : event nres) : list (list string) :=
  match e with Ev (OPopen argv) (Ok _) => [argv] | _ => [] end.
Definition popens (h : list (event nres)) : list (list string) := e ← h; started e.

(** The job's last count of active processes since the last start. *)
Definition active_step (a : option (result Z)) (e : event nres) : option (result Z) :=
  match e with
  | Ev (OPopen _) _ => None
  | Ev OAccounting r => Some r
  | _ => a
  end.
Definition last_active (h : list (event nres)) : option (result Z) := foldl active_step None h.

Lemma popens_snoc h e : popens (h ++ [e]) = popens h ++ started e.
Proof. unfold popens. rewrite bind_app. cbn. by rewrite app_nil_r. Qed.
Lemma last_active_snoc h e : last_active (h ++ [e]) = active_step (last_active h) e.
Proof. unfold last_active. by rewrite foldl_app. Qed.

(** Operations that neither start a process nor count them. *)
Definition quiet_op (o : nop) : bool :=
  match o with OPopen _ | OAccounting => false | _ => true end.

Lemma quiet_started o r : quiet_op o = true → started (Ev o r) = [].
Proof. by destruct o. Qed.
Lemma quiet_active o r a : quiet_op o = true → active_step a (Ev o r) = a.
Proof. by destruct o. Qed.

Section Native.
Context (env : environment nres) (fuel : nat) (work : string).

Abbreviation ask := (ask env).

(** A predicate of the history's starts, of its last count and of the frame. *)
Definition tracks (R : list (list string) → option (result Z) → frame → Prop) (s : native) : Prop :=
  R (popens (nt_hist s)) (last_active (nt_hist s)) (nt_frame s).

Lemma keeps_ask_quiet R o : quiet_op o = true → keeps (tracks R) (ask o).
Proof.
  intros Ho s Hs. unfold ask, perform, tracks in *. cbn [snd nt_hist log_event nt_frame].
  by rewrite popens_snoc, last_active_snoc, quiet_started, quiet_active, app_nil_r.
Qed.

(** A predicate that ignores the count is kept by counting too. *)
Lemma keeps_ask_count (R : list (list string) → frame → Prop) :
  keeps (tracks (λ p _ f, R p f)) (ask OAccounting).
Proof.
  intros s Hs. unfold ask, perform, tracks in *. cbn [snd nt_hist log_event nt_frame].
  by rewrite popens_snoc, app_nil_r.
Qed.

Lemma keeps_set_frame (R : list (list string) → option (result Z) → frame → Prop) g :
  (∀ p a f, R p a f → R p a (g f)) → keeps (tracks R) (modify (set_frame g)).
Proof. intros H s Hs. by apply H. Qed.

End Native.

#[export] Hint Extern 1 (keeps (tracks _) (GateNative.ask _ _)) =>
  first [apply keeps_ask_quiet; reflexivity | apply keeps_ask_count] : keeps.

Section Call.
Context (env : environment nres) (fuel : nat) (work : string).

Lemma bounded_finish_keeps R process deadline cancel :
  keeps (tracks (λ p _ f, R p f)) (bounded_finish env fuel process deadline cancel).
Proof. unfold bounded_finish. keeps_walk. Qed.

Lemma ask_Ret o s r s' :
  GateNative.ask env o s = (Ret r, s') → s' = log_event (Ev o (Ok r)) s.
Proof.
  unfold GateNative.ask, perform. destruct (env (nt_hist s) o) as [x|e]; cbn; [|done]. by intros [= -> <-].
Qed.

Lemma quiet_Ret o s r s' :
  quiet_op o = true → GateNative.ask env o s = (Ret r, s') →
  last_active (nt_hist s') = last_active (nt_hist s).
Proof. intros Ho ->%ask_Ret. cbn [nt_hist log_event]. by rewrite last_active_snoc, quiet_active. Qed.

Ltac ask_inv H := match type of H with GateNative.ask _ ?o _ = _ => apply (ask_Ret o) in H end.
Ltac quiet_all :=
  repeat match goal with
  | H : GateNative.ask _ ?o _ = (Ret _, _) |- _ => apply (quiet_Ret o _ _ _ eq_refl) in H
  end.

(** A finished [bounded_finish] counted no process last. *)
Lemma bounded_finish_Ret process deadline cancel s proof s' :
  bounded_finish env fuel process deadline cancel s = (Ret proof, s') →
  last_active (nt_hist s') = Some (Ok 0).
Proof.
  unfold bounded_finish. intros H.
  do 2 (apply bind_Ret in H as (? & ? & _ & H)). cbn beta in H.
  apply bind_Ret in H as (? & ? & _ & H). run_inv H.
  assert (last_active (nt_hist s0) = Some (Ok a)) as Hc.
  { ask_inv Hrun. rewrite Hrun. cbn [nt_hist log_event]. by rewrite last_active_snoc. }
  destruct (a =? 0) eqn:Ea; cbn [negb] in Hrun0; [|by run_inv Hrun0]. apply Z.eqb_eq in Ea as ->.
  run_inv Hrun0. destruct a0; run_inv Hrun2; quiet_all; congruence.
Qed.

(** The starts so far: those before the call, and this call's once the frame holds a process. *)
Definition starts_are (base : list (list string)) (argv : list string) (p : list (list string)) (f : frame) : Prop :=
  p = base ++ (if fr_process f then [argv] else []).

Definition full_argv (arguments : list string) : list string :=
  [DOCKER; "--config"; work +:+ "\docker-config"; "--host"; ENDPOINT] ++ arguments.

(** Before the start, and from the start on as long as nothing is proved. *)
Definition unstarted (base : list (list string)) : native → Prop :=
  tracks (λ p _ f, p = base ∧ fr_process f = false ∧ fr_proof f = None).
Definition watched (base : list (list string)) (argv : list string) : native → Prop :=
  tracks (λ p _ f, starts_are base argv p f ∧ fr_proof f = None).

Lemma unstarted_watched base argv s : unstarted base s → watched base argv s.
Proof.
  intros (Hp & Hf & Hpr). split; [|done]. unfold starts_are. by rewrite Hf, Hp, app_nil_r.
Qed.

Lemma popen_mark base argv :
  post (unstarted base)
    (GateNative.ask env (OPopen argv);;
     modify (set_frame (λ f, Frame (fr_job f) true (fr_proof f) (fr_failed f) (fr_timed_out f) (fr_overflow f))))
    (λ _, watched base argv).
Proof.
  intros s (Hp & Hf & Hpr). unfold mbind, M_bind, GateNative.ask, perform.
  destruct (env (nt_hist s) (OPopen argv)) as [u|e] eqn:E; cbn [out_of snd fst modify].
  - split; [|done]. unfold starts_are. cbn [nt_hist set_frame log_event nt_frame fr_process].
    by rewrite popens_snoc, Hp.
  - apply unstarted_watched. split_and!; [|done|done]. cbn [nt_hist log_event].
    by rewrite popens_snoc, app_nil_r.
Qed.

(** Starting and watching the process: one start, no proof yet. *)
Lemma watch_post base arguments fin limit :
  post (unstarted base) (watch env fuel work arguments fin limit) (λ _, watched base (full_argv arguments)).
Proof.
  unfold watch, full_argv. apply (post_seq _ (unstarted base)); [apply keeps_ask_quiet; reflexivity| |].
  2: { apply unstarted_watched. }
  intros _. apply (post_seq _ (unstarted base)); [by apply keeps_set_frame| |].
  2: { apply unstarted_watched. }
  intros _. apply post_assoc. apply (post_seq _ (watched base (full_argv arguments))); [apply popen_mark| |done].
  intros _. change (keeps (watched base (full_argv arguments)) (ask env OAttach;;
    while fuel (r ← ask env OPoll; mret (bool_decide ((r : option Z) = None)))
    (now ← ask env OClock;
     modify (set_frame (λ f, Frame (fr_job f) (fr_process f) (fr_proof f) (fr_failed f) (fleb fin now) (fr_overflow f)));;
     over ← output_overflow env limit;
     modify (set_frame (λ f, Frame (fr_job f) (fr_process f) (fr_proof f) (fr_failed f) (fr_timed_out f) over));;
     if fleb fin now || over then mret (Some tt) else ask env (OSleep POLL_SECONDS);; mret None)
    (mret tt))).
  unfold watched, output_overflow. keeps_walk; by apply keeps_set_frame.
Qed.

(** A proof in the frame means that no process was counted last. *)
Definition proven (base : list (list string)) (argv : list string) : native → Prop :=
  tracks (λ p a f, starts_are base argv p f ∧ (fr_proof f ≠ None → a = Some (Ok 0))).

Lemma watched_proven base argv s : watched base argv s → proven base argv s.
Proof. intros [H1 H2]. by split; [|rewrite H2]. Qed.

Lemma mark_failed_keeps R :
  (∀ p a f, R p a f → R p a (Frame (fr_job f) (fr_process f) (fr_proof f) true (fr_timed_out f) (fr_overflow f))) →
  keeps (tracks R) mark_failed.
Proof. intros H. by apply keeps_set_frame. Qed.

Lemma finish_post base argv deadline :
  post (watched base argv) (finish env fuel deadline) (λ _, proven base argv).
Proof.
  unfold finish. apply (post_seq _ (watched base argv)); [apply keeps_gets| |apply watched_proven].
  intros f. apply (post_seq _ (proven base argv)); [|intros _; by apply keeps_ask_quiet|done].
  destruct (fr_job f); [|intros s Hs; by apply watched_proven].
  apply (post_finally _ (proven base argv)); [|by apply keeps_ask_quiet|done].
  apply (post_try _ (watched base argv)); [| |apply watched_proven].
  - apply (post_bind _ _ _ (λ _, watched base argv)); [by apply keeps_ask_quiet| |done|intros s; apply watched_proven].
    intros now. eapply post_bind.
    + apply (keeps_Ret (watched base argv) _ (λ _ s, watched base argv s ∧ last_active (nt_hist s) = Some (Ok 0))).
      * apply bounded_finish_keeps.
      * intros s p s' H Hw. split; [done|]. by eapply bounded_finish_Ret.
    + intros p s [[Hw Hp] Ha]. split; [exact Hw|]. intros _. exact Ha.
    + done.
    + intros s. apply watched_proven.
  - intros e s Hs. apply watched_proven. by apply (mark_failed_keeps (λ p a f, starts_are base argv p f ∧ fr_proof f = None)).
Qed.

Lemma guarded_call_post base arguments fin limit deadline :
  post (unstarted base)
    (try_finally (try_except (λ _, true) (watch env fuel work arguments fin limit) (λ _, mark_failed))
       (finish env fuel deadline))
    (λ _, proven base (full_argv arguments)).
Proof.
  eapply post_finally; [|apply finish_post|apply watched_proven].
  apply (post_try _ (watched base (full_argv arguments))); [| |done].
  - eapply post_weaken; [apply watch_post|done|]. by intros [].
  - intros _. by apply (mark_failed_keeps (λ p a f, starts_are base (full_argv arguments) p f ∧ fr_proof f = None)).
Qed.

(** The counters and the record of operations change at the end of [call] only. *)
Definition recorded (q : Z) (ops : list value) (s : native) : Prop :=
  nt_sequence s = q ∧ nt_operations s = ops.

Lemma ask_recorded q ops o : keeps (recorded q ops) (ask env o).
Proof. intros s Hs. exact Hs. Qed.
Lemma set_frame_recorded q ops g : keeps (recorded q ops) (modify (set_frame g)).
Proof. intros s Hs. exact Hs. Qed.

Lemma guarded_call_recorded q ops arguments fin limit deadline :
  keeps (recorded q ops)
    (try_finally (try_except (λ _, true) (watch env fuel work arguments fin limit) (λ _, mark_failed))
       (finish env fuel deadline)).
Proof.

  unfold watch, finish, bounded_finish, output_overflow, mark_failed.
  keeps_walk; first [apply ask_recorded | apply set_frame_recorded].
Qed.

(** What a quiet operation leaves alone. *)
Definition same (s s' : native) : Prop :=
  popens (nt_hist s') = popens (nt_hist s) ∧ last_active (nt_hist s') = last_active (nt_hist s) ∧
  nt_sequence s' = nt_sequence s ∧ nt_operations s' = nt_operations s.

Lemma quiet_same o s r s' : quiet_op o = true → ask env o s = (Ret r, s') → same s s'.
Proof.
  intros Ho ->%ask_Ret. unfold same. cbn [nt_hist log_event nt_sequence nt_operations].
  by rewrite popens_snoc, last_active_snoc, quiet_active, quiet_started, app_nil_r.
Qed.

Lemma overflow_same limit s b s' : output_overflow env limit s = (Ret b, s') → same s s'.
Proof.
  unfold output_overflow. intros H. apply bind_Ret in H as (o & s1 & H1 & H).
  apply (quiet_same OStatOut _ _ _ eq_refl) in H1 as (A1 & A2 & A3 & A4).
  destruct (limit <? o); run_inv H; [by split_and!|].
  apply (quiet_same OStatErr _ _ _ eq_refl) in Hrun as (B1 & B2 & B3 & B4).
  unfold same. split_and!; congruence.
Qed.

(** ** Properties *)

(** C20. A CLI call that returns left no process behind.  Whatever the operating
    system answers, if [Native.call] returns then the Docker client was started
    exactly once, with exactly the given arguments after the fixed prefix; the
    last count of the job's active processes after that start was zero; the
    exit code is 0 unless failures were allowed; and the one record it appended
    has the next sequence number and that exit code, and is neither timed out
    nor overflowed (its tree and time are whatever was measured). *)
Theorem call_returns_clean (arguments : list string) (deadline seconds : flt) (allow_failure : bool)
    (s s' : native) (code : option Z) (text : string) :
  call env fuel work arguments deadline seconds allow_failure s = (Ret (code, text), s') →
  popens (nt_hist s') = popens (nt_hist s) ++ [full_argv arguments] ∧
  last_active (nt_hist s') = Some (Ok 0) ∧
  (code = Some 0 ∨ allow_failure = true) ∧
  ∃ proof elapsed, nt_operations s' = nt_operations s ++ [VDict [
    ("sequence", VInt (nt_sequence s + 1));
    ("exit_code", match code with Some n => VInt n | None => VNone end);
    ("timed_out", VBool false); ("overflow", VBool false); ("cli_tree", proof); ("elapsed_seconds", elapsed)]].
Proof.
  unfold call. intros H. run_inv H.
  apply (quiet_same OClock _ _ _ eq_refl) in Hrun as (A1 & A2 & A3 & A4).
  apply (quiet_same OOpenFiles _ _ _ eq_refl) in Hrun1 as S1.
  assert (same s2 s3) as S3 by (destruct (fr_overflow _); [by run_inv Hrun3|by eapply overflow_same]).
  assert (same s3 s4) as S4.
  { destruct (fr_process _); [by apply (quiet_same OReturncode _ _ _ eq_refl) in Hrun4|by run_inv Hrun4]. }
  apply (quiet_same OClock _ _ _ eq_refl) in Hrun5 as S5.
  apply (quiet_same OReadOut _ _ _ eq_refl) in Hrun8 as S8.
  assert (unstarted (popens (nt_hist s)) s1) as Hu.
  { ask_inv Hrun1. rewrite Hrun1. split_and!; [|done|done]. cbn [nt_hist log_event].
    rewrite popens_snoc, app_nil_r. exact A1. }
  pose proof (post_run _ _ _ _ _ _ (guarded_call_post _ _ _ _ _) Hu Hrun2) as [Hst Hpr].
  assert (recorded (nt_sequence s + 1) (nt_operations s) s1) as Hr.
  { destruct S1 as (_ & _ & B3 & B4). cbn in B3, B4. split; congruence. }
  pose proof (post_run _ _ _ _ _ _ (guarded_call_recorded _ _ _ _ _ _) Hr Hrun2) as Hr2.
  destruct (nt_frame s2) as [fj fp fpr ff ft fo] eqn:Ef. cbn [fr_failed fr_timed_out fr_proof fr_process] in *.
  rewrite !orb_false_iff in Hrun6. destruct Hrun6 as [[[-> ->] ->] Hproof%bool_decide_eq_false].
  apply orb_false_iff in Hrun7 as [->%negb_false_iff Hcode].
  unfold same in *. cbn [nt_hist nt_operations nt_sequence] in *. destruct_and!.
  specialize (Hpr Hproof). destruct Hr2 as [Hq Ho]. unfold starts_are in Hst. cbn [fr_process] in Hst. split_and!.
  - congruence.
  - congruence.
  - apply andb_false_iff in Hcode as [Hz%negb_false_iff|Hz%negb_false_iff]; [left|by right].
    by apply bool_decide_eq_true in Hz.
  - match goal with E : nt_operations s6 = _ |- _ => rewrite E end.
    replace (nt_operations s5) with (nt_operations s) by congruence.
    replace (nt_sequence s5) with (nt_sequence s + 1) by congruence. by eexists _, _.
Qed.

End Call.

(** ** Witness: a system on which the client prints one line and exits *)
Definition sample_system : environment nres := λ _ o,
  match o return result (nres o) with
  | OClock => Ok (fz 1)
  | OPoll | OReturncode => Ok (Some 0)
  | OStatOut | OStatErr | OAccounting => Ok 0
  | OAssigned | OResumed | OTerminate => Ok true
  | OReadOut | OReadErr => Ok ("24.0.7" +:+ LF)
  | OSleep _ | OOpenFiles | OJob | OPopen _ | OAttach | OFlush | OKill | OWait _ | OClose => Ok tt
  end.
Definition sample_native : native := NativeState 0 [] frame0 [].
Theorem call_returns_clean_witness :
  ∃ s', call sample_system 3 "D:\work" ["version"] (fz 100) (fz 10) false sample_native
          = (Ret (Some 0, "24.0.7"), s') ∧
  popens (nt_hist s') = [full_argv "D:\work" ["version"]] ∧ last_active (nt_hist s') = Some (Ok 0).
Proof.
  assert (∃ s', call sample_system 3 "D:\work" ["version"] (fz 100) (fz 10) false sample_native
                  = (Ret (Some 0, "24.0.7"), s')) as [s' E].
  { eexists. vm_compute. reflexivity. }
  exists s'. split; [exact E|].
  destruct (call_returns_clean sample_system 3 "D:\work" ["version"] (fz 100) (fz 10) false sample_native s'
              (Some 0) "24.0.7" E) as (H1 & H2 & _).
  split; [exact H1|exact H2].
Defined.
