(* ===== verification/GateController.v ===== *)
(** * BuildKit gate: the controller and the execution
    ([Controller] and [execute] of [scripts/buildkit_resource_gate.py],
    lines 105 to 139, 718 to 731 and 877 to 1389)

    The controller drives Docker through a [Native] interface, which [GateNative]
    implements; clocks and files are an environment of [gop] operations.  The
    state [ctl] holds the controller's attributes and the locals of [execute]
    that its [finally] block reads; [c_calls] logs every CLI call with its
    outcome and has no counterpart in the source.  A path is the list of its
    components. *)

From S2P Require Import Prelude PyStr Regex Sha256 PyVal Json Effects BuildkitGate.

Local Open Scope string_scope.
Local Open Scope list_scope.
Local Open Scope Z_scope.
Local Open Scope regex_scope.

(** ** Interfaces *)
(** What the controller needs of the CLI: one bounded call and the last call's errors. *)
Class Native (N : Type) := {
  native_call : list string → flt → flt → bool → M N (option Z * string);
  native_errors : M N string;
  native_operations : N → list value;
}.

Abbreviation path := (list string).

Inductive gop :=
  | GClock                                  (* time.monotonic() *)
  | GSleep (seconds : flt)
  | GNow                                    (* datetime.now(UTC).isoformat() *)
  | GUuid                                   (* uuid.uuid4().hex *)
  | GExists (p : path) | GIsSymlink (p : path)
  | GAttributes (p : path)                  (* getattr(lstat(), "st_file_attributes", 0) *)
  | GResolve (p : path)                     (* resolve(strict=True) *)
  | GIsFile (p : path) | GSize (p : path)
  | GRead (p : path) (limit : Z)            (* open("rb").read(limit) *)
  | GWriteNew (p : path) (data : string)    (* open("xb"): write, flush, fsync *)
  | GMkdir (p : path) | GIsDir (p : path) | GUnlink (p : path)
  | GImportJob.                             (* load the reviewed job module *)

Definition gres (o : gop) : Type :=
  match o with
  | GClock => flt
  | GNow | GUuid | GRead _ _ => string
  | GExists _ | GIsSymlink _ | GIsFile _ | GIsDir _ => bool
  | GAttributes _ | GSize _ => Z
  | _ => unit
  end.

Abbreviation cli_result := (option Z * string)%type.
Abbreviation inventory_t := (list (string * list string)).

Record ctl (N : Type) := Ctl {
  c_cid : option string;
  c_intended : bool;
  c_labels : value;
  c_proofs : dict;
  c_baseline : inventory_t;
  c_deadline : flt;
  c_native : N;
  c_calls : list (list string * out cli_result);
  c_hist : list (event gres);
  (* locals of execute *)
  c_controller : bool;           (* controller is not None *)
  c_work : bool;                 (* work is not None *)
  c_failed : option string;
  c_cleanup : bool;
}.
Arguments Ctl {N}.
Arguments c_cid {N}. Arguments c_intended {N}. Arguments c_labels {N}. Arguments c_proofs {N}.
Arguments c_baseline {N}. Arguments c_deadline {N}. Arguments c_native {N}. Arguments c_calls {N}.
Arguments c_hist {N}. Arguments c_controller {N}. Arguments c_work {N}. Arguments c_failed {N}.
Arguments c_cleanup {N}.

Section Setters.
Context {N : Type}.
Definition set_cid x (s : ctl N) := Ctl x (c_intended s) (c_labels s) (c_proofs s) (c_baseline s) (c_deadline s)
  (c_native s) (c_calls s) (c_hist s) (c_controller s) (c_work s) (c_failed s) (c_cleanup s).
Definition set_intended x (s : ctl N) := Ctl (c_cid s) x (c_labels s) (c_proofs s) (c_baseline s) (c_deadline s)
  (c_native s) (c_calls s) (c_hist s) (c_controller s) (c_work s) (c_failed s) (c_cleanup s).
Definition set_labels x (s : ctl N) := Ctl (c_cid s) (c_intended s) x (c_proofs s) (c_baseline s) (c_deadline s)
  (c_native s) (c_calls s) (c_hist s) (c_controller s) (c_work s) (c_failed s) (c_cleanup s).
Definition set_proofs x (s : ctl N) := Ctl (c_cid s) (c_intended s) (c_labels s) x (c_baseline s) (c_deadline s)
  (c_native s) (c_calls s) (c_hist s) (c_controller s) (c_work s) (c_failed s) (c_cleanup s).
Definition set_baseline x (s : ctl N) := Ctl (c_cid s) (c_intended s) (c_labels s) (c_proofs s) x (c_deadline s)
  (c_native s) (c_calls s) (c_hist s) (c_controller s) (c_work s) (c_failed s) (c_cleanup s).
Definition set_deadline x (s : ctl N) := Ctl (c_cid s) (c_intended s) (c_labels s) (c_proofs s) (c_baseline s) x
  (c_native s) (c_calls s) (c_hist s) (c_controller s) (c_work s) (c_failed s) (c_cleanup s).
Definition set_native (x : N) (s : ctl N) := Ctl (c_cid s) (c_intended s) (c_labels s) (c_proofs s) (c_baseline s)
  (c_deadline s) x (c_calls s) (c_hist s) (c_controller s) (c_work s) (c_failed s) (c_cleanup s).
Definition set_calls x (s : ctl N) := Ctl (c_cid s) (c_intended s) (c_labels s) (c_proofs s) (c_baseline s)
  (c_deadline s) (c_native s) x (c_hist s) (c_controller s) (c_work s) (c_failed s) (c_cleanup s).
Definition log_g (e : event gres) (s : ctl N) := Ctl (c_cid s) (c_intended s) (c_labels s) (c_proofs s)
  (c_baseline s) (c_deadline s) (c_native s) (c_calls s) (c_hist s ++ [e]) (c_controller s) (c_work s)
  (c_failed s) (c_cleanup s).
Definition set_controller x (s : ctl N) := Ctl (c_cid s) (c_intended s) (c_labels s) (c_proofs s) (c_baseline s)
  (c_deadline s) (c_native s) (c_calls s) (c_hist s) x (c_work s) (c_failed s) (c_cleanup s).
Definition set_work x (s : ctl N) := Ctl (c_cid s) (c_intended s) (c_labels s) (c_proofs s) (c_baseline s)
  (c_deadline s) (c_native s) (c_calls s) (c_hist s) (c_controller s) x (c_failed s) (c_cleanup s).
Definition set_failed x (s : ctl N) := Ctl (c_cid s) (c_intended s) (c_labels s) (c_proofs s) (c_baseline s)
  (c_deadline s) (c_native s) (c_calls s) (c_hist s) (c_controller s) (c_work s) x (c_cleanup s).
Definition set_cleanup x (s : ctl N) := Ctl (c_cid s) (c_intended s) (c_labels s) (c_proofs s) (c_baseline s)
  (c_deadline s) (c_native s) (c_calls s) (c_hist s) (c_controller s) (c_work s) (c_failed s) x.
Definition put_proof k v (s : ctl N) := set_proofs (dset k v (c_proofs s)) s.
End Setters.

(** ** Evidence as JSON values *)
Definition cgroup_value (c : cgroup_view) : value := VDict [
  ("cpu_quota", VInt (cg_cpu_quota c)); ("cpu_period", VInt (cg_cpu_period c));
  ("memory_max", VInt (cg_memory_max c)); ("swap_max", VInt (cg_swap_max c)); ("pids_max", VInt (cg_pids_max c));
  ("nr_throttled", VInt (cg_nr_throttled c)); ("usage_usec", VInt (cg_usage_usec c));
  ("namespace", VStr (cg_namespace c))].
Definition worker_value (w : worker) : value := VDict [
  ("pid", VInt (wk_pid w)); ("start_ticks", VInt (wk_start_ticks w)); ("cgroup", VStr (wk_cgroup w));
  ("namespace", VStr (wk_namespace w))].
Definition row_value (r : mount_row) : value := VDict [
  ("mount_id", VInt (mr_mount_id r)); ("parent_id", VInt (mr_parent_id r));
  ("device_major", VInt (mr_device_major r)); ("device_minor", VInt (mr_device_minor r));
  ("filesystem", VStr "tmpfs"); ("rw", VBool true); ("nosuid", VBool true); ("nodev", VBool true);
  ("noexec", VBool (mr_noexec r)); ("mode", VStr (mr_mode r)); ("uid", VInt (mr_uid r)); ("gid", VInt (mr_gid r))].
Definition mounts_value (p : mount_proof) : value := VDict [
  ("daemon", VDict [("pid", VInt (dm_pid (mp_daemon p))); ("start_ticks", VInt (dm_start_ticks (mp_daemon p)));
     ("mount_namespace_inode", VInt (dm_mount_namespace_inode (mp_daemon p)))]);
  ("container_mount_namespace_inode", VInt (mp_container_ns p));
  ("mounts", VDict ((λ d, (d, VDict (omap (λ kr : (string * string) * mount_row,
     if String.eqb kr.1.1 d then Some (kr.1.2, row_value kr.2) else None) (mp_mounts p)))) <$> MOUNT_DOMAINS));
  ("build_execution_tested", VBool false); ("resource_qualification", VStr "UNPROVEN")].
Definition modes_value (l : list (string * file_mode)) : value := VDict ((λ pm : string * file_mode,
  (pm.1, VDict [("mode", VStr (fm_mode pm.2)); ("uid", VInt (fm_uid pm.2)); ("gid", VInt (fm_gid pm.2))])) <$> l).

Section Gate.
Context {N : Type} {native : Native N} (genv : environment gres) (fuel : nat).

Abbreviation C := (M (ctl N)).
Definition gask (o : gop) : C (gres o) := perform gres c_hist log_g genv o.
Definition gate_fail_if (b : bool) (code : string) : C unit := throw_if b GateError code.

(** ** Files *)
(** The path and its parents, the root last. *)
Fixpoint with_parents (rev_path : path) : list path :=
  match rev_path with [] => [] | x :: r => reverse (x :: r) :: with_parents r end.

Definition reject_reparse (p : path) : C unit :=
  present ← (e ← gask (GExists p); if (e : bool) then mret true else gask (GIsSymlink p));
  (if (present : bool) then
     link ← gask (GIsSymlink p);
     bad ← (if (link : bool) then mret true else a ← gask (GAttributes p); mret (negb (Z.land a 0x400 =? 0)));
     gate_fail_if bad "REPARSE_PATH_REJECTED"
   else mret tt).

Definition strict_path (p : path) : C unit :=
  forM (with_parents (reverse p)) reject_reparse;; gask (GResolve p).

Definition bounded (p : path) (limit : Z) : C string :=
  strict_path p;;
  bad ← (f ← gask (GIsFile p); if negb f then mret true else n ← gask (GSize p); mret (limit <? n));
  gate_fail_if bad "BOUNDED_REGULAR_FILE_REQUIRED";;
  data ← gask (GRead p (limit + 1));
  gate_fail_if (limit <? slen data) "BOUNDED_REGULAR_FILE_REQUIRED";;
  mret data.

Definition sha (p : path) : C string := data ← bounded p MAX_OUTPUT; mret (sha256_hex data).

Definition save_new (p : path) (v : value) : C unit :=
  strict_path (removelast p);;
  text ← liftR (json_dumps compact_style v);
  let data := text +:+ LF in
  gate_fail_if (MAX_OUTPUT <? slen data) "RECEIPT_SIZE_BOUNDARY";;
  gask (GWriteNew p data).

Context (work : path) (owner image image_id : string).

(** ** The controller *)
Definition ten : flt := fz 10.

Definition logged_call (args : list string) (limit seconds : flt) (allow_failure : bool) : C cli_result := λ s,
  let '(r, n) := native_call args limit seconds allow_failure (c_native s) in
  (r, set_calls (c_calls s ++ [(args, r)]) (set_native n s)).

Definition call (args : list string) (seconds : flt) (allow_failure : bool) (phase_deadline : option flt)
    : C cli_result :=
  deadline ← gets c_deadline;
  logged_call args (match phase_deadline with Some d => fmin deadline d | None => deadline end) seconds allow_failure.

Definition call0 (args : list string) : C string := r ← call args ten false None; mret r.2.

Definition config_env : string := "DOCKER_CONFIG=" +:+ ROOT +:+ "/empty-config".
Definition exec_args (cid : string) (rest : list string) : list string := ["exec"; "--env"; config_env; cid] ++ rest.

Definition shell (script : string) (seconds : flt) (allow_failure : bool) (phase_deadline : option flt) : C cli_result :=
  cid ← gets c_cid;
  match cid with
  | None => throw GateError "OWNED_SERVER_REQUIRED"
  | Some cid => call (exec_args cid ["/bin/sh"; "-c"; script]) seconds allow_failure phase_deadline
  end.
Definition shell0 (script : string) : C string := r ← shell script ten false None; mret r.2.

Definition current_cid : C string := c ← gets c_cid; mret (default EmptyString c).

Definition inspect : C value :=
  cid ← gets c_cid;
  text ← call0 ["inspect"; "--format"; VIEW; default EmptyString cid];
  v ← liftR (json_loads text);
  labels ← gets c_labels;
  verified ← liftR (verify_container v owner image_id labels);
  gate_fail_if (negb (bool_decide (Some verified = cid))) "EXACT_SERVER_ID_CHANGED";;
  mret v.

Definition observe_mounts : C mount_proof :=
  deadline ← gets c_deadline;
  now ← gask GClock;
  let phase_end := fmin deadline (fadd now (fz 9)) in
  output ← shell MOUNT_PROBE (fz 5) false (Some phase_end);
  now ← gask GClock;
  gate_fail_if (fleb phase_end now) "EFFECTIVE_MOUNT_PROBE_DEADLINE";;
  liftR (parse_mounts output.2).

Definition resource_re : regex := RRange 1 128 (RChar (λ c, is_alnum c || is_any ["_"; "."; ":"; "-"]%char c)).

Definition inventory_kinds : list (string * list string) :=
  [("containers", ["ps"; "-aq"; "--no-trunc"]); ("networks", ["network"; "ls"; "-q"; "--no-trunc"]);
   ("volumes", ["volume"; "ls"; "-q"]); ("images", ["image"; "ls"; "-aq"; "--no-trunc"])].

Definition inventory_of (key text : string) : result (list string) :=
  let values := splitlines text in
  _ ← gate_if ((4096 <? length values)%nat || (negb (String.eqb key "images") && negb (no_dup values))
               || existsb (λ v, negb (fullmatch resource_re v)) values) "LOCAL_RESOURCE_INVENTORY_BOUNDARY";
  Ok (sort_str (remove_dups values)).

Definition inventory : C inventory_t :=
  mapM (λ ka : string * list string, text ← call0 ka.2; values ← liftR (inventory_of ka.1 text); mret (ka.1, values))
    inventory_kinds.

(** *** [run], phase by phase *)
Definition run_preflight : C unit :=
  baseline ← inventory;
  modify (set_baseline baseline);;
  existing ← call0 ["ps"; "-aq"; "--no-trunc"; "--filter"; "label=" +:+ SCOPE_LABEL +:+ "=" +:+ SCOPE];
  gate_fail_if (negb (String.eqb existing EmptyString)) "EXISTING_SCOPE_NO_DUPLICATE_OR_ADOPTION";;
  text ← call0 ["image"; "inspect"; "--format"; VIEW; image];
  view ← liftR (json_loads text);
  after ← liftR (match split_once "@" image with Some (_, d) => Ok d | None => raise IndexError "list index out of range" end);
  changed ← liftR (
    neqR (py_get "Id" view) (VStr image_id)
    ||? (ds ← py_getd "RepoDigests" (VList []) view; b ← py_in (VStr ("moby/buildkit@" +:+ after)) ds; Ok (negb b))
    ||? neqR (py_get "Architecture" view) (VStr "amd64")
    ||? neqR (py_get "Os" view) (VStr "linux"));
  gate_fail_if changed "LOCAL_IMAGE_IDENTITY_CHANGED_NO_PULL";;
  labels ← liftR (c ← py_getd "Config" (VDict []) view; l ← py_get "Labels" c; Ok (py_or l (VDict [])));
  modify (set_labels labels);;
  user ← liftR (c ← py_getd "Config" (VDict []) view; neqR (py_get "User" c) (VStr "1000:1000"));
  gate_fail_if user "OFFICIAL_ROOTLESS_IMAGE_USER_CHANGED".

Definition run_create : C unit :=
  name ← liftR (owner_name owner);
  save_new (work ++ ["create.intent.json"])
    (VDict [("name", VStr name); ("owner", VStr owner); ("image_id", VStr image_id); ("no_retry", VBool true)]);;
  modify (set_intended true);;
  args ← liftR (create_arguments owner image_id);
  cid ← call0 args;
  modify (set_cid (Some cid));;
  _ ← liftR (digest (VStr cid));
  save_new (work ++ ["create.ack.json"]) (VDict [("id", VStr cid)]);;
  inspect;;
  call0 ["start"; cid];;
  mret tt.

Definition run_ready : C unit :=
  cid ← current_cid;
  deadline ← gets c_deadline;
  now ← gask GClock;
  let ready_end := fmin deadline (fadd now (fz 25)) in
  while fuel (now ← gask GClock; mret (fltb now ready_end))
    (r ← call ["exec"; cid; "buildctl"; "--addr"; SOCKET; "debug"; "workers"; "--format"; VIEW]
           (fz 3) true (Some ready_end);
     if bool_decide (r.1 = Some 0) && negb (String.eqb r.2 EmptyString) then
       actual ← liftR (worker_info r.2);
       now ← gask GClock;
       gate_fail_if (fleb ready_end now) "OWNED_BUILDKIT_READY_TIMEOUT";;
       modify (put_proof "worker_configuration" actual);;
       mret (Some tt)
     else gask (GSleep (float_of_dec false 2 (-1)));; mret None)
    (throw GateError "OWNED_BUILDKIT_READY_TIMEOUT").

Definition binary_line_re : regex :=
  HEX64 ⋅ RLit "  /tmp/kairos-buildkit-gate/context/"
  ⋅ (RLit "bin/busybox" ∣ RLit "lib/ld-musl-x86_64" ⋅ RDot ⋅ RLit "so" ⋅ RDot ⋅ RLit "1").

Definition run_probe : C (cgroup_view * string * mount_proof) :=
  cg ← shell0 CGROUP_PROBE;
  before ← liftR (parse_cgroup cg);
  modify (put_proof "kernel_before" (cgroup_value before));;
  server_path ← shell0 "cat /proc/1/cgroup";
  _ ← liftR (cgroup_path server_path);
  mounts ← observe_mounts;
  modify (put_proof "effective_mounts_before" (mounts_value mounts));;
  script ← liftR (fixture_script owner);
  binaries ← shell0 script;
  let lines := splitlines binaries in
  gate_fail_if (negb (Nat.eqb (length lines) 2) || existsb (λ l, negb (fullmatch binary_line_re l)) lines)
    "IMAGE_OWNED_SYNTHETIC_BINARY_IDENTITY";;
  modify (put_proof "synthetic_binary_hashes" (vstrs ((λ l, default EmptyString (head (words l))) <$> lines)));;
  mret (before, server_path, mounts).

Definition build (case : string) (seconds : flt) (allow_failure : bool) : C cli_result :=
  cid ← current_cid;
  args ← liftR (build_arguments case);
  call (exec_args cid args) seconds allow_failure None.

Definition run_inspections : C unit :=
  forM ["inspect-before"; "inspect-after"] (λ case,
    (if String.eqb case "inspect-after"
     then shell0 ("chmod 0755 " +:+ ROOT +:+ "/context/bin " +:+ ROOT +:+ "/context/lib");; mret tt
     else mret tt);;
    build case (fz 15) false;;
    probe ← liftR (rootfs_mode_probe case);
    modes ← shell0 probe;
    rows ← liftR (parse_rootfs_modes modes (String.eqb case "inspect-after"));
    modify (put_proof ("rootfs_modes_" +:+ sdrop (String.length "inspect-") case) (modes_value rows))).

Definition run_success_and_fault : C unit :=
  build "success" (fz 30) false;;
  payload ← shell0 ("sha256sum " +:+ ROOT +:+ "/result-success/result");
  first ← liftR (match words payload with w :: _ => Ok w | [] => raise IndexError "list index out of range" end);
  gate_fail_if (negb (String.eqb first (sha256_hex PAYLOAD))) "DETERMINISTIC_SYNTHETIC_BUILD_MISMATCH";;
  modify (put_proof "tiny_build_sha256" (VStr first));;
  fault ← build "fault" (fz 20) true;
  errors ← on_part c_native set_native native_errors;
  let fault_capture := fault.2 +:+ errors in
  gate_fail_if (bool_decide (fault.1 = Some 0) || negb (contains "KAIROS_SYNTHETIC_FAULT37" fault_capture)
                || negb (contains "exit code: 37" fault_capture)) "SYNTHETIC_FAULT_NOT_REJECTED";;
  modify (put_proof "fault_exit_code" (match fault.1 with Some n => VInt n | None => VNone end)).

Definition launch_script (args : list string) : string :=
  "umask 077; (" +:+ join " " args +:+ " > " +:+ ROOT +:+ "/cancel.stdout 2> " +:+ ROOT
  +:+ bt "/cancel.stderr & client=$!; printf '%s' `$client` > " +:+ ROOT
  +:+ "/client.pid; sed 's/.*) //' /proc/$client/stat | awk '{print $20}' > " +:+ ROOT
  +:+ bt "/client.start; wait `$client`; printf '%s' `$?` > " +:+ ROOT +:+ "/client.exit)".

Definition kill_script : string :=
  "set -eu; pid=$(cat " +:+ ROOT
  +:+ bt "/client.pid); case `$pid` in *[!0-9]*|``) exit 90;; esac; expected=$(cat " +:+ ROOT
  +:+ bt "/client.start); case `$expected` in *[!0-9]*|``) exit 90;; esac; "
  +:+ bt "actual=$(sed 's/.*) //' /proc/$pid/stat | awk '{print $20}'); [ `$actual` = `$expected` ] || exit 91; "
  +:+ bt "args=$(tr `\000` ` ` < /proc/$pid/cmdline); case `$args` in `buildctl --addr " +:+ SOCKET
  +:+ bt " build --progress=plain --frontend dockerfile.v0 `*`filename=Dockerfile.cancel `*) ;; *) exit 91;; esac; kill -TERM `$pid`".

Definition run_launch : C unit :=
  cid ← current_cid;
  args ← liftR (build_arguments "cancel");
  call0 (["exec"; "-d"; "--env"; config_env; cid; "/bin/sh"; "-c"; launch_script args]);;
  mret tt.

Definition fifth : flt := float_of_dec false 2 (-1).

Definition run_workers (before : cgroup_view) (server_path : string) : C (list worker) :=
  deadline ← gets c_deadline;
  now ← gask GClock;
  let worker_end := fmin deadline (fadd now (fz 20)) in
  active ← while fuel (now ← gask GClock; mret (fltb now worker_end))
    (r ← shell WORKER_PROBE ten false (Some worker_end);
     active ← liftR (parse_workers r.2 server_path (cg_namespace before));
     if (2 <=? length active)%nat then
       now ← gask GClock;
       gate_fail_if (fleb worker_end now) "REAL_SYNTHETIC_WORKERS_NOT_OBSERVED";;
       mret (Some active)
     else gask (GSleep fifth);; mret None)
    (throw GateError "REAL_SYNTHETIC_WORKERS_NOT_OBSERVED");
  modify (put_proof "workers_before_cancel" (VList (worker_value <$> active)));;
  mret active.

Definition run_load (before : cgroup_view) : C cgroup_view :=
  gask (GSleep (fz 1));;
  cg ← shell0 CGROUP_PROBE;
  busy ← liftR (parse_cgroup cg);
  gate_fail_if ((cg_nr_throttled busy <=? cg_nr_throttled before) || (cg_usage_usec busy <=? cg_usage_usec before))
    "ACTUAL_SERVER_CPU_ENFORCEMENT_UNPROVEN";;
  modify (put_proof "kernel_under_load" (cgroup_value busy));;
  shell0 kill_script;;
  mret busy.

Definition exit_probe : string := "test -f " +:+ ROOT +:+ "/client.exit && cat " +:+ ROOT +:+ "/client.exit".

(** [code == 0 and status.isdecimal() and int(status) != 0] *)
Definition client_failed (code : option Z) (status : string) : result bool :=
  Ok (bool_decide (code = Some 0)) &&? Ok (isdecimal status)
  &&? (n ← int_of_decimal status; Ok (negb (n =? 0))).

Definition run_cancel (active : list worker) (server_path : string) (busy : cgroup_view) : C unit :=
  deadline ← gets c_deadline;
  now ← gask GClock;
  let cancel_end := fmin deadline (fadd now (fz 15)) in
  status ← while fuel (now ← gask GClock; mret (fltb now cancel_end))
    (r ← shell WORKER_PROBE ten false (Some cancel_end);
     remaining ← liftR (parse_workers r.2 server_path (cg_namespace busy));
     st ← shell exit_probe ten true (Some cancel_end);
     ended ← liftR (Ok (bool_decide (remaining = [])) &&? client_failed st.1 st.2);
     gone ← (if (ended : bool) then
               script ← liftR (exited_worker_script active);
               g ← shell script ten true (Some cancel_end);
               if bool_decide (g.1 = Some 0) then
                 now ← gask GClock;
                 gate_fail_if (fleb cancel_end now) "LINUX_SERVER_CANCELLATION_UNPROVEN";;
                 mret true
               else mret false
             else mret false);
     if (gone : bool) then mret (Some st.2) else gask (GSleep fifth);; mret None)
    (throw GateError "LINUX_SERVER_CANCELLATION_UNPROVEN");
  modify (put_proof "workers_after_cancel" (VList []));;
  code ← liftR (int_of_decimal status);
  modify (put_proof "cancelled_client_exit_code" (VInt code)).

Definition run_after (mounts_before : mount_proof) : C unit :=
  view ← inspect;
  running ← liftR (s ← py_getd "State" (VDict []) view; r ← py_get "Running" s; Ok (is_true r));
  gate_fail_if (negb running) "SERVER_DIED_INSTEAD_OF_CANCELLING_WORKERS";;
  build "success" (fz 30) false;;
  modify (put_proof "fresh_build_after_cancel" (VBool true));;
  mounts ← observe_mounts;
  modify (put_proof "effective_mounts_after" (mounts_value mounts));;
  gate_fail_if (negb (py_eq (mounts_value mounts_before) (mounts_value mounts)))
    "EFFECTIVE_MOUNT_BOUNDARY_CHANGED_DURING_BUILD".

Definition run : C unit :=
  run_preflight;;
  run_create;;
  run_ready;;
  '(before, server_path, mounts) ← run_probe;
  run_inspections;;
  run_success_and_fault;;
  run_launch;;
  active ← run_workers before server_path;
  busy ← run_load before;
  run_cancel active server_path busy;;
  run_after mounts.

(** *** [cleanup] *)
Definition adopt : C unit :=
  cid ← gets c_cid;
  intended ← gets c_intended;
  if bool_decide (cid = None) && intended then
    text ← call0 ["ps"; "-aq"; "--no-trunc"; "--filter"; "label=" +:+ OWNER_LABEL +:+ "=" +:+ owner;
                  "--filter"; "label=" +:+ SCOPE_LABEL +:+ "=" +:+ SCOPE];
    match splitlines text with
    | [one] => c ← liftR (digest (VStr one)); modify (set_cid (Some c))
    | _ => throw GateError "CREATION_OUTCOME_UNKNOWN_PRESERVE_LEASE"
    end
  else mret tt.

Definition stopped (view : value) : result bool :=
  s ← py_getd "State" (VDict []) view;
  r ← py_get "Running" s;
  if negb (is_false r) then Ok false
  else s ← py_getd "State" (VDict []) view; p ← py_get "Pid" s; Ok (py_eq p (VInt 0)).

Definition remove_server (cid : string) : C unit :=
  inspect;;
  call ["stop"; "--time"; "3"; cid] (fz 6) false None;;
  view ← inspect;
  ok ← liftR (stopped view);
  gate_fail_if (negb ok) "LINUX_SERVER_TREE_CLEANUP_UNPROVEN";;
  call0 ["rm"; cid];;
  mret tt.

Definition cleanup : C bool :=
  adopt;;
  cid ← gets c_cid;
  (match cid with
   | Some c => if String.eqb c EmptyString then mret tt else remove_server c
   | None => mret tt
   end);;
  after ← inventory;
  baseline ← gets c_baseline;
  gate_fail_if (negb (bool_decide (after = baseline))) "UNRELATED_RESOURCE_INVENTORY_CHANGED";;
  mret true.

End Gate.

(** ** [execute] *)
Definition OPS : path := ["D:\"; "Kairos"; "runtime"; "buildkit-resource-20261003"].
Definition REPO : path := ["D:\"; "Kairos"; "kairos-deploy"].
Definition JOB_SOURCE : path :=
  ["D:\"; "Kairos"; "runtime"; "operator-control-20261002"; "run-current-source-docker-gates.py"].
Definition MAIN_REF : path := REPO ++ [".git"; "refs"; "heads"; "main"].
Definition HEAD_REF : path := REPO ++ [".git"; "HEAD"].

(** A version-4 UUID without dashes *)
Definition uuid4_re : regex :=
  RRep 12 (RChar is_lower_hex) ⋅ RLit "4" ⋅ RRep 3 (RChar is_lower_hex)
  ⋅ RChar (is_any ["8"; "9"; "a"; "b"]%char) ⋅ RRep 15 (RChar is_lower_hex).

Definition ctl0 {N} (n : N) : ctl N :=
  Ctl None false (VDict []) [] [] (fz 0) n [] [] false false None false.

Section Execute.
Context {N : Type} {native : Native N} (genv : environment gres) (fuel : nat).
(** [Path(__file__)] *)
Context (source_file : path).
Context (image image_id expected_source_sha expected_deploy_sha : string).

Abbreviation C := (M (ctl N)).
Abbreviation gask := (gask genv).
Abbreviation save_new := (save_new genv).
Abbreviation sha := (sha genv).
Abbreviation bounded := (bounded genv).

Definition job_module : C unit :=
  a ← sha JOB_SOURCE;
  gate_fail_if (negb (String.eqb a JOB_SHA)) "REVIEWED_WINDOWS_JOB_SOURCE_CHANGED";;
  gask GImportJob;;
  b ← sha JOB_SOURCE;
  gate_fail_if (negb (String.eqb b JOB_SHA)) "REVIEWED_WINDOWS_JOB_SOURCE_CHANGED".

(** [bounded(path, 256).decode().strip()] *)
Definition read_ref (p : path) : C string :=
  data ← bounded p 256; text ← liftR (utf8_decode data); mret (strip text).

Section Owned.
Context (owner : string).

Definition lease : path := OPS ++ ["execution.lease"].
Definition work : path := OPS ++ ["run-" +:+ owner].

Definition execute_try (started : flt) : C unit :=
  gask (GMkdir work);;
  modify (set_work true);;
  gask (GMkdir (work ++ ["docker-config"]));;
  save_new (work ++ ["docker-config"; "config.json"]) (VDict [("auths", VDict [])]);;
  save_new (work ++ ["control.json"]) (VDict [
    ("owner", VStr owner); ("source_sha256", VStr expected_source_sha); ("deploy_sha", VStr expected_deploy_sha);
    ("image", VStr image); ("image_id", VStr image_id); ("job_sha256", VStr JOB_SHA); ("seconds", VInt TOTAL_SECONDS)]);;
  changed ← (head ← read_ref HEAD_REF;
             if negb (String.eqb head "ref: refs/heads/main") then mret true
             else main ← read_ref MAIN_REF; mret (negb (String.eqb main expected_deploy_sha)));
  gate_fail_if changed "DEPLOY_MAIN_SOURCE_CHANGED";;
  job_module;;
  _ ← liftR (image_reference image);
  _ ← liftR (digest_image (VStr image_id));
  modify (set_deadline (fadd started (fz WORK_SECONDS)));;
  modify (set_controller true);;
  run genv fuel work owner image image_id;;
  changed ← (a ← sha source_file;
             if negb (String.eqb a expected_source_sha) then mret true
             else b ← sha JOB_SOURCE;
             if negb (String.eqb b JOB_SHA) then mret true
             else main ← read_ref MAIN_REF; mret (negb (String.eqb main expected_deploy_sha)));
  gate_fail_if changed "REVIEWED_SOURCE_CHANGED_DURING_NATIVE".

Definition passed (s : ctl N) : bool := bool_decide (c_failed s = None) && c_cleanup s.

Definition receipt (s : ctl N) (elapsed : flt) (completed : string) : value := VDict [
  ("kind", VStr SCOPE);
  ("result", VStr (if passed s then "PASS_SYNTHETIC_ONLY" else "FAILED_OR_UNKNOWN"));
  ("failure_category", match c_failed s with Some f => VStr f | None => VNone end);
  ("owned_cleanup_verified", VBool (c_cleanup s)); ("lease_retained", VBool (negb (c_cleanup s)));
  ("source_sha256", VStr expected_source_sha); ("deploy_sha", VStr expected_deploy_sha);
  ("invocation_owner", VStr owner); ("image", VStr image); ("image_id", VStr image_id);
  ("proofs", VDict (if c_controller s then c_proofs s else []));
  ("native_operations", VList (if c_controller s then native_operations (c_native s) else []));
  ("elapsed_seconds", VFloat elapsed); ("completed_at_utc", VStr completed);
  ("default_builder_mutations", VInt 0); ("image_pulls", VInt 0); ("primary_mutations", VInt 0);
  ("provider_or_trading_calls", VInt 0); ("scope_qualification_only", VBool true);
  ("production_build_qualified", VBool false);
  ("readiness", VDict [("PAPER_QUALIFIED", VBool false); ("ALPHA_READY", VBool false); ("LIVE_READY", VBool false);
     ("STRATEGY_POLICY", VStr "REJECT_ALL")])].

Definition execute_finally (started : flt) : C unit :=
  controller ← gets c_controller;
  (if (controller : bool) then
     now ← gask GClock;
     modify (set_deadline (fmin (fadd now (fz CLEANUP_SECONDS)) (fadd started (fz TOTAL_SECONDS))));;
     ok ← try_except (λ _, true) (cleanup owner image_id) (λ _, mret false);
     modify (set_cleanup ok)
   else mret tt);;
  made ← gets c_work;
  present ← (if (made : bool) then gask (GIsDir work) else mret false);
  (if (present : bool) then
     now ← gask GClock;
     completed ← gask GNow;
     s ← get;
     save_new (work ++ ["receipt.json"]) (receipt s (round_digits 6 (fsub now started)) completed)
   else mret tt);;
  ok ← gets c_cleanup;
  (if (ok : bool) then
     held ← bounded lease 32;
     gate_fail_if (negb (String.eqb held owner)) "LEASE_OWNERSHIP_CHANGED";;
     gask (GUnlink lease)
   else mret tt).

Definition execute_owned : C path :=
  gate_fail_if (negb (fullmatch uuid4_re owner)) "EXACT_UUID4_INVOCATION_OWNER_REQUIRED";;
  _ ← liftR (digest (VStr expected_source_sha));
  bad ← (if negb (fullmatch HEX40 expected_deploy_sha) then mret true
         else a ← sha source_file; mret (negb (String.eqb a expected_source_sha)));
  gate_fail_if bad "REVIEWED_SOURCE_IDENTITY_REQUIRED";;
  _ ← liftR (image_reference image);
  _ ← liftR (digest_image (VStr image_id));
  strict_path genv OPS;;
  gask (GWriteNew lease owner);;
  started ← gask GClock;
  try_finally
    (try_except (λ _, true) (execute_try started)
       (λ e, modify (set_failed (Some (if bool_decide (exc_cls e = GateError) then exc_msg e
                                       else "NATIVE_GATE_FAILED_CLOSED")))))
    (execute_finally started);;
  ok ← gets passed;
  gate_fail_if (negb ok) "BUILDKIT_GATE_FAILED_OR_UNKNOWN_PRESERVE_EVIDENCE";;
  made ← gets c_work;
  gate_fail_if (negb made) "EXCLUSIVE_WORKSPACE_REQUIRED";;
  mret (work ++ ["receipt.json"]).
End Owned.

Definition execute (invocation_owner : option string) : C path :=
  owner ← match invocation_owner with None => gask GUuid | Some o => mret o end;
  execute_owned owner.
End Execute.
