(* ===== verification/GateControllerSpec.v ===== *)
(** * Properties of the gate's controller ([GateController])

    All of them hold for every [Native] implementation and every environment:
    the replies of Docker, of the clock and of the file system are arbitrary. *)

From S2P Require Import Prelude PyStr Regex Sha256 PyVal Json Effects BuildkitGate BuildkitGateSpec GateNative GateController.

Local Open Scope string_scope.
Local Open Scope list_scope.
Local Open Scope Z_scope.

(** ** Authorised calls *)
Abbreviation cli_log := (list (list string * out cli_result)).

(** [e] is an inspection of [cid] whose reply [v] verifies as the owner's container. *)
Definition verified_inspect (owner image_id cid : string) (e : list string * out cli_result) (v : value) : Prop :=
  ∃ code text labels, e = (["inspect"; "--format"; VIEW; cid], Ret (code, text)) ∧
    json_loads text = Ok v ∧ verify_container v owner image_id labels = Ok cid.

(** The container an [exec] command names. *)
Definition exec_target (rest : list string) : option string :=
  let rest := if bool_decide (head rest = Some "-d") then tail rest else rest in
  if bool_decide (head rest = Some "--env") then nth_error rest 2 else head rest.

Definition is_create (e : list string * out cli_result) : Prop := head e.1 = Some "create".

(** Commands that change nothing. *)
Definition read_only (args : list string) : bool :=
  existsb (λ p, bool_decide (take (length p) args = p))
    [["ps"]; ["inspect"]; ["network"; "ls"]; ["volume"; "ls"]; ["image"; "ls"]; ["image"; "inspect"]].

(** What may be called after the calls [pre]: reading; creating the one
    container; starting or stopping a container that was verified by the call
    just before; running a command in a container verified before; removing a
    container that the call just before verified and showed stopped. *)
Definition authorised (owner image_id : string) (pre : cli_log) (args : list string) : Prop :=
  read_only args = true
  ∨ (create_arguments owner image_id = Ok args ∧ Forall (λ e, ¬ is_create e) pre)
  ∨ (∃ cid e v, args = ["start"; cid] ∧ last pre = Some e ∧ verified_inspect owner image_id cid e v)
  ∨ (∃ rest cid e v, args = "exec" :: rest ∧ exec_target rest = Some cid ∧ e ∈ pre ∧
       verified_inspect owner image_id cid e v)
  ∨ (∃ cid e v, args = ["stop"; "--time"; "3"; cid] ∧ last pre = Some e ∧
       verified_inspect owner image_id cid e v)
  ∨ (∃ cid e v, args = ["rm"; cid] ∧ last pre = Some e ∧ verified_inspect owner image_id cid e v ∧
       stopped v = Ok true).

Definition authorised_log (owner image_id : string) (log : cli_log) : Prop :=
  ∀ pre args r post, log = pre ++ (args, r) :: post → authorised owner image_id pre args.

Lemma authorised_nil owner image_id : authorised_log owner image_id [].
Proof. by intros [|] ? ? ? [=]. Qed.

Lemma authorised_snoc owner image_id log args r :
  authorised_log owner image_id log → authorised owner image_id log args →
  authorised_log owner image_id (log ++ [(args, r)]).
Proof.
  intros Hl Ha pre args' r' post. destruct post as [|e post _] using rev_ind.
  - intros [-> [= -> ->]]%app_inj_tail. exact Ha.
  - rewrite app_comm_cons, app_assoc. intros [Heq _]%app_inj_tail. by eapply Hl.
Qed.

Section Controller.
Context {N : Type} {nat : Native N} (genv : environment gres) (fuel : Datatypes.nat).
Context (work : path) (owner image image_id : string).

Abbreviation auth_log := (authorised_log owner image_id).
Abbreviation gask := (gask genv).

(** The log is authorised. *)
Definition safe (s : ctl N) : Prop := auth_log (c_calls s).
(** It is, no container has been created yet. *)
Definition fresh (s : ctl N) : Prop := safe s ∧ Forall (λ e, ¬ is_create e) (c_calls s).
(** It is, and the controller's container is [cid], verified before. *)
Definition owns (cid : string) (s : ctl N) : Prop :=
  safe s ∧ c_cid s = Some cid ∧ ∃ e v, e ∈ c_calls s ∧ verified_inspect owner image_id cid e v.

(** Predicates of the log and the container only. *)
Definition log_pred (I : ctl N → Prop) : Prop :=
  ∀ s s', c_calls s' = c_calls s → c_cid s' = c_cid s → I s → I s'.

Lemma safe_pred : log_pred safe.
Proof. intros s s' Hc _. unfold safe. by rewrite Hc. Qed.
Lemma fresh_pred : log_pred fresh.
Proof. intros s s' Hc _. unfold fresh, safe. by rewrite Hc. Qed.
Lemma owns_pred cid : log_pred (owns cid).
Proof. intros s s' Hc Hi. unfold owns, safe. by rewrite Hc, Hi. Qed.

Lemma keeps_gask I o : log_pred I → keeps I (gask o).
Proof. intros HI s Hs. by apply (HI s). Qed.

Lemma keeps_modify_log I f :
  log_pred I → (∀ s, c_calls (f s) = c_calls s) → (∀ s, c_cid (f s) = c_cid s) → keeps I (modify f).
Proof. intros HI H1 H2 s Hs. apply (HI s); [apply H1|apply H2|done]. Qed.

(** A call appends itself to the log and touches nothing else of interest. *)
Lemma call_log args sec allow ph s :
  let s' := (call args sec allow ph s).2 in
  (∃ r, c_calls s' = c_calls s ++ [(args, r)] ∧ (call args sec allow ph s).1 = r) ∧
  c_cid s' = c_cid s ∧ c_labels s' = c_labels s.
Proof.
  unfold call, logged_call, gets, mbind, M_bind. cbn [fst snd].
  set (m := native_call _ _ _ _ _). destruct m as [r n]. cbn. split_and!; [by exists r|done..].
Qed.

Lemma keeps_call_safe args sec allow ph :
  (∀ pre, authorised owner image_id pre args) → keeps safe (call args sec allow ph).
Proof.
  intros Ha s Hs. destruct (call_log args sec allow ph s) as [(r & Hc & _) _].
  unfold safe in *. rewrite Hc. by apply authorised_snoc.
Qed.

Lemma keeps_call_fresh args sec allow ph :
  (∀ pre, authorised owner image_id pre args) → head args ≠ Some "create" → keeps fresh (call args sec allow ph).
Proof.
  intros Ha Hh s [Hs Hf]. destruct (call_log args sec allow ph s) as [(r & Hc & _) _].
  unfold fresh, safe in *. rewrite Hc. split; [by apply authorised_snoc|].
  apply Forall_app. split; [done|]. by repeat constructor.
Qed.

Lemma keeps_call_owns cid args sec allow ph :
  (∀ s, owns cid s → authorised owner image_id (c_calls s) args) → keeps (owns cid) (call args sec allow ph).
Proof.
  intros Ha s Hs. destruct (call_log args sec allow ph s) as [(r & Hc & _) [Hi _]].
  specialize (Ha s Hs). destruct Hs as (Hs & Hcid & e & v & He & Hv). unfold owns, safe. rewrite Hc, Hi.
  split_and!; [by apply authorised_snoc|done|]. exists e, v. split; [|done]. apply elem_of_app. by left.
Qed.

(** A verified identity is 64 hexadecimal digits, never an option. *)
Lemma owns_hex cid s : owns cid s → cid ≠ "-d" ∧ cid ≠ "--env".
Proof.
  intros (_ & _ & e & v & _ & code & text & labels & _ & _ & Hv).
  apply verify_container_Ok in Hv as (? & ? & ? & _ & _ & [Hl _]%fullmatch_rep & _).
  split; intros ->; discriminate Hl.
Qed.

Lemma owns_exec cid rest s :
  owns cid s → exec_target rest = Some cid → authorised owner image_id (c_calls s) ("exec" :: rest).
Proof. intros (_ & _ & e & v & He & Hv) Ht. do 3 right. left. by exists rest, cid, e, v. Qed.

End Controller.

#[export] Hint Resolve safe_pred fresh_pred owns_pred : keeps.
#[export] Hint Extern 1 (keeps _ (GateController.gask _ _)) => apply keeps_gask : keeps.
#[export] Hint Extern 1 (keeps _ (modify _)) => apply keeps_modify_log; [|reflexivity..] : keeps.

Section Runs.
Context {N : Type} {nat : Native N} (genv : environment gres) (fuel : Datatypes.nat).
Context (work : path) (owner image image_id : string).

Abbreviation safe := (@safe N owner image_id).
Abbreviation fresh := (@fresh N owner image_id).
Abbreviation owns := (@owns N owner image_id).

Lemma keeps_strict_path (I : ctl N → Prop) p : log_pred I → keeps I (strict_path genv p).
Proof. intros HI. unfold strict_path, reject_reparse, gate_fail_if. keeps_walk. Qed.

Lemma keeps_bounded (I : ctl N → Prop) p n : log_pred I → keeps I (bounded genv p n).
Proof. intros HI. unfold bounded, gate_fail_if. keeps_walk. by apply keeps_strict_path. Qed.

Lemma keeps_sha (I : ctl N → Prop) p : log_pred I → keeps I (sha genv p).
Proof. intros HI. unfold sha. keeps_walk. by apply keeps_bounded. Qed.

Lemma keeps_save_new (I : ctl N → Prop) p v : log_pred I → keeps I (save_new genv p v).
Proof. intros HI. unfold save_new, gate_fail_if. keeps_walk. by apply keeps_strict_path. Qed.

Lemma read_only_authorised args pre : read_only args = true → authorised owner image_id pre args.
Proof. by left. Qed.

Lemma read_only_not_create args : read_only args = true → head args ≠ Some "create".
Proof.
  intros H Hh. destruct args as [|a args]; [done|]. injection Hh as ->.
  unfold read_only in H. cbn [existsb length take] in H.
  repeat (rewrite bool_decide_false in H by (intros [=])). discriminate H.
Qed.

Lemma keeps_read_only_safe args sec allow ph : read_only args = true → keeps safe (call args sec allow ph).
Proof. intros H. apply keeps_call_safe. intros pre. by apply read_only_authorised. Qed.
Lemma keeps_read_only_fresh args sec allow ph : read_only args = true → keeps fresh (call args sec allow ph).
Proof. intros H. apply keeps_call_fresh; [intros pre; by apply read_only_authorised|by apply read_only_not_create]. Qed.
Lemma keeps_read_only_owns cid args sec allow ph : read_only args = true → keeps (owns cid) (call args sec allow ph).
Proof. intros H. apply keeps_call_owns. intros s _. by apply read_only_authorised. Qed.

Lemma keeps_call0 (I : ctl N → Prop) args : keeps I (call args ten false None) → keeps I (call0 args).
Proof. intros H. unfold call0. keeps_walk. Qed.

Lemma keeps_inventory (I : ctl N → Prop) :
  (∀ args, read_only args = true → keeps I (call args ten false None)) → keeps I inventory.
Proof.
  intros H. unfold inventory, inventory_kinds. cbn [mapM].
  keeps_walk; apply keeps_call0, H; reflexivity.
Qed.

Lemma preflight_keeps : keeps fresh (run_preflight image image_id).
Proof.
  unfold run_preflight, gate_fail_if.
  keeps_walk; try apply keeps_inventory; intros; try apply keeps_call0; apply keeps_read_only_fresh; done.
Qed.

(** An inspection that returns has just verified the controller's container. *)
Lemma inspect_Ret s v s' :
  inspect owner image_id s = (Ret v, s') →
  ∃ cid e, c_cid s = Some cid ∧ c_calls s' = c_calls s ++ [e] ∧ c_cid s' = Some cid ∧
    verified_inspect owner image_id cid e v.
Proof.
  unfold inspect, call0, gate_fail_if. intros H. run_inv H. bool_inv.
  destruct (call_log (nat := nat) ["inspect"; "--format"; VIEW; default EmptyString (c_cid s)] ten false None s)
    as [(r & Hc & Hr) [Hi _]].
  rewrite Hrun0 in Hc, Hr, Hi. cbn [fst snd] in Hc, Hr, Hi. subst r.
  exists a1, (["inspect"; "--format"; VIEW; a1], Ret (a0, b)).
  match goal with F : Some a1 = c_cid s |- _ => rename F into Hcid end. rewrite <- Hcid in *. cbn [default] in *.
  split_and!; [done|exact Hc|done|]. exists a0, b, (c_labels s1). done.
Qed.

Lemma inspect_keeps (I : ctl N → Prop) :
  (∀ args, read_only args = true → keeps I (call args ten false None)) → keeps I (inspect owner image_id).
Proof. intros H. unfold inspect, gate_fail_if. keeps_walk. by apply keeps_call0, H. Qed.

(** The log just ended with a verification of the controller's container. *)
Definition just_verified (cid : string) (v : value) (s : ctl N) : Prop :=
  safe s ∧ c_cid s = Some cid ∧ ∃ e, last (c_calls s) = Some e ∧ verified_inspect owner image_id cid e v.

Lemma just_verified_owns cid v s : just_verified cid v s → owns cid s.
Proof.
  intros (Hs & Hc & e & He & Hv). split_and!; [done..|]. exists e, v. split; [|done].
  by apply last_Some_elem_of.
Qed.

Lemma inspect_post cid :
  post (λ s, safe s ∧ c_cid s = Some cid) (inspect owner image_id)
    (ends (just_verified cid) safe).
Proof.
  intros s [Hs Hcid]. pose proof (inspect_keeps safe (λ a, keeps_read_only_safe a _ _ _)) as Hk.
  specialize (Hk s Hs). destruct (inspect owner image_id s) as [[v|e|] s'] eqn:E; cbn [fst snd] in *; [|done..].
  apply inspect_Ret in E as (cid' & e & H1 & H2 & H3 & H4).
  assert (cid' = cid) as -> by congruence. split_and!; [done..|]. exists e. by rewrite H2, last_snoc.
Qed.

(** A mutating call right after a verification. *)
Lemma call_verified cid v args sec allow ph :
  (∀ s, just_verified cid v s → authorised owner image_id (c_calls s) args) →
  post (just_verified cid v) (call args sec allow ph) (λ _, owns cid).
Proof.
  intros Ha s Hs. destruct (call_log (nat := nat) args sec allow ph s) as [(r & Hc & _) [Hi _]].
  specialize (Ha s Hs). destruct (just_verified_owns _ _ _ Hs) as (H1 & H2 & e & w & He & Hw).
  unfold GateControllerSpec.owns, GateControllerSpec.safe in *. rewrite Hc, Hi.
  split_and!; [by apply authorised_snoc|done|]. exists e, w. split; [|done]. apply elem_of_app. by left.
Qed.

Lemma owns_safe cid s : owns cid s → safe s.
Proof. by intros []. Qed.
Lemma fresh_safe s : fresh s → safe s.
Proof. by intros []. Qed.

Definition holds (cid : string) (s : ctl N) : Prop := safe s ∧ c_cid s = Some cid.
Lemma holds_pred cid : log_pred (holds cid).
Proof. intros s s' Hc Hi. unfold holds, GateControllerSpec.safe. by rewrite Hc, Hi. Qed.

Lemma create_call_post args :
  create_arguments owner image_id = Ok args →
  post fresh (call0 args) (ends (λ _, safe) safe).
Proof.
  intros Ha. unfold call0. intros s [Hs Hf].
  unfold mbind, M_bind. destruct (call_log (nat := nat) args ten false None s) as [(r & Hc & Hr) _].
  assert (safe (call args ten false None s).2) as Hsafe.
  { unfold GateControllerSpec.safe in *. rewrite Hc. apply authorised_snoc; [done|]. right. by left. }
  destruct (call args ten false None s) as [[|e|] s']; exact Hsafe.
Qed.

Lemma start_post cid v :
  post (just_verified cid v) (call0 ["start"; cid]) (λ _, owns cid).
Proof.
  unfold call0. apply (post_seq _ (owns cid)); [|intros; apply keeps_ret|done].
  apply (call_verified cid v). intros s (_ & _ & e & He & Hv). right. right. left. by exists cid, e, v.
Qed.

(** Creation: from a log without a container to a verified, started one. *)
Lemma create_post :
  post fresh (run_create genv work owner image_id) (ends (λ _ s, ∃ cid, owns cid s) safe).
Proof.
  unfold run_create.
  eapply post_step; [apply post_liftR, fresh_safe|]. intros name.
  eapply post_step; [eapply post_weaken; [apply (post_keeps fresh); [apply keeps_save_new; auto with keeps|apply fresh_safe]|by intros s [_ Hs]|done]|].
  intros ?. eapply post_step; [apply (post_keeps fresh); [auto with keeps|apply fresh_safe]|]. intros ?.
  eapply post_step; [apply post_liftR, fresh_safe|]. intros args.
  eapply post_step; [intros s [Ha Hs]; by apply (create_call_post args Ha)|]. intros cid.
  eapply (post_step _ (λ _, holds cid)); [by intros s Hs|]. intros ?.
  assert (∀ s, holds cid s → safe s) as Hhs by (by intros s [Hs _]).
  eapply (post_step _ (λ _, holds cid));
    [eapply post_strengthen; [by apply post_liftR|by intros d s [_ Hs]]|]. intros ?.
  eapply post_step; [apply (post_keeps (holds cid)); [apply keeps_save_new, holds_pred|done]|]. intros ?.
  eapply post_step; [apply inspect_post|]. intros v.
  eapply (post_step _ (λ _, owns cid)); [|intros _ s Hs; by exists cid].
  eapply post_weaken; [apply (start_post cid v)|done|]. intros [] s Hs; cbn; [done|by eapply owns_safe..].
Qed.

(** ** The phases after creation stay with the verified container *)
Lemma owns_gets {A} cid (k : option string → M (ctl N) A) :
  keeps (owns cid) (k (Some cid)) → keeps (owns cid) (gets c_cid ≫= k).
Proof. intros H s Hs. unfold mbind, M_bind, gets. destruct Hs as (H1 & H2 & H3) eqn:E. rewrite H2. by apply H. Qed.

Lemma owns_current {A} cid (k : string → M (ctl N) A) :
  keeps (owns cid) (k cid) → keeps (owns cid) (current_cid ≫= k).
Proof.
  intros H s Hs. unfold mbind, M_bind, current_cid, gets. pose proof Hs as (_ & H2 & _).
  unfold mbind, M_bind, mret, M_ret. rewrite H2. by apply H.
Qed.

Lemma owns_call cid rest sec allow ph :
  exec_target rest = Some cid → keeps (owns cid) (call ("exec" :: rest) sec allow ph).
Proof. intros Ht. apply keeps_call_owns. intros s Hs. by eapply owns_exec. Qed.

Lemma owns_call_direct cid rest sec allow ph : keeps (owns cid) (call ("exec" :: cid :: rest) sec allow ph).
Proof.
  apply keeps_call_owns. intros s Hs. eapply owns_exec; [exact Hs|].
  destruct (owns_hex _ _ _ _ Hs) as [H1 H2]. unfold exec_target. cbn [head].
  rewrite (bool_decide_false (Some cid = Some "-d")) by congruence. cbn [head].
  by rewrite bool_decide_false by congruence.
Qed.

Lemma owns_shell cid script sec allow ph : keeps (owns cid) (shell script sec allow ph).
Proof. unfold shell, exec_args. apply owns_gets. by apply owns_call. Qed.

Lemma owns_shell0 cid script : keeps (owns cid) (shell0 script).
Proof. unfold shell0. apply keeps_bind; [apply owns_shell|]. intros. apply keeps_ret. Qed.

Lemma owns_build cid case sec allow : keeps (owns cid) (build case sec allow).
Proof.
  unfold build, exec_args. apply owns_current. apply keeps_bind; [apply keeps_liftR|]. intros args. by apply owns_call.
Qed.

Lemma owns_errors cid : keeps (owns cid) (on_part c_native set_native native_errors).
Proof.
  intros s Hs. unfold on_part. destruct (native_errors (c_native s)) as [r n].
  apply (owns_pred owner image_id cid s); [done|done|exact Hs].
Qed.

Lemma owns_inspect cid : keeps (owns cid) (inspect owner image_id).
Proof. apply inspect_keeps. intros. by apply keeps_read_only_owns. Qed.

Lemma owns_mounts cid : keeps (owns cid) (observe_mounts genv).
Proof. unfold observe_mounts, gate_fail_if. keeps_walk. apply owns_shell. Qed.
End Runs.

#[export] Hint Resolve owns_shell owns_shell0 owns_build owns_errors owns_inspect owns_mounts : keeps.

Section Phases.
Context {N : Type} {nat : Native N} (genv : environment gres) (fuel : Datatypes.nat).
Context (work : path) (owner image image_id : string) (cid : string).
Abbreviation owns := (@owns N owner image_id cid).

Lemma ready_owns : keeps owns (run_ready genv fuel).
Proof.
  unfold run_ready, gate_fail_if. apply owns_current. keeps_walk. by apply owns_call_direct.
Qed.

Lemma probe_owns : keeps owns (run_probe genv owner).
Proof. unfold run_probe, gate_fail_if. keeps_walk. Qed.

Lemma inspections_owns : keeps owns run_inspections.
Proof. unfold run_inspections. keeps_walk. Qed.

Lemma success_owns : keeps owns run_success_and_fault.
Proof. unfold run_success_and_fault, gate_fail_if. keeps_walk. Qed.

Lemma launch_owns : keeps owns run_launch.
Proof.
  unfold run_launch. apply owns_current. keeps_walk. apply keeps_call0. by apply owns_call.
Qed.

Lemma workers_owns before path : keeps owns (run_workers genv fuel before path).
Proof. unfold run_workers, gate_fail_if. keeps_walk. Qed.

Lemma load_owns before : keeps owns (run_load genv before).
Proof. unfold run_load, gate_fail_if. keeps_walk. Qed.

Lemma cancel_owns active path busy : keeps owns (run_cancel genv fuel active path busy).
Proof. unfold run_cancel, gate_fail_if. keeps_walk. Qed.

Lemma after_owns mounts : keeps owns (run_after genv owner image_id mounts).
Proof. unfold run_after, gate_fail_if. keeps_walk. Qed.

End Phases.

#[export] Hint Resolve ready_owns probe_owns inspections_owns success_owns launch_owns workers_owns load_owns
  cancel_owns after_owns : keeps.

Section Execution.
Context {N : Type} {nat : Native N} (genv : environment gres) (fuel : Datatypes.nat).
Context (owner image image_id : string).
Abbreviation safe := (@safe N owner image_id).
Abbreviation fresh := (@fresh N owner image_id).
Abbreviation owns := (@owns N owner image_id).

Lemma run_safe work : post fresh (run genv fuel work owner image image_id) (λ _, safe).
Proof.
  unfold run. apply (post_seq _ fresh); [apply preflight_keeps| |apply fresh_safe]. intros ?.
  eapply post_bind; [apply create_post| |done|done].
  intros ? s [cid Hs]. eapply (owns_safe _ _ cid). revert s Hs. change (∀ s, ?P s → owns cid (?m s).2) with (keeps P m). keeps_walk.
Qed.

Lemma adopt_safe : keeps safe (adopt owner).
Proof.
  unfold adopt. keeps_walk; [by apply keeps_call0, keeps_read_only_safe|]. by intros st Hst.
Qed.

Lemma remove_safe cid : post (holds owner image_id cid) (remove_server owner image_id cid) (λ _, safe).
Proof.
  unfold remove_server. assert (∀ s, holds (N := N) owner image_id cid s → safe s) as Hhs by (by intros s [Hs _]).
  eapply post_bind; [apply inspect_post| |done|done]. intros v. cbn [ends].
  eapply post_seq; [apply (call_verified _ _ cid v)| |intros s Hs; by eapply owns_safe].
  { intros s (_ & _ & e & He & Hv). do 4 right. left. by exists cid, e, v. }
  intros ?. eapply post_bind; [eapply post_weaken; [apply inspect_post|by intros ? (H1 & H2 & _)|done]| |done|done].
  intros w. cbn [ends].
  assert (∀ s, just_verified (N := N) owner image_id cid w s → safe s) as Hjs by (by intros s [Hs _]).
  eapply post_bind; [by apply (post_liftR _ safe)| |done|done]. intros ok. cbn [ends].
  eapply (post_bind _ _ _ (λ r s, match r with Ret _ => stopped w = Ok true ∧ just_verified owner image_id cid w s | _ => safe s end));
    [| |done|done].
  { intros s [Hok Hs]. unfold gate_fail_if, throw_if, liftR. destruct ok; cbn; [done|by apply Hjs]. }
  intros ?. apply (post_seq _ safe); [|intros; apply keeps_ret|done].
  unfold call0. apply (post_seq _ safe); [|intros; apply keeps_ret|done].
  intros s (Hst & Hs). pose proof Hs as (Hsafe & _ & e & He & Hv).
  eapply owns_safe, (call_verified (nat := nat) owner image_id cid w); [|exact Hs].
  intros s' (_ & _ & e' & He' & Hv'). do 5 right. by exists cid, e', w.
Qed.

Lemma cleanup_safe : keeps safe (cleanup owner image_id).
Proof.
  unfold cleanup, gate_fail_if. apply keeps_bind; [apply adopt_safe|]. intros ?.
  eapply (post_bind _ _ _ (λ r s, ∃ c, r = Ret c ∧ safe s ∧ c_cid s = c)).
  - intros s Hs. by exists (c_cid s).
  - intros c. apply (post_seq _ safe); [| |done].
    + intros s (c' & [= <-] & Hs & Hc). destruct c as [c|]; [|done].
      destruct (String.eqb c EmptyString); [done|]. by apply remove_safe.
    + intros ?. match goal with |- post ?P ?m _ => change (keeps P m) end.
      keeps_walk. apply keeps_inventory. intros. by apply keeps_read_only_safe.
  - by intros e s (? & [=] & _).
  - by intros s (? & [=] & _).
Qed.

End Execution.

Section Execute.
Context {N : Type} {nat : Native N} (genv : environment gres) (fuel : Datatypes.nat).
Context (source_file : path) (image image_id source_sha deploy_sha : string).

Lemma keeps_job_module (I : ctl N → Prop) : log_pred I → keeps I (job_module genv).
Proof. intros HI. unfold job_module, gate_fail_if. keeps_walk; by apply keeps_sha. Qed.

Lemma keeps_read_ref (I : ctl N → Prop) p : log_pred I → keeps I (read_ref genv p).
Proof. intros HI. unfold read_ref. keeps_walk. by apply keeps_bounded. Qed.

Lemma execute_try_safe owner started :
  post (fresh owner image_id)
    (execute_try genv fuel source_file image image_id source_sha deploy_sha owner started) (λ _, safe (N := N) owner image_id).
Proof.
  unfold execute_try, gate_fail_if.
  pose proof (keeps_save_new genv (fresh (N := N) owner image_id)) as Hsave.
  repeat match goal with
  | |- post _ (?m ≫= _) _ =>
      lazymatch m with
      | run _ _ _ _ _ _ => fail
      | _ => apply (post_seq _ (fresh owner image_id));
             [solve [keeps_walk; first [apply Hsave; auto with keeps | apply keeps_read_ref; auto with keeps
                | apply keeps_job_module; auto with keeps]] | intros ? | apply fresh_safe]
      end
  end.
  apply (post_seq _ (safe owner image_id)); [apply run_safe| |done]. intros ?.
  keeps_walk; first [apply keeps_sha; auto with keeps | apply keeps_read_ref; auto with keeps].
Qed.

Lemma execute_finally_safe owner started :
  keeps (safe owner image_id) (execute_finally genv image image_id source_sha deploy_sha owner started).
Proof.
  unfold execute_finally, gate_fail_if.
  keeps_walk; first [apply cleanup_safe | apply keeps_save_new; auto with keeps | apply keeps_bounded; auto with keeps].
Qed.

Lemma execute_owned_safe owner :
  post (fresh owner image_id)
    (execute_owned genv fuel source_file image image_id source_sha deploy_sha owner)
    (λ _, safe (N := N) owner image_id).
Proof.
  unfold execute_owned, gate_fail_if.
  repeat match goal with
  | |- post _ (?m ≫= _) _ =>
      lazymatch m with
      | try_finally _ _ => fail
      | _ => apply (post_seq _ (fresh owner image_id));
             [solve [keeps_walk; first [apply keeps_sha; auto with keeps | apply keeps_strict_path; auto with keeps]]
             | intros ? | apply fresh_safe]
      end
  end.
  apply (post_seq _ (safe owner image_id)); [|intros ?; keeps_walk|done].
  eapply post_finally; [|apply execute_finally_safe|done].
  apply (post_try _ (safe owner image_id)); [|intros e; keeps_walk|done].
  eapply post_weaken; [apply execute_try_safe|done|]. by intros [].
Qed.


End Execute.

