(* ===== verification/GateOutcome.v ===== *)
(** * How an execution of the gate ends ([GateController.execute])

    What a verdict, a removed lease and a verified cleanup imply. *)

From S2P Require Import Prelude PyStr Regex Sha256 PyVal Json Effects BuildkitGate BuildkitGateSpec GateNative GateController GateControllerSpec.

Local Open Scope string_scope.
Local Open Scope list_scope.
Local Open Scope Z_scope.

(** ** Cleanup and the lease *)
Section Outcome.
Context {N : Type} {nat : Native N} (genv : environment gres) (fuel : Datatypes.nat).

(** The calls of one inventory, with the replies [outs]. *)
Definition inventory_calls (outs : list cli_result) : cli_log :=
  zip_with (λ (ka : string * list string) o, (ka.2, Ret o)) inventory_kinds outs.
Definition inventory_read (outs : list cli_result) : result inventory_t :=
  mapR (λ ko : (string * list string) * cli_result, values ← inventory_of ko.1.1 ko.2.2; Ok (ko.1.1, values))
    (zip inventory_kinds outs).

(** The last calls list the same resources as the baseline. *)
Definition restored (s : ctl N) : Prop :=
  ∃ pre outs, length outs = length inventory_kinds ∧ c_calls s = pre ++ inventory_calls outs ∧
    inventory_read outs = Ok (c_baseline s).

Lemma call0_Ret args s text s' :
  call0 args s = (Ret text, s') →
  ∃ o, o.2 = text ∧ c_calls s' = c_calls s ++ [(args, Ret o)] ∧ c_baseline s' = c_baseline s.
Proof.
  unfold call0. intros H. run_inv H. exists (a, b).
  unfold call, logged_call, gets, mbind, M_bind in Hrun. cbn in Hrun.
  destruct (native_call _ _ _ _ _) as [r n]. injection Hrun as -> <-. done.
Qed.

Lemma mapM_inventory_Ret kinds s inv s' :
  mapM (λ ka : string * list string, text ← call0 ka.2; values ← liftR (inventory_of ka.1 text);
    mret (ka.1, values)) kinds s = (Ret inv, s') →
  ∃ outs, length outs = length kinds ∧
    c_calls s' = c_calls s ++ zip_with (λ (ka : string * list string) o, (ka.2, Ret o)) kinds outs ∧
    mapR (λ ko : (string * list string) * cli_result, values ← inventory_of ko.1.1 ko.2.2; Ok (ko.1.1, values))
      (zip kinds outs) = Ok inv ∧ c_baseline s' = c_baseline s.
Proof.
  revert s inv; induction kinds as [|ka kinds IH]; intros s inv; cbn [mapM]; intros H.
  - run_inv H. exists []. cbn. by rewrite app_nil_r.
  - run_inv H.
    match goal with F : call0 _ _ = _ |- _ => apply call0_Ret in F as (o & Ho & Hc & Hb) end.
    match goal with F : mapM _ kinds _ = _ |- _ => apply IH in F as (outs & Hl & Hc' & Hm & Hb') end.
    match goal with F : inventory_of _ _ = _ |- _ => rename F into Hrun end. exists (o :: outs). cbn [length zip_with mapR zip].
    split_and!; [congruence|by rewrite Hc', Hc, <- app_assoc| |congruence].
    cbn [fst snd]. rewrite Ho, Hrun, !bind_ret, Hm. done.
Qed.

Lemma cleanup_Ret owner image_id s b s' :
  cleanup owner image_id s = (Ret b, s') → restored s'.
Proof.
  unfold cleanup, inventory, gate_fail_if. intros H. do 3 (apply bind_Ret in H as (? & ? & _ & H); cbn beta in H).
  run_inv H. bool_inv. apply mapM_inventory_Ret in Hrun as (outs & Hl & Hc & Hm & Hb).
  exists (c_calls x4), outs. unfold inventory_calls, inventory_read. by split_and!; [| |congruence].
Qed.

(** No lease has been removed in the history. *)
Definition unlinks (e : event gres) : bool := match e with Ev (GUnlink _) _ => true | _ => false end.
Definition no_unlink (s : ctl N) : Prop := forallb (λ e, negb (unlinks e)) (c_hist s) = true.
Definition untouched (s : ctl N) : Prop := c_cleanup s = false ∧ no_unlink s.

(** Predicates of the verdict and the history. *)
Definition verdict_pred (I : ctl N → Prop) : Prop :=
  ∀ s s', c_cleanup s' = c_cleanup s → (no_unlink s → no_unlink s') → I s → I s'.
(** Predicates of the listed resources too: a call may break them. *)
Definition resources_pred (I : ctl N → Prop) : Prop :=
  ∀ s s', c_calls s' = c_calls s → c_baseline s' = c_baseline s → c_cleanup s' = c_cleanup s →
    (no_unlink s → no_unlink s') → I s → I s'.

Lemma verdict_resources I : verdict_pred I → resources_pred I.
Proof. intros HI s s' _ _. apply HI. Qed.

Lemma keeps_gask_quiet (I : ctl N → Prop) o :
  (∀ r, unlinks (Ev o r) = false) → resources_pred I → keeps I (GateController.gask genv o).
Proof.
  intros Ho HI s Hs. apply (HI s); [done..| |done]. unfold no_unlink. cbn [gask perform snd c_hist log_g].
  rewrite forallb_app. intros ->. cbn [forallb andb]. by rewrite Ho.
Qed.

Lemma keeps_modify_quiet (I : ctl N → Prop) f :
  resources_pred I → (∀ s, c_calls (f s) = c_calls s) → (∀ s, c_baseline (f s) = c_baseline s) →
  (∀ s, c_cleanup (f s) = c_cleanup s) → (∀ s, c_hist (f s) = c_hist s) → keeps I (modify f).
Proof.
  intros HI H1 H2 H3 H4 s Hs. apply (HI s); [apply H1|apply H2|apply H3| |done].
  unfold no_unlink. cbn. by rewrite H4.
Qed.

Lemma keeps_modify_verdict (I : ctl N → Prop) f :
  verdict_pred I → (∀ s, c_cleanup (f s) = c_cleanup s) → (∀ s, c_hist (f s) = c_hist s) → keeps I (modify f).
Proof.
  intros HI H3 H4 s Hs. apply (HI s); [apply H3| |done]. unfold no_unlink. cbn. by rewrite H4.
Qed.

Lemma keeps_call_verdict (I : ctl N → Prop) args sec allow ph :
  verdict_pred I → keeps I (call args sec allow ph).
Proof.
  intros HI s Hs. unfold call, logged_call, gets, mbind, M_bind. destruct (native_call _ _ _ _ _) as [r n].
  by apply (HI s).
Qed.

Lemma keeps_errors_verdict (I : ctl N → Prop) :
  verdict_pred I → keeps I (on_part c_native set_native native_errors).
Proof.
  intros HI s Hs. unfold on_part. destruct (native_errors (c_native s)) as [r n]. by apply (HI s).
Qed.

Lemma untouched_pred : verdict_pred untouched.
Proof. intros s s' Hc Hu [H1 H2]. split; [congruence|auto]. Qed.

Lemma keeps_files (I : ctl N → Prop) :
  resources_pred I →
  (∀ p, keeps I (strict_path genv p)) ∧ (∀ p n, keeps I (bounded genv p n)) ∧ (∀ p v, keeps I (save_new genv p v)).
Proof.
  intros HI.
  assert (∀ o, (∀ r, unlinks (Ev o r) = false) → keeps I (GateController.gask genv o)) as Hg.
  { intros o Ho. by apply keeps_gask_quiet. }
  assert (∀ p, keeps I (strict_path genv p)) as Hs.
  { intros p. unfold strict_path, reject_reparse, gate_fail_if. keeps_walk; by apply Hg. }
  unfold bounded, save_new, gate_fail_if. split_and!; [done|..]; intros; keeps_walk; (apply Hs || by apply Hg).
Qed.

Ltac verdict_leaf I :=
  first [ by apply keeps_gask_quiet | by apply keeps_call_verdict | by apply keeps_errors_verdict
        | apply keeps_modify_verdict; [done|reflexivity..] | apply (keeps_files I); done ].

Lemma shell_verdict (I : ctl N → Prop) script sec allow ph : verdict_pred I → keeps I (shell script sec allow ph).
Proof. intros HI. unfold shell. keeps_walk. by apply keeps_call_verdict. Qed.

(** [run] neither decides the verdict nor removes a lease. *)
Lemma run_untouched work owner image image_id (I : ctl N → Prop) :
  verdict_pred I → keeps I (run genv fuel work owner image image_id).
Proof.
  intros HI. pose proof (verdict_resources I HI) as HR. pose proof (λ a b c d, shell_verdict I a b c d HI) as Hsh.
  assert (∀ args, keeps I (call0 args)) as Hc0.
  { intros args. unfold call0. keeps_walk. by apply keeps_call_verdict. }
  assert (∀ script, keeps I (shell0 script)) as Hs0.
  { intros script. unfold shell0. keeps_walk. }
  assert (∀ case sec allow, keeps I (build case sec allow)) as Hb.
  { intros. unfold build, current_cid. keeps_walk. by apply keeps_call_verdict. }
  assert (keeps I (inspect owner image_id)) as Hi.
  { unfold inspect, gate_fail_if. keeps_walk. }
  assert (keeps I (observe_mounts genv)) as Hm.
  { unfold observe_mounts, gate_fail_if. keeps_walk; first [apply Hsh | verdict_leaf I]. }
  assert (keeps I (run_preflight image image_id)) as H1.
  { unfold run_preflight, inventory, gate_fail_if. keeps_walk; verdict_leaf I. }
  assert (keeps I (run_create genv work owner image_id)) as H2.
  { unfold run_create. keeps_walk; verdict_leaf I. }
  assert (keeps I (run_ready genv fuel)) as H3.
  { unfold run_ready, current_cid, gate_fail_if. keeps_walk; verdict_leaf I. }
  assert (keeps I (run_probe genv owner)) as H4.
  { unfold run_probe, gate_fail_if. keeps_walk; verdict_leaf I. }
  assert (keeps I run_inspections) as H5 by (unfold run_inspections; keeps_walk; verdict_leaf I).
  assert (keeps I run_success_and_fault) as H6.
  { unfold run_success_and_fault, gate_fail_if. keeps_walk; verdict_leaf I. }
  assert (keeps I run_launch) as H7 by (unfold run_launch, current_cid; keeps_walk).
  assert (∀ a b, keeps I (run_workers genv fuel a b)) as H8.
  { intros. unfold run_workers, gate_fail_if. keeps_walk; verdict_leaf I. }
  assert (∀ a, keeps I (run_load genv a)) as H9.
  { intros. unfold run_load, gate_fail_if. keeps_walk; verdict_leaf I. }
  assert (∀ a b c, keeps I (run_cancel genv fuel a b c)) as H10.
  { intros. unfold run_cancel, gate_fail_if. keeps_walk; verdict_leaf I. }
  assert (∀ a, keeps I (run_after genv owner image_id a)) as H11.
  { intros. unfold run_after, gate_fail_if. keeps_walk; verdict_leaf I. }
  unfold run. keeps_walk.
Qed.

Lemma cleanup_untouched owner image_id (I : ctl N → Prop) :
  verdict_pred I → keeps I (cleanup owner image_id).
Proof.
  intros HI. assert (∀ args, keeps I (call0 args)) as Hc0.
  { intros args. unfold call0. keeps_walk. by apply keeps_call_verdict. }
  unfold cleanup, adopt, remove_server, inventory, inspect, gate_fail_if. keeps_walk; verdict_leaf I.
Qed.

Context (source_file : path) (image image_id source_sha deploy_sha : string).

Lemma try_untouched owner started (I : ctl N → Prop) :
  verdict_pred I →
  keeps I (execute_try genv fuel source_file image image_id source_sha deploy_sha owner started).
Proof.
  intros HI. pose proof (verdict_resources I HI) as HR. destruct (keeps_files I HR) as (_ & Hb & Hs).
  unfold execute_try, job_module, read_ref, sha, gate_fail_if.
  keeps_walk; first [by apply run_untouched | verdict_leaf I].
Qed.

(** ** The [finally] block *)
Definition decided (s : ctl N) : Prop := no_unlink s ∧ (c_cleanup s = true → restored s).
Definition outcome_ok (s : ctl N) : Prop :=
  (no_unlink s ∨ c_cleanup s = true) ∧ (c_cleanup s = true → restored s).

Lemma decided_pred : resources_pred decided.
Proof.
  intros s s' Hc Hb Hv Hu [H1 H2]. split; [auto|]. rewrite Hv. unfold restored. rewrite Hc, Hb. exact H2.
Qed.
Lemma outcome_pred : resources_pred outcome_ok.
Proof.
  intros s s' Hc Hb Hv Hu [H1 H2]. unfold outcome_ok, restored. rewrite Hc, Hb, Hv.
  split; [tauto|exact H2].
Qed.
Lemma decided_outcome s : decided s → outcome_ok s.
Proof. intros [H1 H2]. split; [by left|done]. Qed.
Lemma untouched_decided s : untouched s → decided s.
Proof. intros [H1 H2]. split; [done|]. congruence. Qed.

(** The verdict of the cleanup, with what it means. *)
Lemma cleanup_verdict owner :
  post untouched (ok ← try_except (λ _, true) (cleanup owner image_id) (λ _, mret false); modify (set_cleanup ok))
    (λ _, decided).
Proof.
  eapply post_bind.
  - intros s Hs. pose proof (cleanup_untouched owner image_id untouched untouched_pred s Hs) as Hu.
    instantiate (1 := λ r s, untouched s ∧ (r = Ret true → restored s)). unfold try_except.
    destruct (cleanup owner image_id s) as [[b|e|] s'] eqn:E; cbn in *; split; try done.
    intros [= ->]. by eapply cleanup_Ret.
  - intros ok s [[_ Hu] Hr]. split; [exact Hu|]. cbn. intros ->. destruct (Hr eq_refl) as (pre & outs & H).
    exists pre, outs. exact H.
  - intros e s [Hu _]. by apply untouched_decided.
  - intros s [Hu _]. by apply untouched_decided.
Qed.
Lemma finally_outcome owner started :
  post untouched (execute_finally genv image image_id source_sha deploy_sha owner started) (λ _, outcome_ok).
Proof.
  destruct (keeps_files decided decided_pred) as (_ & Hb & Hs).
  destruct (keeps_files outcome_ok outcome_pred) as (_ & Hb' & _).
  assert (∀ s, untouched s → outcome_ok s) as Huo by (intros; by apply decided_outcome, untouched_decided).
  assert (∀ o, (∀ r, unlinks (Ev o r) = false) → keeps decided (GateController.gask genv o)) as Hg.
  { intros o Ho. apply keeps_gask_quiet; [done|apply decided_pred]. }
  unfold execute_finally. apply (post_seq _ untouched); [apply keeps_gets| |exact Huo]. intros controller.
  apply (post_seq _ decided); [destruct controller| |apply decided_outcome].
  - apply (post_seq _ untouched); [|intros ?|apply untouched_decided].
    { apply keeps_gask_quiet; [done|]. apply verdict_resources, untouched_pred. }
    apply (post_seq _ untouched); [|intros ?|apply untouched_decided].
    { apply keeps_modify_verdict; [apply untouched_pred|done..]. }
    apply cleanup_verdict.
  - intros s Hu. by apply untouched_decided.
  - intros _. apply (post_seq _ decided); [apply keeps_gets| |apply decided_outcome]. intros made.
    apply (post_seq _ decided); [keeps_walk; by apply Hg| |apply decided_outcome]. intros present.
    apply (post_seq _ decided); [keeps_walk; first [apply Hs|by apply Hg]| |apply decided_outcome]. intros _.
    apply (post_bind _ _ _ (λ r s, decided s ∧ ∃ b, r = Ret b ∧ c_cleanup s = b)).
    + intros s Hs'. split; [done|]. by exists (c_cleanup s).
    + intros b s [Hd (? & [= <-] & Hc)]. destruct b; [|by apply decided_outcome].
      revert s Hd Hc. unfold gate_fail_if.
      assert (post (λ s, decided s ∧ c_cleanup s = true) (bounded genv lease 32) (λ _ s, decided s ∧ c_cleanup s = true)) as Hbc.
      { destruct (keeps_files (λ s : ctl N, decided s ∧ c_cleanup s = true)) as (_ & Hbb & _); [|apply Hbb].
        intros s s' H1 H2 H3 H4 [H5 H6]. split; [by apply (decided_pred s)|congruence]. }
      assert (∀ m, post (λ s, decided s ∧ c_cleanup s = true) m (λ _, outcome_ok) → ∀ s, decided s → c_cleanup s = true →
        outcome_ok (m s : out unit * ctl N).2) as Hpost by (intros m Hm s H1 H2; by apply Hm).
      apply Hpost. apply (post_seq _ (λ s, decided s ∧ c_cleanup s = true)); [exact Hbc| |intros s [? _]; by apply decided_outcome].
      intros held. apply (post_seq _ (λ s, decided s ∧ c_cleanup s = true)); [apply keeps_throw_if| |intros s [? _]; by apply decided_outcome].
      intros _ s [[_ Hr] Hc]. split; [by right|]. intros _. destruct (Hr Hc) as (pre & outs & H). by exists pre, outs.
    + by intros e s [? (? & [=] & _)].
    + by intros s [? (? & [=] & _)].
Qed.

Lemma owned_outcome owner :
  post untouched (execute_owned genv fuel source_file image image_id source_sha deploy_sha owner) (λ _, outcome_ok).
Proof.
  pose proof (verdict_resources untouched untouched_pred) as HR.
  destruct (keeps_files untouched HR) as (Hst & Hb & Hs).
  assert (∀ s, untouched s → outcome_ok s) as Huo by (intros; by apply decided_outcome, untouched_decided).
  unfold execute_owned, gate_fail_if, sha.
  repeat match goal with
  | |- post _ (?m ≫= _) _ =>
      lazymatch m with
      | try_finally _ _ => fail
      | _ => apply (post_seq _ untouched);
             [solve [keeps_walk; first [apply Hb | apply Hst | by apply keeps_gask_quiet]] | intros ? | exact Huo]
      end
  end.
  apply (post_seq _ outcome_ok); [|intros ?; keeps_walk|done].
  eapply post_finally; [|apply finally_outcome|done].
  pose proof (try_untouched owner) as Ht. apply (post_try _ untouched); [| |done].
  - intros s Hu. match goal with |- context [execute_try _ _ _ _ _ _ _ _ ?st] =>
      specialize (Ht st untouched untouched_pred s Hu) end.
    destruct (execute_try _ _ _ _ _ _ _ _ _ _) as [[] ?]; by try apply Huo.
  - intros e. apply keeps_modify_verdict; [apply untouched_pred|done..].
Qed.

(** A [finally] block that returns after a verified cleanup removed the lease last. *)
Lemma finally_Ret owner started s u s' :
  execute_finally genv image image_id source_sha deploy_sha owner started s = (Ret u, s') → c_cleanup s' = true →
  last (c_hist s') = Some (Ev (GUnlink lease) (Ok tt)).
Proof.
  unfold execute_finally. intros H. do 5 (apply bind_Ret in H as (? & ? & _ & H); cbn beta in H).
  revert H. intros (ok & s1 & Hok & H)%bind_Ret. apply gets_Ret in Hok as [-> ->].
  destruct (c_cleanup _) eqn:Hc; [|by apply mret_Ret in H as [_ ->]; rewrite Hc]. intros _. run_inv H.
  unfold GateController.gask, perform in H. destruct (genv _ _) as [[]|] eqn:E; [|done]. cbn in H.
  injection H as _ <-. cbn [c_hist log_g]. by rewrite last_snoc.
Qed.

Lemma owned_Ret owner s p s' :
  execute_owned genv fuel source_file image image_id source_sha deploy_sha owner s = (Ret p, s') →
  c_failed s' = None ∧ c_cleanup s' = true ∧ p = work owner ++ ["receipt.json"] ∧
  last (c_hist s') = Some (Ev (GUnlink lease) (Ok tt)).
Proof.
  unfold execute_owned, gate_fail_if. intros H.
  do 8 (apply bind_Ret in H as (? & ? & _ & H); cbn beta in H).
  revert H. intros (started & ? & _ & H)%bind_Ret. cbn beta in H.
  revert H. intros (u & s1 & Hf & H)%bind_Ret. run_inv H. bool_inv.
  match goal with E : passed _ = true |- _ => unfold passed in E; bool_inv end.
  assert (∃ s0 u, execute_finally genv image image_id source_sha deploy_sha owner started s0 = (Ret u, s1)) as (s0 & u' & E).
  { unfold try_finally in Hf. destruct (try_except _ _ _ _) as [[|e|] s0]; [|by destruct (execute_finally _ _ _ _ _ _ _ _) as [[] ?]|done].
    exists s0. destruct (execute_finally _ _ _ _ _ _ _ _) as [[] ?]; [|done..]. injection Hf as _ <-. eauto. }
  split_and!; [done..|]. by eapply finally_Ret.
Qed.
End Outcome.

(** ** Properties *)
Section Gate.
Context {N : Type} {native : Native N} (genv : environment gres) (fuel : nat) (n : N).
Context (source_file : path) (image image_id source_sha deploy_sha : string).
Context (invocation_owner : option string).

Abbreviation gate := (execute genv fuel source_file image image_id source_sha deploy_sha invocation_owner).

Lemma execute_owner (s : ctl N) :
  (∃ e, gate s = (Exn e, log_g (Ev GUuid (Err e)) s)) ∨
  ∃ owner s', gate s = execute_owned genv fuel source_file image image_id source_sha deploy_sha owner s' ∧
    (∀ o, invocation_owner = Some o → owner = o) ∧
    (s' = s ∨ s' = log_g (Ev GUuid (Ok owner)) s).
Proof.
  unfold execute. destruct invocation_owner as [o|].
  - right. exists o, s. split_and!; [done| |by left]. by intros ? [= ->].
  - unfold mbind, M_bind, GateController.gask, perform. destruct (genv _ _) as [o|e].
    + right. eexists o, _. split_and!; [reflexivity|done|by right].
    + left. by exists e.
Qed.

(** C21. The gate touches no container but its own.  Whatever Docker, the
    clock and the file system answer, and however the execution ends, every
    Docker call it made is one of: a query; the creation, at most once, of the
    owner's container with exactly [create_arguments]; a start or a stop of a
    container which the call just before it showed to be the owner's isolated
    container; a command inside a container so verified before; the removal of
    a container which the call just before showed to be the owner's and
    stopped. *)
Theorem docker_calls_authorised :
  ∃ owner, (∀ o, invocation_owner = Some o → owner = o) ∧
    authorised_log owner image_id (c_calls (gate (ctl0 n)).2).
Proof.
  destruct (execute_owner (ctl0 n)) as [[e ->]|(owner & s' & -> & Ho & Hs)].
  - exists (default EmptyString invocation_owner). split; [by intros o ->|]. apply authorised_nil.
  - exists owner. split; [done|]. apply execute_owned_safe.
    unfold fresh, safe. destruct Hs as [->| ->]; cbn; (split; [apply authorised_nil|constructor]).
Qed.

(** C22. What the end of an execution guarantees.  The lease file is removed
    only after a verified cleanup; a cleanup counts as verified only when the
    last four Docker calls listed exactly the containers, networks, volumes
    and images of the baseline; and an execution that returns the path of a
    receipt recorded no failure, verified its cleanup and removed the lease as
    its last act.  This holds of every execution, exceptions included. *)
Theorem lease_released_only_after_restoration :
  let s := (gate (ctl0 n)).2 in
  (existsb unlinks (c_hist s) = true → c_cleanup s = true) ∧
  (c_cleanup s = true → restored s) ∧
  (∀ p, (gate (ctl0 n)).1 = Ret p →
     c_failed s = None ∧ c_cleanup s = true ∧ (∃ owner, p = work owner ++ ["receipt.json"]) ∧
     last (c_hist s) = Some (Ev (GUnlink lease) (Ok tt))).
Proof.
  destruct (execute_owner (ctl0 n)) as [[e ->]|(owner & s' & -> & _ & Hs)]; [done|].
  assert (untouched s') as Hu by (by destruct Hs as [->| ->]).
  pose proof (owned_outcome genv fuel source_file image image_id source_sha deploy_sha owner s' Hu) as [H1 H2].
  destruct (execute_owned _ _ _ _ _ _ _ _ _) as [r s] eqn:E. cbn in *. split_and!; [|done|].
  - intros (e & He & Hx)%existsb_exists. destruct H1 as [H1|H1]; [|done].
    unfold no_unlink in H1. rewrite forallb_forall in H1. specialize (H1 e He). by rewrite Hx in H1.
  - intros p ->. apply owned_Ret in E as (? & ? & -> & ?). split_and!; [done..|by exists owner|done].
Qed.

End Gate.
