(* ===== verification/BoundedBuild.v ===== *)
(** * Bounded Compose build: bindings, parsers and verifiers
    ([scripts/bounded_build.py], lines 26 to 453 and plan)

    What the Compose transport proof fixes and checks: the names derived from
    the invocation owner, the private builder's registration, the synthetic
    fixture, the capacities of the tmpfs mounts, the transport processes it may
    signal and the image it owns.  Numbers, namespaces, workers and digests are
    read by the gate's own parsers ([BuildkitGate]).  Values decoded from JSON
    and rows handed between the phases stay [value]s where the code checks
    their shape. *)

From S2P Require Import Prelude PyStr Regex Sha256 PyVal Json Effects BuildkitGate GateController.

Local Open Scope string_scope.
Local Open Scope list_scope.
Local Open Scope Z_scope.
Local Open Scope regex_scope.

(** ** Constants *)
Definition OPS : path := ["D:\"; "Kairos"; "runtime"; "bounded-build-20261003"].
Definition GATE_SHA : string := "e6022d1755a96a79611fe99067c0d3dcf193c3989eededbcd4f8a3c83c040952".
Definition KIND : string := "kairos-bounded-compose-synthetic-v1".
Definition TARGET : string := "fixture".
Definition CASES : list string := ["success"; "fault"; "cancel"].
Definition OWNER_LABEL : string := "com.kairos.bounded-build.owner".
Definition SCOPE_LABEL : string := "com.kairos.bounded-build.scope".
Definition PLUGIN_DIR : path := ["C:\"; "Program Files"; "Docker"; "Docker"; "resources"; "cli-plugins"].
Definition CAPACITIES : list (string * Z) :=
  [(MOUNT_DATA, 512 * 1024 ^ 2); ("/home/user/.local/tmp", 16 * 1024 ^ 2); ("/run/user/1000", 16 * 1024 ^ 2);
   ("/tmp", 128 * 1024 ^ 2)].
Definition MAX_IMAGE : Z := 4 * 1024 ^ 2.
Definition TRANSPORT_PROBE : string := unlines
  ["set -eu";
   "for file in /proc/[0-9]*/comm; do";
   bt "  [ -r `$file` ] || continue";
   bt "  IFS= read -r comm < `$file` || continue";
   bt "  [ `$comm` = buildctl ] || continue";
   "  pid=${file#/proc/}; pid=${pid%/comm}";
   "  args=$(tr '\000' ' ' < /proc/$pid/cmdline) || continue";
   bt "  case `$args` in 'buildctl dial-stdio ')";
   bt "    uid=$(awk '$1==`Uid:` {print $2}' /proc/$pid/status)";
   bt "    [ `$uid` = 1000 ] || exit 91";
   "    ticks=$(sed 's/.*) //' /proc/$pid/stat | awk '{print $20}')";
   "    cg=$(cat /proc/$pid/cgroup)";
   "    ns=$(readlink /proc/$pid/ns/cgroup)";
   bt "    printf '%s|%s|1000|%s|%s\n' `$pid` `$ticks` `$cg` `$ns`";
   "  esac";
   "done"].
Definition CAPACITY_PROBE : string := unlines
  ["set -eu";
   "export LC_ALL=C";
   "count=0; daemon=0";
   "for file in /proc/[0-9]*/comm; do";
   bt "  [ -r `$file` ] || continue";
   bt "  IFS= read -r comm < `$file` || continue";
   bt "  [ `$comm` = buildkitd ] || continue";
   "  daemon=${file#/proc/}; daemon=${daemon%/comm}; count=$((count+1))";
   "done";
   bt "[ `$count` = 1 ] || exit 91";
   "ticks=$(sed 's/.*) //' /proc/$daemon/stat | awk '{print $20}')";
   "ns=$(readlink /proc/$daemon/ns/mnt)";
   bt "printf 'I|before|%s|%s|%s\n' `$daemon` `$ticks` `$ns`";
   "for domain in container daemon; do";
   bt "  if [ `$domain` = container ]; then prefix=; else prefix=/proc/$daemon/root; fi";
   "  for path in /home/user/.local/share/buildkit /home/user/.local/tmp /run/user/1000 /tmp; do";
   bt "    meta=$(stat -f -c '%S|%b|%f|%c|%d' `$prefix$path`)";
   bt "    printf 'F|%s|%s|%s\n' `$domain` `$path` `$meta`";
   "  done";
   "done";
   "ticks=$(sed 's/.*) //' /proc/$daemon/stat | awk '{print $20}')";
   "ns=$(readlink /proc/$daemon/ns/mnt)";
   bt "printf 'I|after|%s|%s|%s\n' `$daemon` `$ticks` `$ns`"].

(** [str(path)]: the drive, then the components between backslashes. *)
Definition path_str (p : path) : string :=
  match p with [] => "." | drive :: rest => drive +:+ join "\" rest end.

(** ** Names *)
Definition owner (v : string) : result string :=
  _ ← gate_if (negb (fullmatch uuid4_re v)) "EXACT_UUID4_INVOCATION_OWNER_REQUIRED"; Ok v.
Definition builder_name (v : string) : result string := o ← owner v; Ok ("kairos-bounded-" +:+ o).
Definition image_tag (v : string) : result string := o ← owner v; Ok ("kairos-bounded-synthetic:" +:+ o).
Definition remote_endpoint (v : string) : result string :=
  o ← owner v; n ← owner_name o; Ok ("docker-container://" +:+ n).

Definition config : value :=
  VDict [("auths", VDict []); ("cliPluginsExtraDirs", vstrs [path_str PLUGIN_DIR])].

(** ** The private builder *)
Definition registration_arguments (v : string) : result (list string) :=
  name ← builder_name v;
  endpoint ← remote_endpoint v;
  Ok ["buildx"; "create"; "--name"; name; "--node"; name +:+ "0"; "--driver"; "remote"; "--driver-opt";
      "default-load=false"; "--platform"; "linux/amd64"; endpoint].

(** [v in (None, empty)] *)
Definition none_or (v empty : value) : bool := py_eq v VNone || py_eq v empty.

Definition verify_node (node : value) (name invocation : string) : result unit :=
  match node with
  | VDict n =>
      gate_ifR
        (Ok (negb (keys_are n ["Name"; "Endpoint"; "Platforms"; "DriverOpts"; "Flags"; "Files"]))
         ||? Ok (negb (py_eq (dget "Name" n) (VStr (name +:+ "0"))))
         ||? (e ← remote_endpoint invocation; Ok (negb (py_eq (dget "Endpoint" n) (VStr e))))
         ||? Ok (negb (py_eq (dget "Platforms" n) (VList [vdict_of [("architecture", "amd64"); ("os", "linux")]])))
         ||? Ok (negb (py_eq (dget "DriverOpts" n) (vdict_of [("default-load", "false")])))
         ||? Ok (negb (none_or (dget "Flags" n) (VList [])))
         ||? Ok (negb (none_or (dget "Files" n) (VDict []))))
        "PRIVATE_REMOTE_NODE_CHANGED"
  | _ => raise GateError "PRIVATE_REMOTE_NODE_CHANGED"
  end.

Definition verify_registration (v : value) (invocation : string) : result unit :=
  name ← builder_name invocation;
  match v with
  | VDict d =>
      _ ← gate_if (negb (keys_are d ["Name"; "Driver"; "Nodes"; "Dynamic"])
                   || negb (py_eq (dget "Name" d) (VStr name)) || negb (py_eq (dget "Driver" d) (VStr "remote"))
                   || negb (is_false (dget "Dynamic" d))) "PRIVATE_REMOTE_REGISTRATION_CHANGED";
      match dget "Nodes" d with
      | VList [node] => verify_node node name invocation
      | _ => raise GateError "PRIVATE_REMOTE_REGISTRATION_CHANGED"
      end
  | _ => raise GateError "PRIVATE_REMOTE_REGISTRATION_CHANGED"
  end.

(** ** The synthetic fixture *)
Definition fixture_command (invocation case : string) : string :=
  if String.eqb case "success" then
    bt "test `$(/bin/busybox sha256sum /result | /bin/busybox cut -d ` ` -f 1)` = " +:+ sha256_hex PAYLOAD
  else if String.eqb case "fault" then "echo KAIROS_SYNTHETIC_FAULT37; exit 37"
  else TOKEN_PREFIX +:+ invocation +:+ "=1; (while :; do :; done) & wait".

Definition fixture_documents (work : path) (invocation case : string) : result (string * value) :=
  _ ← gate_if (negb (bool_decide (case ∈ CASES))) "FIXED_SYNTHETIC_CASE_REQUIRED";
  name ← builder_name invocation;
  let labels := vdict_of [(OWNER_LABEL, invocation); (SCOPE_LABEL, KIND)] in
  command ← json_dumps default_style (vstrs ["/bin/busybox"; "sh"; "-c"; fixture_command invocation case]);
  let dockerfile := rootfs_lines +:+ "RUN " +:+ command +:+ LF in
  tag ← image_tag invocation;
  Ok (dockerfile, VDict [
    ("name", VStr name);
    ("services", VDict [(TARGET, VDict [
       ("image", VStr tag); ("platform", VStr "linux/amd64"); ("pull_policy", VStr "never");
       ("build", VDict [
          ("context", VStr (path_str (work ++ ["context"]))); ("dockerfile", VStr ("Dockerfile." +:+ case));
          ("network", VStr "none"); ("pull", VBool false); ("no_cache", VBool true);
          ("provenance", VBool false); ("sbom", VBool false); ("labels", labels)])])])]).

Definition compose_arguments (work : path) (invocation case : string) : result (list string) :=
  _ ← gate_if (negb (bool_decide (case ∈ CASES))) "FIXED_SYNTHETIC_CASE_REQUIRED";
  name ← builder_name invocation;
  Ok ["compose"; "--ansi"; "never"; "--progress"; "plain"; "--env-file"; path_str (work ++ ["empty.env"]);
      "--project-directory"; path_str work; "--project-name"; name; "--file";
      path_str (work ++ [case +:+ ".compose.json"]); "build"; "--builder"; name; "--no-cache"; TARGET].

(** ** Capacities *)
Record capacity_row := CapacityRow {
  cr_capacity_bytes : Z; cr_free_bytes : Z; cr_inodes : Z; cr_free_inodes : Z;
}.

(** The two dictionaries of the loop, in insertion order. *)
Record capacity_state := CapacityState {
  cs_identities : list (string * daemon_identity);
  cs_rows : list ((string * string) * capacity_row);
}.

Definition parse_capacity_row (fields : list string) : result capacity_row :=
  let f i := nth i fields EmptyString in
  block_size ← mount_unsigned (f 3%nat) U64 true;
  blocks ← mount_unsigned (f 4%nat) U64 true;
  free ← mount_unsigned (f 5%nat) U64 false;
  inodes ← mount_unsigned (f 6%nat) U64 true;
  free_inodes ← mount_unsigned (f 7%nat) U64 false;
  _ ← gate_if (negb (bool_decide (block_size ∈ [4096; 65536]))
               || negb (bool_decide (dlookup (f 2%nat) CAPACITIES = Some (block_size * blocks)))
               || (blocks <? free) || (inodes <? free_inodes)) "HARD_TMPFS_CAPACITY_CHANGED";
  Ok (CapacityRow (block_size * blocks) (block_size * free) inodes free_inodes).

Definition capacity_identity (fields : list string) : result daemon_identity :=
  let f i := nth i fields EmptyString in
  pid ← mount_unsigned (f 2%nat) U32 true;
  ticks ← mount_unsigned (f 3%nat) U64 true;
  ns ← mount_namespace (f 4%nat);
  Ok (Daemon pid ticks ns).

Definition capacity_line (s : capacity_state) (line : string) : result capacity_state :=
  let fields := split_on "|" line in
  let f i := nth i fields EmptyString in
  let n := length fields in
  if Nat.eqb n 5 && String.eqb (f 0%nat) "I" && bool_decide (f 1%nat ∈ ["before"; "after"]) then
    _ ← gate_if (bool_decide (f 1%nat ∈ (cs_identities s).*1)) "CAPACITY_IDENTITY_DUPLICATED";
    d ← capacity_identity fields;
    Ok (CapacityState (cs_identities s ++ [(f 1%nat, d)]) (cs_rows s))
  else if Nat.eqb n 8 && String.eqb (f 0%nat) "F" then
    let key := (f 1%nat, f 2%nat) in
    _ ← gate_if (negb (bool_decide (f 1%nat ∈ ["container"; "daemon"])) || negb (bool_decide (f 2%nat ∈ CAPACITIES.*1))
                 || bool_decide (key ∈ (cs_rows s).*1)) "FIXED_CAPACITY_ROWS_REQUIRED";
    row ← parse_capacity_row fields;
    Ok (CapacityState (cs_identities s) (cs_rows s ++ [(key, row)]))
  else raise GateError "FIXED_CAPACITY_PROJECTION_REQUIRED".

Definition capacity_keys : list (string * string) := d ← ["container"; "daemon"]; p ← CAPACITIES.*1; [(d, p)].

(** The result's nested dictionaries, in their order. *)
Definition parse_capacity (text : string) (expected_daemon : daemon_identity)
    : result (list ((string * string) * capacity_row)) :=
  _ ← gate_if (8192 <? slen text) "CAPACITY_PROJECTION_BOUNDARY";
  s ← foldR capacity_line (CapacityState [] []) (splitlines text);
  _ ← gate_if (negb (bool_decide (kfind "before" (cs_identities s) = Some expected_daemon)
                     && bool_decide (kfind "after" (cs_identities s) = Some expected_daemon))
               || negb (same_set (cs_rows s).*1 capacity_keys)) "STABLE_EXACT_CAPACITY_PROOF_REQUIRED";
  mapR (λ k, match kfind k (cs_rows s) with
             | Some r => Ok (k, r)
             | None => raise KeyError "rows" (* unreachable: the keys are the fixed set *)
             end) capacity_keys.

(** ** Transports *)
Definition parse_transports (text server_cgroup namespace : string) (allow_empty : bool) : result (list worker) :=
  _ ← gate_if (8192 <? slen text) "FIXED_TRANSPORT_PROJECTION_REQUIRED";
  let lines := splitlines text in
  _ ← gate_if (bool_decide (lines = []) && negb allow_empty) "OWNED_TRANSPORT_COUNT_UNPROVEN";
  let fields := split_on "|" <$> lines in
  let f i row := nth i row EmptyString in
  _ ← gate_if (existsb (λ row, negb (Nat.eqb (length row) 5) || negb (String.eqb (f 2%nat row) "1000")) fields)
        "FIXED_TRANSPORT_PROJECTION_REQUIRED";
  _ ← mapR (λ row, _ ← mount_unsigned (f 0%nat row) U32 true; mount_unsigned (f 1%nat row) U64 true) fields;
  let projection := join LF ((λ row, join "|" [f 0%nat row; f 1%nat row; f 3%nat row; f 4%nat row]) <$> fields) in
  rows ← parse_workers projection server_cgroup namespace;
  _ ← gate_if (existsb (λ w, negb (String.eqb (wk_namespace w) namespace)) rows) "TRANSPORT_SERVER_NAMESPACE_REQUIRED";
  Ok rows.

(** [row | {"uid": 1000}] *)
Definition transport_value (w : worker) : value :=
  VDict [("pid", VInt (wk_pid w)); ("start_ticks", VInt (wk_start_ticks w)); ("cgroup", VStr (wk_cgroup w));
         ("namespace", VStr (wk_namespace w)); ("uid", VInt 1000)].

(** The fields of a row of the exact shape and types. *)
Definition transport_identity (row : value) : result worker :=
  match row with
  | VDict d =>
      _ ← gate_if (negb (keys_are d ["pid"; "start_ticks"; "cgroup"; "namespace"; "uid"]))
            "FIXED_TRANSPORT_IDENTITY_REQUIRED";
      match dget "pid" d, dget "start_ticks" d, dget "uid" d, dget "cgroup" d, dget "namespace" d with
      | VInt pid, VInt ticks, VInt 1000, VStr cgroup, VStr namespace => Ok (Worker pid ticks cgroup namespace)
      | _, _, _, _, _ => raise GateError "FIXED_TRANSPORT_IDENTITY_REQUIRED"
      end
  | _ => raise GateError "FIXED_TRANSPORT_IDENTITY_REQUIRED"
  end.

Definition transport_line (w : worker) : result string :=
  pid ← int_text (wk_pid w);
  ticks ← int_text (wk_start_ticks w);
  Ok (pid +:+ "|" +:+ ticks +:+ "|1000|0::" +:+ wk_cgroup w +:+ "|" +:+ wk_namespace w).

(** The shell tests that the process is still the one observed. *)
Definition transport_checks (w : worker) : list string :=
  let proc := "/proc/" +:+ dec_of_Z (wk_pid w) in
  [bt "[ `$(cat " +:+ proc +:+ bt "/comm)` = buildctl ] || exit 91";
   bt "[ `$(sed 's/.*) //' " +:+ proc +:+ bt "/stat | awk '{print $20}')` = " +:+ dec_of_Z (wk_start_ticks w)
     +:+ " ] || exit 91";
   bt "[ `$(tr '\000' ' ' < " +:+ proc +:+ bt "/cmdline)` = 'buildctl dial-stdio ' ] || exit 91";
   bt "[ `$(awk '$1==`Uid:` {print $2}' " +:+ proc +:+ bt "/status)` = 1000 ] || exit 91";
   bt "[ `$(cat " +:+ proc +:+ bt "/cgroup)` = `0::" +:+ wk_cgroup w +:+ bt "` ] || exit 91";
   bt "[ `$(readlink " +:+ proc +:+ bt "/ns/cgroup)` = `" +:+ wk_namespace w +:+ bt "` ] || exit 91"].

Definition transport_kill (force : bool) (w : worker) : string :=
  "kill -" +:+ (if force then "KILL" else "TERM") +:+ " " +:+ dec_of_Z (wk_pid w).

Definition cancel_transport_script (rows : value) (force : bool) : result string :=
  match rows with
  | VList ((_ :: _) as items) =>
      identities ← mapR transport_identity items;
      lines ← mapR transport_line identities;
      match identities with
      | first :: _ =>
          validated ← parse_transports (join LF lines) ("0::" +:+ wk_cgroup first) (wk_namespace first) false;
          _ ← gate_if (negb (py_eq (VList (transport_value <$> validated)) rows)) "FIXED_TRANSPORT_IDENTITY_REQUIRED";
          Ok (join "; " (["set -eu"] ++ concat (transport_checks <$> validated) ++ (transport_kill force <$> validated)))
      | [] => raise GateError "EXACT_TRANSPORT_SIGNAL_POLICY_REQUIRED" (* unreachable: as many as items *)
      end
  | _ => raise GateError "EXACT_TRANSPORT_SIGNAL_POLICY_REQUIRED"
  end.

(** ** The image *)
(** [v not in (None, [], [one])] *)
Definition not_own (v : value) (one : string) : bool :=
  negb (py_eq v VNone || py_eq v (VList []) || py_eq v (vstrs [one])).

Definition verify_image (v : value) (invocation compose_version : string) : result string :=
  id ← py_get "Id" v;
  iid ← digest_image id;
  name ← builder_name invocation;
  let expected_labels := vdict_of
    [(OWNER_LABEL, invocation); (SCOPE_LABEL, KIND); ("com.docker.compose.project", name);
     ("com.docker.compose.service", TARGET); ("com.docker.compose.version", compose_version)] in
  _ ← gate_ifR
        (neqR (py_get "Os" v) (VStr "linux")
         ||? neqR (py_get "Architecture" v) (VStr "amd64")
         ||? (s ← py_get "Size" v; Ok (negb (match s with VInt n => (0 <? n) && (n <=? MAX_IMAGE) | _ => false end)))
         ||? neqR (c ← py_getd "Config" (VDict []) v; py_get "Labels" c) expected_labels
         ||? (c ← py_getd "Config" (VDict []) v; volumes ← py_get "Volumes" c; Ok (negb (none_or volumes (VDict []))))
         ||? (d ← py_get "RepoDigests" v; tag ← image_tag invocation;
              repo ← (match split_once ":" tag with Some (r, _) => Ok r | None => Ok tag end);
              Ok (not_own d (repo +:+ "@" +:+ iid)))
         ||? (t ← py_get "RepoTags" v; tag ← image_tag invocation; Ok (not_own t tag)))
        "OWNED_SYNTHETIC_IMAGE_BOUNDARY_CHANGED";
  Ok iid.

Definition compose_version_re : regex :=
  ROpt (RLit "v") ⋅ RPlus (RChar is_digit) ⋅ RLit "." ⋅ RPlus (RChar is_digit) ⋅ RLit "." ⋅ RPlus (RChar is_digit)
  ⋅ ROpt (RChar (is_any ["-"; "+"]%char) ⋅ RPlus (RChar (λ c, is_alnum c || is_any ["."; "-"]%char c))).

Definition plan : value := VDict [
  ("mode", VStr "PLAN_ONLY_DEFAULT_DENY"); ("kind", VStr KIND); ("target", VStr TARGET);
  ("execute_scope", VStr "GENERATED_SYNTHETIC_COMPOSE_ONLY"); ("real_release_builds", VStr "DENIED");
  ("driver", VStr "remote"); ("transport", VStr "docker-container://EXACT_OWNED_SERVER");
  ("buildkit_image", VStr BUILDKIT_IMAGE); ("resource_gate_sha256", VStr GATE_SHA);
  ("resources", VDict [
     ("cpu", VInt 1); ("memory_bytes", VInt MEMORY); ("swap_bytes", VInt 0); ("pids", VInt PIDS);
     ("tmpfs_capacities_bytes", VDict ((λ p, (p.1, VInt p.2)) <$> CAPACITIES)); ("max_parallel_execops", VInt 1)]);
  ("work_seconds", VInt WORK_SECONDS); ("cleanup_seconds", VInt CLEANUP_SECONDS);
  ("total_seconds", VInt TOTAL_SECONDS); ("default_builder_mutations", VInt 0); ("downloads", VInt 0);
  ("production_build_qualified", VBool false)].
