(* ===== verification/ShellScript.v ===== *)
(** * What a short shell script does

    The scripts that the bounded build sends to a container are lists of commands
    of three forms, which this file reads back from the text and executes: an
    option setting, a test of the output of a command that ends the script, and
    a signal.  The machine that answers is a parameter. *)

From S2P Require Import Prelude PyStr.

Local Open Scope string_scope.
Local Open Scope list_scope.
Local Open Scope Z_scope.

(** ** Words *)
(** The pieces around the first occurrence of a text *)
Fixpoint cut (sep s : string) : option (string * string) :=
  if startswith sep s then Some ("", sdrop (String.length sep) s)
  else match s with
       | EmptyString => None
       | String a s => '(h, t) ← cut sep s; Some (String a h, t)
       end.

Definition QUOTE : ascii := "034".
Definition inert (c : ascii) : bool := negb (is_any [QUOTE; "$"; "`"; "\"]%char c).

(** The text of a quoted word without its last character [quote] *)
Definition unquoted (quote : ascii) (body : ascii → bool) (w : string) : option string :=
  let text := stake (String.length w - 1) w in
  if sall body text && String.eqb w (text +:+ String quote "") then Some text else None.

(** What a word without expansions stands for *)
Definition literal (w : string) : option string :=
  match w with
  | String q rest =>
      if Ascii.eqb q QUOTE then unquoted QUOTE inert rest
      else if Ascii.eqb q "'" then unquoted "'" (λ c, negb (Ascii.eqb c "'")) rest
      else if sall is_alnum w then Some w else None
  | EmptyString => None
  end.

(** ** Commands *)
Inductive command :=
  | ErrExit                                              (* set -eu *)
  | Expect (query expected : string) (status : Z)        (* [ "$(query)" = expected ] || exit status *)
  | Signal (arguments : string).                         (* kill arguments *)
#[global] Instance command_eq_dec : EqDecision command.
Proof. solve_decision. Defined.

Definition parse_expect (text : string) : option command :=
  '(query, rest) ← cut (bt ")` = ") text;
  '(word, status) ← cut " ] || exit " rest;
  expected ← literal word;
  if canonical_dec status then Some (Expect query expected (dec_val status)) else None.

Definition parse_command (c : string) : option command :=
  if String.eqb c "set -eu" then Some ErrExit
  else if startswith "kill " c
  then let arguments := sdrop 5 c in
       if sall (λ a, is_alnum a || is_any [" "; "-"]%char a) arguments then Some (Signal arguments) else None
  else if startswith (bt "[ `$(") c then parse_expect (sdrop 5 c)
  else None.

Definition parse_script (script : string) : option (list command) :=
  mapM (λ c, parse_command (lstrip_c (is_one " ") c)) (split_on ";" script).

(** ** Execution *)
(** What the commands between [$(] and [)] print, without the last newlines, and
    the status that [kill] ends with *)
Record machine := Machine { mc_output : string → string; mc_kill : string → Z }.

(** The arguments of every [kill] that was made, and the status of the script *)
Fixpoint execute (m : machine) (errexit : bool) (status : Z) (l : list command) : list string * Z :=
  match l with
  | [] => ([], status)
  | ErrExit :: l => execute m true 0 l
  | Expect query expected n :: l => if String.eqb (mc_output m query) expected then execute m errexit 0 l else ([], n)
  | Signal arguments :: l =>
      let status := mc_kill m arguments in
      let '(sent, final) := if errexit && negb (status =? 0) then ([], status) else execute m errexit status l in
      (arguments :: sent, final)
  end.
Definition run_script (m : machine) (script : string) : option (list string * Z) := execute m false 0 <$> parse_script script.

(** ** Reading back *)
Lemma cut_here sep t : cut sep (sep +:+ t) = Some ("", t).
Proof. unfold cut. destruct (sep +:+ t) eqn:E; rewrite <- E, startswith_app, sdrop_app; done. Qed.

Lemma cut_skip c sep a s :
  free_of c a = true → cut (String c sep) (a +:+ s) = ('(h, t) ← cut (String c sep) s; Some (a +:+ h, t)).
Proof.
  unfold free_of. induction a as [|x a IH]; cbn [sall String.append].
  - intros _. by destruct (cut _ s) as [[]|].
  - intros [Hx Ha]%andb_true_iff. cbn [cut]. unfold startswith. cbn [String.prefix].
    destruct (ascii_dec c x) as [->|_]; [by rewrite Ascii.eqb_refl in Hx|].
    rewrite IH by done. by destruct (cut _ s) as [[]|].
Qed.

Lemma unquoted_app q body s : sall body s = true → unquoted q body (s +:+ String q "") = Some s.
Proof.
  intros Hs. unfold unquoted. replace (String.length _ - 1)%nat with (String.length s) by (rewrite app_length_str; cbn; lia).
  by rewrite stake_app, Hs, String.eqb_refl.
Qed.

Lemma literal_quoted s : sall inert s = true → literal (String QUOTE (s +:+ String QUOTE "")) = Some s.
Proof. intros Hs. cbn [literal Ascii.eqb Bool.eqb QUOTE]. by apply unquoted_app. Qed.

Lemma split_join_blank c l :
  l ≠ [] → forallb (free_of c) l = true → free_of c " " = true →
  split_on c (join (String c " ") l) = match l with s :: l => s :: (String.append " " <$> l) | [] => [] end.
Proof.
  intros Hne Hl Hc. destruct l as [|s l]; [done|]. clear Hne. revert s Hl.
  induction l as [|s' l IH]; intros s; cbn [forallb]; rewrite andb_true_iff; intros [Hs Hl]; [by apply split_on_free|].
  rewrite join_cons. change (String c " " +:+ ?x) with (String c (" " +:+ x)). rewrite split_on_app by done.
  f_equal. specialize (IH s' Hl). unfold free_of in Hc. cbn [sall] in Hc. rewrite andb_true_r in Hc. apply negb_true_iff in Hc.
  cbn [String.append split_on]. rewrite Hc, IH. done.
Qed.

(** A script reads back as the commands it was joined from. *)
Lemma parse_joined (l : list string) (cs : list command) :
  l ≠ [] → Forall2 (λ s c, free_of ";" s = true ∧ lstrip_c (is_one " ") s = s ∧ parse_command s = Some c) l cs →
  parse_script (join "; " l) = Some cs.
Proof.
  intros Hne H. unfold parse_script. rewrite split_join_blank; [|done| |done].
  - destruct H as [|s c l cs (_ & Hs & Hc) H]; [done|]. apply mapM_Some. constructor; [by rewrite Hs|].
    apply Forall2_fmap_l. eapply Forall2_impl; [exact H|]. intros s' c' (_ & Hs' & Hc'). cbn. by rewrite Hs'.
  - clear Hne. induction H as [|s c l cs (Hf & _ & _) _ IH]; [done|]. cbn [forallb]. by rewrite Hf, IH.
Qed.

(** A test of the fragment *)
Definition expect_text (query word : string) : string := bt "[ `$(" +:+ query +:+ bt ")` = " +:+ word +:+ " ] || exit 91".

Lemma parse_expect_text query word expected :
  (∀ rest, cut (bt ")` = ") (query +:+ bt ")` = " +:+ rest) = Some (query, rest)) →
  (∀ rest, cut " ] || exit " (word +:+ " ] || exit " +:+ rest) = Some (word, rest)) → literal word = Some expected →
  parse_command (expect_text query word) = Some (Expect query expected 91).
Proof.
  intros Hq Hw Hl. unfold expect_text, parse_command. rewrite startswith_app.
  change (String.eqb _ "set -eu") with false. change (startswith "kill " _) with false. cbn iota.
  change (sdrop 5 (bt "[ `$(" +:+ ?x)) with x. unfold parse_expect. rewrite Hq. cbn [mbind option_bind].
  change (word +:+ " ] || exit 91") with (word +:+ " ] || exit " +:+ "91"). rewrite (Hw "91"). cbn [mbind option_bind]. by rewrite Hl.
Qed.

Lemma parse_signal arguments :
  sall (λ a, is_alnum a || is_any [" "; "-"]%char a) arguments = true → parse_command ("kill " +:+ arguments) = Some (Signal arguments).
Proof.
  intros H. unfold parse_command. rewrite startswith_app. change (String.eqb _ "set -eu") with false. cbn iota.
  change (sdrop 5 ("kill " +:+ arguments)) with arguments. by rewrite H.
Qed.

Lemma literal_alnum w : sall is_alnum w = true → w ≠ "" → literal w = Some w.
Proof.
  destruct w as [|c w]; [done|]. intros H _. unfold literal. rewrite H. cbn [sall] in H. apply andb_true_iff in H as [H _].
  destruct (Ascii.eqb_spec c QUOTE) as [->|]; [done|]. by destruct (Ascii.eqb_spec c "'") as [->|].
Qed.

Lemma cut_free c sep a : free_of c a = true → ∀ s, cut (String c sep) (a +:+ String c sep +:+ s) = Some (a, s).
Proof. intros Ha s. rewrite cut_skip, cut_here by done. cbn. by rewrite app_nil_r_str. Qed.

(** Tests that all have the answer expected of them *)
Lemma execute_expects m errexit st n (qs : list (string * string)) (l : list command) :
  execute m errexit st (((λ qa, Expect qa.1 qa.2 n) <$> qs) ++ l) =
  if forallb (λ qa, String.eqb (mc_output m qa.1) qa.2) qs then execute m errexit (if bool_decide (qs = []) then st else 0) l else ([], n).
Proof.
  revert st. induction qs as [|[q a] qs IH]; intros st; [done|]. cbn [fmap list_fmap app execute forallb fst snd].
  destruct (String.eqb _ a); [|done]. cbn [andb]. rewrite IH. by destruct qs.
Qed.
