(* ===== verification/BoundedBuildSpec.v ===== *)
(** * Properties of the bounded build's parsers ([BoundedBuild]) *)

From S2P Require Import Prelude PyStr Regex Sha256 PyVal Json Effects BuildkitGate BuildkitGateSpec GateController BoundedBuild ShellScript.

Local Open Scope string_scope.
Local Open Scope list_scope.
Local Open Scope Z_scope.

(** ** Capacity projections *)
(** What [stat -f] printed for one mount. *)
Record raw_row := RawRow { rr_block_size : Z; rr_blocks : Z; rr_free : Z; rr_inodes : Z; rr_free_inodes : Z }.
Definition reported (r : raw_row) : capacity_row :=
  CapacityRow (rr_block_size r * rr_blocks r) (rr_block_size r * rr_free r) (rr_inodes r) (rr_free_inodes r).

(** The mount at [path] has exactly its fixed capacity, in blocks of 4 or 64 KiB. *)
Definition wf_raw (path : string) (r : raw_row) : Prop :=
  (rr_block_size r = 4096 ∨ rr_block_size r = 65536) ∧
  dlookup path CAPACITIES = Some (rr_block_size r * rr_blocks r) ∧
  0 <= rr_free r <= rr_blocks r ∧ 0 < rr_inodes r <= U64 ∧ 0 <= rr_free_inodes r <= rr_inodes r.
Definition wf_identity (d : daemon_identity) : Prop :=
  0 < dm_pid d <= U32 ∧ 0 < dm_start_ticks d <= U64 ∧ 0 < dm_mount_namespace_inode d <= U64.

Inductive cap_item :=
  | CapIdentity (when : string) (d : daemon_identity)
  | CapRow (key : string * string) (r : raw_row).

Definition cap_fields (i : cap_item) : list string :=
  match i with
  | CapIdentity w d => ["I"; w; dec_of_Z (dm_pid d); dec_of_Z (dm_start_ticks d); render_ns (dm_mount_namespace_inode d)]
  | CapRow k r => ["F"; k.1; k.2; dec_of_Z (rr_block_size r); dec_of_Z (rr_blocks r); dec_of_Z (rr_free r);
                   dec_of_Z (rr_inodes r); dec_of_Z (rr_free_inodes r)]
  end.
Definition render_cap (i : cap_item) : string := join "|" (cap_fields i).
Definition wf_cap (i : cap_item) : Prop :=
  match i with
  | CapIdentity w d => w ∈ ["before"; "after"] ∧ wf_identity d
  | CapRow k r => k ∈ capacity_keys ∧ wf_raw k.2 r
  end.
Definition cap_slot (i : cap_item) : list string :=
  match i with CapIdentity w _ => ["I"; w] | CapRow k _ => ["F"; k.1; k.2] end.
Definition put_cap (s : capacity_state) (i : cap_item) : capacity_state :=
  match i with
  | CapIdentity w d => CapacityState (cs_identities s ++ [(w, d)]) (cs_rows s)
  | CapRow k r => CapacityState (cs_identities s) (cs_rows s ++ [(k, reported r)])
  end.
Definition cap_free (s : capacity_state) (i : cap_item) : Prop :=
  match i with CapIdentity w _ => w ∉ (cs_identities s).*1 | CapRow k _ => k ∉ (cs_rows s).*1 end.

Lemma capacity_keys_elem d p : (d, p) ∈ capacity_keys ↔ d ∈ ["container"; "daemon"] ∧ p ∈ CAPACITIES.*1.
Proof.
  unfold capacity_keys. rewrite list_elem_of_bind. setoid_rewrite list_elem_of_bind.
  setoid_rewrite list_elem_of_singleton. naive_solver.
Qed.

Lemma capacity_keys_free k : k ∈ capacity_keys → free_of "|" k.1 = true ∧ free_of "|" k.2 = true.
Proof.
  assert (Forall (λ k, free_of "|" k.1 = true ∧ free_of "|" k.2 = true) capacity_keys) as H.
  { repeat (constructor; [by vm_compute|]). constructor. }
  rewrite Forall_forall in H. apply H.
Qed.

Lemma capacity_bound p n : dlookup p CAPACITIES = Some n → 0 < n <= 512 * 1024 ^ 2.
Proof.
  unfold CAPACITIES. cbn [dlookup]. repeat (destruct (String.eqb _ _); [intros [= <-]; lia|]). done.
Qed.

Lemma wf_raw_blocks p r : wf_raw p r → 0 < rr_blocks r <= U64.
Proof. unfold U64. intros (H & H1%capacity_bound & _). nia. Qed.

Lemma capacity_identity_spec w p t n d :
  capacity_identity ["I"; w; p; t; n] = Ok d ↔
  p = dec_of_Z (dm_pid d) ∧ t = dec_of_Z (dm_start_ticks d) ∧ n = render_ns (dm_mount_namespace_inode d) ∧ wf_identity d.
Proof.
  unfold capacity_identity, wf_identity. cbn [nth]. split.
  - intros H. ok_inv H. apply mount_unsigned_spec in Hok as (-> & ? & Hp), Hok0 as (-> & ? & Ht); [|done..].
    apply mount_namespace_spec in Hok1 as (-> & ?). specialize (Hp eq_refl). specialize (Ht eq_refl).
    cbn. split_and!; (done || lia).
  - intros (-> & -> & -> & H1 & H2 & H3).
    rewrite (mount_unsigned_dec (dm_pid d)), bind_ret, (mount_unsigned_dec (dm_start_ticks d)), bind_ret,
      (proj2 (mount_namespace_spec _ (dm_mount_namespace_inode d))) by (done || lia).
    by destruct d.
Qed.

Lemma parse_capacity_row_spec k f3 f4 f5 f6 f7 c :
  parse_capacity_row ["F"; k.1; k.2; f3; f4; f5; f6; f7] = Ok c ↔
  ∃ r, ["F"; k.1; k.2; f3; f4; f5; f6; f7] = cap_fields (CapRow k r) ∧ wf_raw k.2 r ∧ c = reported r.
Proof.
  unfold parse_capacity_row, gate_if. cbn [nth]. split.
  - intros H. ok_inv H. bool_inv.
    apply mount_unsigned_spec in Hok as (-> & ? & P0), Hok0 as (-> & ? & P1), Hok1 as (-> & ? & _),
      Hok2 as (-> & ? & P2), Hok3 as (-> & ? & _); [|done..].
    exists (RawRow a a0 a1 a2 a3). specialize (P2 eq_refl). split_and!; [done| |done]. unfold wf_raw. cbn.
    match goal with F : _ ∈ [4096; 65536] |- _ => rewrite !elem_of_cons, elem_of_nil in F end.
    split_and!; (tauto || lia).
  - intros ([bs b fr i fi] & [= -> -> -> -> ->] & Hwf & ->). pose proof (wf_raw_blocks _ _ Hwf) as Hb.
    destruct Hwf as (H1 & H2 & H3 & H4 & H5). cbn -[dec_of_Z CAPACITIES] in *. pose proof (capacity_bound _ _ H2).
    assert (0 < bs <= U64) as Hbs by (unfold U64; lia). assert (0 <= fr <= U64) as Hfr by (unfold U64; nia).
    assert (0 <= fi <= U64) as Hfi by lia.
    rewrite (mount_unsigned_dec bs), bind_ret, (mount_unsigned_dec b), bind_ret, (mount_unsigned_dec fr), bind_ret,
      (mount_unsigned_dec i), bind_ret, (mount_unsigned_dec fi), bind_ret by (done || lia).
    rewrite raise_if_pass; [done|]. rewrite !orb_false_iff, !negb_false_iff, !bool_decide_eq_true.
    split_and!; [set_solver|done|lia|lia].
Qed.

Lemma cap_fields_free i : wf_cap i → forallb (free_of "|") (cap_fields i) = true.
Proof.
  destruct i as [w d|k r]; cbn -[render_ns dec_of_Z free_of].
  - intros [Hw (H1 & H2 & H3)]. rewrite !dec_free, render_ns_free by (done || lia).
    apply elem_of_cons in Hw as [->|Hw]; [done|]. by apply list_elem_of_singleton in Hw as ->.
  - intros [Hk Hr]. pose proof (wf_raw_blocks _ _ Hr). destruct (capacity_keys_free k Hk) as [-> ->].
    destruct Hr as (H1 & _ & H3 & H4 & H5). by rewrite !dec_free by (done || lia).
Qed.

Lemma split_render_cap i : wf_cap i → split_on "|" (render_cap i) = cap_fields i.
Proof. intros H. apply split_on_join; [by destruct i|by apply cap_fields_free]. Qed.

Lemma list_length_8 {A} (l : list A) : length l = 8%nat → ∃ a b c d e f g h, l = [a; b; c; d; e; f; g; h].
Proof. intros H. destruct l as [|a [|b [|c [|d [|e [|f [|g [|h [|]]]]]]]]]; try discriminate H. do 8 eexists. done. Qed.

Lemma capacity_line_Ok s line s' :
  capacity_line s line = Ok s' → ∃ i, line = render_cap i ∧ wf_cap i ∧ cap_free s i ∧ s' = put_cap s i.
Proof.
  unfold capacity_line, gate_if, render_cap. cbv zeta. pose proof (join_split_on "|" line) as Hj.
  set (fs := split_on "|" line) in *. clearbody fs. subst line. intros H.
  destruct (Nat.eqb (length fs) 5 && String.eqb (nth 0 fs EmptyString) "I" && _) eqn:EI;
    [|destruct (Nat.eqb (length fs) 8 && String.eqb (nth 0 fs EmptyString) "F") eqn:EF; [|discriminate H]].
  - bool_inv. match goal with F : Nat.eqb _ 5 = true |- _ => apply Nat.eqb_eq, list_length_5 in F as (a & b & c & d & e & ->) end.
    cbn [nth] in *. subst a. ok_inv H. bool_inv. apply capacity_identity_spec in Hok0 as (-> & -> & -> & Hw).
    exists (CapIdentity b a0). split_and!; done.
  - bool_inv. match goal with F : Nat.eqb _ 8 = true |- _ =>
      apply Nat.eqb_eq, list_length_8 in F as (a & b & c & d & e & f & g & h & ->) end.
    cbn [nth] in *. subst a. ok_inv H. bool_inv.
    apply (parse_capacity_row_spec (b, c)) in Hok0 as (r & Hf & Hw & ->).
    exists (CapRow (b, c) r). split_and!; [by rewrite <- Hf| |done|done]. split; [|done]. by apply capacity_keys_elem.
Qed.

Lemma capacity_line_render s i : wf_cap i → cap_free s i → capacity_line s (render_cap i) = Ok (put_cap s i).
Proof.
  intros Hw Hf. unfold capacity_line, gate_if. rewrite split_render_cap by done.
  destruct i as [w d|k r]; cbn [cap_fields nth length Nat.eqb cap_free andb] in *.
  - destruct Hw as [Hw Hd]. rewrite String.eqb_refl, (bool_decide_true (w ∈ _)), bool_decide_false, raise_if_pass by done.
    cbn [andb]. rewrite (proj2 (capacity_identity_spec _ _ _ _ d)) by (split_and!; done). done.
  - destruct Hw as [Hk Hr]. rewrite String.eqb_refl. destruct k as [kd kp]. pose proof Hk as [Hk1 Hk2]%capacity_keys_elem.
    cbn [fst snd] in *. rewrite (bool_decide_true (kd ∈ _)), (bool_decide_true (kp ∈ _)), bool_decide_false,
      raise_if_pass by done.
    rewrite (proj2 (parse_capacity_row_spec (kd, kp) _ _ _ _ _ (reported r))) by (by exists r). done.
Qed.

Definition cap_identities (l : list cap_item) : list (string * daemon_identity) :=
  omap (λ i, match i with CapIdentity w d => Some (w, d) | _ => None end) l.
Definition cap_rows (l : list cap_item) : list ((string * string) * raw_row) :=
  omap (λ i, match i with CapRow k r => Some (k, r) | _ => None end) l.
Definition with_report (kr : (string * string) * raw_row) : (string * string) * capacity_row := (kr.1, reported kr.2).

Lemma cap_state_lists l :
  let s := foldl put_cap (CapacityState [] []) l in
  cs_identities s = cap_identities l ∧ cs_rows s = with_report <$> cap_rows l.
Proof.
  induction l as [|i l [IH1 IH2]] using rev_ind; [done|].
  unfold cap_identities, cap_rows in *. rewrite foldl_app, !omap_app, !fmap_app. cbn [foldl].
  destruct i; cbn [put_cap cs_identities cs_rows omap list_omap fmap list_fmap]; rewrite ?IH1, ?IH2, ?app_nil_r; done.
Qed.

Lemma cap_identities_elem l w d : (w, d) ∈ cap_identities l ↔ CapIdentity w d ∈ l.
Proof.
  unfold cap_identities. rewrite list_elem_of_omap. split; [|by exists (CapIdentity w d)].
  intros ([] & Hi & [=]); by subst.
Qed.
Lemma cap_rows_elem l k r : (k, r) ∈ cap_rows l ↔ CapRow k r ∈ l.
Proof.
  unfold cap_rows. rewrite list_elem_of_omap. split; [|by exists (CapRow k r)].
  intros ([] & Hi & [=]); by subst.
Qed.

Lemma with_report_keys l : (with_report <$> l).*1 = l.*1.
Proof. rewrite <- list_fmap_compose. by apply list_fmap_ext. Qed.

Lemma cap_free_slot l i : cap_free (foldl put_cap (CapacityState [] []) l) i ↔ cap_slot i ∉ cap_slot <$> l.
Proof.
  destruct (cap_state_lists l) as [H1 H2]. rewrite list_elem_of_fmap.
  destruct i as [w d|[k1 k2] r]; cbn [cap_free cap_slot]; rewrite ?H1, ?H2, ?with_report_keys, list_elem_of_fmap.
  - split.
    + intros H ([] & [=] & Hi). subst. apply H. eexists (_, _). split; [done|]. by apply cap_identities_elem.
    + intros H ([w' d'] & -> & Hi%cap_identities_elem). apply H. by exists (CapIdentity w' d').
  - split.
    + intros H ([|[k1' k2'] r'] & [=] & Hi). subst. apply H. eexists (_, _). split; [done|]. by apply cap_rows_elem.
    + intros H ([[k1' k2'] r'] & [= -> ->] & Hi%cap_rows_elem). apply H. by exists (CapRow (k1', k2') r').
Qed.

Lemma capacity_fold_spec lines s :
  foldR capacity_line (CapacityState [] []) lines = Ok s ↔
  ∃ items, lines = render_cap <$> items ∧ Forall wf_cap items ∧ NoDup (cap_slot <$> items) ∧
    s = foldl put_cap (CapacityState [] []) items.
Proof.
  apply (slot_fold render_cap wf_cap cap_slot capacity_line put_cap (CapacityState [] []) cap_free).
  - apply capacity_line_Ok.
  - apply capacity_line_render.
  - apply cap_free_slot.
Qed.

(** The ten lines of the probe for a daemon and eight rows. *)
Definition cap_items (d : daemon_identity) (raws : list ((string * string) * raw_row)) : list cap_item :=
  [CapIdentity "before" d; CapIdentity "after" d] ++ (uncurry CapRow <$> raws).

Lemma kfind_report k l : kfind k (with_report <$> l) = reported <$> kfind k l.
Proof. induction l as [|[k' r] l IH]; [done|]. cbn. case_bool_decide; [done|exact IH]. Qed.

Lemma cap_items_slots d raws : raws.*1 = capacity_keys → NoDup (cap_slot <$> cap_items d raws).
Proof.
  intros Hk. unfold cap_items. rewrite fmap_app, <- list_fmap_compose.
  replace (cap_slot ∘ uncurry CapRow <$> raws) with ((λ k, ["F"; k.1; k.2]) <$> raws.*1).
  - rewrite Hk. by_decide.
  - rewrite <- list_fmap_compose. apply list_fmap_ext. by intros ? [[] ?].
Qed.

Lemma cap_items_elem d raws i :
  i ∈ cap_items d raws ↔ i = CapIdentity "before" d ∨ i = CapIdentity "after" d ∨ ∃ kr, i = CapRow kr.1 kr.2 ∧ kr ∈ raws.
Proof.
  unfold cap_items. rewrite elem_of_app, !elem_of_cons, elem_of_nil, list_elem_of_fmap. split.
  - intros [[?|[?|[]]]|([k r] & -> & ?)]; [tauto|tauto|]. right. right. by exists (k, r).
  - intros [?|[?|([k r] & -> & ?)]]; [tauto|tauto|]. right. by exists (k, r).
Qed.

(** The wanted rows are among the rows read. *)
Lemma wanted_rows rows0 keys rows :
  mapR (λ k, match kfind k (with_report <$> rows0) with Some r => Ok (k, r) | None => raise KeyError "rows" end) keys
    = Ok rows →
  ∃ raws, raws.*1 = keys ∧ (∀ kr, kr ∈ raws → kr ∈ rows0) ∧ rows = with_report <$> raws.
Proof.
  revert rows. induction keys as [|k keys IH]; intros rows H; cbn [mapR] in H.
  - ok_inv H. exists []. split_and!; [done| |done]. by intros ? ?%elem_of_nil.
  - ok_inv H. apply IH in Hok0 as (raws & <- & Hin & ->). rewrite kfind_report in Hok.
    destruct (kfind k rows0) as [r|] eqn:E; [|by apply raise_Ok in Hok]. apply kfind_elem in E.
    cbn [fmap option_fmap option_map] in Hok. apply Ok_inj in Hok as [= <- <-]. exists ((k, r) :: raws). split_and!; [done| |done].
    intros kr [->|?]%elem_of_cons; [done|auto].
Qed.

Lemma cap_slots_identities l : NoDup (cap_slot <$> l) → NoDup (cap_identities l).*1.
Proof.
  induction l as [|[w d|k r] l IH]; cbn; [constructor|..]; rewrite NoDup_cons; intros [Hn Hl]; try by apply IH.
  apply NoDup_cons. split; [|by apply IH]. rewrite list_elem_of_fmap. intros ([w' d'] & -> & Hi%cap_identities_elem).
  apply Hn. by apply (list_elem_of_fmap_2 cap_slot _ (CapIdentity w' d')).
Qed.
Lemma cap_slots_rows l : NoDup (cap_slot <$> l) → NoDup (cap_rows l).*1.
Proof.
  induction l as [|[w d|k r] l IH]; cbn; [constructor|..]; rewrite NoDup_cons; intros [Hn Hl]; try by apply IH.
  apply NoDup_cons. split; [|by apply IH]. rewrite list_elem_of_fmap. intros ([k' r'] & -> & Hi%cap_rows_elem).
  apply Hn. by apply (list_elem_of_fmap_2 cap_slot _ (CapRow k' r')).
Qed.

Lemma mapR_report rows0 raws :
  NoDup rows0.*1 → (∀ kr, kr ∈ raws → kr ∈ rows0) →
  mapR (λ k, match kfind k (with_report <$> rows0) with Some r => Ok (k, r) | None => raise KeyError "rows" end)
    (with_report <$> raws).*1 = Ok (with_report <$> raws).
Proof.
  intros Hn. induction raws as [|[k r] raws IH]; intros Hin; [done|]. cbn [fmap list_fmap mapR fst with_report].
  rewrite kfind_report, (elem_kfind k r rows0) by (done || apply Hin; left). cbn [fmap option_fmap option_map].
  rewrite bind_ret, IH; [done|]. intros kr Hkr. apply Hin. by right.
Qed.

(** C23. The capacity proof is read exactly.  [parse_capacity] succeeds if and
    only if the text is at most 8192 bytes long and its lines are, in some
    order, the ten lines that show the expected daemon before and after and,
    for each of the two domains and four mounts, one row of a file system with
    exactly the fixed capacity, blocks of 4 or 64 KiB, no more free blocks than
    blocks and no more free inodes than inodes; the result reports exactly
    these rows in the fixed order. *)
Theorem parse_capacity_exact (text : string) (d : daemon_identity) (rows : list ((string * string) * capacity_row)) :
  parse_capacity text d = Ok rows ↔
  slen text <= 8192 ∧ wf_identity d ∧
  ∃ raws, raws.*1 = capacity_keys ∧ Forall (λ kr : (string * string) * raw_row, wf_raw kr.1.2 kr.2) raws ∧
    rows = with_report <$> raws ∧ splitlines text ≡ₚ render_cap <$> cap_items d raws.
Proof.
  unfold parse_capacity, gate_if. split.
  - intros H. ok_inv H. bool_inv. apply capacity_fold_spec in Hok0 as (items & Hlines & Hw & Hn & ->).
    destruct (cap_state_lists items) as [E1 E2]. rewrite E1, E2 in *. apply wanted_rows in H as (raws & Hk & Hin & ->).
    match goal with F : kfind "before" _ = _, G : kfind "after" _ = _ |- _ =>
      apply kfind_elem, cap_identities_elem in F, G; rename F into Hbefore, G into Hafter end.
    rewrite Forall_forall in Hw. pose proof (Hw _ Hbefore) as [_ Hd].
    assert (∀ i, i ∈ cap_items d raws → i ∈ items) as Hsub.
    { intros i [->|[->|([k r] & -> & Hkr)]]%cap_items_elem; [done|done|]. by apply cap_rows_elem, Hin. }
    split_and!; [done|done|]. exists raws. split_and!; [done| |done|].
    + apply Forall_forall. intros [k r] Hkr%Hin%cap_rows_elem. by destruct (Hw _ Hkr).
    + rewrite Hlines. apply fmap_Permutation, perm_of_sub; [eapply NoDup_fmap_1, cap_items_slots, Hk|done|].
      rewrite <- (length_fmap cap_slot items), <- (length_fmap cap_slot (cap_items d raws)).
      apply submseteq_length, NoDup_submseteq; [done|]. intros sl (i & -> & Hi)%list_elem_of_fmap.
      specialize (Hw _ Hi). destruct i as [w e|[k1 k2] r]; destruct Hw as [Hw _].
      * rewrite !elem_of_cons, elem_of_nil in Hw. apply list_elem_of_fmap.
        exists (CapIdentity w d). split; [done|]. apply cap_items_elem. destruct Hw as [->|[->|[]]]; tauto.
      * rewrite <- Hk in Hw. apply list_elem_of_fmap in Hw as ([k r'] & Heq & Hr). cbn in Heq. subst k.
        apply list_elem_of_fmap. exists (CapRow (k1, k2) r'). split; [done|]. apply cap_items_elem. right. right.
        by exists ((k1, k2), r').
  - intros (Hlen & Hd & raws & Hk & Hr & -> & Hperm). rewrite raise_if_pass by lia.
    apply Permutation_map_inv in Hperm as (items & Hlines & Hp). symmetry in Hp.
    assert (NoDup (cap_slot <$> items)) as Hn by (rewrite Hp; by apply cap_items_slots).
    rewrite Forall_forall in Hr.
    rewrite (proj2 (capacity_fold_spec _ (foldl put_cap (CapacityState [] []) items))), bind_ret; cycle 1.
    { exists items. split_and!; [done| |done|done]. rewrite Hp. apply Forall_forall.
      intros i [->|[->|([k r] & -> & Hkr)]]%cap_items_elem; cbn [wf_cap fst snd]; [split; [set_solver|done]..|].
      split; [|by apply (Hr (k, r))]. rewrite <- Hk. by apply (list_elem_of_fmap_2 fst _ (k, r)). }
    destruct (cap_state_lists items) as [-> ->].
    assert (∀ w, w ∈ ["before"; "after"] → kfind w (cap_identities items) = Some d) as Hid.
    { intros w Hw. apply elem_kfind; [by apply cap_slots_identities|]. apply cap_identities_elem. rewrite Hp.
      apply cap_items_elem. rewrite !elem_of_cons, elem_of_nil in Hw. destruct Hw as [->|[->|[]]]; tauto. }
    assert (∀ kr, kr ∈ cap_rows items ↔ kr ∈ raws) as Hrows.
    { intros [k r]. rewrite cap_rows_elem, Hp, cap_items_elem. split; [|intros H; right; right; by exists (k, r)].
      intros [?|[?|([k' r'] & [= -> ->] & ?)]]; done. }
    assert (NoDup (cap_rows items).*1) as Hnr by (by apply cap_slots_rows).
    rewrite !Hid, !bool_decide_true by set_solver. rewrite raise_if_pass.
    + rewrite <- Hk, <- (with_report_keys raws). apply mapR_report; [done|]. intros kr Hkr. by apply Hrows.
    + cbn [andb negb orb]. apply negb_false_iff, same_set_true. intros k.
      rewrite with_report_keys, <- Hk, !list_elem_of_fmap.
      split; intros (kr & -> & Hin%Hrows); by exists kr.
Qed.

(** ** Transports *)
Lemma cgroup_path_cases v path :
  cgroup_path v = Ok path →
  (∃ u, path = String "/" u) ∧ sall path_char path = true ∧ ".." ∉ split_on "/" path ∧
  (path = "/" ∨ rstrip_c (is_one "/") path = path).
Proof.
  intros H. pose proof (cgroup_path_no_up _ _ H) as Hup. revert H. unfold cgroup_path, gate_if. intros H. ok_inv H.
  bool_inv. match goal with F : fullmatch _ _ = true |- _ => apply fullmatch_spec in F; rename F into Hm end.
  apply matches_seq in Hm as (pre & b & Hab & ->%matches_lit & Hb%matches_star_char).
  rewrite Hab in *. destruct (rstrip_c_split (is_one "/") ("/" +:+ b)) as (t & Ht & _).
  destruct (String.eqb_spec (rstrip_c (is_one "/") ("/" +:+ b)) EmptyString) as [E|E].
  - split_and!; [by exists EmptyString|done|done|by left].
  - destruct (rstrip_c (is_one "/") ("/" +:+ b)) as [|c u] eqn:Eu; [done|].
    assert (sall path_char (String c u +:+ t) = true) as Hall.
    { rewrite <- Ht. change ("/" +:+ b) with (String "/" b). cbn [sall]. by rewrite Hb. }
    rewrite sall_app in Hall. apply andb_true_iff in Hall as [Hall _].
    split_and!; [|done|done|right; rewrite <- Eu; apply rstrip_c_idem].
    exists u. change (String "/" b = String c (u +:+ t)) in Ht. by injection Ht as <- _.
Qed.

(** A control group path as [cgroup_path] returns it. *)
Definition normal_path (path : string) : Prop :=
  (∃ u, path = String "/" u) ∧ sall path_char path = true ∧ ".." ∉ split_on "/" path ∧
  (path = "/" ∨ rstrip_c (is_one "/") path = path).

Lemma path_char_printable c : path_char c = true → in_range "!" "~" c = true.
Proof. by destruct c as [[] [] [] [] [] [] [] []]. Qed.

Lemma path_free c s : sall path_char s = true → path_char c = false → free_of c s = true.
Proof.
  intros Hs Hc. revert Hs. apply sall_impl. intros d Hd. apply negb_true_iff, not_true_iff_false.
  intros ->%Ascii.eqb_eq. congruence.
Qed.

Lemma cgroup_path_normal path : normal_path path → cgroup_path ("0::" +:+ path) = Ok path.
Proof.
  intros ((u & ->) & Hc & Hup & Hn). unfold cgroup_path, gate_if.
  change (sdrop 3 ("0::" +:+ String "/" u)) with (String "/" u).
  rewrite raise_if_pass, raise_if_pass.
  - destruct Hn as [Hn|Hn]; [by injection Hn as ->|]. by rewrite Hn.
  - apply orb_false_iff. split.
    + apply not_true_iff_false. intros (x & Hx & <-%String.eqb_eq)%existsb_exists. by apply Hup, list_elem_of_In.
    + apply negb_false_iff, fullmatch_spec. change (String "/" u) with ("/" +:+ u).
      apply m_seq; [by apply matches_lit|]. apply matches_star_char. by apply andb_true_iff in Hc as [_ Hc].
  - cbn [startswith]. unfold sany. cbn [sall] in *.
    assert (∀ k, path_char k = false → sall (λ c, negb (is_one k c)) u = true) as Hfree.
    { intros k Hk. apply andb_true_iff in Hc as [_ Hc]. revert Hc. apply sall_impl. intros d Hd.
      unfold is_one. apply negb_true_iff, not_true_iff_false. intros <-%Ascii.eqb_eq. congruence. }
    change (("0::" +:+ String "/" u)) with (String "0" (String ":" (String ":" (String "/" u)))).
    cbn [sall]. rewrite !Hfree by done. by destruct u.
Qed.

Definition ns_char (c : ascii) : bool := is_digit c || is_any ["c"; "g"; "r"; "o"; "u"; "p"; ":"; "["; "]"]%char c.
Lemma cgroup_ns_chars n : fullmatch cgroup_ns_re n = true → sall ns_char n = true ∧ n ≠ EmptyString.
Proof.
  intros H. split; [by eapply fullmatch_chars; [|exact H]|]. by intros ->.
Qed.

Lemma ns_char_printable c : ns_char c = true → in_range "!" "~" c = true.
Proof. by destruct c as [[] [] [] [] [] [] [] []]. Qed.

(** [parent] itself or below it, as the code tests it. *)
Lemma below_test parent path :
  normal_path parent → (String.eqb parent "/" || String.eqb path parent || startswith (parent +:+ "/") path) = true ↔
  parent = "/" ∨ ∃ rest, split_on "/" path = split_on "/" parent ++ rest.
Proof.
  intros _. rewrite !orb_true_iff, !String.eqb_eq. split.
  - intros [[-> | ->]|H]; [by left|right; exists []; by rewrite app_nil_r|]. right.
    apply prefix_app in H as [t ->]. exists (split_on "/" t). by rewrite <- split_on_cat, <- app_assoc_str.
  - intros [->|[rest Hr]]; [by left; left|]. destruct rest as [|x rest].
    + left. right. rewrite app_nil_r in Hr. by rewrite <- (join_split_on "/" path), Hr, join_split_on.
    + right. apply prefix_app. exists (join "/" (x :: rest)). rewrite <- (join_split_on "/" path), Hr.
      rewrite <- (join_split_on "/" parent) at 2. pose proof (split_on_nonempty "/" parent) as Hne. clear Hr.
      induction (split_on "/" parent) as [|y [|z l] IH]; [done| |].
      * cbn [app]. rewrite join_cons. by rewrite app_assoc_str.
      * cbn [app] in *. rewrite !join_cons, IH by done. by rewrite !app_assoc_str.
Qed.

(** A row a signal may be sent for, given the first row's control group and namespace. *)
Definition signalable (parent namespace : string) (w : worker) : Prop :=
  1 < wk_pid w ∧ 0 < wk_start_ticks w ∧ normal_path (wk_cgroup w) ∧ below parent (wk_cgroup w) ∧
  wk_namespace w = namespace ∧ fullmatch cgroup_ns_re namespace = true.

Lemma parse_worker_row parent found line found' :
  parse_worker parent found line = Ok found' →
  ∃ w, found' = found ++ [w] ∧ normal_path (wk_cgroup w) ∧ fullmatch cgroup_ns_re (wk_namespace w) = true.
Proof.
  unfold parse_worker, gate_ifR, gate_if. cbv zeta. intros H. ok_inv H. bool_inv.
  eexists. split_and!; [done| |done]. cbn [wk_cgroup]. by eapply cgroup_path_cases.
Qed.

Lemma parse_workers_signalable text cg ns ws :
  parse_workers text cg ns = Ok ws →
  ∃ parent, cgroup_path cg = Ok parent ∧ (length ws <= 4)%nat ∧ NoDup (wk_pid <$> ws) ∧
    Forall (λ w, signalable parent (wk_namespace w) w) ws.
Proof.
  unfold parse_workers, gate_if. intros H. ok_inv H. bool_inv. exists a.
  match goal with F : no_dup _ = true |- _ => apply no_dup_true in F end.
  match goal with F : (4 <? _)%nat = false |- _ => apply Nat.ltb_ge in F end.
  split_and!; [done|done|done|]. revert Hok1. generalize (splitlines (strip text)). intros lines Hf.
  apply (foldR_inv _ (λ ws, Forall (λ w, signalable a (wk_namespace w) w) ws) [] lines) in Hf; [done| |done].
  intros s x s' _ Hs Hx. pose proof (parse_worker_Ok _ _ _ _ Hx) as (w & E1 & ? & ? & ?).
  apply parse_worker_row in Hx as (w' & E2 & ? & ?). rewrite E1 in E2. apply app_inj_tail in E2 as [_ <-].
  subst s'. apply Forall_app. split; [done|]. constructor; [|done]. by split_and!.
Qed.

Lemma parse_transports_signalable text cg ns allow ws :
  parse_transports text cg ns allow = Ok ws →
  ∃ parent, cgroup_path cg = Ok parent ∧ (length ws <= 4)%nat ∧ NoDup (wk_pid <$> ws) ∧ Forall (signalable parent ns) ws.
Proof.
  unfold parse_transports, gate_if. intros H. ok_inv H.
  match goal with F : parse_workers _ _ _ = Ok _ |- _ => apply parse_workers_signalable in F as (parent & ? & ? & ? & Hf) end.
  exists parent. split_and!; [done|done|done|]. rewrite Forall_forall in *. intros w Hw. specialize (Hf w Hw).
  match goal with F : existsb (λ w, negb (String.eqb (wk_namespace w) ns)) _ = false |- _ => rename F into Hns end.
  assert (wk_namespace w = ns) as <-; [|done]. apply dec_stable. intros Hne. rewrite <- not_true_iff_false in Hns.
  apply Hns, existsb_exists. exists w. split; [by apply list_elem_of_In|]. by apply negb_true_iff, String.eqb_neq.
Qed.

(** Equal rows have equal identities. *)
Lemma transport_value_eq w item v :
  py_eq (transport_value w) item = true → transport_identity item = Ok v → w = v.
Proof.
  unfold transport_identity, gate_if, dget. destruct item as [| | | | | | | |d]; try done. intros He H. ok_inv H.
  cbn [py_eq transport_value] in He. apply andb_true_iff in He as [_ He]. rewrite !andb_true_iff in He.
  destruct He as (Hp & Ht & Hc & Hn & _).
  repeat match goal with
  | F : context [dlookup ?k d] |- _ => destruct (dlookup k d) as [[]|]; cbn [default from_option id] in *; try done
  end.
  destruct (decide (z1 = 1000)) as [->|Hz]; [|by repeat case_match].
  apply Ok_inj in H as <-. destruct w as [pid ticks cg ns]. cbn in *.
  unfold num_eqb, num_cmp in Hp, Ht. apply String.eqb_eq in Hc, Hn. subst.
  destruct (pid ?= z) eqn:E1, (ticks ?= z0) eqn:E2; try done. apply Z.compare_eq in E1, E2. by subst.
Qed.

Lemma transport_values_eq ws items vs :
  py_eq (VList (transport_value <$> ws)) (VList items) = true → mapR transport_identity items = Ok vs → ws = vs.
Proof.
  rewrite mapR_Ok. intros He Hvs. revert ws He.
  induction Hvs as [|item v items vs Hv _ IH]; intros [|w ws] He; try done.
  cbn [fmap list_fmap] in He. cbn [py_eq] in He. apply andb_true_iff in He as [He1 He2].
  f_equal; [by eapply transport_value_eq|]. apply IH. exact He2.
Qed.

Lemma transport_value_refl w : py_eq (transport_value w) (transport_value w) = true.
Proof.
  unfold transport_value. cbn. unfold num_eqb, num_cmp. by rewrite !Z.compare_refl, !String.eqb_refl.
Qed.

Lemma transport_values_refl ws : py_eq (VList (transport_value <$> ws)) (VList (transport_value <$> ws)) = true.
Proof.
  induction ws as [|w ws IH]; [done|]. cbn [fmap list_fmap]. cbn [py_eq] in *.
  rewrite transport_value_refl. exact IH.
Qed.

(** *** Rendering and reading back *)
Definition bounded_row (w : worker) : Prop := wk_pid w <= U32 ∧ wk_start_ticks w <= U64.
Definition worker_row (w : worker) : list string :=
  [dec_of_Z (wk_pid w); dec_of_Z (wk_start_ticks w); "0::" +:+ wk_cgroup w; wk_namespace w].
Definition transport_row (w : worker) : list string :=
  [dec_of_Z (wk_pid w); dec_of_Z (wk_start_ticks w); "1000"; "0::" +:+ wk_cgroup w; wk_namespace w].
Definition transport_text (ws : list worker) : string := join LF ((join "|" ∘ transport_row) <$> ws).

Lemma row_free parent ns w : signalable parent ns w → forallb (free_of "|") (transport_row w) = true.
Proof.
  intros (Hp & Ht & (_ & Hc & _) & _ & En & Hns). apply cgroup_ns_chars in Hns as [Hns _].
  cbn [transport_row forallb]. rewrite En. rewrite !dec_free by (done || lia).
  replace (free_of "|" ("0::" +:+ wk_cgroup w)) with true.
  - replace (free_of "|" ns) with true; [done|]. symmetry. revert Hns. apply sall_impl.
    intros c Hc'. apply negb_true_iff, not_true_iff_false. intros ->%Ascii.eqb_eq. discriminate Hc'.
  - symmetry. unfold free_of. rewrite sall_app. cbn [andb sall Ascii.eqb negb]. by apply path_free.
Qed.

Lemma join_printable l : forallb printable l = true → printable (join "|" l) = true.
Proof.
  induction l as [|x [|y l] IH]; [done|by intros [? _]%andb_true_iff|]. rewrite join_cons. cbn [forallb].
  rewrite andb_true_iff. intros [Hx Hl]. unfold printable in *. rewrite !sall_app, Hx. cbn [andb sall].
  by apply IH.
Qed.

Lemma dec_printable n : 0 <= n → printable (dec_of_Z n) = true.
Proof.
  intros Hn. eapply sall_impl; [|by apply dec_of_Z_digits]. intros c.
  by destruct c as [[] [] [] [] [] [] [] []].
Qed.

Lemma row_printable parent ns w : signalable parent ns w →
  forallb printable (transport_row w) = true ∧ forallb printable (worker_row w) = true.
Proof.
  intros (Hp & Ht & (_ & Hc & _) & _ & En & Hns). apply cgroup_ns_chars in Hns as [Hns _].
  assert (printable ("0::" +:+ wk_cgroup w) = true) as Hcg.
  { unfold printable. rewrite sall_app. cbn [andb]. eapply sall_impl; [|exact Hc]. apply path_char_printable. }
  assert (printable ns = true) as Hn by (eapply sall_impl; [|exact Hns]; apply ns_char_printable).
  cbn [transport_row worker_row forallb]. rewrite En. by rewrite Hcg, Hn, !dec_printable by lia.
Qed.

Lemma rows_lines {parent ns} ws (row : worker → list string) :
  (∀ w, signalable parent ns w → forallb printable (row w) = true) →
  (∀ w, ∃ x y l, row w = x :: y :: l) →
  Forall (signalable parent ns) ws → printable_lines ((join "|" ∘ row) <$> ws).
Proof.
  intros Hrow Hlen Hf. apply Forall_fmap. eapply Forall_impl; [exact Hf|]. intros w Hw. cbn. split.
  - by apply join_printable, Hrow.
  - destruct (Hlen w) as (x & y & l & ->). rewrite join_cons. by destruct x.
Qed.

Lemma parse_worker_back parent found w :
  normal_path parent → signalable parent (wk_namespace w) w → bounded_row w →
  parse_worker parent found (join "|" (worker_row w)) = Ok (found ++ [w]).
Proof.
  intros Hpar Hs [Hb1 Hb2]. pose proof (row_free _ _ _ Hs) as Hfree. cbn [transport_row forallb] in Hfree.
  rewrite !andb_true_iff in Hfree. destruct Hfree as (F1 & F2 & _ & F4 & F5 & _).
  destruct Hs as (Hp & Ht & Hn & [_ Hbel] & _ & Hns). unfold parse_worker, gate_ifR, gate_if.
  rewrite split_on_join; [|done|by cbn [forallb worker_row]; rewrite F1, F2, F4, F5].
  cbn [nth worker_row length Nat.eqb].
  assert (∀ n, 0 <= n <= U64 → isdecimal (dec_of_Z n) = true ∧ int_of_decimal (dec_of_Z n) = Ok n) as Hd.
  { intros n Hn'. pose proof (dec_of_Z_len n 20 ltac:(unfold U64 in *; lia) ltac:(lia)).
    destruct (canonical_dec_digits _ (dec_of_Z_canonical n ltac:(lia))). split; [by apply isdecimal_digits|].
    rewrite int_of_decimal_digits, dec_of_Z_val by (done || lia). done. }
  destruct (Hd (wk_pid w)) as [-> ->]; [unfold U32, U64 in *; lia|].
  destruct (Hd (wk_start_ticks w)) as [-> ->]; [lia|].
  rewrite !bind_ret. replace (wk_pid w <=? 1) with false by lia. replace (wk_start_ticks w <=? 0) with false by lia.
  change (raise_ifR _ GateError "WORKER_IDENTITY_UNPROVEN") with (@Ok unit tt). rewrite bind_ret.
  rewrite cgroup_path_normal, bind_ret, raise_if_pass, !bind_ret by (done || by rewrite Hns, (proj2 (below_test _ _ Hpar))).
  by destruct w.
Qed.

Lemma parse_workers_back cg ns parent ws :
  cgroup_path cg = Ok parent → fullmatch cgroup_ns_re ns = true → (length ws <= 4)%nat → NoDup (wk_pid <$> ws) →
  Forall (λ w, signalable parent ns w ∧ bounded_row w) ws →
  parse_workers (join LF ((join "|" ∘ worker_row) <$> ws)) cg ns = Ok ws.
Proof.
  intros Hcg Hns Hlen Hnd Hf. unfold parse_workers, gate_if. rewrite Hcg, bind_ret, Hns, raise_if_pass by done.
  assert (Forall (signalable parent ns) ws) as Hs by (eapply Forall_impl; [exact Hf|]; by intros ? []).
  assert (printable_lines ((join "|" ∘ worker_row) <$> ws)) as Hpr.
  { eapply rows_lines; [|by intros; do 3 eexists|exact Hs]. intros w Hw. by eapply row_printable. }
  rewrite strip_join, splitlines_join by done.
  assert (foldR (parse_worker parent) [] ((join "|" ∘ worker_row) <$> ws) = Ok ws) as ->.
  { assert (∀ found, foldR (parse_worker parent) found ((join "|" ∘ worker_row) <$> ws) = Ok (found ++ ws)) as H;
      [|apply H]. clear Hlen Hnd Hs Hpr. induction Hf as [|w ws [Hw Hb] _ IH]; intros found; [by rewrite app_nil_r|].
    cbn [fmap list_fmap foldR compose]. destruct Hw as (? & ? & ? & ? & ? & ?).
    rewrite parse_worker_back, bind_ret, IH, <- app_assoc; [done|by eapply cgroup_path_cases|by split_and!; try congruence|done]. }
  rewrite bind_ret, raise_if_pass; [done|]. apply orb_false_iff. split; [by apply Nat.ltb_ge|].
  by apply negb_false_iff, no_dup_true.
Qed.

Lemma parse_transports_back cg ns parent ws allow :
  ws ≠ [] → slen (transport_text ws) <= 8192 →
  cgroup_path cg = Ok parent → fullmatch cgroup_ns_re ns = true → (length ws <= 4)%nat → NoDup (wk_pid <$> ws) →
  Forall (λ w, signalable parent ns w ∧ bounded_row w) ws →
  parse_transports (transport_text ws) cg ns allow = Ok ws.
Proof.
  intros Hne Hlen Hcg Hns Hl Hnd Hf. unfold parse_transports, gate_if.
  assert (Forall (signalable parent ns) ws) as Hs by (eapply Forall_impl; [exact Hf|]; by intros ? []).
  rewrite raise_if_pass by lia.
  assert (splitlines (transport_text ws) = (join "|" ∘ transport_row) <$> ws) as ->.
  { apply splitlines_join. eapply rows_lines; [|by intros; do 3 eexists|exact Hs]. intros w Hw. by eapply row_printable. }
  rewrite raise_if_pass; [|rewrite bool_decide_false; [done|by destruct ws]].
  assert (split_on "|" <$> ((join "|" ∘ transport_row) <$> ws) = transport_row <$> ws) as ->.
  { rewrite <- list_fmap_compose. apply Forall_fmap_ext. eapply Forall_impl; [exact Hs|]. intros w Hw.
    cbn [compose]. apply split_on_join; [done|by eapply row_free]. }
  rewrite raise_if_pass; cycle 1.
  { apply not_true_iff_false. intros (x & Hx & Hc)%existsb_exists.
    apply list_elem_of_In, list_elem_of_fmap in Hx as (w & -> & _). discriminate Hc. }
  assert (∀ us, Forall (λ w, signalable parent ns w ∧ bounded_row w) us →
    ∃ xs, mapR (λ row, _ ← mount_unsigned (nth 0 row EmptyString) U32 true;
                       mount_unsigned (nth 1 row EmptyString) U64 true) (transport_row <$> us) = Ok xs) as Hnum.
  { induction 1 as [|w us [(Hp & Ht & _) [Hb1 Hb2]] _ [xs IH]]; [by exists []|].
    rewrite fmap_cons. cbn [mapR nth transport_row].
    rewrite (mount_unsigned_dec (wk_pid w)), bind_ret, (mount_unsigned_dec (wk_start_ticks w)), bind_ret
      by (done || lia). rewrite IH. by eexists. }
  destruct (Hnum ws Hf) as [xs ->]. rewrite bind_ret, <- list_fmap_compose.
  change ((λ row : list string, join "|" [nth 0 row EmptyString; nth 1 row EmptyString; nth 3 row EmptyString;
    nth 4 row EmptyString]) ∘ transport_row) with (join "|" ∘ worker_row).
  rewrite (parse_workers_back cg ns parent ws), bind_ret, raise_if_pass; try done.
  apply not_true_iff_false. intros (w & Hw & Hc)%existsb_exists. apply list_elem_of_In in Hw.
  rewrite Forall_forall in Hs. destruct (Hs w Hw) as (_ & _ & _ & _ & En & _).
  by rewrite En, String.eqb_refl in Hc.
Qed.

Lemma transport_line_row w : bounded_row w → 1 < wk_pid w → 0 < wk_start_ticks w →
  transport_line w = Ok (join "|" (transport_row w)).
Proof.
  intros [Hb1 Hb2] Hp Ht. unfold transport_line, int_text.
  assert (∀ n, 0 <= n <= U64 → (4300 <? slen (dec_of_Z (Z.abs n))) = false) as Hd.
  { intros n Hn. rewrite Z.abs_eq by lia.
    pose proof (dec_of_Z_len n 20 ltac:(unfold U64 in *; lia) ltac:(lia)). lia. }
  rewrite !Hd, !bind_ret by (unfold U32, U64 in *; lia). done.
Qed.

Lemma transport_identity_value w : transport_identity (transport_value w) = Ok w.
Proof. by destruct w. Qed.

(** The signals and the tests before them, as the code writes them. *)
Definition signal_script (ws : list worker) (force : bool) : string :=
  join "; " (["set -eu"] ++ concat (transport_checks <$> ws) ++ (transport_kill force <$> ws)).
(** Text with no character that ends a quotation or starts an expansion. *)
Definition shell_inert (s : string) : bool := sall (λ c, path_char c || ns_char c) s.

(** ** What the script does *)
(** The six questions about a process, and the answers that the process observed
    gives: its name, start, command line, user, control group and namespace. *)
Definition identity (w : worker) : list (string * string) :=
  let proc := "/proc/" +:+ dec_of_Z (wk_pid w) in
  [("cat " +:+ proc +:+ "/comm", "buildctl");
   ("sed 's/.*) //' " +:+ proc +:+ "/stat | awk '{print $20}'", dec_of_Z (wk_start_ticks w));
   ("tr '\000' ' ' < " +:+ proc +:+ "/cmdline", "buildctl dial-stdio ");
   (bt "awk '$1==`Uid:` {print $2}' " +:+ proc +:+ "/status", "1000");
   ("cat " +:+ proc +:+ "/cgroup", "0::" +:+ wk_cgroup w);
   ("readlink " +:+ proc +:+ "/ns/cgroup", wk_namespace w)].
Definition still (m : machine) (w : worker) : bool := forallb (λ qa, String.eqb (mc_output m qa.1) qa.2) (identity w).

(** One signal per process, in order, until one fails *)
Definition signal_arguments (force : bool) (w : worker) : string := (if force then "-KILL " else "-TERM ") +:+ dec_of_Z (wk_pid w).
Fixpoint signals (m : machine) (force : bool) (ws : list worker) : list string * Z :=
  match ws with
  | [] => ([], 0)
  | w :: ws =>
      let arguments := signal_arguments force w in
      let status := mc_kill m arguments in
      let '(sent, final) := if status =? 0 then signals m force ws else ([], status) in
      (arguments :: sent, final)
  end.

Definition reads (s : string) (c : command) : Prop := free_of ";" s = true ∧ lstrip_c (is_one " ") s = s ∧ parse_command s = Some c.

Lemma free_dec c n a b : is_digit c = false → 0 <= n → free_of c a = true → free_of c b = true → free_of c (a +:+ dec_of_Z n +:+ b) = true.
Proof. intros Hc Hn Ha Hb. unfold free_of in *. rewrite !sall_app, Ha, Hb. by rewrite (dec_free c n Hc Hn : sall _ _ = true). Qed.

Lemma cut_stat rest s :
  cut (bt ")` = ") (rest +:+ bt ")` = " +:+ s) = Some (rest, s) →
  cut (bt ")` = ") (("sed 's/.*) //' " +:+ rest) +:+ bt ")` = " +:+ s) = Some ("sed 's/.*) //' " +:+ rest, s).
Proof. intros H. cbn in *. by rewrite H. Qed.

Lemma word_rest w s : free_of " " w = true → cut " ] || exit " (w +:+ " ] || exit " +:+ s) = Some (w, s).
Proof. intros H. by apply (cut_free " " "] || exit "). Qed.

Lemma reads_expect text query word expected :
  text = expect_text query word →
  (∀ s, cut (bt ")` = ") (query +:+ bt ")` = " +:+ s) = Some (query, s)) →
  (∀ s, cut " ] || exit " (word +:+ " ] || exit " +:+ s) = Some (word, s)) → literal word = Some expected →
  free_of ";" query = true → free_of ";" word = true → reads text (Expect query expected 91).
Proof.
  intros -> Hq Hw Hl Fq Fw. split_and!; [|done|by apply parse_expect_text].
  unfold expect_text, free_of in *. rewrite !sall_app. by rewrite Fq, Fw.
Qed.

Lemma free_app c a b : free_of c a = true → free_of c b = true → free_of c (a +:+ b) = true.
Proof. unfold free_of. intros Ha Hb. by rewrite sall_app, Ha, Hb. Qed.

Lemma quoted_word s : sall inert s = true → free_of " " s = true → free_of ";" s = true →
  (∀ t, cut " ] || exit " (String QUOTE (s +:+ String QUOTE "") +:+ " ] || exit " +:+ t) = Some (String QUOTE (s +:+ String QUOTE ""), t)) ∧
  literal (String QUOTE (s +:+ String QUOTE "")) = Some s ∧ free_of ";" (String QUOTE (s +:+ String QUOTE "")) = true.
Proof.
  intros Hi Hs Hf. split_and!; [intros t; apply word_rest; by apply (free_app _ (String QUOTE "")), free_app|by apply literal_quoted|].
  by apply (free_app _ (String QUOTE "")), free_app.
Qed.

Ltac same_text := unfold expect_text; cbn; rewrite <- ?app_assoc_str; reflexivity.

Lemma checks_read parent ns w :
  signalable parent ns w → Forall2 reads (transport_checks w) ((λ qa, Expect qa.1 qa.2 91) <$> identity w).
Proof.
  intros (Hp & Ht & (_ & Hc & _) & _ & En & Hns). apply cgroup_ns_chars in Hns as [Hns _]. rewrite <- En in Hns. clear En.
  assert (∀ c, is_digit c = false → free_of c "/proc/" = true → free_of c ("/proc/" +:+ dec_of_Z (wk_pid w)) = true) as Hf.
  { intros c Hd Hf. apply free_app; [done|]. apply dec_free; [done|lia]. }
  pose proof (Hf ";"%char eq_refl eq_refl) as F1. pose proof (Hf ")"%char eq_refl eq_refl) as F2. clear Hf.
  assert (sall inert ("0::" +:+ wk_cgroup w) = true ∧ free_of " " ("0::" +:+ wk_cgroup w) = true ∧ free_of ";" ("0::" +:+ wk_cgroup w) = true)
    as (C1 & C2 & C3).
  { split_and!; [|by apply free_app, path_free..]. rewrite sall_app. cbn [andb]. eapply sall_impl; [|exact Hc].
    intros c. by destruct c as [[] [] [] [] [] [] [] []]. }
  assert (sall inert (wk_namespace w) = true ∧ free_of " " (wk_namespace w) = true ∧ free_of ";" (wk_namespace w) = true) as (N1 & N2 & N3).
  { split_and!; (eapply sall_impl; [|exact Hns]); intros c; by destruct c as [[] [] [] [] [] [] [] []]. }
  destruct (quoted_word _ C1 C2 C3) as (C4 & C5 & C6). destruct (quoted_word _ N1 N2 N3) as (N4 & N5 & N6).
  assert (sall is_alnum (dec_of_Z (wk_start_ticks w)) = true ∧ dec_of_Z (wk_start_ticks w) ≠ "") as [T1 T2].
  { destruct (canonical_dec_digits _ (dec_of_Z_canonical (wk_start_ticks w) ltac:(lia))) as [Hd Hn]. split; [|done].
    eapply sall_impl; [|exact Hd]. intros c. unfold is_alnum. intros ->. by rewrite ?orb_true_r. }
  assert (∀ c, is_digit c = false → free_of c (dec_of_Z (wk_start_ticks w)) = true) as T3 by (intros c Hd; apply dec_free; [done|lia]).
  unfold transport_checks, identity. cbn [fmap list_fmap fst snd]. set (P := "/proc/" +:+ dec_of_Z (wk_pid w)) in *. clearbody P.
  set (T := dec_of_Z (wk_start_ticks w)) in *. clearbody T.
  repeat (apply Forall2_cons; split); [..|done].
  - apply (reads_expect _ _ "buildctl"); [same_text|apply (cut_free ")" (bt "` = ")); by repeat apply free_app|by intros s; apply (word_rest "buildctl")|done|by repeat apply free_app|done].
  - apply (reads_expect _ _ T); [same_text| |by intros s; apply (word_rest T); apply T3|by apply literal_alnum|by repeat apply free_app|by apply T3].
    intros s. apply cut_stat, (cut_free ")" (bt "` = ")). by repeat apply free_app.
  - apply (reads_expect _ _ "'buildctl dial-stdio '"); [same_text|apply (cut_free ")" (bt "` = ")); by repeat apply free_app|by intros [|c s]|done|by repeat apply free_app|done].
  - apply (reads_expect _ _ "1000"); [same_text|apply (cut_free ")" (bt "` = ")); by repeat apply free_app|by intros s; apply (word_rest "1000")|done|by repeat apply free_app|done].
  - apply (reads_expect _ _ (String QUOTE (("0::" +:+ wk_cgroup w) +:+ String QUOTE ""))); [same_text|apply (cut_free ")" (bt "` = ")); by repeat apply free_app|done|done|by repeat apply free_app|done].
  - apply (reads_expect _ _ (String QUOTE (wk_namespace w +:+ String QUOTE ""))); [same_text|apply (cut_free ")" (bt "` = ")); by repeat apply free_app|done|done|by repeat apply free_app|done].
Qed.

Lemma signal_read parent ns w force : signalable parent ns w → reads (transport_kill force w) (Signal (signal_arguments force w)).
Proof.
  intros (Hp & _). assert (∀ c, is_digit c = false → free_of c (dec_of_Z (wk_pid w)) = true) as Hd by (intros c Hc; apply dec_free; [done|lia]).
  assert (sall (λ a, is_alnum a || is_any [" "; "-"]%char a) (dec_of_Z (wk_pid w)) = true) as Ha.
  { destruct (canonical_dec_digits _ (dec_of_Z_canonical (wk_pid w) ltac:(lia))) as [Hc _]. eapply sall_impl; [|exact Hc].
    intros c. unfold is_alnum. intros ->. by rewrite ?orb_true_r. }
  assert (transport_kill force w = "kill " +:+ signal_arguments force w) as -> by (by destruct force).
  assert (free_of ";" (signal_arguments force w) = true) as Hf by (destruct force; apply free_app; [done|by apply Hd|done|by apply Hd]).
  split_and!; [by apply (free_app _ "kill ")|done|]. apply parse_signal. unfold signal_arguments. rewrite sall_app, Ha. by destruct force.
Qed.

Lemma execute_signals m force ws :
  execute m true 0 ((λ w, Signal (signal_arguments force w)) <$> ws) = signals m force ws.
Proof.
  induction ws as [|w ws IH]; [done|]. cbn [fmap list_fmap execute signals andb]. destruct (Z.eqb_spec (mc_kill m (signal_arguments force w)) 0) as [->|];
    cbn [negb]; by rewrite ?IH.
Qed.

(** Whoever is not the process observed stops the script before any signal. *)
Lemma script_runs m parent ns force ws :
  Forall (signalable parent ns) ws →
  run_script m (signal_script ws force) = Some (if forallb (still m) ws then signals m force ws else ([], 91)).
Proof.
  intros Hf. unfold run_script, signal_script.
  rewrite (parse_joined _ (ErrExit :: ((λ qa, Expect qa.1 qa.2 91) <$> concat (identity <$> ws)) ++ ((λ w, Signal (signal_arguments force w)) <$> ws))).
  - cbn [fmap option_fmap option_map execute]. f_equal. rewrite execute_expects.
    assert (forallb (λ qa, String.eqb (mc_output m qa.1) qa.2) (concat (identity <$> ws)) = forallb (still m) ws) as ->.
    { clear Hf. induction ws as [|w ws IH]; [done|]. cbn [fmap list_fmap concat forallb]. by rewrite forallb_app, IH. }
    destruct (forallb (still m) ws); [|done]. case_bool_decide; apply execute_signals.
  - done.
  - apply Forall2_cons. split; [done|]. apply Forall2_app.
    + induction Hf as [|w ws Hw _ IH]; [constructor|]. cbn [fmap list_fmap concat]. rewrite fmap_app. apply Forall2_app; [by eapply checks_read|exact IH].
    + apply Forall2_fmap_l, Forall2_fmap_r, Forall_Forall2_diag. eapply Forall_impl; [exact Hf|]. intros w Hw. by eapply signal_read.
Qed.

(** C35. A signal goes only to a process proved to be a transport.  Whatever
    rows are given, if [cancel_transport_script] returns a script then the rows
    are a non-empty list of at most four identities of the exact shape, with
    distinct process ids above 1, positive start ticks, one control-group
    namespace, and control groups at or below the first row's; every text put
    into the script is free of shell syntax; and on every machine the script
    asks of each row, in this order, the six questions of [identity], namely what
    [/proc] says of the name, the start ticks, the command line, the user, the
    control group and the namespace of its process: if any answer is not that of
    the process observed, it sends no signal and ends with status 91, and
    otherwise it sends one TERM, or KILL when forced, to each process, in the
    order of the rows, until one fails. *)
Theorem cancel_script_confined (rows : value) (force : bool) (script : string) :
  cancel_transport_script rows force = Ok script →
  ∃ items first ws, rows = VList items ∧ mapR transport_identity items = Ok (first :: ws) ∧
    (length (first :: ws) <= 4)%nat ∧ NoDup (wk_pid <$> first :: ws) ∧
    Forall (λ w, 1 < wk_pid w ∧ 0 < wk_start_ticks w ∧ below (wk_cgroup first) (wk_cgroup w) ∧
                 wk_namespace w = wk_namespace first ∧
                 shell_inert (wk_cgroup w) = true ∧ shell_inert (wk_namespace w) = true) (first :: ws) ∧
    ∀ m, run_script m script = Some (if forallb (still m) (first :: ws) then signals m force (first :: ws) else ([], 91)).
Proof.
  unfold cancel_transport_script, gate_if. destruct rows as [| | | | | |[|item items]| |]; try discriminate.
  intros H. ok_inv H. destruct a as [|first ws]; [by apply raise_Ok in H|]. ok_inv H. bool_inv.
  match goal with F : py_eq (VList _) _ = true |- _ => pose proof (transport_values_eq _ _ _ F Hok) as -> end.
  apply parse_transports_signalable in Hok1 as (parent & Hpar & Hl & Hnd & Hf).
  exists (item :: items), first, ws. split_and!; [done|done|done|done| |].
  2: { intros m. apply (script_runs m parent (wk_namespace first) force (first :: ws) Hf). }
  assert (normal_path (wk_cgroup first)) as Hn by (apply Forall_cons in Hf as [(_ & _ & ? & _) _]; done).
  rewrite cgroup_path_normal in Hpar by done. injection Hpar as <-.
  eapply Forall_impl; [exact Hf|]. intros w (H1 & H2 & (_ & Hc & _) & Hb & En & Hns).
  apply cgroup_ns_chars in Hns as [Hns _]. split_and!; [done..| |].
  - revert Hc. apply sall_impl. intros c. by intros ->.
  - rewrite En. revert Hns. apply sall_impl. intros c ->. apply orb_true_r.
Qed.

(** Every observed transport can be signalled.  For any non-empty list of
    at most four transports with distinct ids in range, normal control groups
    at or below the first one's and one well-formed namespace, whose text fits
    the observer's limit, [cancel_transport_script] succeeds on the rows
    [parse_transports] makes of them, so reading back its own rendering loses
    and changes nothing. *)
Theorem cancel_script_complete (first : worker) (ws : list worker) (force : bool) :
  (length (first :: ws) <= 4)%nat → NoDup (wk_pid <$> first :: ws) →
  Forall (λ w, signalable (wk_cgroup first) (wk_namespace first) w ∧ bounded_row w) (first :: ws) →
  slen (transport_text (first :: ws)) <= 8192 →
  parse_transports (transport_text (first :: ws)) ("0::" +:+ wk_cgroup first) (wk_namespace first) false
    = Ok (first :: ws) ∧
  cancel_transport_script (VList (transport_value <$> first :: ws)) force = Ok (signal_script (first :: ws) force).
Proof.
  intros Hl Hnd Hf Hlen. pose proof Hf as [[Hs _] _]%Forall_cons. pose proof Hs as (_ & _ & Hn & _ & _ & Hns).
  assert (parse_transports (transport_text (first :: ws)) ("0::" +:+ wk_cgroup first) (wk_namespace first) false
    = Ok (first :: ws)) as Hback.
  { by apply (parse_transports_back _ _ (wk_cgroup first)); [|apply Hlen|apply cgroup_path_normal| | | |]. }
  split; [done|]. unfold cancel_transport_script, gate_if.
  assert (mapR transport_identity (transport_value <$> first :: ws) = Ok (first :: ws)) as Hid.
  { apply mapR_Ok, Forall2_fmap_l, Forall_Forall2_diag, Forall_forall. intros w _. apply transport_identity_value. }
  assert (mapR transport_line (first :: ws) = Ok ((join "|" ∘ transport_row) <$> first :: ws)) as Hlines.
  { apply mapR_Ok, Forall2_fmap_r, Forall_Forall2_diag. eapply Forall_impl; [exact Hf|].
    intros w [(? & ? & _) ?]. by apply transport_line_row. }
  rewrite fmap_cons in *. rewrite Hid, bind_ret, Hlines, bind_ret. unfold transport_text in Hback. rewrite Hback, bind_ret.
  rewrite raise_if_pass; [done|]. apply negb_false_iff, (transport_values_refl (first :: ws)).
Qed.

(** ** Witnesses *)
Definition sample_daemon : daemon_identity := Daemon 42 987654321 4026532000.
Definition sample_raws : list ((string * string) * raw_row) :=
  (λ k : string * string, (k, RawRow 4096 (default 0 (dlookup k.2 CAPACITIES) / 4096) 100 5000 4990)) <$> capacity_keys.
Definition sample_capacity : string := unlines (reverse (render_cap <$> cap_items sample_daemon sample_raws)).
Theorem parse_capacity_exact_witness :
  parse_capacity sample_capacity sample_daemon = Ok (with_report <$> sample_raws) ∧ wf_identity sample_daemon.
Proof.
  assert (parse_capacity sample_capacity sample_daemon = Ok (with_report <$> sample_raws)) as H by (vm_compute; reflexivity).
  split; [exact H|].
  exact (proj1 (proj2 (proj1 (parse_capacity_exact sample_capacity sample_daemon (with_report <$> sample_raws)) H))).
Defined.

Definition sample_transports : list worker :=
  [Worker 31 5000 "/kairos" "cgroup:[4026531835]"; Worker 32 5001 "/kairos/exec" "cgroup:[4026531835]"].
(** The machine on which both are still there, and the one on which the second has another start *)
Definition sample_machine (ticks : string) : machine :=
  Machine (λ query, match filter (λ qa, qa.1 = query) (concat (identity <$> sample_transports)) with
                    | (_, answer) :: _ => if String.eqb answer "5001" then ticks else answer
                    | [] => ""
                    end) (λ _, 0).
Theorem cancel_script_confined_witness :
  let script := signal_script sample_transports false in
  run_script (sample_machine "5001") script = Some (["-TERM 31"; "-TERM 32"], 0) ∧
  run_script (sample_machine "6001") script = Some ([], 91) ∧
  ∃ items first ws, VList (transport_value <$> sample_transports) = VList items ∧
    mapR transport_identity items = Ok (first :: ws) ∧
    run_script (sample_machine "6001") script =
      Some (if forallb (still (sample_machine "6001")) (first :: ws) then signals (sample_machine "6001") false (first :: ws) else ([], 91)).
Proof.
  assert (cancel_transport_script (VList (transport_value <$> sample_transports)) false
    = Ok (signal_script sample_transports false)) as H by (vm_compute; reflexivity).
  cbv zeta. split; [vm_compute; reflexivity|]. split; [vm_compute; reflexivity|].
  destruct (cancel_script_confined _ _ _ H) as (items & first & ws & H1 & H2 & _ & _ & _ & H3).
  exists items, first, ws. split; [exact H1|]. split; [exact H2|exact (H3 (sample_machine "6001"))].
Defined.

Lemma sample_signalable :
  Forall (λ w, signalable "/kairos" "cgroup:[4026531835]" w ∧ bounded_row w) sample_transports.
Proof.
  repeat (apply Forall_cons; split); [| |done]; (split; [split_and!|by_decide]); try done; try by_decide.
  - split_and!; [by exists "kairos"|done|by_decide|by right].
  - split; [by_decide|right; by exists []].
  - split_and!; [by exists "kairos/exec"|done|by_decide|by right].
  - split; [by_decide|right; by exists ["exec"]].
Qed.

Theorem cancel_script_complete_witness :
  cancel_transport_script (VList (transport_value <$> sample_transports)) true = Ok (signal_script sample_transports true).
Proof.
  apply (cancel_script_complete (Worker 31 5000 "/kairos" "cgroup:[4026531835]")
           [Worker 32 5001 "/kairos/exec" "cgroup:[4026531835]"] true).
  - vm_compute. lia.
  - by_decide.
  - exact sample_signalable.
  - vm_compute. discriminate.
Defined.
