(* ===== verification/CanaryAcceptance.v ===== *)
(** * Acceptance of the technical canary ([scripts/paper_canary_acceptance.py])

    [evaluate_evidence] reads one snapshot of durable evidence and reports PASS,
    PENDING or FAIL.  Reading it is a parser into records ([parse_evidence],
    the [try] block of the source); the evaluation proper is a fold over the
    trades.  Frozen sets and sets of text are finite sets. *)

From stdpp Require Import gmap strings.
From S2P Require Import Prelude PyStr Regex PyVal Json.

Local Open Scope string_scope.
Local Open Scope list_scope.
Local Open Scope Z_scope.
Local Open Scope regex_scope.

(** ** Constants *)
Definition EVIDENCE_SCHEMA_VERSION : Z := 1.
Definition REPORT_SCHEMA_VERSION : Z := 1.
Definition GATE_NAME : string := "EVEDEX_DEV_TECHNICAL_CANARY_ACCEPTANCE".
Definition CANARY_STRATEGY : string := "technical-canary".
Definition CANARY_REVISION : string := "1".
Definition EXPECTED_SYMBOLS : list string := ["BTCUSDT"; "ETHUSDT"; "SOLUSDT"; "BNBUSDT"; "XRPUSDT"].
Definition EXPECTED_VENUE_SYMBOLS : list (string * string) :=
  [("BTCUSDT", "BTCUSD:DEV"); ("ETHUSDT", "ETHUSD:DEV"); ("SOLUSDT", "SOLUSD:DEV"); ("BNBUSDT", "BNBUSD:DEV");
   ("XRPUSDT", "XRPUSD:DEV")].
Definition EXPECTED_ENVIRONMENTS : list string := ["paper:EVEDEX:DEV:PAPER"; "paper-dev:EVEDEX:DEV:PAPER"].
Definition TERMINAL_STATES : list string := ["FLAT"; "CANCELLED"].
Definition REQUIRED_PROTECTION_EVENTS : gset string :=
  list_to_set ["STOP_CREATED"; "STOP_RECONCILED"; "TARGET_CREATED"; "TARGET_RECONCILED"].
Definition REQUIRED_EXIT_REASONS : gset string := list_to_set ["STOP"; "TARGET"; "TIMEOUT"].
Definition FILL_EVENTS : gset string := list_to_set ["ENTRY_FILLED"; "ENTRY_PARTIAL_FILL"].
Definition FORBIDDEN_PUBLIC_EVENTS : gset string := list_to_set ["FAILED"; "RECOVERY_BLOCKED"; "EMERGENCY_CLOSE"].

Definition lower_alnum (c : ascii) : bool := is_lower c || is_digit c.
(** [[a-z0-9](?:[a-z0-9-]{0,46}[a-z0-9])?] *)
Definition namespace_re : regex :=
  RChar lower_alnum ⋅ ROpt (RRange 0 46 (RChar (λ c, lower_alnum c || is_one "-" c)) ⋅ RChar lower_alnum).
Definition ACCOUNT_PATTERN : regex := RLit "kairos-paper-dev-" ⋅ namespace_re.
Definition COMPOSE_PROJECT_PATTERN : regex := RLit "kairos-paper" ⋅ ROpt (RLit "-" ⋅ namespace_re).
Definition DATABASE_IDENTIFIER_PATTERN : regex :=
  RChar (λ c, is_lower c || is_one "_" c) ⋅ RRange 0 62 (RChar (λ c, lower_alnum c || is_one "_" c)).

(** ** Readers *)
Definition schema_error {A} : result A := raise EvidenceSchemaError "unsupported evidence".

Definition _exact_keys (d : dict) (expected : list string) : result unit :=
  raise_if (negb (keys_are d expected)) EvidenceSchemaError "unsupported evidence".
Definition _mapping (v : value) : result dict := match v with VDict d => Ok d | _ => schema_error end.
Definition _list (v : value) : result (list value) := match v with VList l => Ok l | _ => schema_error end.
Definition _text (v : value) : result string :=
  match v with VStr s => if String.eqb s EmptyString then schema_error else Ok s | _ => schema_error end.
Definition _boolean (v : value) : result bool := match v with VBool b => Ok b | _ => schema_error end.
Definition _integer (v : value) : result Z :=
  match v with VInt z => if z <? 0 then schema_error else Ok z | _ => schema_error end.
Definition _finite_nonnegative (v : value) : result flt :=
  f ← match v with VInt z => float_of_int z | VFloat f => Ok f | _ => schema_error end;
  if negb (float_isfinite f) || fltb f (fz 0) then schema_error else Ok f.
Definition _text_set (v : value) : result (gset string) :=
  items ← _list v;
  texts ← mapR _text items;
  if no_dup texts then Ok (list_to_set texts) else schema_error.

(** ** The report *)
(** [sorted(set(l))] *)
Definition sorted_set (l : list string) : list string := sort_str (elements (list_to_set l : gset string)).
Definition strs (l : list string) : value := VList (VStr <$> l).

Definition _base_report (status : string) (pending failures : list string) (coverage counters : dict) : value := VDict [
  ("schema_version", VInt REPORT_SCHEMA_VERSION); ("gate", VStr GATE_NAME); ("status", VStr status);
  ("accepted", VBool (String.eqb status "PASS")); ("strategy", VStr "technical-canary@1");
  ("scope", VDict [("trading_mode", VStr "PAPER"); ("profile", VStr "DEV"); ("exchange", VStr "EVEDEX");
     ("dedicated_account_namespace", VBool true)]);
  ("coverage", VDict coverage); ("counters", VDict counters);
  ("pending_reasons", strs (sorted_set pending)); ("failure_reasons", strs (sorted_set failures));
  ("contains_raw_identifiers", VBool false); ("contains_credentials", VBool false)].

Definition invalid_evidence_report : value :=
  _base_report "FAIL" [] ["EVIDENCE_SCHEMA_INVALID"]
    [("protected_flat_symbols", VList []); ("required_symbols", strs EXPECTED_SYMBOLS); ("exit_reasons", VList []);
     ("marketable_ioc_limit", VBool false); ("entry_cancel", VBool false); ("restart_recovery", VBool false)]
    [("trades", VInt 0); ("real_fill_events", VInt 0); ("duplicate_client_order_ids", VInt 0);
     ("unresolved_effects", VInt 0); ("nonterminal_trades", VInt 0); ("failed_lifecycles", VInt 0)].

Definition collection_failure_report : value :=
  match invalid_evidence_report with
  | VDict d => VDict (dset "failure_reasons" (strs ["READ_ONLY_EVIDENCE_COLLECTION_FAILED"]) d)
  | v => v
  end.

(** ** The evidence *)
Record trade := Trade {
  t_symbol : string; t_venue_symbol : string; t_trading_mode : string; t_profile : string; t_exchange : string;
  t_strategy_id : string; t_strategy_revision : string; t_state : string; t_filled_quantity : flt;
  t_marketable_ioc_limit : bool; t_next_bar_market : bool; t_decision_binding_valid : bool;
  t_event_types : gset string; t_exit_reasons : gset string;
  t_public_event_count : Z; t_expected_public_event_count : Z;
  t_public_sequence_contiguous : bool; t_public_scope_valid : bool; t_protected_sequence_valid : bool;
  t_internal_failure_count : Z; t_cancel_order_effects : Z; t_real_fill_event_count : Z;
}.

Record evidence := Evidence {
  e_environment : string; e_trading_mode : string; e_profile : string; e_exchange : string; e_account_id : string;
  e_present : bool; e_entries_blocked : bool; e_recovery_epoch : Z; e_completed : bool; e_crossed_epoch : bool;
  e_prepared_effects : Z; e_failed_effects : Z; e_duplicate_client_ids : Z; e_foreign_scope_trades : Z;
  e_foreign_scope_effects : Z; e_cancel_order_effects : Z; e_real_fill_events : Z; e_public_failure_events : Z;
  e_trades : list trade;
}.

Definition trade_keys : list string :=
  ["symbol"; "venue_symbol"; "trading_mode"; "profile"; "exchange"; "strategy_id"; "strategy_revision"; "state";
   "filled_quantity"; "marketable_ioc_limit"; "next_bar_market"; "decision_binding_valid"; "event_types";
   "exit_reasons"; "public_event_count"; "expected_public_event_count"; "public_sequence_contiguous";
   "public_scope_valid"; "protected_sequence_valid"; "internal_failure_count"; "cancel_order_effects";
   "real_fill_event_count"].

(** [read(d[key])] *)
Definition field {A} (read : value → result A) (d : dict) (key : string) : result A :=
  v ← py_item key (VDict d); read v.

Definition parse_trade (v : value) : result trade :=
  d ← _mapping v;
  _ ← _exact_keys d trade_keys;
  symbol ← field _text d "symbol";
  venue_symbol ← field _text d "venue_symbol";
  trading_mode ← field _text d "trading_mode";
  profile ← field _text d "profile";
  exchange ← field _text d "exchange";
  strategy_id ← field _text d "strategy_id";
  strategy_revision ← field _text d "strategy_revision";
  state ← field _text d "state";
  filled_quantity ← field _finite_nonnegative d "filled_quantity";
  marketable_ioc_limit ← field _boolean d "marketable_ioc_limit";
  next_bar_market ← field _boolean d "next_bar_market";
  decision_binding_valid ← field _boolean d "decision_binding_valid";
  event_types ← field _text_set d "event_types";
  exit_reasons ← field _text_set d "exit_reasons";
  public_event_count ← field _integer d "public_event_count";
  expected_public_event_count ← field _integer d "expected_public_event_count";
  public_sequence_contiguous ← field _boolean d "public_sequence_contiguous";
  public_scope_valid ← field _boolean d "public_scope_valid";
  protected_sequence_valid ← field _boolean d "protected_sequence_valid";
  internal_failure_count ← field _integer d "internal_failure_count";
  cancel_order_effects ← field _integer d "cancel_order_effects";
  real_fill_event_count ← field _integer d "real_fill_event_count";
  Ok (Trade symbol venue_symbol trading_mode profile exchange strategy_id strategy_revision state filled_quantity
        marketable_ioc_limit next_bar_market decision_binding_valid event_types exit_reasons public_event_count
        expected_public_event_count public_sequence_contiguous public_scope_valid protected_sequence_valid
        internal_failure_count cancel_order_effects real_fill_event_count).

Definition parse_evidence (v : value) : result evidence :=
  root ← _mapping v;
  _ ← _exact_keys root ["schema_version"; "scope"; "recovery"; "integrity"; "trades"];
  version ← py_item "schema_version" (VDict root);
  _ ← raise_if (negb (py_eq version (VInt EVIDENCE_SCHEMA_VERSION))) EvidenceSchemaError "unsupported evidence schema";
  scope ← field _mapping root "scope";
  _ ← _exact_keys scope ["environment"; "trading_mode"; "profile"; "exchange"; "account_id"];
  environment ← field _text scope "environment";
  trading_mode ← field _text scope "trading_mode";
  profile ← field _text scope "profile";
  exchange ← field _text scope "exchange";
  account_id ← field _text scope "account_id";
  recovery ← field _mapping root "recovery";
  _ ← _exact_keys recovery
        ["present"; "entries_blocked"; "recovery_epoch"; "completed"; "protected_trade_crossed_epoch"];
  present ← field _boolean recovery "present";
  entries_blocked ← field _boolean recovery "entries_blocked";
  recovery_epoch ← field _integer recovery "recovery_epoch";
  completed ← field _boolean recovery "completed";
  crossed_epoch ← field _boolean recovery "protected_trade_crossed_epoch";
  integrity ← field _mapping root "integrity";
  _ ← _exact_keys integrity
        ["prepared_effects"; "failed_effects"; "duplicate_client_order_ids"; "foreign_scope_trades";
         "foreign_scope_effects"; "cancel_order_effects"; "real_fill_events"; "public_failure_events"];
  prepared_effects ← field _integer integrity "prepared_effects";
  failed_effects ← field _integer integrity "failed_effects";
  duplicate_client_ids ← field _integer integrity "duplicate_client_order_ids";
  foreign_scope_trades ← field _integer integrity "foreign_scope_trades";
  foreign_scope_effects ← field _integer integrity "foreign_scope_effects";
  cancel_order_effects ← field _integer integrity "cancel_order_effects";
  real_fill_events ← field _integer integrity "real_fill_events";
  public_failure_events ← field _integer integrity "public_failure_events";
  rows ← field _list root "trades";
  trades ← mapR parse_trade rows;
  Ok (Evidence environment trading_mode profile exchange account_id present entries_blocked recovery_epoch completed
        crossed_epoch prepared_effects failed_effects duplicate_client_ids foreign_scope_trades foreign_scope_effects
        cancel_order_effects real_fill_events public_failure_events trades).

(** ** The evaluation *)
(** [s.casefold() == "evedex"]: no character outside ASCII folds to a letter of it. *)
Definition is_evedex (s : string) : bool := String.eqb (blower s) "evedex".

Definition scope_failures (e : evidence) : list string :=
  (if negb (bool_decide (e_environment e ∈ EXPECTED_ENVIRONMENTS)) || negb (String.eqb (e_trading_mode e) "PAPER")
      || negb (String.eqb (e_profile e) "DEV") || negb (is_evedex (e_exchange e))
      || negb (fullmatch ACCOUNT_PATTERN (e_account_id e))
   then ["SCOPE_IS_NOT_DEDICATED_EVEDEX_DEV_PAPER"] else [])
  ++ (if negb (e_present e) then ["RECOVERY_BARRIER_MISSING"]
      else if e_entries_blocked e || negb (e_completed e) then ["RECOVERY_BARRIER_NOT_CLEAN"] else []).

Definition restart_recovery (e : evidence) : bool :=
  e_present e && e_completed e && negb (e_entries_blocked e) && (2 <=? e_recovery_epoch e) && e_crossed_epoch e.

Definition unresolved_effects (e : evidence) : Z := e_prepared_effects e + e_failed_effects e.

Definition integrity_failures (e : evidence) : list string :=
  (if negb (unresolved_effects e =? 0) then ["UNRESOLVED_PREPARED_OR_FAILED_EFFECTS"] else [])
  ++ (if negb (e_duplicate_client_ids e =? 0) then ["DUPLICATE_CLIENT_ORDER_IDS"] else [])
  ++ (if negb (e_foreign_scope_trades e =? 0) || negb (e_foreign_scope_effects e =? 0)
      then ["DEDICATED_ACCOUNT_HAS_FOREIGN_SCOPE_FACTS"] else [])
  ++ (if negb (e_public_failure_events e =? 0) then ["FAILED_OR_EMERGENCY_PUBLIC_LIFECYCLE_FACTS"] else []).

Definition outside_lineage (t : trade) : bool :=
  negb (bool_decide (t_symbol t ∈ EXPECTED_VENUE_SYMBOLS.*1))
  || negb (bool_decide (dlookup (t_symbol t) EXPECTED_VENUE_SYMBOLS = Some (t_venue_symbol t)))
  || negb (String.eqb (t_trading_mode t) "PAPER") || negb (String.eqb (t_profile t) "DEV")
  || negb (is_evedex (t_exchange t)) || negb (String.eqb (t_strategy_id t) CANARY_STRATEGY)
  || negb (String.eqb (t_strategy_revision t) CANARY_REVISION) || negb (t_decision_binding_valid t).

Definition nonterminal (t : trade) : bool := negb (bool_decide (t_state t ∈ TERMINAL_STATES)).

Definition failed_lifecycle (t : trade) : bool :=
  String.eqb (t_state t) "FAILED_BLOCKED" || negb (t_internal_failure_count t =? 0)
  || bool_decide (t_event_types t ∩ FORBIDDEN_PUBLIC_EVENTS ≠ ∅).

Definition facts_broken (t : trade) : bool :=
  negb (t_public_event_count t =? t_expected_public_event_count t) || negb (t_public_sequence_contiguous t)
  || negb (t_public_scope_valid t).

Definition has_fill (t : trade) : bool := fltb (fz 0) (t_filled_quantity t) || (0 <? t_real_fill_event_count t).

Definition required_exits (t : trade) : gset string := t_exit_reasons t ∩ REQUIRED_EXIT_REASONS.

Definition protected_flat (t : trade) : bool :=
  String.eqb (t_state t) "FLAT" && has_fill t && bool_decide (t_event_types t ∩ FILL_EVENTS ≠ ∅)
  && bool_decide ("DECISION_RECEIVED" ∈ t_event_types t)
  && bool_decide (REQUIRED_PROTECTION_EVENTS ⊆ t_event_types t)
  && bool_decide ("EXIT_TRIGGERED" ∈ t_event_types t) && bool_decide ("EXIT_FILLED" ∈ t_event_types t)
  && (bool_decide (t_exit_reasons t = required_exits t) && Nat.eqb (size (required_exits t)) 1)
  && t_protected_sequence_valid t.

(** The variables of the loop. *)
Record tally := Tally {
  ty_failures : list string;
  ty_protected_symbols : gset string;
  ty_exit_reasons : gset string;
  ty_nonterminal : Z;
  ty_failed : Z;
  ty_real_fills : Z;
  ty_cancels : Z;
  ty_ioc : bool;
}.

Definition trade_failures (t : trade) : list string :=
  (if outside_lineage t then ["TRADE_LINEAGE_OUTSIDE_TECHNICAL_CANARY_V1"] else [])
  ++ (if facts_broken t then ["PUBLIC_LIFECYCLE_FACTS_ARE_NOT_ATOMIC_AND_CONTIGUOUS"] else [])
  ++ (if has_fill t && negb (protected_flat t) then ["FILLED_TRADE_LACKS_PROTECTED_FLAT_ROUND_TRIP"] else []).

Definition tally_trade (s : tally) (t : trade) : tally :=
  Tally (ty_failures s ++ trade_failures t)
    (if protected_flat t then ty_protected_symbols s ∪ {[t_symbol t]} else ty_protected_symbols s)
    (if protected_flat t then ty_exit_reasons s ∪ required_exits t else ty_exit_reasons s)
    (if nonterminal t then ty_nonterminal s + 1 else ty_nonterminal s)
    (if failed_lifecycle t then ty_failed s + 1 else ty_failed s)
    (ty_real_fills s + t_real_fill_event_count t)
    (ty_cancels s + t_cancel_order_effects t)
    (ty_ioc s && t_marketable_ioc_limit t && t_next_bar_market t).

Definition tally_of (e : evidence) : tally :=
  foldl tally_trade (Tally (scope_failures e ++ integrity_failures e) ∅ ∅ 0 0 0 0 (negb (bool_decide (e_trades e = []))))
    (e_trades e).

Definition aggregate_failures (e : evidence) (s : tally) : list string :=
  (if negb (ty_real_fills s =? e_real_fill_events e) then ["REAL_FILL_EVENT_AGGREGATE_MISMATCH"] else [])
  ++ (if negb (ty_cancels s =? e_cancel_order_effects e) then ["CANCEL_EFFECT_AGGREGATE_MISMATCH"] else [])
  ++ (if negb (ty_nonterminal s =? 0) then ["NONTERMINAL_TRADE_LIFECYCLES"] else [])
  ++ (if negb (ty_failed s =? 0) then ["FAILED_TRADE_LIFECYCLES"] else []).

Definition missing_symbols (s : tally) : list string :=
  sort_str (elements ((list_to_set EXPECTED_SYMBOLS : gset string) ∖ ty_protected_symbols s)).
Definition missing_exits (s : tally) : list string := sort_str (elements (REQUIRED_EXIT_REASONS ∖ ty_exit_reasons s)).

Definition pending_reasons (e : evidence) (s : tally) : list string :=
  (if negb (restart_recovery e) then ["RESTART_RECOVERY_NOT_YET_PROVEN"] else [])
  ++ (if negb (bool_decide (missing_symbols s = [])) then ["PROTECTED_FLAT_ROUND_TRIPS_MISSING"] else [])
  ++ (if negb (bool_decide (missing_exits s = [])) then ["STOP_TARGET_TIMEOUT_COVERAGE_INCOMPLETE"] else [])
  ++ (if negb (ty_ioc s) then ["MARKETABLE_IOC_LIMIT_COVERAGE_INCOMPLETE"] else [])
  ++ (if negb (0 <? e_cancel_order_effects e) then ["ENTRY_CANCEL_COVERAGE_INCOMPLETE"] else [])
  ++ (if e_real_fill_events e <=? 0 then ["REAL_EVEDEX_DEV_FILL_NOT_OBSERVED"] else []).

Definition status_of (failures pending : list string) : string :=
  if negb (bool_decide (failures = [])) then "FAIL" else if negb (bool_decide (pending = [])) then "PENDING" else "PASS".

Definition report_of (e : evidence) : value :=
  let s := tally_of e in
  let failures := ty_failures s ++ aggregate_failures e s in
  let pending := pending_reasons e s in
  _base_report (status_of failures pending) pending failures
    [("protected_flat_symbols", strs (sort_str (elements (ty_protected_symbols s))));
     ("required_symbols", strs EXPECTED_SYMBOLS); ("missing_symbols", strs (missing_symbols s));
     ("exit_reasons", strs (sort_str (elements (ty_exit_reasons s))));
     ("missing_exit_reasons", strs (missing_exits s)); ("marketable_ioc_limit", VBool (ty_ioc s));
     ("entry_cancel", VBool (0 <? e_cancel_order_effects e)); ("restart_recovery", VBool (restart_recovery e))]
    [("trades", VInt (Z.of_nat (length (e_trades e)))); ("real_fill_events", VInt (e_real_fill_events e));
     ("duplicate_client_order_ids", VInt (e_duplicate_client_ids e)); ("unresolved_effects", VInt (unresolved_effects e));
     ("nonterminal_trades", VInt (ty_nonterminal s)); ("failed_lifecycles", VInt (ty_failed s))].

(** The exceptions the [try] block catches. *)
Definition schema_exceptions (c : exc_class) : bool :=
  bool_decide (c ∈ [EvidenceSchemaError; KeyError; TypeError; ValueError; JSONDecodeError; UnicodeDecodeError;
                    UnicodeEncodeError]).

Definition evaluate_evidence (v : value) : result value :=
  match parse_evidence v with
  | Ok e => Ok (report_of e)
  | Err x => if schema_exceptions (exc_cls x) then Ok invalid_evidence_report else Err x
  end.

Definition canonical_report_bytes (report : value) : result string :=
  text ← json_dumps (indent_style 2) report; Ok (text +:+ LF).
