(* ===== verification/CanaryAcceptanceSpec.v ===== *)
(** * What acceptance of the canary means ([CanaryAcceptance]) *)

From stdpp Require Import gmap strings.
From S2P Require Import Prelude PyStr Regex PyVal Json CanaryAcceptance.

Local Open Scope string_scope.
Local Open Scope list_scope.
Local Open Scope Z_scope.

(** ** The acceptance criterion, declaratively *)
Definition filled (t : trade) : Prop := fltb (fz 0) (t_filled_quantity t) = true ∨ 0 < t_real_fill_event_count t.

(** Entered, protected by a stop and a target, and closed flat for exactly one required reason. *)
Definition round_trip (t : trade) (reason : string) : Prop :=
  t_state t = "FLAT" ∧ filled t ∧
  ("ENTRY_FILLED" ∈ t_event_types t ∨ "ENTRY_PARTIAL_FILL" ∈ t_event_types t) ∧
  (∀ ev, ev ∈ ["DECISION_RECEIVED"; "STOP_CREATED"; "STOP_RECONCILED"; "TARGET_CREATED"; "TARGET_RECONCILED";
               "EXIT_TRIGGERED"; "EXIT_FILLED"] → ev ∈ t_event_types t) ∧
  t_exit_reasons t = {[reason]} ∧ reason ∈ ["STOP"; "TARGET"; "TIMEOUT"] ∧ t_protected_sequence_valid t = true.

Definition lineage (t : trade) : Prop :=
  (t_symbol t, t_venue_symbol t) ∈ EXPECTED_VENUE_SYMBOLS ∧ t_trading_mode t = "PAPER" ∧ t_profile t = "DEV" ∧
  blower (t_exchange t) = "evedex" ∧ t_strategy_id t = "technical-canary" ∧ t_strategy_revision t = "1" ∧
  t_decision_binding_valid t = true.

Definition trade_accepted (t : trade) : Prop :=
  lineage t ∧
  (t_state t = "FLAT" ∨ t_state t = "CANCELLED") ∧
  t_internal_failure_count t = 0 ∧
  (∀ ev, ev ∈ ["FAILED"; "RECOVERY_BLOCKED"; "EMERGENCY_CLOSE"] → ev ∉ t_event_types t) ∧
  t_public_event_count t = t_expected_public_event_count t ∧
  t_public_sequence_contiguous t = true ∧ t_public_scope_valid t = true ∧
  (filled t → ∃ reason, round_trip t reason) ∧
  t_marketable_ioc_limit t = true ∧ t_next_bar_market t = true.

Definition accepted (e : evidence) : Prop :=
  e_environment e ∈ EXPECTED_ENVIRONMENTS ∧ e_trading_mode e = "PAPER" ∧ e_profile e = "DEV" ∧
  blower (e_exchange e) = "evedex" ∧ matches ACCOUNT_PATTERN (e_account_id e) ∧
  e_present e = true ∧ e_completed e = true ∧ e_entries_blocked e = false ∧ 2 <= e_recovery_epoch e ∧
  e_crossed_epoch e = true ∧
  e_prepared_effects e + e_failed_effects e = 0 ∧ e_duplicate_client_ids e = 0 ∧ e_foreign_scope_trades e = 0 ∧
  e_foreign_scope_effects e = 0 ∧ e_public_failure_events e = 0 ∧
  zsum (t_real_fill_event_count <$> e_trades e) = e_real_fill_events e ∧ 0 < e_real_fill_events e ∧
  zsum (t_cancel_order_effects <$> e_trades e) = e_cancel_order_effects e ∧ 0 < e_cancel_order_effects e ∧
  Forall trade_accepted (e_trades e) ∧
  (∀ symbol, symbol ∈ EXPECTED_SYMBOLS → ∃ t reason, t ∈ e_trades e ∧ t_symbol t = symbol ∧ round_trip t reason) ∧
  (∀ reason, reason ∈ ["STOP"; "TARGET"; "TIMEOUT"] → ∃ t, t ∈ e_trades e ∧ round_trip t reason).

(** ** The tests of the code and the criterion *)
Lemma has_fill_spec t : has_fill t = true ↔ filled t.
Proof. unfold has_fill, filled. by rewrite orb_true_iff, Z.ltb_lt. Qed.

Lemma inter_nonempty (X Y : gset string) : X ∩ Y ≠ ∅ ↔ ∃ x, x ∈ X ∧ x ∈ Y.
Proof.
  split.
  - intros [x Hx]%set_choose_L. exists x. set_solver.
  - intros (x & Hx & Hy) He. assert (x ∈ X ∩ Y) by set_solver. rewrite He in *. set_solver.
Qed.

Lemma single_exit (X : gset string) :
  (X = X ∩ REQUIRED_EXIT_REASONS ∧ size (X ∩ REQUIRED_EXIT_REASONS) = 1%nat) ↔
  ∃ r, X = {[r]} ∧ r ∈ ["STOP"; "TARGET"; "TIMEOUT"].
Proof.
  unfold REQUIRED_EXIT_REASONS. split.
  - intros [He Hs]. apply size_1_elem_of in Hs as [r Hr]. exists r.
    apply leibniz_equiv in Hr. rewrite Hr in He. split; [done|]. assert (r ∈ X) as Hx by (rewrite He; set_solver). set_solver.
  - intros (r & -> & Hr). assert ({[r]} ∩ list_to_set ["STOP"; "TARGET"; "TIMEOUT"] =@{gset string} {[r]}) as -> by set_solver.
    split; [done|]. apply size_singleton.
Qed.

Lemma protected_flat_spec t : protected_flat t = true ↔ ∃ reason, round_trip t reason.
Proof.
  unfold protected_flat, round_trip, required_exits. rewrite !andb_true_iff, !bool_decide_eq_true, has_fill_spec,
    String.eqb_eq, inter_nonempty, Nat.eqb_eq, single_exit. unfold FILL_EVENTS, REQUIRED_PROTECTION_EVENTS. split.
  - intros ((((((((H1 & H2) & (x & Hx & Hf)) & H4) & H5) & H6) & H7) & (r & H8 & H9)) & H10).
    exists r. split_and!; try done.
    { apply elem_of_list_to_set in Hf. rewrite !elem_of_cons, elem_of_nil in Hf. naive_solver. }
    intros ev. rewrite !elem_of_cons, elem_of_nil. intros Hev.
    repeat destruct Hev as [->|Hev]; try done; apply H5, elem_of_list_to_set; by_decide.
  - intros (r & H1 & H2 & H3 & H4 & H5 & H6 & H7).
    assert (∃ x, x ∈ t_event_types t ∧ x ∈@{gset string} list_to_set ["ENTRY_FILLED"; "ENTRY_PARTIAL_FILL"]).
    { destruct H3; eexists; (split; [eassumption|]); apply elem_of_list_to_set; by_decide. }
    split_and!; try done; try (apply H4; by_decide); [|by exists r].
    intros ev Hev%elem_of_list_to_set. apply H4. rewrite !elem_of_cons, elem_of_nil in *. tauto.
Qed.

Lemma venue_lookup s v : dlookup s EXPECTED_VENUE_SYMBOLS = Some v ↔ (s, v) ∈ EXPECTED_VENUE_SYMBOLS.
Proof.
  split; [apply dlookup_elem|]. unfold EXPECTED_VENUE_SYMBOLS. rewrite !elem_of_cons, elem_of_nil.
  intros H. repeat destruct H as [[= -> ->]|H]; done.
Qed.

Lemma outside_lineage_spec t : outside_lineage t = false ↔ lineage t.
Proof.
  unfold outside_lineage, lineage, is_evedex, CANARY_STRATEGY, CANARY_REVISION.
  rewrite !orb_false_iff, !negb_false_iff, !bool_decide_eq_true, !String.eqb_eq, venue_lookup.
  split; [naive_solver|]. intros (H & ?). split_and!; try naive_solver.
  by apply (list_elem_of_fmap_2 fst _ (t_symbol t, t_venue_symbol t)).
Qed.

Lemma failed_lifecycle_spec t : failed_lifecycle t = false ↔
  t_state t ≠ "FAILED_BLOCKED" ∧ t_internal_failure_count t = 0 ∧
  (∀ ev, ev ∈ ["FAILED"; "RECOVERY_BLOCKED"; "EMERGENCY_CLOSE"] → ev ∉ t_event_types t).
Proof.
  unfold failed_lifecycle, FORBIDDEN_PUBLIC_EVENTS. rewrite !orb_false_iff, !negb_false_iff, String.eqb_neq, Z.eqb_eq,
    bool_decide_eq_false. split.
  - intros [[H1 H2] H3]. split_and!; [done|done|]. intros ev Hev Hin. apply H3, inter_nonempty.
    exists ev. split; [done|]. by apply elem_of_list_to_set.
  - intros (H1 & H2 & H3). split_and!; [done|done|]. intros (x & Hx & Hf%elem_of_list_to_set)%inter_nonempty.
    by apply (H3 x).
Qed.

(** ** The fold over the trades *)
Definition counted (p : trade → bool) (l : list trade) : Z := zsum ((λ t, Z.b2z (p t)) <$> l).
Definition flat_symbols (l : list trade) : gset string :=
  list_to_set (t_symbol <$> filter (λ t, protected_flat t = true) l).
Definition flat_exits (l : list trade) : gset string :=
  ⋃ (required_exits <$> filter (λ t, protected_flat t = true) l).

Lemma tally_fold l s :
  foldl tally_trade s l =
  Tally (ty_failures s ++ concat (trade_failures <$> l)) (ty_protected_symbols s ∪ flat_symbols l)
    (ty_exit_reasons s ∪ flat_exits l) (ty_nonterminal s + counted nonterminal l)
    (ty_failed s + counted failed_lifecycle l) (ty_real_fills s + zsum (t_real_fill_event_count <$> l))
    (ty_cancels s + zsum (t_cancel_order_effects <$> l))
    (ty_ioc s && forallb (λ t, t_marketable_ioc_limit t && t_next_bar_market t) l).
Proof.
  revert s; induction l as [|t l IH]; intros s.
  - destruct s. unfold flat_symbols, flat_exits, counted. cbn.
    by rewrite app_nil_r, !(right_id_L ∅ (∪)), !Z.add_0_r, andb_true_r.
  - cbn [foldl]. rewrite IH. unfold tally_trade. cbn [ty_failures ty_protected_symbols ty_exit_reasons ty_nonterminal
      ty_failed ty_real_fills ty_cancels ty_ioc]. unfold flat_symbols, flat_exits, counted.
    rewrite !fmap_cons, filter_cons. cbn [concat zsum foldr forallb]. unfold zsum. cbn [foldr]. f_equal.
    + by rewrite app_assoc.
    + destruct (protected_flat t); [rewrite decide_True by done|rewrite decide_False by done]; [|done].
      rewrite fmap_cons. cbn [list_to_set]. by rewrite (assoc_L (∪)).
    + destruct (protected_flat t); [rewrite decide_True by done|rewrite decide_False by done]; [|done].
      rewrite fmap_cons. cbn [union_list foldr]. by rewrite (assoc_L (∪)).
    + destruct (nonterminal t); cbn [Z.b2z]; lia.
    + destruct (failed_lifecycle t); cbn [Z.b2z]; lia.
    + lia.
    + lia.
    + by rewrite !andb_assoc.
Qed.

Lemma tally_of_eq e :
  tally_of e = Tally (scope_failures e ++ integrity_failures e ++ concat (trade_failures <$> e_trades e))
    (flat_symbols (e_trades e)) (flat_exits (e_trades e)) (counted nonterminal (e_trades e))
    (counted failed_lifecycle (e_trades e)) (zsum (t_real_fill_event_count <$> e_trades e))
    (zsum (t_cancel_order_effects <$> e_trades e))
    (negb (bool_decide (e_trades e = [])) && forallb (λ t, t_marketable_ioc_limit t && t_next_bar_market t) (e_trades e)).
Proof.
  unfold tally_of. rewrite tally_fold. cbn [ty_failures ty_protected_symbols ty_exit_reasons ty_nonterminal
      ty_failed ty_real_fills ty_cancels ty_ioc]. by rewrite !(left_id_L ∅ (∪)), <- app_assoc.
Qed.

Lemma counted_zero p l : counted p l = 0 ↔ Forall (λ t, p t = false) l.
Proof.
  unfold counted. induction l as [|t l IH]; [by split|]. rewrite fmap_cons, Forall_cons, <- IH.
  unfold zsum. cbn [foldr]. fold (zsum ((λ t, Z.b2z (p t)) <$> l)).
  assert (∀ m, 0 <= zsum ((λ t, Z.b2z (p t)) <$> m)) as Hp.
  { induction m as [|u m IHm]; [done|]. rewrite fmap_cons. unfold zsum in *. cbn [foldr]. destruct (p u); cbn [Z.b2z]; lia. }
  specialize (Hp l). destruct (p t); cbn [Z.b2z]; naive_solver lia.
Qed.

Lemma sorted_elements_nil (X : gset string) : sort_str (elements X) = [] ↔ X = ∅.
Proof.
  split; [|by intros ->]. intros H. apply leibniz_equiv, elements_empty_inv.
  destruct (elements X) as [|x l]; [done|]. cbn [sort_str foldr] in H.
  destruct (foldr insert_str [] l) as [|y r]; [discriminate H|]. cbn in H. by destruct (String.leb x y).
Qed.

Lemma diff_empty (X Y : gset string) : X ∖ Y = ∅ ↔ X ⊆ Y.
Proof.
  split; [|set_solver]. intros H x Hx. destruct (decide (x ∈ Y)) as [?|Hn]; [done|].
  assert (x ∈ X ∖ Y) as Hd by set_solver. rewrite H in Hd. set_solver.
Qed.

Lemma if_nil (b : bool) (x : string) : (if b then [x] else []) = [] ↔ b = false.
Proof. by destruct b. Qed.

Lemma app_nil {A} (a b : list A) : a ++ b = [] ↔ a = [] ∧ b = [].
Proof. split; [apply app_eq_nil|]. by intros [-> ->]. Qed.

Lemma scope_failures_nil e : scope_failures e = [] ↔
  e_environment e ∈ EXPECTED_ENVIRONMENTS ∧ e_trading_mode e = "PAPER" ∧ e_profile e = "DEV" ∧
  blower (e_exchange e) = "evedex" ∧ matches ACCOUNT_PATTERN (e_account_id e) ∧
  e_present e = true ∧ e_entries_blocked e = false ∧ e_completed e = true.
Proof.
  unfold scope_failures, is_evedex. rewrite app_nil, if_nil, !orb_false_iff, !negb_false_iff, bool_decide_eq_true,
    !String.eqb_eq, fullmatch_spec.
  destruct (e_present e); cbn [negb]; [|naive_solver].
  rewrite if_nil, orb_false_iff, negb_false_iff. naive_solver.
Qed.

Lemma integrity_failures_nil e : integrity_failures e = [] ↔
  e_prepared_effects e + e_failed_effects e = 0 ∧ e_duplicate_client_ids e = 0 ∧ e_foreign_scope_trades e = 0 ∧
  e_foreign_scope_effects e = 0 ∧ e_public_failure_events e = 0.
Proof.
  unfold integrity_failures, unresolved_effects. rewrite !app_nil, !if_nil, orb_false_iff, !negb_false_iff, !Z.eqb_eq.
  naive_solver.
Qed.

Lemma trade_failures_nil t : trade_failures t = [] ↔
  lineage t ∧ t_public_event_count t = t_expected_public_event_count t ∧ t_public_sequence_contiguous t = true ∧
  t_public_scope_valid t = true ∧ (filled t → ∃ reason, round_trip t reason).
Proof.
  unfold trade_failures, facts_broken. rewrite !app_nil, !if_nil, outside_lineage_spec, !orb_false_iff, !negb_false_iff,
    Z.eqb_eq, andb_false_iff, negb_false_iff, protected_flat_spec, <- has_fill_spec.
  destruct (has_fill t); naive_solver.
Qed.

Lemma concat_nil {A} (f : A → list string) l : concat (f <$> l) = [] ↔ Forall (λ x, f x = []) l.
Proof.
  induction l as [|x l IH]; [by split|]. rewrite fmap_cons, Forall_cons. cbn [concat]. by rewrite app_nil, IH.
Qed.

Lemma restart_recovery_spec e : restart_recovery e = true ↔
  e_present e = true ∧ e_completed e = true ∧ e_entries_blocked e = false ∧ 2 <= e_recovery_epoch e ∧ e_crossed_epoch e = true.
Proof. unfold restart_recovery. rewrite !andb_true_iff, negb_true_iff, Z.leb_le. naive_solver. Qed.

Lemma flat_symbols_elem s l : s ∈ flat_symbols l ↔ ∃ t reason, t ∈ l ∧ t_symbol t = s ∧ round_trip t reason.
Proof.
  unfold flat_symbols. rewrite elem_of_list_to_set, list_elem_of_fmap. setoid_rewrite list_elem_of_filter.
  setoid_rewrite protected_flat_spec. naive_solver.
Qed.

Lemma flat_exits_elem r l : r ∈ flat_exits l ↔ ∃ t, t ∈ l ∧ round_trip t r.
Proof.
  unfold flat_exits. rewrite elem_of_union_list. setoid_rewrite list_elem_of_fmap. setoid_rewrite list_elem_of_filter.
  setoid_rewrite protected_flat_spec.
  assert (∀ t reason, round_trip t reason → required_exits t = {[reason]}) as Hreq.
  { intros t reason (_ & _ & _ & _ & H5 & H6 & _). unfold required_exits, REQUIRED_EXIT_REASONS. rewrite H5. set_solver. }
  split.
  - intros (X & (t & -> & (reason & Ht) & Hin) & Hr). rewrite (Hreq t reason Ht) in Hr.
    apply elem_of_singleton in Hr as ->. by exists t.
  - intros (t & Hin & Ht). exists (required_exits t). rewrite (Hreq t r Ht). split; [|set_solver].
    exists t. split_and!; [by rewrite (Hreq t r Ht)|by exists r|done].
Qed.

Definition failures_of (e : evidence) : list string := ty_failures (tally_of e) ++ aggregate_failures e (tally_of e).

Lemma failures_nil e : failures_of e = [] ↔
  scope_failures e = [] ∧ integrity_failures e = [] ∧
  Forall (λ t, trade_failures t = [] ∧ nonterminal t = false ∧ failed_lifecycle t = false) (e_trades e) ∧
  zsum (t_real_fill_event_count <$> e_trades e) = e_real_fill_events e ∧
  zsum (t_cancel_order_effects <$> e_trades e) = e_cancel_order_effects e.
Proof.
  unfold failures_of, aggregate_failures. rewrite tally_of_eq. cbn [ty_failures ty_nonterminal ty_failed ty_real_fills ty_cancels].
  rewrite !app_nil, !if_nil, !negb_false_iff, !Z.eqb_eq, !counted_zero, concat_nil, !Forall_and. naive_solver.
Qed.

Lemma pending_nil e : pending_reasons e (tally_of e) = [] ↔
  restart_recovery e = true ∧
  (∀ symbol, symbol ∈ EXPECTED_SYMBOLS → ∃ t reason, t ∈ e_trades e ∧ t_symbol t = symbol ∧ round_trip t reason) ∧
  (∀ reason, reason ∈ ["STOP"; "TARGET"; "TIMEOUT"] → ∃ t, t ∈ e_trades e ∧ round_trip t reason) ∧
  e_trades e ≠ [] ∧ Forall (λ t, t_marketable_ioc_limit t = true ∧ t_next_bar_market t = true) (e_trades e) ∧
  0 < e_cancel_order_effects e ∧ 0 < e_real_fill_events e.
Proof.
  unfold pending_reasons, missing_symbols, missing_exits, REQUIRED_EXIT_REASONS. rewrite tally_of_eq.
  cbn [ty_protected_symbols ty_exit_reasons ty_ioc].
  rewrite !app_nil, !if_nil, !negb_false_iff, !bool_decide_eq_true, !sorted_elements_nil, !diff_empty, andb_true_iff,
    negb_true_iff, bool_decide_eq_false, Z.ltb_lt, Z.leb_gt.
  assert (∀ l : list string, list_to_set l ⊆ flat_symbols (e_trades e) ↔ ∀ s, s ∈ l → s ∈ flat_symbols (e_trades e)) as Hs.
  { intros l. unfold subseteq, set_subseteq_instance. setoid_rewrite elem_of_list_to_set. done. }
  assert (∀ l : list string, list_to_set l ⊆ flat_exits (e_trades e) ↔ ∀ s, s ∈ l → s ∈ flat_exits (e_trades e)) as Hx.
  { intros l. unfold subseteq, set_subseteq_instance. setoid_rewrite elem_of_list_to_set. done. }
  rewrite Hs, Hx. setoid_rewrite flat_symbols_elem. setoid_rewrite flat_exits_elem.
  rewrite forallb_forall, Forall_forall. setoid_rewrite <- list_elem_of_In. setoid_rewrite andb_true_iff. naive_solver.
Qed.

Lemma nonterminal_spec t : nonterminal t = false ↔ t_state t = "FLAT" ∨ t_state t = "CANCELLED".
Proof.
  unfold nonterminal, TERMINAL_STATES. rewrite negb_false_iff, bool_decide_eq_true, !elem_of_cons, elem_of_nil. naive_solver.
Qed.

Lemma passes_iff e : failures_of e = [] ∧ pending_reasons e (tally_of e) = [] ↔ accepted e.
Proof.
  rewrite failures_nil, pending_nil, scope_failures_nil, integrity_failures_nil, restart_recovery_spec. unfold accepted.
  assert (Forall (λ t, trade_failures t = [] ∧ nonterminal t = false ∧ failed_lifecycle t = false) (e_trades e) ∧
          Forall (λ t, t_marketable_ioc_limit t = true ∧ t_next_bar_market t = true) (e_trades e) ↔
          Forall trade_accepted (e_trades e)) as Ht.
  { rewrite <- Forall_and. apply Forall_iff. intros t. unfold trade_accepted.
    rewrite trade_failures_nil, nonterminal_spec, failed_lifecycle_spec.
    assert (t_state t = "FLAT" ∨ t_state t = "CANCELLED" → t_state t ≠ "FAILED_BLOCKED") by (intros [-> | ->]; done).
    naive_solver. }
  rewrite <- Ht. split; [naive_solver|]. intros H. destruct_and!. split_and!; try done.
  match goal with F : ∀ r, r ∈ ["STOP"; _; _] → _ |- _ => destruct (F "STOP") as (t & Hin & _); [left|] end.
  intros E. rewrite E in Hin. by apply elem_of_nil in Hin.
Qed.

(** ** Properties *)
Definition status (r : value) : string := match r with VDict d => match dget "status" d with VStr s => s | _ => EmptyString end | _ => EmptyString end.

Lemma status_report e :
  status (report_of e) = status_of (failures_of e) (pending_reasons e (tally_of e)).
Proof. done. Qed.

Lemma evaluate_Ok v r :
  evaluate_evidence v = Ok r →
  (∃ e, parse_evidence v = Ok e ∧ r = report_of e) ∨
  (∃ x, parse_evidence v = Err x ∧ schema_exceptions (exc_cls x) = true ∧ r = invalid_evidence_report).
Proof.
  unfold evaluate_evidence. destruct (parse_evidence v) as [e|x]; [intros [= <-]; left; by exists e|].
  destruct (schema_exceptions _) eqn:E; [|done]. intros [= <-]. right. by exists x.
Qed.

(** C25. PASS means exactly the acceptance criterion.  A report of any
    evidence has the status PASS if and only if the evidence has the versioned
    shape and satisfies [accepted]: the dedicated EVEDEX DEV paper scope, a
    clean recovery proved by a protected trade that crossed its epoch, no
    unresolved, duplicate or foreign effects, aggregates equal to the sums over
    the trades, every trade of the canary's lineage, terminal, never failed,
    with contiguous public facts and a protected flat round trip if it was
    filled, and round trips for all five symbols and all three exit reasons. *)
Theorem pass_iff_accepted (v r : value) :
  evaluate_evidence v = Ok r →
  status r = "PASS" ↔ ∃ e, parse_evidence v = Ok e ∧ accepted e.
Proof.
  intros [(e & Hp & ->)|(x & Hp & _ & ->)]%evaluate_Ok.
  - rewrite status_report. unfold status_of. setoid_rewrite <- passes_iff.
    destruct (decide (failures_of e = [])) as [Hf|Hf].
    + rewrite Hf, bool_decide_true by done. cbn [negb].
      destruct (decide (pending_reasons e (tally_of e) = [])) as [Hq|Hq].
      * rewrite Hq, bool_decide_true by done. split; [by exists e|done].
      * rewrite bool_decide_false by done. split; [done|]. intros (e' & He & _ & ?). congruence.
    + rewrite bool_decide_false by done. split; [done|]. intros (e' & He & ? & _). congruence.
  - split; [done|]. intros (e & He & _). congruence.
Qed.

Lemma flat_symbols_perm l l' : l ≡ₚ l' → flat_symbols l = flat_symbols l'.
Proof. intros Hp. apply set_eq. intros s. rewrite !flat_symbols_elem. by setoid_rewrite Hp. Qed.
Lemma flat_exits_perm l l' : l ≡ₚ l' → flat_exits l = flat_exits l'.
Proof. intros Hp. apply set_eq. intros s. rewrite !flat_exits_elem. by setoid_rewrite Hp. Qed.
Lemma zsum_perm l l' : l ≡ₚ l' → zsum l = zsum l'.
Proof. induction 1; unfold zsum in *; cbn; lia. Qed.

Lemma sorted_set_perm l l' : l ≡ₚ l' → sorted_set l = sorted_set l'.
Proof. intros Hp. unfold sorted_set. do 2 f_equal. apply set_eq. intros x. rewrite !elem_of_list_to_set. by rewrite Hp. Qed.

Lemma forallb_perm {A} (f : A → bool) l l' : l ≡ₚ l' → forallb f l = forallb f l'.
Proof.
  intros Hp. apply eq_bool_prop_intro. rewrite !Is_true_true, !forallb_forall. setoid_rewrite <- list_elem_of_In.
  by setoid_rewrite Hp.
Qed.

Definition with_trades (e : evidence) (ts : list trade) : evidence :=
  Evidence (e_environment e) (e_trading_mode e) (e_profile e) (e_exchange e) (e_account_id e) (e_present e)
    (e_entries_blocked e) (e_recovery_epoch e) (e_completed e) (e_crossed_epoch e) (e_prepared_effects e)
    (e_failed_effects e) (e_duplicate_client_ids e) (e_foreign_scope_trades e) (e_foreign_scope_effects e)
    (e_cancel_order_effects e) (e_real_fill_events e) (e_public_failure_events e) ts.

Lemma concat_perm {A} (f : A → list string) l l' : l ≡ₚ l' → concat (f <$> l) ≡ₚ concat (f <$> l').
Proof.
  induction 1 as [|x l l' _ IH|x y l|l l' l'' _ IH1 _ IH2]; [done| | |by rewrite IH1].
  - rewrite !fmap_cons. cbn [concat]. by rewrite IH.
  - rewrite !fmap_cons. cbn [concat]. rewrite !app_assoc. by rewrite (Permutation_app_comm (f y) (f x)).
Qed.

Lemma tally_perm e ts : e_trades e ≡ₚ ts →
  ty_failures (tally_of (with_trades e ts)) ≡ₚ ty_failures (tally_of e) ∧
  tally_of (with_trades e ts) =
    Tally (ty_failures (tally_of (with_trades e ts))) (ty_protected_symbols (tally_of e)) (ty_exit_reasons (tally_of e))
      (ty_nonterminal (tally_of e)) (ty_failed (tally_of e)) (ty_real_fills (tally_of e)) (ty_cancels (tally_of e))
      (ty_ioc (tally_of e)).
Proof.
  intros Hp. rewrite !tally_of_eq. cbn [with_trades e_trades ty_failures ty_protected_symbols ty_exit_reasons
    ty_nonterminal ty_failed ty_real_fills ty_cancels ty_ioc]. split.
  - change (scope_failures (with_trades e ts)) with (scope_failures e).
    change (integrity_failures (with_trades e ts)) with (integrity_failures e). by rewrite (concat_perm _ _ _ Hp).
  - f_equal; [by apply flat_symbols_perm|by apply flat_exits_perm|by apply zsum_perm; rewrite Hp..|].
    f_equal; [|by symmetry; apply forallb_perm]. f_equal. apply bool_decide_ext.
    split; intros E; rewrite E in Hp; [by apply Permutation_nil_r in Hp|by apply Permutation_nil_l in Hp].
Qed.

Lemma report_perm e ts : e_trades e ≡ₚ ts → report_of (with_trades e ts) = report_of e.
Proof.
  intros Hp. destruct (tally_perm e ts Hp) as [Hf Ht].
  assert (failures_of (with_trades e ts) ≡ₚ failures_of e) as Hall.
  { unfold failures_of.
    assert (aggregate_failures (with_trades e ts) (tally_of (with_trades e ts)) = aggregate_failures e (tally_of e)) as ->
      by (rewrite Ht; done).
    by rewrite Hf. }
  assert (pending_reasons (with_trades e ts) (tally_of (with_trades e ts)) = pending_reasons e (tally_of e)) as Hpend
    by (rewrite Ht; done).
  assert (status_of (failures_of (with_trades e ts)) (pending_reasons e (tally_of e))
          = status_of (failures_of e) (pending_reasons e (tally_of e))) as Hst.
  { unfold status_of.
    assert (bool_decide (failures_of (with_trades e ts) = []) = bool_decide (failures_of e = [])) as ->; [|done].
    apply bool_decide_ext.
    split; intros E; rewrite E in Hall; [by apply Permutation_nil_l in Hall|by apply Permutation_nil_r in Hall]. }
  unfold report_of. fold (failures_of e) (failures_of (with_trades e ts)). rewrite Hpend, Hst.
  unfold _base_report. rewrite (sorted_set_perm _ _ Hall), Ht. cbn [with_trades e_trades]. by rewrite (Permutation_length Hp).
Qed.

Lemma mapR_perm {A B} (f : A → result B) l l' ys :
  l ≡ₚ l' → mapR f l = Ok ys → ∃ ys', mapR f l' = Ok ys' ∧ ys ≡ₚ ys'.
Proof.
  setoid_rewrite mapR_Ok. intros Hp. revert ys. induction Hp as [|x l l' _ IH|x y l|l l' l'' _ IH1 _ IH2]; intros ys H.
  - inversion H; subst. by exists [].
  - inversion H as [|? y ? ys0 Hy Hys]; subst. destruct (IH _ Hys) as (ys' & H1 & H2).
    exists (y :: ys'). split; [by constructor|by rewrite H2].
  - inversion H as [|? b ? ys0 Hb Hys]; subst. inversion Hys as [|? a ? ys1 Ha Hl]; subst.
    exists (a :: b :: ys1). split; [by repeat constructor|by constructor].
  - destruct (IH1 _ H) as (ys' & H1 & H2). destruct (IH2 _ H1) as (ys'' & H3 & H4). exists ys''. by rewrite H2.
Qed.

(** Replacing the list of trades of the evidence. *)
Lemma item_dset k k' x d :
  py_item k (VDict (dset k' x d)) = if String.eqb k k' then Ok x else py_item k (VDict d).
Proof. unfold py_item. rewrite dlookup_dset. by destruct (String.eqb k k'). Qed.

Lemma field_dset {A} (read : value → result A) k x d key :
  field read (dset k x d) key = if String.eqb key k then read x else field read d key.
Proof. unfold field. rewrite item_dset. by destruct (String.eqb key k). Qed.

Lemma keys_are_dset k (x : value) d ks : is_Some (dlookup k d) → keys_are (dset k x d) ks = keys_are d ks.
Proof. intros Hk. unfold keys_are. rewrite dkeys_dset. unfold dmem. by rewrite bool_decide_true. Qed.

Lemma parse_evidence_trades root rows e :
  parse_evidence (VDict root) = Ok e → dlookup "trades" root = Some (VList rows) →
  mapR parse_trade rows = Ok (e_trades e) ∧
  ∀ rows' ts', mapR parse_trade rows' = Ok ts' →
    parse_evidence (VDict (dset "trades" (VList rows') root)) = Ok (with_trades e ts').
Proof.
  intros H Hrows. assert (is_Some (dlookup "trades" root)) as Hmem by (by rewrite Hrows).
  unfold parse_evidence, _exact_keys in *. cbn [_mapping] in *. rewrite bind_ret in H. ok_inv H.
  assert (field _list root "trades" = Ok rows) as Hf by (unfold field, py_item; by rewrite Hrows).
  match goal with F : field _list root "trades" = Ok ?l |- _ => rewrite F in Hf; apply Ok_inj in Hf; subst l end.
  split; [done|]. intros rows' ts' Hts. rewrite bind_ret, keys_are_dset, item_dset, !field_dset by done.
  repeat match goal with
  | |- context [String.eqb ?a ?b] => let r := eval vm_compute in (String.eqb a b) in change (String.eqb a b) with r; cbn iota
  end.
  repeat match goal with
  | F : ?b = false |- context [raise_if ?b _ _] => rewrite (raise_if_pass b _ _ _ F)
  | F : ?m = Ok _ |- context [?m ≫= _] => rewrite F, bind_ret
  end.
  cbn [_list]. by rewrite bind_ret, Hts, bind_ret.
Qed.

(** The order of the trades is irrelevant.  If the evidence is well
    formed, permuting its list of trades changes nothing in the report: not
    the status, a reason, a coverage list or a counter. *)
Theorem report_ignores_trade_order (root : dict) (rows rows' : list value) (e : evidence) :
  parse_evidence (VDict root) = Ok e → dlookup "trades" root = Some (VList rows) → rows ≡ₚ rows' →
  evaluate_evidence (VDict (dset "trades" (VList rows') root)) = evaluate_evidence (VDict root).
Proof.
  intros He Hrows Hp. destruct (parse_evidence_trades root rows e He Hrows) as [Hts Hrep].
  destruct (mapR_perm _ _ _ _ Hp Hts) as (ts' & Hts' & Hperm).
  unfold evaluate_evidence. rewrite (Hrep _ _ Hts'), He. by rewrite report_perm.
Qed.

(** What the readers can raise. *)
Definition only_overflow {A} (r : result A) : Prop :=
  match r with Ok _ => True | Err x => schema_exceptions (exc_cls x) = true ∨ exc_cls x = OverflowError end.

Lemma only_bind {A B} (m : result A) (f : A → result B) : only_overflow m → (∀ a, only_overflow (f a)) → only_overflow (m ≫= f).
Proof. destruct m as [a|x]; [intros _ H; apply H|by intros H _]. Qed.

Lemma only_field {A} (read : value → result A) d k : (∀ v, only_overflow (read v)) → only_overflow (field read d k).
Proof.
  intros H. unfold field, py_item. destruct (dlookup k d); [apply H|]. by left.
Qed.

Lemma only_raise_if b msg : only_overflow (raise_if b EvidenceSchemaError msg).
Proof. destruct b; [by left|done]. Qed.

Lemma only_mapR {A B} (f : A → result B) l : (∀ a, only_overflow (f a)) → only_overflow (mapR f l).
Proof.
  intros Hf. induction l as [|x l IH]; [done|]. cbn [mapR]. apply only_bind; [done|]. intros y. by apply only_bind.
Qed.

Lemma only_readers :
  (∀ v, only_overflow (_mapping v)) ∧ (∀ v, only_overflow (_list v)) ∧ (∀ v, only_overflow (_text v)) ∧
  (∀ v, only_overflow (_boolean v)) ∧ (∀ v, only_overflow (_integer v)) ∧ (∀ v, only_overflow (_finite_nonnegative v)).
Proof.
  split_and!; intros v.
  - destruct v; (done || by left).
  - destruct v; (done || by left).
  - destruct v; cbn; try by left. destruct (String.eqb _ _); [by left|done].
  - destruct v; (done || by left).
  - destruct v; cbn; try by left. destruct (_ <? _); [by left|done].
  - unfold _finite_nonnegative. apply only_bind; [|intros f; destruct (_ || _); [by left|done]].
    destruct v; try (done || by left). unfold float_of_int. destruct (binary_normalize _ _ _ _ _); try done. by right.
Qed.

Lemma only_text_set v : only_overflow (_text_set v).
Proof.
  destruct only_readers as (_ & Hl & Ht & _). unfold _text_set. apply only_bind; [done|]. intros items.
  apply only_bind; [by apply only_mapR|]. intros texts. destruct (no_dup texts); [done|by left].
Qed.

Lemma parse_only_overflow v : only_overflow (parse_evidence v).
Proof.
  destruct only_readers as (Hm & Hl & Ht & Hb & Hi & Hf). pose proof only_text_set as Hts.
  assert (∀ u, only_overflow (parse_trade u)) as Htrade.
  { intros u. unfold parse_trade, _exact_keys.
    repeat (apply only_bind; [first [apply Hm | apply only_raise_if | apply only_field; assumption]|intros ?]). done. }
  unfold parse_evidence, _exact_keys.
  repeat (apply only_bind; [first [apply Hm | apply only_raise_if | apply only_field; assumption
    | apply only_mapR; assumption | unfold py_item; case_match; (done || by left)]|intros ?]). done.
Qed.

Lemma status_cases failures pending :
  (status_of failures pending = "FAIL" ↔ failures ≠ []) ∧
  (status_of failures pending = "PENDING" ↔ failures = [] ∧ pending ≠ []) ∧
  (status_of failures pending = "PASS" ↔ failures = [] ∧ pending = []).
Proof.
  unfold status_of. destruct failures as [|f failures]; [rewrite (bool_decide_true _ eq_refl)|rewrite bool_decide_false by done];
    cbn [negb]; [|naive_solver].
  destruct pending as [|q pending]; [rewrite (bool_decide_true _ eq_refl)|rewrite bool_decide_false by done]; naive_solver.
Qed.

(** Evaluation is total up to one exception.  On every value the
    evaluator either raises [OverflowError], which only an integer quantity
    beyond the range of a float can cause, or returns a report whose [accepted]
    field says PASS, whose status is FAIL exactly if there are failure reasons
    and PENDING exactly if there are pending reasons and no failure reasons,
    and which claims to hold no raw identifier. *)
Theorem evaluation_verdict (v : value) :
  match evaluate_evidence v with
  | Err x => exc_cls x = OverflowError
  | Ok r => ∃ d failures pending, r = VDict d ∧
      dlookup "failure_reasons" d = Some (strs failures) ∧ dlookup "pending_reasons" d = Some (strs pending) ∧
      dlookup "accepted" d = Some (VBool (String.eqb (status r) "PASS")) ∧
      (status r = "FAIL" ↔ failures ≠ []) ∧ (status r = "PENDING" ↔ failures = [] ∧ pending ≠ []) ∧
      (status r = "PASS" ↔ failures = [] ∧ pending = []) ∧
      dlookup "contains_raw_identifiers" d = Some (VBool false)
  end.
Proof.
  pose proof (parse_only_overflow v) as Hp. unfold evaluate_evidence.
  destruct (parse_evidence v) as [e|x].
  - assert (∀ l, sorted_set l = [] ↔ l = []) as Hn.
    { intros l. unfold sorted_set. rewrite sorted_elements_nil. split; [|by intros ->].
      destruct l as [|y l]; [done|]. intros H. assert (y ∈ (∅ : gset string)) as Hy; [|set_solver].
      rewrite <- H. set_solver. }
    eexists _, (sorted_set (failures_of e)), (sorted_set (pending_reasons e (tally_of e))).
    split; [reflexivity|]. rewrite status_report, !Hn.
    destruct (status_cases (failures_of e) (pending_reasons e (tally_of e))) as (H1 & H2 & H3).
    split_and!; done.
  - destruct Hp as [H|H]; [rewrite H|destruct (schema_exceptions (exc_cls x)); [|done]].
    all: exists (match invalid_evidence_report with VDict d => d | _ => [] end), ["EVIDENCE_SCHEMA_INVALID"], [].
    all: split_and!; try reflexivity; split; try done; by intros [].
Qed.

(** The report of an accepted run: two counters are all that varies. *)
Definition pass_report (trades fills : Z) : value := VDict [
  ("schema_version", VInt 1); ("gate", VStr "EVEDEX_DEV_TECHNICAL_CANARY_ACCEPTANCE"); ("status", VStr "PASS");
  ("accepted", VBool true); ("strategy", VStr "technical-canary@1");
  ("scope", VDict [("trading_mode", VStr "PAPER"); ("profile", VStr "DEV"); ("exchange", VStr "EVEDEX");
     ("dedicated_account_namespace", VBool true)]);
  ("coverage", VDict [
     ("protected_flat_symbols", strs ["BNBUSDT"; "BTCUSDT"; "ETHUSDT"; "SOLUSDT"; "XRPUSDT"]);
     ("required_symbols", strs ["BTCUSDT"; "ETHUSDT"; "SOLUSDT"; "BNBUSDT"; "XRPUSDT"]); ("missing_symbols", strs []);
     ("exit_reasons", strs ["STOP"; "TARGET"; "TIMEOUT"]); ("missing_exit_reasons", strs []);
     ("marketable_ioc_limit", VBool true); ("entry_cancel", VBool true); ("restart_recovery", VBool true)]);
  ("counters", VDict [("trades", VInt trades); ("real_fill_events", VInt fills); ("duplicate_client_order_ids", VInt 0);
     ("unresolved_effects", VInt 0); ("nonterminal_trades", VInt 0); ("failed_lifecycles", VInt 0)]);
  ("pending_reasons", strs []); ("failure_reasons", strs []);
  ("contains_raw_identifiers", VBool false); ("contains_credentials", VBool false)].

Lemma accepted_symbols e : accepted e → flat_symbols (e_trades e) = list_to_set EXPECTED_SYMBOLS.
Proof.
  intros H. apply set_eq. intros s. rewrite flat_symbols_elem, elem_of_list_to_set. split.
  - intros (t & reason & Hin & <- & _). assert (lineage t) as [Hl _].
    { destruct H as (_ & _ & _ & _ & _ & _ & _ & _ & _ & _ & _ & _ & _ & _ & _ & _ & _ & _ & _ & Ht & _).
      rewrite Forall_forall in Ht. by apply Ht. }
    apply (list_elem_of_fmap_2 fst) in Hl. exact Hl.
  - intros Hs. apply H, Hs.
Qed.

Lemma accepted_exits e : accepted e → flat_exits (e_trades e) = REQUIRED_EXIT_REASONS.
Proof.
  intros H. apply set_eq. intros r. unfold REQUIRED_EXIT_REASONS. rewrite flat_exits_elem, elem_of_list_to_set. split.
  - intros (t & _ & _ & _ & _ & _ & _ & Hr & _). exact Hr.
  - intros Hr. destruct H as (_ & _ & _ & _ & _ & _ & _ & _ & _ & _ & _ & _ & _ & _ & _ & _ & _ & _ & _ & _ & _ & Hx).
    by apply Hx.
Qed.

Lemma accepted_report e :
  accepted e → report_of e = pass_report (Z.of_nat (length (e_trades e))) (e_real_fill_events e).
Proof.
  intros H. pose proof (accepted_symbols e H) as Hsym. pose proof (accepted_exits e H) as Hexit.
  pose proof (proj2 (passes_iff e) H) as [Hf Hq]. pose proof Hf as Hf'. apply failures_nil in Hf' as (_ & _ & Ht & _ & _).
  pose proof Hq as Hq'. apply pending_nil in Hq' as (Hrec & _ & _ & Hne & Hioc & Hc & _).
  unfold report_of. fold (failures_of e). rewrite Hf, Hq. unfold missing_symbols, missing_exits.
  rewrite tally_of_eq, Hsym, Hexit. cbn [ty_protected_symbols ty_exit_reasons ty_nonterminal ty_failed ty_ioc].
  rewrite Hrec, (proj2 (Z.ltb_lt _ _) Hc), (bool_decide_false _ Hne).
  assert (forallb (λ t, t_marketable_ioc_limit t && t_next_bar_market t) (e_trades e) = true) as ->.
  { apply forallb_forall. intros t Hin%list_elem_of_In. rewrite Forall_forall in Hioc. destruct (Hioc t Hin) as [-> ->]. done. }
  rewrite (proj2 (counted_zero nonterminal (e_trades e))) by (eapply Forall_impl; [exact Ht|]; by intros ? (_ & ? & _)).
  rewrite (proj2 (counted_zero failed_lifecycle (e_trades e))) by (eapply Forall_impl; [exact Ht|]; by intros ? (_ & _ & ?)).
  assert (unresolved_effects e = 0 ∧ e_duplicate_client_ids e = 0) as [-> ->] by (split; apply H).
  unfold pass_report, _base_report. vm_compute (sort_str _). reflexivity.
Qed.

(** An accepting report reveals nothing of the evidence but two counters.
    Every report with the status PASS is [pass_report] for some number of
    trades and of fills: no symbol, environment, account or order text of the
    evidence occurs in it. *)
Theorem pass_report_is_fixed (v r : value) :
  evaluate_evidence v = Ok r → status r = "PASS" → ∃ trades fills, r = pass_report trades fills ∧ 0 < trades ∧ 0 < fills.
Proof.
  intros [(e & Hp & ->)|(x & _ & _ & ->)]%evaluate_Ok; [|done]. rewrite status_report. intros Hs.
  destruct (status_cases (failures_of e) (pending_reasons e (tally_of e))) as (_ & _ & H3).
  apply H3, passes_iff in Hs as Ha. rewrite (accepted_report e Ha).
  eexists _, _. split; [done|]. apply passes_iff in Ha as [_ Hq]. apply pending_nil in Hq as (_ & _ & _ & Hne & _ & _ & ?).
  destruct (e_trades e); [done|]. split; [cbn; lia|done].
Qed.

(** ** Witnesses *)
Definition sample_trade (symbol venue reason : string) : value := VDict [
  ("symbol", VStr symbol); ("venue_symbol", VStr venue); ("trading_mode", VStr "PAPER"); ("profile", VStr "DEV");
  ("exchange", VStr "Evedex"); ("strategy_id", VStr "technical-canary"); ("strategy_revision", VStr "1");
  ("state", VStr "FLAT"); ("filled_quantity", VFloat (float_of_dec false 25 (-1))); ("marketable_ioc_limit", VBool true);
  ("next_bar_market", VBool true); ("decision_binding_valid", VBool true);
  ("event_types", strs ["DECISION_RECEIVED"; "ENTRY_FILLED"; "STOP_CREATED"; "STOP_RECONCILED"; "TARGET_CREATED";
                        "TARGET_RECONCILED"; "EXIT_TRIGGERED"; "EXIT_FILLED"]);
  ("exit_reasons", strs [reason]); ("public_event_count", VInt 8); ("expected_public_event_count", VInt 8);
  ("public_sequence_contiguous", VBool true); ("public_scope_valid", VBool true); ("protected_sequence_valid", VBool true);
  ("internal_failure_count", VInt 0); ("cancel_order_effects", VInt 1); ("real_fill_event_count", VInt 2)].
Definition sample_rows : list value :=
  [sample_trade "BTCUSDT" "BTCUSD:DEV" "STOP"; sample_trade "ETHUSDT" "ETHUSD:DEV" "TARGET";
   sample_trade "SOLUSDT" "SOLUSD:DEV" "TIMEOUT"; sample_trade "BNBUSDT" "BNBUSD:DEV" "STOP";
   sample_trade "XRPUSDT" "XRPUSD:DEV" "TARGET"].
Definition sample_evidence (rows : list value) : dict := [
  ("schema_version", VInt 1);
  ("scope", VDict [("environment", VStr "paper:EVEDEX:DEV:PAPER"); ("trading_mode", VStr "PAPER"); ("profile", VStr "DEV");
     ("exchange", VStr "EVEDEX"); ("account_id", VStr "kairos-paper-dev-canary-1")]);
  ("recovery", VDict [("present", VBool true); ("entries_blocked", VBool false); ("recovery_epoch", VInt 3);
     ("completed", VBool true); ("protected_trade_crossed_epoch", VBool true)]);
  ("integrity", VDict [("prepared_effects", VInt 0); ("failed_effects", VInt 0); ("duplicate_client_order_ids", VInt 0);
     ("foreign_scope_trades", VInt 0); ("foreign_scope_effects", VInt 0); ("cancel_order_effects", VInt 5);
     ("real_fill_events", VInt 10); ("public_failure_events", VInt 0)]);
  ("trades", VList rows)].

Theorem pass_iff_accepted_witness :
  evaluate_evidence (VDict (sample_evidence sample_rows)) = Ok (pass_report 5 10) ∧
  ∃ e, parse_evidence (VDict (sample_evidence sample_rows)) = Ok e ∧ accepted e.
Proof.
  assert (evaluate_evidence (VDict (sample_evidence sample_rows)) = Ok (pass_report 5 10)) as H by (vm_compute; reflexivity).
  split; [exact H|]. apply (proj1 (pass_iff_accepted _ _ H)). reflexivity.
Defined.

Theorem report_ignores_trade_order_witness :
  evaluate_evidence (VDict (dset "trades" (VList (reverse sample_rows)) (sample_evidence sample_rows)))
  = evaluate_evidence (VDict (sample_evidence sample_rows)).
Proof.
  assert (∃ e, parse_evidence (VDict (sample_evidence sample_rows)) = Ok e) as [e He] by (eexists; vm_compute; reflexivity).
  apply (report_ignores_trade_order (sample_evidence sample_rows) sample_rows (reverse sample_rows) e).
  - exact He.
  - reflexivity.
  - symmetry. apply reverse_Permutation.
Defined.

Theorem pass_report_is_fixed_witness : ∃ trades fills, pass_report 5 10 = pass_report trades fills ∧ 0 < trades ∧ 0 < fills.
Proof.
  assert (evaluate_evidence (VDict (sample_evidence sample_rows)) = Ok (pass_report 5 10)) as H by (vm_compute; reflexivity).
  apply (pass_report_is_fixed _ _ H). reflexivity.
Defined.

(** An integer quantity beyond the range of a float escapes the evaluator as [OverflowError]. *)
Definition overflowing_rows : list value :=
  match sample_rows with
  | VDict d :: rows => VDict (dset "filled_quantity" (VInt (10 ^ 400)) d) :: rows
  | rows => rows
  end.
Theorem overflow_escapes :
  evaluate_evidence (VDict (sample_evidence overflowing_rows))
  = Err (Exc OverflowError "int too large to convert to float").
Proof. vm_compute. reflexivity. Qed.
