(* ===== verification/SoakReconnect.v ===== *)
(** * The soak observer ([scripts/soak_reconnect.py], lines 15 to 337)

    [run_soak] polls the runtime's metrics until a duration has passed, may
    restart Redis once, and summarises what it saw.  Metrics are a finite map
    from names to floats; clocks, sleeps, the restart and the two transports
    are operations of an environment. *)

From stdpp Require Import gmap strings.
From S2P Require Import Prelude PyStr Regex PyVal Json Effects.

Local Open Scope string_scope.
Local Open Scope list_scope.
Local Open Scope Z_scope.

(** ** [float(text)] *)
Definition ascii_digits (s : string) : option string :=
  foldr (λ u r, r ← r;
    match digit_of_cp (code_point u) with
    | Some d => Some (String (digit_char (Z.to_N d)) r)
    | None => if isascii u then Some (u +:+ r) else None
    end) (Some EmptyString) (uchars s).

(** Digits with single underscores between digits, without the underscores. *)
Fixpoint digit_group (s : string) : option string :=
  match s with
  | String c EmptyString => if is_digit c then Some s else None
  | String c (String "_" ((String _ _) as t)) => if is_digit c then String c <$> digit_group t else None
  | String c t => if is_digit c then String c <$> digit_group t else None
  | EmptyString => None
  end.

Definition opt_group (s : string) : option string :=
  if String.eqb s EmptyString then Some EmptyString else digit_group s.

Definition split_sign (s : string) : bool * string :=
  match s with String "-" t => (true, t) | String "+" t => (false, t) | _ => (false, s) end.

Definition split_exponent (s : string) : string * option string :=
  match split_once "e" s with Some (m, x) => (m, Some x) | None => (s, None) end.

Definition decimal_float (neg : bool) (body : string) : option flt :=
  let '(mantissa, exponent) := split_exponent body in
  let '(ip, fp) := match split_once "." mantissa with Some (a, b) => (a, b) | None => (mantissa, EmptyString) end in
  i ← opt_group ip;
  f ← opt_group fp;
  e ← match exponent with
      | None => Some 0
      | Some x => let '(n, ds) := split_sign x in d ← digit_group ds; Some (if n : bool then - dec_val d else dec_val d)
      end;
  if String.eqb (i +:+ f) EmptyString then None else Some (float_of_dec neg (dec_val (i +:+ f)) (e - slen f)).

(** [None] where Python raises [ValueError]. *)
Definition py_float (s : string) : option flt :=
  t ← ascii_digits s;
  let '(neg, body) := split_sign (blower t) in
  if bool_decide (body ∈ ["inf"; "infinity"]) then Some (S754_infinity neg)
  else if String.eqb body "nan" then Some S754_nan
  else decimal_float neg body.

(** ** Constants *)
Definition REQUIRED_METRICS : list string :=
  ["kairos_persistence_up"; "kairos_redis_up"; "kairos_outbox_pending"; "kairos_outbox_dead_lettered_total";
   "kairos_inbox_failed"; "kairos_inbox_processing_oldest_age_seconds"; "kairos_inbox_processing_expired";
   "kairos_execution_effects_prepared"; "kairos_execution_effects_failed"; "kairos_outbox_oldest_age_seconds"].
Definition ZERO_REQUIRED : list string :=
  ["kairos_outbox_dead_lettered_total"; "kairos_inbox_failed"; "kairos_inbox_processing_expired";
   "kairos_execution_effects_prepared"; "kairos_execution_effects_failed"].
Definition MAX_OUTBOX_AGE_SECONDS : flt := fz 60.
Definition PAPER_REQUIRED_METRICS : list string :=
  ["kairos_closed_bar_gaps_24h"; "kairos_closed_bar_symbols_24h"; "kairos_closed_bar_minimum_coverage_ratio_24h";
   "kairos_closed_bar_latest_age_seconds"; "kairos_venue_measurements_24h"; "kairos_venue_availability_ratio_24h";
   "kairos_venue_poll_expected_24h"; "kairos_venue_poll_attempted_24h"; "kairos_venue_poll_succeeded_24h";
   "kairos_venue_poll_failed_24h"; "kairos_venue_blocked_24h"; "kairos_venue_p95_abs_basis_bps";
   "kairos_venue_p95_spread_bps"; "kairos_venue_p95_slippage_bps"; "kairos_venue_max_book_age_ms";
   "kairos_venue_max_timestamp_skew_ms"; "kairos_venue_p95_latency_ms"; "kairos_venue_latest_age_seconds";
   "kairos_paper_active_trades"; "kairos_paper_unprotected_trades"; "kairos_paper_recovery_blocked";
   "kairos_execution_p95_shortfall_bps"; "kairos_paper_account_latest_age_seconds"; "kairos_api_spend_month_usd";
   "kairos_execution_runtime_health_age_seconds"; "kairos_evedex_auth_age_seconds";
   "kairos_evedex_auth_expires_in_seconds"; "kairos_evedex_local_mutation_reserve";
   "kairos_evedex_local_mutation_capacity"; "kairos_evedex_local_mutation_compensation_reserve";
   "kairos_evedex_local_mutation_window_seconds"; "kairos_evedex_venue_rate_limit_observable";
   "kairos_evedex_venue_rate_limit_reserve"].
Definition PAPER_ZERO_REQUIRED : list string := ["kairos_closed_bar_gaps_24h"; "kairos_paper_unprotected_trades"].
Definition PAPER_WINDOW_READINESS_ERRORS : list string :=
  ["venue_measurements_missing"; "closed_bar_symbol_coverage_incomplete"; "closed_bar_coverage_below_0.999";
   "venue_availability_below_0.99"; "venue_poll_schedule_incomplete"].
Definition IRREVERSIBLE_QUALIFICATION_ERRORS : list string :=
  ["nonzero:kairos_outbox_dead_lettered_total"; "nonzero:kairos_inbox_failed"; "nonzero:kairos_execution_effects_failed";
   "nonzero:kairos_closed_bar_gaps_24h"; "nonzero:kairos_paper_unprotected_trades";
   "venue_poll_fact_counts_inconsistent"; "api_qualification_budget_exceeded"; "evedex_mutation_budget_unsafe"].

(** ** Metrics *)
Abbreviation metrics := (gmap string flt).

Definition _is_window_readiness_error (error : string) : bool :=
  bool_decide (error ∈ PAPER_WINDOW_READINESS_ERRORS) || startswith "threshold:" error.

Definition _sample_availability_errors (errors : list string) (paper : bool) : list string :=
  if negb paper then errors else filter (λ e, _is_window_readiness_error e = false) errors.

Definition parse_line (m : metrics) (raw : string) : metrics :=
  let line := strip raw in
  if String.eqb line EmptyString || startswith "#" line then m
  else match words line with
       | [name; text] =>
           if sany (is_one "{") name then m
           else match py_float text with Some f => <[name := f]> m | None => m end
       | _ => m
       end.

Definition parse_metrics (payload : string) : metrics := foldl parse_line ∅ (splitlines payload).

Definition feqb (a b : flt) : bool := bool_decide (SFcompare a b = Some Eq).

(** [metrics.get(name, default)]; [metrics.get(name) != x] is true without the name. *)
Definition mget (m : metrics) (name : string) (dflt : Z) : flt := default (fz dflt) (m !! name).
Definition differs (m : metrics) (name : string) (x : Z) : bool :=
  match m !! name with Some f => negb (feqb f (fz x)) | None => true end.

Definition err_if (b : bool) (error : string) : list string := if b then [error] else [].

Definition missing_errors (m : metrics) (names : list string) : list string :=
  n ← names; err_if (bool_decide (m !! n = None)) ("missing:" +:+ n).
Definition nonzero_errors (m : metrics) (names : list string) : list string :=
  n ← names; err_if (match m !! n with Some f => negb (feqb f (fz 0)) | None => false end) ("nonzero:" +:+ n).

(** [a <= b] and [a < b] with an integer constant on either side *)
Definition above (m : metrics) (name : string) (bound : Z) : bool := fltb (fz bound) (mget m name 0).
Definition milli (n : Z) : flt := float_of_dec false n (-3).

Definition base_errors (m : metrics) : list string :=
  missing_errors m REQUIRED_METRICS
  ++ err_if (differs m "kairos_persistence_up" 1) "persistence_unavailable"
  ++ err_if (differs m "kairos_redis_up" 1) "redis_unavailable"
  ++ nonzero_errors m ZERO_REQUIRED
  ++ err_if (fltb MAX_OUTBOX_AGE_SECONDS (mget m "kairos_outbox_oldest_age_seconds" 0)) "outbox_backlog_stale".

Definition bps_gauges : list string :=
  ["kairos_venue_p95_abs_basis_bps"; "kairos_venue_p95_spread_bps"; "kairos_venue_p95_slippage_bps";
   "kairos_execution_p95_shortfall_bps"].
Definition ms_gauges : list (string * Z) :=
  [("kairos_venue_max_book_age_ms", 5000); ("kairos_venue_max_timestamp_skew_ms", 2000);
   ("kairos_venue_p95_latency_ms", 5000)].

(** [not 0 <= metrics.get(name, -1.0) <= 60] *)
Definition stale (m : metrics) (name : string) : bool :=
  let age := mget m name (-1) in negb (fleb (fz 0) age && fleb age (fz 60)).

Definition market_errors (m : metrics) : list string :=
  err_if (fltb (mget m "kairos_venue_measurements_24h" 0) (fz 1)) "venue_measurements_missing"
  ++ err_if (negb (feqb (mget m "kairos_closed_bar_symbols_24h" 0) (fz 5))) "closed_bar_symbol_coverage_incomplete"
  ++ err_if (fltb (mget m "kairos_closed_bar_minimum_coverage_ratio_24h" 0) (milli 999)) "closed_bar_coverage_below_0.999"
  ++ err_if (above m "kairos_closed_bar_latest_age_seconds" 90) "closed_bar_stream_stale"
  ++ err_if (fltb (mget m "kairos_venue_availability_ratio_24h" 0) (milli 990)) "venue_availability_below_0.99"
  ++ err_if (negb (feqb (mget m "kairos_venue_poll_expected_24h" 0) (fz 14400))) "venue_poll_schedule_incomplete"
  ++ err_if (fltb (mget m "kairos_venue_poll_attempted_24h" 0)
               (fadd (mget m "kairos_venue_poll_succeeded_24h" 0) (mget m "kairos_venue_poll_failed_24h" 0)))
       "venue_poll_fact_counts_inconsistent"
  ++ err_if (above m "kairos_venue_latest_age_seconds" 60) "venue_measurement_stale"
  ++ (n ← bps_gauges; err_if (above m n 25) ("threshold:" +:+ n))
  ++ (p ← ms_gauges; err_if (above m p.1 p.2) ("threshold:" +:+ p.1)).

Definition account_errors (m : metrics) : list string :=
  let capacity := mget m "kairos_evedex_local_mutation_capacity" (-1) in
  let reserve := mget m "kairos_evedex_local_mutation_reserve" (-1) in
  let compensation := mget m "kairos_evedex_local_mutation_compensation_reserve" (-1) in
  let window := mget m "kairos_evedex_local_mutation_window_seconds" (-1) in
  let venue_observable := mget m "kairos_evedex_venue_rate_limit_observable" (-1) in
  let venue_reserve := mget m "kairos_evedex_venue_rate_limit_reserve" (-1) in
  err_if (negb (feqb (mget m "kairos_paper_recovery_blocked" 0) (fz 0))) "paper_recovery_blocked"
  ++ err_if (stale m "kairos_paper_account_latest_age_seconds") "paper_account_snapshot_stale"
  ++ err_if (above m "kairos_api_spend_month_usd" 15) "api_qualification_budget_exceeded"
  ++ err_if (stale m "kairos_execution_runtime_health_age_seconds") "execution_runtime_health_missing_or_stale"
  ++ err_if (fltb (mget m "kairos_evedex_auth_age_seconds" (-1)) (fz 0)) "evedex_auth_age_unknown"
  ++ err_if (fltb (mget m "kairos_evedex_auth_expires_in_seconds" (-1)) (fz 60)) "evedex_auth_expired_or_near_expiry"
  ++ err_if (negb (feqb capacity (fz 30)) || fltb compensation (fz 4) || fltb window (fz 60)) "evedex_mutation_budget_unsafe"
  ++ err_if (fltb reserve compensation) "evedex_compensation_reserve_exhausted"
  ++ err_if (negb (feqb venue_observable (fz 0) || feqb venue_observable (fz 1)))
       "evedex_venue_rate_limit_observability_unknown"
  ++ err_if (feqb venue_observable (fz 1) && fltb venue_reserve (fz 1)) "evedex_venue_rate_limit_exhausted".

Definition health_errors (m : metrics) (paper : bool) : list string :=
  base_errors m
  ++ (if negb paper then []
      else missing_errors m PAPER_REQUIRED_METRICS ++ nonzero_errors m PAPER_ZERO_REQUIRED
           ++ market_errors m ++ account_errors m).

(** ** The observer *)
Inductive sop :=
  | SClock                                  (* time.monotonic() *)
  | SSleep (seconds : flt)
  | SRestart (command : list string)        (* subprocess.run(command, check=True) *)
  | SFetchUrl (url : string)                (* urlopen(request, timeout=5).read() *)
  | SFetchCommand (command : list string).  (* subprocess.run(command, ...).stdout *)

Definition sres (o : sop) : Type :=
  match o with SClock => flt | SSleep _ | SRestart _ => unit | SFetchUrl _ | SFetchCommand _ => string end.

Record soak := Soak {
  so_samples : Z;
  so_healthy : Z;
  so_transport_errors : Z;
  so_restarted : bool;
  so_recovered : bool;
  so_durable_failures : gset string;
  so_last_errors : list string;
  so_hist : list (event sres);
}.
Definition soak0 (hist : list (event sres)) : soak := Soak 0 0 0 false false ∅ ["no_samples"] hist.
Definition log_s (e : event sres) (s : soak) : soak :=
  Soak (so_samples s) (so_healthy s) (so_transport_errors s) (so_restarted s) (so_recovered s) (so_durable_failures s)
    (so_last_errors s) (so_hist s ++ [e]).

Record summary := Summary {
  su_samples : Z; su_healthy_samples : Z; su_transport_errors : Z; su_restart_executed : bool;
  su_recovered_after_restart : bool; su_minimum_availability : flt; su_measured_availability : flt;
  su_paper_gate : bool; su_terminal_errors : list string;
}.

Definition to_dict (s : summary) : value := VDict [
  ("schema_version", VInt 1); ("live_orders_allowed", VBool false); ("samples", VInt (su_samples s));
  ("healthy_samples", VInt (su_healthy_samples s)); ("transport_errors", VInt (su_transport_errors s));
  ("restart_executed", VBool (su_restart_executed s)); ("recovered_after_restart", VBool (su_recovered_after_restart s));
  ("minimum_availability", VFloat (su_minimum_availability s));
  ("measured_availability", VFloat (su_measured_availability s)); ("paper_gate", VBool (su_paper_gate s));
  ("terminal_errors", VList (VStr <$> su_terminal_errors s))].

(** [a / b] of two non-negative integers, [b] positive *)
Definition int_div (a b : Z) : flt :=
  match a, b with
  | Zpos p, Zpos q => SFdiv f64_prec f64_emax (S754_finite false p 0) (S754_finite false q 0)
  | _, _ => S754_zero false
  end.

(** [f"{x:.4f}"] of a non-negative finite float *)
Definition fixed4 (f : flt) : string :=
  match float_scaled f with
  | None => EmptyString
  | Some (num, d) =>
      let a := num * 10000 in
      let q := a / 2 ^ d in
      let r := a mod 2 ^ d in
      let q := match 2 * r ?= 2 ^ d with Lt => q | Gt => q + 1 | Eq => if Z.even q then q else q + 1 end in
      let frac := dec_of_Z (q mod 10000) in
      dec_of_Z (q / 10000) +:+ "." +:+ zeros (4 - slen frac) +:+ frac
  end.

(** [urlsplit(url).scheme]: leading controls and spaces are stripped, tabs and line ends removed.
    That [urlsplit] itself raises [ValueError] for a host with unbalanced brackets
    is left to the answer of the fetch, which may be any exception. *)
Definition url_scheme (url : string) : string :=
  let url := lstrip_c (λ c, ord c <=? 32) url in
  let url := String.string_of_list_ascii
    (filter (λ c, is_any ["009"; "010"; "013"]%char c = false) (String.list_ascii_of_string url)) in
  match split_once ":" url with
  | Some ((String c _) as s, _) =>
      if (is_lower c || is_upper c) && sall (λ c, is_alnum c || is_any ["+"; "-"; "."]%char c) s then blower s
      else EmptyString
  | _ => EmptyString
  end.

(** The exceptions a failed transport may raise. *)
Definition transport_exceptions (c : exc_class) : bool :=
  bool_decide (c ∈ [OSError; FileExistsError; TimeoutError; SubprocessError]).

Section Soak.
Context (env : environment sres) (fuel : nat).
Context (metrics_url : option string) (metrics_command : option (list string)).
Context (duration_s interval_s : flt) (restart_at_s : option flt) (restart_command : option (list string)).
Context (paper : bool) (minimum_availability : flt).

Definition sask (o : sop) : M soak (sres o) := perform sres so_hist log_s env o.

Definition fetch_metrics (url : string) : M soak metrics :=
  throw_if (negb (bool_decide (url_scheme url ∈ ["http"; "https"]))) ValueError "metrics URL must use http or https";;
  data ← sask (SFetchUrl url);
  text ← liftR (utf8_decode data);
  mret (parse_metrics text).

Definition fetch_metrics_command (command : list string) : M soak metrics :=
  throw_if (bool_decide (command = [])) ValueError "metrics command must not be empty";;
  stdout ← sask (SFetchCommand command);
  mret (parse_metrics stdout).

Definition fetch : M soak metrics :=
  match metrics_url with
  | Some url => fetch_metrics url
  | None => fetch_metrics_command (default [] metrics_command)
  end.

Definition restart_if_due (elapsed : flt) : M soak unit :=
  restarted ← gets so_restarted;
  match restart_at_s with
  | Some at_s =>
      if negb restarted && fleb at_s elapsed then
        match restart_command with
        | Some ((_ :: _) as command) =>
            sask (SRestart command);;
            modify (λ s, Soak (so_samples s) (so_healthy s) (so_transport_errors s) true (so_recovered s)
                           (so_durable_failures s) (so_last_errors s) (so_hist s))
        | _ => throw ValueError "restart command is required when restart_at_s is set"
        end
      else mret tt
  | None => mret tt
  end.

(** The effect of one sample on the counters and the evidence. *)
Definition record_sample (m : metrics) (s : soak) : soak :=
  let errors := health_errors m paper in
  let irreversible : gset string := list_to_set (filter (λ e, e ∈ IRREVERSIBLE_QUALIFICATION_ERRORS) errors) in
  let good := bool_decide (_sample_availability_errors errors paper = []) in
  Soak (so_samples s + 1) (if good then so_healthy s + 1 else so_healthy s) (so_transport_errors s) (so_restarted s)
    (so_recovered s || good && so_restarted s) (so_durable_failures s ∪ irreversible) errors (so_hist s).

Definition record_transport_error (s : soak) : soak :=
  Soak (so_samples s) (so_healthy s) (so_transport_errors s + 1) (so_restarted s) (so_recovered s)
    (so_durable_failures s) ["metrics_unavailable"] (so_hist s).

Definition poll : M soak unit :=
  try_except transport_exceptions (m ← fetch; modify (record_sample m)) (λ _, modify record_transport_error).

(** [time.monotonic() - started < duration_s] *)
Definition running (started : flt) : M soak bool := now ← sask SClock; mret (fltb (fsub now started) duration_s).

Definition observe (started : flt) : M soak (option unit) :=
  now ← sask SClock;
  restart_if_due (fsub now started);;
  poll;;
  again ← running started;
  (if (again : bool) then sask (SSleep interval_s) else mret tt);;
  mret None.

Definition summarise : M soak summary :=
  s ← get;
  let total_attempts := so_samples s + so_transport_errors s in
  let measured_availability := if total_attempts =? 0 then fz 0 else int_div (so_healthy s) total_attempts in
  let durable := if fltb measured_availability minimum_availability
                 then so_durable_failures s ∪ {["availability_below_" +:+ fixed4 minimum_availability]}
                 else so_durable_failures s in
  mret (Summary (so_samples s) (so_healthy s) (so_transport_errors s) (so_restarted s)
          (if so_restarted s then so_recovered s else true) minimum_availability measured_availability paper
          (sort_str (elements (durable ∪ list_to_set (so_last_errors s))))).

Definition run_soak : M soak summary :=
  throw_if (negb (fltb (fz 0) minimum_availability && fleb minimum_availability (fz 1)))
    ValueError "minimum_availability must be in (0, 1]";;
  throw_if (Bool.eqb (bool_decide (metrics_url = None)) (bool_decide (metrics_command = None)))
    ValueError "exactly one metrics transport must be configured";;
  started ← sask SClock;
  while fuel (again ← running started; if (again : bool) then mret true else n ← gets so_samples; mret (n =? 0))
    (observe started) (mret tt);;
  summarise.
End Soak.

(** The exit status of [main]. *)
Definition exit_code (s : summary) : Z :=
  if bool_decide (su_terminal_errors s = []) && su_recovered_after_restart s then 0 else 1.
