(* ===== verification/SoakReconnectSpec.v ===== *)
(** * What a soak summary says ([SoakReconnect]) *)

From stdpp Require Import gmap strings.
From S2P Require Import Prelude PyStr Regex PyVal Json Effects SoakReconnect.

Local Open Scope string_scope.
Local Open Scope list_scope.
Local Open Scope Z_scope.

(** ** What the transport delivered *)
(** The metrics a polling event delivered; [Some None] is a failed transport. *)
Definition fetched_of (e : event sres) : option (option metrics) :=
  match e with
  | Ev (SFetchUrl _) (Ok data) =>
      match utf8_decode data with Ok text => Some (Some (parse_metrics text)) | Err _ => None end
  | Ev (SFetchCommand _) (Ok stdout) => Some (Some (parse_metrics stdout))
  | Ev (SFetchUrl _) (Err _) | Ev (SFetchCommand _) (Err _) => Some None
  | _ => None
  end.
Definition polled (h : list (event sres)) : list (option metrics) := omap fetched_of h.
Definition samples (h : list (event sres)) : list metrics := omap id (polled h).
Definition failures (h : list (event sres)) : nat := length (filter (λ o, o = None) (polled h)).
Definition is_restart (e : event sres) : bool := match e with Ev (SRestart _) _ => true | _ => false end.
Definition restarts (h : list (event sres)) : nat := length (filter (λ e, is_restart e = true) h).

Section Soak.
Context (env : environment sres).
Context (metrics_url : option string) (metrics_command : option (list string)).
Context (duration_s interval_s : flt) (restart_at_s : option flt) (restart_command : option (list string)).
Context (paper : bool) (minimum_availability : flt).

Definition available (m : metrics) : Prop := _sample_availability_errors (health_errors m paper) paper = [].
#[export] Instance available_dec m : Decision (available m) := list_eq_dec _ _.
Definition irreversible (m : metrics) : list string :=
  filter (λ e, e ∈ IRREVERSIBLE_QUALIFICATION_ERRORS) (health_errors m paper).
Definition last_verdict (l : list (option metrics)) : list string :=
  match last l with
  | None => ["no_samples"]
  | Some None => ["metrics_unavailable"]
  | Some (Some m) => health_errors m paper
  end.

(** An available sample was taken after a restart. *)
Definition recovered_in (h : list (event sres)) : Prop :=
  ∃ h1 e h2 m, h = h1 ++ e :: h2 ∧ is_restart e = true ∧ m ∈ samples h2 ∧ available m.

(** The variables of the loop are functions of the history. *)
Definition accounted (s : soak) : Prop :=
  so_samples s = Z.of_nat (length (samples (so_hist s))) ∧
  so_transport_errors s = Z.of_nat (failures (so_hist s)) ∧
  so_healthy s = Z.of_nat (length (filter available (samples (so_hist s)))) ∧
  so_durable_failures s = list_to_set (concat (irreversible <$> samples (so_hist s))) ∧
  so_last_errors s = last_verdict (polled (so_hist s)) ∧
  restarts (so_hist s) = (if so_restarted s then 1 else 0)%nat ∧
  (so_recovered s = true ↔ recovered_in (so_hist s)).

Lemma polled_app h h' : polled (h ++ h') = polled h ++ polled h'.
Proof. apply omap_app. Qed.

Lemma samples_app h h' : samples (h ++ h') = samples h ++ samples h'.
Proof. unfold samples. by rewrite polled_app, omap_app. Qed.

Lemma failures_app h h' : failures (h ++ h') = (failures h + failures h')%nat.
Proof. unfold failures. by rewrite polled_app, filter_app, length_app. Qed.

Lemma restarts_app h h' : restarts (h ++ h') = (restarts h + restarts h')%nat.
Proof. unfold restarts. by rewrite filter_app, length_app. Qed.

Lemma restarted_in h : restarts h ≠ 0%nat ↔ ∃ h1 e h2, h = h1 ++ e :: h2 ∧ is_restart e = true.
Proof.
  split.
  - intros Hn. assert (filter (λ e, is_restart e = true) h ≠ []) as Hf by (intros E; unfold restarts in Hn; by rewrite E in Hn).
    destruct (filter _ h) as [|e l] eqn:E; [done|]. assert (e ∈ filter (λ e, is_restart e = true) h) as He by (rewrite E; set_solver).
    apply list_elem_of_filter in He as [Hr (h1 & h2 & ->)%list_elem_of_split]. eauto.
  - intros (h1 & e & h2 & -> & He). rewrite restarts_app. unfold restarts at 2. rewrite filter_cons_True by done. cbn. lia.
Qed.

Lemma recovered_snoc h e : is_restart e = false →
  recovered_in (h ++ [e]) ↔
  recovered_in h ∨ ∃ m, fetched_of e = Some (Some m) ∧ available m ∧ restarts h ≠ 0%nat.
Proof.
  intros Hr. unfold recovered_in. setoid_rewrite restarted_in.
  assert (∀ m, m ∈ samples [e] ↔ fetched_of e = Some (Some m)) as Hs.
  { intros m. unfold samples, polled. cbn [omap list_omap]. destruct (fetched_of e) as [[m'|]|]; cbn; set_solver. }
  split.
  - intros (h1 & e1 & h2 & m & E & He & Hm & Ha).
    destruct h2 as [|e2 h2 _] using rev_ind; [apply app_inj_tail in E as [_ ->]; congruence|].
    rewrite app_comm_cons, app_assoc in E. apply app_inj_tail in E as [-> ->].
    rewrite samples_app, elem_of_app, Hs in Hm. destruct Hm as [Hm|Hm]; [left|right]; naive_solver.
  - intros [(h1 & e1 & h2 & m & -> & He & Hm & Ha)|(m & Hf & Ha & h1 & e1 & h2 & -> & He)].
    + exists h1, e1, (h2 ++ [e]), m. rewrite <- app_assoc. split_and!; try done. rewrite samples_app. set_solver.
    + exists h1, e1, (h2 ++ [e]), m. rewrite <- app_assoc. split_and!; try done. rewrite samples_app, elem_of_app, Hs. by right.
Qed.

Lemma unpolled e : fetched_of e = None → polled [e] = [] ∧ samples [e] = [] ∧ failures [e] = 0%nat.
Proof. intros Hf. unfold failures, samples, polled. cbn [omap list_omap]. by rewrite Hf. Qed.

(** An event that polls nothing and restarts nothing. *)
Lemma accounted_quiet e s : fetched_of e = None → is_restart e = false → accounted s → accounted (log_s e s).
Proof.
  intros Hf Hr (H1 & H2 & H3 & H4 & H5 & H6 & H7). unfold accounted. cbn [log_s so_samples so_transport_errors so_healthy
    so_durable_failures so_last_errors so_restarted so_recovered so_hist].
  rewrite recovered_snoc, Hf by done.
  destruct (unpolled e Hf) as (Ep & Es & Ef).
  rewrite samples_app, polled_app, failures_app, restarts_app, Ep, Es, Ef.
  unfold restarts at 2. cbn [filter list_filter]. rewrite decide_False by congruence. rewrite !app_nil_r, !Nat.add_0_r. split_and!; try done. rewrite H7. naive_solver.
Qed.

Lemma sask_run o s r s' : sask env o s = (r, s') → ∃ a, r = out_of a ∧ s' = log_s (Ev o a) s.
Proof. unfold sask, perform. intros [= <- <-]. by eexists. Qed.

Lemma sask_quiet o : (∀ a, fetched_of (Ev o a) = None ∧ is_restart (Ev o a) = false) → keeps accounted (sask env o).
Proof. intros Ho s Hs. cbn. destruct (Ho (env (so_hist s) o)). by apply accounted_quiet. Qed.

Lemma sask_accounted o s r s' :
  (∀ a, fetched_of (Ev o a) = None ∧ is_restart (Ev o a) = false) → sask env o s = (Ret r, s') → accounted s → accounted s'.
Proof. intros Ho E Hs. pose proof (sask_quiet o Ho s Hs) as Hk. by rewrite E in Hk. Qed.

Definition record (o : option metrics) : soak → soak :=
  match o with Some m => record_sample paper m | None => record_transport_error end.

Lemma poll_run s u s' :
  poll env metrics_url metrics_command paper s = (Ret u, s') →
  ∃ e o, fetched_of e = Some o ∧ is_restart e = false ∧ s' = record o (log_s e s).
Proof.
  unfold poll, try_except. intros H.
  match type of H with (match ?m with _ => _ end) = _ => destruct m as [[u'|x|] s1] eqn:E end; [| |done].
  - injection H as _ <-. apply bind_Ret in E as (m & s2 & Hf & Hm). apply modify_Ret in Hm as ->.
    unfold fetch in Hf. destruct metrics_url as [url|].
    + unfold fetch_metrics in Hf. run_inv Hf.
      apply (sask_run (SFetchUrl url)) in Hrun0 as ([data|x] & Ha & ->); [|discriminate Ha].
      injection Ha as ->. exists (Ev (SFetchUrl url) (Ok data)), (Some (parse_metrics a1)).
      cbn [fetched_of]. by rewrite Hrun1.
    + unfold fetch_metrics_command in Hf. run_inv Hf.
      apply (sask_run (SFetchCommand _)) in Hrun0 as ([data|x] & Ha & ->); [|discriminate Ha].
      injection Ha as ->. by eexists (Ev (SFetchCommand _) (Ok data)), (Some (parse_metrics data)).
  - destruct (transport_exceptions (exc_cls x)) eqn:Ht; [|done]. apply modify_Ret in H as ->.
    unfold fetch in E. destruct metrics_url as [url|].
    + unfold fetch_metrics, throw_if, mbind, M_bind, liftR, sask, perform in E.
      destruct (raise_if _ _ _) as [[]|y] eqn:Er; cbn in E.
      * destruct (env (so_hist s) (SFetchUrl url)) as [data|y] eqn:Ea; cbn in E.
        -- destruct (utf8_decode data) as [text|y] eqn:Ed; cbn in E; [done|]. injection E as -> <-.
           unfold utf8_decode in Ed. destruct (utf8_ok data); [done|]. injection Ed as <-. done.
        -- injection E as -> <-. by exists (Ev (SFetchUrl url) (Err x)), None.
      * injection E as -> <-. apply raise_if_Err in Er as [_ ->]. done.
    + unfold fetch_metrics_command, throw_if, mbind, M_bind, liftR, sask, perform in E.
      destruct (raise_if _ _ _) as [[]|y] eqn:Er; cbn in E.
      * destruct (env (so_hist s) _) as [data|y] eqn:Ea; cbn in E; [done|]. injection E as -> <-. by eexists (Ev (SFetchCommand _) (Err x)), None.
      * injection E as -> <-. apply raise_if_Err in Er as [_ ->]. done.
Qed.

Lemma accounted_record e o s :
  fetched_of e = Some o → is_restart e = false → accounted s → accounted (record o (log_s e s)).
Proof.
  intros Hf Hr (H1 & H2 & H3 & H4 & H5 & H6 & H7).
  assert (restarts (so_hist s) ≠ 0%nat ↔ so_restarted s = true) as Hrs by (rewrite H6; destruct (so_restarted s); naive_solver).
  assert (polled [e] = [o]) as Hp by (unfold polled; cbn [omap list_omap]; by rewrite Hf).
  assert (restarts [e] = 0%nat) as Hre.
  { unfold restarts. cbn [filter list_filter]. by rewrite decide_False by congruence. }
  assert (so_hist (record o (log_s e s)) = so_hist s ++ [e]) as Hh by (by destruct o).
  assert (recovered_in (so_hist s ++ [e]) ↔
          so_recovered s = true ∨ ∃ m, o = Some m ∧ available m ∧ so_restarted s = true) as Hrec.
  { rewrite recovered_snoc, Hf, <- H7 by done. setoid_rewrite Hrs. naive_solver. }
  unfold accounted. rewrite Hh, Hrec, samples_app, polled_app, failures_app, restarts_app, Hp, Hre, Nat.add_0_r.
  unfold samples at 2 4 6. unfold failures at 2. rewrite Hp. unfold last_verdict. rewrite last_snoc.
  destruct o as [m|]; cbn [omap list_omap id filter list_filter record].
  - rewrite decide_False by done. unfold record_sample. cbn [so_samples so_transport_errors so_healthy
      so_durable_failures so_last_errors so_restarted so_recovered so_hist log_s].
    rewrite fmap_app, concat_app, list_to_set_app_L, filter_app, !length_app. cbn [fmap list_fmap concat length].
    rewrite app_nil_r, filter_cons, filter_nil. fold (available m). unfold irreversible at 2. rewrite <- H4.
    destruct (decide (available m)) as [Ha|Ha]; [rewrite (bool_decide_true _ Ha)|rewrite (bool_decide_false _ Ha)];
      cbn [length andb]; split_and!; try (done || lia); rewrite orb_true_iff; naive_solver.
  - rewrite decide_True by done. unfold record_transport_error. cbn [so_samples so_transport_errors so_healthy
      so_durable_failures so_last_errors so_restarted so_recovered so_hist log_s length].
    rewrite !app_nil_r. split_and!; try (done || lia). naive_solver.
Qed.

Lemma accounted_start h : polled h = [] → restarts h = 0%nat → accounted (soak0 h).
Proof.
  intros Hp Hr. unfold accounted, soak0. cbn [so_samples so_transport_errors so_healthy
    so_durable_failures so_last_errors so_restarted so_recovered so_hist].
  unfold samples, failures. rewrite Hp, Hr. split_and!; try done.
  split; [done|]. intros (h1 & e & h2 & m & -> & He & _). exfalso. revert Hr.
  rewrite restarts_app. unfold restarts at 2. rewrite filter_cons_True by done. cbn. lia.
Qed.

Lemma accounted_restart c s : so_restarted s = false → accounted s →
  accounted (Soak (so_samples s) (so_healthy s) (so_transport_errors s) true (so_recovered s) (so_durable_failures s)
               (so_last_errors s) (so_hist s ++ [Ev (SRestart c) (Ok tt)])).
Proof.
  intros Hn (H1 & H2 & H3 & H4 & H5 & H6 & H7). unfold accounted. cbn [so_samples so_transport_errors so_healthy
    so_durable_failures so_last_errors so_restarted so_recovered so_hist].
  rewrite Hn in H6.
  assert (¬ ∃ h1 e h2, so_hist s = h1 ++ e :: h2 ∧ is_restart e = true) as Hno by (rewrite <- restarted_in; lia).
  destruct (unpolled (Ev (SRestart c) (Ok tt)) eq_refl) as (Ep & Es & Ef).
  rewrite samples_app, polled_app, failures_app, restarts_app, Ep, Es, Ef, !app_nil_r, H6, Nat.add_0_r. split_and!; try done.
  rewrite H7. split; intros (h1 & e & h2 & m & E & He & Hm & Ha); exfalso; [apply Hno; eauto|].
  destruct h2 as [|e2 h2 _] using rev_ind.
  - unfold samples, polled in Hm. cbn in Hm. by apply elem_of_nil in Hm.
  - rewrite app_comm_cons, app_assoc in E. apply app_inj_tail in E as [E _]. apply Hno. eauto.
Qed.

Lemma restart_if_due_accounted elapsed s u s' :
  restart_if_due env restart_at_s restart_command elapsed s = (Ret u, s') → accounted s → accounted s'.
Proof.
  intros H Hs. unfold restart_if_due in H. run_inv H. destruct restart_at_s as [at_s|]; [|by run_inv H].
  destruct (negb _ && _) eqn:Er; [|by run_inv H].
  destruct restart_command as [[|c cs]|]; [by apply throw_Ret in H| |by apply throw_Ret in H].
  run_inv H. apply (sask_run (SRestart (c :: cs))) in Hrun as ([[]|x] & Ha & ->); [|discriminate Ha].
  apply (accounted_restart _ s); [|done]. by destruct (so_restarted _).
Qed.

Lemma observe_accounted started s r s' :
  observe env metrics_url metrics_command duration_s interval_s restart_at_s restart_command paper started s = (Ret r, s') →
  accounted s → r = None ∧ accounted s'.
Proof.
  intros H Hs. unfold observe, running in H. run_inv H.
  apply (sask_accounted SClock) in Hrun; [|done|done].
  apply restart_if_due_accounted in Hrun0; [|done].
  apply poll_run in Hrun1 as (e & o & Hf & Hr & ->).
  apply (accounted_record e o _ Hf Hr) in Hrun0.
  apply (sask_accounted SClock) in Hrun3; [|done|done].
  split; [done|]. destruct (fltb _ _); run_inv Hrun2; [|done].
  by apply (sask_accounted (SSleep interval_s)) in Hrun2.
Qed.

(** What a run that returns leaves: an accounted state with a sample, which the summary reads. *)
Lemma run_soak_run fuel s su s' :
  run_soak env fuel metrics_url metrics_command duration_s interval_s restart_at_s restart_command paper
    minimum_availability s = (Ret su, s') → accounted s →
  accounted s' ∧ so_samples s' ≠ 0 ∧ summarise paper minimum_availability s' = (Ret su, s').
Proof.
  unfold run_soak. intros H Hs. run_inv H.
  apply (sask_accounted SClock) in Hrun1; [|done|done].
  assert (accounted s1 ∧ so_samples s1 ≠ 0) as [H1 Hn].
  { refine (ends_run _ (λ _ s, accounted s ∧ so_samples s ≠ 0) _ _ _ _ _ Hrun1 Hrun2). clear.
    apply (while_cond_ends _ accounted (λ s, accounted s ∧ so_samples s ≠ 0)); apply post_ends.
    - intros s b s' H1 H. unfold running in H. run_inv H.
      apply (sask_accounted SClock) in Hrun0; [|done|done].
      destruct (fltb _ _); run_inv H; [done|]. by destruct (so_samples _ =? 0) eqn:Hz; [|apply Z.eqb_neq in Hz].
    - intros s r s' H1 H. apply observe_accounted in H as [-> H]; done.
    - intros s u s' H1 H. by run_inv H. }
  assert (s' = s1) as -> by (revert H; unfold summarise; by intros [= _ <-]). done.
Qed.
End Soak.

(** ** The summary *)
Lemma elem_of_irreversible_samples paper (l : list metrics) e :
  e ∈ (list_to_set (concat (irreversible paper <$> l)) : gset string) ↔
  e ∈ IRREVERSIBLE_QUALIFICATION_ERRORS ∧ ∃ m, m ∈ l ∧ e ∈ health_errors m paper.
Proof.
  rewrite elem_of_list_to_set, list_elem_of_In, in_concat. setoid_rewrite <- list_elem_of_In.
  setoid_rewrite list_elem_of_fmap. unfold irreversible. split.
  - intros (x & (m & -> & Hm) & [Hi He]%list_elem_of_filter). eauto.
  - intros (Hi & m & Hm & He). exists (filter (λ e, e ∈ IRREVERSIBLE_QUALIFICATION_ERRORS) (health_errors m paper)).
    split; [eauto|]. by apply list_elem_of_filter.
Qed.

(** The availability a history shows: healthy samples over attempts. *)
Definition availability (paper : bool) (h : list (event sres)) : flt :=
  let attempts := Z.of_nat (length (polled h)) in
  if attempts =? 0 then fz 0 else int_div (Z.of_nat (length (filter (available paper) (samples h)))) attempts.

Lemma polled_count h : Z.of_nat (length (polled h)) = Z.of_nat (length (samples h)) + Z.of_nat (failures h).
Proof.
  unfold samples, failures. induction (polled h) as [|[m|] l IH]; [done| |].
  - rewrite filter_cons_False by done. cbn. lia.
  - rewrite filter_cons_True by done. cbn. lia.
Qed.

Lemma summarise_spec paper minimum_availability s su :
  accounted paper s → summarise paper minimum_availability s = (Ret su, s) →
  su_measured_availability su = availability paper (so_hist s) ∧
  ∀ e, e ∈ su_terminal_errors su ↔
    (e ∈ IRREVERSIBLE_QUALIFICATION_ERRORS ∧ ∃ m, m ∈ samples (so_hist s) ∧ e ∈ health_errors m paper) ∨
    e ∈ last_verdict paper (polled (so_hist s)) ∨
    (fltb (availability paper (so_hist s)) minimum_availability = true ∧
     e = "availability_below_" +:+ fixed4 minimum_availability).
Proof.
  intros (H1 & H2 & H3 & H4 & H5 & H6 & H7). unfold summarise. intros [= <-]. cbn [su_measured_availability su_terminal_errors].
  assert (so_samples s + so_transport_errors s = Z.of_nat (length (polled (so_hist s)))) as -> by (rewrite polled_count; lia).
  rewrite H3. fold (availability paper (so_hist s)). split; [done|]. intros e.
  rewrite sort_str_perm, elem_of_elements, elem_of_union, elem_of_list_to_set, H5, <- elem_of_irreversible_samples, <- H4.
  destruct (fltb _ _); set_solver.
Qed.


(** C26. A summary says what happened.  When [run_soak] returns, its counters
    are those of the recorded polls (at least one of which was a sample), the
    restart was performed at most once and is reported exactly when it was,
    recovery means an available sample after it, and the terminal errors are
    exactly the irreversible errors of any sample, the verdict of the last poll
    and an availability below the minimum. *)
Theorem soak_summary_faithful env fuel url cmd duration_s interval_s restart_at_s restart_command paper minimum su s' :
  run_soak env fuel url cmd duration_s interval_s restart_at_s restart_command paper minimum (soak0 []) = (Ret su, s') →
  let h := so_hist s' in
  su_samples su = Z.of_nat (length (samples h)) ∧ 0 < su_samples su ∧
  su_transport_errors su = Z.of_nat (failures h) ∧
  su_healthy_samples su = Z.of_nat (length (filter (available paper) (samples h))) ∧
  su_measured_availability su = availability paper h ∧
  (restarts h ≤ 1)%nat ∧ (su_restart_executed su = true ↔ restarts h = 1%nat) ∧
  (su_recovered_after_restart su = true ↔ restarts h = 0%nat ∨ recovered_in paper h) ∧
  ∀ e, e ∈ su_terminal_errors su ↔
    (e ∈ IRREVERSIBLE_QUALIFICATION_ERRORS ∧ ∃ m, m ∈ samples h ∧ e ∈ health_errors m paper) ∨
    e ∈ last_verdict paper (polled h) ∨
    (fltb (availability paper h) minimum = true ∧ e = "availability_below_" +:+ fixed4 minimum).
Proof.
  intros H h. eapply run_soak_run with (paper := paper) in H as (Hacc & Hn & H); [|by apply accounted_start].
  destruct (summarise_spec _ _ _ _ Hacc H) as [Ha Ht].
  destruct Hacc as (H1 & H2 & H3 & H4 & H5 & H6 & H7). fold h in H1, H2, H3, H5, H6, H7, Ha, Ht.
  assert (su_samples su = so_samples s' ∧ su_transport_errors su = so_transport_errors s' ∧
          su_healthy_samples su = so_healthy s' ∧ su_restart_executed su = so_restarted s' ∧
          su_recovered_after_restart su = (if so_restarted s' then so_recovered s' else true)) as (-> & -> & -> & -> & ->)
    by (revert H; unfold summarise; by intros [= <-]).
  split_and!; try (done || lia).
  - destruct (so_restarted s'); lia.
  - destruct (so_restarted s'); split; (done || lia).
  - destruct (so_restarted s'); [rewrite H7; naive_solver lia|]. split; [by left|done].
Qed.

(** A zero exit status certifies the run: the last poll was a sample
    without any health error, no sample ever showed an irreversible error, the
    measured availability is not below the minimum, and a performed restart was
    followed by an available sample. *)
Theorem exit_zero_qualifies env fuel url cmd duration_s interval_s restart_at_s restart_command paper minimum su s' :
  run_soak env fuel url cmd duration_s interval_s restart_at_s restart_command paper minimum (soak0 []) = (Ret su, s') →
  exit_code su = 0 →
  let h := so_hist s' in
  (∃ m, last (polled h) = Some (Some m) ∧ health_errors m paper = []) ∧
  (∀ m e, m ∈ samples h → e ∈ health_errors m paper → e ∉ IRREVERSIBLE_QUALIFICATION_ERRORS) ∧
  fltb (availability paper h) minimum = false ∧
  (restarts h = 1%nat → recovered_in paper h).
Proof.
  intros H Hx h. eapply run_soak_run with (paper := paper) in H as (Hacc & Hn & H); [|by apply accounted_start].
  destruct (summarise_spec _ _ _ _ Hacc H) as [_ Ht].
  destruct Hacc as (H1 & H2 & H3 & H4 & H5 & H6 & H7). fold h in H1, H2, H3, H5, H6, H7, Ht.
  assert (su_recovered_after_restart su = (if so_restarted s' then so_recovered s' else true)) as Hr
    by (revert H; unfold summarise; by intros [= <-]).
  unfold exit_code in Hx. rewrite Hr in Hx.
  destruct (bool_decide (su_terminal_errors su = [])) eqn:Hb; [|discriminate Hx].
  apply bool_decide_eq_true in Hb. rewrite Hb in Ht.
  assert (∀ e, e ∉ last_verdict paper (polled h)) as Hl by (intros e He; apply (not_elem_of_nil e), Ht; auto).
  split_and!.
  - unfold last_verdict in Hl. destruct (last (polled h)) as [[m|]|] eqn:El.
    + exists m. split; [done|]. by apply elem_of_nil_inv.
    + by destruct (Hl "metrics_unavailable"); left.
    + by destruct (Hl "no_samples"); left.
  - intros m e Hm He Hi. apply (not_elem_of_nil e), Ht. left. eauto.
  - destruct (fltb _ _) eqn:Ef; [|done]. exfalso.
    apply (not_elem_of_nil ("availability_below_" +:+ fixed4 minimum)), Ht. right. right. done.
  - intros Hre. apply H7. destruct (so_restarted s'); [|lia]. by destruct (so_recovered s').
Qed.

(** ** Whether the observer ends *)
Section Ends.
Context (env : environment sres).
Context (metrics_url : option string) (metrics_command : option (list string)).
Context (duration_s interval_s : flt) (restart_at_s : option flt) (restart_command : option (list string)).
Context (paper : bool) (minimum_availability : flt).

Definition transport : sop :=
  match metrics_url with Some url => SFetchUrl url | None => SFetchCommand (default [] metrics_command) end.
(** The transport is one that can be polled. *)
Definition pollable : Prop :=
  match metrics_url with
  | Some url => url_scheme url ∈ ["http"; "https"] ∧ metrics_command = None
  | None => ∃ c cs, metrics_command = Some (c :: cs)
  end.
(** A poll delivers metrics or fails with one of the handled exceptions. *)
Definition handled (h : list (event sres)) : Prop :=
  ∃ o, fetched_of (Ev transport (env h transport)) = Some o ∧
    ∀ x, env h transport = Err x → transport_exceptions (exc_cls x) = true.

Context (Hpoll : pollable) (Hh : ∀ h, handled h).
Context (Hsleep : ∀ h t, env h (SSleep t) = Ok tt).
Context (Hrestart : ∀ h c, env h (SRestart c) = Ok tt).
Context (Hcommand : restart_at_s = None ∨ ∃ c cs, restart_command = Some (c :: cs)).
Context (clock : list (event sres) → flt) (Hclock : ∀ h, env h SClock = Ok (clock h)).

Lemma poll_total s :
  ∃ o, fetched_of (Ev transport (env (so_hist s) transport)) = Some o ∧
  poll env metrics_url metrics_command paper s =
    (Ret tt, record paper o (log_s (Ev transport (env (so_hist s) transport)) s)).
Proof.
  destruct (Hh (so_hist s)) as (o & Ho & Hx). exists o. split; [done|]. revert Ho Hx Hpoll.
  unfold poll, try_except, fetch, fetch_metrics, fetch_metrics_command, transport, pollable, throw_if, mbind, M_bind,
    liftR, sask, perform, modify, mret, M_ret.
  destruct metrics_url as [url|].
  - intros Ho Hx [Hs _]. rewrite (bool_decide_true _ Hs). cbn. cbn in Ho.
    destruct (env (so_hist s) (SFetchUrl url)) as [data|x]; cbn.
    + destruct (utf8_decode data) as [text|x]; cbn; [by injection Ho as <-|done].
    + injection Ho as <-. by rewrite Hx.
  - intros Ho Hx (c & cs & ->). cbn in *. destruct (env (so_hist s) _) as [data|x]; cbn; injection Ho as <-; [done|].
    by rewrite Hx.
Qed.

Lemma sask_total o s a : env (so_hist s) o = Ok a → sask env o s = (Ret a, log_s (Ev o (Ok a)) s).
Proof. unfold sask, perform. by intros ->. Qed.

Definition is_sleep (e : event sres) : bool := match e with Ev (SSleep _) _ => true | _ => false end.
Definition sleeps (h : list (event sres)) : nat := length (filter (λ e, is_sleep e = true) h).

Lemma sleeps_app h h' : sleeps (h ++ h') = (sleeps h + sleeps h')%nat.
Proof. unfold sleeps. by rewrite filter_app, length_app. Qed.

Lemma restart_if_due_total elapsed s :
  ∃ s' l, restart_if_due env restart_at_s restart_command elapsed s = (Ret tt, s') ∧
    so_samples s' = so_samples s ∧ so_hist s' = so_hist s ++ l ∧ sleeps l = 0%nat ∧ polled l = [].
Proof.
  unfold restart_if_due. rewrite (bind_val _ _ _ (so_restarted s) s) by done.
  assert (∃ s' l, (mret tt : M soak unit) s = (Ret tt, s') ∧ so_samples s' = so_samples s ∧
    so_hist s' = so_hist s ++ l ∧ sleeps l = 0%nat ∧ polled l = []) as Hid by (exists s, []; by rewrite app_nil_r).
  destruct restart_at_s as [at_s|]; [|done]. destruct (negb _ && _); [|done].
  destruct Hcommand as [|(c & cs & ->)]; [done|].
  rewrite (bind_val _ _ _ tt _ (sask_total (SRestart (c :: cs)) _ _ (Hrestart _ _))). by eexists _, [_].
Qed.

(** At history [h] the time since the start is up. *)
Definition expired (started : flt) (h : list (event sres)) : bool := negb (fltb (fsub (clock h) started) duration_s).

(** One round of the loop: one poll, and one sleep unless the time is up. *)
Lemma observe_total started s :
  ∃ s' l l1 l2 o, observe env metrics_url metrics_command duration_s interval_s restart_at_s restart_command paper started s =
    (Ret None, s') ∧ so_hist s' = so_hist s ++ l2 ++ l ∧
    fetched_of (Ev transport (env (so_hist s ++ l1) transport)) = Some o ∧ polled (l2 ++ l) = [o] ∧
    so_samples s' = so_samples s + (match o with Some _ => 1 | None => 0 end) ∧
    sleeps l2 = 0%nat ∧ sleeps l = (if expired started (so_hist s ++ l2) then 0 else 1)%nat.
Proof.
  unfold observe. rewrite (bind_val _ _ _ _ _ (sask_total SClock _ _ (Hclock _))).
  set (s1 := log_s _ s).
  destruct (restart_if_due_total (fsub (clock (so_hist s)) started) s1) as (s2 & l2 & E2 & Hn2 & Hl2 & Hf2 & Hp2).
  rewrite (bind_val _ _ _ _ _ E2). destruct (poll_total s2) as (o & Ho & E3). rewrite (bind_val _ _ _ _ _ E3).
  set (s3 := record _ _ _). set (c := @Ev _ sres SClock (Ok (clock (so_hist s)))) in *.
  assert (so_hist s2 = so_hist s ++ (c :: l2)) as Hh2 by (rewrite Hl2; subst s1; cbn; by rewrite <- app_assoc).
  pose proof Ho as Ho'. rewrite Hh2 in Ho'. set (e := Ev transport (env (so_hist s2) transport)) in *.
  assert (so_hist s3 = so_hist s ++ (c :: l2 ++ [e])) as Hh3.
  { transitivity (so_hist s2 ++ [e]); [by destruct o|]. rewrite Hh2. by rewrite <- app_assoc. }
  assert (so_samples s3 = so_samples s + (match o with Some _ => 1 | None => 0 end)) as Hn3.
  { transitivity (so_samples s2 + (match o with Some _ => 1 | None => 0 end)); [destruct o; cbn; lia|]. by rewrite Hn2. }
  assert (sleeps (c :: l2 ++ [e]) = 0%nat) as Hs3.
  { change (c :: l2 ++ [e]) with ([c] ++ l2 ++ [e]). rewrite !sleeps_app, Hf2. subst e. unfold transport. by destruct metrics_url. }
  assert (polled (c :: l2 ++ [e]) = [o]) as Hp3.
  { change (c :: l2 ++ [e]) with ([c] ++ l2 ++ [e]). rewrite !polled_app, Hp2. unfold polled. cbn [omap list_omap]. by rewrite Ho. }
  clearbody s3. unfold running.
  rewrite (bind_val _ _ _ (fltb (fsub (clock (so_hist s3)) started) duration_s) (log_s (@Ev _ sres SClock (Ok (clock (so_hist s3)))) s3)).
  2:{ by rewrite (bind_val _ _ _ _ _ (sask_total SClock _ _ (Hclock _))). }
  destruct (fltb _ _) eqn:Et.
  - rewrite (bind_val _ _ _ _ _ (sask_total (SSleep interval_s) _ _ (Hsleep _ _))).
    eexists _, [@Ev _ sres SClock (Ok (clock (so_hist s3))); @Ev _ sres (SSleep interval_s) (Ok tt)], (c :: l2), (c :: l2 ++ [e]), o. split; [done|]. unfold expired.
    cbn [so_hist so_samples log_s]. rewrite polled_app, Hp3. rewrite Hh3 in *. rewrite Et. split_and!; try done. by rewrite <- !app_assoc.
  - eexists _, [@Ev _ sres SClock (Ok (clock (so_hist s3)))], (c :: l2), (c :: l2 ++ [e]), o. split; [done|]. unfold expired.
    cbn [so_hist so_samples log_s]. rewrite polled_app, Hp3. rewrite Hh3 in *. rewrite Et. split_and!; try done. by rewrite <- !app_assoc.
Qed.

Definition observer (fuel : nat) : M soak summary :=
  run_soak env fuel metrics_url metrics_command duration_s interval_s restart_at_s restart_command paper minimum_availability.

(** The loop of [run_soak] after [started]. *)
Definition rounds (fuel : nat) (started : flt) : M soak unit :=
  while fuel (again ← running env duration_s started; if (again : bool) then mret true else n ← gets so_samples; mret (n =? 0))
    (observe env metrics_url metrics_command duration_s interval_s restart_at_s restart_command paper started) (mret tt).

Lemma rounds_step fuel started s :
  rounds (S fuel) started s =
    (let s1 := log_s (@Ev _ sres SClock (Ok (clock (so_hist s)))) s in
     if negb (expired started (so_hist s)) || (so_samples s =? 0)
     then match observe env metrics_url metrics_command duration_s interval_s restart_at_s restart_command paper started s1 with
          | (Ret (Some b), s2) => (Ret b, s2) | (Ret None, s2) => rounds fuel started s2
          | (Exn x, s2) => (Exn x, s2) | (Fuel, s2) => (Fuel, s2) end
     else (Ret tt, s1)).
Proof.
  unfold rounds at 1. cbn [while]. fold (rounds fuel started). set (s1 := log_s _ s). unfold expired. rewrite negb_involutive.
  rewrite (bind_val _ _ _ (fltb (fsub (clock (so_hist s)) started) duration_s || (so_samples s =? 0)) s1).
  - destruct (_ || _); [|done]. unfold mbind at 1, M_bind at 1. by destruct (observe _ _ _ _ _ _ _ _ _ s1) as [[[b|]|x|] s2].
  - rewrite (bind_val _ _ _ (fltb (fsub (clock (so_hist s)) started) duration_s) s1).
    + by destruct (fltb _ _).
    + unfold running. by rewrite (bind_val _ _ _ _ _ (sask_total SClock _ _ (Hclock _))).
Qed.

Lemma observer_rounds fuel :
  fltb (fz 0) minimum_availability && fleb minimum_availability (fz 1) = true →
  observer fuel (soak0 []) =
    (rounds fuel (clock []) ≫= λ _, summarise paper minimum_availability)
      (log_s (@Ev _ sres SClock (Ok (clock []))) (soak0 [])).
Proof.
  intros Hm. unfold observer, run_soak. rewrite Hm.
  assert (Bool.eqb (bool_decide (metrics_url = None)) (bool_decide (metrics_command = None)) = false) as ->.
  { revert Hpoll. unfold pollable. destruct metrics_url; [by intros [_ ->]|by intros (c & cs & ->)]. }
  do 2 rewrite (bind_val (throw_if _ _ _) _ _ tt (soak0 [])) by done.
  by rewrite (bind_val _ _ _ _ _ (sask_total SClock _ _ (Hclock _))).
Qed.

Section Bounded.
Context (K : nat).
Let late (h : list (event sres)) : bool := expired (clock []) h.
Context (Hmono : ∀ h l, expired (clock []) h = true → expired (clock []) (h ++ l) = true).
Context (Hlate : ∀ h, (K ≤ sleeps h)%nat → expired (clock []) h = true).

Section Delivering.
Context (Hlast : ∀ h, expired (clock []) h = true → ∃ m, fetched_of (Ev transport (env h transport)) = Some (Some m)).

Lemma rounds_late fuel s : so_samples s ≠ 0 → late (so_hist s) = true → ∃ s', rounds (S fuel) (clock []) s = (Ret tt, s').
Proof. unfold late. intros Hn Hl. rewrite rounds_step, Hl. cbn. apply Z.eqb_neq in Hn as ->. eauto. Qed.

Lemma rounds_late_end fuel s :
  0 <= so_samples s → late (so_hist s) = true → ∃ s', rounds (S (S fuel)) (clock []) s = (Ret tt, s').
Proof.
  unfold late. intros Hn Hl. rewrite rounds_step. destruct (_ || _); [|eauto]. cbn zeta. set (s1 := log_s _ s).
  assert (∀ l, late (so_hist s1 ++ l) = true) as Hl1.
  { intros l. subst s1. cbn [log_s so_hist]. rewrite <- app_assoc. by apply Hmono. }
  destruct (observe_total (clock []) s1) as (s2 & l & l1 & l2 & o & E & Hh2 & Ho & _ & Hn2 & _). rewrite E.
  destruct (Hlast _ (Hl1 l1)) as [m Hm]. rewrite Ho in Hm. injection Hm as ->.
  change (so_samples s1) with (so_samples s) in Hn2.
  apply rounds_late; [lia|]. rewrite Hh2. apply Hl1.
Qed.

Lemma rounds_end fuel s :
  0 <= so_samples s → (K + 2 ≤ fuel + sleeps (so_hist s))%nat → (2 ≤ fuel)%nat →
  ∃ s', rounds fuel (clock []) s = (Ret tt, s').
Proof.
  revert s. induction fuel as [|fuel IH]; intros s Hn Hf H2; [lia|].
  destruct (late (so_hist s)) eqn:Hl.
  { destruct fuel as [|fuel]; [lia|]. by apply rounds_late_end. }
  assert (sleeps (so_hist s) < K)%nat as Hk.
  { apply Nat.nle_gt. intros Hk. apply Hlate in Hk. unfold late in Hl. congruence. }
  rewrite rounds_step. destruct (_ || _) eqn:Eg; [|eauto]. cbn zeta. set (s1 := log_s _ s).
  destruct (observe_total (clock []) s1) as (s2 & l & l1 & l2 & o & E & Hh2 & Ho & _ & Hn2 & Hs2 & Hs). rewrite E.
  change (so_samples s1) with (so_samples s) in Hn2. assert (0 <= so_samples s2) as Hn3 by (destruct o; lia).
  destruct (expired (clock []) (so_hist s1 ++ l2)) eqn:Hx.
  - destruct fuel as [|[|fuel]]; [lia|lia|]. apply rounds_late_end; [done|].
    unfold late. rewrite Hh2, app_assoc. by apply Hmono.
  - apply IH; [done| |lia]. rewrite Hh2, !sleeps_app, Hs. subst s1. cbn [log_s so_hist]. rewrite sleeps_app. lia.
Qed.
End Delivering.

(** A transport that never delivers: every round polls, none ends the loop. *)
Lemma rounds_spin (Hnever : ∀ h, fetched_of (Ev transport (env h transport)) = Some None) fuel s :
  so_samples s = 0 → (sleeps (so_hist s) ≤ K)%nat →
  ∃ s', rounds fuel (clock []) s = (Fuel, s') ∧ (sleeps (so_hist s') ≤ K)%nat ∧
    length (polled (so_hist s')) = (length (polled (so_hist s)) + fuel)%nat.
Proof.
  revert s. induction fuel as [|fuel IH]; intros s Hn Hk.
  { exists s. by split_and!. }
  rewrite rounds_step, Hn. rewrite orb_true_r. cbn zeta. set (s1 := log_s _ s).
  destruct (observe_total (clock []) s1) as (s2 & l & l1 & l2 & o & E & Hh2 & Ho & Hp & Hn2 & Hs2 & Hs). rewrite E.
  rewrite Hnever in Ho. injection Ho as <-.
  assert (sleeps (so_hist s1) = sleeps (so_hist s)) as Hs1 by (subst s1; cbn [log_s so_hist]; rewrite sleeps_app; apply Nat.add_0_r).
  assert (polled (so_hist s1) = polled (so_hist s)) as Hp1 by (subst s1; cbn [log_s so_hist]; rewrite polled_app; apply app_nil_r).
  destruct (IH s2) as (s' & E' & Hk' & Hl').
  - rewrite Hn2. subst s1. cbn [log_s so_samples]. lia.
  - rewrite Hh2, !sleeps_app, Hs1, Hs2, Hs. destruct (expired _ (so_hist s1 ++ l2)) eqn:Hx; [lia|].
    enough (¬ (K ≤ sleeps (so_hist s))%nat) by lia. intros Hc. rewrite Hlate in Hx; [done|]. rewrite sleeps_app. lia.
  - exists s'. split_and!; try done. rewrite Hl', Hh2, polled_app, Hp, Hp1, length_app. cbn. lia.
Qed.
End Bounded.
End Ends.

(** C36. The observer returns.  With a transport that polls, answers or fails
    with a handled exception, and delivers once the time is up, sleeps and
    restarts that succeed, and a clock under which the duration has passed after
    [K] sleeps and stays passed, [K + 2] rounds of fuel give a summary. *)
Theorem soak_returns env url cmd duration_s interval_s restart_at_s restart_command paper minimum clock K fuel
  (Hmin : fltb (fz 0) minimum && fleb minimum (fz 1) = true)
  (Hpoll : pollable url cmd)
  (Hh : ∀ h, handled env url cmd h)
  (Hsleep : ∀ h t, env h (SSleep t) = Ok tt)
  (Hrestart : ∀ h c, env h (SRestart c) = Ok tt)
  (Hcommand : restart_at_s = None ∨ ∃ c cs, restart_command = Some (c :: cs))
  (Hclock : ∀ h, env h SClock = Ok (clock h))
  (Hmono : ∀ h l, expired duration_s clock (clock []) h = true → expired duration_s clock (clock []) (h ++ l) = true)
  (Hlate : ∀ h, (K ≤ sleeps h)%nat → expired duration_s clock (clock []) h = true)
  (Hlast : ∀ h, expired duration_s clock (clock []) h = true →
           ∃ m, fetched_of (Ev (transport url cmd) (env h (transport url cmd))) = Some (Some m))
  (Hfuel : (K + 2 ≤ fuel)%nat) :
  ∃ su s', run_soak env fuel url cmd duration_s interval_s restart_at_s restart_command paper minimum (soak0 []) = (Ret su, s').
Proof.
  pose proof (observer_rounds env url cmd duration_s interval_s restart_at_s restart_command paper minimum Hpoll clock Hclock
    fuel Hmin) as E. unfold observer in E. rewrite E. clear E.
  destruct (rounds_end env url cmd duration_s interval_s restart_at_s restart_command paper Hpoll Hh Hsleep Hrestart Hcommand
    clock Hclock K Hmono Hlate Hlast fuel (log_s (@Ev _ sres SClock (Ok (clock []))) (soak0 []))) as [s' Hr]; [done|change (sleeps _) with 0%nat; lia|lia|].
  rewrite (bind_val _ _ _ _ _ Hr). by eexists _, _.
Qed.

(** It need not: with a transport that always fails, the loop never ends,
    because it waits for a first sample; and once the duration has passed it no
    longer sleeps between polls, so at most [K] sleeps accompany any number of
    polls. *)
Theorem soak_spins_without_a_sample env url cmd duration_s interval_s restart_at_s restart_command paper minimum clock K fuel
  (Hmin : fltb (fz 0) minimum && fleb minimum (fz 1) = true)
  (Hpoll : pollable url cmd)
  (Hh : ∀ h, handled env url cmd h)
  (Hsleep : ∀ h t, env h (SSleep t) = Ok tt)
  (Hrestart : ∀ h c, env h (SRestart c) = Ok tt)
  (Hcommand : restart_at_s = None ∨ ∃ c cs, restart_command = Some (c :: cs))
  (Hclock : ∀ h, env h SClock = Ok (clock h))
  (Hlate : ∀ h, (K ≤ sleeps h)%nat → expired duration_s clock (clock []) h = true)
  (Hnever : ∀ h, fetched_of (Ev (transport url cmd) (env h (transport url cmd))) = Some None) :
  ∃ s', run_soak env fuel url cmd duration_s interval_s restart_at_s restart_command paper minimum (soak0 []) = (Fuel, s') ∧
    length (polled (so_hist s')) = fuel ∧ (sleeps (so_hist s') ≤ K)%nat.
Proof.
  pose proof (observer_rounds env url cmd duration_s interval_s restart_at_s restart_command paper minimum Hpoll clock Hclock
    fuel Hmin) as E. unfold observer in E. rewrite E. clear E.
  destruct (rounds_spin env url cmd duration_s interval_s restart_at_s restart_command paper Hpoll Hh Hsleep Hrestart Hcommand
    clock Hclock K Hlate Hnever fuel (log_s (@Ev _ sres SClock (Ok (clock []))) (soak0 []))) as (s' & Hr & Hk & Hl); [done|change (sleeps _) with 0%nat; lia|].
  exists s'. rewrite (bind_fuel _ _ _ _ Hr). by split_and!.
Qed.

(** ** A concrete run: two sleeps of a second, a healthy runtime *)
Definition demo_clock (h : list (event sres)) : flt := if Nat.leb 2 (sleeps h) then fz 5 else fz 0.
Definition demo_payload : string :=
  foldr (λ l acc, l +:+ String "010" acc) EmptyString
    ((λ n, n +:+ " 1.0") <$> take 2 REQUIRED_METRICS ++ ["kairos_outbox_pending"]) +:+
  foldr (λ l acc, l +:+ String "010" acc) EmptyString ((λ n, n +:+ " 0") <$> drop 3 REQUIRED_METRICS).
Definition demo_env (text : option string) : environment sres := λ h o,
  match o with
  | SClock => Ok (demo_clock h)
  | SSleep _ | SRestart _ => Ok tt
  | SFetchUrl _ | SFetchCommand _ => match text with Some t => Ok t | None => raise OSError "refused" end
  end.
Abbreviation demo_run text fuel :=
  (run_soak (demo_env text) fuel (Some "http://localhost/metrics") None (fz 2) (fz 1) (Some (fz 0)) (Some ["docker"])
    false (milli 990) (soak0 [])).

Definition demo_su : option summary := match (demo_run (Some demo_payload) 4).1 with Ret su => Some su | _ => None end.

Example demo_su_ok : (λ su, (su_samples su, su_healthy_samples su, su_terminal_errors su, exit_code su)) <$> demo_su =
  Some (2, 2, [], 0).
Proof. vm_compute. reflexivity. Qed.

Lemma demo_returns : match (demo_run (Some demo_payload) 4).1 with Ret su => exit_code su = 0 | _ => False end.
Proof. vm_compute. reflexivity. Qed.

Lemma soak_summary_faithful_witness :
  match demo_run (Some demo_payload) 4 with
  | (Ret su, s') => su_samples su = Z.of_nat (length (samples (so_hist s')))
  | _ => False
  end.
Proof.
  pose proof demo_returns as Hx.
  destruct (run_soak _ _ _ _ _ _ _ _ _ _ _) as [[su|x|] s'] eqn:E; [|destruct Hx..].
  exact (proj1 (soak_summary_faithful _ _ _ _ _ _ _ _ _ _ _ _ E)).
Defined.

Lemma exit_zero_qualifies_witness :
  match demo_run (Some demo_payload) 4 with
  | (Ret su, s') => fltb (availability false (so_hist s')) (milli 990) = false
  | _ => False
  end.
Proof.
  pose proof demo_returns as Hx.
  destruct (run_soak _ _ _ _ _ _ _ _ _ _ _) as [[su|x|] s'] eqn:E; [|destruct Hx..].
  exact (proj1 (proj2 (proj2 (exit_zero_qualifies _ _ _ _ _ _ _ _ _ _ _ _ E Hx)))).
Defined.

Lemma demo_expired h : expired (fz 2) demo_clock (demo_clock []) h = Nat.leb 2 (sleeps h).
Proof. unfold expired, demo_clock. by destruct (Nat.leb 2 (sleeps h)). Qed.

Lemma demo_late h l : Nat.leb 2 (sleeps h) = true → Nat.leb 2 (sleeps (h ++ l)) = true.
Proof. rewrite sleeps_app, !Nat.leb_le. lia. Qed.

Lemma demo_delivers h :
  fetched_of (Ev (SFetchUrl "http://localhost/metrics") (demo_env (Some demo_payload) h (SFetchUrl "http://localhost/metrics")))
  = Some (Some (parse_metrics demo_payload)).
Proof.
  assert (utf8_decode demo_payload = Ok demo_payload) as E by (vm_compute; reflexivity).
  unfold fetched_of, demo_env. by rewrite E.
Qed.

Lemma soak_returns_witness : ∃ su s', demo_run (Some demo_payload) 4 = (Ret su, s').
Proof.
  apply (soak_returns (demo_env (Some demo_payload))) with (clock := demo_clock) (K := 2%nat).
  - reflexivity.
  - split; [|done]. apply (bool_decide_unpack _). vm_compute. exact I.
  - intros h. eexists. split; [apply demo_delivers|done].
  - done.
  - done.
  - right. eauto.
  - done.
  - intros h l. rewrite !demo_expired. apply demo_late.
  - intros h Hk. rewrite demo_expired. by apply Nat.leb_le.
  - intros h _. eexists. apply demo_delivers.
  - lia.
Defined.

Lemma soak_spins_without_a_sample_witness : ∃ s', demo_run None 100 = (Fuel, s') ∧ length (polled (so_hist s')) = 100%nat ∧ (sleeps (so_hist s') ≤ 2)%nat.
Proof.
  apply (soak_spins_without_a_sample (demo_env None)) with (clock := demo_clock).
  - reflexivity.
  - split; [|done]. apply (bool_decide_unpack _). vm_compute. exact I.
  - intros h. eexists. split; [vm_compute; reflexivity|]. by intros x [= <-].
  - done.
  - done.
  - right. eauto.
  - done.
  - intros h Hk. rewrite demo_expired. by apply Nat.leb_le.
  - done.
Defined.

(** ** Gauges that are not numbers
    Every comparison with NaN is false, so a NaN gauge passes the checks that
    look for a value above a bound. *)
Theorem nan_age_is_healthy :
  health_errors (<["kairos_outbox_oldest_age_seconds" := S754_nan]> (parse_metrics demo_payload)) false = [].
Proof. vm_compute. reflexivity. Qed.

(** A restart asked for after the end of the run is never performed, and the run still exits with 0. *)
Theorem late_restart_is_skipped :
  (λ su, (su_restart_executed su, su_recovered_after_restart su, exit_code su)) <$>
    match (run_soak (demo_env (Some demo_payload)) 4 (Some "http://localhost/metrics") None (fz 2) (fz 1) (Some (fz 60))
      (Some ["docker"]) false (milli 990) (soak0 [])).1 with Ret su => Some su | _ => None end = Some (false, true, 0).
Proof. vm_compute. reflexivity. Qed.
