(* ===== verification/EpochPublication.v ===== *)
(** * Publication of the outbox ([scripts/runtime_epoch_worker.py])

    [flush] sends the pending rows of [message_outbox] to the Redis stream
    through [PUBLICATION_LUA], which records every accepted message in a
    ledger, and marks the rows as published.  The database and Redis are part
    of the state; every remote call may be lost before it took effect or after
    it, as the environment decides. *)

From stdpp Require Import gmap strings.
From S2P Require Import Prelude PyStr Regex PyVal Json Effects.

Local Open Scope string_scope.
Local Open Scope list_scope.
Local Open Scope Z_scope.
Local Open Scope regex_scope.

Definition TOPIC : string := "kairos.market.closed_bar.v1".
Definition SYMBOLS : list string := ["BTCUSDT"; "ETHUSDT"; "SOLUSDT"; "BNBUSDT"; "XRPUSDT"].
Definition MINUTE : Z := 60000.
Definition MAX_BARS : Z := 150000.
Definition MAX_PENDING : Z := 100.
Definition SOURCE : string := "kairos-quant-scouts".

(** ** The outbox *)
(** The columns that never change once a row is enqueued, and those [flush] updates. *)
Record outbox_core := OutboxCore {
  ob_id : Z; ob_message_id : string; ob_topic : string; ob_payload : value; ob_payload_sha256 : string;
  ob_producer : string; ob_reconciliation_state : string; ob_dead_lettered : bool;
}.
Record outbox_row := OutboxRow { ob_core :> outbox_core; ob_published : bool; ob_attempts : Z }.

(** ** Redis: one stream and one ledger *)
Notation entry := (string * list string)%type.
Record world := World {
  w_outbox : list outbox_row;
  w_stream : list entry;
  w_ledger : gmap string string;
  w_other_dispatcher : bool;      (* another session holds the advisory lock *)
  w_step : nat;
}.
Definition set_outbox (l : list outbox_row) (w : world) : world :=
  World l (w_stream w) (w_ledger w) (w_other_dispatcher w) (w_step w).
Definition set_redis (s : list entry) (l : gmap string string) (w : world) : world :=
  World (w_outbox w) s l (w_other_dispatcher w) (w_step w).
Definition tick (w : world) : world :=
  World (w_outbox w) (w_stream w) (w_ledger w) (w_other_dispatcher w) (S (w_step w)).

Section Publication.
(** [kairos_persistence.runtime.canonical_payload]: the canonical text and its digest. *)
Context (canonical_payload : value → result (string * string)).
(** The entry id that [XADD key *] generates. *)
Context (xadd_id : list entry → string).

Definition xrange (id : string) (stream : list entry) : list entry := filter (λ e, e.1 = id) stream.

(** [PUBLICATION_LUA] on the stream [KEYS[1]] and the ledger [KEYS[2]]. *)
Definition publication_lua (message_id digest encoded : string) (w : world) : result string * world :=
  match w_ledger w !! message_id with
  | Some prior =>
      match json_loads prior with
      | Ok (VList (p1 :: ps)) =>
          if negb (py_eq p1 (VStr digest)) then (raise ResponseError "EPOCH_IDENTITY_CONFLICT", w)
          else match ps with
          | VStr id :: _ =>
              match xrange id (w_stream w) with
              | [(_, fields)] =>
                  if bool_decide (fields = ["data"; encoded]) then (Ok id, w)
                  else (raise ResponseError "EPOCH_STREAM_PAYLOAD_CONFLICT", w)
              | _ => (raise ResponseError "EPOCH_RECEIPT_WITHOUT_STREAM", w)
              end
          | _ => (raise ResponseError "ERR Error running script", w)
          end
      | _ => (raise ResponseError "ERR Error running script", w)
      end
  | None =>
      let id := xadd_id (w_stream w) in
      (Ok id, set_redis (w_stream w ++ [(id, ["data"; encoded])]) (<[message_id := pair_json digest id]> (w_ledger w)) w)
  end.

(** ** SQL *)
Fixpoint insert_by_id (r : outbox_row) (l : list outbox_row) : list outbox_row :=
  match l with
  | [] => [r]
  | x :: l' => if ob_id r <=? ob_id x then r :: l else x :: insert_by_id r l'
  end.
(** [... WHERE published_at IS NULL ORDER BY id LIMIT n] *)
Definition pending_rows (n : Z) (w : world) : list outbox_row :=
  take (Z.to_nat n) (foldr insert_by_id [] (filter (λ r, ob_published r = false) (w_outbox w))).
(** [UPDATE ... SET published_at=now(), publish_attempts=publish_attempts+1 WHERE id=$1 AND published_at IS NULL] *)
Definition mark_published (id : Z) (l : list outbox_row) : list outbox_row :=
  (λ r : outbox_row, if (ob_id r =? id) && negb (ob_published r) then OutboxRow (ob_core r) true (ob_attempts r + 1) else r) <$> l.

(** ** [flush] *)
(** What becomes of a remote call. *)
Inductive fate := FDone | FLost (e : exc) | FLate (e : exc).
Context (env : nat → fate).

Definition remote {A} (f : world → result A * world) : M world A := λ w,
  match env (w_step w) with
  | FDone => let '(r, w') := f (tick w) in (out_of r, w')
  | FLost e => (Exn e, tick w)
  | FLate e => (Exn e, (f (tick w)).2)
  end.

Definition epoch_error {A} (reason : string) : M world A := throw EpochError reason.
Definition epoch_if (b : bool) (reason : string) : M world unit := throw_if b EpochError reason.

Definition receipt_re : regex := RPlus (RChar is_digit) ⋅ RLit "-" ⋅ RPlus (RChar is_digit).

Definition row_payload (payload : value) : result value :=
  match payload with VStr text => json_loads text | v => Ok v end.

Definition not_a_bar (row : outbox_row) : bool :=
  negb (String.eqb (ob_topic row) TOPIC) || negb (String.eqb (ob_producer row) SOURCE)
  || negb (String.eqb (ob_reconciliation_state row) "NONE") || ob_dead_lettered row.

Definition flush_row (row : outbox_row) : M world unit :=
  epoch_if (not_a_bar row) "NON_BAR_OUTBOX_REJECTED";;
  payload ← liftR (row_payload (ob_payload row));
  '(encoded, digest) ← liftR (canonical_payload payload);
  conflict ← liftR (if negb (String.eqb digest (ob_payload_sha256 row)) then Ok true
                    else v ← py_get "message_id" payload; Ok (negb (py_eq v (VStr (ob_message_id row)))));
  epoch_if conflict "OUTBOX_HASH_CONFLICT";;
  receipt ← remote (publication_lua (ob_message_id row) digest encoded);
  epoch_if (negb (fullmatch receipt_re receipt)) "POSITIVE_REDIS_RECEIPT_REQUIRED";;
  remote (λ w, (Ok tt, set_outbox (mark_published (ob_id row) (w_outbox w)) w)).

Definition flush : M world Z :=
  lock ← remote (λ w, (Ok (negb (w_other_dispatcher w)), w));
  epoch_if (negb lock) "EPOCH_DISPATCHER_ALREADY_RUNNING";;
  try_finally
    (records ← remote (λ w, (Ok (pending_rows (MAX_PENDING + 1) w), w));
     epoch_if (MAX_PENDING <? Z.of_nat (length records)) "NEW_EPOCH_PENDING_CAP_EXCEEDED";;
     forM records flush_row;;
     mret (Z.of_nat (length records)))
    (remote (λ w, (Ok tt, w))).

(** ** The replay part of [verify_duplicate_delivery] *)
Definition latest_published (w : world) : option outbox_row :=
  last (foldr insert_by_id [] (filter (λ r, ob_published r = true) (w_outbox w))).

Definition xlen : M world Z := remote (λ w, (Ok (Z.of_nat (length (w_stream w))), w)).

Definition verify_replay_of (row : outbox_row) : M world unit :=
  payload ← liftR (row_payload (ob_payload row));
  '(encoded, digest) ← liftR (canonical_payload payload);
  epoch_if (negb (String.eqb digest (ob_payload_sha256 row))) "QUALIFICATION_PAYLOAD_CONFLICT";;
  length0 ← xlen;
  first ← remote (publication_lua (ob_message_id row) digest encoded);
  second ← remote (publication_lua (ob_message_id row) digest encoded);
  same ← (if negb (String.eqb first second) then mret false else length1 ← xlen; mret (length1 =? length0));
  epoch_if (negb same) "IDEMPOTENT_REDIS_ACCEPTANCE_FAILED";;
  let zeros64 := sconcat (replicate 64 "0") in
  let other := if negb (String.eqb digest zeros64) then zeros64 else sconcat (replicate 64 "1") in
  accepted ← try_except (λ c, bool_decide (c = ResponseError))
    (remote (publication_lua (ob_message_id row) other encoded);; mret true)
    (λ e, epoch_if (negb (contains "EPOCH_IDENTITY_CONFLICT" (exc_msg e))) "IDENTITY_CONFLICT_NOT_ENFORCED";; mret false);
  epoch_if accepted "IDENTITY_CONFLICT_ACCEPTED".

Definition verify_replay : M world unit :=
  found ← remote (λ w, (Ok (latest_published w), w));
  match found with
  | None => epoch_error "FRESH_PUBLICATION_REQUIRED_FOR_QUALIFICATION"
  | Some row => verify_replay_of row
  end.
End Publication.
