(* ===== verification/EpochPublicationSpec.v ===== *)
(** * What publication guarantees ([EpochPublication])

    However often [flush] is cut off, the stream stays, in order and without
    repetition, the rendering of a prefix of the outbox. *)

From stdpp Require Import gmap strings sorting.
From S2P Require Import Prelude PyStr Regex PyVal Json Effects EpochPublication.

Local Open Scope string_scope.
Local Open Scope list_scope.
Local Open Scope Z_scope.

(** An entry id holds nothing that JSON escapes. *)
Lemma receipt_plain id : fullmatch receipt_re id = true → sall jplain id = true.
Proof. apply fullmatch_chars. reflexivity. Qed.

Section Publication.
Context (canonical_payload : value → result (string * string)) (xadd_id : list entry → string).
Context (Hfresh : ∀ s, xadd_id s ∉ s.*1) (Hreceipt : ∀ s, fullmatch receipt_re (xadd_id s) = true).
Context (Hdigest : ∀ p encoded digest, canonical_payload p = Ok (encoded, digest) → sall jplain digest = true).

Abbreviation lua := (publication_lua xadd_id).
Abbreviation flush_row := (flush_row canonical_payload xadd_id).
Abbreviation flush := (flush canonical_payload xadd_id).

Definition cores (w : world) : list outbox_core := ob_core <$> w_outbox w.

(** [e] carries the canonical text of the row's payload, whose digest the row holds. *)
Definition delivered (c : outbox_core) (e : entry) : Prop :=
  ∃ payload encoded, row_payload (ob_payload c) = Ok payload ∧
    canonical_payload payload = Ok (encoded, ob_payload_sha256 c) ∧ e.2 = ["data"; encoded].

Record consistent (w : world) : Prop := Consistent {
  c_sorted : StronglySorted Z.lt (ob_id <$> cores w);
  c_messages : NoDup (ob_message_id <$> cores w);
  c_receipts : Forall (λ e, fullmatch receipt_re e.1 = true) (w_stream w);
  c_ids : NoDup (w_stream w).*1;
  c_stream : Forall2 delivered (take (length (w_stream w)) (cores w)) (w_stream w);
  c_ledger : ∀ m v, w_ledger w !! m = Some v ↔
    ∃ i c e, cores w !! i = Some c ∧ w_stream w !! i = Some e ∧ ob_message_id c = m ∧
             v = pair_json (ob_payload_sha256 c) e.1;
  c_published : ∀ i r, w_outbox w !! i = Some r → ob_published r = true → (i < length (w_stream w))%nat;
}.

Lemma c_length w : consistent w → (length (w_stream w) ≤ length (cores w))%nat.
Proof. intros H. pose proof (Forall2_length _ _ _ (c_stream w H)) as Hl. rewrite length_take in Hl. lia. Qed.

Lemma cores_inj w i j c d : consistent w →
  cores w !! i = Some c → cores w !! j = Some d → ob_message_id c = ob_message_id d → i = j.
Proof.
  intros H Hi Hj E. apply (NoDup_lookup _ _ _ (ob_message_id c) (c_messages w H)); rewrite list_lookup_fmap.
  - by rewrite Hi.
  - by rewrite Hj, E.
Qed.

Lemma xrange_lookup w i e : consistent w → w_stream w !! i = Some e → xrange e.1 (w_stream w) = [e].
Proof.
  intros H He. pose proof (c_ids w H) as Hn. unfold xrange.
  apply list_elem_of_lookup_2 in He as Hin. revert Hin Hn. clear. induction (w_stream w) as [|x l IH]; [by intros ?%elem_of_nil|].
  rewrite fmap_cons, NoDup_cons. intros [->|Hin]%elem_of_cons [Hx Hn].
  - rewrite filter_cons_True by done. f_equal. destruct (filter _ l) as [|y k] eqn:E; [done|]. exfalso.
    assert (y ∈ filter (λ e, e.1 = x.1) l) as Hy by (rewrite E; by left).
    apply list_elem_of_filter in Hy as [Hyx Hy]. apply Hx. rewrite <- Hyx. by apply list_elem_of_fmap_2.
  - rewrite filter_cons_False; [by apply IH|]. intros E. apply Hx. rewrite E. by apply list_elem_of_fmap_2.
Qed.

Lemma lookup_stream_delivered w i c e : consistent w → cores w !! i = Some c → w_stream w !! i = Some e → delivered c e.
Proof.
  intros H Hc He. eapply Forall2_lookup_lr; [exact (c_stream w H)| |exact He].
  rewrite lookup_take_lt; [done|]. by eapply lookup_lt_Some.
Qed.

(** The script on a row whose message the ledger already holds: the same receipt, no effect. *)
Lemma lua_replay w i c e payload encoded digest :
  consistent w → cores w !! i = Some c → w_stream w !! i = Some e →
  row_payload (ob_payload c) = Ok payload → canonical_payload payload = Ok (encoded, digest) →
  digest = ob_payload_sha256 c → lua (ob_message_id c) digest encoded w = (Ok e.1, w).
Proof.
  intros H Hc He Hp Hcan ->. unfold publication_lua.
  assert (w_ledger w !! ob_message_id c = Some (pair_json (ob_payload_sha256 c) e.1)) as ->.
  { apply (c_ledger w H). by exists i, c, e. }
  destruct (lookup_stream_delivered w i c e H Hc He) as (p' & enc' & Hp' & Hcan' & Hdata).
  rewrite Hp in Hp'. injection Hp' as <-. rewrite Hcan in Hcan'. injection Hcan' as <-.
  assert (sall jplain e.1 = true) as Hpl.
  { apply receipt_plain, (Forall_lookup_1 _ _ _ _ (c_receipts w H) He). }
  rewrite json_loads_pair by eauto. cbn [py_eq]. rewrite String.eqb_refl. cbn.
  rewrite (xrange_lookup w i e H He). destruct e as [id fields]; cbn in *. by rewrite bool_decide_true.
Qed.

(** The script with another digest for a message the ledger holds: refused, no effect. *)
Lemma lua_conflict w i c e encoded digest :
  consistent w → cores w !! i = Some c → w_stream w !! i = Some e → digest ≠ ob_payload_sha256 c →
  lua (ob_message_id c) digest encoded w = (raise ResponseError "EPOCH_IDENTITY_CONFLICT", w).
Proof.
  intros H Hc He Hne. unfold publication_lua.
  assert (w_ledger w !! ob_message_id c = Some (pair_json (ob_payload_sha256 c) e.1)) as ->.
  { apply (c_ledger w H). by exists i, c, e. }
  destruct (lookup_stream_delivered w i c e H Hc He) as (p & enc & _ & Hcan & _).
  rewrite json_loads_pair.
  - cbn [py_eq]. by destruct (String.eqb_spec (ob_payload_sha256 c) digest).
  - by eapply Hdigest.
  - apply receipt_plain, (Forall_lookup_1 _ _ _ _ (c_receipts w H) He).
Qed.

(** The script on the first row whose message the ledger does not hold: one new entry. *)
Lemma lua_fresh w c payload encoded digest :
  consistent w → cores w !! length (w_stream w) = Some c →
  row_payload (ob_payload c) = Ok payload → canonical_payload payload = Ok (encoded, digest) →
  digest = ob_payload_sha256 c →
  ∃ id w', lua (ob_message_id c) digest encoded w = (Ok id, w') ∧ consistent w' ∧
    w_outbox w' = w_outbox w ∧ w_stream w' = w_stream w ++ [(id, ["data"; encoded])].
Proof.
  intros H Hc Hp Hcan Hd. unfold publication_lua.
  destruct (w_ledger w !! ob_message_id c) as [v|] eqn:El.
  { apply (c_ledger w H) in El as (i & c' & e & Hi & He & Hm & _).
    pose proof (cores_inj w _ _ _ _ H Hi Hc Hm) as ->. apply lookup_lt_Some in He. lia. }
  set (id := xadd_id (w_stream w)). set (w' := set_redis _ _ w). exists id, w'. split; [done|]. split; [|done].
  assert (cores w' = cores w) as Hcores by done.
  split; rewrite ?Hcores; try apply H.
  - cbn. apply Forall_app. split; [apply H|]. constructor; [|constructor]. apply Hreceipt.
  - cbn. rewrite fmap_app. apply NoDup_app. split_and!; [apply H| |apply NoDup_singleton].
    intros x Hx ->%list_elem_of_singleton. by apply (Hfresh (w_stream w)).
  - cbn. rewrite length_app, Nat.add_1_r. erewrite take_S_r by exact Hc.
    apply Forall2_app; [apply H|]. constructor; [|constructor]. exists payload, encoded. by subst.
  - intros m v. cbn. rewrite lookup_insert_Some, (c_ledger w H). split.
    + intros [[<- <-]|[Hne (i & c' & e & Hi & He & Hm & ->)]].
      * exists (length (w_stream w)), c, (id, ["data"; encoded]). subst digest. by rewrite list_lookup_middle.
      * exists i, c', e. split_and!; try done. by apply lookup_app_l_Some.
    + intros (i & c' & e & Hi & He & Hm & ->). apply lookup_app_Some in He as [He|[Hl He]].
      * right. split; [|by exists i, c', e]. intros E. rewrite <- Hm in E.
        pose proof (cores_inj w _ _ _ _ H Hi Hc (eq_sym E)) as ->. apply lookup_lt_Some in He. lia.
      * left. apply list_lookup_singleton_Some in He as [Hz <-].
        assert (i = length (w_stream w)) as -> by lia. rewrite Hc in Hi. injection Hi as <-. by subst.
  - intros i r Hi Hr. cbn. rewrite length_app. pose proof (c_published w H i r Hi Hr). lia.
Qed.

(** Marking a row whose message is in the stream. *)
Lemma cores_mark id w : cores (set_outbox (mark_published id (w_outbox w)) w) = cores w.
Proof.
  unfold cores, mark_published. cbn. rewrite <- list_fmap_compose. apply list_fmap_ext. intros i r _. cbn.
  by destruct (_ && _).
Qed.

Lemma mark_lookup id l i r :
  mark_published id l !! i = Some r → ∃ r0, l !! i = Some r0 ∧ ob_core r = ob_core r0 ∧
    (ob_published r = true ↔ ob_published r0 = true ∨ ob_id r0 = id).
Proof.
  unfold mark_published. rewrite list_lookup_fmap, fmap_Some. intros (r0 & -> & ->). exists r0. split; [done|].
  destruct (ob_id r0 =? id) eqn:E; cbn; [|apply Z.eqb_neq in E; naive_solver].
  apply Z.eqb_eq in E. destruct (ob_published r0) eqn:Ep; cbn; naive_solver.
Qed.

Lemma ids_inj w i j c d : consistent w →
  cores w !! i = Some c → cores w !! j = Some d → ob_id c = ob_id d → i = j.
Proof.
  intros H Hi Hj E. assert (NoDup (ob_id <$> cores w)) as Hn.
  { generalize (c_sorted w H). induction (ob_id <$> cores w) as [|x l IH]; [constructor|].
    intros [Hl Hx]%StronglySorted_inv. constructor; [|by apply IH]. intros Hin. rewrite Forall_forall in Hx.
    specialize (Hx x Hin). lia. }
  apply (NoDup_lookup _ _ _ (ob_id c) Hn); rewrite list_lookup_fmap; [by rewrite Hi|by rewrite Hj, E].
Qed.

Lemma cores_lookup w i r : w_outbox w !! i = Some r → cores w !! i = Some (ob_core r).
Proof. intros Hr. unfold cores. by rewrite list_lookup_fmap, Hr. Qed.

Lemma mark_consistent w i c :
  consistent w → cores w !! i = Some c → (i < length (w_stream w))%nat →
  consistent (set_outbox (mark_published (ob_id c) (w_outbox w)) w).
Proof.
  intros H Hc Hi. split; rewrite ?cores_mark; try apply H. intros j r Hj Hr. cbn in Hj.
  apply mark_lookup in Hj as (r0 & Hj & _ & Hp). apply Hp in Hr as [Hr|Hr]; [by apply (c_published w H j r0)|].
  pose proof (ids_inj w j i _ _ H (cores_lookup w j r0 Hj) Hc Hr) as ->. done.
Qed.

(** ** One row *)
Definition published (w : world) (i : nat) : Prop := ∃ r, w_outbox w !! i = Some r ∧ ob_published r = true.

(** [w] is consistent, has the rows [cs] and at most [n] entries, and the rows [ps] are published. *)
Definition extends (cs : list outbox_core) (n : nat) (ps : list nat) (w : world) : Prop :=
  consistent w ∧ cores w = cs ∧ (length (w_stream w) ≤ n)%nat ∧ Forall (published w) ps.

Lemma consistent_tick w : consistent w → consistent (tick w).
Proof. intros [? ? ? ? ? ? ?]. by split. Qed.

Lemma remote_ends {A} env (f : world → result A * world) P (QR : A → world → Prop) (QE : world → Prop) :
  (∀ w, P w → P (tick w)) → (∀ w, P w → QE w) →
  (∀ w a w', P w → f w = (Ok a, w') → QR a w' ∧ QE w') →
  (∀ w e w', P w → f w = (Err e, w') → QE w') →
  post P (remote env f) (ends QR QE).
Proof.
  intros Ht HE Hok Herr w Hw. unfold remote. specialize (Ht w Hw).
  destruct (env (w_step w)) as [|e|e]; [|by apply HE|]; destruct (f (tick w)) as [[a|x] w'] eqn:E; cbn.
  - exact (proj1 (Hok _ _ _ Ht E)).
  - exact (Herr _ _ _ Ht E).
  - exact (proj2 (Hok _ _ _ Ht E)).
  - exact (Herr _ _ _ Ht E).
Qed.

Lemma extends_tick cs n ps w : extends cs n ps w → extends cs n ps (tick w).
Proof. intros (H & Hc & Hn). split; [by apply consistent_tick|done]. Qed.

Lemma extends_le cs n n' ps w : extends cs n ps w → (n ≤ n')%nat → extends cs n' ps w.
Proof. intros (H & Hc & Hn & Hp) Hle. split_and!; (done || lia). Qed.

Lemma lua_extends cs n ps i c payload encoded digest :
  cs !! i = Some c → row_payload (ob_payload c) = Ok payload → canonical_payload payload = Ok (encoded, digest) →
  digest = ob_payload_sha256 c →
  ∀ w, extends cs n ps w → (i ≤ n)%nat → length (w_stream w) = n →
  ∃ id w', lua (ob_message_id c) digest encoded w = (Ok id, w') ∧
    extends cs (Nat.max n (S i)) ps w' ∧ length (w_stream w') = Nat.max n (S i).
Proof.
  intros Hc Hp Hcan Hd w (H & Hcs & Hn & Hps) Hi Hl. subst cs n.
  destruct (decide (i = length (w_stream w))) as [->|Hne].
  - destruct (lua_fresh w c payload encoded digest H Hc Hp Hcan Hd) as (id & w' & E & H' & Ho & Hs).
    exists id, w'. rewrite Hs, length_app. cbn. split_and!; try (done || lia).
    unfold extends, published. rewrite Hs, length_app. cbn. unfold cores. rewrite Ho. split_and!; try (done || lia).
  - destruct (lookup_lt_is_Some_2 (w_stream w) i) as [e He]; [lia|].
    exists e.1, w. rewrite (lua_replay w i c e payload encoded digest) by done.
    split_and!; try (done || lia). unfold extends. split_and!; try (done || lia).
Qed.

Lemma mark_extends cs n ps i c w :
  cs !! i = Some c → extends cs n ps w → (i < length (w_stream w))%nat →
  extends cs n (i :: ps) (set_outbox (mark_published (ob_id c) (w_outbox w)) w).
Proof.
  intros Hc (H & Hcs & Hn & Hps) Hi. subst cs.
  assert (∀ j r, w_outbox w !! j = Some r → (j = i ∨ ob_published r = true) →
    published (set_outbox (mark_published (ob_id c) (w_outbox w)) w) j) as Hm.
  { intros j r Hj Hor. unfold published, mark_published. cbn. eexists. rewrite list_lookup_fmap, Hj. split; [done|].
    destruct Hor as [->|Hr]; [|destruct (_ && _); done].
    rewrite (cores_lookup w i r Hj) in Hc. injection Hc as <-. rewrite Z.eqb_refl. by destruct (ob_published r) eqn:E. }
  unfold extends. rewrite cores_mark. split_and!; [by eapply mark_consistent|done|done|]. constructor.
  - unfold cores in Hc. apply list_lookup_fmap_Some in Hc as (r & -> & Hr). by eapply Hm; [|left].
  - eapply Forall_impl; [exact Hps|]. intros j (r & Hj & Hr). by eapply Hm; [|right].
Qed.

Lemma flush_row_ends env cs n ps i r :
  cs !! i = Some (ob_core r) →
  (i ≤ n)%nat →
  post (λ w, extends cs n ps w ∧ length (w_stream w) = n) (flush_row env r)
    (ends (λ _ w, extends cs (Nat.max n (S i)) (i :: ps) w ∧ length (w_stream w) = Nat.max n (S i))
       (extends cs (Nat.max n (S i)) ps)).
Proof.
  intros Hc Hin.
  assert (∀ w, extends cs n ps w → extends cs (Nat.max n (S i)) ps w) as HE.
  { intros w Hw. eapply extends_le; [done|lia]. }
  unfold EpochPublication.flush_row, epoch_if.
  do 5 (eapply post_step; [apply post_liftR; intros ? ?; apply HE; tauto|]; first [intros [? ?]|intros ?]; cbn beta iota).
  rename a0 into payload, s into encoded, s0 into digest.
  eapply post_step.
  { match goal with |- post ?P _ _ =>
      assert (∀ w, P w → ∃ id w', lua (ob_message_id r) digest encoded w = (Ok id, w') ∧
        extends cs (Nat.max n (S i)) ps w' ∧ length (w_stream w') = Nat.max n (S i)) as Hlua end.
    { intros w (Hconf & Hcmp & Hcan & Hp & _ & Hw & Hi). eapply lua_extends; try done.
      apply raise_if_Ok in Hconf. subst a1. destruct (String.eqb_spec digest (ob_payload_sha256 r)); done. }
    eapply (remote_ends _ _ _ (λ _ w, extends cs (Nat.max n (S i)) ps w ∧ length (w_stream w) = Nat.max n (S i))).
    - intros w Hw. decompose [and] Hw. split_and!; try done. by apply extends_tick.
    - intros w Hw. apply HE. tauto.
    - intros w id w' Hw E. destruct (Hlua w Hw) as (id' & w1 & E' & Hw' & Hi'). rewrite E in E'. by injection E' as -> ->.
    - intros w e w' Hw E. destruct (Hlua w Hw) as (id' & w1 & E' & _). by rewrite E in E'. }
  intros receipt. eapply post_step; [apply post_liftR; tauto|]. intros u. cbn beta.
  eapply remote_ends.
  - intros w (Hr & Hw & Hi). split_and!; try done. by apply extends_tick.
  - tauto.
  - intros w [] w' (Hr & Hw & Hi) [= <-].
    pose proof (mark_extends cs _ ps i (ob_core r) w Hc Hw ltac:(lia)) as Hm. split; [done|].
    destruct Hm as (? & ? & ? & [_ ?]%Forall_cons). by split_and!.
  - intros w e w' _ [=].
Qed.

(** ** A batch *)
(** Every row of the batch has its turn when all rows before it are in the stream. *)
Fixpoint ready (cs : list outbox_core) (n : nat) (rs : list outbox_row) : Prop :=
  match rs with
  | [] => True
  | r :: rs => ∃ i, cs !! i = Some (ob_core r) ∧ (i ≤ n)%nat ∧ ready cs (Nat.max n (S i)) rs
  end.

(** The rows of the batch are published in [w]. *)
Definition all_published (rs : list outbox_row) (w : world) : Prop :=
  Forall (λ r, ∃ i, cores w !! i = Some (ob_core r) ∧ published w i) rs.

Lemma flush_rows_ends env cs rs n ps w0 :
  ready cs n rs → extends cs n ps w0 → length (w_stream w0) = n →
  ∃ n' ps' r w', forM rs (flush_row env) w0 = (r, w') ∧ extends cs n' (ps' ++ ps) w' ∧
    (r = Ret tt → Forall2 (λ r i, cs !! i = Some (ob_core r)) rs (rev ps') ∧ length (w_stream w') = n').
Proof.
  revert n ps w0; induction rs as [|r rs IH]; intros n ps w0 Hr Hw Hn.
  { exists n, [], (Ret tt), w0. cbn. split_and!; [done|done|]. intros _. split; [constructor|done]. }
  destruct Hr as (i & Hc & Hi & Hr). cbn [forM].
  pose proof (flush_row_ends env cs n ps i r Hc Hi w0 (conj Hw Hn)) as H.
  unfold mbind, M_bind. destruct (flush_row env r w0) as [[[]|e|] w1]; cbn in H.
  - destruct H as [Hw1 Hn1]. destruct (IH _ _ w1 Hr Hw1 Hn1) as (n' & ps' & r' & w' & E & Hw' & Hps).
    exists n', (ps' ++ [i]), r', w'. rewrite <- app_assoc. split_and!; [done|done|]. intros Hret.
    destruct (Hps Hret) as [Hf Hl]. split; [|done]. rewrite rev_app_distr. cbn. by constructor.
  - exists (Nat.max n (S i)), [], (Exn e), w1. split_and!; [done|done|]. done.
  - exists (Nat.max n (S i)), [], Fuel, w1. split_and!; [done|done|]. done.
Qed.

(** The rows [flush] fetches are ready. *)
Lemma insert_sorted r l : Forall (λ x, ob_id (ob_core r) < ob_id (ob_core x)) l → insert_by_id r l = r :: l.
Proof. destruct l as [|x l]; [done|]. intros [Hx _]%Forall_cons. cbn. by rewrite (proj2 (Z.leb_le _ _)) by lia. Qed.

Lemma sort_sorted (l : list outbox_row) :
  StronglySorted Z.lt ((λ r : outbox_row, ob_id r) <$> l) → foldr insert_by_id [] l = l.
Proof.
  induction l as [|r l IH]; [done|]. rewrite fmap_cons. intros [Hs Hr]%StronglySorted_inv. cbn. rewrite IH by done.
  apply insert_sorted. rewrite Forall_fmap in Hr. exact Hr.
Qed.

Lemma sorted_filter (P : outbox_row → Prop) `{∀ r, Decision (P r)} (l : list outbox_row) :
  StronglySorted Z.lt ((λ r : outbox_row, ob_id r) <$> l) →
  StronglySorted Z.lt ((λ r : outbox_row, ob_id r) <$> filter P l).
Proof.
  induction l as [|r l IH]; [done|]. rewrite fmap_cons. intros [Hs Hr]%StronglySorted_inv. rewrite filter_cons.
  destruct (decide (P r)); [|by apply IH]. rewrite fmap_cons. constructor; [by apply IH|].
  rewrite Forall_fmap in Hr |- *. rewrite Forall_forall in Hr |- *. intros x Hx%list_elem_of_filter. apply Hr, Hx.
Qed.

Lemma sorted_rows w : consistent w → StronglySorted Z.lt ((λ r : outbox_row, ob_id r) <$> w_outbox w).
Proof. intros H. pose proof (c_sorted w H) as Hs. unfold cores in Hs. by rewrite <- list_fmap_compose in Hs. Qed.

Lemma ready_filter cs n N m l pre :
  cs = ob_core <$> (pre ++ l) → (n ≤ N)%nat → (length pre ≤ N)%nat →
  (∀ i r, (pre ++ l) !! i = Some r → ob_published r = true → (i < n)%nat) →
  ready cs N (take m (filter (λ r, ob_published r = false) l)).
Proof.
  intros Hcs Hn. revert N m pre Hcs Hn; induction l as [|r l IH]; intros N m pre Hcs Hn Hpre Hp.
  { by destruct m. }
  assert ((pre ++ r :: l) !! length pre = Some r) as Hr by by apply list_lookup_middle.
  assert (pre ++ r :: l = (pre ++ [r]) ++ l) as E by by rewrite <- app_assoc.
  rewrite filter_cons. destruct (decide _) as [Hf|Hf].
  - destruct m as [|m]; [done|]. cbn [take ready]. exists (length pre). split_and!; [by rewrite Hcs, list_lookup_fmap, Hr|done|].
    apply (IH _ m (pre ++ [r])); [by rewrite <- E|lia|rewrite length_app; cbn; lia|by rewrite <- E].
  - apply (IH _ m (pre ++ [r])); [by rewrite <- E|done| |by rewrite <- E].
    rewrite length_app. cbn. apply Hp in Hr; [lia|]. by destruct (ob_published r).
Qed.

Lemma pending_sorted n w : consistent w →
  pending_rows n w = take (Z.to_nat n) (filter (λ r, ob_published r = false) (w_outbox w)).
Proof. intros H. unfold pending_rows. by rewrite sort_sorted by (apply sorted_filter, sorted_rows, H). Qed.

Lemma pending_ready n w : consistent w → ready (cores w) (length (w_stream w)) (pending_rows n w).
Proof.
  intros H. rewrite pending_sorted by done. apply (ready_filter _ (length (w_stream w)) _ _ _ []); [done|done|cbn; lia|].
  apply (c_published w H).
Qed.

(** ** [flush] *)
Lemma remote_pure {A} env (f : world → A) w :
  (∃ e, remote env (λ w, (Ok (f w), w)) w = (Exn e, tick w)) ∨
  remote env (λ w, (Ok (f w), w)) w = (Ret (f (tick w)), tick w).
Proof. unfold remote. destruct (env (w_step w)); eauto. Qed.

Lemma consistent_extends w : consistent w → extends (cores w) (length (w_stream w)) [] w.
Proof. intros H. split_and!; [done|done|done|constructor]. Qed.

(** What [flush] leaves when started on rows [rs]: the rows kept, and all of [rs] published if it returns. *)
Definition flushed (w0 : world) (r : out Z) (w : world) : Prop :=
  consistent w ∧ cores w = cores w0 ∧ (∀ i, published w0 i → published w i) ∧
  ∀ n, r = Ret n → let rs := pending_rows (MAX_PENDING + 1) w0 in
    n = Z.of_nat (length rs) ∧ n <= MAX_PENDING ∧
    Forall (λ r, ∃ i, cores w0 !! i = Some (ob_core r) ∧ published w i) rs.

Lemma flushed_tick w0 r w : flushed w0 r w → flushed w0 r (tick w).
Proof. intros (H & Hc & Hp & Hn). split_and!; [by apply consistent_tick|done..]. Qed.

Lemma flushed_exn w0 e r w : flushed w0 r w → flushed w0 (Exn e) w.
Proof. intros (H & Hc & Hp & Hn). by split_and!. Qed.

Lemma flushed_start e w : consistent w → flushed w (Exn e) (tick w).
Proof. intros H. split_and!; [by apply consistent_tick|done..]. Qed.

Lemma throw_if_run {A} b cls msg (f : unit → M world A) w :
  (throw_if b cls msg ≫= f) w = if b then (Exn (Exc cls msg), w) else f tt w.
Proof. unfold throw_if, raise_if, mbind, M_bind, liftR. by destruct b. Qed.

Lemma flush_batch_run env w :
  consistent w →
  let body :=
    (records ← remote env (λ w, (Ok (pending_rows (MAX_PENDING + 1) w), w));
     epoch_if (MAX_PENDING <? Z.of_nat (length records)) "NEW_EPOCH_PENDING_CAP_EXCEEDED";;
     forM records (flush_row env);; mret (Z.of_nat (length records))) in
  flushed w (body w).1 (body w).2.
Proof.
  intros Hw body. subst body. unfold epoch_if. set (rs := pending_rows (MAX_PENDING + 1) w).
  assert (consistent (tick w)) as Hw1 by by apply consistent_tick.
  destruct (remote_pure env (pending_rows (MAX_PENDING + 1)) w) as [[e E]|E].
  { unfold mbind, M_bind. rewrite E. by apply flushed_start. }
  rewrite (bind_val _ _ _ _ _ E). change (pending_rows (MAX_PENDING + 1) (tick w)) with rs. rewrite throw_if_run.
  destruct (MAX_PENDING <? Z.of_nat (length rs)) eqn:Ecap; [by apply flushed_start|]. apply Z.ltb_ge in Ecap.
  assert (∀ ps, Forall (published w) ps → ∃ n' ps' r w', forM rs (flush_row env) (tick w) = (r, w') ∧
    extends (cores w) n' (ps' ++ ps) w' ∧
    (r = Ret tt → Forall2 (λ r i, cores w !! i = Some (ob_core r)) rs (rev ps') ∧ length (w_stream w') = n')) as Hrows.
  { intros ps Hps. apply (flush_rows_ends env _ _ (length (w_stream w))); [by apply pending_ready| |done]. by split_and!. }
  destruct (Hrows []) as (n' & ps' & r & w' & E' & (Hc' & Hcs & Hn & Hps) & Hret); [constructor|].
  assert (∀ i, published w i → published w' i) as Hmono.
  { intros i Hi. destruct (Hrows [i]) as (m & ps1 & r1 & w1 & E1 & (_ & _ & _ & Hp1) & _); [by constructor|].
    rewrite E' in E1. injection E1 as <- <-. rewrite Forall_app, Forall_singleton in Hp1. apply Hp1. }
  unfold mbind, M_bind. rewrite E'. destruct r as [[]|e|]; cbn; [|by split_and!..].
  split_and!; [done|done|done|]. intros n [= <-]. split_and!; [done|done|]. destruct (Hret eq_refl) as [Hf Hl].
  rewrite app_nil_r in Hps. apply Forall_forall. intros x [j Hj]%list_elem_of_lookup.
  destruct (Forall2_lookup_l _ _ _ _ _ Hf Hj) as (i & Hi & Hx). exists i. split; [done|].
  rewrite Forall_forall in Hps. apply Hps, list_elem_of_In, in_rev, list_elem_of_In. by apply list_elem_of_lookup_2 in Hi.
Qed.

Lemma flush_run env w :
  consistent w → flushed w (flush env w).1 (flush env w).2.
Proof.
  intros Hw. unfold EpochPublication.flush.
  assert (consistent (tick w)) as Hw1 by by apply consistent_tick.
  destruct (remote_pure env (λ w, negb (w_other_dispatcher w)) w) as [[e E]|E].
  { unfold mbind, M_bind. rewrite E. by apply flushed_start. }
  rewrite (bind_val _ _ _ _ _ E). unfold epoch_if. rewrite throw_if_run.
  destruct (negb (negb _)); [by apply flushed_start|].
  pose proof (flush_batch_run env (tick w) Hw1) as Hb. cbn zeta in Hb. unfold epoch_if in Hb. unfold try_finally.
  match type of Hb with flushed _ ?t.1 _ => destruct t as [r w'] eqn:Eb end. cbn in Hb.
  assert (∀ r', r' = r ∨ (∃ e, r' = Exn e) → flushed (tick w) r' (tick w')) as Hd.
  { intros r' [->|[e ->]]; [by apply flushed_tick|]. eapply flushed_exn, flushed_tick, Hb. }
  destruct r as [n|e|]; [| |done];
    destruct (remote_pure env (λ _, tt) w') as [[e' ->]| ->]; apply Hd; eauto.
Qed.

(** ** Histories *)
(** What can happen to the database and Redis: rows are appended in order, and
    [flush] runs, is cut off anywhere, and runs again. *)
Inductive reachable : world → Prop :=
  | reach_new step other : reachable (World [] [] ∅ other step)
  | reach_enqueue w c :
      reachable w → Forall (λ d, ob_id d < ob_id c) (cores w) → ob_message_id c ∉ ob_message_id <$> cores w →
      reachable (set_outbox (w_outbox w ++ [OutboxRow c false 0]) w)
  | reach_session w other : reachable w → reachable (World (w_outbox w) (w_stream w) (w_ledger w) other (w_step w))
  | reach_flush env w r w' : reachable w → flush env w = (r, w') → reachable w'.

Lemma sorted_snoc (l : list Z) x : StronglySorted Z.lt l → Forall (λ y, y < x) l → StronglySorted Z.lt (l ++ [x]).
Proof.
  induction l as [|y l IH]; cbn; [constructor; constructor|].
  intros [Hl Hy]%StronglySorted_inv [Hyx Hx]%Forall_cons. constructor; [by apply IH|].
  apply Forall_app. split; [done|]. by constructor.
Qed.

Lemma enqueue_consistent w c :
  consistent w → Forall (λ d, ob_id d < ob_id c) (cores w) → ob_message_id c ∉ ob_message_id <$> cores w →
  consistent (set_outbox (w_outbox w ++ [OutboxRow c false 0]) w).
Proof.
  intros H Hid' Hm. pose proof (c_length w H) as Hl.
  assert (cores (set_outbox (w_outbox w ++ [OutboxRow c false 0]) w) = cores w ++ [c]) as Hc by (unfold cores; cbn; by rewrite fmap_app).
  split; rewrite ?Hc; cbn; try apply H.
  - rewrite fmap_app. apply sorted_snoc; [apply H|]. by apply Forall_fmap.
  - rewrite fmap_app. apply NoDup_app. split_and!; [apply H| |apply NoDup_singleton].
    intros x Hx ->%list_elem_of_singleton. done.
  - rewrite take_app_le by done. apply H.
  - intros m v. rewrite (c_ledger w H). split; intros (i & c' & e & Hi & He & Hm' & Hv).
    + exists i, c', e. split_and!; try done. by apply lookup_app_l_Some.
    + exists i, c', e. split_and!; try done. rewrite lookup_app_l in Hi; [done|]. apply lookup_lt_Some in He. lia.
  - intros i r Hi Hr. apply lookup_app_Some in Hi as [Hi|[_ Hi]]; [by eapply c_published|].
    by apply list_lookup_singleton_Some in Hi as [_ <-].
Qed.

Lemma reachable_consistent w : reachable w → consistent w.
Proof.
  induction 1 as [step other|w c _ IH Hid' Hm|w other _ IH|env w r w' _ IH E].
  - split; cbn; [constructor|constructor|constructor|constructor|constructor| |by intros i r [=]].
    intros m v. rewrite lookup_empty. split; [done|]. by intros (i & c & e & [=] & _).
  - by apply enqueue_consistent.
  - destruct IH. by split.
  - pose proof (flush_run env w IH) as (Hc & _). by rewrite E in Hc.
Qed.

(** ** Without faults *)
Section Clean.
Let clean : nat → fate := λ _, FDone.

(** A row [flush] accepts. *)
Definition sound (c : outbox_core) : Prop :=
  (∀ p a, not_a_bar (OutboxRow c p a) = false) ∧
  ∃ payload encoded, row_payload (ob_payload c) = Ok payload ∧
    canonical_payload payload = Ok (encoded, ob_payload_sha256 c) ∧
    py_get "message_id" payload = Ok (VStr (ob_message_id c)).

Lemma remote_clean {A} (f : world → result A * world) w a w' : f (tick w) = (Ok a, w') → remote clean f w = (Ret a, w').
Proof. unfold remote, clean. by intros ->. Qed.

Lemma liftR_run {A B} (r : result A) a (f : A → M world B) w : r = Ok a → (liftR r ≫= f) w = f a w.
Proof. by intros ->. Qed.

Lemma lua_receipt cs n ps i c payload encoded id w w' :
  cs !! i = Some c → row_payload (ob_payload c) = Ok payload →
  canonical_payload payload = Ok (encoded, ob_payload_sha256 c) →
  extends cs n ps w → (i ≤ n)%nat → length (w_stream w) = n →
  lua (ob_message_id c) (ob_payload_sha256 c) encoded w = (Ok id, w') → fullmatch receipt_re id = true.
Proof.
  intros Hc Hp Hcan (H & Hcs & Hn & Hps) Hi Hl E. subst cs n.
  destruct (decide (i = length (w_stream w))) as [->|Hne].
  - destruct (lua_fresh w c payload encoded _ H Hc Hp Hcan eq_refl) as (id' & w1 & E' & H' & _ & Hs).
    rewrite E in E'. injection E' as -> ->. pose proof (c_receipts w1 H') as Hr. rewrite Hs, Forall_app, Forall_singleton in Hr. apply Hr.
  - destruct (lookup_lt_is_Some_2 (w_stream w) i) as [e He]; [lia|].
    rewrite (lua_replay w i c e payload encoded _ H Hc He Hp Hcan eq_refl) in E. injection E as <- <-.
    apply (Forall_lookup_1 _ _ _ _ (c_receipts w H) He).
Qed.

Lemma flush_row_clean cs n ps i r w :
  cs !! i = Some (ob_core r) → (i ≤ n)%nat → sound (ob_core r) → extends cs n ps w → length (w_stream w) = n →
  ∃ w', flush_row clean r w = (Ret tt, w').
Proof.
  intros Hc Hi (Hbar & payload & encoded & Hp & Hcan & Hmid) Hw Hn.
  unfold EpochPublication.flush_row, epoch_if. rewrite throw_if_run. destruct r as [c p a]. cbn in *. rewrite Hbar.
  rewrite (liftR_run _ _ _ _ Hp), (liftR_run _ _ _ _ Hcan). rewrite String.eqb_refl. cbn [negb].
  rewrite (liftR_run _ false) by (rewrite Hmid; cbn; by rewrite String.eqb_refl). rewrite throw_if_run.
  destruct (lua_extends cs n ps i c payload encoded _ Hc Hp Hcan eq_refl (tick w)) as (id & w1 & E & _); [by apply extends_tick|done|done|].
  rewrite (bind_val _ _ _ _ _ (remote_clean _ _ _ _ E)), throw_if_run.
  rewrite (lua_receipt cs n ps i c payload encoded id (tick w) w1); [|try done..|exact E]; [|by apply extends_tick].
  cbn [negb]. eexists. by apply remote_clean.
Qed.

Lemma flush_rows_clean cs rs n ps w :
  ready cs n rs → Forall (λ r, sound (ob_core r)) rs → extends cs n ps w → length (w_stream w) = n →
  ∃ w', forM rs (flush_row clean) w = (Ret tt, w').
Proof.
  revert n ps w; induction rs as [|r rs IH]; intros n ps w Hr Hs Hw Hn; [by exists w|].
  destruct Hr as (i & Hc & Hi & Hr). apply Forall_cons in Hs as [Hs1 Hs]. cbn [forM].
  destruct (flush_row_clean cs n ps i r w Hc Hi Hs1 Hw Hn) as [w1 E].
  pose proof (flush_row_ends clean cs n ps i r Hc Hi w (conj Hw Hn)) as H. rewrite E in H. cbn in H. destruct H as [Hw1 Hn1].
  rewrite (bind_val _ _ _ _ _ E). by eapply IH.
Qed.

Lemma flush_clean w :
  consistent w → w_other_dispatcher w = false → (length (pending_rows (MAX_PENDING + 1) w) ≤ 100)%nat →
  Forall sound (cores w) → ∃ n w', flush clean w = (Ret n, w').
Proof.
  intros H Ho Hcap Hs. unfold EpochPublication.flush, epoch_if.
  erewrite bind_val by by apply remote_clean. rewrite throw_if_run. cbn. rewrite Ho. cbn.
  set (w1 := tick w). assert (consistent w1) as H1 by by apply consistent_tick.
  unfold try_finally. set (rs := pending_rows (MAX_PENDING + 1) w) in *.
  rewrite (bind_val _ _ _ rs (tick w1)) by by apply remote_clean. rewrite throw_if_run.
  assert ((MAX_PENDING <? Z.of_nat (length rs)) = false) as -> by (apply Z.ltb_ge; change MAX_PENDING with 100; lia).
  destruct (flush_rows_clean (cores w) rs (length (w_stream w)) [] (tick w1)) as [w' E].
  - by apply pending_ready.
  - apply Forall_forall. intros r Hr. rewrite Forall_forall in Hs. apply Hs, list_elem_of_fmap_2.
    subst rs. rewrite pending_sorted in Hr by done. apply list_elem_of_lookup in Hr as [i [Hr _]%lookup_take_Some].
    apply list_elem_of_lookup_2, list_elem_of_filter in Hr. apply Hr.
  - apply (consistent_extends (tick w1)). by apply consistent_tick.
  - done.
  - rewrite (bind_val _ _ _ _ _ E). cbn. eauto.
Qed.
End Clean.
End Publication.

(** C1. Publication is exactly once and in order, whatever fails.  In every
    world reachable by enqueuing rows and by flushes of which any remote call
    may be lost before or after it took effect, the entries of the stream are,
    in order, the canonical texts of the first rows of the outbox, one entry
    for each; all entry ids differ; and every row marked as published is among
    them. *)
Theorem publication_exactly_once canonical_payload xadd_id w
  (Hfresh : ∀ s, xadd_id s ∉ s.*1) (Hreceipt : ∀ s, fullmatch receipt_re (xadd_id s) = true)
  (Hdigest : ∀ p encoded digest, canonical_payload p = Ok (encoded, digest) → sall jplain digest = true)
  (Hw : reachable canonical_payload xadd_id w) :
  let n := length (w_stream w) in
  (n ≤ length (w_outbox w))%nat ∧
  Forall2 (delivered canonical_payload) (take n (cores w)) (w_stream w) ∧
  NoDup (w_stream w).*1 ∧
  (∀ i r, w_outbox w !! i = Some r → ob_published r = true → (i < n)%nat).
Proof.
  intros n. pose proof (reachable_consistent _ _ Hfresh Hreceipt Hdigest w Hw) as H.
  split_and!; try apply H. pose proof (c_length _ w H) as Hl. unfold cores in Hl. by rewrite length_fmap in Hl.
Qed.

(** A flush that returns has published everything.  If [flush] returns a
    count in a reachable world, under whatever faults before, then no lock was
    held elsewhere, the count is the number of rows that were pending, at most
    100, every row is now marked as published, and the stream holds all of them. *)
Theorem flush_publishes_all canonical_payload xadd_id env w n w'
  (Hfresh : ∀ s, xadd_id s ∉ s.*1) (Hreceipt : ∀ s, fullmatch receipt_re (xadd_id s) = true)
  (Hdigest : ∀ p encoded digest, canonical_payload p = Ok (encoded, digest) → sall jplain digest = true)
  (Hw : reachable canonical_payload xadd_id w) (Hrun : flush canonical_payload xadd_id env w = (Ret n, w')) :
  n = Z.of_nat (length (filter (λ r, ob_published r = false) (w_outbox w))) ∧ n <= 100 ∧
  cores w' = cores w ∧
  Forall (λ r, ob_published r = true) (w_outbox w') ∧
  length (w_stream w') = length (w_outbox w').
Proof.
  pose proof (reachable_consistent _ _ Hfresh Hreceipt Hdigest w Hw) as H.
  destruct (flush_run _ _ Hfresh Hreceipt Hdigest env w H) as (H' & Hc & Hmono & Hret). rewrite Hrun in *. cbn in *.
  destruct (Hret n eq_refl) as (Hn & Hcap & Hall). clear Hret. rewrite (pending_sorted canonical_payload _ w H) in Hn, Hall.
  set (unsent := filter (λ r, ob_published r = false) (w_outbox w)) in *.
  assert (take (Z.to_nat (MAX_PENDING + 1)) unsent = unsent) as Htake.
  { apply take_ge. rewrite length_take in Hn. change (Z.to_nat (MAX_PENDING + 1)) with 101%nat in *. change MAX_PENDING with 100 in *. lia. }
  rewrite Htake in Hn, Hall.
  assert (∀ i r, w_outbox w' !! i = Some r → ob_published r = true) as Hdone.
  { intros i r Hr. assert (published w' i) as (r' & Hr' & Hp); [|congruence].
    assert (cores w !! i = Some (ob_core r)) as Hcr by (rewrite <- Hc; by apply cores_lookup).
    unfold cores in Hcr. apply list_lookup_fmap_Some in Hcr as (r0 & Hcore & Hr0).
    destruct (ob_published r0) eqn:Ep; [apply Hmono; by exists r0|].
    assert (r0 ∈ unsent) as Hin by (apply list_elem_of_filter; split; [done|]; by apply list_elem_of_lookup_2 in Hr0).
    rewrite Forall_forall in Hall. destruct (Hall r0 Hin) as (j & Hj & Hp).
    assert (i = j) as -> by (eapply (cores_inj canonical_payload w); [exact H|by apply cores_lookup|exact Hj|done]). done. }
  split_and!; [done|done|done| |].
  - apply Forall_forall. intros r [i Hr]%list_elem_of_lookup. by eapply Hdone.
  - pose proof (c_length _ w' H') as Hl. unfold cores in Hl. rewrite length_fmap in Hl.
    destruct (decide (length (w_outbox w') = 0%nat)) as [Hz|Hz]; [lia|].
    destruct (lookup_lt_is_Some_2 (w_outbox w') (length (w_outbox w') - 1)) as [r Hr]; [lia|].
    pose proof (c_published _ w' H' _ r Hr (Hdone _ r Hr)). lia.
Qed.

(** Publication makes progress.  In any reachable world, whatever was lost
    before, a flush without further faults returns, provided no other session
    holds the dispatcher lock, at most 100 rows are pending, and the rows are
    bars whose payload has the recorded digest and message id. *)
Theorem clean_flush_returns canonical_payload xadd_id w
  (Hfresh : ∀ s, xadd_id s ∉ s.*1) (Hreceipt : ∀ s, fullmatch receipt_re (xadd_id s) = true)
  (Hdigest : ∀ p encoded digest, canonical_payload p = Ok (encoded, digest) → sall jplain digest = true)
  (Hw : reachable canonical_payload xadd_id w)
  (Hlock : w_other_dispatcher w = false)
  (Hcap : (length (filter (λ r, ob_published r = false) (w_outbox w)) ≤ 100)%nat)
  (Hsound : Forall (sound canonical_payload) (cores w)) :
  ∃ n w', flush canonical_payload xadd_id (λ _, FDone) w = (Ret n, w').
Proof.
  pose proof (reachable_consistent _ _ Hfresh Hreceipt Hdigest w Hw) as H.
  apply (flush_clean _ _ Hfresh Hreceipt Hdigest); [done|done| |done].
  rewrite (pending_sorted canonical_payload _ w H), length_take. lia.
Qed.

(** Replaying a receipt changes nothing and a forged digest is refused.  In
    a reachable world with a published row, the replay check of the
    qualification passes without faults and leaves the outbox, the stream and
    the ledger as they were. *)
Theorem replay_is_idempotent canonical_payload xadd_id w
  (Hfresh : ∀ s, xadd_id s ∉ s.*1) (Hreceipt : ∀ s, fullmatch receipt_re (xadd_id s) = true)
  (Hdigest : ∀ p encoded digest, canonical_payload p = Ok (encoded, digest) → sall jplain digest = true)
  (Hw : reachable canonical_payload xadd_id w)
  (Hsome : Exists (λ r, ob_published r = true) (w_outbox w)) :
  ∃ k, verify_replay canonical_payload xadd_id (λ _, FDone) w =
    (Ret tt, World (w_outbox w) (w_stream w) (w_ledger w) (w_other_dispatcher w) k).
Proof.
  pose proof (reachable_consistent _ _ Hfresh Hreceipt Hdigest w Hw) as H.
  assert (∃ i r, w_outbox w !! i = Some r ∧ ob_published r = true ∧ latest_published w = Some r) as (i & r & Hr & Hp & El).
  { unfold latest_published. rewrite sort_sorted by (apply sorted_filter, (sorted_rows canonical_payload), H).
    destruct (last (filter (λ r, ob_published r = true) (w_outbox w))) as [r|] eqn:E.
    - apply last_Some_elem_of, list_elem_of_filter in E as [Hp [i Hr]%list_elem_of_lookup]. eauto.
    - apply last_None in E. apply Exists_exists in Hsome as (r & Hr & Hp).
      assert (r ∈ filter (λ r, ob_published r = true) (w_outbox w)) as Hin by by apply list_elem_of_filter.
      rewrite E in Hin. by apply elem_of_nil in Hin. }
  destruct (lookup_lt_is_Some_2 (w_stream w) i) as [e He]; [by eapply (c_published _ w H)|].
  pose proof (cores_lookup w i r Hr) as Hc.
  destruct (lookup_stream_delivered _ w i _ e H Hc He) as (payload & encoded & Hpay & Hcan & Hdata).
  assert (∀ k, publication_lua xadd_id (ob_message_id r) (ob_payload_sha256 r) encoded
    (World (w_outbox w) (w_stream w) (w_ledger w) (w_other_dispatcher w) k) =
    (Ok e.1, World (w_outbox w) (w_stream w) (w_ledger w) (w_other_dispatcher w) k)) as Hreplay.
  { intros k. eapply (lua_replay canonical_payload xadd_id Hdigest _ i); try done. by destruct H; split. }
  assert (∀ k digest, digest ≠ ob_payload_sha256 r → publication_lua xadd_id (ob_message_id r) digest encoded
    (World (w_outbox w) (w_stream w) (w_ledger w) (w_other_dispatcher w) k) =
    (raise ResponseError "EPOCH_IDENTITY_CONFLICT",
     World (w_outbox w) (w_stream w) (w_ledger w) (w_other_dispatcher w) k)) as Hrefuse.
  { intros k digest Hne. eapply (lua_conflict canonical_payload xadd_id Hdigest _ i); try done. by destruct H; split. }
  destruct w as [ob st led other step]. cbn in *. set (at_ := World ob st led other) in *.
  unfold verify_replay. rewrite (bind_val _ _ _ (Some r) (at_ (S step))); [|apply remote_clean; cbn; by rewrite <- El].
  unfold verify_replay_of, epoch_if. rewrite (liftR_run _ _ _ _ Hpay), (liftR_run _ _ _ _ Hcan), String.eqb_refl, throw_if_run.
  cbn [negb]. rewrite (bind_val _ _ _ (Z.of_nat (length st)) (at_ (S (S step)))) by by apply remote_clean.
  rewrite (bind_val _ _ _ e.1 (at_ (S (S (S step))))) by apply remote_clean, Hreplay.
  rewrite (bind_val _ _ _ e.1 (at_ (S (S (S (S step)))))) by apply remote_clean, Hreplay.
  rewrite String.eqb_refl. cbn [negb].
  rewrite (bind_val _ _ _ true (at_ (S (S (S (S (S step))))))).
  2:{ unfold xlen. erewrite bind_val by by apply remote_clean. cbn. by rewrite Z.eqb_refl. }
  rewrite throw_if_run. cbn [negb].
  set (other_digest := if negb (String.eqb (ob_payload_sha256 r) (sconcat (replicate 64 "0"))) then _ else _).
  assert (other_digest ≠ ob_payload_sha256 r) as Hother.
  { subst other_digest. destruct (String.eqb_spec (ob_payload_sha256 r) (sconcat (replicate 64 "0"))) as [->|Hne]; cbn [negb]; [done|].
    intros E. by apply Hne. }
  rewrite (bind_val _ _ _ false (at_ (S (S (S (S (S (S step)))))))); [by eexists|].
  unfold try_except, mbind, M_bind, remote. change (tick (at_ ?k)) with (at_ (S k)). rewrite Hrefuse by done. reflexivity.
Qed.

(** ** A concrete history: a flush that loses the answer of its first script call, then a clean one *)
Definition demo_canonical (v : value) : result (string * string) :=
  text ← json_dumps compact_style v; Ok (text, dec_of_Z (slen text)).
Definition demo_xadd_id (s : list entry) : string :=
  String.string_of_list_ascii (replicate (S (sum_list_with (λ e, String.length e.1) s)) "1"%char) +:+ "-0".

Lemma demo_fresh s : demo_xadd_id s ∉ s.*1.
Proof.
  intros (e & E & He)%list_elem_of_fmap. apply (f_equal String.length) in E. revert E. unfold demo_xadd_id.
  rewrite app_length_str, <- length_list_ascii, String.list_ascii_of_string_of_list_ascii, length_replicate.
  assert (String.length e.1 ≤ sum_list_with (λ e, String.length e.1) s)%nat; [|lia].
  clear -He. induction s as [|x s IH]; [by apply elem_of_nil in He|]. cbn. apply elem_of_cons in He as [->|He]; [lia|].
  specialize (IH He). lia.
Qed.

Lemma demo_receipt s : fullmatch receipt_re (demo_xadd_id s) = true.
Proof.
  apply fullmatch_spec. unfold receipt_re, demo_xadd_id. change "-0" with ("-" +:+ "0"). rewrite app_assoc_str.
  constructor; [constructor|]; [|by apply matches_lit|by apply matches_plus_char].
  apply matches_plus_char. cbn [replicate String.string_of_list_ascii]. split; [done|]. cbn [sall].
  apply andb_true_iff. split; [done|]. by induction (sum_list_with _ _).
Qed.

Lemma demo_digest p encoded digest : demo_canonical p = Ok (encoded, digest) → sall jplain digest = true.
Proof.
  unfold demo_canonical. intros (text & _ & [= <- <-])%bind_Ok. eapply sall_impl; [|apply dec_of_Z_digits, slen_nonneg].
  intros c Hc. destruct c as [[] [] [] [] [] [] [] []]; (discriminate Hc || reflexivity).
Qed.

Definition demo_core (id : Z) (m : string) : outbox_core :=
  OutboxCore id m TOPIC (VDict [("message_id", VStr m)]) "19" SOURCE "NONE" false.
Definition demo_enqueued : world :=
  World [OutboxRow (demo_core 1 "m1") false 0; OutboxRow (demo_core 2 "m2") false 0] [] ∅ false 0.
Definition demo_faults (k : nat) : fate := match k with 2%nat => FLate (Exc TimeoutError "") | _ => FDone end.
Definition demo_lost : world := (flush demo_canonical demo_xadd_id demo_faults demo_enqueued).2.
Definition demo_sent : world := (flush demo_canonical demo_xadd_id (λ _, FDone) demo_lost).2.

Lemma demo_enqueued_reachable : reachable demo_canonical demo_xadd_id demo_enqueued.
Proof.
  apply (reach_enqueue _ _ (World [OutboxRow (demo_core 1 "m1") false 0] [] ∅ false 0) (demo_core 2 "m2")).
  - apply (reach_enqueue _ _ (World [] [] ∅ false 0) (demo_core 1 "m1")); [apply reach_new|constructor|apply not_elem_of_nil].
  - by repeat constructor.
  - by intros [[=]|?%elem_of_nil]%elem_of_cons.
Qed.

Lemma demo_lost_reachable : reachable demo_canonical demo_xadd_id demo_lost.
Proof. eapply reach_flush; [exact demo_enqueued_reachable|apply surjective_pairing]. Qed.

Lemma demo_sent_reachable : reachable demo_canonical demo_xadd_id demo_sent.
Proof. eapply reach_flush; [exact demo_lost_reachable|apply surjective_pairing]. Qed.

Example demo_lost_ok : (length (w_stream demo_lost), ob_published <$> w_outbox demo_lost) = (1%nat, [false; false]).
Proof. vm_compute. reflexivity. Qed.

Lemma demo_sent_ok : (length (w_stream demo_sent), ob_published <$> w_outbox demo_sent) = (2%nat, [true; true]).
Proof. vm_compute. reflexivity. Qed.

Lemma publication_exactly_once_witness : (1 ≤ length (w_outbox demo_lost))%nat ∧ NoDup (w_stream demo_lost).*1.
Proof.
  destruct (publication_exactly_once _ _ demo_lost demo_fresh demo_receipt demo_digest demo_lost_reachable) as (Hl & _ & Hn & _).
  split; [|exact Hn]. refine (Nat.le_trans _ _ _ _ Hl). by vm_compute.
Defined.

Lemma flush_publishes_all_witness : length (w_stream demo_sent) = length (w_outbox demo_sent).
Proof.
  destruct (flush demo_canonical demo_xadd_id (λ _, FDone) demo_lost) as [[n|e|] w'] eqn:E;
    [|exfalso; apply (f_equal (λ x, match x.1 with Ret _ => true | _ => false end)) in E; vm_compute in E; discriminate E..].
  unfold demo_sent. rewrite E.
  exact (proj2 (proj2 (proj2 (proj2 (flush_publishes_all _ _ _ _ _ _ demo_fresh demo_receipt demo_digest demo_lost_reachable E))))).
Defined.

Lemma clean_flush_returns_witness : ∃ n w', flush demo_canonical demo_xadd_id (λ _, FDone) demo_lost = (Ret n, w').
Proof.
  apply (clean_flush_returns _ _ _ demo_fresh demo_receipt demo_digest demo_lost_reachable); [by vm_compute|by vm_compute; lia|].
  assert (cores demo_lost = [demo_core 1 "m1"; demo_core 2 "m2"]) as -> by by vm_compute.
  apply Forall_cons. split; [|apply Forall_singleton]; (split; [done|]); by eexists _, _.
Defined.

Lemma replay_is_idempotent_witness : ∃ k, verify_replay demo_canonical demo_xadd_id (λ _, FDone) demo_sent =
  (Ret tt, World (w_outbox demo_sent) (w_stream demo_sent) (w_ledger demo_sent) (w_other_dispatcher demo_sent) k).
Proof.
  apply (replay_is_idempotent _ _ _ demo_fresh demo_receipt demo_digest demo_sent_reachable).
  assert (∃ l, w_outbox demo_sent = OutboxRow (demo_core 1 "m1") true 1 :: l) as [l ->] by (eexists; by vm_compute).
  by left.
Defined.
