(* ===== verification/EpochSource.v ===== *)
(** * The official source of bars ([scripts/runtime_epoch_worker.py])

    Watermarks and bounded batches, the validation of the stored chains, which
    failures of the source may be waited for, the back-off circuit, and the
    bounded fetch of one page. *)

From stdpp Require Import gmap strings.
From S2P Require Import Prelude PyStr Regex PyVal Json Effects EpochPublication.

Local Open Scope string_scope.
Local Open Scope list_scope.
Local Open Scope Z_scope.

Definition RECOVERY_PAGE_SIZE : Z := 200.
Definition FETCH_ATTEMPTS : nat := 3.
Definition FETCH_RETRY_SECONDS : list Z := [2; 4].
Definition SOURCE_WAIT_SECONDS : list Z := [5; 15; 30; 60].
Definition SOURCE_HEARTBEAT_SECONDS : Z := 5.
Definition MAX_UNPUBLISHED_CONFIRMATION_RETRIES : Z := 2.

(** What the worker reads of a [kairos_core.contracts.ClosedBarEventV1]. *)
Class ClosedBar (bar : Type) := {
  bar_symbol : bar → string;
  open_time_ms : bar → Z;
  close_time_ms : bar → Z;
  canonical_bar_bytes : bar → string;
}.

Section Bars.
Context {bar : Type} `{ClosedBar bar}.

(** ** Watermarks *)
Definition symbol_set : gset string := list_to_set SYMBOLS.
Definition watermark (b : bar) : Z := close_time_ms b + 1.
Definition watermarks (values : gmap string bar) : list Z := (λ p, watermark p.2) <$> map_to_list values.

Definition required_bars (values : gmap string bar) (end_ : Z) : result Z :=
  let intervals := (λ w, end_ - w) <$> watermarks values in
  _ ← raise_if (negb (bool_decide (dom values = symbol_set))
                || existsb (λ n, (n <? 0) || negb (n mod MINUTE =? 0)) intervals)
       EpochError "FIXED_CATCHUP_INTERVAL_REQUIRED";
  Ok (foldr (λ n acc, n / MINUTE + acc) 0 intervals).

Definition latest (values : gmap string bar) : result Z :=
  match watermarks values with [] => raise ValueError "max() arg is an empty sequence" | w :: ws => Ok (foldr Z.max w ws) end.

Definition bounded_runtime_end (values : gmap string bar) (target : value) : result Z :=
  match target with
  | VInt target =>
      _ ← raise_if (negb (bool_decide (dom values = symbol_set)) || negb (target mod MINUTE =? 0))
           EpochError "FIXED_CATCHUP_INTERVAL_REQUIRED";
      latest ← latest values;
      _ ← raise_if (target <? latest) EpochError "FINALITY_CLOCK_REGRESSION";
      baseline ← required_bars values latest;
      _ ← raise_if (MAX_PENDING <? baseline) EpochError "RUNTIME_WATERMARK_SKEW_EXCEEDS_PENDING_CAP";
      let capacity_minutes := (MAX_PENDING - baseline) / Z.of_nat (length SYMBOLS) in
      let end_ := Z.min target (latest + capacity_minutes * MINUTE) in
      needed ← required_bars values end_;
      _ ← raise_if (MAX_PENDING <? needed) EpochError "EPOCH_INTERVAL_EXCEEDS_FIXED_CAP";
      Ok end_
  | _ => raise EpochError "FIXED_CATCHUP_INTERVAL_REQUIRED"
  end.

(** ** The stored chains *)
(** One row of [ANCHORS_SQL]. *)
Record chain_row := ChainRow { cr_symbol : string; cr_n : Z; cr_u : Z; cr_lo : Z; cr_hi : Z; cr_payload : value }.

(** The columns of [event_audit] that [ANCHORS_SQL] reads; [produced_at] and
    [message_id] break ties between rows of the same open time. *)
Record audit_row := AuditRow {
  au_topic : string; au_source : string; au_symbol : string; au_open_ms : Z;
  au_produced_at : Z; au_message_id : string; au_payload : value;
}.

Definition matching (audit : list audit_row) (symbol : string) : list audit_row :=
  filter (λ a, au_topic a = TOPIC ∧ au_source a = SOURCE ∧ au_symbol a = symbol) audit.

(** [ORDER BY open_ms DESC, produced_at DESC, message_id DESC] *)
Definition later (a b : audit_row) : bool :=
  (au_open_ms b <? au_open_ms a) ||
  (au_open_ms a =? au_open_ms b) &&
    ((au_produced_at b <? au_produced_at a) ||
     (au_produced_at a =? au_produced_at b) && negb (String.leb (au_message_id a) (au_message_id b))).

Definition chain_of (symbol : string) (rows : list audit_row) : option chain_row :=
  match rows with
  | [] => None
  | a :: l =>
      let opens := au_open_ms <$> rows in
      Some (ChainRow symbol (Z.of_nat (length opens)) (Z.of_nat (length (remove_dups opens)))
              (foldr Z.min (au_open_ms a) opens) (foldr Z.max (au_open_ms a) opens)
              (au_payload (foldl (λ best b, if later b best then b else best) a l)))
  end.

(** [ANCHORS_SQL]: one row per symbol that has any, ordered by symbol. *)
Definition anchors_sql (audit : list audit_row) : list chain_row :=
  omap (λ s, chain_of s (matching audit s)) (sort_str SYMBOLS).

Context (model_validate : value → result bar).

Definition chain_broken (r : chain_row) : bool :=
  (cr_n r =? 0) || negb (cr_n r =? cr_u r) || negb (cr_hi r - cr_lo r =? (cr_n r - 1) * MINUTE).

Definition anchor_of (acc : gmap string bar) (r : chain_row) : result (gmap string bar) :=
  payload ← row_payload (cr_payload r);
  event ← model_validate payload;
  _ ← raise_if (negb (String.eqb (bar_symbol event) (cr_symbol r))) EpochError "FIVE_UNIQUE_CONTIGUOUS_CHAINS_REQUIRED";
  Ok (<[cr_symbol r := event]> acc).

Definition anchors (rows : list chain_row) : result (gmap string bar) :=
  let symbols := cr_symbol <$> rows in
  let distinct : gset string := list_to_set symbols in
  _ ← raise_if (negb (Nat.eqb (length rows) (length SYMBOLS)) || negb (Nat.eqb (size distinct) (length SYMBOLS))
                || negb (bool_decide (distinct = symbol_set)) || existsb chain_broken rows)
       EpochError "FIVE_UNIQUE_CONTIGUOUS_CHAINS_REQUIRED";
  foldR anchor_of ∅ rows.

(** ** An unpublished page that changed between two confirmations *)
Record observation := Observation { obs_symbol : string; obs_start : Z; obs_finish : Z; obs_raw : value }.

(** [kairos_quant.long_gap_recovery.parse_page(raw, symbol, start, end)] *)
Context (parse_page : value → string → Z → Z → result (list bar)).

Definition safe_unpublished_confirmation (observations : list observation) (symbol : string) (anchor : bar)
    (end_exclusive : Z) : bool :=
  match observations with
  | [first; second] =>
      if negb (String.eqb (obs_symbol first) (obs_symbol second) && (obs_start first =? obs_start second)
               && (obs_finish first =? obs_finish second))
         || negb (String.eqb (obs_symbol first) symbol) || negb (obs_start first =? open_time_ms anchor)
         || negb (obs_finish first =? Z.min end_exclusive (obs_start first + RECOVERY_PAGE_SIZE * MINUTE))
      then false
      else match parse_page (obs_raw first) symbol (obs_start first) (obs_finish first),
                 parse_page (obs_raw second) symbol (obs_start second) (obs_finish second) with
           | Ok (b1 :: l1), Ok (b2 :: l2) =>
               if negb (bool_decide (1 ≤ length l1)%nat) || negb (Nat.eqb (length l1) (length l2)) then false
               else if negb (String.eqb (canonical_bar_bytes b1) (canonical_bar_bytes anchor))
                       || negb (String.eqb (canonical_bar_bytes b2) (canonical_bar_bytes anchor)) then false
               else negb (bool_decide ((canonical_bar_bytes <$> l1) = (canonical_bar_bytes <$> l2)))
           | _, _ => false
           end
  | _ => false
  end.
End Bars.

(** ** [validate_history_snapshot] *)
Definition anchor_keys : list string := ["count"; "first_open_time_ms"; "last_open_time_ms"; "last_close_time_ms"].

Definition exact_ints (keys : list string) (d : dict) : option (list Z) :=
  foldr (λ k acc, match dlookup k d with Some (VInt z) => cons z <$> acc | _ => None end) (Some []) keys.

(** One chain: the four integers of a contiguous chain, equal to the actual one; its count. *)
Definition snapshot_anchor (expected actual : option value) : option Z :=
  match expected with
  | Some (VDict anchor) =>
      if keys_are anchor anchor_keys then
        match exact_ints anchor_keys anchor with
        | Some [count; first; last_open; last_close] =>
            if (count <=? 0) || (first <? 0) || negb (first mod MINUTE =? 0)
               || negb (last_open - first =? (count - 1) * MINUTE) || negb (last_close =? last_open + MINUTE - 1)
               || negb (match actual with Some a => py_eq a (VDict anchor) | None => false end)
            then None else Some count
        | _ => None
        end
      else None
  | _ => None
  end.

Definition validate_history_snapshot (audit_count : value) (actual : dict) (expected_seed : value) : result unit :=
  let expected := match expected_seed with VDict d => dget "anchors" d | _ => VNone end in
  match expected with
  | VDict expected =>
      _ ← raise_if (negb (keys_are expected SYMBOLS)) EpochError "EXPECTED_FIVE_SYMBOL_HISTORY_REQUIRED";
      _ ← raise_if (negb (keys_are actual SYMBOLS) || negb (is_exact_int audit_count))
           EpochError "EXACT_EXPECTED_HISTORY_SNAPSHOT_REQUIRED";
      total ← foldR (λ total symbol,
        match snapshot_anchor (dlookup symbol expected) (dlookup symbol actual) with
        | Some count => Ok (total + count)
        | None => raise EpochError "EXACT_EXPECTED_HISTORY_SNAPSHOT_REQUIRED"
        end) 0 SYMBOLS;
      raise_if (negb (py_eq audit_count (VInt total))) EpochError "EXTRA_OR_MISSING_EPOCH_AUDIT_HISTORY"
  | _ => raise EpochError "EXPECTED_FIVE_SYMBOL_HISTORY_REQUIRED"
  end.

(** ** Failures of the source *)
(** An exception, or a group of exceptions; a group is never empty. *)
Inductive failure :=
  | Leaf (e : exc)
  | Group (first : failure) (rest : list failure).

Definition FETCH_TIMEOUT : string := "OFFICIAL_CLOSED_BAR_FETCH_TIMEOUT".
Definition FETCH_DNS_FAILURE : string := "OFFICIAL_CLOSED_BAR_FETCH_DNS_FAILURE".

Fixpoint source_wait_reason (error : failure) : option string :=
  match error with
  | Group first rest =>
      match source_wait_reason first with
      | Some r => if forallb (λ c, bool_decide (source_wait_reason c = Some r)) rest then Some r else None
      | None => None
      end
  | Leaf e =>
      if bool_decide (exc_cls e = EpochError) && String.eqb (exc_msg e) FETCH_TIMEOUT then Some FETCH_TIMEOUT
      else if bool_decide (exc_cls e = EpochError) && String.eqb (exc_msg e) FETCH_DNS_FAILURE then Some FETCH_DNS_FAILURE
      else None
  end.

(** The leaves, in the order the stack of [recover] meets them: last child first. *)
Fixpoint leaves (error : failure) : list exc :=
  match error with
  | Leaf e => [e]
  | Group first rest => concat (reverse (leaves first :: (leaves <$> rest)))
  end.

Fixpoint first_leaf (error : failure) : exc :=
  match error with Leaf e => e | Group first _ => first_leaf first end.

(** What [recover] raises in place of the exception group of its tasks. *)
Definition recover_failure (errors : failure) : failure :=
  let leaf_reasons := (λ e, source_wait_reason (Leaf e)) <$> leaves errors in
  let admitted := remove_dups (omap id leaf_reasons) in
  if negb (bool_decide (admitted = [])) && (existsb (λ r, bool_decide (r = None)) leaf_reasons || negb (Nat.eqb (length admitted) 1))
  then errors else Leaf (first_leaf errors).

(** ** [SourceCircuit] *)
Record circuit := Circuit {
  timeouts : Z; dns_failures : Z; recoveries : Z;
  consecutive : Z; consecutive_timeouts : Z; consecutive_dns_failures : Z;
}.
Definition circuit0 : circuit := Circuit 0 0 0 0 0 0.

(** [None]: the error is raised again. *)
Definition failed (error : failure) (c : circuit) : option (string * circuit) :=
  reason ← source_wait_reason error;
  Some (reason,
    if String.eqb reason FETCH_DNS_FAILURE
    then Circuit (timeouts c) (dns_failures c + 1) (recoveries c) (consecutive c + 1) 0 (consecutive_dns_failures c + 1)
    else Circuit (timeouts c + 1) (dns_failures c) (recoveries c) (consecutive c + 1) (consecutive_timeouts c + 1) 0).

Definition succeeded (c : circuit) : circuit :=
  Circuit (timeouts c) (dns_failures c) (if consecutive c =? 0 then recoveries c else recoveries c + 1) 0 0 0.

Definition snapshot (c : circuit) : value := VDict (
  [("timeout_rounds", VInt (timeouts c)); ("recoveries", VInt (recoveries c));
   ("consecutive_timeout_rounds", VInt (consecutive_timeouts c))]
  ++ (if dns_failures c =? 0 then []
      else [("dns_failure_rounds", VInt (dns_failures c));
            ("consecutive_dns_failure_rounds", VInt (consecutive_dns_failures c))])).

(** [SOURCE_WAIT_SECONDS[min(max(consecutive - 1, 0), len - 1)]] *)
Definition wait_seconds (c : circuit) : Z :=
  nth (Z.to_nat (Z.min (Z.max (consecutive c - 1) 0) (Z.of_nat (length SOURCE_WAIT_SECONDS) - 1))) SOURCE_WAIT_SECONDS 0.

Definition fmax (a b : flt) : flt := if fltb a b then b else a.
Definition thousandth : flt := float_of_dec false 1 (-3).

(** ** [SourceCircuit.wait] *)
Inductive wop :=
  | WClock | WRequested | WDone | WAwaitConsumer
  | WHeartbeat                           (* the time that the callback put on the report *)
  | WWait (timeout : flt).               (* asyncio.wait_for(requested.wait(), timeout) *)
Definition wres (o : wop) : Type :=
  match o with WClock => flt | WRequested | WDone => bool | WHeartbeat => string | _ => unit end.

Section Wait.
Context (env : environment wres) (fuel : nat).

Definition wask (o : wop) : M (list (event wres)) (wres o) := perform wres id (λ e h, h ++ [e]) env o.

Definition still_waiting (deadline : flt) : M (list (event wres)) bool :=
  now ← wask WClock;
  if fltb (now : flt) deadline then requested ← wask WRequested; mret (negb requested) else mret false.

Definition pause (deadline : flt) : M (list (event wres)) (option unit) :=
  stopped ← wask WDone;
  (if (stopped : bool) then wask WAwaitConsumer;; throw EpochError "CONSUMER_STOPPED" else mret tt);;
  wask WHeartbeat;;
  now ← wask WClock;
  try_except (λ c, bool_decide (c = TimeoutError))
    (wask (WWait (fmin (fz SOURCE_HEARTBEAT_SECONDS) (fmax thousandth (fsub deadline now))))) (λ _, mret tt);;
  mret None.

Definition wait (c : circuit) : M (list (event wres)) unit :=
  now ← wask WClock;
  let deadline := fadd now (fz (wait_seconds c)) in
  while fuel (still_waiting deadline) (pause deadline) (mret tt).
End Wait.

(** ** [fetch_closed_bar_page] *)
Inductive fop :=
  | FGet (symbol : string) (start_time end_time limit : Z)   (* status, content_length *)
  | FChunk                                                   (* None at the end *)
  | FSleep (seconds : Z).
Definition fres (o : fop) : Type :=
  match o with FGet _ _ _ _ => Z * option Z | FChunk => option string | FSleep _ => unit end.

Section Fetch.
Context (env : environment fres) (fuel : nat).
(** [json.loads] of the bytes of the body *)
Context (json_loads_bytes : string → result value).
Context (symbol : string) (start finish : Z).

Abbreviation hist := (list (event fres)).
Definition fask (o : fop) : M hist (fres o) := perform fres id (λ e h, h ++ [e]) env o.

Fixpoint read_chunks (fuel : nat) (size : Z) (chunks : string) : M hist string :=
  match fuel with
  | O => λ h, (Fuel, h)
  | S fuel =>
      chunk ← fask FChunk;
      match (chunk : option string) with
      | None => mret chunks
      | Some chunk =>
          let size := size + slen chunk in
          throw_if (2000000 <? size) EpochError "REST_RESPONSE_BOUND_EXCEEDED";;
          read_chunks fuel size (chunks +:+ chunk)
      end
  end.

Definition fetch_once : M hist value :=
  response ← fask (FGet symbol start (finish - 1) ((finish - start) / MINUTE));
  let '(status, content_length) := (response : Z * option Z) in
  throw_if (negb (status =? 200) || match content_length with Some n => 2000000 <? n | None => false end)
    EpochError "OFFICIAL_CLOSED_BAR_FETCH_FAILED";;
  body ← read_chunks fuel 0 EmptyString;
  liftR (json_loads_bytes body).

Definition fetch_retryable (c : exc_class) : bool := bool_decide (c = TimeoutError) || bool_decide (c = ClientConnectorDNSError).

(** What the [except] clauses do after attempt number [attempt]. *)
Definition fetch_deferred (attempt : nat) (e : exc) : M hist (option value) :=
  if Nat.eqb (attempt + 1) FETCH_ATTEMPTS
  then throw EpochError (if bool_decide (exc_cls e = TimeoutError) then FETCH_TIMEOUT else FETCH_DNS_FAILURE)
  else fask (FSleep (nth attempt FETCH_RETRY_SECONDS 0));; mret None.

Fixpoint fetch_attempts (attempts : list nat) : M hist value :=
  match attempts with
  | [] => throw EpochError FETCH_TIMEOUT
  | attempt :: attempts =>
      r ← try_except fetch_retryable (v ← fetch_once; mret (Some v)) (fetch_deferred attempt);
      match r with Some v => mret v | None => fetch_attempts attempts end
  end.

Definition fetch_closed_bar_page : M hist value := fetch_attempts (seq 0 FETCH_ATTEMPTS).
End Fetch.

(** ** The confirmation rounds of one symbol in [recover] *)
Section Rounds.
Context {bar : Type} `{ClosedBar bar}.
Context (parse_page : value → string → Z → Z → result (list bar)).
Context (symbol : string) (anchor : bar) (end_exclusive : Z).

(** One call of [recover_symbol]: its outcome, the phase and count of its
    status, and the pages it fetched. *)
Record round := Round {
  rd_outcome : result Z; rd_phase : option string; rd_appended : option Z; rd_fetched : list observation;
}.
(** The rounds, and what writing the progress report after each of them answers. *)
Context (rounds : nat → round) (write_progress : nat → result unit).

(** [observed_fetch] keeps the last two pages. *)
Definition observe_page (kept : list observation) (page : observation) : list observation :=
  let kept := kept ++ [page] in if (2 <? length kept)%nat then tail kept else kept.
Definition observations (r : round) : list observation := foldl observe_page [] (rd_fetched r).

Definition must_raise (deferred : Z) (r : round) (e : exc) : bool :=
  bool_decide (exc_cls e = CancelledError)
  || (MAX_UNPUBLISHED_CONFIRMATION_RETRIES <=? deferred)
  || negb (bool_decide (rd_phase r = Some "CONFIRMATION_COMPARE"))
  || negb (bool_decide (rd_appended r = Some 0))
  || negb (bool_decide (exc_cls e = RecoveryError))
  || negb (safe_unpublished_confirmation parse_page (observations r) symbol anchor end_exclusive).

(** Round [k], with [deferred] rounds behind it: the count and the deferred rounds. *)
Fixpoint recover_with_confirmation_retries (fuel k : nat) (deferred : Z) : option (result (Z * Z)) :=
  match fuel with
  | O => None
  | S fuel =>
      let r := rounds k in
      match rd_outcome r with
      | Ok count => Some (Ok (count, deferred))
      | Err e =>
          if must_raise deferred r e then Some (Err e)
          else match write_progress k with
               | Err e' => Some (Err e')
               | Ok _ => recover_with_confirmation_retries fuel (S k) (deferred + 1)
               end
      end
  end.

(** The immutable report of a symbol that failed. *)
Definition failure_report (r : round) (error_type : string) (deferred : Z) : value := VDict [
  ("state", VStr "FAILED_CLOSED"); ("symbol", VStr symbol);
  ("phase", VStr (default "UNOBSERVED" (rd_phase r))); ("error_type", VStr error_type);
  ("appended_bars", match rd_appended r with Some n => VInt n | None => VNone end);
  ("deferred_confirmation_rounds", VInt deferred);
  ("publish_outcome_unknown", VBool (bool_decide (rd_phase r = Some "DURABLE_PUBLISH")));
  ("trading_started", VBool false)].
End Rounds.
