(* ===== verification/EpochSourceSpec.v ===== *)
(** * Batches, chains and outages of the source ([EpochSource]) *)

From stdpp Require Import gmap strings sorting.
From S2P Require Import Prelude PyStr Regex PyVal Json Effects EpochPublication EpochSource.

Local Open Scope string_scope.
Local Open Scope list_scope.
Local Open Scope Z_scope.

Section Bars.
Context {bar : Type} `{ClosedBar bar}.
Implicit Types (values : gmap string bar).

(** ** Watermarks *)
Lemma watermarks_length values : dom values = symbol_set → length (watermarks values) = 5%nat.
Proof.
  intros Hd. unfold watermarks. rewrite length_fmap, length_map_to_list, <- size_dom, Hd. reflexivity.
Qed.

Lemma elem_of_watermarks values w : w ∈ watermarks values ↔ ∃ s b, values !! s = Some b ∧ w = watermark b.
Proof.
  unfold watermarks. rewrite list_elem_of_fmap. split.
  - intros ([s b] & -> & Hb%elem_of_map_to_list). eauto.
  - intros (s & b & Hb & ->). exists (s, b). by rewrite elem_of_map_to_list.
Qed.

(** Every stored bar ends at most at [e], a whole number of minutes before. *)
Definition within (ws : list Z) (e : Z) : Prop := Forall (λ w, w <= e ∧ (e - w) mod MINUTE = 0) ws.
Definition missing (ws : list Z) (e : Z) : Z := foldr (λ w acc, (e - w) / MINUTE + acc) 0 ws.

Lemma required_bars_Ok values e n :
  required_bars values e = Ok n ↔ dom values = symbol_set ∧ within (watermarks values) e ∧ n = missing (watermarks values) e.
Proof.
  unfold required_bars, within, missing. rewrite bind_Ok. setoid_rewrite raise_if_Ok. generalize (watermarks values). intros ws.
  assert (foldr (λ n acc, n / MINUTE + acc) 0 ((λ w, e - w) <$> ws) = foldr (λ w acc, (e - w) / MINUTE + acc) 0 ws) as E
    by (induction ws as [|w ws IH]; [done|]; cbn; by rewrite <- IH).
  assert (existsb (λ n, (n <? 0) || negb (n mod MINUTE =? 0)) ((λ w, e - w) <$> ws) = false ↔
          Forall (λ w, w <= e ∧ (e - w) mod MINUTE = 0) ws) as E2.
  { clear E. induction ws as [|w ws IH]; [by split|]. cbn. rewrite Forall_cons, <- IH, !orb_false_iff, negb_false_iff, Z.eqb_eq, Z.ltb_ge.
    assert (0 <= e - w ↔ w <= e) as Hle by lia. rewrite Hle. tauto. }
  rewrite E. split.
  - intros ([] & Hb & [= <-]). apply orb_false_iff in Hb as [Hd Hb]. apply negb_false_iff, bool_decide_eq_true in Hd.
    by rewrite <- E2.
  - intros (Hd & Hw & ->). exists tt. split; [|done]. rewrite (bool_decide_true _ Hd), <- E2 in *. by rewrite Hw.
Qed.

Lemma missing_shift ws e k :
  within ws e → 0 <= k → within ws (e + k * MINUTE) ∧ missing ws (e + k * MINUTE) = missing ws e + Z.of_nat (length ws) * k.
Proof.
  intros Hw Hk. induction Hw as [|w ws [Hle Hm] Hw [IHw IHm]]; [split; [constructor|cbn; lia]|].
  assert (e + k * MINUTE - w = (e - w) + k * MINUTE) as E by lia. split.
  - constructor; [|done]. rewrite E, Z.mod_add by done. split; [change MINUTE with 60000; lia|done].
  - cbn [missing foldr length]. fold (missing ws (e + k * MINUTE)) (missing ws e). rewrite E, Z.div_add, IHm by done. lia.
Qed.

Lemma missing_nonneg ws e : within ws e → 0 <= missing ws e.
Proof.
  intros Hw. induction Hw as [|w ws [Hle Hm] Hw IH]; [done|]. cbn [missing foldr]. fold (missing ws e).
  assert (0 <= (e - w) / MINUTE) by (apply Z.div_pos; [lia|done]). lia.
Qed.

Lemma latest_spec values m : latest values = Ok m ↔ m ∈ watermarks values ∧ Forall (λ w, w <= m) (watermarks values).
Proof.
  unfold latest. destruct (watermarks values) as [|w ws]; [rewrite elem_of_nil, raise_Ok; tauto|].
  assert (∀ l, foldr Z.max w l ∈ w :: l ∧ Forall (λ x, x <= foldr Z.max w l) (w :: l)) as Hmax.
  { induction l as [|x l [IHin IHle]]; cbn.
    - split; [by left|]. by repeat constructor.
    - apply Forall_cons in IHle as [Hw Hl]. split.
      + destruct (Z.max_spec x (foldr Z.max w l)) as [[_ ->]|[_ ->]]; set_solver.
      + rewrite !Forall_cons. split_and!; [lia|lia|]. eapply Forall_impl; [exact Hl|]. cbn. lia. }
  destruct (Hmax ws) as [Hin Hle]. split; [by intros [= <-]|]. intros [Hm Hall]. f_equal.
  rewrite Forall_forall in Hall, Hle. specialize (Hall _ Hin). specialize (Hle _ Hm). lia.
Qed.

(** The exact result of [bounded_runtime_end]. *)
Lemma bounded_end_Ok values target e :
  bounded_runtime_end values (VInt target) = Ok e ↔
  ∃ m, dom values = symbol_set ∧ target mod MINUTE = 0 ∧ latest values = Ok m ∧ m <= target ∧
    within (watermarks values) m ∧ missing (watermarks values) m <= 100 ∧
    e = Z.min target (m + (100 - missing (watermarks values) m) / 5 * MINUTE) ∧
    within (watermarks values) e ∧ missing (watermarks values) e <= 100.
Proof.
  unfold bounded_runtime_end. change (Z.of_nat (length SYMBOLS)) with 5. change MAX_PENDING with 100.
  rewrite bind_Ok. setoid_rewrite raise_if_Ok. split.
  - intros ([] & Hb & H0). apply orb_false_iff in Hb as [Hd%negb_false_iff Hm%negb_false_iff].
    apply bool_decide_eq_true in Hd. apply Z.eqb_eq in Hm.
    apply bind_Ok in H0 as (m & Hl & H0). apply bind_Ok in H0 as ([] & Hr%raise_if_Ok & H0). apply Z.ltb_ge in Hr.
    apply bind_Ok in H0 as (b & Hb%required_bars_Ok & H0). destruct Hb as (_ & Hw & ->).
    apply bind_Ok in H0 as ([] & Hc%raise_if_Ok & H0). apply Z.ltb_ge in Hc.
    apply bind_Ok in H0 as (n & Hn%required_bars_Ok & H0). destruct Hn as (_ & Hw2 & ->).
    apply bind_Ok in H0 as ([] & Hc2%raise_if_Ok & [= <-]). apply Z.ltb_ge in Hc2.
    exists m. by split_and!.
  - intros (m & Hd & Hm & Hl & Hle & Hw & Hc & -> & Hw2 & Hc2). exists tt. split.
    { by rewrite (bool_decide_true _ Hd), Hm. }
    rewrite Hl, bind_ret. rewrite (proj2 (Z.ltb_ge _ _) Hle). cbn [raise_if]. rewrite bind_ret.
    rewrite (proj2 (required_bars_Ok values m _)) by done. rewrite bind_ret, (proj2 (Z.ltb_ge _ _) Hc). cbn [raise_if]. rewrite bind_ret.
    rewrite (proj2 (required_bars_Ok values _ _)) by done. by rewrite bind_ret, (proj2 (Z.ltb_ge _ _) Hc2).
Qed.
End Bars.

(** C27. A batch is bounded and as long as it may be.  If [bounded_runtime_end]
    returns an end for a target, the end lies between the latest watermark and
    the target, whole minutes after the former, at most 100 bars are missing up to it, and either it is the
    target or one more minute for all five symbols would exceed the 100 bars. *)
Theorem batch_bounded_and_maximal {bar} `{ClosedBar bar} (values : gmap string bar) target e
  (Hend : bounded_runtime_end values (VInt target) = Ok e) :
  ∃ m n, latest values = Ok m ∧ m <= e <= target ∧ (e - m) mod MINUTE = 0 ∧ required_bars values e = Ok n ∧ 0 <= n <= 100 ∧
    (e = target ∨ 100 < n + 5).
Proof.
  apply bounded_end_Ok in Hend as (m & Hd & Ht & Hl & Hle & Hw & Hc & He & Hw2 & Hc2).
  set (ws := watermarks values) in *. assert (length ws = 5%nat) as H5 by by apply watermarks_length.
  pose proof (missing_nonneg ws m Hw) as Hb. set (k := (100 - missing ws m) / 5) in *.
  assert (0 <= k) as Hk by (apply Z.div_pos; lia).
  exists m, (missing ws e). split_and!; try done.
  - change MINUTE with 60000 in *. lia.
  - lia.
  - apply latest_spec in Hl as [Hm _]. unfold within in Hw2. rewrite Forall_forall in Hw2. by apply Hw2.
  - by apply required_bars_Ok.
  - by apply missing_nonneg.
  - destruct (Z.min_spec target (m + k * MINUTE)) as [[_ Hmin]|[_ Hmin]]; rewrite Hmin in He; [by left|right].
    destruct (missing_shift ws m k Hw Hk) as [_ Hs]. rewrite He, Hs, H5. subst k.
    pose proof (Z.mod_pos_bound (100 - missing ws m) 5 ltac:(lia)). pose proof (Z.div_mod (100 - missing ws m) 5 ltac:(lia)). lia.
Qed.

(** ** Catching up *)
Section Catchup.
Context {bar : Type} `{ClosedBar bar}.

(** All five symbols have been brought to [e]. *)
Definition at_end (values : gmap string bar) (e : Z) : Prop :=
  dom values = symbol_set ∧ Forall (λ w, w = e) (watermarks values).

Lemma at_end_latest values e : at_end values e → latest values = Ok e.
Proof.
  intros [Hd Hall]. apply latest_spec. pose proof (watermarks_length values Hd) as Hl. split.
  - destruct (watermarks values) as [|w ws]; [discriminate Hl|]. apply Forall_cons in Hall as [-> _]. by left.
  - eapply Forall_impl; [exact Hall|]. cbn. lia.
Qed.

Lemma at_end_within ws e : Forall (λ w, w = e) ws → within ws e ∧ missing ws e = 0.
Proof.
  intros Hall. induction Hall as [|w ws -> Hall [IHw IHm]]; [by split; [constructor|]|]. split.
  - constructor; [|done]. by rewrite Z.sub_diag.
  - cbn [missing foldr]. fold (missing ws e). by rewrite IHm, Z.sub_diag.
Qed.

(** From level watermarks on whole minutes a batch is twenty minutes or reaches the target. *)
Lemma level_batch values m target :
  at_end values m → m mod MINUTE = 0 → target mod MINUTE = 0 → m <= target →
  bounded_runtime_end values (VInt target) = Ok (Z.min target (m + 20 * MINUTE)).
Proof.
  intros [Hd Hall] Hm Ht Hle. destruct (at_end_within _ m Hall) as [Hw H0]. apply bounded_end_Ok. exists m.
  rewrite H0. change ((100 - 0) / 5) with 20.
  assert (∃ k, 0 <= k <= 20 ∧ Z.min target (m + 20 * MINUTE) = m + k * MINUTE) as (k & Hk & ->).
  { destruct (Z.min_spec target (m + 20 * MINUTE)) as [[Hlt ->]|[_ ->]]; [|by exists 20].
    exists ((target - m) / MINUTE).
    assert ((target - m) mod MINUTE = 0) as Hmod by (rewrite Zminus_mod, Ht, Hm; done).
    pose proof (Z.div_mod (target - m) MINUTE ltac:(done)) as Hdm. change MINUTE with 60000 in *.
    assert (0 <= (target - m) / 60000) by (apply Z.div_pos; lia). lia. }
  destruct (missing_shift _ m k Hw) as [Hw2 Hm2]; [lia|]. rewrite (watermarks_length values Hd), H0 in Hm2.
  split_and!; try done; try lia. by apply at_end_latest.
Qed.

(** The ends of successive batches, each of which was fully appended. *)
Inductive catches_up (target : Z) : gmap string bar → list Z → Prop :=
  | catch_done values : catches_up target values []
  | catch_batch values e values' es :
      bounded_runtime_end values (VInt target) = Ok e → at_end values' e → catches_up target values' es →
      catches_up target values (e :: es).

Lemma catches_up_level target values m es :
  catches_up target values es → at_end values m → m mod MINUTE = 0 → target mod MINUTE = 0 → m <= target →
  ∀ i e, es !! i = Some e → e = Z.min target (m + 20 * (Z.of_nat i + 1) * MINUTE).
Proof.
  intros Hc Hv Hm Ht Hle. revert m Hv Hm Hle. induction Hc as [values|values e values' es He Hv' _ IH]; intros m Hv Hm Hle i x Hi; [done|].
  rewrite (level_batch values m target) in He by done. injection He as <-.
  destruct i as [|i]; cbn in Hi; [injection Hi as <-; f_equal; lia|].
  set (e := Z.min target (m + 20 * MINUTE)) in *.
  assert (e mod MINUTE = 0 ∧ e <= target) as [He1 He2].
  { subst e. split; [|lia]. destruct (Z.min_spec target (m + 20 * MINUTE)) as [[_ ->]|[_ ->]]; [done|]. by rewrite Z.mod_add. }
  rewrite (IH e Hv' He1 He2 i x Hi). subst e. change MINUTE with 60000. lia.
Qed.
End Catchup.

(** An outage is caught up in a known number of batches.  From level
    watermarks [m] the ends of successive fully appended batches are
    [m + 20 min], [m + 40 min], ... until the target, so after at least
    [(target - m) / 20 min] batches the target is reached; a batch is never
    refused. *)
Theorem catchup_reaches_target {bar} `{ClosedBar bar} (values : gmap string bar) m target es
  (Hv : at_end values m) (Hm : m mod MINUTE = 0) (Ht : target mod MINUTE = 0) (Hle : m <= target)
  (Hrun : catches_up target values es) :
  (∃ e, bounded_runtime_end values (VInt target) = Ok e) ∧
  ∀ i e, es !! i = Some e → e <= target ∧ (target - m <= 20 * (Z.of_nat i + 1) * MINUTE → e = target).
Proof.
  split; [by eexists; apply level_batch|]. intros i e Hi.
  rewrite (catches_up_level target values m es Hrun Hv Hm Ht Hle i e Hi). change MINUTE with 60000. lia.
Qed.

(** ** Failures *)
Lemma failure_ind' (P : failure → Prop) :
  (∀ e, P (Leaf e)) → (∀ first rest, P first → Forall P rest → P (Group first rest)) → ∀ f, P f.
Proof.
  intros Hl Hg. fix IH 1. intros [e|first rest]; [apply Hl|]. apply Hg; [apply IH|].
  induction rest as [|c rest IHr]; constructor; [apply IH|exact IHr].
Qed.

Lemma elem_of_leaves_group e first rest :
  e ∈ leaves (Group first rest) ↔ e ∈ leaves first ∨ ∃ c, c ∈ rest ∧ e ∈ leaves c.
Proof.
  cbn [leaves]. rewrite list_elem_of_In, in_concat. setoid_rewrite <- list_elem_of_In. setoid_rewrite elem_of_reverse.
  setoid_rewrite elem_of_cons. setoid_rewrite list_elem_of_fmap. naive_solver.
Qed.

Lemma leaves_nonempty f : ∃ e, e ∈ leaves f.
Proof.
  induction f as [e|first rest [e He] _] using failure_ind'; [exists e; by left|].
  exists e. apply elem_of_leaves_group. by left.
Qed.

Lemma first_leaf_leaves f : first_leaf f ∈ leaves f.
Proof.
  induction f as [e|first rest IH _] using failure_ind'; [by left|]. apply elem_of_leaves_group. by left.
Qed.

(** A failure has a reason to wait exactly when all its leaves have that reason. *)
Lemma source_wait_reason_leaves f r :
  source_wait_reason f = Some r ↔ ∀ e, e ∈ leaves f → source_wait_reason (Leaf e) = Some r.
Proof.
  induction f as [e|first rest IHf IHr] using failure_ind'.
  - split; [by intros He x ->%list_elem_of_singleton|]. intros He. apply He. by left.
  - setoid_rewrite elem_of_leaves_group. cbn [source_wait_reason]. rewrite Forall_forall in IHr. split.
    + destruct (source_wait_reason first) as [r'|] eqn:Ef; [|done]. destruct (forallb _ rest) eqn:Er; [|done]. intros [= ->].
      rewrite forallb_forall in Er. intros e [He|(c & Hc & He)]; [by apply (proj1 IHf eq_refl)|].
      apply (IHr c Hc); [|done]. apply list_elem_of_In, Er in Hc. by apply bool_decide_eq_true in Hc.
    + intros Hall. rewrite (proj2 IHf) by (intros e He; apply Hall; by left).
      assert (forallb (λ c, bool_decide (source_wait_reason c = Some r)) rest = true) as ->; [|done].
      apply forallb_forall. intros c Hc%list_elem_of_In. apply bool_decide_eq_true, (IHr c Hc). intros e He. apply Hall. eauto.
Qed.

(** Only a uniform outage may be waited for.  Whatever tree of exception
    groups the tasks of one batch raise, the error that [recover] raises in its
    place has a reason to wait if and only if every single leaf is an admitted
    source failure and all have that same reason: no time-out ever hides an
    integrity or database failure of a sibling. *)
Theorem only_uniform_outage_waits (errors : failure) (r : string) :
  source_wait_reason (recover_failure errors) = Some r ↔
  ∀ e, e ∈ leaves errors → source_wait_reason (Leaf e) = Some r.
Proof.
  rewrite <- source_wait_reason_leaves. unfold recover_failure.
  set (reasons := (λ e, source_wait_reason (Leaf e)) <$> leaves errors).
  set (admitted := remove_dups (omap id reasons)).
  assert (∀ q, q ∈ admitted ↔ ∃ e, e ∈ leaves errors ∧ source_wait_reason (Leaf e) = Some q) as Hadm.
  { intros q. subst admitted reasons. rewrite elem_of_remove_dups, list_elem_of_omap. setoid_rewrite list_elem_of_fmap. naive_solver. }
  assert (existsb (λ r, bool_decide (r = None)) reasons = true ↔ ∃ e, e ∈ leaves errors ∧ source_wait_reason (Leaf e) = None) as Hnone.
  { rewrite existsb_exists. setoid_rewrite <- list_elem_of_In. setoid_rewrite bool_decide_eq_true. subst reasons.
    setoid_rewrite list_elem_of_fmap. naive_solver. }
  destruct (_ && _) eqn:Eb; [done|].
  pose proof (first_leaf_leaves errors) as Hfirst.
  destruct (bool_decide (admitted = [])) eqn:Ea; cbn [negb andb] in Eb.
  - apply bool_decide_eq_true in Ea. split; intros Hr; exfalso.
    + apply (not_elem_of_nil r). rewrite <- Ea. apply Hadm. eauto.
    + apply (not_elem_of_nil r). rewrite <- Ea. apply Hadm. exists (first_leaf errors). split; [done|].
      by apply source_wait_reason_leaves with (e := first_leaf errors) in Hr.
  - apply orb_false_iff in Eb as [En E1]. apply negb_false_iff, Nat.eqb_eq in E1.
    destruct admitted as [|q [|]] eqn:Eq; try discriminate E1.
    assert (∀ e, e ∈ leaves errors → source_wait_reason (Leaf e) = Some q) as Hall.
    { intros e He. destruct (source_wait_reason (Leaf e)) as [q'|] eqn:Ee.
      - assert (q' ∈ [q]) as ->%list_elem_of_singleton by (apply Hadm; eauto). done.
      - exfalso. rewrite (proj2 Hnone) in En by eauto. done. }
    rewrite (Hall _ Hfirst). rewrite (proj2 (source_wait_reason_leaves errors q) Hall). done.
Qed.

(** ** The circuit *)
(** What a round can bring: a failure that may be waited for, or a success. *)
Definition circuit_step (c : circuit) (f : option failure) : option circuit :=
  match f with Some error => snd <$> failed error c | None => Some (succeeded c) end.
Definition circuit_run (l : list (option failure)) : option circuit :=
  foldl (λ c f, c ← c; circuit_step c f) (Some circuit0) l.

Definition reason_of (f : option failure) : option string := f ≫= source_wait_reason.
(** The failures since the last success, and the last failures of one kind among them. *)
Fixpoint run_length (p : option string → bool) (l : list (option string)) : nat :=
  match l with r :: l => if p r then S (run_length p l) else 0 | [] => 0 end.
(** Successes that directly follow a failure. *)
Fixpoint recovered (after_failure : bool) (l : list (option string)) : nat :=
  match l with
  | [] => 0
  | Some _ :: l => recovered true l
  | None :: l => (if after_failure then 1 else 0) + recovered false l
  end.
Definition is_reason (q : string) (r : option string) : bool := bool_decide (r = Some q).
Definition count (p : option string → bool) (l : list (option string)) : nat := length (filter (λ r, p r = true) l).

Lemma run_length_le p q l : (∀ r, p r = true → q r = true) → (run_length p l ≤ run_length q l)%nat.
Proof.
  intros Hpq. induction l as [|r l IH]; [done|]. cbn. destruct (p r) eqn:Ep; [rewrite (Hpq r Ep); lia|lia].
Qed.

Definition is_failure (r : option string) : bool := match r with Some _ => true | None => false end.

Lemma recoveries_snoc b l r :
  recovered b (l ++ [r]) =
  (recovered b l + match r with
                   | None => if match last l with Some q => is_failure q | None => b end then 1 else 0
                   | Some _ => 0
                   end)%nat.
Proof.
  revert b. induction l as [|q l IH]; intros b; [by destruct r, b|].
  rewrite last_cons. destruct q; cbn [app recovered]; rewrite IH; destruct (last l) as [[?|]|], r, b; cbn; lia.
Qed.

Lemma run_length_last p l : match last l with Some q => p q | None => false end = negb (Nat.eqb (run_length p (reverse l)) 0).
Proof.
  destruct l as [|q l _] using rev_ind; [done|]. rewrite last_snoc, reverse_snoc. cbn. by destruct (p q).
Qed.

Lemma count_snoc p l r : count p (l ++ [r]) = (count p l + if p r then 1 else 0)%nat.
Proof. unfold count. rewrite filter_app, length_app. f_equal. by rewrite filter_cons, filter_nil; destruct (p r). Qed.

Lemma run_lengths_le rs :
  (run_length (is_reason FETCH_TIMEOUT) rs + run_length (is_reason FETCH_DNS_FAILURE) rs ≤ run_length is_failure rs)%nat.
Proof.
  assert (∀ q r, is_reason q r = true → is_failure r = true) as Hf by (intros q r Hr; by apply bool_decide_eq_true in Hr as ->).
  destruct rs as [|r rs]; [done|]. cbn [run_length].
  pose proof (run_length_le (is_reason FETCH_TIMEOUT) is_failure rs (Hf _)).
  pose proof (run_length_le (is_reason FETCH_DNS_FAILURE) is_failure rs (Hf _)).
  destruct (is_reason FETCH_TIMEOUT r) eqn:E1, (is_reason FETCH_DNS_FAILURE r) eqn:E2.
  - apply bool_decide_eq_true in E1, E2. by subst.
  - rewrite (Hf _ _ E1). lia.
  - rewrite (Hf _ _ E2). lia.
  - lia.
Qed.

(** The circuit after failures and successes with the reasons [rs]. *)
Definition circuit_of (rs : list (option string)) : circuit :=
  let run p := Z.of_nat (run_length p (reverse rs)) in
  Circuit (Z.of_nat (count (is_reason FETCH_TIMEOUT) rs)) (Z.of_nat (count (is_reason FETCH_DNS_FAILURE) rs))
    (Z.of_nat (recovered false rs)) (run is_failure) (run (is_reason FETCH_TIMEOUT)) (run (is_reason FETCH_DNS_FAILURE)).

Lemma source_wait_reason_cases f r : source_wait_reason f = Some r → r = FETCH_TIMEOUT ∨ r = FETCH_DNS_FAILURE.
Proof.
  rewrite source_wait_reason_leaves. destruct (leaves_nonempty f) as [e He]. intros Hall. specialize (Hall e He). cbn in Hall.
  destruct (_ && _); [left; by injection Hall|]. destruct (_ && _); [right; by injection Hall|done].
Qed.

Lemma is_reason_table :
  is_reason FETCH_TIMEOUT (Some FETCH_TIMEOUT) = true ∧ is_reason FETCH_DNS_FAILURE (Some FETCH_TIMEOUT) = false ∧
  is_reason FETCH_TIMEOUT (Some FETCH_DNS_FAILURE) = false ∧ is_reason FETCH_DNS_FAILURE (Some FETCH_DNS_FAILURE) = true.
Proof. by vm_compute. Qed.

Lemma circuit_of_step rs f :
  circuit_step (circuit_of rs) f =
  if match f with Some _ => is_failure (reason_of f) | None => true end then Some (circuit_of (rs ++ [reason_of f])) else None.
Proof.
  destruct f as [error|]; cbn [reason_of circuit_step mbind option_bind].
  - destruct (source_wait_reason error) as [r|] eqn:Er; unfold failed; rewrite Er; [|done].
    cbn [is_failure mbind option_bind fmap option_fmap option_map snd]. f_equal. unfold circuit_of.
    rewrite !count_snoc, recoveries_snoc, reverse_snoc, Nat.add_0_r. cbn [run_length is_failure].
    pose proof is_reason_table as (E1 & E2 & E3 & E4).
    destruct (source_wait_reason_cases error r Er) as [-> | ->]; rewrite ?E1, ?E2, ?E3, ?E4; cbn [run_length];
      [change (String.eqb _ _) with false|change (String.eqb _ _) with true];
      cbn [timeouts dns_failures recoveries consecutive consecutive_timeouts consecutive_dns_failures]; f_equal; lia.
  - cbn [circuit_step is_failure]. f_equal. unfold circuit_of, succeeded. cbn [timeouts dns_failures recoveries consecutive].
    rewrite !count_snoc, recoveries_snoc, reverse_snoc. rewrite run_length_last.
    cbn [run_length is_failure is_reason Z.of_nat]. change (is_reason FETCH_TIMEOUT None) with false. change (is_reason FETCH_DNS_FAILURE None) with false.
    rewrite !Nat.add_0_r. destruct (run_length is_failure _) as [|n]; [by rewrite Nat.add_0_r|].
    rewrite (proj2 (Z.eqb_neq (Z.of_nat (S n)) 0)) by lia. cbn [negb Nat.eqb]. f_equal; lia.
Qed.

Lemma circuit_run_snoc l f : circuit_run (l ++ [f]) = c ← circuit_run l; circuit_step c f.
Proof. unfold circuit_run. by rewrite foldl_app. Qed.

(** The circuit after any sequence of rounds.  As long as every failure may
    be waited for, the six counters are the numbers of time-outs, of DNS
    failures and of successes that directly follow a failure, and the lengths
    of the current runs of failures, of time-outs and of DNS failures; the next
    pause is 5, 15, 30 or 60 seconds by the length of the run of failures,
    whatever their mixture.  A failure that may not be waited for ends the
    sequence. *)
Theorem circuit_counts (l : list (option failure)) :
  let rs := reason_of <$> l in
  let run := run_length is_failure (reverse rs) in
  (circuit_run l = None ↔ ∃ f, Some f ∈ l ∧ source_wait_reason f = None) ∧
  ∀ c, circuit_run l = Some c →
    c = circuit_of rs ∧
    wait_seconds c = match run with 0%nat | 1%nat => 5 | 2%nat => 15 | 3%nat => 30 | _ => 60 end ∧
    consecutive_timeouts c + consecutive_dns_failures c <= consecutive c.
Proof.
  cbn zeta. assert (∀ c, circuit_run l = Some c → c = circuit_of (reason_of <$> l)) as Hc.
  { induction l as [|f l IH] using rev_ind; intros c; [by intros [= <-]|].
    rewrite circuit_run_snoc, fmap_app. destruct (circuit_run l) as [c0|]; [|done].
    cbn [mbind option_bind]. rewrite (IH c0 eq_refl), circuit_of_step. by destruct f as [error|]; [destruct (is_failure _)|]; intros [= <-]. }
  split.
  - clear Hc. induction l as [|f l IH] using rev_ind; [split; [done|]; by intros (f & Hf%elem_of_nil & _)|].
    setoid_rewrite elem_of_app. rewrite circuit_run_snoc. setoid_rewrite list_elem_of_singleton.
    destruct (circuit_run l) as [c0|] eqn:E0; cbn [mbind option_bind].
    + assert (∀ f, Some f ∈ l → source_wait_reason f ≠ None) as Hno by (intros g Hg Hn; discriminate (proj2 IH (ex_intro _ g (conj Hg Hn)))).
      destruct f as [error|]; cbn [circuit_step].
      * unfold failed. destruct (source_wait_reason error) eqn:Er; cbn; naive_solver.
      * naive_solver.
    + split; [|done]. intros _. destruct (proj1 IH eq_refl) as (g & Hg & Hn). eauto.
  - intros c Hrun. rewrite (Hc c Hrun). split; [done|]. unfold wait_seconds, circuit_of. cbn [consecutive consecutive_timeouts consecutive_dns_failures].
    set (rs := reverse _). split.
    + destruct (run_length is_failure rs) as [|[|[|[|n]]]]; try reflexivity.
      rewrite Z.min_r by (cbn [length SOURCE_WAIT_SECONDS]; lia). reflexivity.
    + pose proof (run_lengths_le rs). lia.
Qed.

(** ** The stored chains *)
(** Every minute from [lo] on, [n] times. *)
Definition minutes (lo n : Z) : list Z := (λ i, lo + i * MINUTE) <$> seqZ 0 n.

Lemma remove_dups_length {A} `{EqDecision A} (l : list A) : length (remove_dups l) = length l ↔ NoDup l.
Proof.
  assert (∀ l : list A, length (remove_dups l) ≤ length l)%nat as Hle.
  { clear l. induction l as [|x l IH]; cbn [remove_dups length]; [done|]. destruct (decide_rel elem_of x l); cbn; lia. }
  induction l as [|x l IH]; [by split; [constructor|]|]. cbn [remove_dups length]. specialize (Hle l). rewrite NoDup_cons.
  destruct (decide_rel elem_of x l); cbn [length]; [split; [lia|naive_solver]|]. rewrite <- IH. naive_solver lia.
Qed.

Lemma foldr_min x l : foldr Z.min x l ∈ x :: l ∧ ∀ y, y ∈ x :: l → foldr Z.min x l <= y.
Proof.
  induction l as [|z l [IHin IHle]]; cbn [foldr]; [by split; [left|]; intros y ->%list_elem_of_singleton|]. split.
  - destruct (Z.min_spec z (foldr Z.min x l)) as [[_ ->]|[_ ->]]; [right; left|set_solver].
  - intros y [->|[->|Hy]%elem_of_cons]%elem_of_cons.
    + pose proof (IHle x ltac:(left)). lia.
    + lia.
    + pose proof (IHle y ltac:(by right)). lia.
Qed.

Lemma foldr_max x l : foldr Z.max x l ∈ x :: l ∧ ∀ y, y ∈ x :: l → y <= foldr Z.max x l.
Proof.
  induction l as [|z l [IHin IHle]]; cbn [foldr]; [by split; [left|]; intros y ->%list_elem_of_singleton|]. split.
  - destruct (Z.max_spec z (foldr Z.max x l)) as [[_ ->]|[_ ->]]; [set_solver|right; left].
  - intros y [->|[->|Hy]%elem_of_cons]%elem_of_cons.
    + pose proof (IHle x ltac:(left)). lia.
    + lia.
    + pose proof (IHle y ltac:(by right)). lia.
Qed.

Lemma elem_of_minutes x lo n : x ∈ minutes lo n ↔ ∃ i, 0 <= i < n ∧ x = lo + i * MINUTE.
Proof. unfold minutes. rewrite list_elem_of_fmap. setoid_rewrite elem_of_seqZ. naive_solver lia. Qed.

Lemma minutes_length lo n : 0 <= n → length (minutes lo n) = Z.to_nat n.
Proof. intros Hn. unfold minutes. by rewrite length_fmap, length_seqZ. Qed.

Lemma minutes_NoDup lo n : NoDup (minutes lo n).
Proof. unfold minutes. apply NoDup_fmap_2; [|apply NoDup_seqZ]. intros i j. change MINUTE with 60000. lia. Qed.

(** The three numbers that the query returns say that the opens are contiguous,
    provided that they lie on whole minutes. *)
Lemma contiguous_minutes x l :
  let opens := x :: l in let n := Z.of_nat (length opens) in let lo := foldr Z.min x opens in
  Forall (λ o, o mod MINUTE = 0) opens →
  Z.of_nat (length (remove_dups opens)) = n ∧ foldr Z.max x opens - lo = (n - 1) * MINUTE ↔
  ∃ lo n, opens ≡ₚ minutes lo n.
Proof.
  cbn zeta. set (opens := x :: l). intros Hal. rewrite Forall_forall in Hal.
  destruct (foldr_min x opens) as [Hmin Hle]. destruct (foldr_max x opens) as [Hmax Hge].
  assert (∀ y, y ∈ x :: opens ↔ y ∈ opens) as Hx by (intros y; subst opens; set_solver).
  apply Hx in Hmin, Hmax. setoid_rewrite Hx in Hle. setoid_rewrite Hx in Hge.
  set (lo := foldr Z.min x opens) in *. set (hi := foldr Z.max x opens) in *. split.
  - intros [Hn Hd]. exists lo, (Z.of_nat (length opens)). apply Nat2Z.inj, remove_dups_length in Hn. symmetry.
    apply perm_of_sub; [done| |rewrite minutes_length; lia]. intros y Hy. apply elem_of_minutes.
    assert ((y - lo) mod MINUTE = 0) as Hm by by rewrite Zminus_mod, (Hal y Hy), (Hal lo Hmin).
    pose proof (Z.div_mod (y - lo) MINUTE ltac:(done)). specialize (Hle y Hy). specialize (Hge y Hy).
    exists ((y - lo) / MINUTE). change MINUTE with 60000 in *. lia.
  - intros (lo' & n & Hp). assert (NoDup opens) as Hnd by (rewrite Hp; apply minutes_NoDup).
    rewrite (proj2 (remove_dups_length opens) Hnd). split; [done|].
    assert (0 < n) as Hn0.
    { rewrite Hp in Hmin. apply elem_of_minutes in Hmin as (i & ? & _). lia. }
    rewrite (Permutation_length Hp), minutes_length, Z2Nat.id by lia.
    assert (∀ y, y ∈ opens ↔ ∃ i, 0 <= i < n ∧ y = lo' + i * MINUTE) as Hin by (intros y; by rewrite Hp, elem_of_minutes).
    pose proof (Hle lo' (proj2 (Hin lo') ltac:(exists 0; lia))).
    pose proof (Hge (lo' + (n - 1) * MINUTE) (proj2 (Hin (lo' + (n - 1) * MINUTE)) ltac:(exists (n - 1); lia))).
    apply Hin in Hmin as (i & Hi & Ei). apply Hin in Hmax as (j & Hj & Ej). change MINUTE with 60000 in *. lia.
Qed.

Lemma latest_row a l :
  let best := foldl (λ best b, if later b best then b else best) a l in
  best ∈ a :: l ∧ ∀ y, y ∈ a :: l → au_open_ms y <= au_open_ms best.
Proof.
  cbn zeta. revert a. induction l as [|b l IH]; intros a; cbn [foldl]; [by split; [left|]; intros y ->%list_elem_of_singleton|].
  assert (if later b a then au_open_ms a <= au_open_ms b else au_open_ms b <= au_open_ms a) as Hl.
  { unfold later. destruct (au_open_ms a <? au_open_ms b) eqn:E1; cbn [orb]; [lia|].
    destruct (au_open_ms b =? au_open_ms a) eqn:E2; cbn [andb]; [|lia]. apply Z.eqb_eq in E2. destruct (_ || _); lia. }
  destruct (later b a); destruct (IH b) as [Hb1 Hb2]; destruct (IH a) as [Ha1 Ha2]; (split; [set_solver|]).
  - intros y [->|Hy]%elem_of_cons; [|by apply Hb2]. specialize (Hb2 b ltac:(left)). lia.
  - intros y [->|[->|Hy]%elem_of_cons]%elem_of_cons; [apply Ha2; left| |apply Ha2; by right].
    specialize (Ha2 a ltac:(left)). lia.
Qed.

Lemma chain_whole r : cr_n r ≠ 0 → cr_n r = cr_u r → cr_hi r - cr_lo r = (cr_n r - 1) * MINUTE → chain_broken r = false.
Proof. intros Hn Hu Hh. unfold chain_broken. by rewrite (proj2 (Z.eqb_neq _ _) Hn), <- Hu, Hh, !Z.eqb_refl. Qed.

Section Chains.
Context {bar : Type} `{ClosedBar bar} (model_validate : value → result bar) (audit : list audit_row).

(** The stored chain of [s]: every minute from some minute on exactly once, the
    row of the last minute holding the valid bar [b] of that symbol. *)
Definition chain_end (s : string) (b : bar) : Prop :=
  ∃ lo n a, au_open_ms <$> matching audit s ≡ₚ minutes lo n ∧
    a ∈ matching audit s ∧ (∀ y, y ∈ matching audit s → au_open_ms y <= au_open_ms a) ∧
    row_payload (au_payload a) ≫= model_validate = Ok b ∧ bar_symbol b = s.

Lemma chain_end_unique s b1 b2 : chain_end s b1 → chain_end s b2 → b1 = b2.
Proof.
  intros (lo & n & a1 & Hp & Ha1 & Hm1 & Hv1 & _) (_ & _ & a2 & _ & Ha2 & Hm2 & Hv2 & _).
  assert (a1 = a2) as ->; [|rewrite Hv1 in Hv2; by apply Ok_inj].
  assert (NoDup (au_open_ms <$> matching audit s)) as Hn by (rewrite Hp; apply minutes_NoDup).
  apply list_elem_of_lookup in Ha1 as Hl1. apply list_elem_of_lookup in Ha2 as Hl2. destruct Hl1 as [i Hi], Hl2 as [j Hj].
  assert (au_open_ms a1 = au_open_ms a2) as Heq by (apply Z.le_antisymm; [by apply Hm2|by apply Hm1]).
  assert (i = j) as ->; [|congruence].
  eapply NoDup_lookup; [exact Hn|by rewrite list_lookup_fmap, Hi|]. by rewrite list_lookup_fmap, Hj, Heq.
Qed.

Definition decode (r : chain_row) : result bar :=
  event ← (row_payload (cr_payload r) ≫= model_validate);
  _ ← raise_if (negb (String.eqb (bar_symbol event) (cr_symbol r))) EpochError "FIVE_UNIQUE_CONTIGUOUS_CHAINS_REQUIRED";
  Ok event.

Lemma anchor_of_decode acc r : anchor_of model_validate acc r = b ← decode r; Ok (<[cr_symbol r := b]> acc).
Proof.
  unfold anchor_of, decode. destruct (row_payload _) as [p|e]; [|done]. cbn [mbind result_bind].
  destruct (model_validate p) as [b|e]; [|done]. cbn [mbind result_bind]. by destruct (String.eqb _ _).
Qed.

Lemma anchors_fold m rows v :
  foldR (anchor_of model_validate) m rows = Ok v →
  ∀ s, (∃ r b, r ∈ rows ∧ cr_symbol r = s ∧ decode r = Ok b ∧ v !! s = Some b) ∨
       ((∀ r, r ∈ rows → cr_symbol r ≠ s) ∧ v !! s = m !! s).
Proof.
  revert m. induction rows as [|r rows IH]; intros m; cbn [foldR]; [intros [= ->] s; right; set_solver|].
  rewrite anchor_of_decode. intros (m' & (b & Hb & [= <-])%bind_Ok & Hv)%bind_Ok s.
  destruct (IH _ Hv s) as [(r' & b' & Hr' & Hs & Hd & Hl)|[Hno Hl]]; [left; exists r', b'; set_solver|].
  destruct (decide (cr_symbol r = s)) as [<-|Hne].
  - left. exists r, b. rewrite lookup_insert_eq in Hl. set_solver.
  - right. rewrite lookup_insert_ne in Hl by done. set_solver.
Qed.

Lemma anchors_fold_Ok m rows : (∀ r, r ∈ rows → ∃ b, decode r = Ok b) → ∃ v, foldR (anchor_of model_validate) m rows = Ok v.
Proof.
  revert m. induction rows as [|r rows IH]; intros m Hd; cbn [foldR]; [eauto|].
  destruct (Hd r ltac:(left)) as [b Hb]. rewrite anchor_of_decode, Hb. cbn [mbind result_bind]. apply IH. intros r' Hr'. apply Hd. by right.
Qed.

Context (aligned : ∀ a, a ∈ audit → au_open_ms a mod MINUTE = 0).

Lemma chain_of_spec s r :
  chain_of s (matching audit s) = Some r → chain_broken r = false →
  cr_symbol r = s ∧ ∀ b, decode r = Ok b → chain_end s b.
Proof.
  destruct (matching audit s) as [|a l] eqn:Em; [done|]. cbn [chain_of]. intros [= <-] Hb.
  unfold chain_broken in Hb. cbn [cr_n cr_u cr_lo cr_hi] in Hb. apply orb_false_iff in Hb as [[_ Hu%negb_false_iff]%orb_false_iff Hh%negb_false_iff].
  apply Z.eqb_eq in Hu, Hh. split; [done|]. intros b (e & He & Hb)%bind_Ok. cbn [cr_payload cr_symbol] in *.
  apply bind_Ok in Hb as ([] & Hs%raise_if_Ok%negb_false_iff%String.eqb_eq & [= <-]).
  assert (Forall (λ o, o mod MINUTE = 0) (au_open_ms <$> a :: l)) as Hal.
  { rewrite <- Em. apply Forall_fmap, Forall_forall. intros x Hx. apply aligned. unfold matching in Hx. by apply list_elem_of_filter in Hx as [_ ?]. }
  destruct (proj1 (contiguous_minutes _ _ Hal) (conj (eq_sym Hu) Hh)) as (lo & n & Hp).
  destruct (latest_row a l) as [Hin Hmax]. exists lo, n. eexists. rewrite Em. by split_and!.
Qed.

Lemma chain_of_complete s b :
  chain_end s b → ∃ r, chain_of s (matching audit s) = Some r ∧ chain_broken r = false ∧ cr_symbol r = s ∧ decode r = Ok b.
Proof.
  intros (lo & n & x & Hp & Hx & Hmx & Hv & Hs). destruct (matching audit s) as [|a l] eqn:Em; [by apply elem_of_nil in Hx|].
  eexists. split; [done|].
  assert (Forall (λ o, o mod MINUTE = 0) (au_open_ms <$> a :: l)) as Hal.
  { rewrite <- Em. apply Forall_fmap, Forall_forall. intros y Hy. apply aligned. unfold matching in Hy. by apply list_elem_of_filter in Hy as [_ ?]. }
  destruct (proj2 (contiguous_minutes _ _ Hal) (ex_intro _ lo (ex_intro _ n Hp))) as [Hu Hh].
  assert (foldl (λ best b, if later b best then b else best) a l = x) as Hbest.
  { destruct (latest_row a l) as [Hin Hmax]. set (y := foldl _ a l) in *.
    assert (NoDup (au_open_ms <$> a :: l)) as Hn by (rewrite Hp; apply minutes_NoDup).
    apply list_elem_of_lookup in Hx as Hl1. apply list_elem_of_lookup in Hin as Hl2. destruct Hl1 as [i Hi], Hl2 as [j Hj].
    assert (au_open_ms x = au_open_ms y) as Heq by (apply Z.le_antisymm; [by apply Hmax|by apply Hmx]).
    assert (j = i) as ->; [|congruence].
    eapply NoDup_lookup; [exact Hn|by rewrite list_lookup_fmap, Hj|]. by rewrite list_lookup_fmap, Hi, <- Heq. }
  split_and!; [|done|].
  - apply chain_whole; [discriminate|exact (eq_sym Hu)|exact Hh].
  - unfold decode. cbn [cr_payload cr_symbol]. rewrite Hbest, Hv. cbn [mbind result_bind]. by rewrite Hs, String.eqb_refl.
Qed.
End Chains.

Lemma symbol_set_SYMBOLS s : s ∈ symbol_set ↔ s ∈ SYMBOLS.
Proof. apply elem_of_list_to_set. Qed.

Lemma omap_all {A B} (f : A → option B) (l : list A) : length (omap f l) = length l → ∀ x, x ∈ l → is_Some (f x).
Proof.
  assert (∀ l, length (omap f l) ≤ length l)%nat as Hle.
  { clear l. induction l as [|x l IH]; [done|]. cbn. destruct (f x); cbn; lia. }
  induction l as [|x l IH]; [intros _ y Hy%elem_of_nil; done|]. specialize (Hle l). cbn. destruct (f x) eqn:Ef; cbn; intros Hlen y; [|lia].
  intros [->|Hy]%elem_of_cons; [by rewrite Ef|]. apply IH; [lia|done].
Qed.

Lemma omap_fmap_key {A B} (f : A → option B) (key : B → A) (l : list A) :
  (∀ x, x ∈ l → ∃ y, f x = Some y ∧ key y = x) → key <$> omap f l = l.
Proof.
  induction l as [|x l IH]; [done|]. intros Hl. destruct (Hl x ltac:(left)) as (y & Hy & Hk). cbn. rewrite Hy. cbn. rewrite Hk. f_equal.
  apply IH. intros z Hz. apply Hl. by right.
Qed.

Section Rows.
Context {bar : Type} `{ClosedBar bar} (model_validate : value → result bar) (audit : list audit_row).
Context (aligned : ∀ a, a ∈ audit → au_open_ms a mod MINUTE = 0).

Lemma elem_of_rows r : r ∈ anchors_sql audit ↔ ∃ s, s ∈ symbol_set ∧ chain_of s (matching audit s) = Some r.
Proof.
  unfold anchors_sql. rewrite list_elem_of_omap.
  assert (∀ s, s ∈ sort_str SYMBOLS ↔ s ∈ symbol_set) as Hin by (intros s; rewrite symbol_set_SYMBOLS; by rewrite (sort_str_perm SYMBOLS)).
  by setoid_rewrite Hin.
Qed.

(** Five unbroken rows are decoded to the ends of five chains. *)
Lemma anchors_sound v :
  foldR (anchor_of model_validate) ∅ (anchors_sql audit) = Ok v → existsb chain_broken (anchors_sql audit) = false →
  length (anchors_sql audit) = 5%nat →
  dom v = symbol_set ∧ ∀ s b, v !! s = Some b → chain_end model_validate audit s b.
Proof.
  intros Hv Hb Hlen. pose proof (anchors_fold model_validate _ _ _ Hv) as Hf.
  change 5%nat with (length (sort_str SYMBOLS)) in Hlen. pose proof (omap_all _ _ Hlen) as Hsome.
  assert (∀ r s, r ∈ anchors_sql audit → chain_of s (matching audit s) = Some r →
    cr_symbol r = s ∧ ∀ b, decode model_validate r = Ok b → chain_end model_validate audit s b) as Hok.
  { intros r s Hr Hc. apply (chain_of_spec model_validate audit aligned _ _ Hc). destruct (chain_broken r) eqn:Er; [|done].
    rewrite <- Hb. symmetry. apply existsb_exists. exists r. by rewrite <- list_elem_of_In. }
  split.
  - apply set_eq. intros s. rewrite elem_of_dom. destruct (Hf s) as [(r & b & Hr & Hs & _ & ->)|[Hno ->]].
    + apply elem_of_rows in Hr as Hr'. destruct Hr' as (s' & Hs' & Hc). destruct (Hok _ _ Hr Hc). naive_solver.
    + rewrite lookup_empty. split; [by intros []|]. intros Hs. destruct (Hsome s) as [r Hr].
      { rewrite (sort_str_perm SYMBOLS). by apply symbol_set_SYMBOLS. }
      assert (r ∈ anchors_sql audit) as Hr' by (apply elem_of_rows; eauto). destruct (Hno r Hr'). by destruct (Hok _ _ Hr' Hr).
  - intros s b. destruct (Hf s) as [(r & b' & Hr & Hs & Hd & ->)|[_ ->]]; [|by rewrite lookup_empty].
    intros [= <-]. apply elem_of_rows in Hr as Hr'. destruct Hr' as (s' & Hs' & Hc).
    destruct (Hok _ _ Hr Hc) as [Hcs Hend]. subst. auto.
Qed.

(** A chain for every symbol gives five unbroken rows that decode. *)
Lemma anchors_rows_complete :
  (∀ s, s ∈ symbol_set → ∃ b, chain_end model_validate audit s b) →
  cr_symbol <$> anchors_sql audit = sort_str SYMBOLS ∧ existsb chain_broken (anchors_sql audit) = false ∧
  ∀ r, r ∈ anchors_sql audit → ∃ b, decode model_validate r = Ok b.
Proof.
  intros Hval.
  assert (∀ s, s ∈ symbol_set → ∃ r, chain_of s (matching audit s) = Some r ∧ chain_broken r = false ∧ cr_symbol r = s ∧
    ∃ b, decode model_validate r = Ok b) as Hall.
  { intros s Hs. destruct (Hval s Hs) as [b Hb]. destruct (chain_of_complete model_validate audit aligned s b Hb) as (r & ? & ? & ? & ?). eauto 10. }
  split_and!.
  - apply omap_fmap_key. intros s Hs. rewrite (sort_str_perm SYMBOLS) in Hs. apply symbol_set_SYMBOLS in Hs.
    destruct (Hall s Hs) as (r & ? & _ & ? & _). eauto.
  - apply not_true_is_false. intros (r & Hr%list_elem_of_In & Hbr)%existsb_exists. apply elem_of_rows in Hr as (s & Hs & Hc).
    destruct (Hall s Hs) as (r' & Hc' & Hb' & _). congruence.
  - intros r (s & Hs & Hc)%elem_of_rows. destruct (Hall s Hs) as (r' & Hc' & _ & _ & Hd). by assert (r' = r) as <- by congruence.
Qed.
End Rows.

(** C10. What [anchors] accepts.  When stored open times lie on whole minutes,
    the query and the checks of [anchors] together return [values] if and only
    if [values] has exactly the five symbols and gives each of them the valid
    bar of the last stored minute of a chain in which every minute from the
    first to the last occurs exactly once: gaps, duplicates, missing symbols
    and payloads of another symbol are all refused. *)
Theorem anchors_exact {bar} `{ClosedBar bar} (model_validate : value → result bar) audit (values : gmap string bar)
  (aligned : ∀ a, a ∈ audit → au_open_ms a mod MINUTE = 0) :
  anchors model_validate (anchors_sql audit) = Ok values ↔
  dom values = symbol_set ∧ ∀ s b, values !! s = Some b → chain_end model_validate audit s b.
Proof.
  unfold anchors. split.
  - intros ([] & Hc%raise_if_Ok & Hv)%bind_Ok. apply orb_false_iff in Hc as [[[Hl%negb_false_iff%Nat.eqb_eq _]%orb_false_iff _]%orb_false_iff Hb].
    by apply anchors_sound.
  - intros [Hdom Hval]. destruct (anchors_rows_complete model_validate audit aligned) as (Hsym & Hb & Hd).
    { intros s Hs. rewrite <- Hdom in Hs. apply elem_of_dom in Hs as [b Hb]. eauto. }
    assert (length (anchors_sql audit) = 5%nat) as Hlen by by rewrite <- (length_fmap cr_symbol), Hsym.
    destruct (anchors_fold_Ok model_validate ∅ _ Hd) as [v Hv]. destruct (anchors_sound model_validate audit aligned v Hv Hb Hlen) as [Hvd Hve].
    assert (v = values) as <-; [|by rewrite Hsym, Hlen, Hb, Hv].
    apply map_eq. intros s. destruct (v !! s) as [b|] eqn:E1, (values !! s) as [b'|] eqn:E2; [| | |done].
    + f_equal. by eapply chain_end_unique; eauto.
    + apply elem_of_dom_2 in E1. apply not_elem_of_dom in E2. set_solver.
    + apply elem_of_dom_2 in E2. apply not_elem_of_dom in E1. set_solver.
Qed.

(** ** Witnesses *)
(** A bar by its symbol and open time. *)
Definition tick_bar : Type := string * Z.
#[local] Instance tick_bar_ClosedBar : ClosedBar tick_bar :=
  {| bar_symbol := fst; open_time_ms := snd; close_time_ms := λ b, b.2 + MINUTE - 1; canonical_bar_bytes := fst |}.
(** All symbols have the minute [k]. *)
Definition level (k : Z) : gmap string tick_bar := list_to_map ((λ s, (s, (s, k * MINUTE))) <$> SYMBOLS).

Lemma batch_bounded_and_maximal_witness :
  bounded_runtime_end (level 9) (VInt 6000000) = Ok 1800000 ∧
  ∃ m n, latest (level 9) = Ok m ∧ m <= 1800000 <= 6000000 ∧ (1800000 - m) mod MINUTE = 0 ∧ required_bars (level 9) 1800000 = Ok n ∧
    0 <= n <= 100 ∧ (1800000 = 6000000 ∨ 100 < n + 5).
Proof.
  assert (bounded_runtime_end (level 9) (VInt 6000000) = Ok 1800000) as H by (vm_compute; reflexivity).
  split; [exact H|exact (batch_bounded_and_maximal (level 9) 6000000 1800000 H)].
Defined.

Lemma level_end k e : e = (k + 1) * MINUTE → (dom (level k) = symbol_set) → at_end (level k) e.
Proof.
  intros -> Hd. split; [done|]. apply Forall_forall. intros w (s & b & Hb & ->)%elem_of_watermarks.
  apply elem_of_list_to_map_2, list_elem_of_fmap in Hb as (s' & [= -> ->] & _). unfold watermark. cbn. change MINUTE with 60000. lia.
Qed.

Lemma catchup_reaches_target_witness :
  (∃ e, bounded_runtime_end (level 9) (VInt 2400000) = Ok e) ∧
  ∀ i e, [1800000; 2400000] !! i = Some e → e <= 2400000 ∧ (2400000 - 600000 <= 20 * (Z.of_nat i + 1) * MINUTE → e = 2400000).
Proof.
  apply (catchup_reaches_target (level 9) 600000 2400000 [1800000; 2400000]).
  - apply level_end; [reflexivity|by_decide].
  - reflexivity.
  - reflexivity.
  - apply Z.leb_le. reflexivity.
  - apply (catch_batch _ _ _ (level 29)); [vm_compute; reflexivity|apply level_end; [reflexivity|by_decide]|].
    apply (catch_batch _ _ _ (level 39)); [vm_compute; reflexivity|apply level_end; [reflexivity|by_decide]|]. apply catch_done.
Defined.

(** Two contiguous minutes of every symbol, the later one stored first. *)
Definition minute_payload (s : string) (k : Z) : value := VDict [("symbol", VStr s); ("minute", VInt k)].
Definition two_minutes : list audit_row :=
  ((λ s, AuditRow TOPIC SOURCE s 60000 7 "b" (minute_payload s 1)) <$> SYMBOLS)
  ++ ((λ s, AuditRow TOPIC SOURCE s 0 8 "a" (minute_payload s 0)) <$> SYMBOLS).
Definition validate_minute (v : value) : result tick_bar :=
  match v with VDict [(_, VStr s); (_, VInt k)] => Ok (s, k * MINUTE) | _ => raise ValueError "" end.

Lemma anchors_exact_witness :
  anchors validate_minute (anchors_sql two_minutes) = Ok (level 1) ∧
  ∀ s b, level 1 !! s = Some b → chain_end validate_minute two_minutes s b.
Proof.
  assert (∀ a, a ∈ two_minutes → au_open_ms a mod MINUTE = 0) as Hal by (apply Forall_forall; by_decide).
  assert (anchors validate_minute (anchors_sql two_minutes) = Ok (level 1)) as Ha by (vm_compute; reflexivity).
  split; [exact Ha|]. exact (proj2 (proj1 (anchors_exact validate_minute two_minutes (level 1) Hal) Ha)).
Defined.
