(* ===== verification/EpochFetchSpec.v ===== *)
(** * Confirmation rounds and the fetch of one page ([EpochSource]) *)

From stdpp Require Import gmap strings.
From S2P Require Import Prelude PyStr Regex PyVal Json Effects EpochPublication EpochSource.

Local Open Scope string_scope.
Local Open Scope list_scope.
Local Open Scope Z_scope.

(** ** Confirmation rounds *)
Section Rounds.
Context {bar : Type} `{ClosedBar bar} (parse_page : value → string → Z → Z → result (list bar)).
Context (symbol : string) (anchor : bar) (end_exclusive : Z) (rounds : nat → round) (write_progress : nat → result unit).

(** The round appended nothing: it failed while it compared two fetches of the
    same page behind the anchor, which agree on the anchor and on the number of
    bars, and differ after it. *)
Definition harmless_mismatch (r : round) : Prop :=
  ∃ e first second b1 l1 b2 l2, rd_outcome r = Err e ∧ exc_cls e = RecoveryError ∧
    rd_phase r = Some "CONFIRMATION_COMPARE" ∧ rd_appended r = Some 0 ∧
    observations r = [first; second] ∧
    Forall (λ o, obs_symbol o = symbol ∧ obs_start o = open_time_ms anchor ∧
      obs_finish o = Z.min end_exclusive (open_time_ms anchor + RECOVERY_PAGE_SIZE * MINUTE)) [first; second] ∧
    parse_page (obs_raw first) symbol (obs_start first) (obs_finish first) = Ok (b1 :: l1) ∧
    parse_page (obs_raw second) symbol (obs_start second) (obs_finish second) = Ok (b2 :: l2) ∧
    canonical_bar_bytes b1 = canonical_bar_bytes anchor ∧ canonical_bar_bytes b2 = canonical_bar_bytes anchor ∧
    (1 ≤ length l1)%nat ∧ length l1 = length l2 ∧ canonical_bar_bytes <$> l1 ≠ canonical_bar_bytes <$> l2.

Lemma safe_confirmation_spec obs :
  safe_unpublished_confirmation parse_page obs symbol anchor end_exclusive = true →
  ∃ first second b1 l1 b2 l2, obs = [first; second] ∧
    Forall (λ o, obs_symbol o = symbol ∧ obs_start o = open_time_ms anchor ∧
      obs_finish o = Z.min end_exclusive (open_time_ms anchor + RECOVERY_PAGE_SIZE * MINUTE)) [first; second] ∧
    parse_page (obs_raw first) symbol (obs_start first) (obs_finish first) = Ok (b1 :: l1) ∧
    parse_page (obs_raw second) symbol (obs_start second) (obs_finish second) = Ok (b2 :: l2) ∧
    canonical_bar_bytes b1 = canonical_bar_bytes anchor ∧ canonical_bar_bytes b2 = canonical_bar_bytes anchor ∧
    (1 ≤ length l1)%nat ∧ length l1 = length l2 ∧ canonical_bar_bytes <$> l1 ≠ canonical_bar_bytes <$> l2.
Proof.
  unfold safe_unpublished_confirmation. destruct obs as [|first [|second [|]]]; try done.
  destruct (negb _ || _ || _ || _) eqn:Eh; [done|].
  destruct (parse_page (obs_raw first) _ _ _) as [[|b1 l1]|] eqn:E1; [done| |done].
  destruct (parse_page (obs_raw second) _ _ _) as [[|b2 l2]|] eqn:E2; [done| |done].
  destruct (negb (bool_decide _) || _) eqn:El; [done|]. destruct (negb (String.eqb (canonical_bar_bytes b1) _) || _) eqn:Ea; [done|]. intros Hd.
  bool_inv. repeat match goal with H : Nat.eqb _ _ = true |- _ => apply Nat.eqb_eq in H end.
  exists first, second, b1, l1, b2, l2. split_and!; try done. repeat constructor; congruence.
Qed.

Lemma must_raise_harmless k r e :
  rd_outcome r = Err e → must_raise parse_page symbol anchor end_exclusive k r e = false → k < 2 ∧ harmless_mismatch r.
Proof.
  intros He. unfold must_raise. change MAX_UNPUBLISHED_CONFIRMATION_RETRIES with 2. intros Hm. bool_inv.
  match goal with H : safe_unpublished_confirmation _ _ _ _ _ = true |- _ => apply safe_confirmation_spec in H as (first & second & b1 & l1 & b2 & l2 & Hs) end.
  split; [done|]. exists e, first, second, b1, l1, b2, l2. tauto.
Qed.

Lemma rounds_from fuel k :
  (k + fuel = 3)%nat → (0 < fuel)%nat → (∀ j, (j < k)%nat → harmless_mismatch (rounds j) ∧ write_progress j = Ok tt) →
  ∃ n out, recover_with_confirmation_retries parse_page symbol anchor end_exclusive rounds write_progress fuel k (Z.of_nat k) = Some out ∧
    (n ≤ 2)%nat ∧ (∀ j, (j < n)%nat → harmless_mismatch (rounds j) ∧ write_progress j = Ok tt) ∧
    match rd_outcome (rounds n) with
    | Ok count => out = Ok (count, Z.of_nat n)
    | Err e => out = Err e ∨ (harmless_mismatch (rounds n) ∧ ∃ e', write_progress n = Err e' ∧ out = Err e')
    end.
Proof.
  revert k. induction fuel as [|fuel IH]; [lia|]. intros k Hk _ Hj. cbn [recover_with_confirmation_retries].
  destruct (rd_outcome (rounds k)) as [count|e] eqn:Eo.
  { exists k, (Ok (count, Z.of_nat k)). rewrite Eo. split_and!; [done|lia|done|done]. }
  destruct (must_raise _ _ _ _ _ _ _) eqn:Em.
  { exists k, (Err e). rewrite Eo. split_and!; [done|lia|done|by left]. }
  apply must_raise_harmless in Em as [Hlt Hh]; [|done]. destruct (write_progress k) as [[]|e'] eqn:Ew.
  - replace (Z.of_nat k + 1) with (Z.of_nat (S k)) by lia. apply IH; [lia|lia|]. intros j Hjk.
    destruct (decide (j = k)) as [->|]; [done|]. apply Hj. lia.
  - exists k, (Err e'). rewrite Eo. split_and!; [done|lia|done|]. right. eauto.
Qed.
End Rounds.

(** Confirmation rounds end and are harmless.  At most three rounds are
    made; every round that another one follows appended nothing and failed only
    because two fetches of the page behind the anchor differ after it; a count
    is the count of the last round, and an error is the error of the last round
    or of the progress report it led to. *)
Theorem confirmation_rounds_harmless {bar} `{ClosedBar bar} (parse_page : value → string → Z → Z → result (list bar))
  (symbol : string) (anchor : bar) (end_exclusive : Z) (rounds : nat → round) (write_progress : nat → result unit) :
  ∃ n out, recover_with_confirmation_retries parse_page symbol anchor end_exclusive rounds write_progress 3 0 0 = Some out ∧
    (n ≤ 2)%nat ∧ (∀ j, (j < n)%nat → harmless_mismatch parse_page symbol anchor end_exclusive (rounds j) ∧ write_progress j = Ok tt) ∧
    match rd_outcome (rounds n) with
    | Ok count => out = Ok (count, Z.of_nat n)
    | Err e => out = Err e ∨
        (harmless_mismatch parse_page symbol anchor end_exclusive (rounds n) ∧ ∃ e', write_progress n = Err e' ∧ out = Err e')
    end.
Proof. apply (rounds_from parse_page symbol anchor end_exclusive rounds write_progress 3 0); [done|lia|lia]. Qed.

(** ** Fetching one page *)
Section Fetch.
Context (env : environment fres) (fuel : nat) (json_loads_bytes : string → result value) (symbol : string) (start finish : Z).
Abbreviation hist := (list (event fres)).

Definition the_get : fop := FGet symbol start (finish - 1) ((finish - start) / MINUTE).
Definition chunk_events (chunks : list string) : hist := (λ c, @Ev fop fres FChunk (Ok (Some c))) <$> chunks.
(** The events of a response of status 200 whose body is [chunks], complete. *)
Definition page_events (content_length : option Z) (chunks : list string) : hist :=
  @Ev fop fres the_get (Ok (200, content_length)) :: chunk_events chunks ++ [@Ev fop fres FChunk (Ok None)].

(** What [aiohttp] documents of [iter_chunked]: no chunk is empty. *)
Context (nonempty_chunks : ∀ h c, env h FChunk = Ok (Some c) → 1 <= slen c).

Definition is_chunk (o : fop) : bool := match o with FChunk => true | _ => false end.

Lemma fask_eq o h : fask env o h = (out_of (env h o), h ++ [Ev o (env h o)]).
Proof. reflexivity. Qed.

(** The body is read to its end, or the reading fails; it never runs out of
    fuel when this exceeds the bound on the size. *)
Lemma read_chunks_spec n acc h :
  slen acc <= 2000000 → 2000001 - slen acc <= Z.of_nat n →
  ∃ evs out, read_chunks env n (slen acc) acc h = (out, h ++ evs) ∧ Forall (λ e, is_chunk (ev_op e) = true) evs ∧
    match out with
    | Ret body => ∃ chunks, evs = chunk_events chunks ++ [@Ev fop fres FChunk (Ok None)] ∧ body = acc +:+ sconcat chunks ∧
                    slen body <= 2000000
    | Exn e => e = Exc EpochError "REST_RESPONSE_BOUND_EXCEEDED" ∨ ∃ h', env h' FChunk = Err e
    | Fuel => False
    end.
Proof.
  revert acc h. induction n as [|n IH]; intros acc h Hs Hn; [lia|]. cbn [read_chunks].
  destruct (env h FChunk) as [[chunk|]|e] eqn:Ec.
  - erewrite bind_val by (rewrite fask_eq, Ec; done). cbn beta iota zeta. pose proof (nonempty_chunks h chunk Ec) as Hne.
    rewrite <- slen_app. destruct (2000000 <? slen (acc +:+ chunk)) eqn:Eb.
    + eexists [_], _. split; [reflexivity|]. split; [by repeat constructor|]. by left.
    + erewrite bind_val by done. apply Z.ltb_ge in Eb. destruct (IH (acc +:+ chunk) (h ++ [@Ev fop fres FChunk (Ok (Some chunk))])) as (evs & out & Hr & Hf & Ho).
      { done. } { rewrite slen_app. lia. }
      exists (@Ev fop fres FChunk (Ok (Some chunk)) :: evs), out. rewrite <- app_assoc in Hr. split; [exact Hr|]. split; [by constructor|].
      destruct out as [body|e|]; [|done..]. destruct Ho as (chunks & -> & -> & Hle). exists (chunk :: chunks).
      split; [done|]. split; [|done]. cbn [sconcat foldr]. by rewrite app_assoc_str.
  - erewrite bind_val by (rewrite fask_eq, Ec; done). cbn beta iota. eexists [_], _. split; [reflexivity|]. split; [by repeat constructor|].
    exists []. split; [done|]. split; [by rewrite app_nil_r_str|done].
  - eexists [_], _. split; [unfold mbind, M_bind; rewrite fask_eq, Ec; reflexivity|]. split; [by repeat constructor|]. right. eauto.
Qed.

(** The errors that an attempt can end with. *)
Definition attempt_error (e : exc) : Prop :=
  e = Exc EpochError "OFFICIAL_CLOSED_BAR_FETCH_FAILED" ∨ e = Exc EpochError "REST_RESPONSE_BOUND_EXCEEDED" ∨
  (∃ h o, env h o = Err e) ∨ ∃ body, json_loads_bytes body = Err e.

Lemma fetch_once_spec h :
  2000001 <= Z.of_nat fuel →
  ∃ evs r out, fetch_once env fuel json_loads_bytes symbol start finish h = (out, h ++ @Ev fop fres the_get r :: evs) ∧
    Forall (λ e, is_chunk (ev_op e) = true) evs ∧
    match out with
    | Ret v => ∃ n chunks, r = Ok (200, n) ∧ evs = chunk_events chunks ++ [@Ev fop fres FChunk (Ok None)] ∧
                 slen (sconcat chunks) <= 2000000 ∧ json_loads_bytes (sconcat chunks) = Ok v
    | Exn e => attempt_error e
    | Fuel => False
    end.
Proof.
  intros Hf. unfold fetch_once. destruct (env h the_get) as [[status n]|e] eqn:Eg.
  - erewrite bind_val by (unfold the_get in *; rewrite fask_eq, Eg; done). cbn beta iota.
    destruct (negb (status =? 200) || _) eqn:Eb.
    { eexists [], _, _. split; [reflexivity|]. split; [done|]. by left. }
    erewrite bind_val by done. apply orb_false_iff in Eb as [->%negb_false_iff%Z.eqb_eq _].
    destruct (read_chunks_spec fuel EmptyString (h ++ [@Ev fop fres the_get (Ok (200, n))])) as (evs & out & Hr & Hfa & Ho); [done|done|].
    change (slen EmptyString) with 0 in Hr. rewrite <- app_assoc in Hr. unfold the_get in *.
    erewrite bind_out by exact Hr.
    destruct out as [body|e|]; [|exists evs, (Ok (200, n)), (Exn e)..|done].
    + destruct Ho as (chunks & -> & -> & Hle). cbn [String.append] in *. eexists _, (Ok (200, n)), _. split; [reflexivity|]. split; [done|].
      destruct (json_loads_bytes _) as [v|e] eqn:Ej; cbn; [by exists n, chunks|]. right; right; right. eauto.
    + split; [done|]. split; [done|]. destruct Ho as [->|[h' Hh]]; [by right; left|]. right; right; left. eauto.
  - eexists [], (Err e), (Exn e). split; [unfold mbind, M_bind; unfold the_get in *; rewrite fask_eq, Eg; reflexivity|].
    split; [done|]. right; right; left. eauto.
Qed.
(** The requests and the pauses, in order. *)
Definition controls (h : hist) : list fop := filter (λ o, is_chunk o = false) (ev_op <$> h).
Definition plan : list fop := [the_get; FSleep 2; the_get; FSleep 4; the_get].

Lemma controls_app h1 h2 : controls (h1 ++ h2) = controls h1 ++ controls h2.
Proof. unfold controls. by rewrite fmap_app, filter_app. Qed.

Lemma controls_get r evs : Forall (λ e, is_chunk (ev_op e) = true) evs → controls (@Ev fop fres the_get r :: evs) = [the_get].
Proof.
  intros Hf. unfold controls. cbn [fmap list_fmap ev_op]. rewrite filter_cons_True by done. f_equal.
  induction Hf as [|e evs He Hf IH]; [done|]. cbn [fmap list_fmap]. rewrite filter_cons_False by (by rewrite He). done.
Qed.

Definition page_received (h : hist) (v : value) : Prop :=
  ∃ h0 n chunks, h = h0 ++ page_events n chunks ∧ slen (sconcat chunks) <= 2000000 ∧ json_loads_bytes (sconcat chunks) = Ok v.

Definition exhausted (e : exc) : Prop := e = Exc EpochError FETCH_TIMEOUT ∨ e = Exc EpochError FETCH_DNS_FAILURE.

Lemma attempt_spec i h :
  (i < 3)%nat → 2000001 <= Z.of_nat fuel →
  ∃ evs out, try_except fetch_retryable (v ← fetch_once env fuel json_loads_bytes symbol start finish; mret (Some v)) (fetch_deferred env i) h
      = (out, h ++ evs) ∧
    match out with
    | Ret (Some v) => controls evs = [the_get] ∧ page_received evs v
    | Ret None => (i < 2)%nat ∧ controls evs = [the_get; FSleep (nth i FETCH_RETRY_SECONDS 0)]
    | Exn e => (controls evs = [the_get] ∧ (i = 2%nat ∧ exhausted e ∨ attempt_error e ∧ fetch_retryable (exc_cls e) = false)) ∨
               ((i < 2)%nat ∧ controls evs = [the_get; FSleep (nth i FETCH_RETRY_SECONDS 0)] ∧ attempt_error e)
    | Fuel => False
    end.
Proof.
  intros Hi Hf. destruct (fetch_once_spec h Hf) as (evs & r & out & Hr & Hc & Ho). pose proof (controls_get r evs Hc) as Hg.
  unfold try_except. erewrite bind_out by exact Hr. destruct out as [v|e|]; [| |done].
  - exists (Ev the_get r :: evs), (Ret (Some v)). split; [done|]. split; [done|].
    destruct Ho as (n & chunks & -> & -> & Hle & Hj). by exists [], n, chunks.
  - destruct (fetch_retryable (exc_cls e)) eqn:Er; [|exists (Ev the_get r :: evs), (Exn e); by split; [|left; split; [|right]]].
    unfold fetch_deferred. destruct (Nat.eqb (i + 1) FETCH_ATTEMPTS) eqn:Ei.
    + apply Nat.eqb_eq in Ei. change FETCH_ATTEMPTS with 3%nat in Ei.
      eexists (Ev the_get r :: evs), _. split; [reflexivity|]. left. split; [done|]. left. split; [lia|].
      unfold exhausted. destruct (bool_decide _); auto.
    + apply Nat.eqb_neq in Ei. change FETCH_ATTEMPTS with 3%nat in Ei.
      set (o := FSleep (nth i FETCH_RETRY_SECONDS 0)). set (h1 := h ++ Ev the_get r :: evs).
      exists (Ev the_get r :: evs ++ [@Ev fop fres o (env h1 o)]), (match env h1 o with Ok _ => Ret None | Err e => Exn e end).
      assert (controls (Ev the_get r :: evs ++ [@Ev fop fres o (env h1 o)]) = [the_get; o]) as Hco.
      { change (Ev the_get r :: evs ++ ?x) with ((Ev the_get r :: evs) ++ x). by rewrite controls_app, Hg. }
      split; [erewrite bind_out by (apply fask_eq); rewrite app_comm_cons, app_assoc; by destruct (env h1 o)|].
      destruct (env h1 o) eqn:Eo; [split; [lia|done]|]. right. split; [lia|]. split; [done|]. right; right; left. eauto.
Qed.

Lemma fetch_attempts_spec m i h :
  (i + m = 3)%nat → (0 < m)%nat → 2000001 <= Z.of_nat fuel →
  ∃ evs out k, fetch_attempts env fuel json_loads_bytes symbol start finish (seq i m) h = (out, h ++ evs) ∧
    (1 ≤ k ≤ 5 - 2 * i)%nat ∧ controls evs = take k (drop (2 * i) plan) ∧
    match out with
    | Ret v => page_received evs v
    | Exn e => k = (5 - 2 * i)%nat ∧ exhausted e ∨ attempt_error e ∧ (fetch_retryable (exc_cls e) = true → k = 2%nat ∨ k = 4%nat)
    | Fuel => False
    end.
Proof.
  revert i h. induction m as [|m IH]; [lia|]. intros i h Hi _ Hf. cbn [seq fetch_attempts].
  destruct (attempt_spec i h ltac:(lia) Hf) as (evs & out & Hr & Ho). erewrite bind_out by exact Hr.
  assert (∀ o, o = FSleep (nth i FETCH_RETRY_SECONDS 0) → (i < 2)%nat → take 2 (drop (2 * i) plan) = [the_get; o]) as Htake.
  { intros o -> Hi2. destruct i as [|[|i]]; [done|done|lia]. }
  assert (take 1 (drop (2 * i) plan) = [the_get]) as Htake1 by (destruct i as [|[|[|i]]]; [done..|lia]).
  destruct out as [[v|]|e|]; [| | |done].
  - destruct Ho as [Hc Hp]. exists evs, (Ret v), 1%nat. split; [done|]. split; [lia|]. by rewrite Htake1.
  - destruct Ho as [Hi2 Hc]. destruct (IH (S i) (h ++ evs)) as (evs' & out & k & Hr' & Hk & Hc' & Ho'); [lia|lia|done|].
    exists (evs ++ evs'), out, (2 + k)%nat. rewrite app_assoc. split; [exact Hr'|]. split; [lia|]. split.
    { rewrite controls_app, Hc, Hc'. rewrite <- (Htake _ eq_refl Hi2). rewrite <- (take_take_drop _ 2 k), drop_drop. do 3 f_equal. lia. }
    destruct out as [v|e|]; [| |done].
    + destruct Ho' as (h0 & n & chunks & -> & Hle). exists (evs ++ h0), n, chunks. by rewrite app_assoc.
    + destruct Ho' as [[Hk' He]|[He Hk']]; [left; split; [lia|done]|right]. split; [done|]. intros Hret. destruct (Hk' Hret); lia.
  - destruct Ho as [[Hc [[-> He]|[He Hret]]]|(Hi2 & Hc & He)].
    + exists evs, (Exn e), 1%nat. split; [done|]. split; [lia|]. rewrite Htake1. split; [done|]. by left.
    + exists evs, (Exn e), 1%nat. split; [done|]. split; [lia|]. rewrite Htake1. split; [done|]. right. split; [done|]. by rewrite Hret.
    + exists evs, (Exn e), 2%nat. split; [done|]. split; [lia|]. rewrite (Htake _ eq_refl Hi2). split; [done|]. right. auto.
Qed.
End Fetch.

(** Fetching one page is bounded and honest.  Whatever the source answers,
    the requests and pauses are a non-empty prefix of: the one request, 2
    seconds, the request, 4 seconds, the request, and the routine ends; a
    returned page is the parsed complete body, of at most 2,000,000 bytes, of a
    last response of status 200; the errors that stand for an outage are
    raised after the third request only, and a time-out or name failure of the
    source never escapes from a request itself. *)
Theorem fetch_page_bounded (env : environment fres) (fuel : nat) (json_loads_bytes : string → result value) symbol start finish
  (nonempty_chunks : ∀ h c, env h FChunk = Ok (Some c) → 1 <= slen c) (Hfuel : 2000001 <= Z.of_nat fuel) :
  ∃ h out k, fetch_closed_bar_page env fuel json_loads_bytes symbol start finish [] = (out, h) ∧
    (1 ≤ k ≤ 5)%nat ∧ controls h = take k (plan symbol start finish) ∧
    match out with
    | Ret v => page_received json_loads_bytes symbol start finish h v
    | Exn e => k = 5%nat ∧ exhausted e ∨
               attempt_error env json_loads_bytes e ∧ (fetch_retryable (exc_cls e) = true → k = 2%nat ∨ k = 4%nat)
    | Fuel => False
    end.
Proof.
  destruct (fetch_attempts_spec env fuel json_loads_bytes symbol start finish nonempty_chunks 3 0 []) as (evs & out & k & H);
    [done|lia|done|]. by exists evs, out, k.
Qed.

(** ** Witness *)
(** A source whose first request times out and whose second returns one chunk. *)
Definition flaky_source : environment fres := λ h o,
  match o with
  | FGet _ _ _ _ => if Nat.eqb (length h) 0 then Err (Exc TimeoutError "") else Ok (200, None)
  | FChunk => if Nat.eqb (length h) 3 then Ok (Some "[]") else Ok None
  | FSleep _ => Ok tt
  end.

Lemma fetch_page_bounded_witness :
  ∃ h out k, fetch_closed_bar_page flaky_source (Z.to_nat 2000001) (λ _, Ok VNone) "BTCUSDT" 0 60000 [] = (out, h) ∧
    (1 ≤ k ≤ 5)%nat ∧ controls h = take k (plan "BTCUSDT" 0 60000) ∧
    match out with
    | Ret v => page_received (λ _, Ok VNone) "BTCUSDT" 0 60000 h v
    | Exn e => k = 5%nat ∧ exhausted e ∨
               attempt_error flaky_source (λ _, Ok VNone) e ∧ (fetch_retryable (exc_cls e) = true → k = 2%nat ∨ k = 4%nat)
    | Fuel => False
    end.
Proof.
  apply fetch_page_bounded.
  - intros h c. cbn. destruct (Nat.eqb (length h) 3); [|discriminate]. intros Hc. injection Hc as <-. discriminate.
  - rewrite Z2Nat.id by lia. lia.
Defined.
