(* ===== verification/EpochTransport.v ===== *)
(** * The consumer's Redis transport ([scripts/runtime_epoch_worker.py])

    Bounded replay of idempotent commands ([runtime_redis_call]) and the
    subscription loop of [EpochRedisTransport], which after a connectivity
    failure first drains the entries that Redis already assigned to this
    consumer.  Redis, the clock, the stop event and the consumer of the
    generator answer as functions of the history. *)

From stdpp Require Import gmap strings.
From S2P Require Import Prelude PyStr Regex PyVal Json Effects EpochPublication.

Local Open Scope string_scope.
Local Open Scope list_scope.
Local Open Scope Z_scope.

Definition RUNTIME_REDIS_BLOCK_MS : Z := 1000.
Definition RUNTIME_REDIS_COMMAND_SECONDS : flt := fz 6.
Definition RUNTIME_REDIS_RECOVERY_SECONDS : flt := fz 22.
Definition RUNTIME_REDIS_ATTEMPTS : nat := 3.
Definition RUNTIME_REDIS_BACKOFF_SECONDS : list flt := [float_of_dec false 25 (-2); float_of_dec false 5 (-1)].

(** [AuthenticationError] is a subclass of redis-py's [ConnectionError]. *)
Definition redis_transport_failure (c : exc_class) : bool :=
  match c with RedisConnectionError | RedisTimeoutError | TimeoutError => true | _ => false end.

Definition error_name_re : regex := RSeq (RChar (λ c, is_lower c || is_upper c)) (RUpto 63 (RChar (λ c, is_alnum c || Ascii.eqb c "_"))).
(** The argument is [type(error).__name__]. *)
Definition redis_error_class (name : string) : string := if fullmatch error_name_re name then name else "OtherError".

Definition failure_keys : list string := ["stage"; "elapsed_ms"; "error_class"; "attempts"].
Definition stages : list string := ["ensure_group"; "pending_read"; "reclaim"; "new_message_read"; "ack"].

Definition sanitized_redis_failure (v : value) : result (option value) :=
  match v with
  | VDict d =>
      if negb (keys_are d failure_keys) then Ok None
      else
        _ ← raise_if (negb (hashable (dget "stage" d))) TypeError "unhashable type";
        if negb (match dget "stage" d with VStr s => bool_decide (s ∈ stages) | _ => false end) then Ok None
        else match dget "elapsed_ms" d, dget "attempts" d, dget "error_class" d with
        | VInt elapsed, VInt attempts, VStr name =>
            if (0 <=? elapsed) && (elapsed <=? 86400000) && (1 <=? attempts) && (attempts <=? Z.of_nat RUNTIME_REDIS_ATTEMPTS)
               && fullmatch error_name_re name
            then Ok (Some (VDict d)) else Ok None
        | _, _, _ => Ok None
        end
  | _ => Ok None
  end.

Record telemetry := Telemetry {
  transport_failures : Z; recoveries : Z; pending_replays : Z; last_failure : option value;
}.

(** ** The outside world *)
(** The fields of a stream entry, in order; [] also stands for no fields. *)
Notation entry_fields := (list (string * string)).
Record envelope := Envelope { en_id : string; en_payload : value; en_attempt : option Z; en_reclaimed : bool }.
Definition read_response : Type := option (list (string * list (string * entry_fields))).

Inductive top :=
  | TStop | TClock
  | TEnsureGroup | TXack (id : string)
  | TReadPending (timeout : flt)       (* XREADGROUP with "0" under asyncio.timeout *)
  | TReclaim (timeout : flt)
  | TReadNew (timeout : flt)           (* XREADGROUP with ">" *)
  | TYield (e : envelope)              (* until the consumer asks for the next *)
  | TPause (seconds : flt).            (* asyncio.wait_for(stop.wait(), seconds) *)
Definition tres (o : top) : Type :=
  match o with
  | TStop => bool
  | TClock => flt
  | TReadPending _ | TReadNew _ => read_response
  | TReclaim _ => list (string * entry_fields * Z)
  | _ => unit
  end.

(** The local variables of [subscribe], the telemetry, and the attribute
    [redis_transport] of the last error that [redis_epoch_error] made. *)
Record tstate := TState {
  ts_tel : telemetry; last_reclaim : flt; replay_pending : bool; failures : Z;
  recovery_deadline : option flt; recovery_started_at : option flt; recovery_pending : bool;
  operation_stage : string; redis_transport : option value; ts_hist : list (event tres);
}.
Definition set_tel (t : telemetry) (s : tstate) : tstate :=
  TState t (last_reclaim s) (replay_pending s) (failures s) (recovery_deadline s) (recovery_started_at s) (recovery_pending s)
    (operation_stage s) (redis_transport s) (ts_hist s).
Definition set_reclaim (f : flt) (s : tstate) : tstate :=
  TState (ts_tel s) f (replay_pending s) (failures s) (recovery_deadline s) (recovery_started_at s) (recovery_pending s)
    (operation_stage s) (redis_transport s) (ts_hist s).
Definition set_replay (b : bool) (s : tstate) : tstate :=
  TState (ts_tel s) (last_reclaim s) b (failures s) (recovery_deadline s) (recovery_started_at s) (recovery_pending s)
    (operation_stage s) (redis_transport s) (ts_hist s).
Definition set_failures (n : Z) (s : tstate) : tstate :=
  TState (ts_tel s) (last_reclaim s) (replay_pending s) n (recovery_deadline s) (recovery_started_at s) (recovery_pending s)
    (operation_stage s) (redis_transport s) (ts_hist s).
Definition set_recovery (deadline started : option flt) (s : tstate) : tstate :=
  TState (ts_tel s) (last_reclaim s) (replay_pending s) (failures s) deadline started (recovery_pending s)
    (operation_stage s) (redis_transport s) (ts_hist s).
Definition set_recovery_pending (b : bool) (s : tstate) : tstate :=
  TState (ts_tel s) (last_reclaim s) (replay_pending s) (failures s) (recovery_deadline s) (recovery_started_at s) b
    (operation_stage s) (redis_transport s) (ts_hist s).
Definition set_stage (stage : string) (s : tstate) : tstate :=
  TState (ts_tel s) (last_reclaim s) (replay_pending s) (failures s) (recovery_deadline s) (recovery_started_at s) (recovery_pending s)
    stage (redis_transport s) (ts_hist s).
Definition set_attribute (v : option value) (s : tstate) : tstate :=
  TState (ts_tel s) (last_reclaim s) (replay_pending s) (failures s) (recovery_deadline s) (recovery_started_at s) (recovery_pending s)
    (operation_stage s) v (ts_hist s).
Definition tlog (e : event tres) (s : tstate) : tstate :=
  TState (ts_tel s) (last_reclaim s) (replay_pending s) (failures s) (recovery_deadline s) (recovery_started_at s) (recovery_pending s)
    (operation_stage s) (redis_transport s) (ts_hist s ++ [e]).

Definition set_last (v : option value) (t : telemetry) : telemetry :=
  Telemetry (transport_failures t) (recoveries t) (pending_replays t) v.
Definition one_failure (t : telemetry) : telemetry :=
  Telemetry (transport_failures t + 1) (recoveries t) (pending_replays t) (last_failure t).
Definition one_recovery (t : telemetry) : telemetry :=
  Telemetry (transport_failures t) (recoveries t + 1) (pending_replays t) (last_failure t).
Definition one_replay (t : telemetry) : telemetry :=
  Telemetry (transport_failures t) (recoveries t) (pending_replays t + 1) (last_failure t).
Definition on_tel (f : telemetry → telemetry) : M tstate unit := modify (λ s, set_tel (f (ts_tel s)) s).

Section Transport.
Context (env : environment tres) (fuel : nat).
(** [type(error).__name__] *)
Context (type_name : exc → string).

Definition task (o : top) : M tstate (tres o) := perform tres ts_hist tlog env o.

Definition redis_retry_pause (seconds : flt) : M tstate unit :=
  stopped ← task TStop;
  throw_if stopped CancelledError "";;
  timed_out ← try_except (λ c, bool_decide (c = TimeoutError)) (task (TPause seconds);; mret false) (λ _, mret true);
  if (timed_out : bool) then mret tt else throw CancelledError "".

Definition record_redis_failure (stage : string) (started_at : flt) (error_class : string) (attempts : Z) : M tstate unit :=
  now ← task TClock;
  elapsed ← liftR (int_of_float (SFmul f64_prec f64_emax (fsub now started_at) (fz 1000)));
  on_tel (set_last (Some (VDict [
    ("stage", VStr stage); ("elapsed_ms", VInt (Z.min 86400000 (Z.max 0 elapsed)));
    ("error_class", VStr error_class); ("attempts", VInt attempts)]))).

(** The sanitized [last_failure], [None] if there is none. *)
Definition sanitized_last : M tstate (option value) :=
  last ← gets (λ s, last_failure (ts_tel s));
  liftR (sanitized_redis_failure (default VNone last)).

(** [raise redis_epoch_error(reason, telemetry)] *)
Definition redis_epoch_error {A} (reason : string) : M tstate A :=
  record ← sanitized_last;
  modify (set_attribute record);;
  throw EpochError reason.

(** ** [runtime_redis_call] *)
Section Call.
Context {A : Type} (operation : M tstate A) (stage : string).

Definition call_failed (started_at : flt) (attempt : nat) (error : exc) : M tstate (option A) :=
  on_tel one_failure;;
  record_redis_failure stage started_at (redis_error_class (type_name error)) (Z.of_nat attempt + 1);;
  if Nat.eqb attempt (RUNTIME_REDIS_ATTEMPTS - 1) then redis_epoch_error "REDIS_TRANSPORT_RETRY_EXHAUSTED"
  else redis_retry_pause (nth attempt RUNTIME_REDIS_BACKOFF_SECONDS (fz 0));; mret None.

Fixpoint redis_attempts (started_at : flt) (attempts : list nat) : M tstate A :=
  match attempts with
  | [] => throw AssertionError "unreachable bounded Redis retry"
  | attempt :: attempts =>
      stopped ← task TStop;
      throw_if stopped CancelledError "";;
      r ← try_except redis_transport_failure
            (result ← operation;
             on_tel (set_last None);;
             (if Nat.eqb attempt 0 then mret tt else on_tel one_recovery);;
             mret (Some result))
            (call_failed started_at attempt);
      match r with Some a => mret a | None => redis_attempts started_at attempts end
  end.

Definition runtime_redis_call : M tstate A :=
  started_at ← task TClock;
  redis_attempts started_at (seq 0 RUNTIME_REDIS_ATTEMPTS).
End Call.

(** ** [EpochRedisTransport.subscribe] *)
Context (topic : string) (group : option string) (block_ms : Z) (reclaim_every_s : flt).

Definition started_or_now : M tstate flt :=
  started ← gets recovery_started_at;
  match started with Some t => mret t | None => task TClock end.

Definition error_class_of (v : option value) : string :=
  match v with
  | Some (VDict d) => match dget "error_class" d with VStr s => s | _ => "RecoveryDeadlineExceeded" end
  | _ => "RecoveryDeadlineExceeded"
  end.

(** The time that the next command may take. *)
Definition remaining_seconds : M tstate flt :=
  deadline ← gets recovery_deadline;
  match deadline with
  | None => mret RUNTIME_REDIS_COMMAND_SECONDS
  | Some deadline =>
      now ← task TClock;
      let remaining := fmin RUNTIME_REDIS_COMMAND_SECONDS (fsub deadline now) in
      if fleb remaining (fz 0) then
        last ← sanitized_last;
        stage ← gets operation_stage;
        started ← started_or_now;
        attempts ← gets failures;
        record_redis_failure stage started (error_class_of last) attempts;;
        redis_epoch_error "REDIS_RECOVERY_DEADLINE_EXCEEDED"
      else mret remaining
  end.

(** [fields["data"]] if that is the only field *)
Definition only_data (fields : entry_fields) : option string :=
  match fields with [(k, data)] => if String.eqb k "data" then Some data else None | _ => None end.

(** Check one entry, and hand it to the consumer. *)
Definition deliver (reason : string) (count : M tstate unit) (id : string) (fields : entry_fields) (attempt : option Z)
    (reclaimed : bool) : M tstate unit :=
  match only_data fields with
  | None => throw EpochError reason
  | Some data => count;; payload ← liftR (json_loads data); task (TYield (Envelope id payload attempt reclaimed))
  end.

Definition rows_of (response : read_response) : list (string * entry_fields) := concat (default [] response).*2.

(** A successful read ends the outage. *)
Definition outage_over : M tstate unit :=
  modify (set_failures 0);; modify (set_recovery None None);; on_tel (set_last None).

(** One turn while entries of this consumer may be pending. *)
Definition pending_turn : M tstate unit :=
  remaining ← remaining_seconds;
  modify (set_stage "pending_read");;
  response ← task (TReadPending remaining);
  outage_over;;
  modify (set_recovery_pending true);;
  let replay_rows := rows_of response in
  match replay_rows with
  | [] => modify (set_replay false)
  | _ => forM replay_rows (λ '(id, fields),
           deliver "RUNTIME_PENDING_PAYLOAD_MISSING" (on_tel one_replay) id fields (Some 2) true)
  end.

(** One turn that reads new entries. *)
Definition new_turn : M tstate unit :=
  remaining ← remaining_seconds;
  now ← task TClock;
  last ← gets last_reclaim;
  reclaimed ← (if fleb reclaim_every_s (fsub now last)
               then modify (set_stage "reclaim");;
                    reclaimed ← task (TReclaim remaining);
                    modify (set_reclaim now);; mret reclaimed
               else mret []);
  forM reclaimed (λ '(id, fields, attempt), deliver "RUNTIME_PENDING_PAYLOAD_MISSING" (mret tt) id fields (Some attempt) true);;
  modify (set_stage "new_message_read");;
  remaining ← remaining_seconds;
  response ← task (TReadNew remaining);
  recovering ← gets recovery_pending;
  (if recovering : bool then on_tel one_recovery else mret tt);;
  modify (set_recovery_pending false);;
  outage_over;;
  forM (rows_of response) (λ '(id, fields), deliver "RUNTIME_STREAM_PAYLOAD_MISSING" (mret tt) id fields None false).

Definition turn : M tstate unit :=
  replay ← gets replay_pending;
  (if replay : bool then modify (set_stage "pending_read")
   else now ← task TClock;
        last ← gets last_reclaim;
        modify (set_stage (if fleb reclaim_every_s (fsub now last) then "reclaim" else "new_message_read")));;
  if (replay : bool) then pending_turn else new_turn.

Definition turn_failed (error : exc) : M tstate unit :=
  modify (λ s, set_failures (failures s + 1) s);;
  on_tel one_failure;;
  count ← gets failures;
  stage ← gets operation_stage;
  if Z.of_nat RUNTIME_REDIS_ATTEMPTS <=? count then
    started ← started_or_now;
    record_redis_failure stage started (redis_error_class (type_name error)) count;;
    redis_epoch_error "REDIS_TRANSPORT_RETRY_EXHAUSTED"
  else
    deadline ← gets recovery_deadline;
    (match deadline with
     | None =>
         now ← task TClock;
         modify (set_recovery (Some (fsub (fadd now RUNTIME_REDIS_RECOVERY_SECONDS) RUNTIME_REDIS_COMMAND_SECONDS)) (Some now))
     | Some _ => mret tt
     end);;
    started ← started_or_now;
    record_redis_failure stage started (redis_error_class (type_name error)) count;;
    modify (set_replay true);;
    redis_retry_pause (nth (Z.to_nat (count - 1)) RUNTIME_REDIS_BACKOFF_SECONDS (fz 0)).

Definition subscribe_guard : bool :=
  negb (String.eqb topic TOPIC)
  || negb (match group with None => true | Some g => String.eqb g "bars" end)
  || negb (block_ms =? RUNTIME_REDIS_BLOCK_MS).

Definition subscribe : M tstate unit :=
  throw_if subscribe_guard EpochError "FIXED_NONTRADING_REDIS_SUBSCRIPTION_REQUIRED";;
  runtime_redis_call (task TEnsureGroup) "ensure_group";;
  while fuel (stopped ← task TStop; mret (negb stopped))
    (try_except redis_transport_failure turn turn_failed;; mret None)
    (mret tt).

(** ** [EpochRedisTransport.ack] *)
Definition ack (ack_topic : string) (message : envelope) (ack_group : option string) : M tstate unit :=
  (* [group or envelope.meta.get("group")]: every envelope of this transport has the group "bars" *)
  throw_if (negb (String.eqb ack_topic TOPIC)
            || negb (String.eqb (match ack_group with Some g => if String.eqb g "" then "bars" else g | None => "bars" end) "bars"))
    EpochError "FIXED_NONTRADING_REDIS_ACK_REQUIRED";;
  runtime_redis_call (task (TXack (en_id message))) "ack".
End Transport.

(** The state in which [create_runtime_transport] and [subscribe] start. *)
Definition tstate0 (t : telemetry) : tstate := TState t (fz 0) false 0 None None false "pending_read" None [].
