(* ===== verification/EpochTransportSpec.v ===== *)
(** * The subscription drains before it reads, and its telemetry is sanitized ([EpochTransport]) *)

From stdpp Require Import gmap strings.
From S2P Require Import Prelude PyStr Regex PyVal Json Effects EpochPublication EpochTransport.

Local Open Scope string_scope.
Local Open Scope list_scope.
Local Open Scope Z_scope.

(** ** What the history owes *)
(** The commands of the loop, and the consumer of what they return. *)
Definition in_loop (o : top) : bool :=
  match o with TReadPending _ | TReclaim _ | TReadNew _ | TYield _ => true | _ => false end.
(** The commands that assign entries to this consumer. *)
Definition assigns (o : top) : bool := match o with TReclaim _ | TReadNew _ => true | _ => false end.

Definition lost (e : event tres) : bool :=
  match ev_ans e with Err x => in_loop (ev_op e) && redis_transport_failure (exc_cls x) | Ok _ => false end.
Definition drained (e : event tres) : bool :=
  match e with Ev (TReadPending _) (Ok r) => match rows_of r with [] => true | _ => false end | _ => false end.
Definition read_ok (e : event tres) : bool :=
  match e with Ev (TReadPending _) (Ok _) | Ev (TReadNew _) (Ok _) => true | _ => false end.

(** A command was lost, and the pending entries were not yet found to be none. *)
Definition owed (h : list (event tres)) : bool :=
  foldl (λ o e, if lost e then true else if drained e then false else o) false h.
(** The commands lost since the last successful read. *)
Definition streak (h : list (event tres)) : Z :=
  foldl (λ n e, if lost e then n + 1 else if read_ok e then 0 else n) 0 h.
(** No command that assigns entries was sent while something was owed. *)
Definition drains_first (h : list (event tres)) : Prop :=
  ∀ h1 e h2, h = h1 ++ e :: h2 → assigns (ev_op e) = true → owed h1 = false.

#[global] Arguments owed : simpl never.
#[global] Arguments streak : simpl never.

Lemma owed_snoc h e : owed (h ++ [e]) = if lost e then true else if drained e then false else owed h.
Proof. unfold owed. by rewrite foldl_app. Qed.

Lemma streak_snoc h e : streak (h ++ [e]) = if lost e then streak h + 1 else if read_ok e then 0 else streak h.
Proof. unfold streak. by rewrite foldl_app. Qed.

Lemma drains_first_snoc h e :
  drains_first h → (assigns (ev_op e) = true → owed h = false) → drains_first (h ++ [e]).
Proof.
  intros Hd He h1 e' h2. destruct h2 as [|x h2 _] using rev_ind.
  - intros [-> [= ->]]%app_inj_tail. exact He.
  - rewrite app_comm_cons, app_assoc. intros [-> _]%app_inj_tail. by apply (Hd h1 e' h2).
Qed.

(** ** The invariant of the loop *)
Definition view (s : tstate) : list (event tres) * bool * Z := (ts_hist s, replay_pending s, failures s).

Record at_head (s : tstate) : Prop := {
  ah_drains : drains_first (ts_hist s);
  ah_replay : owed (ts_hist s) = true → replay_pending s = true;
  ah_streak : streak (ts_hist s) <= failures s;
  ah_failures : 0 <= failures s <= 2;
}.
(** Nothing is owed. *)
Definition settled (s : tstate) : Prop := at_head s ∧ owed (ts_hist s) = false.
Definition replaying (s : tstate) : Prop := at_head s ∧ replay_pending s = true.
(** After an exception of a turn *)
Record broken (s : tstate) : Prop := {
  br_drains : drains_first (ts_hist s);
  br_streak : streak (ts_hist s) <= failures s + 1;
  br_failures : 0 <= failures s <= 2;
}.
Record stopped (s : tstate) : Prop := { st_drains : drains_first (ts_hist s); st_streak : streak (ts_hist s) <= 3 }.

Lemma at_head_broken s : at_head s → broken s.
Proof. intros []. constructor; [done|lia|done]. Qed.
Lemma settled_broken s : settled s → broken s.
Proof. intros [H _]. by apply at_head_broken. Qed.
Lemma replaying_broken s : replaying s → broken s.
Proof. intros [H _]. by apply at_head_broken. Qed.
Lemma broken_stopped s : broken s → stopped s.
Proof. intros []. constructor; [done|lia]. Qed.

(** Assertions that the other operations and the other variables do not touch. *)
Definition neutral (o : top) : bool := negb (in_loop o).
Definition closed (I : tstate → Prop) : Prop :=
  (∀ s s', view s = view s' → I s → I s') ∧ (∀ e s, neutral (ev_op e) = true → I s → I (tlog e s)).

Lemma neutral_event e h : neutral (ev_op e) = true →
  owed (h ++ [e]) = owed h ∧ streak (h ++ [e]) = streak h ∧ (drains_first h → drains_first (h ++ [e])).
Proof.
  intros Hn. rewrite owed_snoc, streak_snoc. assert (lost e = false) as ->.
  { unfold lost. apply negb_true_iff in Hn. rewrite Hn. by destruct (ev_ans e). }
  split_and!; [by destruct e as [[] []]..|]. intros Hd. apply drains_first_snoc; [done|]. by destruct e as [[] r].
Qed.

Lemma closed_at_head : closed at_head.
Proof.
  split.
  - intros s s' [= Hh Hr Hf] []. constructor; rewrite <- ?Hh, <- ?Hr, <- ?Hf; done.
  - intros e s He []. destruct (neutral_event e (ts_hist s) He) as (H1 & H2 & H3). constructor; cbn; rewrite ?H1, ?H2; auto.
Qed.
Lemma closed_settled : closed settled.
Proof.
  split.
  - intros s s' Hv [Hh Ho]. split; [by apply (proj1 closed_at_head s s')|]. injection Hv as Hv _ _. congruence.
  - intros e s He [Hh Ho]. split; [by apply closed_at_head|]. cbn. by destruct (neutral_event e (ts_hist s) He) as (-> & _).
Qed.
Lemma closed_replaying : closed replaying.
Proof.
  split.
  - intros s s' Hv [Hh Ho]. split; [by apply (proj1 closed_at_head s s')|]. injection Hv as _ Hv _. congruence.
  - intros e s He [Hh Ho]. by split; [apply closed_at_head|].
Qed.
Lemma closed_broken : closed broken.
Proof.
  split.
  - intros s s' [= Hh Hr Hf] []. constructor; rewrite <- ?Hh, <- ?Hr, <- ?Hf; done.
  - intros e s He []. destruct (neutral_event e (ts_hist s) He) as (H1 & H2 & H3). constructor; cbn; rewrite ?H2; auto.
Qed.
Lemma closed_stopped : closed stopped.
Proof.
  split.
  - intros s s' [= Hh Hr Hf] []. constructor; rewrite <- ?Hh, <- ?Hr, <- ?Hf; done.
  - intros e s He []. destruct (neutral_event e (ts_hist s) He) as (H1 & H2 & H3). constructor; cbn; rewrite ?H2; auto.
Qed.
#[export] Hint Resolve closed_at_head closed_settled closed_replaying closed_broken closed_stopped : transport.

Section Loop.
Context (env : environment tres) (type_name : exc → string) (reclaim_every_s : flt).

(** ** Routines that only tell the time, pause or keep books *)
Lemma keeps_task I o : closed I → neutral o = true → keeps I (task env o).
Proof. intros [_ HI] Ho s Hs. by apply (HI (Ev o (env (ts_hist s) o))). Qed.

Lemma keeps_books I f : closed I → (∀ s, view (f s) = view s) → keeps I (modify f).
Proof. intros [HI _] Hf. apply keeps_modify. intros s. by apply HI. Qed.

Lemma keeps_tel I f : closed I → keeps I (on_tel f).
Proof. intros HI. by apply keeps_books. Qed.

Hint Resolve keeps_tel : keeps.
Hint Extern 1 (keeps _ (task _ _)) => apply keeps_task; [assumption|first [assumption|reflexivity]] : keeps.
Hint Extern 1 (keeps _ (modify _)) => apply keeps_books; [assumption|reflexivity] : keeps.

Lemma keeps_sanitized_last I : closed I → keeps I sanitized_last.
Proof. intros HI. unfold sanitized_last. keeps_walk. Qed.
Hint Resolve keeps_sanitized_last : keeps.

Lemma keeps_redis_epoch_error I {A} reason : closed I → keeps I (@redis_epoch_error A reason).
Proof. intros HI. unfold redis_epoch_error. keeps_walk. Qed.
Hint Resolve keeps_redis_epoch_error : keeps.

Lemma keeps_record I stage started name n : closed I → keeps I (record_redis_failure env stage started name n).
Proof. intros HI. unfold record_redis_failure. keeps_walk. Qed.
Hint Resolve keeps_record : keeps.

Lemma keeps_started I : closed I → keeps I (started_or_now env).
Proof. intros HI. unfold started_or_now. keeps_walk. Qed.
Hint Resolve keeps_started : keeps.

Lemma keeps_remaining I : closed I → keeps I (remaining_seconds env).
Proof. intros HI. unfold remaining_seconds. keeps_walk. Qed.
Hint Resolve keeps_remaining : keeps.

Lemma keeps_pause I n : closed I → keeps I (redis_retry_pause env n).
Proof. intros HI. unfold redis_retry_pause. keeps_walk. Qed.
Hint Resolve keeps_pause : keeps.

Lemma keeps_call I o stage : closed I → neutral o = true → keeps I (runtime_redis_call env type_name (task env o) stage).
Proof.
  intros HI Ho. unfold runtime_redis_call. apply keeps_bind; [by apply keeps_task|]. intros started.
  generalize (seq 0 RUNTIME_REDIS_ATTEMPTS). intros l. induction l as [|a l IH]; cbn [redis_attempts]; [apply keeps_throw|].
  apply keeps_bind; [by apply keeps_task|]. intros stop. apply keeps_bind; [apply keeps_throw_if|]. intros _.
  apply keeps_bind; [|by intros [r|]; [apply keeps_ret|apply IH]].
  apply keeps_try; [keeps_walk|]. intros e. unfold call_failed. keeps_walk.
Qed.

(** ** The commands of the loop *)
Lemma io_broken s e : at_head s → (assigns (ev_op e) = true → owed (ts_hist s) = false) → broken (tlog e s).
Proof.
  intros [] Ha. constructor; cbn; [by apply drains_first_snoc| |done]. rewrite streak_snoc.
  destruct (lost e); [lia|]. destruct (read_ok e); lia.
Qed.

Lemma io_at_head s e :
  at_head s → (assigns (ev_op e) = true → owed (ts_hist s) = false) → lost e = false → at_head (tlog e s).
Proof.
  intros [] Ha Hl. constructor; cbn; [by apply drains_first_snoc| | |done].
  - rewrite owed_snoc, Hl. by destruct (drained e).
  - rewrite streak_snoc, Hl. destruct (read_ok e); lia.
Qed.

Lemma task_ends {P o} (QR : tres o → tstate → Prop) (QE : tstate → Prop) :
  (∀ s r, P s → env (ts_hist s) o = Ok r → QR r (tlog (Ev o (Ok r)) s)) →
  (∀ s x, P s → env (ts_hist s) o = Err x → QE (tlog (Ev o (Err x)) s)) →
  post P (task env o) (ends QR QE).
Proof.
  intros HR HE s Hs. unfold task, perform. destruct (env (ts_hist s) o) as [r|x] eqn:E; cbn; [by apply HR|by apply HE].
Qed.

Lemma reclaim_step t : post settled (task env (TReclaim t)) (ends (λ _, settled) broken).
Proof.
  apply task_ends; intros s r [Hh Ho] _; [|by apply io_broken]. split; [by apply io_at_head|]. cbn. by rewrite owed_snoc.
Qed.

Lemma new_step t : post settled (task env (TReadNew t)) (ends (λ _ s, settled s ∧ streak (ts_hist s) = 0) broken).
Proof.
  apply task_ends; intros s r [Hh Ho] _; [|by apply io_broken].
  split; [split; [by apply io_at_head|]|]; cbn; by rewrite ?owed_snoc, ?streak_snoc.
Qed.

Lemma yield_settled e : post settled (task env (TYield e)) (ends (λ _, settled) broken).
Proof.
  apply task_ends; intros s r [Hh Ho] _; [|by apply io_broken]. split; [by apply io_at_head|]. cbn. by rewrite owed_snoc.
Qed.

Lemma yield_replaying e : post replaying (task env (TYield e)) (ends (λ _, replaying) broken).
Proof. apply task_ends; intros s r [Hh Ho] _; [|by apply io_broken]. by split; [apply io_at_head|]. Qed.

Lemma pending_step t :
  post replaying (task env (TReadPending t))
    (ends (λ r s, replaying s ∧ streak (ts_hist s) = 0 ∧ (rows_of r = [] → owed (ts_hist s) = false)) broken).
Proof.
  refine (task_ends (o := TReadPending t) _ _ _ _); intros s r [Hh Ho] _; [|by apply io_broken].
  split; [by split; [apply io_at_head|]|]. cbn. rewrite streak_snoc, owed_snoc. split; [done|]. cbn. by intros ->.
Qed.

(** ** A turn *)
Lemma forM_ends {A} (I QE : tstate → Prop) (l : list A) f :
  (∀ x, post I (f x) (ends (λ _, I) QE)) → post I (forM l f) (ends (λ _, I) QE).
Proof.
  intros Hf. induction l as [|x l IH]; cbn [forM]; [by intros s Hs|]. eapply post_step; [apply Hf|]. by intros [].
Qed.

Lemma deliver_ends I reason count id fields a b :
  closed I → (∀ s, I s → broken s) → keeps I count → (∀ e, post I (task env (TYield e)) (ends (λ _, I) broken)) →
  post I (deliver env reason count id fields a b) (ends (λ _, I) broken).
Proof.
  intros HI Hb Hc Hy. unfold deliver. destruct (only_data fields) as [data|]; [|apply post_keeps; [apply keeps_throw|done]].
  eapply post_step; [by apply post_keeps|]. intros []. eapply post_step; [apply post_keeps; [apply keeps_liftR|done]|]. intros v. apply Hy.
Qed.

Lemma outage_over_ends (I : tstate → Prop) QE :
  (∀ s s', ts_hist s = ts_hist s' → replay_pending s = replay_pending s' → failures s' = 0 → streak (ts_hist s) = 0 → I s → I s') →
  post (λ s, I s ∧ streak (ts_hist s) = 0) outage_over (ends (λ _, I) QE).
Proof. intros HI s [Hs H0]. cbn. by apply (HI s). Qed.

Lemma at_head_reset s s' :
  ts_hist s = ts_hist s' → replay_pending s = replay_pending s' → failures s' = 0 → streak (ts_hist s) = 0 → at_head s → at_head s'.
Proof. intros Hh Hr Hf H0 []. constructor; rewrite <- ?Hh, <- ?Hr, ?Hf; [done|done|lia|lia]. Qed.

Lemma pending_turn_ends : post replaying (pending_turn env) (ends (λ _, at_head) broken).
Proof.
  unfold pending_turn. eapply post_step; [apply post_keeps; [by apply keeps_remaining, closed_replaying|exact replaying_broken]|]. intros remaining.
  eapply post_step; [apply post_keeps; [apply keeps_books; [exact closed_replaying|done]|exact replaying_broken]|]. intros ?. cbn beta.
  eapply post_step; [apply pending_step|]. intros response. cbn beta.
  eapply (post_step _ (λ _ s, replaying s ∧ (rows_of response = [] → owed (ts_hist s) = false))).
  { eapply post_weaken; [apply (outage_over_ends (λ s, replaying s ∧ (rows_of response = [] → owed (ts_hist s) = false)))| |done].
    - intros s s' Hh Hr Hf H0 [[Ha Hp] Ho]. split; [|by rewrite <- Hh]. split; [by apply (at_head_reset s)|congruence].
    - by intros s (Hr & H0 & Ho). }
  intros ?. cbn beta. eapply (post_step _ (λ _ s, replaying s ∧ (rows_of response = [] → owed (ts_hist s) = false))).
  { intros s [[Ha Hp] Ho]. cbn. split; [|done]. split; [by apply (proj1 closed_at_head s)|done]. }
  intros ?. cbn beta. destruct (rows_of response) as [|row rows] eqn:Er.
  - intros s [[Ha Hp] Ho]. cbn. destruct Ha. specialize (Ho eq_refl). constructor; cbn; [done| |done|done]. by rewrite Ho.
  - eapply post_weaken; [apply (post_strengthen _ (λ _, replaying))| |done].
    + apply forM_ends. intros [id fields]. apply deliver_ends; [exact closed_replaying|exact replaying_broken| |apply yield_replaying].
      apply keeps_tel, closed_replaying.
    + intros ? s Ha. exact (proj1 Ha).
    + by intros s [Hr _].
Qed.

Lemma new_turn_ends : post settled (new_turn env reclaim_every_s) (ends (λ _, at_head) broken).
Proof.
  unfold new_turn. pose proof closed_settled as HI.
  assert (∀ reason count id fields att b, keeps settled count → post settled (deliver env reason count id fields att b) (ends (λ _, settled) broken)) as Hd.
  { intros. apply deliver_ends; [done|exact settled_broken|done|apply yield_settled]. }
  eapply post_step; [apply post_keeps; [by apply keeps_remaining|exact settled_broken]|]. intros remaining.
  eapply post_step; [apply post_keeps; [by apply keeps_task|exact settled_broken]|]. intros now.
  eapply post_step; [apply post_keeps; [apply keeps_gets|exact settled_broken]|]. intros last.
  eapply (post_step _ (λ _, settled)).
  { destruct (fleb _ _); [|by intros s Hs].
    eapply post_step; [apply post_keeps; [by apply keeps_books|exact settled_broken]|]. intros ?. cbn beta.
    eapply post_step; [apply reclaim_step|]. intros reclaimed.
    apply post_keeps; [|exact settled_broken]. apply keeps_bind; [by apply keeps_books|]. intros ?. cbn beta. apply keeps_ret. }
  intros reclaimed. eapply post_step; [apply forM_ends; intros [[id fields] attempt]; apply Hd, keeps_ret|]. intros ?. cbn beta.
  eapply post_step; [apply post_keeps; [by apply keeps_books|exact settled_broken]|]. intros ?. cbn beta.
  eapply post_step; [apply post_keeps; [by apply keeps_remaining|exact settled_broken]|]. intros remaining'.
  eapply post_step; [apply new_step|]. intros response. cbn beta.
  assert (∀ A (m : M tstate A), (∀ s, ∃ a s', m s = (Ret a, s') ∧ view s' = view s) →
    post (λ s, settled s ∧ streak (ts_hist s) = 0) m (ends (λ _ s, settled s ∧ streak (ts_hist s) = 0) broken)) as Hbooks.
  { intros A m Hm s [Hs H0]. destruct (Hm s) as (x & s' & -> & Hv). cbn. split; [by apply (proj1 HI s)|]. by injection Hv as -> _ _. }
  eapply post_step; [apply Hbooks; by eauto|]. intros recovering.
  eapply post_step; [apply Hbooks; intros s; destruct recovering; by eauto|]. intros ?. cbn beta.
  eapply post_step; [apply Hbooks; by eauto|]. intros ?. cbn beta.
  eapply (post_step _ (λ _, settled)).
  { apply outage_over_ends. intros s s' Hh Hr Hf H0 [Ha Ho]. split; [by apply (at_head_reset s)|]. by rewrite <- Hh. }
  intros ?. cbn beta. apply (post_strengthen _ (λ _, settled)); [|intros ? s Hs; exact (proj1 Hs)].
  apply forM_ends. intros [id fields]. apply Hd, keeps_ret.
Qed.

Lemma turn_ends : post at_head (turn env reclaim_every_s) (ends (λ _, at_head) broken).
Proof.
  unfold turn. eapply (post_step _ (λ replay s, at_head s ∧ replay_pending s = replay)); [by intros s Hs|]. intros [|].
  - eapply (post_step _ (λ _, replaying)); [|intros _; apply pending_turn_ends].
    intros s [Hs Hr]. cbn. split; [by apply (proj1 closed_at_head s)|done].
  - eapply post_weaken; [|intros s [Hs Hr]; assert (settled s) as Hset; [|exact Hset]|done].
    + eapply (post_step _ (λ _, settled)); [|intros ?; apply new_turn_ends]. apply post_keeps; [|exact settled_broken].
      pose proof closed_settled. keeps_walk.
    + split; [done|]. destruct Hs. destruct (owed (ts_hist s)); [|done]. by rewrite ah_replay0 in Hr.
Qed.

Lemma turn_failed_ends error : post broken (turn_failed env type_name error) (ends (λ _, at_head) stopped).
Proof.
  unfold turn_failed.
  eapply (post_step _ (λ _ s, drains_first (ts_hist s) ∧ streak (ts_hist s) <= failures s ∧ 1 <= failures s <= 3)).
  { intros s []. cbn. split_and!; [done|lia..]. }
  intros ?. cbn beta.
  set (I := λ s, drains_first (ts_hist s) ∧ streak (ts_hist s) <= failures s ∧ 1 <= failures s <= 3).
  assert (∀ n, closed (λ s, I s ∧ failures s = n)) as Hcl.
  { intros n. split.
    - intros s s' [= Hh Hr Hf]. unfold I. by rewrite <- Hh, <- Hf.
    - intros e s He [(Hd & Hs & Hf) Hn]. destruct (neutral_event e (ts_hist s) He) as (_ & H2 & H3). unfold I. cbn. rewrite H2. auto. }
  assert (∀ s, I s → stopped s) as Hst by (intros s (? & ? & ?); constructor; [done|lia]).
  assert (∀ n s, I s ∧ failures s = n → stopped s) as Hst' by (intros n s [? _]; auto).
  eapply (post_step _ (λ _, I)); [intros s Hs; exact Hs|]. intros ?. cbn beta.
  eapply (post_step _ (λ n s, I s ∧ failures s = n)); [by intros s Hs|]. intros count. specialize (Hcl count).
  eapply post_step; [apply post_keeps; [apply keeps_gets|apply Hst']|]. intros stage. cbn beta.
  destruct (Z.leb_spec (Z.of_nat RUNTIME_REDIS_ATTEMPTS) count) as [Hc|Hc].
  { eapply post_step; [apply post_keeps; [by apply keeps_started|apply Hst']|]. intros started.
    eapply post_step; [apply post_keeps; [by apply keeps_record|apply Hst']|]. intros ?. cbn beta.
    apply (post_strengthen _ (λ _ _, False)); [|by intros].
    intros s Hs. pose proof (@keeps_redis_epoch_error _ unit "REDIS_TRANSPORT_RETRY_EXHAUSTED" Hcl s Hs) as Hk.
    unfold redis_epoch_error in *. unfold mbind, M_bind in *. destruct (sanitized_last s) as [[r|e|] s']; cbn in *; by eapply Hst'. }
  change (Z.of_nat RUNTIME_REDIS_ATTEMPTS) with 3 in Hc.
  eapply post_step; [apply post_keeps; [apply keeps_gets|apply Hst']|]. intros deadline.
  eapply post_step; [apply post_keeps; [|apply Hst']|].
  { destruct deadline; [apply keeps_ret|]. apply keeps_bind; [by apply (@keeps_task _ TClock)|]. intros now. by apply keeps_books. }
  intros ?. cbn beta. eapply post_step; [apply post_keeps; [by apply keeps_started|apply Hst']|]. intros started.
  eapply post_step; [apply post_keeps; [by apply keeps_record|apply Hst']|]. intros ?. cbn beta.
  eapply (post_step _ (λ _, at_head)).
  { intros s [(Hd & Hs & Hf) Hn]. cbn. constructor; cbn; [done|done|done|lia]. }
  intros ?. cbn beta. apply post_keeps; [apply keeps_pause, closed_at_head|]. intros s Hs. by apply broken_stopped, at_head_broken.
Qed.

Lemma subscribe_stopped fuel topic group block_ms :
  post (λ s, at_head s) (subscribe env fuel type_name topic group block_ms reclaim_every_s)
    (λ r s, stopped s ∧ match r with Ret _ => streak (ts_hist s) <= 2 | _ => True end).
Proof.
  assert (∀ s, at_head s → stopped s) as Hst by (intros s Hs; by apply broken_stopped, at_head_broken).
  apply (post_weaken _ at_head _ _ (ends (λ _, at_head) stopped)); [|done|].
  2: { intros [a|e|] s; cbn; intros Hs; [|done|done]. split; [by apply Hst|]. destruct Hs. lia. }
  unfold subscribe. eapply post_step; [apply post_keeps; [apply keeps_throw_if|exact Hst]|]. intros ?. cbn beta.
  eapply post_step; [apply post_keeps; [apply keeps_call; [exact closed_at_head|done]|exact Hst]|]. intros ?. cbn beta.
  induction fuel as [|fuel IH]; [intros s Hs; exact (Hst s Hs)|]. cbn [while].
  eapply (post_step _ (λ _, at_head)).
  { apply post_keeps; [|exact Hst]. apply keeps_bind; [apply (@keeps_task _ TStop); [exact closed_at_head|done]|]. intros b. apply keeps_ret. }
  intros [|]; [|by intros s Hs]. eapply (post_step _ (λ _, at_head)); [|intros [?|]; [by intros s Hs|exact IH]].
  eapply (post_step _ (λ _, at_head)); [|intros ?; by intros s Hs].
  intros s Hs. unfold try_except. pose proof (turn_ends s Hs) as Ht. destruct (turn env reclaim_every_s s) as [[x|e|] s1]; cbn in *; [done| |].
  - destruct (redis_transport_failure (exc_cls e)); [by apply turn_failed_ends|by apply broken_stopped].
  - by apply broken_stopped.
Qed.
End Loop.

(** C3. Nothing new is read while something is owed.  In every history of a
    subscription, however it ends or is cut off and whatever Redis answers, a
    command that assigns new entries (a read of new entries or a reclaim) is
    sent only if, since the last command that was lost to a connectivity
    failure, a read of the pending entries came back empty; and no more than
    three commands are lost without a successful read in between, two if the
    subscription ends normally. *)
Theorem drains_before_reading env fuel type_name topic group block_ms reclaim_every_s t :
  let '(r, s) := subscribe env fuel type_name topic group block_ms reclaim_every_s (tstate0 t) in
  drains_first (ts_hist s) ∧ streak (ts_hist s) <= match r with Ret _ => 2 | _ => 3 end.
Proof.
  assert (at_head (tstate0 t)) as H0.
  { constructor; cbn; [|done|done|lia]. intros h1 e h2 Hh. by destruct h1. }
  pose proof (subscribe_stopped env type_name reclaim_every_s fuel topic group block_ms _ H0) as H.
  destruct (subscribe _ _ _ _ _ _ _ _) as [[] s]; cbn in *; destruct H as [[] Hr]; split; (done || lia).
Qed.

(** ** The telemetry *)
(** A failure record, or none. *)
Definition clean (v : option value) : Prop :=
  match v with None => True | Some v => sanitized_redis_failure v = Ok (Some v) end.

#[local] Arguments sanitized_redis_failure : simpl never.

Lemma error_class_matches name : fullmatch error_name_re (redis_error_class name) = true.
Proof. unfold redis_error_class. destruct (fullmatch error_name_re name) eqn:E; [exact E|by vm_compute]. Qed.

Lemma record_is_clean stage elapsed name attempts :
  stage ∈ stages → fullmatch error_name_re name = true → 1 <= attempts <= 3 →
  clean (Some (VDict [("stage", VStr stage); ("elapsed_ms", VInt (Z.min 86400000 (Z.max 0 elapsed)));
    ("error_class", VStr name); ("attempts", VInt attempts)])).
Proof.
  intros Hs Hn Ha. unfold clean, sanitized_redis_failure.
  assert (∀ a b c d : value, keys_are [("stage", a); ("elapsed_ms", b); ("error_class", c); ("attempts", d)] failure_keys = true) as ->
    by (intros; vm_compute; reflexivity).
  change (dget "stage" _) with (VStr stage). change (dget "elapsed_ms" _) with (VInt (Z.min 86400000 (Z.max 0 elapsed))).
  change (dget "attempts" _) with (VInt attempts). change (dget "error_class" _) with (VStr name). cbn [negb hashable raise_if].
  rewrite bind_ret, (bool_decide_true _ Hs), Hn. cbn [negb]. change (Z.of_nat RUNTIME_REDIS_ATTEMPTS) with 3.
  assert (0 <= Z.min 86400000 (Z.max 0 elapsed) <= 86400000) as He by lia.
  revert He. generalize (Z.min 86400000 (Z.max 0 elapsed)). intros e He.
  assert ((0 <=? e) && (e <=? 86400000) && (1 <=? attempts) && (attempts <=? 3) = true) as ->; [|done].
  rewrite !andb_true_iff, !Z.leb_le. lia.
Qed.

Lemma sanitized_clean v w : sanitized_redis_failure v = Ok (Some w) → clean (Some w).
Proof.
  intros H. assert (w = v) as ->; [|exact H]. unfold sanitized_redis_failure in H. destruct v as [| | | | | | | |d]; try done.
  destruct (negb _); [done|]. apply bind_Ok in H as ([] & _ & H). destruct (negb _); [done|].
  destruct (dget "elapsed_ms" d); try done. destruct (dget "attempts" d); try done. destruct (dget "error_class" d); try done.
  destruct (_ && _); [by injection H as <-|done].
Qed.

Lemma clean_class v : clean v → fullmatch error_name_re (error_class_of v) = true.
Proof.
  destruct v as [v|]; [|by vm_compute]. cbn [clean]. intros H. unfold sanitized_redis_failure in H. destruct v as [| | | | | | | |d]; try done.
  destruct (negb _); [done|]. apply bind_Ok in H as ([] & _ & H). destruct (negb _); [done|]. cbn [error_class_of].
  destruct (dget "elapsed_ms" d); try done. destruct (dget "attempts" d); try done. destruct (dget "error_class" d); try done.
  destruct (_ && _) eqn:E; [|done]. by apply andb_true_iff in E as [_ E].
Qed.

(** Well-formed telemetry, with at most [n] failures in a row, at least one
    while a deadline runs. *)
Record healthy (n : Z) (s : tstate) : Prop := {
  he_last : clean (last_failure (ts_tel s));
  he_attribute : clean (redis_transport s);
  he_failures : 0 <= failures s <= n;
  he_deadline : is_Some (recovery_deadline s) → 1 <= failures s;
  he_stage : operation_stage s ∈ stages;
}.

Section Telemetry.
Context (env : environment tres) (type_name : exc → string) (reclaim_every_s : flt).

Lemma healthy_task n o : keeps (healthy n) (task env o).
Proof. by intros s []. Qed.
Lemma healthy_tel n f : (∀ t, clean (last_failure t) → clean (last_failure (f t))) → keeps (healthy n) (on_tel f).
Proof. intros Hf s []. constructor; cbn; auto. Qed.
Lemma healthy_stage n stage : stage ∈ stages → keeps (healthy n) (modify (set_stage stage)).
Proof. by intros Hs s []. Qed.
Lemma healthy_replay n b : keeps (healthy n) (modify (set_replay b)).
Proof. by intros s []. Qed.
Lemma healthy_reclaim n f : keeps (healthy n) (modify (set_reclaim f)).
Proof. by intros s []. Qed.
Lemma healthy_pending n b : keeps (healthy n) (modify (set_recovery_pending b)).
Proof. by intros s []. Qed.
Lemma healthy_over n : 0 <= n → keeps (healthy n) outage_over.
Proof. intros Hn s []. constructor; cbn; try done. by intros []. Qed.

Hint Resolve healthy_task healthy_replay healthy_reclaim healthy_pending healthy_over : keeps.
Hint Extern 1 (keeps _ (task _ _)) => apply healthy_task : keeps.
Hint Extern 1 (keeps _ (on_tel _)) => apply healthy_tel; by intros t : keeps.
Hint Extern 1 (keeps _ (modify (set_stage _))) => apply healthy_stage; repeat constructor : keeps.

Lemma healthy_sanitized n s : healthy n s → post (λ s', s' = s) sanitized_last (λ r s', s' = s ∧ match r with Ret v => clean v | _ => True end).
Proof.
  intros Hs s' ->. unfold sanitized_last, mbind, M_bind, gets, liftR. destruct Hs. cbn.
  destruct (last_failure (ts_tel s)) as [v|]; cbn in *; [by rewrite he_last0|done].
Qed.

Lemma healthy_error n {A} reason : keeps (healthy n) (@redis_epoch_error A reason).
Proof.
  intros s Hs. pose proof (healthy_sanitized n s Hs s eq_refl) as [Hk Hc]. unfold redis_epoch_error, mbind, M_bind.
  destruct (sanitized_last s) as [[v|e|] s1]; cbn in *; subst s1; [|done..]. destruct Hs. by constructor.
Qed.

Lemma healthy_record n stage started name attempts :
  stage ∈ stages → fullmatch error_name_re name = true → 1 <= attempts <= 3 →
  keeps (healthy n) (record_redis_failure env stage started name attempts).
Proof.
  intros Hs Hn Ha. unfold record_redis_failure. apply keeps_bind; [apply healthy_task|]. intros now.
  apply keeps_bind; [apply keeps_liftR|]. intros elapsed. apply healthy_tel. intros t _. by apply record_is_clean.
Qed.

Lemma healthy_started n : keeps (healthy n) (started_or_now env).
Proof. unfold started_or_now. keeps_walk. Qed.
Lemma healthy_pause n seconds : keeps (healthy n) (redis_retry_pause env seconds).
Proof. unfold redis_retry_pause. keeps_walk. Qed.
Hint Resolve healthy_error healthy_started healthy_pause : keeps.

Lemma healthy_call n A (operation : M tstate A) stage :
  keeps (healthy n) operation → stage ∈ stages → keeps (healthy n) (runtime_redis_call env type_name operation stage).
Proof.
  intros Ho Hst. unfold runtime_redis_call. apply keeps_bind; [apply healthy_task|]. intros started.
  assert (∀ a, a ∈ seq 0 RUNTIME_REDIS_ATTEMPTS → (a < 3)%nat) as Hseq by (intros a Ha%elem_of_seq; exact (proj2 Ha)).
  revert Hseq. generalize (seq 0 RUNTIME_REDIS_ATTEMPTS). intros l Hl. induction l as [|a l IH]; cbn [redis_attempts]; [apply keeps_throw|].
  apply keeps_bind; [apply healthy_task|]. intros stop. apply keeps_bind; [apply keeps_throw_if|]. intros ?.
  apply keeps_bind; [|intros [r|]; [apply keeps_ret|apply IH; intros b Hb; apply Hl; by right]].
  apply keeps_try; [keeps_walk|]. intros e. unfold call_failed.
  apply keeps_bind; [apply healthy_tel; by intros|]. intros ?.
  apply keeps_bind; [|intros ?; keeps_walk]. apply healthy_record; [done|apply error_class_matches|].
  specialize (Hl a ltac:(left)). lia.
Qed.

(** The branch of [remaining_seconds] in which no time is left. *)
Lemma healthy_expired count : 1 <= count <= 3 →
  post (λ s, healthy 2 s ∧ failures s = count)
    (last ← sanitized_last;
     stage ← gets operation_stage;
     started ← started_or_now env;
     attempts ← gets failures;
     record_redis_failure env stage started (error_class_of last) attempts;;
     redis_epoch_error "REDIS_RECOVERY_DEADLINE_EXCEEDED") (ends (λ _ : flt, healthy 2) (healthy 2)).
Proof.
  intros Hc. set (I := λ s, healthy 2 s ∧ failures s = count).
  assert (∀ s, I s → healthy 2 s) as HI by (by intros s []).
  eapply (post_step _ (λ v s, I s ∧ clean v)).
  { intros s Hs. destruct (healthy_sanitized 2 s (HI s Hs) s eq_refl) as [Hk Hv]. destruct (sanitized_last s) as [[v|e|] s1];
      cbn in *; subst s1; [done|by apply HI..]. }
  intros v. eapply (post_step _ (λ stage s, I s ∧ clean v ∧ stage ∈ stages)).
  { intros s [[Hs Hf] Hv]. cbn. split; [done|]. split; [done|]. by destruct Hs. }
  intros stage. eapply (post_step _ (λ _ s, I s ∧ clean v ∧ stage ∈ stages)).
  { apply post_keeps; [|intros s [Hs _]; by apply HI]. unfold started_or_now. apply keeps_bind; [apply keeps_gets|].
    intros [st|]; [apply keeps_ret|]. intros s [[Hs Hf] Hv]. split; [split; [exact (healthy_task 2 TClock s Hs)|exact Hf]|exact Hv]. }
  intros started. eapply (post_step _ (λ n s, I s ∧ clean v ∧ stage ∈ stages ∧ n = count)).
  { intros s (Hs & Hv & Hst). cbn. split; [done|]. split_and!; [done|done|]. by destruct Hs. }
  intros n s (Hs & Hv & Hst & ->). assert (keeps (healthy 2) (record_redis_failure env stage started (error_class_of v) count;;
    redis_epoch_error (A := flt) "REDIS_RECOVERY_DEADLINE_EXCEEDED")) as Hk.
  { apply keeps_bind; [by apply healthy_record; [|apply clean_class|]|]. intros ?. apply healthy_error. }
  exact (post_keeps _ _ _ Hk (λ _ h, h) s (HI s Hs)).
Qed.

Lemma healthy_remaining : keeps (healthy 2) (remaining_seconds env).
Proof.
  assert (post (healthy 2) (remaining_seconds env) (ends (λ _, healthy 2) (healthy 2))) as Hp.
  2: { intros s Hs. specialize (Hp s Hs). by destruct (remaining_seconds env s) as [[] ?]. }
  unfold remaining_seconds. eapply (post_step _ (λ d s, healthy 2 s ∧ (is_Some d → 1 <= failures s))).
  { intros s Hs. cbn. split; [done|]. by destruct Hs. }
  intros [d|]; [|by intros s [Hs _]]. eapply (post_step _ (λ _ s, healthy 2 s ∧ 1 <= failures s)).
  { apply (task_ends env (o := TClock)); intros s x [Hs Hf] _; [split; [|cbn; eauto]|]; by destruct Hs. }
  intros now. cbn zeta. destruct (fleb _ _); [|by intros s [Hs _]].
  intros s [Hs Hf]. apply (healthy_expired (failures s)); [|done]. destruct Hs. lia.
Qed.
Hint Resolve healthy_remaining : keeps.

Lemma healthy_deliver n reason count id fields a b :
  keeps (healthy n) count → keeps (healthy n) (deliver env reason count id fields a b).
Proof. intros Hc. unfold deliver. destruct (only_data fields); keeps_walk. Qed.

Lemma healthy_turn : keeps (healthy 2) (turn env reclaim_every_s).
Proof.
  unfold turn. apply keeps_bind; [apply keeps_gets|]. intros replay. apply keeps_bind.
  { destruct replay; [by apply healthy_stage; repeat constructor|]. apply keeps_bind; [apply healthy_task|]. intros now.
    apply keeps_bind; [apply keeps_gets|]. intros last. apply healthy_stage. destruct (fleb _ _); repeat constructor. }
  intros ?. destruct replay.
  - unfold pending_turn. apply keeps_bind; [apply healthy_remaining|]. intros remaining.
    apply keeps_bind; [apply healthy_stage; repeat constructor|]. intros ?. apply keeps_bind; [apply healthy_task|]. intros response.
    apply keeps_bind; [by apply healthy_over|]. intros ?. apply keeps_bind; [apply healthy_pending|]. intros ?.
    destruct (rows_of response); [apply healthy_replay|]. apply keeps_forM. intros [id fields]. apply healthy_deliver, healthy_tel. by intros t.
  - unfold new_turn. apply keeps_bind; [apply healthy_remaining|]. intros remaining.
    apply keeps_bind; [apply healthy_task|]. intros now. apply keeps_bind; [apply keeps_gets|]. intros last.
    apply keeps_bind; [destruct (fleb _ _); keeps_walk|]. intros reclaimed.
    apply keeps_bind; [apply keeps_forM; intros [[id fields] att]; apply healthy_deliver, keeps_ret|]. intros ?.
    apply keeps_bind; [apply healthy_stage; repeat constructor|]. intros ?. apply keeps_bind; [apply healthy_remaining|]. intros remaining'.
    apply keeps_bind; [apply healthy_task|]. intros response. apply keeps_bind; [apply keeps_gets|]. intros recovering.
    apply keeps_bind; [destruct recovering; [apply healthy_tel; by intros t|apply keeps_ret]|]. intros ?.
    apply keeps_bind; [apply healthy_pending|]. intros ?. apply keeps_bind; [by apply healthy_over|]. intros ?.
    apply keeps_forM. intros [id fields]. apply healthy_deliver, keeps_ret.
Qed.

Lemma healthy_mono s : healthy 2 s → healthy 3 s.
Proof. intros []. constructor; [done|done|lia|done|done]. Qed.

Lemma healthy_turn_failed error :
  post (healthy 2) (turn_failed env type_name error) (ends (λ _, healthy 2) (healthy 3)).
Proof.
  unfold turn_failed. eapply (post_step _ (λ _ s, healthy 3 s ∧ 1 <= failures s)).
  { intros s []. cbn. split; [constructor; cbn; [done|done|lia|lia|done]|lia]. }
  intros ?. eapply (post_step _ (λ _ s, healthy 3 s ∧ 1 <= failures s)); [by intros s [[] ?]|]. intros ?.
  eapply (post_step _ (λ count s, healthy 3 s ∧ failures s = count ∧ 1 <= count <= 3)).
  { intros s [Hs Hf]. cbn. split; [done|]. split; [done|]. destruct Hs; lia. }
  intros count. eapply (post_step _ (λ stage s, healthy 3 s ∧ failures s = count ∧ 1 <= count <= 3 ∧ stage ∈ stages)).
  { intros s (Hs & Hf & Hc). cbn. split_and!; [done..|lia|lia|]. by destruct Hs. }
  intros stage. cbn beta. set (I := λ s, healthy 3 s ∧ failures s = count ∧ 1 <= count <= 3 ∧ stage ∈ stages).
  assert (∀ s, I s → healthy 3 s) as HI by (by intros s (? & _)).
  assert (∀ o, keeps I (task env o)) as Htask.
  { intros o s (Hh & Hr). split; [exact (healthy_task 3 o s Hh)|exact Hr]. }
  assert (keeps I (started_or_now env)) as Hstarted.
  { unfold started_or_now. apply keeps_bind; [apply keeps_gets|]. intros [st|]; [apply keeps_ret|apply (Htask TClock)]. }
  assert (∀ started, keeps I (record_redis_failure env stage started (redis_error_class (type_name error)) count)) as Hrecord.
  { intros started s Hs. pose proof Hs as (Hh & Hf & Hc & Hst).
    pose proof (healthy_record 3 stage started _ count Hst (error_class_matches (type_name error)) Hc s Hh) as Hh'.
    split; [exact Hh'|]. split; [|done]. rewrite <- Hf. unfold record_redis_failure, mbind, M_bind, task, perform, liftR. cbn.
    destruct (env (ts_hist s) TClock); [|done]. cbn. by destruct (int_of_float _). }
  destruct (Z.leb_spec (Z.of_nat RUNTIME_REDIS_ATTEMPTS) count) as [H3|H3]; change (Z.of_nat RUNTIME_REDIS_ATTEMPTS) with 3 in H3.
  - eapply post_step; [by apply post_keeps|]. intros started. eapply post_step; [by apply post_keeps|]. intros ?. cbn beta.
    intros s Hs. unfold redis_epoch_error. pose proof (healthy_error 3 (A := unit) "REDIS_TRANSPORT_RETRY_EXHAUSTED" s (HI s Hs)) as Hk.
    unfold redis_epoch_error, mbind, M_bind in *. destruct (sanitized_last s) as [[v|e|] s1]; exact Hk.
  - eapply (post_step _ (λ deadline s, I s ∧ (deadline = None → True))); [by intros s Hs|]. intros deadline.
    eapply (post_step _ (λ _, I)).
    { eapply post_weaken; [apply (post_keeps I (healthy 3))| |done]; [|done|by intros s [Hs _]].
      destruct deadline; [apply keeps_ret|]. apply keeps_bind; [apply (Htask TClock)|]. intros now s ([] & Hf & Hc & Hst).
      split; [|done]. constructor; cbn; [done|done|done| |done]. lia. }
    intros ?. eapply post_step; [by apply post_keeps|]. intros started. eapply post_step; [by apply post_keeps|]. intros ?. cbn beta.
    eapply (post_step _ (λ _, healthy 2)).
    { intros s ([] & Hf & Hc & Hst). constructor; cbn; [done|done|lia|done|done]. }
    intros ?. apply post_keeps; [apply healthy_pause|exact healthy_mono].
Qed.

Lemma subscribe_healthy fuel topic group block_ms :
  post (healthy 2) (subscribe env fuel type_name topic group block_ms reclaim_every_s) (λ _, healthy 3).
Proof.
  pose proof healthy_mono as Hm.
  apply (post_weaken _ (healthy 2) _ _ (ends (λ _, healthy 2) (healthy 3))); [|done|intros [a|e|] s; cbn; auto].
  unfold subscribe. eapply post_step; [apply post_keeps; [apply keeps_throw_if|exact Hm]|]. intros ?. cbn beta.
  eapply post_step; [apply post_keeps; [apply healthy_call; [apply (healthy_task 2 TEnsureGroup)|repeat constructor]|exact Hm]|]. intros ?. cbn beta.
  induction fuel as [|fuel IH]; [intros s Hs; exact (Hm s Hs)|]. cbn [while].
  eapply (post_step _ (λ _, healthy 2)).
  { apply post_keeps; [|exact Hm]. apply keeps_bind; [apply (healthy_task 2 TStop)|]. intros b. apply keeps_ret. }
  intros [|]; [|by intros s Hs]. eapply (post_step _ (λ _, healthy 2)); [|intros [?|]; [by intros s Hs|exact IH]].
  eapply (post_step _ (λ _, healthy 2)); [|intros ?; by intros s Hs].
  intros s Hs. unfold try_except. pose proof (healthy_turn s Hs) as Ht. destruct (turn env reclaim_every_s s) as [[x|e|] s1]; cbn in *; [done| |by apply Hm].
  destruct (redis_transport_failure (exc_cls e)); [by apply healthy_turn_failed|by apply Hm].
Qed.

Lemma ack_healthy topic message group : keeps (healthy 3) (ack env type_name topic message group).
Proof.
  unfold ack. apply keeps_bind; [apply keeps_throw_if|]. intros ?. apply healthy_call; [apply (healthy_task 3 (TXack _))|repeat constructor].
Qed.
End Telemetry.

(** C39. The telemetry is always well formed.  Through a subscription, however
    it ends, and through an acknowledgement, the last failure in the telemetry
    and the record attached to an error are absent or of exactly the sanitized
    form: the four keys, a known stage, 1 to 3 attempts, an elapsed time within
    a day, and a bounded class name; nothing of the driver's text is kept. *)
Theorem telemetry_sanitized env fuel type_name topic group block_ms reclaim_every_s t message ack_group
  (Ht : clean (last_failure t)) :
  let s := (subscribe env fuel type_name topic group block_ms reclaim_every_s (tstate0 t)).2 in
  let s' := (ack env type_name topic message ack_group s).2 in
  clean (last_failure (ts_tel s)) ∧ clean (redis_transport s) ∧ clean (last_failure (ts_tel s')) ∧ clean (redis_transport s').
Proof.
  assert (healthy 2 (tstate0 t)) as H0 by (constructor; cbn; [done|done|lia|by intros []|repeat constructor]).
  pose proof (subscribe_healthy env type_name reclaim_every_s fuel topic group block_ms _ H0) as H1.
  cbn zeta beta in *. pose proof (ack_healthy env type_name topic message ack_group _ H1) as H2. by destruct H1, H2.
Qed.

(** ** Witness *)
(** Redis loses every second command. *)
Definition lossy_redis : environment tres := λ h o,
  if in_loop o && Nat.even (length h) then Err (Exc RedisConnectionError "")
  else match o with
       | TStop => Ok false | TClock => Ok (fz 1) | TReadPending _ | TReadNew _ => Ok None | TReclaim _ => Ok []
       | TPause _ => Err (Exc TimeoutError "") | _ => Ok tt
       end.

Lemma telemetry_sanitized_witness :
  let s := (subscribe lossy_redis 3 (λ _, "ConnectionError") TOPIC None 1000 (fz 30) (tstate0 (Telemetry 0 0 0 None))).2 in
  let s' := (ack lossy_redis (λ _, "ConnectionError") TOPIC (Envelope "1-1" VNone None false) None s).2 in
  clean (last_failure (ts_tel s)) ∧ clean (redis_transport s) ∧ clean (last_failure (ts_tel s')) ∧ clean (redis_transport s').
Proof. apply telemetry_sanitized. exact I. Defined.
