(* ===== verification/EpochRuntime.v ===== *)
(** * The serving loop and the consumer ([scripts/runtime_epoch_worker.py])

    [consume], [health], [close_runtime_resources] and [runtime].  The database,
    Redis, the clocks, the consumer task and the routines of the other
    components ([flush], [anchors], [recover], [verify_duplicate_delivery])
    answer as functions of the history; the batches and the circuit are those
    of [EpochSource]. *)

From stdpp Require Import gmap strings.
From S2P Require Import Prelude PyStr Regex PyVal Json Effects EpochPublication EpochSource EpochTransport.

Local Open Scope string_scope.
Local Open Scope list_scope.
Local Open Scope Z_scope.

Definition FINALITY_MS : Z := 5000.

(** [int(time.time() * 1000)] *)
Definition milliseconds (t : flt) : result Z := int_of_float (SFmul f64_prec f64_emax t (fz 1000)).

(** ** [consume] *)
Section Consume.
Context {bar : Type} `{ClosedBar bar} (bar_source : bar → string) (model_validate : value → result bar).

Inductive cop := CNext | CTime | CAck (payload : value) | CStopSet | CClose.
(** [CNext] answers with the payload of the next envelope, or [None] at the end. *)
Definition cres (o : cop) : Type :=
  match o with CNext => option value | CTime => flt | CStopSet => bool | CAck _ | CClose => unit end.
Context (env : environment cres) (fuel : nat).
Definition cask (o : cop) : M (list (event cres)) (cres o) := perform cres id (λ e h, h ++ [e]) env o.

(** One turn of [async for]; [Some tt] ends the loop. *)
Definition consume_one : M (list (event cres)) (option unit) :=
  next ← cask CNext;
  match (next : option value) with
  | None => mret (Some tt)
  | Some payload =>
      event ← liftR (model_validate payload);
      rejected ← (if bool_decide (bar_symbol event ∉ SYMBOLS) || negb (String.eqb (bar_source event) SOURCE) then mret true
                  else now ← cask CTime; now ← liftR (milliseconds now); mret (now - FINALITY_MS <? close_time_ms event));
      throw_if rejected EpochError "FRESH_CONSUMER_CONTRACT_REJECTED";;
      cask (CAck payload);;
      stopped ← cask CStopSet;
      mret (if (stopped : bool) then Some tt else None)
  end.

Definition consume : M (list (event cres)) unit :=
  try_finally (while fuel (mret true) consume_one (mret tt)) (cask CClose).
End Consume.

(** ** [runtime] *)
Section Runtime.
Context {bar : Type} `{ClosedBar bar}.

(** The counts that the drained check reads, in order. *)
Inductive counter := CPending | CUnresolved | CCompleted | CUncompleted | CTrading.
Inductive resource := RProducer | RConsumerProbe | RSupervisor | RPool.

Inductive rop :=
  | RCreatePool | RInstallSignals | RRemoveSignals
  | RConnectSupervisor | RSupervisorLock | RVerifySchema | RPing
  | RProbeXadd | RConnectProbe | RProbeUpdate | RCloseProbe
  | RStartConsumer | RTaskDone | RAwaitTask
  | RTime | RTimeNs | RClock | RFlush | RAnchors
  | RRecover (end_exclusive_ms : Z) (suffix : Z)
  | RConnectChecker | RCount (c : counter) | RCloseChecker
  | RSleep (seconds : flt) | RVerifyDuplicate | RNowIso | RTelemetry | RWriteStatus (report : value)
  | RShutdownSet | RIdle (seconds : Z) | RWait (o : wop)
  | RStopSet | RCancelTask | RGatherTask | RClose (r : resource) | RWriteCleanup (errors : list exc) (primary : bool).

(** [RRecover] answers with the exception it raised, which may be a group;
    [RIdle] with [TimeoutError] when no shutdown was requested in time. *)
Definition rres (o : rop) : Type :=
  match o with
  | RSupervisorLock | RTaskDone | RShutdownSet => bool
  | RTime | RClock => flt
  | RTimeNs | RFlush | RCount _ => Z
  | RAnchors => gmap string bar
  | RRecover _ _ => option failure
  | RVerifyDuplicate => dict
  | RNowIso => string
  | RTelemetry => value
  | RWait o => wres o
  | _ => unit
  end.

Record rstate := RState {
  rs_task : bool; rs_supervisor : bool; rs_proofs : dict; rs_circuit : circuit; rs_cycles : Z; rs_hist : list (event rres);
}.
Definition rstate0 : rstate := RState false false [] circuit0 0 [].
Definition set_task (s : rstate) : rstate :=
  RState true (rs_supervisor s) (rs_proofs s) (rs_circuit s) (rs_cycles s) (rs_hist s).
Definition set_supervisor (s : rstate) : rstate :=
  RState (rs_task s) true (rs_proofs s) (rs_circuit s) (rs_cycles s) (rs_hist s).
Definition set_proofs (d : dict) (s : rstate) : rstate :=
  RState (rs_task s) (rs_supervisor s) d (rs_circuit s) (rs_cycles s) (rs_hist s).
Definition set_circuit (c : circuit) (s : rstate) : rstate :=
  RState (rs_task s) (rs_supervisor s) (rs_proofs s) c (rs_cycles s) (rs_hist s).
Definition next_cycle (s : rstate) : rstate :=
  RState (rs_task s) (rs_supervisor s) (rs_proofs s) (rs_circuit s) (rs_cycles s + 1) (rs_hist s).
Definition rlog (l : list (event rres)) (s : rstate) : rstate :=
  RState (rs_task s) (rs_supervisor s) (rs_proofs s) (rs_circuit s) (rs_cycles s) (rs_hist s ++ l).

Context (env : environment rres) (fuel : nat).
Context (owner : string) (qualification : bool).

Definition rask (o : rop) : M rstate (rres o) := perform rres rs_hist (λ e, rlog [e]) env o.

Definition epoch_stop {A} (reason : string) : M rstate A := throw EpochError reason.

(** An exception that [recover] raised *)
Definition raised (f : failure) : exc := match f with Leaf e => e | Group _ _ => Exc ExceptionGroup "" end.

(** [if task.done(): await task; raise EpochError("CONSUMER_STOPPED")] *)
Definition consumer_alive : M rstate unit :=
  finished ← rask RTaskDone;
  if (finished : bool) then rask RAwaitTask;; epoch_stop "CONSUMER_STOPPED" else mret tt.

(** The last whole minute that is final now. *)
Definition final_target : M rstate Z :=
  now ← rask RTime;
  now ← liftR (milliseconds now);
  mret ((now - FINALITY_MS) / MINUTE * MINUTE).

(** The checks before the consumer is started. *)
Definition startup : M rstate unit :=
  rask RConnectSupervisor;; modify set_supervisor;;
  lock ← rask RSupervisorLock;
  throw_if (negb lock) EpochError "EPOCH_SUPERVISOR_ALREADY_RUNNING";;
  rask RVerifySchema;;
  rask RPing;;
  accepted ← try_except (λ c, bool_decide (c = NoPermissionError)) (rask RProbeXadd;; mret true) (λ _, mret false);
  throw_if accepted EpochError "CONSUMER_XADD_PERMISSION_REJECTED";;
  rask RConnectProbe;;
  try_finally
    (accepted ← try_except (λ c, bool_decide (c = InsufficientPrivilegeError)) (rask RProbeUpdate;; mret true) (λ _, mret false);
     throw_if accepted EpochError "CONSUMER_OUTBOX_PERMISSION_REJECTED")
    (rask RCloseProbe);;
  rask RStartConsumer;; modify set_task.

(** One batch: its end and the reason to wait for the source, if any. *)
Definition batch : M rstate (Z * option string) :=
  target ← final_target;
  rask RFlush;;
  values ← rask RAnchors;
  end_ ← liftR (bounded_runtime_end values (VInt target));
  suffix ← rask RTimeNs;
  outcome ← rask (RRecover end_ suffix);
  match (outcome : option failure) with
  | None => modify (λ s, set_circuit (succeeded (rs_circuit s)) s);; mret (end_, None)
  | Some source_error =>
      (if qualification then liftR (Err (raised source_error)) else mret tt);;
      c ← gets rs_circuit;
      match failed source_error c with
      | None => liftR (Err (raised source_error))
      | Some (reason, c) => modify (set_circuit c);; mret (end_, Some reason)
      end
  end.

(** The four counts, read over one connection; none of them may be a trading row. *)
Definition read_counts : M rstate (Z * Z * Z * Z) :=
  pending ← rask (RCount CPending);
  unresolved ← rask (RCount CUnresolved);
  completed ← rask (RCount CCompleted);
  uncompleted ← rask (RCount CUncompleted);
  trading ← rask (RCount CTrading);
  throw_if (negb (trading =? 0)) EpochError "TRADING_ROW_IN_NONTRADING_EPOCH";;
  mret (pending, unresolved, completed, uncompleted).

Definition quarter : flt := float_of_dec false 25 (-2).

Definition await_one (deadline : flt) : M rstate (option (Z * Z * Z * Z)) :=
  consumer_alive;;
  rask RConnectChecker;;
  counts ← try_finally read_counts (rask RCloseChecker);
  let '(pending, unresolved, completed, uncompleted) := counts in
  if (pending =? 0) && (unresolved =? 0) && (uncompleted =? 0) then mret (Some counts)
  else
    now ← rask RClock;
    throw_if (fltb deadline now) EpochError "CONSUMER_COMPLETION_DEADLINE";;
    rask (RSleep quarter);; mret None.

(** Wait until everything published is durably consumed. *)
Definition await_completion : M rstate (Z * Z * Z * Z) :=
  now ← rask RClock;
  while fuel (mret true) (await_one (fadd now (fz 30))) (epoch_stop "").

Definition watermark_dict (watermarks : gmap string bar) : dict :=
  (λ p, (p.1, VInt (watermark p.2))) <$> map_to_list watermarks.

Definition state_name (waiting : option string) (source_fresh : bool) : string :=
  match waiting with
  | Some _ => "WAITING_SOURCE_NONTRADING"
  | None => if source_fresh then "RUNNING_NONTRADING" else "CATCHING_UP_NONTRADING"
  end.

Definition make_report (cycles : Z) (waiting : option string) (source_fresh : bool) (watermarks : gmap string bar)
    (counts : Z * Z * Z * Z) (sent current_target end_ : Z) (proofs : dict) (c : circuit) (observed : string) (telemetry : value) : dict :=
  let '(pending, unresolved, completed, uncompleted) := counts in
  [("state", VStr (state_name waiting source_fresh)); ("owner", VStr owner); ("cycles", VInt (cycles + 1));
   ("watermarks_ms", VDict (watermark_dict watermarks));
   ("pending_outbox", VInt pending); ("unresolved_inbox", VInt unresolved); ("completed_inbox", VInt completed);
   ("uncompleted_publications", VInt uncompleted); ("new_publications", VInt sent); ("observed_at_utc", VStr observed);
   ("PAPER_QUALIFIED", VBool false); ("ALPHA_READY", VBool false); ("LIVE_READY", VBool false);
   ("STRATEGY_POLICY", VStr "REJECT_ALL"); ("qualification_proofs", VDict proofs); ("redis_transport", telemetry);
   ("source_transport", snapshot c); ("source_wait_reason", match waiting with Some r => VStr r | None => VNone end);
   ("finalized_target_ms", VInt current_target); ("batch_end_exclusive_ms", VInt end_);
   ("source_fresh", VBool source_fresh); ("trading_started", VBool false)].

(** [SourceCircuit.wait] on the runtime's own history.  Its heartbeat stamps the
    report and writes it; the result is the last stamp. *)
Definition stamp_of (e : event wres) : option string := match e with Ev WHeartbeat (Ok stamp) => Some stamp | _ => None end.
Definition source_wait : M rstate (option string) := λ s,
  let embed (e : event wres) : event rres := match e with Ev o a => @Ev rop rres (RWait o) a end in
  let '(r, hw) := wait (λ hw o, env (rs_hist s ++ (embed <$> hw)) (RWait o)) fuel (rs_circuit s) [] in
  (match r with Ret _ => Ret (last (omap stamp_of hw)) | Exn e => Exn e | Fuel => Fuel end, rlog (embed <$> hw) s).

Definition runtime_idle : M rstate unit :=
  try_except (λ c, bool_decide (c = TimeoutError)) (rask (RIdle 10)) (λ _, mret tt).

Definition stopped_report (report : dict) : dict := dset "graceful_shutdown" (VBool true) (dset "state" (VStr "STOPPED_NONTRADING") report).

(** The counts are all that the report needs of the drained check. *)
Definition completed_of (counts : Z * Z * Z * Z) : Z := let '(_, _, completed, _) := counts in completed.

(** One cycle up to the status report: the report, whether the source is
    fresh, the completed messages and the reason to wait. *)
Definition observe_cycle : M rstate (dict * bool * Z * option string) :=
  consumer_alive;;
  '(end_, waiting) ← batch;
  sent ← rask RFlush;
  counts ← await_completion;
  values ← rask RAnchors;
  current_target ← final_target;
  let source_fresh := bool_decide (waiting = None) && forallb (λ w, current_target <=? w) (watermarks values) in
  proofs ← gets rs_proofs;
  (if qualification && (0 <? completed_of counts) && bool_decide (proofs = [])
   then proofs ← rask RVerifyDuplicate; modify (set_proofs proofs) else mret tt);;
  proofs ← gets rs_proofs;
  cycles ← gets rs_cycles;
  c ← gets rs_circuit;
  observed ← rask RNowIso;
  telemetry ← rask RTelemetry;
  let report := make_report cycles waiting source_fresh values counts sent current_target end_ proofs c observed telemetry in
  rask (RWriteStatus (VDict report));;
  modify next_cycle;;
  mret (report, source_fresh, completed_of counts, waiting).

(** One turn of the loop; [Some report] is the result of [runtime]. *)
Definition cycle : M rstate (option dict) :=
  '(report, source_fresh, completed, waiting) ← observe_cycle;
  cycles ← gets rs_cycles;
  if qualification && (0 <? completed) && (2 <=? cycles) && source_fresh
  then mret (Some (dset "state" (VStr "NONTRADING_RUNTIME_QUALIFIED") report))
  else
    shutdown ← rask RShutdownSet;
    if (shutdown : bool) then mret (Some (stopped_report report))
    else match waiting with
    | Some _ =>
        stamp ← source_wait;
        let report := match stamp with Some at_ => dset "observed_at_utc" (VStr at_) report | None => report end in
        shutdown ← rask RShutdownSet;
        mret (if (shutdown : bool) then Some (stopped_report report) else None)
    | None => (if (source_fresh : bool) then runtime_idle else rask (RSleep (fz 0)));; mret None
    end.

(** [close_runtime_resources]: every resource is closed; what closing raised is
    reported, and raised if nothing else failed. *)
Definition close_one (r : resource) : M rstate (list exc) :=
  try_except (λ c, negb (bool_decide (c = KeyboardInterrupt))) (rask (RClose r);; mret []) (λ e, mret [e]).

Definition close_runtime_resources (primary_error : bool) : M rstate unit :=
  rask RStopSet;;
  started ← gets rs_task;
  (if (started : bool) then rask RCancelTask;; rask RGatherTask else mret tt);;
  supervised ← gets rs_supervisor;
  failures ← mapM close_one (if (supervised : bool) then [RProducer; RConsumerProbe; RSupervisor; RPool] else [RProducer; RConsumerProbe; RPool]);
  match concat failures with
  | [] => mret tt
  | (first :: _) as errors =>
      rask (RWriteCleanup errors primary_error);;
      if primary_error then mret tt else liftR (Err first)
  end.

Definition shut_down (primary_error : bool) : M rstate unit :=
  (if qualification then mret tt else rask RRemoveSignals);; close_runtime_resources primary_error.

Definition serve : M rstate dict := startup;; while fuel (mret true) cycle (epoch_stop "").

(** The [finally] clause sees whether an exception is on its way. *)
Definition serve_and_close : M rstate dict := λ s,
  match serve s with
  | (Fuel, s) => (Fuel, s)
  | (Ret report, s) => (shut_down false;; mret report) s
  | (Exn e, s) => (shut_down true;; liftR (Err e)) s
  end.

Definition runtime : M rstate dict :=
  rask RCreatePool;;
  (if qualification then mret tt else rask RInstallSignals);;
  serve_and_close.
End Runtime.

(** ** [health] *)
Section Health.
Context {bar : Type} `{ClosedBar bar}.

(** The row of counts that the query returns, then the answer of [anchors]. *)
Definition health (pending unresolved completed trading_rows : Z) (anchors : result (gmap string bar)) : result dict :=
  values ← anchors;
  _ ← raise_if (negb (trading_rows =? 0) || (MAX_PENDING <? pending)) EpochError "NONTRADING_HEALTH_BOUNDARY_FAILED";
  Ok [("pending", VInt pending); ("unresolved", VInt unresolved); ("completed", VInt completed); ("trading_rows", VInt trading_rows);
      ("watermarks_ms", VDict (watermark_dict values))].
End Health.
