(* ===== verification/EpochRuntimeSpec.v ===== *)
(** * What the consumer acknowledges, and how [runtime] ends ([EpochRuntime]) *)

From stdpp Require Import gmap strings.
From S2P Require Import Prelude PyStr Regex PyVal Json Effects EpochPublication EpochSource EpochTransport EpochRuntime.

Local Open Scope string_scope.
Local Open Scope list_scope.
Local Open Scope Z_scope.

(** ** The consumer *)
Section Consume.
Context {bar : Type} `{ClosedBar bar} (bar_source : bar → string) (model_validate : value → result bar).

(** A final bar of one of the five symbols, from the scouts. *)
Definition acceptable (payload : value) (now : flt) : Prop :=
  ∃ b ms, model_validate payload = Ok b ∧ bar_symbol b ∈ SYMBOLS ∧ bar_source b = SOURCE ∧
    milliseconds now = Ok ms ∧ close_time_ms b <= ms - FINALITY_MS.

(** Every acknowledgement directly follows the delivery of the same, acceptable message. *)
Definition acks_checked (h : list (event cres)) : Prop :=
  ∀ h1 payload r h2, h = h1 ++ @Ev cop cres (CAck payload) r :: h2 →
  ∃ h0 now, h1 = h0 ++ [@Ev cop cres CNext (Ok (Some payload)); @Ev cop cres CTime (Ok now)] ∧ acceptable payload now.

Lemma acks_checked_snoc h e :
  acks_checked h →
  (∀ payload r, e = @Ev cop cres (CAck payload) r →
    ∃ h0 now, h = h0 ++ [@Ev cop cres CNext (Ok (Some payload)); @Ev cop cres CTime (Ok now)] ∧ acceptable payload now) →
  acks_checked (h ++ [e]).
Proof.
  intros Hh He h1 payload r h2. destruct h2 as [|x h2 _] using rev_ind.
  - intros [-> ->]%app_inj_tail. by eapply He.
  - rewrite app_comm_cons, app_assoc. intros [-> _]%app_inj_tail. by eapply Hh.
Qed.

Context (env : environment cres).

Lemma cask_keeps o : (∀ payload, o ≠ CAck payload) → keeps acks_checked (cask env o).
Proof.
  intros Ho h Hh. cbn. apply acks_checked_snoc; [done|]. intros payload r He. injection He as -> _. by destruct (Ho payload).
Qed.

Lemma consume_one_keeps : keeps acks_checked (consume_one bar_source model_validate env).
Proof.
  assert (∀ h o r, acks_checked h → (∀ p, o ≠ CAck p) → acks_checked (h ++ [@Ev cop cres o r])) as Hsnoc.
  { intros h o r Hh Ho. apply acks_checked_snoc; [done|]. intros p r' He. injection He as -> _. by destruct (Ho p). }
  intros h Hh. unfold consume_one, mbind, M_bind, cask, perform, liftR, throw_if.
  destruct (env h CNext) as [[payload|]|e] eqn:En; cbn; rewrite ?En; cbn; [|by apply Hsnoc..].
  assert (acks_checked (h ++ [@Ev cop cres CNext (Ok (Some payload))])) as H1 by by apply Hsnoc.
  set (h1 := h ++ _) in *. destruct (model_validate payload) as [b|e] eqn:Ev1; cbn; [|done].
  destruct (bool_decide _ || _) eqn:Eb; cbn; [done|].
  apply orb_false_iff in Eb as [Es%bool_decide_eq_false Ec%negb_false_iff%String.eqb_eq]. apply dec_stable in Es.
  destruct (env h1 CTime) as [now|e] eqn:Et; cbn; [|by apply Hsnoc].
  assert (acks_checked (h1 ++ [@Ev cop cres CTime (Ok now)])) as H2 by by apply Hsnoc.
  destruct (milliseconds now) as [ms|e] eqn:Em; cbn; [|done].
  destruct (ms - FINALITY_MS <? close_time_ms b) eqn:El; cbn; [done|]. apply Z.ltb_ge in El.
  set (h2 := h1 ++ _) in *. assert (∀ r, acks_checked (h2 ++ [@Ev cop cres (CAck payload) r])) as H3.
  { intros r. apply acks_checked_snoc; [done|]. intros p r' He. injection He as <- _. exists h, now. split; [|by exists b, ms].
    subst h2 h1. by rewrite <- app_assoc. }
  destruct (env h2 (CAck payload)) as [u|e] eqn:Ea; cbn; [|apply H3].
  destruct (env _ CStopSet) as [stop|e]; cbn; by apply Hsnoc.
Qed.
End Consume.

(** C40. The consumer acknowledges final bars only.  In every history of
    [consume], each acknowledgement directly follows the delivery of that very
    message and a look at the clock, and the message is a valid bar of one of
    the five symbols from the scouts that closed at least five seconds before;
    and unless it was cut off the last event closes the bus. *)
Theorem consumer_acks_final_bars {bar} `{ClosedBar bar} (bar_source : bar → string) (model_validate : value → result bar)
  (env : environment cres) (fuel : nat) :
  let '(r, h) := consume bar_source model_validate env fuel [] in
  acks_checked bar_source model_validate h ∧
  (r ≠ Fuel → ∃ h0 a, h = h0 ++ [@Ev cop cres CClose a]).
Proof.
  set (body := while fuel (mret true) (consume_one bar_source model_validate env) (mret tt)).
  assert (keeps (acks_checked bar_source model_validate) body) as Hb.
  { apply keeps_while; [apply keeps_ret|apply consume_one_keeps|apply keeps_ret]. }
  assert (acks_checked bar_source model_validate (body []).2) as H1 by (apply Hb; intros h1 p r h2 Hh; by destruct h1).
  unfold consume. fold body. unfold try_finally. destruct (body []) as [[a|e|] h] eqn:E; cbn in *.
  3: by split.
  all: pose proof (cask_keeps bar_source model_validate env CClose ltac:(done) h H1) as H2; cbn in H2.
  all: destruct (env h CClose) as [u|x]; cbn in *; (split; [exact H2|]; intros _; eauto).
Qed.

(** ** Shutting down *)
Section Shutdown.
Context {bar : Type} `{ClosedBar bar} (env : environment (rres (bar := bar))) (fuel : nat) (owner : string) (qualification : bool).
Abbreviation hist := (list (event (rres (bar := bar)))).
Abbreviation ev o r := (@Ev rop (rres (bar := bar)) o r).

(** The steps of the shutdown that are not a close succeed, and no close is interrupted from the keyboard. *)
Definition shutdown_steps : list rop := [RRemoveSignals; RStopSet; RCancelTask; RGatherTask].
Definition orderly : Prop :=
  (∀ h o, o ∈ shutdown_steps → is_ok (env h o) = true) ∧
  (∀ h errors primary, is_ok (env h (RWriteCleanup errors primary)) = true) ∧
  (∀ h r e, env h (RClose r) = Err e → exc_cls e ≠ KeyboardInterrupt).

Definition resources (s : rstate (bar := bar)) : list resource :=
  if rs_supervisor s then [RProducer; RConsumerProbe; RSupervisor; RPool] else [RProducer; RConsumerProbe; RPool].

(** The closes of [l] after the history [h]: their events and errors. *)
Fixpoint closes (h : hist) (l : list resource) : hist * list exc :=
  match l with
  | [] => ([], [])
  | r :: l =>
      let a := env h (RClose r) in
      let '(evs, errors) := closes (h ++ [ev (RClose r) a]) l in
      (ev (RClose r) a :: evs, match a with Ok _ => errors | Err e => e :: errors end)
  end.

Lemma closes_ops h l : ev_op <$> (closes h l).1 = RClose <$> l.
Proof.
  revert h. induction l as [|r l IH]; intros h; [done|]. cbn. specialize (IH (h ++ [ev (RClose r) (env h (RClose r))])).
  destruct (closes _ l) as [evs errors]. cbn in *. by rewrite IH.
Qed.

Lemma rlog_rlog l1 l2 (s : rstate (bar := bar)) : rlog l2 (rlog l1 s) = rlog (l1 ++ l2) s.
Proof. unfold rlog. cbn. by rewrite app_assoc. Qed.

Lemma rask_eq o (s : rstate (bar := bar)) : rask env o s = (out_of (env (rs_hist s) o), rlog [ev o (env (rs_hist s) o)] s).
Proof. reflexivity. Qed.

Lemma close_all (Ho : orderly) l s :
  ∃ failures, mapM (close_one env) l s = (Ret failures, rlog (closes (rs_hist s) l).1 s) ∧ concat failures = (closes (rs_hist s) l).2.
Proof.
  revert s. induction l as [|r l IH]; intros s.
  - exists []. split; [|done]. cbn. unfold rlog. rewrite app_nil_r. by destruct s.
  - cbn [mapM]. set (a := env (rs_hist s) (RClose r)). destruct (IH (rlog [ev (RClose r) a] s)) as (fs & Hf & Hc).
    cbn [rs_hist rlog] in Hf, Hc. cbn [closes]. fold a. destruct (closes (rs_hist s ++ [ev (RClose r) a]) l) as [evs errors]. cbn [fst snd] in *.
    rewrite rlog_rlog in Hf. cbn [app] in Hf.
    assert (close_one env r s = (Ret (match a with Ok _ => [] | Err e => [e] end), rlog [ev (RClose r) a] s)) as Hone.
    { unfold close_one, try_except, mbind, M_bind. rewrite rask_eq. fold a. destruct a as [u|e] eqn:Ea; [done|]. cbn [out_of].
      by rewrite (bool_decide_false _ (proj2 (proj2 Ho) _ _ _ Ea)). }
    eexists. split; [erewrite bind_val by exact Hone; erewrite bind_val by exact Hf; reflexivity|].
    cbn [concat]. rewrite Hc. by destruct a.
Qed.

(** What [shut_down] does after [s] when all goes well. *)
Definition prologue (task : bool) : list rop :=
  (if qualification then [] else [RRemoveSignals]) ++ [RStopSet] ++ (if task then [RCancelTask; RGatherTask] else []).

Lemma step_ok (Ho : orderly) o s : o ∈ shutdown_steps → ∃ a, rask env o s = (Ret a, rlog [ev o (Ok a)] s).
Proof.
  intros Hin. rewrite rask_eq. pose proof (proj1 Ho (rs_hist s) o Hin) as Hk. destruct (env (rs_hist s) o) as [a|e]; [by exists a|done].
Qed.

(** The errors that closing raised. *)
Definition close_errors (h : hist) : list exc :=
  omap (λ e, match e with Ev (RClose _) (Err x) => Some x | _ => None end) h.

Lemma closes_errors h l : (closes h l).2 = close_errors (closes h l).1.
Proof.
  revert h. induction l as [|r l IH]; intros h; [done|]. cbn. specialize (IH (h ++ [ev (RClose r) (env h (RClose r))])).
  destruct (closes _ l) as [evs errors]. cbn in *. by destruct (env h (RClose r)); rewrite IH.
Qed.

(** A sequence of shutdown steps performs them in order and raises nothing. *)
Definition performs (m : M (rstate (bar := bar)) unit) (ops : list rop) : Prop :=
  ∀ s, ∃ evs, m s = (Ret tt, rlog evs s) ∧ ev_op <$> evs = ops ∧ close_errors evs = [].

Lemma performs_nil : performs (mret tt) [].
Proof. intros s. exists []. split; [|done]. unfold rlog. rewrite app_nil_r. by destruct s. Qed.

Lemma performs_app m1 m2 l1 l2 : performs m1 l1 → performs m2 l2 → performs (m1;; m2) (l1 ++ l2).
Proof.
  intros H1 H2 s. destruct (H1 s) as (e1 & E1 & O1 & C1). destruct (H2 (rlog e1 s)) as (e2 & E2 & O2 & C2).
  exists (e1 ++ e2). erewrite bind_val by exact E1. rewrite E2, rlog_rlog, fmap_app, O1, O2. split; [done|]. split; [done|].
  unfold close_errors in *. by rewrite omap_app, C1, C2.
Qed.

(** [rask o] for an [o] that answers with [tt] *)
Ltac performs_step Ho o :=
  let s := fresh "s" in let Ha := fresh "Ha" in
  intros s; destruct (step_ok Ho o s) as [[] Ha]; [by repeat constructor|]; exists [ev o (Ok tt)]; split; [exact Ha|done].

Lemma prologue_performed (Ho : orderly) (B : Type) (k : M (rstate (bar := bar)) B) s :
  ∃ evs, ((if qualification then mret tt else rask env RRemoveSignals);;
          (rask env RStopSet;;
           started ← gets rs_task;
           (if (started : bool) then rask env RCancelTask;; rask env RGatherTask else mret tt);;
           k)) s = k (rlog evs s) ∧ ev_op <$> evs = prologue (rs_task s) ∧ close_errors evs = [].
Proof.
  assert (performs (if qualification then mret tt else rask env RRemoveSignals) (if qualification then [] else [RRemoveSignals])) as H1.
  { destruct qualification; [apply performs_nil|performs_step Ho RRemoveSignals]. }
  assert (performs (rask env RStopSet) [RStopSet]) as H2 by performs_step Ho RStopSet.
  assert (performs (if rs_task s then rask env RCancelTask;; rask env RGatherTask else mret tt) (if rs_task s then [RCancelTask; RGatherTask] else [])) as H3.
  { destruct (rs_task s); [|apply performs_nil]. apply (performs_app _ _ [_] [_]); [performs_step Ho RCancelTask|performs_step Ho RGatherTask]. }
  destruct (H1 s) as (e1 & E1 & O1 & C1). destruct (H2 (rlog e1 s)) as (e2 & E2 & O2 & C2).
  rewrite rlog_rlog in E2. destruct (H3 (rlog (e1 ++ e2) s)) as (e3 & E3 & O3 & C3). rewrite rlog_rlog in E3.
  exists ((e1 ++ e2) ++ e3). erewrite bind_val by exact E1. erewrite bind_val by exact E2.
  erewrite bind_val by reflexivity. cbn [rs_task rlog]. erewrite bind_val by exact E3. split; [done|].
  rewrite !fmap_app, O1, O2, O3. split; [unfold prologue; by rewrite app_assoc|]. unfold close_errors in *. by rewrite !omap_app, C1, C2, C3.
Qed.

(** The final report of what closing raised *)
Definition epilogue (errors : list exc) (primary : bool) : list rop :=
  match errors with [] => [] | _ => [RWriteCleanup errors primary] end.

Lemma shut_down_performed (Ho : orderly) primary s :
  ∃ evs, let errors := close_errors evs in
    shut_down env qualification primary s =
      (match errors with e :: _ => if primary then Ret tt else Exn e | [] => Ret tt end, rlog evs s) ∧
    ev_op <$> evs = prologue (rs_task s) ++ (RClose <$> resources s) ++ epilogue errors primary.
Proof.
  unfold shut_down, close_runtime_resources. edestruct (prologue_performed Ho) as (e1 & E1 & O1 & C1). rewrite E1. clear E1.
  erewrite bind_val by reflexivity. cbn [rs_supervisor rlog]. fold (resources s).
  destruct (close_all Ho (resources s) (rlog e1 s)) as (fs & Hf & Hc). rewrite rlog_rlog in Hf.
  set (e2 := (closes (rs_hist (rlog e1 s)) (resources s)).1) in *. erewrite bind_val by exact Hf. rewrite Hc, closes_errors. fold e2.
  pose proof (closes_ops (rs_hist (rlog e1 s)) (resources s)) as O2. fold e2 in O2. clearbody e2.
  destruct (close_errors e2) as [|x xs] eqn:C2.
  - exists (e1 ++ e2). assert (close_errors (e1 ++ e2) = []) as -> by (unfold close_errors in *; by rewrite omap_app, C1, C2).
    split; [done|]. by rewrite fmap_app, O1, O2, app_nil_r.
  - set (o := RWriteCleanup (x :: xs) primary). set (a := env (rs_hist (rlog (e1 ++ e2) s)) o).
    exists ((e1 ++ e2) ++ [ev o a]).
    assert (close_errors ((e1 ++ e2) ++ [ev o a]) = x :: xs) as ->.
    { unfold close_errors in *. rewrite !omap_app, C1, C2. cbn. by rewrite app_nil_r. }
    split; [|by rewrite !fmap_app, O1, O2, <- app_assoc].
    unfold mbind, M_bind. rewrite rask_eq. fold o a. pose proof (proj1 (proj2 Ho) (rs_hist (rlog (e1 ++ e2) s)) (x :: xs) primary) as Hok.
    fold o a in Hok. destruct a as [u|e]; [|done]. cbn [out_of]. rewrite rlog_rlog. by destruct primary.
Qed.
End Shutdown.

(** C29. Shutting down closes everything and hides nothing.  If the steps of the
    shutdown themselves succeed, then whatever way serving ended, the signal
    handlers are removed, the consumer is stopped, cancelled and awaited if it
    was started, and the producer, the probe, the supervisor if it was
    connected, and the pool are closed, each exactly once and in this order,
    also when closing one of them fails; an operational failure is what
    [runtime] raises, otherwise the first failure of a close if there is one,
    otherwise the report is returned. *)
Theorem shutdown_closes_everything {bar} `{ClosedBar bar} (env : environment (rres (bar := bar))) fuel owner qualification s
  (Ho : orderly env) :
  let '(r0, s0) := serve env fuel owner qualification s in
  r0 ≠ Fuel →
  ∃ evs, let errors := close_errors evs in let primary := match r0 with Exn _ => true | _ => false end in
    serve_and_close env fuel owner qualification s =
      (match r0, errors with Ret _, e :: _ => Exn e | _, _ => r0 end, rlog evs s0) ∧
    ev_op <$> evs = prologue qualification (rs_task s0) ++ (RClose <$> resources s0) ++ epilogue errors primary.
Proof.
  unfold serve_and_close. destruct (serve env fuel owner qualification s) as [[report|e|] s0]; [| |done]; intros _.
  - destruct (shut_down_performed env qualification Ho false s0) as (evs & E & O). exists evs. split; [|exact O].
    cbn zeta in E. destruct (close_errors evs); [by erewrite bind_val by exact E|]. unfold mbind, M_bind. by rewrite E.
  - destruct (shut_down_performed env qualification Ho true s0) as (evs & E & O). exists evs. split; [|exact O].
    cbn zeta in E. by destruct (close_errors evs); erewrite bind_val by exact E.
Qed.

(** ** What a result of [runtime] shows *)
Section Result.
Context {bar : Type} `{ClosedBar bar} (env : environment (rres (bar := bar))) (fuel : nat) (owner : string) (qualification : bool).
Abbreviation hist := (list (event (rres (bar := bar)))).
Abbreviation ev o r := (@Ev rop (rres (bar := bar)) o r).

(** The check that nothing is pending and nothing is traded, [completed] messages being completed. *)
Definition drained_check (completed : Z) : hist :=
  [ev (RCount CPending) (Ok 0); ev (RCount CUnresolved) (Ok 0); ev (RCount CCompleted) (Ok completed);
   ev (RCount CUncompleted) (Ok 0); ev (RCount CTrading) (Ok 0)].
Definition seen (l : hist) (s : rstate (bar := bar)) : Prop := ∃ h1 h2, rs_hist s = h1 ++ l ++ h2.

Lemma seen_rlog l l' s : seen l s → seen l (rlog l' s).
Proof. intros (h1 & h2 & Hs). exists h1, (h2 ++ l'). cbn. rewrite Hs. by rewrite <- !app_assoc. Qed.

Lemma seen_rask l o : keeps (seen l) (rask env o).
Proof. intros s Hs. by apply seen_rlog. Qed.
Lemma seen_modify l f : (∀ s, rs_hist (f s) = rs_hist s) → keeps (seen l) (modify f).
Proof. intros Hf. apply keeps_modify. intros s (h1 & h2 & Hs). exists h1, h2. by rewrite Hf. Qed.
Lemma seen_wait l : keeps (seen l) (source_wait env fuel).
Proof. intros s Hs. unfold source_wait. destruct (wait _ _ _ _) as [r hw]. by apply seen_rlog. Qed.

#[local] Hint Resolve seen_wait : keeps.
#[local] Hint Extern 1 (keeps _ (rask _ _)) => apply seen_rask : keeps.
#[local] Hint Extern 1 (keeps _ (modify _)) => apply seen_modify; reflexivity : keeps.

Lemma try_finally_Ret {A} (m : M (rstate (bar := bar)) A) f s a s' :
  try_finally m f s = (Ret a, s') → ∃ s1 u, m s = (Ret a, s1) ∧ f s1 = (Ret u, s').
Proof. unfold try_finally. destruct (m s) as [[x|e|] s1]; [| |done]; destruct (f s1) as [[] s2] eqn:E; naive_solver. Qed.

Lemma rask_Ret o s a s' : rask env o s = (Ret a, s') ↔ env (rs_hist s) o = Ok a ∧ s' = rlog [ev o (Ok a)] s.
Proof. rewrite rask_eq. destruct (env (rs_hist s) o) as [x|e]; cbn; naive_solver. Qed.

Ltac rask_inv :=
  repeat match goal with
  | X : rask env ?o ?s = (Ret ?a, ?s') |- _ => apply (proj1 (rask_Ret o s a s')) in X; destruct X as [_ X]; subst
  end.

Lemma read_counts_Ret s p u c n s' :
  read_counts env s = (Ret (p, u, c, n), s') → p = 0 → u = 0 → n = 0 → seen (drained_check c) s'.
Proof.
  unfold read_counts. intros Hr -> -> ->. run_inv Hr.
  rask_inv. bool_inv. subst. eexists (rs_hist s), []. cbn. by rewrite <- !app_assoc.
Qed.

Lemma await_completion_Ret s counts s' :
  await_completion env fuel s = (Ret counts, s') → ∃ c, counts = (0, 0, c, 0) ∧ seen (drained_check c) s'.
Proof.
  unfold await_completion. intros Hr. run_inv Hr.
  apply while_Ret in Hr as [(s1 & s2 & _ & Hb)|(s1 & s2 & Hc & _)]; [|by apply mret_Ret in Hc as [[=] _]].
  unfold await_one in Hb. run_inv Hb. destruct (_ && _) eqn:E in Hb.
  - apply mret_Ret in Hb as [Hc ->]. injection Hc as ->. bool_inv. subst.
    match goal with X : try_finally _ _ _ = _ |- _ => apply try_finally_Ret in X as (s6 & x & H1 & H2) end.
    eexists. split; [reflexivity|]. rask_inv. apply seen_rlog. by eapply read_counts_Ret.
  - exfalso. run_inv Hb. discriminate.
Qed.

(** A report of a drained cycle *)
Definition drained_report (report : dict) (completed : Z) (fresh : bool) (cycles : Z) : Prop :=
  dget "pending_outbox" report = VInt 0 ∧ dget "unresolved_inbox" report = VInt 0 ∧
  dget "uncompleted_publications" report = VInt 0 ∧ dget "completed_inbox" report = VInt completed ∧
  dget "trading_started" report = VBool false ∧ dget "LIVE_READY" report = VBool false ∧
  dget "source_fresh" report = VBool fresh ∧ dget "cycles" report = VInt cycles ∧
  (fresh = true → ∃ (values : gmap string bar) target,
     dget "watermarks_ms" report = VDict (watermark_dict values) ∧ dget "finalized_target_ms" report = VInt target ∧
     ∀ w, w ∈ watermarks values → target <= w).

Lemma drained_report_dset k v report completed fresh cycles :
  k ∈ ["state"; "graceful_shutdown"; "observed_at_utc"] →
  drained_report report completed fresh cycles → drained_report (dset k v report) completed fresh cycles.
Proof.
  intros Hk (H1 & H2 & H3 & H4 & H5 & H6 & H7 & H8 & Hf).
  assert (∀ k', k' ∉ ["state"; "graceful_shutdown"; "observed_at_utc"] → dget k' (dset k v report) = dget k' report) as Hget.
  { intros k' Hk'. unfold dget. rewrite dlookup_dset. destruct (String.eqb_spec k' k) as [->|_]; done. }
  unfold drained_report. split_and!; try (rewrite Hget; [done|by_decide]).
  intros Hfr. destruct (Hf Hfr) as (values & target & Hw & Ht & Hle). exists values, target.
  split; [rewrite Hget; [done|by_decide]|]. split; [rewrite Hget; [done|by_decide]|done].
Qed.

Lemma make_report_drained cycles waiting fresh (values : gmap string bar) completed sent target end_ proofs c observed telemetry :
  (fresh = true → ∀ w, w ∈ watermarks values → target <= w) →
  drained_report (make_report owner cycles waiting fresh values (0, 0, completed, 0) sent target end_ proofs c observed telemetry)
    completed fresh (cycles + 1).
Proof. intros Hf. unfold drained_report. do 8 (split; [reflexivity|]). intros Hfresh. exists values, target. auto. Qed.

(** *** The proofs of duplicate delivery *)
(** The verification was answered. *)
Definition verified (s : rstate (bar := bar)) : Prop := ∃ proofs, seen [ev RVerifyDuplicate (Ok proofs)] s.
(** Proofs come from the verification only. *)
Definition proofs_verified (s : rstate (bar := bar)) : Prop := rs_proofs s ≠ [] → verified s.

Lemma verified_rlog l s : verified s → verified (rlog l s).
Proof. intros [proofs Hs]. exists proofs. by apply seen_rlog. Qed.
Lemma pv_rlog l s : proofs_verified s → proofs_verified (rlog l s).
Proof. intros Hs Hp. by apply verified_rlog, Hs. Qed.
Lemma pv_rask o : keeps proofs_verified (rask env o).
Proof. intros s Hs. by apply pv_rlog. Qed.
Lemma pv_modify f : (∀ s, rs_hist (f s) = rs_hist s ∧ rs_proofs (f s) = rs_proofs s) → keeps proofs_verified (modify f).
Proof.
  intros Hf. apply keeps_modify. intros s Hs Hp. destruct (Hf s) as [Hh Hpr]. rewrite Hpr in Hp.
  destruct (Hs Hp) as (proofs & h1 & h2 & E). exists proofs, h1, h2. by rewrite Hh.
Qed.
Lemma pv_wait : keeps proofs_verified (source_wait env fuel).
Proof. intros s Hs. unfold source_wait. destruct (wait _ _ _ _) as [r hw]. by apply pv_rlog. Qed.

#[local] Hint Resolve pv_wait : keeps.
#[local] Hint Extern 1 (keeps proofs_verified (rask _ _)) => apply pv_rask : keeps.
#[local] Hint Extern 1 (keeps proofs_verified (modify _)) => apply pv_modify; by intros : keeps.

Lemma pv_alive : keeps proofs_verified (consumer_alive env).
Proof. unfold consumer_alive, epoch_stop. keeps_walk. Qed.
Lemma pv_target : keeps proofs_verified (final_target env).
Proof. unfold final_target. keeps_walk. Qed.
Lemma pv_counts : keeps proofs_verified (read_counts env).
Proof. unfold read_counts. keeps_walk. Qed.
#[local] Hint Resolve pv_alive pv_target pv_counts : keeps.
Lemma pv_batch : keeps proofs_verified (batch env qualification).
Proof. unfold batch. keeps_walk. Qed.
Lemma pv_await_one deadline : keeps proofs_verified (await_one env deadline).
Proof. unfold await_one. keeps_walk. Qed.
#[local] Hint Resolve pv_batch pv_await_one : keeps.
Lemma pv_await : keeps proofs_verified (await_completion env fuel).
Proof. unfold await_completion, epoch_stop. keeps_walk. Qed.
Lemma pv_startup : keeps proofs_verified (startup env).
Proof. unfold startup. keeps_walk. Qed.
#[local] Hint Resolve pv_await : keeps.

(** The step of [observe_cycle] that runs the verification *)
Lemma verify_step completed proofs s u s' :
  (if qualification && (0 <? completed) && bool_decide (proofs = [])
   then proofs ← rask env RVerifyDuplicate; modify (set_proofs proofs) else mret tt) s = (Ret u, s') →
  proofs = rs_proofs s → proofs_verified s → proofs_verified s' ∧ (qualification = true → 0 < completed → verified s').
Proof.
  intros Hr -> Hs. destruct (qualification && _ && _) eqn:E.
  - run_inv Hr. rask_inv. assert (verified (set_proofs a (rlog [ev RVerifyDuplicate (Ok a)] s))) as Hv; [|split; [intros _; exact Hv|intros; exact Hv]].
    exists a, (rs_hist s), []. by cbn.
  - apply mret_Ret in Hr as [_ ->]. split; [done|]. intros Hq Hc. apply Hs. intros Hp.
    by rewrite Hq, (proj2 (Z.ltb_lt _ _) Hc), Hp in E.
Qed.

Lemma keeps_Ret_run {A} (I : rstate (bar := bar) → Prop) (m : M (rstate (bar := bar)) A) s a s' : keeps I m → m s = (Ret a, s') → I s → I s'.
Proof. intros Hk Hr Hs. specialize (Hk s Hs). by rewrite Hr in Hk. Qed.

Lemma observe_cycle_Ret s report fresh completed waiting s' :
  observe_cycle env fuel owner qualification s = (Ret (report, fresh, completed, waiting), s') → proofs_verified s →
  seen (drained_check completed) s' ∧ drained_report report completed fresh (rs_cycles s') ∧ proofs_verified s' ∧
  (qualification = true → 0 < completed → verified s').
Proof.
  unfold observe_cycle. intros Hr Hs. run_inv Hr.
  match goal with X : await_completion _ _ _ = _ |- _ => pose proof (keeps_Ret_run _ _ _ _ _ pv_await X) as Hk2;
    apply await_completion_Ret in X as (c & [= -> -> -> ->] & Hseen) end.
  assert (proofs_verified s5) as H5.
  { eapply keeps_Ret_run; [apply pv_target|eassumption|]. rask_inv. apply pv_rlog, Hk2, pv_rlog.
    eapply keeps_Ret_run; [apply pv_batch|eassumption|]. eapply keeps_Ret_run; [apply pv_alive|eassumption|done]. }
  match goal with X : (if _ then _ else _) _ = _ |- _ => pose proof (verify_step _ _ _ _ _ X eq_refl H5) as [H6 Hv];
    assert (seen (drained_check c) s6) as Hseen6; [refine (keeps_Ret_run _ _ _ _ _ _ X _)|] end.
  { destruct (_ && _); [|apply keeps_ret]. keeps_walk. }
  { eapply (keeps_Ret_run (seen (drained_check c)) (final_target env)); [unfold final_target; keeps_walk|eassumption|].
    rask_inv. by apply seen_rlog. }
  assert (rs_cycles s9 = rs_cycles s6) as Hcy by (rask_inv; done). cbn [completed_of next_cycle rs_cycles].
  rewrite Hcy. split_and!.
  - rask_inv. by repeat apply (seen_rlog (drained_check c)).
  - apply make_report_drained. intros Hfr w Hw. apply andb_true_iff in Hfr as [_ Hfr].
    rewrite forallb_forall in Hfr. apply Z.leb_le, Hfr. by apply list_elem_of_In.
  - rask_inv. by repeat apply pv_rlog.
  - intros Hq Hc. rask_inv. repeat apply (verified_rlog [_]). by apply Hv.
Qed.

(** What a returned report shows, given the history. *)
Definition shows (report : dict) (s : rstate (bar := bar)) : Prop :=
  ∃ completed fresh cycles, seen (drained_check completed) s ∧ drained_report report completed fresh cycles ∧
    ((dget "state" report = VStr "NONTRADING_RUNTIME_QUALIFIED" ∧ qualification = true ∧ 0 < completed ∧ 2 <= cycles ∧
      fresh = true ∧ verified s) ∨
     (dget "state" report = VStr "STOPPED_NONTRADING" ∧ dget "graceful_shutdown" report = VBool true ∧
      seen [ev RShutdownSet (Ok true)] s)).

Lemma shows_rask report o : keeps (shows report) (rask env o).
Proof.
  intros s (completed & fresh & cycles & Hs & Hr & Hc). exists completed, fresh, cycles.
  split; [by apply seen_rlog|]. split; [done|].
  destruct Hc as [(? & ? & ? & ? & ? & Hv)|(? & ? & Hv)]; [left|right]; split_and!; try done; [by apply verified_rlog|by apply seen_rlog].
Qed.
#[local] Hint Extern 1 (keeps (shows _) (rask _ _)) => apply shows_rask : keeps.

Lemma stopped_shows report completed fresh cycles s :
  seen (drained_check completed) s → drained_report report completed fresh cycles → seen [ev RShutdownSet (Ok true)] s →
  shows (stopped_report report) s.
Proof.
  intros Hs Hr Hd. exists completed, fresh, cycles. split; [done|]. unfold stopped_report. split.
  - apply drained_report_dset; [by_decide|]. apply drained_report_dset; [by_decide|done].
  - right. unfold dget. by rewrite !dlookup_dset.
Qed.

Lemma shutdown_seen s s' : rask env RShutdownSet s = (Ret true, s') → seen [ev RShutdownSet (Ok true)] s'.
Proof. intros [_ ->]%rask_Ret. exists (rs_hist s), []. done. Qed.

Lemma cycle_ends :
  post proofs_verified (cycle env fuel owner qualification)
    (ends (λ r s, match r with Some report => shows report s | None => proofs_verified s end) (λ _, True)).
Proof.
  apply post_ends. intros s r s' Hs Hr. unfold cycle in Hr.
  apply bind_Ret in Hr as ([[[report fresh] completed] waiting] & s1 & Hobs & Hr). cbn beta iota in Hr.
  apply observe_cycle_Ret in Hobs as (Hseen & Hrep & Hp & Hv); [|done]. apply bind_Ret in Hr as (n & s2 & [-> ->]%gets_Ret & Hr).
  destruct (qualification && _ && _ && _) eqn:Eq.
  { apply mret_Ret in Hr as [-> ->]. bool_inv. exists completed, fresh, (rs_cycles s1). split; [done|].
    split; [by apply drained_report_dset; [by_decide|]|]. left. subst. split_and!; try done; [|by apply Hv].
    unfold dget. by rewrite dlookup_dset. }
  apply bind_Ret in Hr as (shutdown & s2 & Hsd & Hr). pose proof (proj1 (rask_Ret RShutdownSet _ _ _) Hsd) as [_ E2].
  destruct shutdown.
  { apply mret_Ret in Hr as [-> ->]. eapply stopped_shows; [|done|by eapply shutdown_seen]. subst s2. by apply seen_rlog. }
  assert (proofs_verified s2 ∧ seen (drained_check completed) s2) as [Hp2 Hseen2] by (subst s2; split; [by apply pv_rlog|by apply seen_rlog]).
  destruct waiting as [reason|].
  - apply bind_Ret in Hr as (stamp & s3 & Hw & Hr). pose proof (keeps_Ret_run _ _ _ _ _ pv_wait Hw Hp2) as Hp3.
    pose proof (keeps_Ret_run _ _ _ _ _ (seen_wait _) Hw Hseen2) as Hseen3.
    apply bind_Ret in Hr as (again & s4 & Hsd2 & Hr). pose proof (proj1 (rask_Ret RShutdownSet _ _ _) Hsd2) as [_ E4].
    apply mret_Ret in Hr as [-> ->]. destruct again; [|subst s4; by apply pv_rlog].
    eapply stopped_shows; [subst s4; by apply seen_rlog| |by eapply shutdown_seen].
    destruct stamp as [at_|]; [|exact Hrep]. apply drained_report_dset; [by_decide|exact Hrep].
  - apply bind_Ret in Hr as (u & s3 & Hi & Hr). apply mret_Ret in Hr as [-> ->].
    refine (keeps_Ret_run _ _ _ _ _ _ Hi Hp2). destruct fresh; [|apply (pv_rask (RSleep _))]. unfold runtime_idle. keeps_walk.
Qed.

Lemma shows_shut_down report primary : keeps (shows report) (shut_down env qualification primary).
Proof. unfold shut_down, close_runtime_resources, close_one. keeps_walk. Qed.
End Result.

(** C8. What a result of [runtime] shows.  If [runtime] returns, its report is
    that of a drained cycle: the last reading of the counts over one connection
    found nothing pending, unresolved or uncompleted and no trading row, and
    the report says so.  It is a qualification only when qualifying, after at
    least two cycles, with a completed message, with the duplicate-delivery
    verification answered, and with every watermark at the final target or
    later; otherwise it is a graceful stop that was asked for. *)
Theorem runtime_result_is_drained {bar} `{ClosedBar bar} (env : environment (rres (bar := bar))) fuel owner qualification report s
  (Hrun : runtime env fuel owner qualification rstate0 = (Ret report, s)) :
  shows qualification report s.
Proof.
  unfold runtime in Hrun. apply bind_Ret in Hrun as (u & s1 & H1 & Hrun). apply bind_Ret in Hrun as (u' & s2 & H2 & Hrun).
  assert (proofs_verified s2) as Hp2.
  { refine (keeps_Ret_run proofs_verified (if qualification then mret tt else rask env RInstallSignals) _ _ _ _ H2 _).
    - destruct qualification; [apply keeps_ret|apply (pv_rask env RInstallSignals)].
    - refine (keeps_Ret_run _ _ _ _ _ (pv_rask env RCreatePool) H1 _). by intros []. }
  unfold serve_and_close in Hrun. destruct (serve env fuel owner qualification s2) as [[report'|e|] s3] eqn:Es; [| |done].
  - apply bind_Ret in Hrun as (u'' & s4 & H4 & [-> ->]%mret_Ret).
    refine (keeps_Ret_run _ _ _ _ _ (shows_shut_down env qualification report' false) H4 _).
    unfold serve in Es. apply bind_Ret in Es as (u3 & s5 & H5 & Hloop).
    pose proof (keeps_Ret_run _ _ _ _ _ (pv_startup env) H5 Hp2) as Hp5.
    refine (ends_run proofs_verified (shows qualification) _ _ _ _ _ Hp5 Hloop).
    apply (while_cond_ends proofs_verified proofs_verified (λ _, False)); [by intros x Hx| |by intros x []].
    intros x Hx. pose proof (cycle_ends env fuel owner qualification x Hx) as Hc. by destruct (cycle env fuel owner qualification x) as [[[]| |] y].
  - exfalso. apply bind_Ret in Hrun as (u'' & s4 & _ & [[=] _]%liftR_Ret).
Qed.

(** ** Witnesses *)
(** A world in which nothing is missing and a shutdown was requested. *)
Definition idle_bar : Type := string * Z.
#[local] Instance idle_bar_ClosedBar : ClosedBar idle_bar :=
  {| bar_symbol := fst; open_time_ms := snd; close_time_ms := λ b, b.2 + MINUTE - 1; canonical_bar_bytes := fst |}.
Definition idle_bars : gmap string idle_bar := list_to_map ((λ s, (s, (s, 0))) <$> SYMBOLS).
Definition idle_world : environment (rres (bar := idle_bar)) := λ h o,
  match o with
  | RTaskDone => Ok false
  | RSupervisorLock | RShutdownSet => Ok true
  | RProbeXadd => Err (Exc NoPermissionError "")
  | RProbeUpdate => Err (Exc InsufficientPrivilegeError "")
  | RTime => Ok (fz 66) | RClock => Ok (fz 1) | RTimeNs => Ok 1 | RFlush => Ok 0 | RCount _ => Ok 0
  | RAnchors => Ok idle_bars
  | RRecover _ _ => Ok None
  | RVerifyDuplicate => Ok []
  | RNowIso => Ok "now"
  | RTelemetry => Ok VNone
  | RWait o' => match o' with WClock => Ok (fz 1) | WRequested | WDone => Ok true | WHeartbeat => Ok "now" | _ => Ok tt end
  | _ => Ok tt
  end.

Lemma idle_world_stops : ∃ report s, runtime idle_world 2 "owner" false rstate0 = (Ret report, s).
Proof.
  assert (match (runtime idle_world 2 "owner" false rstate0).1 with Ret _ => true | _ => false end = true) as H by (vm_compute; reflexivity).
  destruct (runtime _ _ _ _ _) as [[report| |] s]; [eauto|discriminate H..].
Qed.

Lemma runtime_result_is_drained_witness :
  ∃ report s, runtime idle_world 2 "owner" false rstate0 = (Ret report, s) ∧ shows false report s.
Proof.
  destruct idle_world_stops as (report & s & Hr). exists report, s. split; [exact Hr|].
  exact (runtime_result_is_drained idle_world 2 "owner" false report s Hr).
Defined.

Lemma idle_world_orderly : orderly idle_world.
Proof.
  split; [|split; [done|discriminate]]. intros h o Hin. repeat (apply elem_of_cons in Hin as [->|Hin]; [done|]). by apply elem_of_nil in Hin.
Qed.

Abbreviation idle_serving := (serve idle_world 2 "owner" false rstate0).
Lemma idle_serving_ends : match idle_serving.1 with Fuel => true | _ => false end = false.
Proof. vm_compute. reflexivity. Qed.

Lemma shutdown_closes_everything_witness :
  ∃ r0 s0 (evs : list (event (rres (bar := idle_bar)))), idle_serving = (r0, s0) ∧ r0 ≠ Fuel ∧
    ev_op <$> evs = prologue false (rs_task s0) ++ (RClose <$> resources s0) ++
      epilogue (close_errors evs) (match r0 with Exn _ => true | _ => false end).
Proof.
  pose proof (shutdown_closes_everything idle_world 2 "owner" false rstate0 idle_world_orderly) as Hw.
  pose proof idle_serving_ends as He. destruct idle_serving as [r0 s0].
  assert (r0 ≠ Fuel) as Hr by (intros ->; discriminate He). destruct (Hw Hr) as (evs & _ & Ho). exists r0, s0, evs.
  split; [reflexivity|]. split; [exact Hr|exact Ho].
Defined.
