(* ===== verification/EpochBoot.v ===== *)
(** * Reading a configuration and the state of a stopped epoch ([scripts/runtime_epoch_worker.py])

    The schema profiles, [validate_config], the boot-state seed with its
    validators, and the snapshot of the queues of a stopped epoch.  The profile,
    a context variable of the process, is an argument. *)

From stdpp Require Import gmap strings.
From S2P Require Import Prelude PyStr Regex PyVal Json Effects EpochPublication EpochSource EpochTransport EpochRuntime.

Local Open Scope string_scope.
Local Open Scope list_scope.
Local Open Scope Z_scope.
Local Open Scope regex_scope.

Definition ORIGINAL_PREFIX_ROWS : Z := 173164.
Definition ORIGINAL_PREFIX_LAST_OPEN_MS : Z := 1789832580000.
Definition ORIGINAL_PREFIX_TABLE_SHA256 : string :=
  "f23b4060feae703c568b0204f4b3ff8932fe2813b20f578bc0a0d983e5600499".
Definition CURRENT_ORIGINAL_PREFIX_TABLE_SHA256 : string :=
  "d22dd917b3ce71baa569531170c5a0cf7682b8c59de41b335ca25116c210c609".
Definition CURRENT_ORIGINAL_PREFIX_DIGEST_SCOPE : string :=
  "audit-original-fields-excluding-import-persisted-at.v1".
Definition SOURCE_DUMP_SHA256 : string :=
  "2408db1335dc856122750e4604f14a436184f54a7f4ffab22bc35eb69747a7bc".

(** ** Schema profiles *)
Definition CONTROLLED_RUNTIME_PUBLIC_TABLES : list string :=
  ["account_equity_state"; "account_snapshots"; "campaign_source_budgets"; "event_audit"; "execution_effect_events";
   "execution_effects"; "execution_mutation_budget_scopes"; "execution_mutation_reservations"; "execution_orders";
   "execution_recovery_state"; "execution_runtime_health"; "execution_trade_events"; "execution_trades";
   "message_inbox"; "message_outbox"; "operator_control_admissions"; "operator_control_commands";
   "operator_control_dispatch_claims"; "operator_controls"; "paper_canary_arms"; "paper_canary_attempts";
   "paper_canary_database_identity"; "paper_canary_dispatch_claims"; "paper_canary_sessions";
   "paper_readonly_receipts"; "paper_readonly_runs"; "paper_readonly_samples"; "position_snapshots";
   "public_execution_events"; "schema_migrations"; "source_cursors"; "source_usage_reservations"].
(** [tuple(sorted(...))] *)
Definition CURRENT_CONTROLLED_RUNTIME_PUBLIC_TABLES : list string :=
  sort_str (CONTROLLED_RUNTIME_PUBLIC_TABLES ++ ["news_processing"]).
Definition HISTORICAL_CONTROLLED_RUNTIME_MIGRATIONS : list string :=
  ["001_audit_and_idempotency.sql"; "002_durable_runtime.sql"; "003_execution_effect_journal.sql";
   "004_execution_recovery_delay.sql"; "005_source_state_and_usage.sql"; "006_paper_trade_lifecycle.sql";
   "007_execution_runtime_health.sql"; "008_public_execution_events.sql"; "009_paper_canary_arms.sql";
   "010_runtime_compensation_reserve.sql"; "011_execution_mutation_budget.sql"; "012_outbox_producer_order.sql";
   "013_campaign_source_budgets.sql"; "014_bounded_canary_sessions.sql"; "015_canary_dispatch_claims.sql";
   "016_global_canary_session_guard.sql"; "018_offline_outbox_reconciliation.sql"; "026_operator_control.sql"].
Definition CURRENT_CONTROLLED_RUNTIME_MIGRATIONS : list string :=
  HISTORICAL_CONTROLLED_RUNTIME_MIGRATIONS ++ ["028_news_processing.sql"].

Record profile := Profile { identity : string; migrations : list string; public_tables : list string }.
Definition SCHEMA_PROFILES : list (string * profile) :=
  [("historical-default",
    Profile "historical-default" HISTORICAL_CONTROLLED_RUNTIME_MIGRATIONS CONTROLLED_RUNTIME_PUBLIC_TABLES);
   ("current-controlled-v1",
    Profile "current-controlled-v1" CURRENT_CONTROLLED_RUNTIME_MIGRATIONS CURRENT_CONTROLLED_RUNTIME_PUBLIC_TABLES)].

Definition schema_profile (selected : string) : result profile :=
  match dlookup selected SCHEMA_PROFILES with Some p => Ok p | None => raise EpochError "UNKNOWN_SCHEMA_PROFILE" end.

Definition is_current (p : profile) : bool := String.eqb (identity p) "current-controlled-v1".

Definition len {A} (l : list A) : Z := Z.of_nat (length l).

Definition schema_profile_report (p : profile) : dict :=
  if String.eqb (identity p) "historical-default" then []
  else [("schema_profile", VStr (identity p)); ("schema_migration_count", VInt (len (migrations p)));
        ("schema_public_table_count", VInt (len (public_tables p)))].

(** [verify_schema] of the versions in the order of the query *)
Definition verify_schema (p : profile) (source : bool) (actual : list string) : result unit :=
  let expected := if source && is_current p then HISTORICAL_CONTROLLED_RUNTIME_MIGRATIONS else migrations p in
  raise_if (negb (bool_decide (actual = expected))) EpochError "EXACT_CONTROLLED_SCHEMA_REQUIRED".

(** ** Patterns *)

(** [re.fullmatch(r, v)] *)
Definition match_value (r : regex) (v : value) : result bool :=
  match v with
  | VStr s => Ok (fullmatch r s)
  | VBytes _ => raise TypeError "cannot use a string pattern on a bytes-like object"
  | _ => raise TypeError "expected string or bytes-like object"
  end.

(** [re.fullmatch(r"[0-9a-f]{64}", str(v))]: the texts of other values than
    strings and integers hold a character outside of the class. *)
Definition hex64_text (v : value) : bool :=
  match v with VStr s => fullmatch (hex 64) s | VInt z => fullmatch (hex 64) (dec_of_Z z) | _ => false end.

Definition is_reviewed_boot_restore_host (p : profile) (owner : string) (host : value) : bool :=
  match host with
  | VStr host =>
      if is_current p
      then fullmatch (hex 32) owner
           && fullmatch (RLit ("kairos-epoch-" +:+ stake 12 owner +:+ "-restore-current-") ⋅ hex 14) host
      else String.eqb owner "69893dc7b7c647f49967387e7efca9fb"
           && fullmatch (RLit "kairos-epoch-69893dc7b7c6-restore-reviewed-" ⋅ hex 8) host
  | _ => false
  end.

(** ** The boot-state seed *)
Definition BOOT_ALLOWED_NONEMPTY_TABLES : list string :=
  ["schema_migrations"; "event_audit"; "message_outbox"; "message_inbox"; "paper_canary_database_identity"].
Definition BOOT_DATABASE_IDENTITY : dict :=
  [("count", VInt 1); ("sha256", VStr "ba22f0bf5a60970ce0553e4c307106244912c7764e0f355a1955be65898e6e38")].

Definition validate_epoch_table_inventory (p : profile) (tables : list string) : result unit :=
  raise_if (negb (bool_decide (tables = public_tables p))) EpochError "EXACT_EPOCH_TABLE_INVENTORY_REQUIRED".

Definition is_database_identity (v : value) : bool :=
  match v with
  | VDict d => keys_are d ["count"; "sha256"] && is_exact_int (dget "count" d) && py_eq (dget "count" d) (VInt 1)
               && hex64_text (dgetd "sha256" (VStr "") d)
  | _ => false
  end.
Definition validate_database_identity_digest (v : value) : result value :=
  _ ← raise_if (negb (is_database_identity v)) EpochError "EXACT_DATABASE_IDENTITY_DIGEST_REQUIRED"; Ok v.

Definition validate_boot_database_identity (p : profile) (tables : dict) (expected_identity : value) : result unit :=
  expected ← (if is_current p
              then expected ← validate_database_identity_digest expected_identity;
                   _ ← validate_database_identity_digest (dget "paper_canary_database_identity" tables); Ok expected
              else Ok (VDict BOOT_DATABASE_IDENTITY));
  raise_if (negb (py_eq (dget "paper_canary_database_identity" tables) expected)) EpochError
    "BOOT_MIGRATION_DATABASE_IDENTITY_CONFLICT".

Definition expected_original_prefix (p : profile) : dict :=
  [("rows", VInt ORIGINAL_PREFIX_ROWS);
   ("audit_table_sha256", VStr (if is_current p then CURRENT_ORIGINAL_PREFIX_TABLE_SHA256 else ORIGINAL_PREFIX_TABLE_SHA256));
   ("last_open_time_ms", VInt ORIGINAL_PREFIX_LAST_OPEN_MS)]
  ++ (if is_current p then [("digest_scope", VStr CURRENT_ORIGINAL_PREFIX_DIGEST_SCOPE)] else []).

Definition seed_fields (p : profile) : list string :=
  ["state"; "matched_public_tables"; "tables"; "sequences"; "anchors"; "original_prefix"; "queue"; "trading_started"]
  ++ (if is_current p then ["schema_profile"; "schema_migration_count"; "schema_public_table_count"; "database_identity"] else []).

Definition queue_keys : list string :=
  ["outbox_rows"; "inbox_rows"; "completed_inbox"; "pending_outbox"; "unresolved_inbox"; "trading_rows"].

(** [row.get("count")] of a digest that may not be a dict *)
Definition count_of (table : string) (tables : dict) : value :=
  match dget table tables with VDict row => dget "count" row | _ => VNone end.

(** A digest of a table: a count and a hash. *)
Definition digest_ok (row : value) : bool :=
  match row with
  | VDict row => match dget "count" row with VInt n => (0 <=? n) && hex64_text (dgetd "sha256" (VStr "") row) | _ => false end
  | _ => false
  end.

(** [set(value.get("tables", {})) == set(tables)] *)
Definition set_is (v : value) (names : list string) : result bool :=
  l ← py_set v;
  Ok (forallb (λ x, existsb (λ n, py_eq x (VStr n)) names) l && forallb (λ n, existsb (λ x, py_eq x (VStr n)) l) names).

Definition queue_ok (queue tables : dict) : bool :=
  py_eq (dget "outbox_rows" queue) (dget "inbox_rows" queue)
  && py_eq (dget "completed_inbox" queue) (dget "inbox_rows" queue)
  && py_eq (dget "pending_outbox" queue) (VInt 0)
  && py_eq (dget "unresolved_inbox" queue) (VInt 0)
  && py_eq (dget "trading_rows" queue) (VInt 0)
  && py_eq (dget "outbox_rows" queue) (count_of "message_outbox" tables)
  && py_eq (dget "inbox_rows" queue) (count_of "message_inbox" tables)
  && forallb (λ k, match dget k queue with VInt n => 0 <=? n | _ => false end) queue_keys.

Definition SEED_REQUIRED : string := "EXACT_BOOT_STATE_EXPECTATION_REQUIRED".

Definition validate_boot_seed (p : profile) (value_ : value) : result unit :=
  match value_ with
  | VDict v =>
      _ ← raise_ifR (Ok (negb (keys_are v (seed_fields p))
                        || negb (py_eq (dget "state" v) (VStr "PASS_BOOT_STATE"))
                        || negb (py_eq (dget "matched_public_tables" v) (VInt (len (public_tables p))))
                        || negb (is_false (dget "trading_started" v)))
                     ||? (same ← set_is (dget "tables" v) (public_tables p); Ok (negb same))
                     ||? Ok (negb (is_dict (dget "sequences" v)) || negb (is_dict (dget "queue" v))
                             || negb (is_dict (dget "anchors" v)) || negb (is_dict (dget "original_prefix" v))))
           EpochError SEED_REQUIRED;
      _ ← raise_if (is_current p
                    && (negb (py_eq (dget "schema_profile" v) (VStr (identity p)))
                        || negb (py_eq (dget "schema_migration_count" v) (VInt (len (migrations p))))
                        || negb (py_eq (dget "schema_public_table_count" v) (VInt (len (public_tables p))))))
           EpochError SEED_REQUIRED;
      match dget "tables" v, dget "queue" v, dget "anchors" v with
      | VDict tables, VDict queue, VDict anchors =>
          _ ← raise_if (is_current p
                        && (negb (is_dict (dget "schema_migrations" tables))
                            || negb (py_eq (count_of "schema_migrations" tables) (VInt (len (migrations p))))))
               EpochError SEED_REQUIRED;
          _ ← raise_if (existsb (λ row, negb (digest_ok row.2)) tables) EpochError SEED_REQUIRED;
          _ ← raise_if (existsb (λ t, negb (bool_decide (t ∈ BOOT_ALLOWED_NONEMPTY_TABLES)) && negb (py_eq (count_of t tables) (VInt 0)))
                          (public_tables p))
               EpochError "BOOT_STATE_NON_AUDIT_TABLE_NOT_EMPTY";
          _ ← validate_boot_database_identity p tables (dget "database_identity" v);
          _ ← raise_if (negb (py_eq (dget "original_prefix" v) (VDict (expected_original_prefix p))) || negb (queue_ok queue tables))
               EpochError SEED_REQUIRED;
          validate_history_snapshot (count_of "event_audit" tables) anchors (VDict [("anchors", VDict anchors)])
      | _, _, _ => no_attr "values"
      end
  | _ => raise EpochError SEED_REQUIRED
  end.

Definition validate_expected_audit_digest (expected_seed audit : dict) : result unit :=
  match dlookup "audit_table_sha256" expected_seed with
  | Some sha => raise_if (negb (hex64_text sha) || negb (py_eq (dget "sha256" audit) sha)) EpochError "EXPECTED_FULL_AUDIT_DIGEST_CONFLICT"
  | None => Ok tt
  end.

(** The lower bounds that every chain of the original history has. *)
Definition original_first (symbol : string) : Z := if String.eqb symbol "XRPUSDT" then 1787754720000 else 1787754660000.

Definition is_int_between (lo hi : Z) (v : value) : bool := match v with VInt n => (lo <=? n) && (n <=? hi) | _ => false end.

Definition validate_history_state (p : profile) (v : dict) : result unit :=
  _ ← raise_if (negb (py_eq (dget "matched_public_tables" v) (VInt (len (public_tables p))))
                || negb (py_eq (dget "original_prefix" v) (VDict (expected_original_prefix p)))
                || negb (is_int_between ORIGINAL_PREFIX_ROWS 1000000 (dget "rows" v))
                || negb (hex64_text (dgetd "audit_table_sha256" (VStr "") v))
                || existsb (λ k, negb (is_int_between 0 0 (dget k v))) ["outbox_rows"; "inbox_rows"; "orders_rows"; "effects_rows"]
                || negb (is_false (dget "trading_started" v)))
       EpochError "VERIFIED_AUDIT_ONLY_HISTORY_STATE_REQUIRED";
  let history := match dget "anchors" v with VDict d => d | _ => [] end in
  _ ← validate_history_snapshot (dget "rows" v) history (VDict [("rows", dget "rows" v); ("anchors", dget "anchors" v)]);
  raise_if (existsb (λ a : string * value,
              match a.2 with
              | VDict anchor => negb (py_eq (dget "first_open_time_ms" anchor) (VInt (original_first a.1)))
                                || negb (match dget "last_open_time_ms" anchor with VInt n => ORIGINAL_PREFIX_LAST_OPEN_MS <=? n | _ => false end)
              | _ => true
              end) history) EpochError "ORIGINAL_HISTORY_PREFIX_BOUNDARY_REQUIRED".

(** ** [validate_config] *)
Definition MODES : list string :=
  ["prepare"; "seed"; "catchup"; "verify-restore"; "boot-state"; "incident-state"; "incident-drain"; "incident-verify-restore";
   "r5-state"; "r5-verify-restore"; "r5-drain"; "r6-state"; "r6-verify-restore"; "r6-drain";
   "r7-state"; "r7-verify-restore"; "r7-drain"; "boot-verify-restore"; "boot-catchup"; "boot-redis-state"; "boot-redis-clone";
   "rotate-history"; "history-state"; "qualify"; "serve"].

Definition among (mode : string) (l : list string) : bool := bool_decide (mode ∈ l).

Section Config.
Context (p : profile).
(** The validators of the r5, r6 and r7 profiles: [mode] and the configuration *)
Context (validate_read_profile : string → value → result unit).
(** [time.time()] *)
Context (time_now : flt).

Definition epoch_require (b : bool) (reason : string) : result unit := raise_if (negb b) EpochError reason.

Definition base_keys : list string := ["owner"; "database"; "pg_host"; "redis_host"; "admin_password"].

(** [type(end) is not int or end % MINUTE or end > now - FINALITY_MS], negated *)
Definition final_end (v : dict) : result bool :=
  now ← milliseconds time_now;
  Ok (match dget "end_exclusive_ms" v with VInt e => (e mod MINUTE =? 0) && (e <=? now - FINALITY_MS) | _ => false end).

Definition admitted_restore_hosts (owner : string) : list string :=
  ("kairos-epoch-" +:+ stake 12 owner +:+ "-restore")
  :: (if String.eqb owner "69893dc7b7c647f49967387e7efca9fb"
      then (λ n, "kairos-epoch-69893dc7b7c6-restore-" +:+ n) <$>
             ["incident03"; "transport03"; "transport04"; "transport05"; "transport06"; "transport07"; "transport08"]
      else []).

(** [value.get("owner", "")] and the checks that every mode shares *)
Definition common_config (mode : string) (v : dict) : result string :=
  owner_ok ← match_value (hex 32) (dgetd "owner" (VStr "") v);
  _ ← epoch_require owner_ok "EPOCH_OWNER_REQUIRED";
  let owner := match dget "owner" v with VStr s => s | _ => "" end in
  let owned := "kairos-epoch-" +:+ stake 12 owner in
  _ ← epoch_require (py_eq (dget "database" v) (VStr ("kairos_epoch_" +:+ stake 12 owner))) "NEW_EPOCH_DATABASE_REQUIRED";
  _ ← (if String.eqb mode "boot-state" && is_current p
       then _ ← epoch_require (keys_are v (base_keys ++ ["database_identity"])) "CURRENT_BOOT_DATABASE_IDENTITY_REQUIRED";
            _ ← validate_database_identity_digest (dget "database_identity" v); Ok tt
       else Ok tt);
  _ ← mapR (λ key,
        ok ← match_value (RLit (owned +:+ "-") ⋅ RPlus (RChar is_lower)) (dgetd key (VStr "") v);
        epoch_require ok "OWNED_EPOCH_HOST_REQUIRED") ["pg_host"; "redis_host"];
  _ ← mapR (λ kv : string * value,
        if endswith "password" kv.1 then ok ← match_value (hex 64) kv.2; epoch_require ok "NEW_PRIVATE_CREDENTIAL_REQUIRED"
        else Ok tt) v;
  _ ← epoch_require (negb (among mode ["boot-state"; "boot-verify-restore"; "boot-catchup"; "boot-redis-state"; "boot-redis-clone"])
        || py_eq (dget "pg_host" v) (VStr (owned +:+ "-pg"))
           && py_eq (dget "redis_host" v) (VStr (owned +:+ (if String.eqb mode "boot-redis-clone" then "-redisclone" else "-redis"))))
      "EXACT_OWNED_BOOT_EPOCH_HOSTS_REQUIRED";
  Ok owner.

(** The further checks of each mode, in the order of the code *)
Definition mode_config (mode owner : string) (v : dict) : result unit :=
  let at_ := String.eqb mode in
  _ ← epoch_require (negb (at_ "history-state") || keys_are v base_keys) "EXACT_READONLY_HISTORY_STATE_CONFIG_REQUIRED";
  _ ← (if among mode ["qualify"; "serve"] then
         _ ← epoch_require (negb (existsb (λ k, dmem k v) ["admin_password"; "history_password"; "source_password"; "source_admin_password"]))
             "RUNTIME_ADMIN_CREDENTIAL_REJECTED";
         epoch_require (forallb (λ k, py_truthy (dget k v))
             ["producer_password"; "consumer_password"; "redis_producer_password"; "redis_consumer_password"])
           "SEPARATE_RUNTIME_CREDENTIALS_REQUIRED"
       else Ok tt);
  _ ← (if at_ "catchup" then
         ok ← final_end v;
         _ ← epoch_require ok "FIXED_FINALITY_SAFE_DEADLINE_REQUIRED";
         epoch_require (py_eq (dget "maximum_bars" v) (VInt MAX_BARS)) "EXACT_GLOBAL_HISTORY_CAP_REQUIRED"
       else Ok tt);
  _ ← epoch_require (negb (at_ "boot-state") || keys_are v (base_keys ++ if is_current p then ["database_identity"] else []))
      "EXACT_READONLY_BOOT_STATE_CONFIG_REQUIRED";
  _ ← (if at_ "boot-verify-restore" then
         _ ← epoch_require (keys_are v (base_keys ++ ["restore_host"; "restore_database"; "restore_admin_password"; "expected_seed"]))
             "EXACT_OWNED_BOOT_RESTORE_CONFIG_REQUIRED";
         _ ← raise_if (negb (hashable (dget "restore_host" v))) TypeError "unhashable type";
         _ ← epoch_require ((match dget "restore_host" v with VStr h => among h (admitted_restore_hosts owner) | _ => false end
                             || is_reviewed_boot_restore_host p owner (dget "restore_host" v))
               && py_eq (dget "restore_database" v) (VStr ("kairos_recovery_" +:+ stake 12 owner +:+ "_epochrestore")))
             "EXACT_OWNED_BOOT_RESTORE_CONFIG_REQUIRED";
         validate_boot_seed p (dget "expected_seed" v)
       else Ok tt);
  _ ← (if at_ "boot-catchup" then
         ok ← final_end v;
         _ ← epoch_require (ok && py_eq (dget "maximum_bars" v) (VInt MAX_BARS)
               && keys_are v ["owner"; "database"; "pg_host"; "redis_host"; "history_password"; "end_exclusive_ms"; "maximum_bars"; "expected_seed"])
             "EXACT_FIXED_BOOT_CATCHUP_CONFIG_REQUIRED";
         validate_boot_seed p (dget "expected_seed" v)
       else Ok tt);
  _ ← epoch_require (negb (among mode ["boot-redis-state"; "boot-redis-clone"])
        || keys_are v ["owner"; "database"; "pg_host"; "redis_host"; "producer_password"; "consumer_password";
                       "redis_producer_password"; "redis_consumer_password"])
      "EXACT_READONLY_BOOT_REDIS_CONFIG_REQUIRED";
  _ ← epoch_require (negb (at_ "seed")
        || py_eq (dget "source_dump_sha256" v) (VStr SOURCE_DUMP_SHA256)
           && py_eq (dget "seed_expectation" v) (VDict [("accepted_dump_sha256", VStr SOURCE_DUMP_SHA256)]))
      "PINNED_SOURCE_DUMP_PROVENANCE_REQUIRED";
  epoch_require (negb (at_ "rotate-history")
        || keys_are v (base_keys ++ ["history_password"])
           && py_eq (dget "pg_host" v) (VStr ("kairos-epoch-" +:+ stake 12 owner +:+ "-pg"))
           && negb (py_eq (dget "admin_password" v) (dget "history_password" v)))
      "EXACT_NEW_EPOCH_HISTORY_ROTATION_REQUIRED".

Definition validate_config (config : value) (mode : string) : result unit :=
  if among mode ["r7-state"; "r7-verify-restore"; "r7-drain"; "r6-state"; "r6-verify-restore"; "r6-drain";
                 "r5-state"; "r5-verify-restore"; "r5-drain"]
  then validate_read_profile mode config
  else match config with
  | VDict v =>
      _ ← epoch_require (among mode MODES) "EPOCH_MODE_CONFIG_REQUIRED";
      owner ← common_config mode v;
      mode_config mode owner v
  | _ => raise EpochError "EPOCH_MODE_CONFIG_REQUIRED"
  end.
End Config.

(** ** The queues of a stopped epoch *)
Section Queue.
Context {bar : Type} `{ClosedBar bar} (bar_source bar_message_id : bar → string) (model_validate : value → result bar).
(** [kairos_persistence.runtime.canonical_payload] *)
Context (canonical_payload : value → result (string * string)).

Record boot_row := BootRow {
  bo_message_id : string; bo_topic : string; bo_payload : value; bo_sha256 : string; bo_producer : string;
  bo_published : bool; bo_attempts : Z; bo_last_error : option string; bo_lease_owner : option string;
  bo_lease_until : bool; bo_dead_lettered : bool; bo_reconciliation_state : string;
}.
Record inbox_row := InboxRow {
  in_consumer : string; in_message_id : string; in_topic : string; in_status : string; in_sha256 : option string;
}.

Definition inbox_consumer (owner : string) : string := "kairos-epoch-consumer-" +:+ stake 12 owner +:+ ":bars".

Definition inbox_bad (owner : string) (seen : gmap string inbox_row) (row : inbox_row) : bool :=
  negb (String.eqb (in_consumer row) (inbox_consumer owner))
  || negb (String.eqb (in_status row) "COMPLETED")
  || negb (match in_sha256 row with Some sha => fullmatch (hex 64) sha | None => false end)
  || bool_decide (is_Some (seen !! in_message_id row)).

Definition index_inbox (owner : string) (seen : gmap string inbox_row) (row : inbox_row) : result (gmap string inbox_row) :=
  _ ← raise_if (inbox_bad owner seen row) EpochError "BOOT_QUEUE_INBOX_NOT_EXACTLY_COMPLETED";
  Ok (<[in_message_id row := row]> seen).

Definition outbox_bad (row : boot_row) (digest : string) (event : bar) (inbox : option inbox_row) : bool :=
  negb (String.eqb (bo_topic row) TOPIC) || negb (String.eqb (bo_producer row) SOURCE)
  || negb (bo_published row) || (bo_attempts row <? 1)
  || bool_decide (is_Some (bo_last_error row)) || bool_decide (is_Some (bo_lease_owner row))
  || bo_lease_until row || bo_dead_lettered row
  || negb (String.eqb (bo_reconciliation_state row) "NONE")
  || negb (String.eqb digest (bo_sha256 row))
  || negb (String.eqb (bar_message_id event) (bo_message_id row))
  || negb (String.eqb (bar_source event) SOURCE)
  || negb (bool_decide (bar_symbol event ∈ SYMBOLS))
  || match inbox with
     | None => true
     | Some i => negb (String.eqb (in_topic i) (bo_topic row)) || negb (bool_decide (in_sha256 i = Some digest))
     end.

Definition match_outbox (by_id : gmap string inbox_row) (row : boot_row) : result (gmap string inbox_row) :=
  payload ← row_payload (bo_payload row);
  '(_, digest) ← canonical_payload payload;
  event ← model_validate payload;
  _ ← raise_if (outbox_bad row digest event (by_id !! bo_message_id row)) EpochError "BOOT_QUEUE_IDENTITY_OR_STATE_CONFLICT";
  Ok (delete (bo_message_id row) by_id).

(** [mismatches]: the outbox rows that no row of the audit backs, as the last query counts them *)
Definition boot_queue_state (outbox : list boot_row) (inbox : list inbox_row) (mismatches : Z) (owner : string) : result dict :=
  _ ← raise_if (negb (Nat.eqb (length outbox) (length inbox))) EpochError "BOOT_QUEUE_ORPHAN_OR_UNRESOLVED_ROW";
  by_id ← foldR (index_inbox owner) ∅ inbox;
  rest ← foldR match_outbox by_id outbox;
  _ ← raise_if (negb (bool_decide (rest = ∅))) EpochError "BOOT_QUEUE_ORPHAN_OR_UNRESOLVED_ROW";
  _ ← raise_if (negb (mismatches =? 0)) EpochError "BOOT_QUEUE_AUDIT_IDENTITY_MISMATCH";
  Ok [("outbox_rows", VInt (len outbox)); ("inbox_rows", VInt (len inbox)); ("completed_inbox", VInt (len inbox));
      ("pending_outbox", VInt 0); ("unresolved_inbox", VInt 0); ("trading_rows", VInt 0)].
End Queue.

(** The stream holds every published message, one of them twice: [durable] maps
    a message to its digest and text. *)
Definition validate_boot_stream_rows (stream_rows : list (string * list (string * string)))
    (durable : gmap string (string * string)) (receipt_ids : gset string) : result unit :=
  let allowed_payloads := (λ m, m.2.2) <$> map_to_list durable in
  let stream_ids : gset string := list_to_set stream_rows.*1 in
  raise_if (negb (Nat.eqb (length stream_rows) (size durable + 1)) || negb (Nat.eqb (size stream_ids) (length stream_rows))
            || negb (bool_decide (receipt_ids ⊆ stream_ids))
            || existsb (λ r, match only_data r.2 with Some data => negb (bool_decide (data ∈ allowed_payloads)) | None => true end) stream_rows)
    EpochError "BOOT_REDIS_UNOWNED_STREAM_ENTRY".
