(* ===== verification/EpochBootSpec.v ===== *)
(** * Queues, seeds and configurations that are accepted ([EpochBoot]) *)

From stdpp Require Import gmap strings.
From S2P Require Import Prelude PyStr Regex PyVal Json Effects EpochPublication EpochSource EpochTransport EpochRuntime EpochBoot.

Local Open Scope string_scope.
Local Open Scope list_scope.
Local Open Scope Z_scope.

(** ** The queues *)
Section Queue.
Context {bar : Type} `{ClosedBar bar} (bar_source bar_message_id : bar → string) (model_validate : value → result bar).
Context (canonical_payload : value → result (string * string)) (owner : string).

(** A delivery of this consumer that is done. *)
Definition completed (row : inbox_row) : Prop :=
  in_consumer row = inbox_consumer owner ∧ in_status row = "COMPLETED" ∧
  ∃ sha, in_sha256 row = Some sha ∧ fullmatch (hex 64) sha = true.

(** A published bar whose payload has the digest [digest]. *)
Definition published_bar (row : boot_row) (digest : string) : Prop :=
  ∃ payload encoded b, row_payload (bo_payload row) = Ok payload ∧ canonical_payload payload = Ok (encoded, digest) ∧
    model_validate payload = Ok b ∧ bo_sha256 row = digest ∧ bar_message_id b = bo_message_id row ∧
    bar_source b = SOURCE ∧ bar_symbol b ∈ SYMBOLS ∧ bo_topic row = TOPIC ∧ bo_producer row = SOURCE ∧
    bo_published row = true ∧ 1 <= bo_attempts row ∧ bo_last_error row = None ∧ bo_lease_owner row = None ∧
    bo_lease_until row = false ∧ bo_dead_lettered row = false ∧ bo_reconciliation_state row = "NONE".

(** The delivery [i] is that of the published row [o]. *)
Definition delivers (o : boot_row) (i : inbox_row) : Prop :=
  in_message_id i = bo_message_id o ∧ in_topic i = bo_topic o ∧ ∃ digest, published_bar o digest ∧ in_sha256 i = Some digest.

Lemma inbox_bad_false seen row : inbox_bad owner seen row = false ↔ completed row ∧ seen !! in_message_id row = None.
Proof.
  unfold inbox_bad, completed. rewrite !orb_false_iff, !negb_false_iff, !String.eqb_eq, bool_decide_eq_false, eq_None_not_Some.
  destruct (in_sha256 row) as [sha|]; naive_solver.
Qed.

Lemma index_inbox_Ok seen row seen' :
  index_inbox owner seen row = Ok seen' ↔ completed row ∧ seen !! in_message_id row = None ∧ seen' = <[in_message_id row := row]> seen.
Proof.
  unfold index_inbox. rewrite bind_Ok. setoid_rewrite raise_if_Ok. setoid_rewrite inbox_bad_false.
  split; [by intros ([] & [? ?] & [= <-])|]. intros (? & ? & ->). by exists tt.
Qed.

Lemma outbox_bad_false row digest b inbox :
  outbox_bad bar_source bar_message_id row digest b inbox = false ↔
  (bo_topic row = TOPIC ∧ bo_producer row = SOURCE ∧ bo_published row = true ∧ 1 <= bo_attempts row ∧ bo_last_error row = None ∧
   bo_lease_owner row = None ∧ bo_lease_until row = false ∧ bo_dead_lettered row = false ∧ bo_reconciliation_state row = "NONE" ∧
   digest = bo_sha256 row ∧ bar_message_id b = bo_message_id row ∧ bar_source b = SOURCE ∧ bar_symbol b ∈ SYMBOLS) ∧
  ∃ i, inbox = Some i ∧ in_topic i = bo_topic row ∧ in_sha256 i = Some digest.
Proof.
  unfold outbox_bad. rewrite !orb_false_iff, !negb_false_iff, !String.eqb_eq, Z.ltb_ge, !bool_decide_eq_false, bool_decide_eq_true, <- !eq_None_not_Some.
  destruct inbox as [i|]; [rewrite !orb_false_iff, !negb_false_iff, String.eqb_eq, bool_decide_eq_true|]; naive_solver.
Qed.

Lemma match_outbox_Ok by_id row by_id' :
  match_outbox bar_source bar_message_id model_validate canonical_payload by_id row = Ok by_id' ↔
  ∃ digest i, published_bar row digest ∧ by_id !! bo_message_id row = Some i ∧ in_topic i = bo_topic row ∧ in_sha256 i = Some digest ∧
    by_id' = delete (bo_message_id row) by_id.
Proof.
  unfold match_outbox, published_bar. rewrite bind_Ok. split.
  - intros (payload & Hp & ([encoded digest] & Hc & (b & Hb & ([] & Hbad%raise_if_Ok & [= <-])%bind_Ok)%bind_Ok)%bind_Ok).
    apply outbox_bad_false in Hbad as [(? & ? & ? & ? & ? & ? & ? & ? & ? & ? & ? & ? & ?) (i & ? & ? & ?)].
    exists digest, i. split; [exists payload, encoded, b; naive_solver|done].
  - intros (digest & i & (payload & encoded & b & ? & Hc & Hb & ? & ? & ? & ? & ? & ? & ? & ? & ? & ? & ? & ? & ?) & Hi & ? & ? & ->).
    exists payload. split; [done|]. rewrite Hc. cbn. rewrite Hb. cbn.
    rewrite (proj2 (outbox_bad_false _ _ _ _)); [done|]. split; [split_and!; try done; congruence|]. exists i. done.
Qed.

(** The index of the inbox holds exactly its rows. *)
Definition indexes (m : gmap string inbox_row) (inbox : list inbox_row) : Prop :=
  ∀ id i, m !! id = Some i ↔ i ∈ inbox ∧ in_message_id i = id.

Lemma indexes_snoc m inbox i :
  indexes m inbox → m !! in_message_id i = None → indexes (<[in_message_id i := i]> m) (inbox ++ [i]).
Proof.
  intros Hm Hn id x. rewrite lookup_insert_Some, elem_of_app, list_elem_of_singleton, (Hm id x). split; [naive_solver|].
  intros [[Hx| ->] <-]; [|by left]. right. split; [|done]. intros Heq. specialize (Hm (in_message_id i) x).
  rewrite Hn in Hm. discriminate (proj2 Hm (conj Hx (eq_sym Heq))).
Qed.

Lemma indexes_fresh m inbox id : indexes m inbox → m !! id = None ↔ id ∉ in_message_id <$> inbox.
Proof.
  intros Hm. rewrite list_elem_of_fmap. split.
  - intros Hn (x & -> & Hx). specialize (Hm (in_message_id x) x). rewrite Hn in Hm. discriminate (proj2 Hm (conj Hx eq_refl)).
  - intros Hn. destruct (m !! id) as [x|] eqn:E; [|done]. apply Hm in E as [Hx <-]. by destruct Hn; exists x.
Qed.

Lemma index_inbox_sound inbox m :
  foldR (index_inbox owner) ∅ inbox = Ok m → Forall completed inbox ∧ NoDup (in_message_id <$> inbox) ∧ indexes m inbox.
Proof.
  apply (foldR_hist (index_inbox owner) (λ inbox m, Forall completed inbox ∧ NoDup (in_message_id <$> inbox) ∧ indexes m inbox)).
  - split_and!; [constructor|constructor|]. intros id i. rewrite lookup_empty. set_solver.
  - intros l m1 i m2 _ (Hc & Hn & Hm) (Hci & Hni & ->)%index_inbox_Ok. split_and!; [|rewrite fmap_app|by apply indexes_snoc].
    + apply Forall_app. by split; [|constructor].
    + apply NoDup_app. split_and!; [done| |apply NoDup_singleton]. intros id Hid ->%list_elem_of_singleton.
      by apply (indexes_fresh _ _ _ Hm) in Hni.
Qed.

Lemma index_inbox_complete inbox :
  Forall completed inbox → NoDup (in_message_id <$> inbox) → ∃ m, foldR (index_inbox owner) ∅ inbox = Ok m.
Proof.
  induction inbox as [|i inbox IH] using rev_ind; [by eexists|]. rewrite fmap_app. intros [Hc Hci]%Forall_app (Hn & Hd & _)%NoDup_app.
  destruct (IH Hc Hn) as [m Hm]. destruct (index_inbox_sound _ _ Hm) as (_ & _ & Hix).
  exists (<[in_message_id i := i]> m). rewrite foldR_app, Hm. cbn [mbind result_bind foldR].
  assert (index_inbox owner m i = Ok (<[in_message_id i := i]> m)) as ->; [|done].
  apply index_inbox_Ok. split; [by inversion Hci|]. split; [|done].
  apply (indexes_fresh _ _ _ Hix). intros Hin. apply (Hd _ Hin). by left.
Qed.

Abbreviation matching_outbox := (match_outbox bar_source bar_message_id model_validate canonical_payload).

(** After the rows [l]: each has its delivery, and those deliveries are gone from the index. *)
Definition matched (m0 : gmap string inbox_row) (l : list boot_row) (m : gmap string inbox_row) : Prop :=
  NoDup (bo_message_id <$> l) ∧ (∀ o, o ∈ l → ∃ i, m0 !! bo_message_id o = Some i ∧
    ∃ digest, published_bar o digest ∧ in_topic i = bo_topic o ∧ in_sha256 i = Some digest) ∧
  ∀ id, m !! id = if bool_decide (id ∈ bo_message_id <$> l) then None else m0 !! id.

Lemma match_outbox_sound m0 l m : foldR matching_outbox m0 l = Ok m → matched m0 l m.
Proof.
  apply (foldR_hist matching_outbox (matched m0)).
  - split_and!; [constructor|set_solver|]. intros id. by rewrite bool_decide_false by set_solver.
  - intros l1 m1 o m2 _ (Hn & Ho & Hm) (digest & i & Hp & Hi & Ht & Hs & ->)%match_outbox_Ok.
    rewrite Hm in Hi. destruct (bool_decide_reflect (bo_message_id o ∈ bo_message_id <$> l1)) as [|Hfresh]; [done|].
    unfold matched. rewrite !fmap_app. split_and!.
    + apply NoDup_app. split_and!; [done| |apply NoDup_singleton]. intros id Hid ->%list_elem_of_singleton. done.
    + intros x [Hx|Hx%list_elem_of_singleton]%elem_of_app; [by apply Ho|]. subst x. exists i. split; [done|]. by exists digest.
    + intros id. destruct (decide (id = bo_message_id o)) as [->|Hne].
      * rewrite lookup_delete_eq, bool_decide_true; [done|]. apply elem_of_app. right. by left.
      * rewrite lookup_delete_ne, Hm by done.
        assert (id ∈ (bo_message_id <$> l1) ++ (bo_message_id <$> [o]) ↔ id ∈ bo_message_id <$> l1) as Hiff by (cbn; set_solver).
        by rewrite (bool_decide_ext _ _ Hiff).
Qed.

Lemma match_outbox_complete m0 l :
  NoDup (bo_message_id <$> l) →
  (∀ o, o ∈ l → ∃ i, m0 !! bo_message_id o = Some i ∧ ∃ digest, published_bar o digest ∧ in_topic i = bo_topic o ∧ in_sha256 i = Some digest) →
  ∃ m, foldR matching_outbox m0 l = Ok m.
Proof.
  induction l as [|o l IH] using rev_ind; [by eexists|]. rewrite fmap_app. intros (Hn & Hd & _)%NoDup_app Ho.
  destruct IH as [m Hm]; [done|by intros x Hx; apply Ho, elem_of_app; left|].
  destruct (match_outbox_sound _ _ _ Hm) as (_ & _ & Hlook). destruct (Ho o) as (i & Hi & digest & Hp & Ht & Hs).
  { apply elem_of_app. right. by left. }
  exists (delete (bo_message_id o) m). rewrite foldR_app, Hm. cbn [mbind result_bind foldR].
  assert (matching_outbox m o = Ok (delete (bo_message_id o) m)) as ->; [|done].
  apply match_outbox_Ok. exists digest, i. split_and!; try done.
  rewrite Hlook, bool_decide_false; [done|]. intros Hin. apply (Hd _ Hin). by left.
Qed.

Lemma Forall2_choose {A B} (P : A → B → Prop) (l : list A) : (∀ x, x ∈ l → ∃ y, P x y) → ∃ k, Forall2 P l k.
Proof.
  induction l as [|x l IH]; [by exists []|]. intros Hl. destruct (Hl x) as [y Hy]; [by left|].
  destruct IH as [k Hk]; [by intros z Hz; apply Hl; right|]. exists (y :: k). by constructor.
Qed.

Lemma delivers_ids outbox inbox : Forall2 delivers outbox inbox → in_message_id <$> inbox = bo_message_id <$> outbox.
Proof. induction 1 as [|o i outbox inbox (Hid & _) _ IH]; [done|]. rewrite !fmap_cons. by rewrite Hid, IH. Qed.
End Queue.

(** C28. The queues of a stopped epoch.  [boot_queue_state] accepts an outbox
    and an inbox exactly if no outbox row lacks its audit row, every inbox row
    is a completed delivery of this consumer, no two are of the same message,
    and some order of the inbox pairs each outbox row, a published bar of the
    five symbols whose content has its digest, with its own delivery; and it
    then reports their number. *)
Theorem boot_queue_exact {bar} `{ClosedBar bar} (bar_source bar_message_id : bar → string) (model_validate : value → result bar)
    canonical_payload outbox inbox mismatches owner v :
  boot_queue_state bar_source bar_message_id model_validate canonical_payload outbox inbox mismatches owner = Ok v ↔
  mismatches = 0 ∧ Forall (completed owner) inbox ∧ NoDup (in_message_id <$> inbox) ∧
  (∃ paired, paired ≡ₚ inbox ∧ Forall2 (delivers bar_source bar_message_id model_validate canonical_payload) outbox paired) ∧
  v = [("outbox_rows", VInt (len outbox)); ("inbox_rows", VInt (len inbox)); ("completed_inbox", VInt (len inbox));
       ("pending_outbox", VInt 0); ("unresolved_inbox", VInt 0); ("trading_rows", VInt 0)].
Proof.
  unfold boot_queue_state. split.
  - intros ([] & Hl%raise_if_Ok & (m0 & Hm0 & (rest & Hrest & ([] & He%raise_if_Ok & ([] & Hz%raise_if_Ok & [= <-])%bind_Ok)%bind_Ok)%bind_Ok)%bind_Ok)%bind_Ok.
    apply negb_false_iff in Hl, He, Hz. apply Nat.eqb_eq in Hl. apply Z.eqb_eq in Hz.
    destruct (index_inbox_sound _ _ _ Hm0) as (Hc & Hn & Hix). destruct (match_outbox_sound _ _ _ _ _ _ _ Hrest) as (Hno & Ho & _).
    split_and!; try done.
    destruct (Forall2_choose (λ o i, i ∈ inbox ∧ delivers bar_source bar_message_id model_validate canonical_payload o i) outbox) as [paired Hp].
    { intros o Hin. destruct (Ho o Hin) as (i & Hi & digest & Hpub & Ht & Hs). apply Hix in Hi as [Hi Hid]. exists i.
      split; [done|]. split; [done|]. split; [done|]. by exists digest. }
    assert (Forall2 (delivers bar_source bar_message_id model_validate canonical_payload) outbox paired) as Hd
      by (eapply Forall2_impl; [exact Hp|]; by intros ?? [_ ?]).
    exists paired. split; [|done]. symmetry. apply perm_of_sub.
    + apply (NoDup_fmap_1 in_message_id). by rewrite (delivers_ids _ _ _ _ _ _ Hd).
    + intros i Hi. apply list_elem_of_lookup in Hi as [k Hk]. destruct (Forall2_lookup_r _ _ _ _ _ Hp Hk) as (o & _ & Hin & _). done.
    + rewrite <- (Forall2_length _ _ _ Hp). lia.
  - intros (-> & Hc & Hn & (paired & Hperm & Hd) & ->).
    assert (length outbox = length inbox) as Hl by (rewrite <- Hperm; by eapply Forall2_length).
    destruct (index_inbox_complete _ _ Hc Hn) as [m0 Hm0]. destruct (index_inbox_sound _ _ _ Hm0) as (_ & _ & Hix).
    pose proof (delivers_ids _ _ _ _ _ _ Hd) as Hids.
    destruct (match_outbox_complete bar_source bar_message_id model_validate canonical_payload m0 outbox) as [rest Hrest].
    { rewrite <- Hids, Hperm. done. }
    { intros o Hin. apply list_elem_of_lookup in Hin as [k Hk]. destruct (Forall2_lookup_l _ _ _ _ _ Hd Hk) as (i & Hi & Hid & Ht & digest & Hpub & Hs).
      exists i. split; [|by exists digest]. apply Hix. split; [|done]. rewrite <- Hperm. by eapply list_elem_of_lookup_2. }
    destruct (match_outbox_sound _ _ _ _ _ _ _ Hrest) as (_ & _ & Hlook).
    assert (rest = ∅) as He.
    { apply map_eq. intros id. rewrite Hlook, lookup_empty. destruct (bool_decide_reflect (id ∈ bo_message_id <$> outbox)) as [|Hnin]; [done|].
      destruct (m0 !! id) as [i|] eqn:Ei; [|done]. destruct Hnin. apply Hix in Ei as [Hi <-]. rewrite <- Hids.
      apply list_elem_of_fmap. exists i. by rewrite Hperm. }
    rewrite Hl, Nat.eqb_refl. cbn [negb raise_if]. rewrite bind_ret, Hm0, bind_ret, Hrest, bind_ret, He, bool_decide_true by done. done.
Qed.

(** ** The boot-state seed *)
(** A chain of [count] minutes, as the four integers describe it. *)
Definition chain_of_minutes (v : value) (count : Z) : Prop :=
  ∃ d first last_open, v = VDict d ∧ dget "count" d = VInt count ∧ dget "first_open_time_ms" d = VInt first ∧
    dget "last_open_time_ms" d = VInt last_open ∧ dget "last_close_time_ms" d = VInt (last_open + MINUTE - 1) ∧
    0 < count ∧ 0 <= first ∧ first mod MINUTE = 0 ∧ last_open = first + (count - 1) * MINUTE.

Lemma exact_ints_Some keys d l : exact_ints keys d = Some l ↔ Forall2 (λ k z, dlookup k d = Some (VInt z)) keys l.
Proof.
  revert l. induction keys as [|k keys IH]; intros l.
  - cbn. split; [intros [= <-]; constructor|inversion 1; done].
  - change (exact_ints (k :: keys) d) with (match dlookup k d with Some (VInt z) => cons z <$> exact_ints keys d | _ => None end). split.
    + destruct (dlookup k d) as [[| |z| | | | | |]|] eqn:Ek; try done. intros (l' & Hl & ->)%fmap_Some. constructor; [done|]. by apply IH.
    + inversion 1 as [|? z ? l' Hk Hl]; subst. rewrite Hk. apply IH in Hl. by rewrite Hl.
Qed.

Lemma snapshot_anchor_chain expected actual count :
  snapshot_anchor expected actual = Some count → ∃ v, expected = Some v ∧ chain_of_minutes v count.
Proof.
  unfold snapshot_anchor. destruct expected as [[| | | | | | | |anchor]|]; try done. destruct (keys_are anchor anchor_keys); [|done].
  destruct (exact_ints anchor_keys anchor) as [l|] eqn:El; [|done]. apply exact_ints_Some in El.
  unfold anchor_keys in El. inversion El as [|? c ? l1 Hc El1]; subst. inversion El1 as [|? f ? l2 Hf El2]; subst.
  inversion El2 as [|? lo ? l3 Hlo El3]; subst. inversion El3 as [|? lc ? l4 Hlc El4]; subst. inversion El4; subst.
  destruct (_ || _) eqn:E; [done|]. intros [= <-]. bool_inv. exists (VDict anchor). split; [done|]. exists anchor, f, lo.
  unfold dget. rewrite Hc, Hf, Hlo, Hlc. cbn [default]. change MINUTE with 60000 in *. split_and!; try done; try lia. unfold id. f_equal. lia.
Qed.

Lemma history_snapshot_sound audit_count actual expected :
  validate_history_snapshot audit_count actual (VDict [("anchors", VDict expected)]) = Ok tt →
  ∃ counts, Forall2 (λ s count, ∃ v, dlookup s expected = Some v ∧ chain_of_minutes v count) SYMBOLS counts ∧
    audit_count = VInt (zsum counts).
Proof.
  unfold validate_history_snapshot. change (dget "anchors" [("anchors", VDict expected)]) with (VDict expected). cbn beta iota.
  intros ([] & _ & ([] & Hi%raise_if_Ok & (total & Ht & Ha%raise_if_Ok)%bind_Ok)%bind_Ok)%bind_Ok.
  apply orb_false_iff in Hi as [_ Hi%negb_false_iff]. apply negb_false_iff in Ha.
  assert (∀ l t0 t, foldR (λ total symbol, match snapshot_anchor (dlookup symbol expected) (dlookup symbol actual) with
      | Some count => Ok (total + count) | None => raise EpochError "EXACT_EXPECTED_HISTORY_SNAPSHOT_REQUIRED" end) t0 l = Ok t →
    ∃ counts, Forall2 (λ s count, ∃ v, dlookup s expected = Some v ∧ chain_of_minutes v count) l counts ∧ t = t0 + zsum counts) as Hfold.
  { induction l as [|s l IH]; intros t0 t; cbn [foldR]; [intros [= <-]; exists []; split; [constructor|cbn; lia]|].
    intros (t1 & Hs & Hl)%bind_Ok. destruct (snapshot_anchor _ _) as [count|] eqn:Es; [|done]. injection Hs as <-.
    apply snapshot_anchor_chain in Es as (v & Hv & Hc). destruct (IH _ _ Hl) as (counts & Hf & ->).
    exists (count :: counts). split; [by constructor; eauto|]. unfold zsum. cbn. lia. }
  destruct (Hfold _ _ _ Ht) as (counts & Hf & ->). exists counts. split; [done|].
  unfold is_exact_int in Hi. apply bool_decide_eq_true in Hi. destruct audit_count as [| |z| | | | | |]; try done.
  cbn in Ha. unfold num_eqb in Ha. cbn in Ha. destruct (z ?= 0 + zsum counts) eqn:Ec; try done. apply Z.compare_eq in Ec. f_equal. lia.
Qed.

(** In a table of digests every count that equals an integer is that integer. *)
Lemma count_of_int tables t n :
  Forall (λ row : string * value, digest_ok row.2 = true) tables → py_eq (count_of t tables) (VInt n) = true → count_of t tables = VInt n.
Proof.
  intros Hd. unfold count_of. destruct (dget t tables) as [| | | | | | | |row] eqn:Er; try done.
  assert (digest_ok (VDict row) = true) as Hok.
  { unfold dget in Er. destruct (dlookup t tables) as [row'|] eqn:El; [|done]. cbn in Er. subst row'.
    apply dlookup_elem in El. rewrite Forall_forall in Hd. exact (Hd _ El). }
  unfold digest_ok in Hok. destruct (dget "count" row); try done. by intros ->%py_eq_ints.
Qed.

(** An accepted boot-state seed is quiescent.  If [validate_boot_seed]
    accepts, every public table outside of the five admitted ones is empty; the
    outbox and the inbox hold the same number of rows as the two tables, all of
    them completed, and nothing is pending, unresolved or traded; each of the
    five symbols has a chain of whole minutes without gaps; and the audit holds
    exactly these bars. *)
Theorem accepted_seed_is_quiescent p v (Hseed : validate_boot_seed p v = Ok tt) :
  ∃ d tables queue anchors counts n, v = VDict d ∧ dget "tables" d = VDict tables ∧ dget "queue" d = VDict queue ∧
    dget "anchors" d = VDict anchors ∧
    (∀ t, t ∈ public_tables p → t ∉ BOOT_ALLOWED_NONEMPTY_TABLES → count_of t tables = VInt 0) ∧
    Forall (λ k, dget k queue = VInt n) ["outbox_rows"; "inbox_rows"; "completed_inbox"] ∧
    Forall (λ k, dget k queue = VInt 0) ["pending_outbox"; "unresolved_inbox"; "trading_rows"] ∧
    Forall2 (λ s count, ∃ a, dlookup s anchors = Some a ∧ chain_of_minutes a count) SYMBOLS counts ∧
    count_of "event_audit" tables = VInt (zsum counts).
Proof.
  destruct v as [| | | | | | | |d]; try discriminate Hseed. unfold validate_boot_seed in Hseed.
  apply bind_Ok in Hseed as ([] & _ & Hseed). apply bind_Ok in Hseed as ([] & _ & Hseed).
  destruct (dget "tables" d) as [| | | | | | | |tables] eqn:Et; try discriminate Hseed.
  destruct (dget "queue" d) as [| | | | | | | |queue] eqn:Eq; try discriminate Hseed.
  destruct (dget "anchors" d) as [| | | | | | | |anchors] eqn:Ea; try discriminate Hseed.
  apply bind_Ok in Hseed as ([] & _ & Hseed). apply bind_Ok in Hseed as ([] & Hd%raise_if_Ok & Hseed).
  apply bind_Ok in Hseed as ([] & He%raise_if_Ok & Hseed). apply bind_Ok in Hseed as ([] & _ & Hseed).
  apply bind_Ok in Hseed as ([] & Hq%raise_if_Ok & Hseed). apply orb_false_iff in Hq as [_ Hq%negb_false_iff].
  apply history_snapshot_sound in Hseed as (counts & Hf & Hsum).
  assert (∀ k, k ∈ queue_keys → ∃ n, dget k queue = VInt n ∧ 0 <= n) as Hint.
  { unfold queue_ok in Hq. apply andb_true_iff in Hq as [_ Hq]. rewrite forallb_forall in Hq. intros k Hk%list_elem_of_In.
    specialize (Hq k Hk). destruct (dget k queue); try done. eexists. split; [done|]. by apply Z.leb_le. }
  destruct (Hint "outbox_rows") as (n & Hn & _); [by_decide|]. destruct (Hint "inbox_rows") as (n2 & Hn2 & _); [by_decide|].
  destruct (Hint "completed_inbox") as (n3 & Hn3 & _); [by_decide|]. destruct (Hint "pending_outbox") as (z1 & Hz1 & _); [by_decide|].
  destruct (Hint "unresolved_inbox") as (z2 & Hz2 & _); [by_decide|]. destruct (Hint "trading_rows") as (z3 & Hz3 & _); [by_decide|].
  unfold queue_ok in Hq. rewrite Hn, Hn2, Hn3, Hz1, Hz2, Hz3 in Hq. rewrite !andb_true_iff in Hq.
  destruct Hq as [[[[[[[->%py_eq_ints ->%py_eq_ints] ->%py_eq_ints] ->%py_eq_ints] ->%py_eq_ints] _] _] _].
  exists d, tables, queue, anchors, counts, n2. split_and!; try done; [|by repeat constructor..].
  intros t Ht Hna. apply count_of_int.
  - apply Forall_forall. intros row Hrow. destruct (digest_ok row.2) eqn:Er; [done|]. exfalso.
    rewrite <- not_true_iff_false in Hd. apply Hd, existsb_exists. exists row. by rewrite <- list_elem_of_In, Er.
  - destruct (py_eq (count_of t tables) (VInt 0)) eqn:Ez; [done|]. exfalso. rewrite <- not_true_iff_false in He. apply He, existsb_exists.
    exists t. rewrite <- list_elem_of_In, Ez. by rewrite bool_decide_false.
Qed.

(** ** Configurations *)
Lemma mapR_forall {A B} (f : A → result B) l ys x : mapR f l = Ok ys → x ∈ l → ∃ y, f x = Ok y.
Proof. intros Hl%mapR_Ok Hx. apply list_elem_of_lookup in Hx as [i Hi]. destruct (Forall2_lookup_l _ _ _ _ _ Hl Hi) as (y & _ & Hy). eauto. Qed.

Lemma match_value_true r v b : match_value r v = Ok b → b = true → ∃ s, v = VStr s ∧ fullmatch r s = true.
Proof. destruct v; try done. intros [= <-] ?. eauto. Qed.

Lemma epoch_require_Ok b reason u : epoch_require b reason = Ok u ↔ b = true.
Proof. unfold epoch_require. rewrite raise_if_Ok. apply negb_false_iff. Qed.

(** What the checks that every mode shares establish. *)
Definition owned_config (owner : string) (v : dict) : Prop :=
  dget "owner" v = VStr owner ∧ fullmatch (hex 32) owner = true ∧
  dget "database" v = VStr ("kairos_epoch_" +:+ stake 12 owner) ∧
  (∀ k, k ∈ ["pg_host"; "redis_host"] → ∃ host, dgetd k (VStr "") v = VStr host ∧
     fullmatch (RLit ("kairos-epoch-" +:+ stake 12 owner +:+ "-") ⋅ RPlus (RChar is_lower))%re host = true) ∧
  ∀ k x, (k, x) ∈ v → endswith "password" k = true → ∃ s, x = VStr s ∧ fullmatch (hex 64) s = true.

Lemma common_config_Ok p mode v owner : common_config p mode v = Ok owner → owned_config owner v.
Proof.
  unfold common_config. intros (ok & Ho & Hr)%bind_Ok. apply bind_Ok in Hr as ([] & ->%epoch_require_Ok & Hr).
  apply match_value_true in Ho as (o & Hd & Hm); [|done].
  assert (dget "owner" v = VStr o) as Hdo.
  { unfold dgetd, dget in *. destruct (dlookup "owner" v); [exact Hd|]. cbn in Hd. injection Hd as <-. discriminate Hm. }
  rewrite Hdo in Hr. cbn beta iota zeta in Hr. apply bind_Ok in Hr as ([] & Hdb%epoch_require_Ok & Hr).
  apply bind_Ok in Hr as ([] & _ & Hr). apply bind_Ok in Hr as (us & Hh & Hr). apply bind_Ok in Hr as (us' & Hp & Hr).
  apply bind_Ok in Hr as ([] & _ & [= <-]). split_and!; try done.
  - by apply py_eq_str.
  - intros k Hk. destruct (mapR_forall _ _ _ _ Hh Hk) as (u & (b & Hb & ->%epoch_require_Ok)%bind_Ok).
    rewrite <- app_assoc_str in Hb. apply match_value_true in Hb as (s & Hs & Hf); [|done]. eauto.
  - intros k x Hk Hend. destruct (mapR_forall _ _ _ _ Hp Hk) as (u & Hu). cbn [fst snd] in Hu. rewrite Hend in Hu.
    apply bind_Ok in Hu as (b & Hb & ->%epoch_require_Ok). by apply match_value_true in Hb.
Qed.

Definition admin_credentials : list string := ["admin_password"; "history_password"; "source_password"; "source_admin_password"].
Definition runtime_credentials : list string :=
  ["producer_password"; "consumer_password"; "redis_producer_password"; "redis_consumer_password"].

(** A serving configuration is confined.  If [validate_config] accepts a
    configuration for qualifying or serving, its owner is 32 hex digits, the
    database and both hosts are named after that owner, no administrative,
    history or source credential is present, the four credentials of the
    producer and the consumer are 64 hex digits, and so is the value of every
    other key that ends in "password". *)
Theorem serving_config_confined p validate_read_profile time_now v mode
  (Hok : validate_config p validate_read_profile time_now (VDict v) mode = Ok tt) (Hmode : mode ∈ ["qualify"; "serve"]) :
  ∃ owner, owned_config owner v ∧ (∀ k, k ∈ admin_credentials → dlookup k v = None) ∧
    ∀ k, k ∈ runtime_credentials → ∃ s, dlookup k v = Some (VStr s) ∧ fullmatch (hex 64) s = true.
Proof.
  unfold validate_config in Hok.
  assert (among mode ["r7-state"; "r7-verify-restore"; "r7-drain"; "r6-state"; "r6-verify-restore"; "r6-drain";
    "r5-state"; "r5-verify-restore"; "r5-drain"] = false) as Hread.
  { apply elem_of_cons in Hmode as [->| ->%list_elem_of_singleton]; by vm_compute. }
  rewrite Hread in Hok. apply bind_Ok in Hok as ([] & _ & (owner & Hc & Hm)%bind_Ok). apply common_config_Ok in Hc.
  exists owner. split; [done|]. unfold mode_config in Hm. apply bind_Ok in Hm as ([] & _ & Hm).
  assert (among mode ["qualify"; "serve"] = true) as Hs by (by apply bool_decide_eq_true).
  rewrite Hs in Hm. apply bind_Ok in Hm as ([] & Hcred & _). apply bind_Ok in Hcred as ([] & Ha%epoch_require_Ok & Hr%epoch_require_Ok).
  apply negb_true_iff in Ha. rewrite <- not_true_iff_false, existsb_exists in Ha. rewrite forallb_forall in Hr. split.
  - intros k Hk. destruct (dlookup k v) eqn:Ek; [|done]. destruct Ha. exists k. rewrite <- list_elem_of_In. split; [done|].
    unfold dmem. apply bool_decide_eq_true. by rewrite Ek.
  - intros k Hk. specialize (Hr k (proj1 (list_elem_of_In _ _) Hk)). unfold dget in Hr.
    destruct (dlookup k v) as [x|] eqn:Ek; [|discriminate Hr]. destruct Hc as (_ & _ & _ & _ & Hpw).
    destruct (Hpw k x) as (s & -> & Hf); [by apply dlookup_elem| |by exists s].
    clear -Hk. repeat (apply elem_of_cons in Hk as [->|Hk]; [by vm_compute|]). by apply elem_of_nil in Hk.
Qed.

(** The four credentials may be one and the same, whatever the name of the error says. *)
Definition digits64 : string := sconcat (replicate 64 "0").
Definition shared_config : dict :=
  [("owner", VStr (sconcat (replicate 32 "0"))); ("database", VStr "kairos_epoch_000000000000");
   ("pg_host", VStr "kairos-epoch-000000000000-pg"); ("redis_host", VStr "kairos-epoch-000000000000-redis");
   ("producer_password", VStr digits64); ("consumer_password", VStr digits64);
   ("redis_producer_password", VStr digits64); ("redis_consumer_password", VStr digits64)].
Definition historical : profile :=
  Profile "historical-default" HISTORICAL_CONTROLLED_RUNTIME_MIGRATIONS CONTROLLED_RUNTIME_PUBLIC_TABLES.

Lemma shared_credential_accepted : validate_config historical (λ _ _, Ok tt) (fz 0) (VDict shared_config) "serve" = Ok tt.
Proof. vm_compute. reflexivity. Qed.

(** ** Witnesses *)
Lemma serving_config_confined_witness :
  validate_config historical (λ _ _, Ok tt) (fz 0) (VDict shared_config) "serve" = Ok tt ∧
  ∃ owner, owned_config owner shared_config ∧ (∀ k, k ∈ admin_credentials → dlookup k shared_config = None) ∧
    ∀ k, k ∈ runtime_credentials → ∃ s, dlookup k shared_config = Some (VStr s) ∧ fullmatch (hex 64) s = true.
Proof.
  split; [exact shared_credential_accepted|].
  apply (serving_config_confined historical (λ _ _, Ok tt) (fz 0) shared_config "serve"); [exact shared_credential_accepted|].
  right. left.
Defined.

(** A seed with one bar in every chain and empty queues. *)
Definition table_digest (n : Z) : value := VDict [("count", VInt n); ("sha256", VStr digits64)].
Definition one_bar : value :=
  VDict [("count", VInt 1); ("first_open_time_ms", VInt 0); ("last_open_time_ms", VInt 0); ("last_close_time_ms", VInt 59999)].
Definition quiet_seed : value := VDict [
  ("state", VStr "PASS_BOOT_STATE"); ("matched_public_tables", VInt 32);
  ("tables", VDict ((λ t, (t, if String.eqb t "event_audit" then table_digest 5
                              else if String.eqb t "paper_canary_database_identity" then VDict BOOT_DATABASE_IDENTITY
                              else table_digest 0)) <$> CONTROLLED_RUNTIME_PUBLIC_TABLES));
  ("sequences", VDict []); ("anchors", VDict ((λ s, (s, one_bar)) <$> SYMBOLS));
  ("original_prefix", VDict (expected_original_prefix historical));
  ("queue", VDict ((λ k, (k, VInt 0)) <$> queue_keys)); ("trading_started", VBool false)].

Lemma quiet_seed_accepted : validate_boot_seed historical quiet_seed = Ok tt.
Proof. vm_compute. reflexivity. Qed.

Lemma accepted_seed_is_quiescent_witness :
  ∃ d tables queue anchors counts n, quiet_seed = VDict d ∧ dget "tables" d = VDict tables ∧ dget "queue" d = VDict queue ∧
    dget "anchors" d = VDict anchors ∧
    (∀ t, t ∈ public_tables historical → t ∉ BOOT_ALLOWED_NONEMPTY_TABLES → count_of t tables = VInt 0) ∧
    Forall (λ k, dget k queue = VInt n) ["outbox_rows"; "inbox_rows"; "completed_inbox"] ∧
    Forall (λ k, dget k queue = VInt 0) ["pending_outbox"; "unresolved_inbox"; "trading_rows"] ∧
    Forall2 (λ s count, ∃ a, dlookup s anchors = Some a ∧ chain_of_minutes a count) SYMBOLS counts ∧
    count_of "event_audit" tables = VInt (zsum counts).
Proof. exact (accepted_seed_is_quiescent historical quiet_seed quiet_seed_accepted). Defined.
