(* ===== verification/HistoryStream.v ===== *)
(** * Ordered history over binary COPY ([scripts/paper_runtime_history_stream.py])

    The decoder [OrderedTextDigest] of one ordered TEXT column in PostgreSQL's
    binary COPY format, with the [Budget] and the cursor digest [_table_digest]
    of [scripts/paper_runtime_snapshot_worker.py] that it replaces, and
    [_digest_query] of [scripts/paper_runtime_atomic_worker.py], which runs it.
    Text is its UTF-8 bytes; a digest under construction is the string of the
    bytes fed to it.  The monotonic clock is any sequence of readings. *)

From stdpp Require Import strings.
From S2P Require Import Prelude PyStr PyVal Sha256 Effects.

Local Open Scope string_scope.
Local Open Scope list_scope.
Local Open Scope Z_scope.

Definition MAX_ROW_BYTES : Z := 4 * 1024 * 1024.
Definition MAX_TOTAL_BYTES : Z := 1024 * 1024 * 1024.
Definition MAX_TOTAL_ROWS : Z := 2000000.
Definition MAX_SECONDS : Z := 300.
Definition MAX_CHUNK_BYTES : Z := 8 * 1024 * 1024.

(** ** Bytes of integers *)
(** [n.to_bytes(k, "big")] of an [n] in range *)
Fixpoint to_bytes (k : nat) (n : Z) : string :=
  match k with
  | O => EmptyString
  | S k => to_bytes k (n / 256) +:+ String (chr (n mod 256)) EmptyString
  end.
(** [int.from_bytes(s, "big")] and the same with [signed=True] *)
Definition from_bytes (s : string) : Z := foldl (λ acc c, acc * 256 + ord c) 0 (String.list_ascii_of_string s).
Definition from_bytes_signed (s : string) : Z :=
  let n := from_bytes s in
  let w := 8 * slen s in
  if (0 <? w) && (2 ^ (w - 1) <=? n) then n - 2 ^ w else n.

(** [b"PGCOPY\n\xff\r\n\x00" + b"\x00" * 8] *)
Definition HEADER : string :=
  "PGCOPY" +:+ String.string_of_list_ascii (chr <$> [10; 255; 13; 10; 0]) +:+ String.string_of_list_ascii (replicate 8 (chr 0)).

(** ** The budget shared by the tables of a snapshot *)
Record budget := MkBudget { bg_started : flt; bg_bytes : Z; bg_rows : Z }.
(** The budget and the number of clock readings made *)
Record world := World { w_budget : budget; w_ticks : nat }.

Section Clock.
Context (clock : nat → flt).

Definition monotonic : M world flt := λ w, (Ret (clock (w_ticks w)), World (w_budget w) (S (w_ticks w))).

Definition new_budget : M world budget :=
  now ← monotonic; mret (MkBudget now 0 0).

(** [time.monotonic() - self.started > MAX_SECONDS] *)
Definition past_deadline : M world bool :=
  now ← monotonic;
  started ← gets (λ w, bg_started (w_budget w));
  mret (fltb (fz MAX_SECONDS) (fsub now started)).

Definition charge (data : string) (w : world) : world :=
  let b := w_budget w in World (MkBudget (bg_started b) (bg_bytes b + slen data) (bg_rows b + 1)) (w_ticks w).

Definition over_bound (data : string) (b : budget) : bool :=
  (MAX_ROW_BYTES <? slen data) || (MAX_TOTAL_BYTES <? bg_bytes b) || (MAX_TOTAL_ROWS <? bg_rows b).

(** [Budget.add] *)
Definition budget_add (data : string) : M world string :=
  modify (charge data);;
  b ← gets w_budget;
  late ← (if over_bound data b then mret true else past_deadline);
  throw_if late SnapshotError "full-history snapshot exceeded its fixed bound";;
  mret data.

(** What one row adds to a digest: its length in eight bytes, then its bytes. *)
Definition framed (data : string) : string := to_bytes 8 (slen data) +:+ data.
Definition digest_report (count : Z) (fed : string) : dict :=
  [("count", VInt count); ("row_digest_sha256", VStr (sha256_hex fed))].

(** [_table_digest] over the rows its cursor yields, in their order *)
Fixpoint digest_rows (fed : string) (count : Z) (rows : list string) : M world dict :=
  match rows with
  | [] => mret (digest_report count fed)
  | row :: rows =>
      data ← budget_add row;
      digest_rows (fed +:+ framed data) (count + 1) rows
  end.
Definition table_digest (rows : list string) : M world dict := digest_rows EmptyString 0 rows.

(** ** The decoder *)
Inductive phase := PHeader | PFields | PLength | PBody | PTrailer.
#[global] Instance phase_eq_dec : EqDecision phase.
Proof. solve_decision. Defined.

Record stream := Stream {
  os_hash : string; os_count : Z; os_previous : option string; os_pending : string;
  os_state : phase; os_needed : Z; os_failed : bool; os_sealed : bool;
}.
Definition new_stream : stream := Stream EmptyString 0 None EmptyString PHeader (slen HEADER) false false.

Record reader := Reader { rd_stream : stream; rd_world : world }.

Definition set_pending (p : string) (s : stream) : stream :=
  Stream (os_hash s) (os_count s) (os_previous s) p (os_state s) (os_needed s) (os_failed s) (os_sealed s).
Definition expect (st : phase) (n : Z) (s : stream) : stream :=
  Stream (os_hash s) (os_count s) (os_previous s) (os_pending s) st n (os_failed s) (os_sealed s).
Definition set_failed (s : stream) : stream :=
  Stream (os_hash s) (os_count s) (os_previous s) (os_pending s) (os_state s) (os_needed s) true (os_sealed s).
Definition set_sealed (s : stream) : stream :=
  Stream (os_hash s) (os_count s) (os_previous s) (os_pending s) (os_state s) (os_needed s) (os_failed s) true.
Definition add_row (data : string) (s : stream) : stream :=
  Stream (os_hash s +:+ framed data) (os_count s + 1) (Some data) (os_pending s) PFields 2 (os_failed s) (os_sealed s).

Definition on_stream (f : stream → stream) : M reader unit := modify (λ r, Reader (f (rd_stream r)) (rd_world r)).
Definition on_world {A} (m : M world A) : M reader A := on_part rd_world (λ w r, Reader (rd_stream r) w) m.

Definition _reject {A} : M reader A :=
  on_stream set_failed;; throw SnapshotError "ordered history COPY framing/bound differs".

Definition _deadline : M reader unit :=
  late ← on_world past_deadline; if (late : bool) then _reject else mret tt.

Definition decode_errors (c : exc_class) : bool := bool_decide (c ∈ [UnicodeDecodeError; SnapshotError]).

(** The branch ["body"] of [_frame] *)
Definition frame_body (frame : string) : M reader unit :=
  data ← try_except decode_errors (on_world (text ← liftR (utf8_decode frame); budget_add text)) (λ _, _reject);
  previous ← gets (λ r, os_previous (rd_stream r));
  (if negb (String.eqb data frame) || match previous with Some p => String.ltb data p | None => false end
   then _reject else mret tt);;
  on_stream (add_row data).

Definition _frame (frame : string) : M reader unit :=
  st ← gets (λ r, os_state (rd_stream r));
  match st with
  | PHeader => if String.eqb frame HEADER then on_stream (expect PFields 2) else _reject
  | PFields =>
      let fields := from_bytes_signed frame in
      if fields =? -1 then on_stream (expect PTrailer 0)
      else if fields =? 1 then on_stream (expect PLength 4) else _reject
  | PLength =>
      let length := from_bytes_signed frame in
      (if (length <? 0) || (MAX_ROW_BYTES <? length) then _reject else mret tt);;
      on_stream (expect PBody length);;
      if length =? 0 then frame_body EmptyString else mret tt
  | PBody => frame_body frame
  | PTrailer => _reject
  end.

(** One pass of the loop of [write] over the rest of the chunk *)
Definition write_once (view : string) : M reader string :=
  s ← gets rd_stream;
  (if decide (os_state s = PTrailer) then _reject else mret tt);;
  let take := Z.to_nat (Z.min (os_needed s - slen (os_pending s)) (slen view)) in
  let pending := os_pending s +:+ stake take view in
  on_stream (set_pending pending);;
  (if slen pending =? os_needed s
   then on_stream (set_pending EmptyString);; _frame pending else mret tt);;
  _deadline;;
  mret (sdrop take view).

Fixpoint write_loop (fuel : nat) (view : string) : M reader unit :=
  match view with
  | EmptyString => mret tt
  | _ => match fuel with
         | O => λ r, (Fuel, r)
         | S fuel => view ← write_once view; write_loop fuel view
         end
  end.

(** What a sink may be handed: bytes, a bytearray, which is copied before it
    is read, or anything else. *)
Inductive chunk := CBytes (data : string) | CBytearray (data : string) | COther.
Definition chunk_data (c : chunk) : option string := match c with CBytes d | CBytearray d => Some d | COther => None end.

Definition write (c : chunk) : M reader unit :=
  s ← gets rd_stream;
  match chunk_data c with
  | Some data =>
      (if os_failed s || os_sealed s || (MAX_CHUNK_BYTES <? slen data) then _reject else mret tt);;
      _deadline;;
      write_loop (String.length data) data
  | None => _reject
  end.

Definition copy_status (count : Z) : string := "COPY " +:+ dec_of_Z count.

Definition finish (command_status : value) : M reader dict :=
  s ← gets rd_stream;
  (if os_failed s || os_sealed s || negb (bool_decide (os_state s = PTrailer)) || negb (String.eqb (os_pending s) EmptyString)
      || negb (py_eq command_status (VStr (copy_status (os_count s))))
   then _reject else mret tt);;
  _deadline;;
  on_stream set_sealed;;
  mret (digest_report (os_count s) (os_hash s)).

(** [_digest_query]: [copy_from_query] passes every chunk to the sink and
    answers with the command status; an exception of the sink ends it. *)
Definition digest_query (in_transaction : bool) (chunks : list chunk) (status : result value) : M world dict := λ w,
  if in_transaction then
    let '(r, rd) := (forM chunks write;; answer ← liftR status; finish answer) (Reader new_stream w) in (r, rd_world rd)
  else throw AtomicError "history transport requires the existing physical transaction" w.
End Clock.
