(* ===== verification/HistoryStreamSpec.v ===== *)
(** * The COPY transport computes the cursor digest ([HistoryStream]) *)

From Stdlib Require Import Sorting.Sorted.
From stdpp Require Import strings sorting.
From S2P Require Import Prelude PyStr PyVal Sha256 Effects HistoryStream.

Local Open Scope string_scope.
Local Open Scope list_scope.
Local Open Scope Z_scope.

(** ** Integers as bytes *)
Lemma from_bytes_snoc s c : from_bytes (s +:+ String c EmptyString) = from_bytes s * 256 + ord c.
Proof. unfold from_bytes. by rewrite list_ascii_app, foldl_app. Qed.

Lemma to_bytes_length k n : String.length (to_bytes k n) = k.
Proof. revert n; induction k as [|k IH]; intros n; [done|]. cbn [to_bytes]. rewrite app_length_str, IH. cbn. lia. Qed.

Lemma from_to_bytes k n : 0 <= n < 256 ^ Z.of_nat k → from_bytes (to_bytes k n) = n.
Proof.
  revert n; induction k as [|k IH]; intros n Hn; [cbn in *; lia|]. cbn [to_bytes].
  rewrite from_bytes_snoc, IH, ord_chr by (rewrite ?Nat2Z.inj_succ, ?Z.pow_succ_r in Hn by lia; (split; [apply Z.div_pos; lia|apply Z.div_lt_upper_bound; lia]) || (apply Z.mod_pos_bound; lia)).
  pose proof (Z.div_mod n 256). lia.
Qed.

Lemma string_snoc s : s ≠ EmptyString → ∃ t c, s = t +:+ String c EmptyString ∧ String.length s = S (String.length t).
Proof.
  induction s as [|a s IH]; [done|]. intros _. destruct s as [|b s]; [by exists EmptyString, a|].
  destruct IH as (t & c & -> & Hl); [done|]. exists (String a t), c. split; [done|]. cbn in *. lia.
Qed.

Lemma to_from_bytes s k : String.length s = k → to_bytes k (from_bytes s) = s.
Proof.
  revert s; induction k as [|k IH]; intros s Hl; [by destruct s|].
  destruct (string_snoc s) as (t & c & -> & Hl'); [by destruct s|]. cbn [to_bytes]. rewrite from_bytes_snoc.
  pose proof (ord_bounds c). rewrite Z.div_add_l, (Z.div_small (ord c)), Z.add_0_r by lia.
  rewrite (Z.add_comm (_ * _)), Z.mod_add, Z.mod_small, chr_ord, IH by lia. done.
Qed.

Lemma from_bytes_bound s : 0 <= from_bytes s < 256 ^ slen s.
Proof.
  remember (String.length s) as k eqn:Hk. revert s Hk; induction k as [|k IH]; intros s Hk; [by destruct s|].
  destruct (string_snoc s) as (t & c & -> & Hl'); [by destruct s|]. rewrite from_bytes_snoc, slen_app.
  specialize (IH t ltac:(lia)). pose proof (ord_bounds c). change (slen (String c EmptyString)) with 1.
  rewrite Z.pow_add_r by (pose proof (slen_nonneg t); lia). lia.
Qed.

(** A frame of [k] bytes that reads as the non-negative [n] is the encoding of [n]. *)
Lemma from_bytes_signed_nonneg s n : 0 < slen s → 0 <= n →
  from_bytes_signed s = n ↔ s = to_bytes (String.length s) n ∧ n < 2 ^ (8 * slen s - 1).
Proof.
  intros Hs Hn. unfold from_bytes_signed. pose proof (from_bytes_bound s) as Hb.
  assert (256 ^ slen s = 2 ^ (8 * slen s)) as Hp by (rewrite Z.pow_mul_r by lia; done).
  rewrite (proj2 (Z.ltb_lt 0 _)) by lia. cbn [andb]. split.
  - destruct (Z.leb_spec (2 ^ (8 * slen s - 1)) (from_bytes s)); [lia|]. intros <-. split; [by rewrite to_from_bytes|lia].
  - intros [He Hlt]. assert (from_bytes s = n) as ->.
    { rewrite He. apply from_to_bytes. change (Z.of_nat (String.length s)) with (slen s). rewrite Hp.
      split; [done|]. etrans; [exact Hlt|]. apply Z.pow_lt_mono_r; lia. }
    destruct (Z.leb_spec (2 ^ (8 * slen s - 1)) n); [lia|done].
Qed.

(** ** The format *)
Definition TRAILER : string := to_bytes 2 65535.
Definition encode_row (row : string) : string := to_bytes 2 1 +:+ to_bytes 4 (slen row) +:+ row.
Definition encode_rows (rows : list string) : string := foldr (λ row s, encode_row row +:+ s) TRAILER rows.
(** What PostgreSQL sends for the rows of one text column. *)
Definition encode (rows : list string) : string := HEADER +:+ encode_rows rows.

Abbreviation len l := (Z.of_nat (length l)).
Definition digested (rows : list string) : string := foldr (λ row s, framed row +:+ s) EmptyString rows.
Definition ordered (previous : option string) (row : string) : Prop :=
  match previous with Some p => String.ltb row p = false | None => True end.

Lemma fields_frame f : String.length f = 2%nat →
  (from_bytes_signed f = -1 ↔ f = TRAILER) ∧ (from_bytes_signed f = 1 ↔ f = to_bytes 2 1).
Proof.
  intros Hl. assert (slen f = 2) as Hs by (unfold slen; lia). split.
  - unfold from_bytes_signed. rewrite Hs. pose proof (from_bytes_bound f) as Hb. rewrite Hs in Hb. cbn in Hb.
    change (2 ^ (8 * 2)) with 65536. change (2 ^ (8 * 2 - 1)) with 32768. split.
    + destruct (_ && _) eqn:E; [|lia]. intros Hf. rewrite <- (to_from_bytes f 2) by done. unfold TRAILER. f_equal. lia.
    + intros ->. by vm_compute.
  - rewrite from_bytes_signed_nonneg, Hl, Hs by lia. split; [by intros [? _]|]. intros ->. by split.
Qed.

Lemma str_app_inv (a b c d : string) : String.length a = String.length c → a +:+ b = c +:+ d ↔ a = c ∧ b = d.
Proof.
  revert c; induction a as [|x a IH]; intros [|y c] Hl; try done; cbn in *; [naive_solver|].
  specialize (IH c ltac:(lia)). split; [intros [= -> H]; apply IH in H as [-> ->]; done|intros [[= -> ->] ->]; done].
Qed.

Lemma encode_rows_cons row rows x : encode_rows (row :: rows) +:+ x = to_bytes 2 1 +:+ (to_bytes 4 (slen row) +:+ (row +:+ (encode_rows rows +:+ x))).
Proof. cbn [encode_rows foldr]. unfold encode_row. by rewrite <- !app_assoc_str. Qed.

#[local] Opaque HEADER TRAILER.
#[local] Arguments to_bytes : simpl never.
#[local] Arguments slen : simpl never.

(** ** The decoder against the format *)
(** Run the plain steps of a routine. *)
Ltac mrun := unfold mbind, M_bind, mret, M_ret; cbn -[fz utf8_ok from_bytes_signed].
Section Decoder.
Context (clock : nat → flt) (started : flt).
Hypothesis timely : ∀ n, fltb (fz MAX_SECONDS) (fsub (clock n) started) = false.

Definition tick (w : world) : world := World (w_budget w) (S (w_ticks w)).
Definition in_time (w : world) : Prop := bg_started (w_budget w) = started.

Lemma past_deadline_run w : in_time w → past_deadline clock w = (Ret false, tick w).
Proof. intros Hw. unfold past_deadline. mrun. unfold in_time in *. by rewrite Hw, timely. Qed.

(** A row that the budget [b] still admits *)
Definition admits (b : budget) (row : string) : Prop :=
  slen row <= MAX_ROW_BYTES ∧ bg_bytes b + slen row <= MAX_TOTAL_BYTES ∧ bg_rows b + 1 <= MAX_TOTAL_ROWS.

Lemma budget_add_run row w : in_time w →
  (admits (w_budget w) row ∧ budget_add clock row w = (Ret row, tick (charge row w))) ∨
  (¬ admits (w_budget w) row ∧ ∃ e, exc_cls e = SnapshotError ∧ budget_add clock row w = (Exn e, charge row w)).
Proof.
  intros Hw. unfold budget_add. mrun. destruct (over_bound _ _) eqn:E; unfold over_bound in E; cbn in E; cbn.
  - right. split; [|by eexists; split; [|reflexivity]]. unfold admits. intros (? & ? & ?). rewrite !orb_true_iff, !Z.ltb_lt in E. lia.
  - left. split; [unfold admits; rewrite !orb_false_iff, !Z.ltb_ge in E; lia|]. by rewrite past_deadline_run by exact Hw.
Qed.

Definition live (r : reader) : Prop :=
  os_failed (rd_stream r) = false ∧ os_sealed (rd_stream r) = false ∧ in_time (rd_world r).

Lemma deadline_run r : live r → _deadline clock r = (Ret tt, Reader (rd_stream r) (tick (rd_world r))).
Proof. intros (_ & _ & Hw). destruct r as [s w]. unfold _deadline, on_world, on_part, mbind, M_bind. cbn -[fz] in *. by rewrite past_deadline_run. Qed.

Definition row_ok (r : reader) (row : string) : Prop :=
  utf8_ok row = true ∧ admits (w_budget (rd_world r)) row ∧ ordered (os_previous (rd_stream r)) row.
Definition row_added (row : string) (r : reader) : reader := Reader (add_row row (rd_stream r)) (tick (charge row (rd_world r))).

Lemma frame_body_run row r r' : live r → frame_body clock row r = (Ret tt, r') ↔ row_ok r row ∧ r' = row_added row r.
Proof.
  intros (_ & _ & Hw). destruct r as [s w]. unfold frame_body, row_ok, row_added, try_except, on_world, on_part. mrun.
  unfold utf8_decode. destruct (utf8_ok row) eqn:Eu; cbn; [|split; [by intros [=]|naive_solver]].
  destruct (budget_add_run row w Hw) as [[Ha ->]|(Ha & e & He & ->)]; cbn.
  - rewrite String.eqb_refl. cbn. destruct (os_previous s) as [p|]; cbn; [destruct (String.ltb row p) eqn:El; cbn|].
    + split; [by intros [=]|by intros [(_ & _ & [=]) _]].
    + split; [by intros [= <-]|by intros [_ ->]].
    + split; [by intros [= <-]|by intros [_ ->]].
  - unfold decode_errors. rewrite He. cbn. split; [by intros [=]|by intros [(_ & ? & _) _]].
Qed.

(** The rows that a reader with budget [b] after the row [previous] accepts *)
Definition charged (b : budget) (row : string) : budget := MkBudget (bg_started b) (bg_bytes b + slen row) (bg_rows b + 1).
Fixpoint all_ok (previous : option string) (b : budget) (rows : list string) : Prop :=
  match rows with
  | [] => True
  | row :: rows => (utf8_ok row = true ∧ admits b row ∧ ordered previous row) ∧ all_ok (Some row) (charged b row) rows
  end.

(** [rest] is what a reader that has yet to read the rows [rows] still has to get. *)
Definition awaits (r : reader) (rest : string) (rows : list string) : Prop :=
  let s := rd_stream r in
  all_ok (os_previous s) (w_budget (rd_world r)) rows ∧
  match os_state s with
  | PHeader => os_pending s +:+ rest = HEADER +:+ encode_rows rows
  | PFields => os_pending s +:+ rest = encode_rows rows
  | PLength => ∃ row rows', rows = row :: rows' ∧ os_pending s +:+ rest = to_bytes 4 (slen row) +:+ (row +:+ encode_rows rows')
  | PBody => ∃ row rows', rows = row :: rows' ∧ os_needed s = slen row ∧ os_pending s +:+ rest = row +:+ encode_rows rows'
  | PTrailer => rows = [] ∧ os_pending s +:+ rest = EmptyString
  end.
Definition total (r : reader) (rows : list string) : string * Z * budget :=
  (os_hash (rd_stream r) +:+ digested rows, os_count (rd_stream r) + len rows, foldl charged (w_budget (rd_world r)) rows).
Definition reaches (r : reader) (rest : string) (o : string * Z * budget) : Prop := ∃ rows, awaits r rest rows ∧ o = total r rows.

Definition needs (st : phase) (n : Z) : Prop :=
  match st with PHeader => n = slen HEADER | PFields => n = 2 | PLength => n = 4 | PBody => 0 < n | PTrailer => n = 0 end.
Definition wf (r : reader) : Prop :=
  let s := rd_stream r in
  live r ∧ needs (os_state s) (os_needed s) ∧ slen (os_pending s) <= os_needed s ∧
  (os_state s ≠ PTrailer → slen (os_pending s) < os_needed s).

Lemma total_cons r row rows : total (row_added row r) rows = total r (row :: rows).
Proof. unfold total. f_equal. f_equal; [cbn; by rewrite <- app_assoc_str|]. cbn [length row_added rd_stream add_row os_count]. lia. Qed.

Lemma body_reaches row r x o : live r → os_pending (rd_stream r) = EmptyString →
  (∃ r', frame_body clock row r = (Ret tt, r') ∧ reaches r' x o) ↔
  ∃ rows, all_ok (os_previous (rd_stream r)) (w_budget (rd_world r)) (row :: rows) ∧ x = encode_rows rows ∧ o = total r (row :: rows).
Proof.
  intros Hl Hp. setoid_rewrite (frame_body_run _ _ _ Hl). split.
  - intros (r' & [Hok ->] & rows & [Ha Hx] & ->). exists rows. cbn in Hx. rewrite Hp in Hx.
    split; [by split|]. split; [done|apply total_cons].
  - intros (rows & [Hok Ha] & -> & ->). eexists. split; [split; [exact Hok|done]|]. exists rows. rewrite total_cons. split; [|done].
    split; [exact Ha|]. cbn. by rewrite Hp.
Qed.

Lemma slen_inj_app a b c d : slen a = slen c → a +:+ b = c +:+ d ↔ a = c ∧ b = d.
Proof. intros Hl. apply str_app_inv. unfold slen in Hl. lia. Qed.

Lemma length_frame f : slen f = 4 → let n := from_bytes_signed f in (0 <= n → f = to_bytes 4 n) ∧ ∀ m, 0 <= m <= MAX_ROW_BYTES → f = to_bytes 4 m → n = m.
Proof.
  intros Hf n. assert (String.length f = 4%nat) as Hl by (unfold slen in Hf; lia). split.
  - intros Hn. destruct (from_bytes_signed_nonneg f n) as [H _]; [lia|done|]. rewrite Hl in H. by apply H.
  - intros m Hm Hfm. apply from_bytes_signed_nonneg; [lia|lia|]. rewrite Hl, Hf. split; [done|]. unfold MAX_ROW_BYTES in Hm. cbn. lia.
Qed.

Lemma frame_reaches f r x o :
  live r → needs (os_state (rd_stream r)) (os_needed (rd_stream r)) → os_pending (rd_stream r) = EmptyString →
  slen f = os_needed (rd_stream r) → os_state (rd_stream r) ≠ PTrailer →
  (∃ r', _frame clock f r = (Ret tt, r') ∧ reaches r' x o) ↔ reaches r (f +:+ x) o.
Proof.
  intros Hl Hn Hp Hf Ht. pose proof Hl as (Hfa & Hse & Hw). destruct r as [s w]. unfold reaches at 2, awaits. cbn [rd_stream rd_world] in *. rewrite Hp.
  change (EmptyString +:+ (f +:+ x)) with (f +:+ x). unfold _frame, on_stream. mrun. destruct (os_state s) eqn:Es; cbn in Hn; [| | | |done].
  - assert (∀ y, f +:+ x = HEADER +:+ y ↔ f = HEADER ∧ x = y) as Hinv by (intros y; apply slen_inj_app; by rewrite Hf, Hn).
    setoid_rewrite Hinv. destruct (String.eqb_spec f HEADER) as [->|Hne]; [|split; [by intros (? & [=] & _)|by intros (? & (_ & ? & _) & _)]].
    unfold reaches, awaits. split.
    + intros (r' & [= <-] & rows & [Ha Hx] & ->). cbn in Hx. rewrite Hp in Hx. by exists rows.
    + intros (rows & (Ha & _ & ->) & ->). eexists. split; [done|]. exists rows. cbn. by rewrite Hp.
  - destruct (fields_frame f) as [Hm1 H1]; [unfold slen in *; lia|]. split.
    + intros (r' & Hr & rows & Ha & ->). destruct (Z.eqb_spec (from_bytes_signed f) (-1)) as [E|_].
      * apply Hm1 in E as ->. injection Hr as <-. destruct Ha as [_ Ha]. cbn in Ha. rewrite Hp in Ha. destruct Ha as [-> Hx]. cbn in Hx. subst x. exists []. done.
      * destruct (Z.eqb_spec (from_bytes_signed f) 1) as [E|_]; [|by inversion Hr]. apply H1 in E as ->. injection Hr as <-.
        destruct Ha as [Hok Ha]. cbn in Ha. rewrite Hp in Ha. destruct Ha as (row & rows' & -> & Hx). cbn in Hx. subst x. exists (row :: rows').
        split; [|done]. split; [exact Hok|]. cbn [encode_rows foldr]. unfold encode_row. by rewrite <- !app_assoc_str.
    + intros (rows & (Hok & Hx) & ->). destruct rows as [|row rows].
      * assert (f = TRAILER ∧ x = EmptyString) as [-> ->].
        { apply slen_inj_app; [by rewrite Hf, Hn|]. rewrite Hx. by vm_compute. }
        rewrite (proj2 Hm1 eq_refl). eexists. split; [reflexivity|]. exists []. split; [|done]. split; [done|]. cbn. by rewrite Hp.
      * rewrite <- (app_nil_r_str (encode_rows _)), encode_rows_cons, app_nil_r_str in Hx.
        apply slen_inj_app in Hx as [-> ->]; [|by rewrite Hf, Hn]. rewrite (proj2 H1 eq_refl). eexists. split; [reflexivity|].
        exists (row :: rows). split; [|done]. split; [exact Hok|]. cbn. rewrite Hp. by exists row, rows.
  - destruct (length_frame f) as [Hto Hof]; [by rewrite Hf, Hn|]. set (n := from_bytes_signed f) in *. split.
    + intros (r' & Hr & Hre). destruct (Z.ltb_spec n 0); [by inversion Hr|]. destruct (Z.ltb_spec MAX_ROW_BYTES n); [by inversion Hr|].
      cbn in Hr. destruct (Z.eqb_spec n 0) as [Hn0|Hn0].
      * destruct (body_reaches EmptyString (Reader (expect PBody n s) w) x o) as [Hb _]; [done|done|].
        destruct Hb as (rows & Hok & -> & ->); [by exists r'|]. exists (EmptyString :: rows). split; [|done]. split; [exact Hok|].
        exists EmptyString, rows. split; [done|]. by rewrite (Hto ltac:(lia)), Hn0.
      * injection Hr as <-. destruct Hre as (rows & [Hok Ha] & ->). cbn in Ha. rewrite Hp in Ha. destruct Ha as (row & rows' & -> & Hs & Hx). cbn in Hx.
        subst x. exists (row :: rows'). split; [|done]. split; [exact Hok|]. exists row, rows'. split; [done|]. by rewrite (Hto ltac:(lia)), Hs.
    + intros (rows & (Hok & row & rows' & -> & Hx) & ->). apply slen_inj_app in Hx as [Hfr ->]; [|by rewrite Hf, Hn].
      assert (n = slen row) as Hnr. { apply Hof; [|done]. destruct Hok as [(_ & [? _] & _) _]. pose proof (slen_nonneg row). lia. }
      pose proof (slen_nonneg row). destruct Hok as [[Hu [[Hsz ?] ?]] Hok]. rewrite Hnr. rewrite (proj2 (Z.ltb_ge _ _)), (proj2 (Z.ltb_ge MAX_ROW_BYTES _)) by lia.
      cbn. destruct (Z.eqb_spec (slen row) 0) as [Hz|Hz].
      * destruct row; [|unfold slen in Hz; cbn in Hz; lia]. apply body_reaches; [done|done|]. exists rows'. by split.
      * eexists. split; [reflexivity|]. exists (row :: rows'). split; [|done]. split; [by split|]. cbn. rewrite Hp. by exists row, rows'.
  - rewrite (body_reaches f (Reader s w) x o) by done. cbn. split.
    + intros (rows & Hok & -> & ->). exists (f :: rows). split; [|done]. split; [done|]. by exists f, rows.
    + intros (rows & (Hok & row & rows' & -> & Hs & Hx) & ->). apply slen_inj_app in Hx as [-> ->]; [|by rewrite Hf]. by exists rows'.
Qed.

Lemma frame_wf f r r' : live r → os_pending (rd_stream r) = EmptyString → _frame clock f r = (Ret tt, r') → wf r'.
Proof.
  intros Hl Hp. pose proof Hl as (Hfa & Hse & Hw). destruct r as [s w]. cbn [rd_stream rd_world] in *. unfold _frame, on_stream. mrun.
  destruct (os_state s) eqn:Es.
  - destruct (String.eqb_spec f HEADER); [|by intros [=]]. intros [= <-]. unfold wf, live. cbn. rewrite Hp. done.
  - destruct (Z.eqb _ _); [intros [= <-]; unfold wf, live; cbn; by rewrite Hp|].
    destruct (Z.eqb _ _); [intros [= <-]; unfold wf, live; cbn; by rewrite Hp|by intros [=]].
  - destruct (Z.ltb_spec (from_bytes_signed f) 0); [by intros [=]|]. destruct (Z.ltb_spec MAX_ROW_BYTES (from_bytes_signed f)); [by intros [=]|]. cbn.
    destruct (Z.eqb_spec (from_bytes_signed f) 0) as [Hz|Hz].
    + intros [_ ->]%frame_body_run; [|done]. unfold wf, live. cbn. by rewrite Hp.
    + intros [= <-]. unfold wf, live. cbn. rewrite Hp. split_and!; try done; intros; change (slen EmptyString) with 0; lia.
  - intros [_ ->]%frame_body_run; [|done]. unfold wf, live. cbn. by rewrite Hp.
  - by intros [=].
Qed.

(** What is awaited depends on the pending bytes and the rest only together. *)
Lemma reaches_shift s w p rest rest' o :
  os_pending s +:+ rest = p +:+ rest' → reaches (Reader s w) rest o ↔ reaches (Reader (set_pending p s) w) rest' o.
Proof. intros He. unfold reaches, awaits. cbn. by rewrite He. Qed.

Lemma write_once_wf view r view' r' : wf r → view ≠ EmptyString → write_once clock view r = (Ret view', r') →
  wf r' ∧ (String.length view' < String.length view)%nat.
Proof.
  intros (Hl & Hn & Hle & Hlt) Hv. destruct r as [s w]. unfold write_once, on_stream. mrun. cbn [rd_stream] in *.
  destruct (decide _) as [|Ht]; [by intros [=]|]. specialize (Hlt Ht). cbn.
  set (k := Z.to_nat _). assert (1 <= k <= String.length view)%nat as Hk by (subst k; unfold slen in *; destruct view; [done|cbn in *; lia]).
  assert (slen (os_pending s +:+ stake k view) <= os_needed s) as Hp.
  { rewrite slen_app. unfold slen at 2. rewrite stake_length by lia. subst k. unfold slen in *. lia. }
  assert (∀ r1, wf r1 → (match _deadline clock r1 with (Ret _, s') => (Ret (sdrop k view), s') | (Exn e, s') => (Exn e, s') | (Fuel, s') => (Fuel, s') end)
    = (Ret view', r') → wf r' ∧ (String.length view' < String.length view)%nat) as Hd.
  { intros r1 Hw1. rewrite deadline_run by apply Hw1. intros [= <- <-]. split; [exact Hw1|]. rewrite sdrop_length. lia. }
  destruct (Z.eqb_spec (slen (os_pending s +:+ stake k view)) (os_needed s)) as [He|He].
  - destruct (_frame _ _ _) as [[[]|e|] r1] eqn:Ef; [|by intros [=]..]. apply Hd. eapply frame_wf; [| |exact Ef]; done.
  - apply Hd. split_and!; try done. cbn. intros. lia.
Qed.

Lemma write_once_reaches view r rest o : wf r → view ≠ EmptyString →
  (∃ view' r', write_once clock view r = (Ret view', r') ∧ reaches r' (view' +:+ rest) o) ↔ reaches r (view +:+ rest) o.
Proof.
  intros (Hl & Hn & Hle & Hlt) Hv. destruct r as [s w]. unfold write_once, on_stream. mrun. cbn [rd_stream] in *.
  destruct (decide _) as [Ht|Ht]; cbn.
  { split; [by intros (? & ? & [=] & _)|]. intros (rows & [_ Ha] & _). cbn in Ha. rewrite Ht in Ha. destruct Ha as [_ Ha].
    destruct (os_pending s); [|done]. by destruct view. }
  specialize (Hlt Ht). set (k := Z.to_nat _).
  assert (1 <= k <= String.length view)%nat as Hk by (subst k; unfold slen in *; destruct view; [done|cbn in *; lia]).
  assert ((os_pending s +:+ stake k view) +:+ (sdrop k view +:+ rest) = os_pending s +:+ (view +:+ rest)) as Hsplit.
  { by rewrite <- (app_assoc_str (os_pending s)), (app_assoc_str (stake k view)), stake_sdrop. }
  destruct (Z.eqb_spec (slen (os_pending s +:+ stake k view)) (os_needed s)) as [He|He].
  - rewrite (reaches_shift s w EmptyString (view +:+ rest) ((os_pending s +:+ stake k view) +:+ (sdrop k view +:+ rest)) o) by (by rewrite Hsplit).
    rewrite <- (frame_reaches (os_pending s +:+ stake k view) (Reader (set_pending EmptyString s) w)) by done. split.
    + intros (view' & r' & Hr & Hre). destruct (_frame _ _ _) as [[[]|e|] r1] eqn:Ef; [|by inversion Hr..].
      assert (wf r1) as Hw1 by (eapply frame_wf; [| |exact Ef]; done). rewrite deadline_run in Hr by apply Hw1. injection Hr as <- <-. by exists r1.
    + intros (r1 & Ef & Hre).
      match goal with |- context [_frame clock ?f ?r0] => replace (_frame clock f r0) with (Ret tt, r1) by (symmetry; exact Ef) end.
      assert (wf r1) as Hw1 by (eapply frame_wf; [| |exact Ef]; done).
      rewrite deadline_run by apply Hw1. eexists _, _. split; [reflexivity|]. exact Hre.
  - rewrite deadline_run by exact Hl. rewrite (reaches_shift s w (os_pending s +:+ stake k view) (view +:+ rest) (sdrop k view +:+ rest) o) by (by rewrite Hsplit). split.
    + intros (view' & r' & [= <- <-] & Hre). exact Hre.
    + intros Hre. eexists _, _. split; [reflexivity|]. exact Hre.
Qed.

Lemma write_loop_reaches fuel view r rest o : wf r → (String.length view <= fuel)%nat →
  (∃ r', write_loop clock fuel view r = (Ret tt, r') ∧ reaches r' rest o) ↔ reaches r (view +:+ rest) o.
Proof.
  revert view r; induction fuel as [|fuel IH]; intros view r Hw Hf.
  { destruct view; [|cbn in Hf; lia]. cbn. unfold mret, M_ret. split; [by intros (? & [= <-] & ?)|eauto]. }
  destruct (decide (view = EmptyString)) as [->|Hv]; [cbn; unfold mret, M_ret; split; [by intros (? & [= <-] & ?)|eauto]|].
  rewrite <- write_once_reaches by done.
  assert (write_loop clock (S fuel) view r = (write_once clock view ≫= λ v, write_loop clock fuel v) r) as -> by (by destruct view). split.
  - intros (r' & (view' & r1 & Ho & Hr)%bind_Ret & Hre). destruct (write_once_wf _ _ _ _ Hw Hv Ho) as [Hw1 Hlen].
    exists view', r1. split; [done|]. apply IH; [done|lia|]. by exists r'.
  - intros (view' & r1 & Ho & Hre). destruct (write_once_wf _ _ _ _ Hw Hv Ho) as [Hw1 Hlen].
    apply IH in Hre as (r' & Hr & Hre); [|done|lia]. exists r'. split; [|done]. by rewrite (bind_val _ _ _ _ _ Ho).
Qed.

Lemma write_loop_wf fuel view r r' : wf r → write_loop clock fuel view r = (Ret tt, r') → wf r'.
Proof.
  revert view r; induction fuel as [|fuel IH]; intros view r Hw; destruct view as [|c view]; try (by intros [= <-]).
  cbn [write_loop]. intros (view' & r1 & Ho & Hr)%bind_Ret. apply write_once_wf in Ho as [Hw1 _]; [by eapply IH|done|done].
Qed.

(** The bytes of a chunk that the sink takes *)
Definition chunk_of (c : chunk) (data : string) : Prop := chunk_data c = Some data ∧ slen data <= MAX_CHUNK_BYTES.

Lemma write_run c r r' : wf r →
  write clock c r = (Ret tt, r') ↔
  ∃ data, chunk_of c data ∧ write_loop clock (String.length data) data (Reader (rd_stream r) (tick (rd_world r))) = (Ret tt, r').
Proof.
  intros (Hl & _). pose proof Hl as (Hfa & Hse & _). unfold write, chunk_of, _reject, on_stream. mrun.
  destruct (chunk_data c) as [data|]; [|split; [by intros [=]|naive_solver]]. rewrite Hfa, Hse. cbn.
  destruct (Z.ltb_spec MAX_CHUNK_BYTES (slen data)).
  - cbn. split; [by intros [=]|]. intros (d & [[= <-] ?] & _). lia.
  - rewrite deadline_run by done. split; [intros Hr; by exists data|]. by intros (d & [[= <-] _] & Hr).
Qed.

Lemma write_wf c r r' : wf r → write clock c r = (Ret tt, r') → wf r'.
Proof. intros Hw (data & _ & Hr)%write_run; [|done]. by eapply write_loop_wf; [|exact Hr]. Qed.

Lemma writes_wf chunks r r' : wf r → forM chunks (write clock) r = (Ret tt, r') → wf r'.
Proof.
  revert r; induction chunks as [|c chunks IH]; intros r Hw; [by intros [= <-]|].
  intros ([] & r1 & Hc & Hr)%bind_Ret. eapply IH; [|exact Hr]. by eapply write_wf.
Qed.

Lemma writes_reach chunks r rest o : wf r →
  (∃ r', forM chunks (write clock) r = (Ret tt, r') ∧ wf r' ∧ reaches r' rest o) ↔
  ∃ texts, Forall2 chunk_of chunks texts ∧ reaches r (sconcat texts +:+ rest) o.
Proof.
  revert r; induction chunks as [|c chunks IH]; intros r Hw.
  { cbn [forM]. unfold mret, M_ret. split.
    - intros (r' & [= <-] & _ & Hre). exists []. by split.
    - intros (texts & ->%Forall2_nil_inv_l & Hre). by exists r. }
  cbn [forM]. split.
  - intros (r' & ([] & r1 & Hc & Hr)%bind_Ret & Hw' & Hre). pose proof (write_wf _ _ _ Hw Hc) as Hw1.
    destruct (proj1 (IH r1 Hw1)) as (texts & Hts & Hre1); [by exists r'|]. apply write_run in Hc as (data & Hd & Hl); [|done].
    exists (data :: texts). split; [by constructor|]. cbn [sconcat foldr]. rewrite <- app_assoc_str.
    apply (write_loop_reaches (String.length data) data (Reader (rd_stream r) (tick (rd_world r)))); [exact Hw|done|]. by exists r1.
  - intros (texts & (data & texts' & Hd & Hts & ->)%Forall2_cons_inv_l & Hre). cbn [sconcat foldr] in Hre. rewrite <- app_assoc_str in Hre.
    apply (write_loop_reaches (String.length data) data (Reader (rd_stream r) (tick (rd_world r)))) in Hre as (r1 & Hl & Hre); [|exact Hw|done].
    assert (write clock c r = (Ret tt, r1)) as Hc by (apply write_run; [done|by exists data]).
    destruct (proj2 (IH r1 (write_wf _ _ _ Hw Hc))) as (r' & Hr & Hw' & Hre'); [by exists texts'|].
    exists r'. split; [|done]. by rewrite (bind_val _ _ _ _ _ Hc).
Qed.

(** Nothing more is awaited exactly after the trailer. *)
Lemma reaches_end r o : wf r → reaches r EmptyString o ↔
  os_state (rd_stream r) = PTrailer ∧ os_pending (rd_stream r) = EmptyString ∧
  o = (os_hash (rd_stream r), os_count (rd_stream r), w_budget (rd_world r)).
Proof.
  intros (Hl & Hn & Hle & Hlt). destruct r as [s w]. unfold reaches, awaits. cbn [rd_stream rd_world] in *.
  assert (total (Reader s w) [] = (os_hash s, os_count s, w_budget w)) as Ht by (unfold total; cbn; by rewrite app_nil_r_str, Z.add_0_r).
  split.
  - intros (rows & [_ Ha] & ->). destruct (os_state s) eqn:Es; cbn in Hn; try (specialize (Hlt ltac:(done)); exfalso).
    + rewrite app_nil_r_str in Ha. rewrite Ha, slen_app in Hlt. pose proof (slen_nonneg (encode_rows rows)). lia.
    + rewrite app_nil_r_str in Ha. rewrite Ha in Hlt. assert (2 <= slen (encode_rows rows)); [|lia]. destruct rows as [|row rows]; [by vm_compute|].
      change (encode_rows (row :: rows)) with (encode_row row +:+ encode_rows rows). unfold encode_row. rewrite !slen_app.
      change (slen (to_bytes 2 1)) with 2. pose proof (slen_nonneg row). pose proof (slen_nonneg (to_bytes 4 (slen row))).
      pose proof (slen_nonneg (encode_rows rows)). lia.
    + destruct Ha as (row & rows' & -> & Hp). rewrite app_nil_r_str in Hp. rewrite Hp, slen_app in Hlt. unfold slen at 1 in Hlt. rewrite to_bytes_length in Hlt.
      pose proof (slen_nonneg (row +:+ encode_rows rows')). lia.
    + destruct Ha as (row & rows' & -> & He & Hp). rewrite app_nil_r_str in Hp. rewrite Hp, slen_app, He in Hlt. pose proof (slen_nonneg (encode_rows rows')). lia.
    + destruct Ha as [-> Hp]. rewrite app_nil_r_str in Hp. by rewrite Ht.
  - intros (-> & Hp & ->). exists []. by rewrite Ht, app_nil_r_str.
Qed.

Lemma finish_run status r v r' : wf r →
  finish clock status r = (Ret v, r') ↔
  ∃ fed count b, reaches r EmptyString (fed, count, b) ∧ status = VStr (copy_status count) ∧ v = digest_report count fed ∧
    r' = Reader (set_sealed (rd_stream r)) (tick (rd_world r)).
Proof.
  intros Hw. setoid_rewrite (reaches_end _ _ Hw). destruct Hw as (Hl & _). pose proof Hl as (Hfa & Hse & _).
  unfold finish, _reject, on_stream. mrun. rewrite Hfa, Hse. cbn [orb].
  destruct (bool_decide_reflect (os_state (rd_stream r) = PTrailer)) as [Ht|Ht]; cbn; [|split; [by intros [=]|naive_solver]].
  destruct (String.eqb_spec (os_pending (rd_stream r)) EmptyString) as [Hp|Hp]; cbn; [|split; [by intros [=]|naive_solver]].
  destruct (py_eq status _) eqn:Es; cbn.
  - apply py_eq_str in Es. rewrite deadline_run by done. cbn. split.
    + intros [= <- <-]. eexists _, _, _. done.
    + intros (? & ? & ? & (_ & _ & [= -> -> ->]) & _ & -> & ->). done.
  - split; [by intros [=]|]. intros (? & ? & ? & (_ & _ & [= -> -> ->]) & -> & _). by rewrite py_eq_refl_str in Es.
Qed.

(** ** The cursor digest *)
Fixpoint admitted (b : budget) (rows : list string) : Prop :=
  match rows with [] => True | row :: rows => admits b row ∧ admitted (charged b row) rows end.

Lemma digest_rows_run fed count rows w v b : in_time w →
  (∃ w', digest_rows clock fed count rows w = (Ret v, w') ∧ w_budget w' = b) ↔
  admitted (w_budget w) rows ∧ v = digest_report (count + len rows) (fed +:+ digested rows) ∧ b = foldl charged (w_budget w) rows.
Proof.
  revert fed count w; induction rows as [|row rows IH]; intros fed count w Hw.
  - cbn. unfold mret, M_ret. rewrite app_nil_r_str, Z.add_0_r. naive_solver.
  - cbn [digest_rows admitted digested foldr foldl]. destruct (budget_add_run row w Hw) as [[Ha Hb]|(Ha & e & _ & Hb)].
    + rewrite (bind_val _ _ _ _ _ Hb), (IH _ _ (tick (charge row w)) Hw).
      change (w_budget (tick (charge row w))) with (charged (w_budget w) row).
      replace (count + 1 + len rows) with (count + len (row :: rows)) by (cbn [length]; lia). rewrite <- app_assoc_str.
      change (foldr (λ row s, framed row +:+ s) EmptyString rows) with (digested rows). naive_solver.
    + rewrite (bind_out _ _ _ _ _ Hb). naive_solver.
Qed.

(** Rows in the byte order of the column *)
Definition in_order (rows : list string) : Prop := Sorted (λ p row, String.ltb row p = false) rows.

Lemma all_ok_spec previous b rows :
  all_ok previous b rows ↔
  Forall (λ row, utf8_ok row = true) rows ∧ in_order rows ∧ (∀ row, head rows = Some row → ordered previous row) ∧ admitted b rows.
Proof.
  revert previous b; induction rows as [|row rows IH]; intros previous b; cbn [all_ok admitted head].
  - split; [intros _; split_and!; [constructor|constructor|done|done]|done].
  - rewrite IH, Forall_cons. unfold in_order. split.
    + intros ((Hu & Ha & Ho) & Hf & Hs & Hh & Had). split_and!; try done; [|by intros ? [= <-]]. constructor; [done|].
      destruct rows as [|row' rows]; constructor. by apply Hh.
    + intros ([Hu Hf] & Hs & Hh & Ha & Had). inversion Hs as [|? ? Hs' Hhd]; subst. split_and!; try done; [by apply Hh|].
      intros row' Hr. destruct rows; [done|]. injection Hr as ->. by inversion Hhd.
Qed.
End Decoder.

(** C9. The COPY transport is exact.  While the deadline is not past, running
    the decoder over the chunks and the command status that the driver delivers
    returns a digest exactly if the chunks, however the bytes are cut, are the
    binary COPY encoding of rows of UTF-8 text in byte order and the status
    counts them, and the cursor digest of these rows returns the same report
    and leaves the same budget. *)
Theorem copy_digest_exact clock w chunks status v b
  (timely : ∀ n, fltb (fz MAX_SECONDS) (fsub (clock n) (bg_started (w_budget w))) = false) :
  (∃ w', digest_query clock true chunks (Ok status) w = (Ret v, w') ∧ w_budget w' = b) ↔
  ∃ texts rows, Forall2 chunk_of chunks texts ∧ sconcat texts = encode rows ∧
    Forall (λ row, utf8_ok row = true) rows ∧ in_order rows ∧ status = VStr (copy_status (len rows)) ∧
    ∃ w', table_digest clock rows w = (Ret v, w') ∧ w_budget w' = b.
Proof.
  set (started := bg_started (w_budget w)) in *. set (r := Reader new_stream w).
  assert (wf started r) as Hw by (split_and!; try done; by vm_compute). unfold table_digest.
  split.
  - intros (w' & Hq & <-). unfold digest_query in Hq.
    match type of Hq with (let '(_, _) := ?m in _) = _ => destruct m as [out r'] eqn:Er end. injection Hq as -> <-.
    apply bind_Ret in Er as ([] & r1 & Hws & Er). apply bind_Ret in Er as (answer & r2 & [[= ->] ->]%liftR_Ret & Hf).
    assert (wf started r1) as Hw1.
    { by eapply writes_wf. }
    apply (finish_run _ _ timely) in Hf as (fed & count & bb & Hre & -> & -> & ->); [|done].
    destruct (proj1 (writes_reach _ _ timely chunks r EmptyString (fed, count, bb) Hw)) as (texts & Hts & rows & [Hok Ha] & Ho); [by exists r1|].
    pose proof (proj1 (reaches_end _ _ _ Hw1) Hre) as (_ & _ & [= -> -> ->]). unfold total in Ho. injection Ho as Hfed Hcount Hb.
    rewrite app_nil_r_str in Ha. apply all_ok_spec in Hok as (Hu & Hs & _ & Had). exists texts, rows. split_and!; try done.
    + by rewrite Hcount.
    + apply (digest_rows_run _ _ timely); [done|]. split; [done|]. by rewrite Hfed, Hcount.
  - intros (texts & rows & Hts & Henc & Hu & Hs & -> & Hd). apply (digest_rows_run _ _ timely) in Hd as (Had & -> & ->); [|done].
    destruct (proj2 (writes_reach _ _ timely chunks r EmptyString (digested rows, len rows, foldl charged (w_budget w) rows) Hw)) as (r1 & Hr & Hw1 & Hre).
    { exists texts. split; [done|]. exists rows. split; [|done]. split; [apply all_ok_spec; split_and!; done|]. by rewrite app_nil_r_str. }
    pose proof (proj1 (reaches_end _ _ _ Hw1) Hre) as (_ & _ & [= Hfed Hcount Hb]).
    eexists. unfold digest_query. rewrite (bind_val _ _ _ _ _ Hr), (bind_val (liftR (Ok _)) _ r1 _ r1) by done.
    erewrite (proj2 (finish_run _ _ timely _ r1 _ _ Hw1)); [|eexists _, _, _; split_and!; [exact Hre|done|done|done]].
    split; [done|]. cbn. done.
Qed.

(** Two rows in two chunks that cut the header. *)
Definition two_rows : list string := [EmptyString; "a"].
Definition at_zero : world := World (MkBudget (fz 0) 0 0) 0.

Lemma copy_digest_exact_witness :
  ∃ w', digest_query (λ _, fz 0) true [CBytes (stake 7 (encode two_rows)); CBytearray (sdrop 7 (encode two_rows))]
          (Ok (VStr "COPY 2")) at_zero = (Ret (digest_report 2 (digested two_rows)), w') ∧ w_budget w' = MkBudget (fz 0) 1 2.
Proof.
  apply (copy_digest_exact (λ _, fz 0) at_zero); [by vm_compute|].
  exists [stake 7 (encode two_rows); sdrop 7 (encode two_rows)], two_rows. split_and!.
  - repeat constructor; by vm_compute.
  - cbn [sconcat foldr]. by rewrite app_nil_r_str, stake_sdrop.
  - by repeat constructor.
  - by repeat constructor.
  - done.
  - eexists. split; [reflexivity|]. by vm_compute.
Defined.

(** ** A decoder that failed or was sealed stays closed *)
Section Closed.
Context (clock : nat → flt).

Inductive stream_op := OWrite (c : chunk) | OFinish (status : value).
Definition run_op (o : stream_op) : M reader (option dict) :=
  match o with OWrite c => write clock c;; mret None | OFinish status => report ← finish clock status; mret (Some report) end.

Definition framing_error : exc := Exc SnapshotError "ordered history COPY framing/bound differs".
Definition closed (s : stream) : bool := os_failed s || os_sealed s.
(** The pending bytes are those of an unfinished frame, which is at most a row. *)
Definition bounded (s : stream) : Prop :=
  slen (os_pending s) <= os_needed s <= MAX_ROW_BYTES ∧
  (closed s = false → os_state s ≠ PTrailer → slen (os_pending s) < os_needed s).
(** An operation either returns and the decoder is open, or fails for good. *)
Definition open_or_failed {A} (x : out A * reader) : Prop :=
  bounded (rd_stream x.2) ∧
  match x.1 with Ret _ => closed (rd_stream x.2) = false | Exn e => e = framing_error ∧ closed (rd_stream x.2) = true | Fuel => False end.

Lemma past_deadline_any w : ∃ late, past_deadline clock w = (Ret late, World (w_budget w) (S (w_ticks w))).
Proof. by eexists. Qed.

Lemma reject_any {A} r : slen (os_pending (rd_stream r)) <= os_needed (rd_stream r) <= MAX_ROW_BYTES → open_or_failed (@_reject A r).
Proof. intros Hb. split; [split; [exact Hb|done]|done]. Qed.

Lemma deadline_any r : bounded (rd_stream r) → closed (rd_stream r) = false → open_or_failed (_deadline clock r).
Proof.
  intros Hb Hc. unfold _deadline, on_world, on_part, mbind, M_bind. destruct (past_deadline_any (rd_world r)) as [late ->].
  destruct late; [apply reject_any, Hb|by split].
Qed.

Lemma open_or_failed_bind {A B} (m : M reader A) (f : A → M reader B) r :
  open_or_failed (m r) → (∀ a r', bounded (rd_stream r') → closed (rd_stream r') = false → open_or_failed (f a r')) → open_or_failed ((m ≫= f) r).
Proof.
  intros [Hb Ho] Hf. unfold mbind, M_bind. destruct (m r) as [[a|e|] r']; cbn in *; [by apply Hf|by split|done].
Qed.

Lemma frame_body_any row r :
  os_pending (rd_stream r) = EmptyString → 0 <= os_needed (rd_stream r) <= MAX_ROW_BYTES → closed (rd_stream r) = false →
  open_or_failed (frame_body clock row r).
Proof.
  intros Hp Hn Hc. destruct r as [s w]. cbn [rd_stream rd_world] in *.
  assert (slen (os_pending s) <= os_needed s <= MAX_ROW_BYTES) as Hb by (rewrite Hp; exact Hn).
  unfold frame_body, try_except, on_world, on_part, on_stream. mrun. unfold utf8_decode. destruct (utf8_ok row); cbn; [|by apply reject_any].
  unfold budget_add, charge. mrun. destruct (over_bound _ _); cbn; [by apply reject_any|].
  match goal with |- context [past_deadline clock ?w'] => destruct (past_deadline_any w') as [late ->] end.
  destruct late; cbn; [by apply reject_any|]. destruct (_ || _); [by apply reject_any|].
  split; [|done]. unfold bounded. cbn. rewrite Hp. change (slen EmptyString) with 0. unfold MAX_ROW_BYTES. split; [lia|]. intros. lia.
Qed.

Lemma frame_any f r :
  os_pending (rd_stream r) = EmptyString → 0 <= os_needed (rd_stream r) <= MAX_ROW_BYTES → closed (rd_stream r) = false →
  open_or_failed (_frame clock f r).
Proof.
  intros Hp Hn Hc. assert (slen (os_pending (rd_stream r)) <= os_needed (rd_stream r) <= MAX_ROW_BYTES) as Hb by (rewrite Hp; exact Hn).
  assert (∀ st n, 0 <= n <= MAX_ROW_BYTES → (st ≠ PTrailer → 0 < n) → open_or_failed (on_stream (expect st n) r)) as Hexp.
  { intros st n Hr Ht. split; [|exact Hc]. unfold bounded. cbn. rewrite Hp. change (slen EmptyString) with 0. split; [lia|auto]. }
  unfold _frame. rewrite (bind_val (gets _) _ r _ r) by done. destruct (os_state (rd_stream r)).
  - destruct (String.eqb _ _); [apply Hexp; [by vm_compute|done]|by apply reject_any].
  - cbn zeta. destruct (Z.eqb _ _); [apply Hexp; [by vm_compute|done]|]. destruct (Z.eqb _ _); [apply Hexp; [by vm_compute|done]|by apply reject_any].
  - cbn zeta. destruct (Z.ltb_spec (from_bytes_signed f) 0); [by apply reject_any|].
    destruct (Z.ltb_spec MAX_ROW_BYTES (from_bytes_signed f)); [by apply reject_any|]. cbn [orb].
    rewrite (bind_val (mret tt) _ r tt r), (bind_val (on_stream _) _ r tt (Reader (expect PBody (from_bytes_signed f) (rd_stream r)) (rd_world r))) by done.
    destruct (Z.eqb_spec (from_bytes_signed f) 0); [apply frame_body_any; [done|cbn; lia|done]|apply (Hexp PBody); lia].
  - by apply frame_body_any.
  - by apply reject_any.
Qed.

Lemma write_once_any view r : view ≠ EmptyString → bounded (rd_stream r) → closed (rd_stream r) = false →
  open_or_failed (write_once clock view r) ∧
  ∀ view' r', write_once clock view r = (Ret view', r') → (String.length view' < String.length view)%nat.
Proof.
  intros Hv [Hb Hlt] Hc. specialize (Hlt Hc). unfold write_once. rewrite (bind_val (gets _) _ r _ r) by done.
  destruct (decide _) as [Ht|Ht]; [split; [by apply reject_any|by intros ?? [=]]|]. specialize (Hlt Ht).
  rewrite (bind_val (mret tt) _ r tt r) by done. cbn zeta. set (k := Z.to_nat _).
  assert (1 <= k <= String.length view)%nat as Hk by (subst k; unfold slen in *; destruct view; [done|cbn in *; lia]).
  set (p := os_pending (rd_stream r) +:+ stake k view).
  assert (slen p <= os_needed (rd_stream r)) as Hp.
  { subst p. rewrite slen_app. unfold slen at 2. rewrite stake_length by lia. subst k. unfold slen in *. lia. }
  rewrite (bind_val (on_stream _) _ r tt (Reader (set_pending p (rd_stream r)) (rd_world r))) by done. split.
  - apply open_or_failed_bind.
    + destruct (Z.eqb_spec (slen p) (os_needed (rd_stream r))).
      * rewrite (bind_val (on_stream _) _ _ tt (Reader (set_pending EmptyString (set_pending p (rd_stream r))) (rd_world r))) by done.
        apply frame_any; [done|cbn; pose proof (slen_nonneg p); lia|exact Hc].
      * split; [|exact Hc]. split; [cbn; lia|]. cbn. intros. lia.
    + intros [] r' Hb' Hc'. apply open_or_failed_bind; [by apply deadline_any|]. by intros [] r'' Hb'' Hc''.
  - intros view' r' ([] & r1 & _ & ([] & r2 & _ & [= <- _])%bind_Ret)%bind_Ret. rewrite sdrop_length. lia.
Qed.

Lemma write_loop_any fuel view r : (String.length view <= fuel)%nat → bounded (rd_stream r) → closed (rd_stream r) = false →
  open_or_failed (write_loop clock fuel view r).
Proof.
  revert view r; induction fuel as [|fuel IH]; intros view r Hf Hb Hc.
  { destruct view; [by split|cbn in Hf; lia]. }
  destruct (decide (view = EmptyString)) as [->|Hv]; [by split|].
  assert (write_loop clock (S fuel) view r = (write_once clock view ≫= λ v, write_loop clock fuel v) r) as -> by (by destruct view).
  destruct (write_once_any view r Hv Hb Hc) as [[Hb1 Ho] Hlen]. unfold mbind, M_bind.
  destruct (write_once clock view r) as [[view'|e|] r1]; cbn in *; [|by split|done]. specialize (Hlen _ _ eq_refl). apply IH; [lia|done|done].
Qed.

(** What an operation does to an open and to a closed decoder. *)
Lemma run_op_any o r : bounded (rd_stream r) →
  bounded (rd_stream (run_op o r).2) ∧
  match (run_op o r).1 with
  | Ret None => closed (rd_stream r) = false ∧ closed (rd_stream (run_op o r).2) = false
  | Ret (Some _) => closed (rd_stream r) = false ∧ closed (rd_stream (run_op o r).2) = true
  | Exn e => e = framing_error ∧ closed (rd_stream (run_op o r).2) = true
  | Fuel => False
  end.
Proof.
  intros Hb. destruct o as [c|status].
  - assert (closed (rd_stream r) = false → open_or_failed (write clock c r)) as Hopen.
    { intros Hc. unfold write. rewrite (bind_val (gets _) _ r _ r) by done. destruct (chunk_data c); [|apply reject_any, Hb].
      unfold closed in Hc. rewrite Hc. cbn [orb]. destruct (_ <? _); [apply reject_any, Hb|].
      rewrite (bind_val (mret tt) _ r tt r) by done. apply open_or_failed_bind; [by apply deadline_any|]. intros [] r' ? ?. by apply write_loop_any. }
    assert (closed (rd_stream r) = true → write clock c r = (Exn framing_error, Reader (set_failed (rd_stream r)) (rd_world r))) as Hclosed.
    { intros Hc. unfold write. rewrite (bind_val (gets _) _ r _ r) by done. destruct (chunk_data c); [|done]. unfold closed in Hc. by rewrite Hc. }
    unfold run_op, mbind, M_bind. destruct (closed (rd_stream r)) eqn:Ec.
    + rewrite Hclosed by done. cbn. split; [|done]. by destruct (@reject_any unit r (proj1 Hb)).
    + destruct (Hopen eq_refl) as [Hb1 Ho]. destruct (write clock c r) as [[[]|e|] r']; cbn in *; naive_solver.
  - unfold run_op, finish. mrun. destruct (closed (rd_stream r)) eqn:Ec; unfold closed in Ec; rewrite Ec; cbn [orb].
    { by destruct (@reject_any unit r (proj1 Hb)). }
    destruct (negb _ || _ || _); cbn.
    { by destruct (@reject_any unit r (proj1 Hb)). }
    destruct (deadline_any r Hb Ec) as [Hb1 Ho]. unfold _deadline, on_world, on_part, mbind, M_bind in *.
    destruct (past_deadline_any (rd_world r)) as [[] Hd]; rewrite Hd in *; cbn in *; [done|].
    split; [split; [exact (proj1 Hb)|unfold closed; cbn; by rewrite orb_true_r]|]. unfold closed. cbn. split; [done|]. by destruct (os_failed _).
Qed.

Fixpoint run_ops (os : list stream_op) (r : reader) : list (out (option dict)) * reader :=
  match os with
  | [] => ([], r)
  | o :: os => let x := run_op o r in let y := run_ops os x.2 in (x.1 :: y.1, y.2)
  end.
End Closed.

(** A decoder fails for good.  Whatever chunks and statuses it is given
    and whatever the clock says, every operation ends; the bytes it keeps of an
    unfinished frame are at most one row; every exception is the one framing
    error; and after an exception, or after a digest was returned, every further
    operation raises that error, so at most one digest is ever returned. *)
Theorem failure_is_final clock os w :
  let '(outs, r) := run_ops clock os (Reader new_stream w) in
  slen (os_pending (rd_stream r)) <= MAX_ROW_BYTES ∧ Fuel ∉ outs ∧
  ∀ i j x, outs !! i = Some x → x ≠ Ret None → (i < j < length os)%nat → outs !! j = Some (Exn framing_error).
Proof.
  assert (∀ os r, bounded (rd_stream r) → let '(outs, r') := run_ops clock os r in
    bounded (rd_stream r') ∧ Fuel ∉ outs ∧
    (∀ i j x, outs !! i = Some x → x ≠ Ret None → (i < j < length os)%nat → outs !! j = Some (Exn framing_error)) ∧
    (closed (rd_stream r) = true → ∀ j, (j < length os)%nat → outs !! j = Some (Exn framing_error))) as Hgen.
  { clear. intros os. induction os as [|o os IH]; intros r Hb; cbn [run_ops]; [split_and!; [done|set_solver|done|cbn; lia]|].
    destruct (run_op_any clock o r Hb) as [Hb1 Ho]. specialize (IH (run_op clock o r).2 Hb1).
    destruct (run_ops clock os (run_op clock o r).2) as [outs r'] eqn:Er. destruct IH as (Hb' & Hf & Hfin & Hcl).
    cbn [fst snd length]. split_and!; [done| | |].
    - intros [Hin|Hin]%elem_of_cons; [by rewrite <- Hin in Ho|done].
    - intros [|i] [|j] x Hi Hx Hj; [lia| |lia|apply (Hfin i j x); [done|done|lia]]. cbn in *. apply Hcl; [|lia].
      injection Hi as <-. destruct (run_op clock o r).1 as [[d|]| |]; naive_solver.
    - intros Hc [|j] Hj; cbn.
      + destruct (run_op clock o r).1 as [[d|]|e|]; [destruct Ho; congruence..|by destruct Ho as [-> _]|done].
      + apply Hcl; [|lia]. destruct (run_op clock o r).1 as [[d|]| |]; [by destruct Ho|destruct Ho; congruence|by destruct Ho|done]. }
  specialize (Hgen os (Reader new_stream w)). destruct (run_ops clock os (Reader new_stream w)) as [outs r].
  destruct Hgen as (Hb & Hf & Hfin & _); [split; [by vm_compute|by intros; vm_compute]|]. split_and!; [|done|done]. destruct Hb as [? _]. lia.
Qed.
