(* ===== verification/HistorySeed.v ===== *)
(** * The audit-only history seed ([scripts/runtime_epoch_history_seed.py])

    The validation of an exported row, the accumulator of chains and of the
    ordered digest, [measure_history] and [seed_history] with their target
    transaction, and the mode [seed] of [scripts/runtime_epoch_worker.py], which
    runs the two over one snapshot of the source. *)

From stdpp Require Import gmap strings.
From S2P Require Import Prelude PyStr Regex Sha256 PyVal PyTime Json PyBytes Effects EpochPublication EpochSource HistoryStream.

Local Open Scope string_scope.
Local Open Scope list_scope.
Local Open Scope Z_scope.
Local Open Scope regex_scope.

Definition SCHEMA_VERSION : string := "1.0".
Definition CONTRACT_VERSION : string := "closed-bar.v1".
Definition MINUTE_MS : Z := 60000.
Definition MAX_ROWS : Z := 200000.
Definition MAX_TOTAL_BYTES : Z := 512 * 1024 * 1024.
Definition MAX_ROW_BYTES : Z := 1 * 1024 * 1024.
Definition MAX_SECONDS : Z := 900.
(** Both patterns are used with [fullmatch]; the anchors add nothing. *)
Definition SHA256_RE (s : string) : bool := fullmatch (hex 64) s.
Definition NEW_EPOCH_DB_RE (s : string) : bool := fullmatch (RLit "kairos_epoch_" ⋅ RRep 12 (RChar is_lower_hex)) s.

Definition PAYLOAD_FIELDS : list string :=
  ["schema_version"; "message_id"; "correlation_id"; "causation_id"; "produced_at"; "source"; "contract_version"; "venue";
   "symbol"; "timeframe"; "open_time_ms"; "close_time_ms"; "open"; "high"; "low"; "close"; "base_volume"; "quote_volume";
   "taker_buy_base_volume"; "taker_buy_quote_volume"; "is_closed"; "bar_sha256"].
Definition BAR_IDENTITY_FIELDS : list string :=
  ["base_volume"; "close"; "close_time_ms"; "contract_version"; "high"; "is_closed"; "low"; "open"; "open_time_ms";
   "quote_volume"; "symbol"; "taker_buy_base_volume"; "taker_buy_quote_volume"; "timeframe"; "venue"].

(** ** Canonical JSON *)
Definition not_canonical (c : exc_class) : bool := bool_decide (c ∈ [TypeError; ValueError; UnicodeEncodeError]).

Definition canonical_json (v : value) : result string :=
  catch not_canonical (text ← json_dumps canonical_style v; encode_utf8 text)
    (λ _, raise SeedError "history row is not canonical JSON data").

Section Seed.
(** [orjson.dumps(_, option=OPT_SORT_KEYS)] where the package is installed *)
Context (orjson : option (dict → result string)).

Definition normalized (v : value) : value := match v with VFloat (S754_zero _) => VFloat (S754_zero false) | v => v end.
Definition _contract_canonical_json (d : dict) : result string :=
  let d := (λ kv, (kv.1, normalized kv.2)) <$> d in
  match orjson with
  | Some dumps => catch not_canonical (dumps d) (λ _, raise SeedError "closed-bar identity is not canonical JSON data")
  | None => canonical_json (VDict d)
  end.

(** ** Fields of an exported row *)
(** A column holds a plain value or a timestamp. *)
Inductive cell := CVal (v : value) | CTime (d : datetime).
Notation record := (list (string * cell)).
Definition ccell (k : string) (r : record) : cell := default (CVal VNone) (dlookup k r).

(** [==] of a cell and a value *)
Definition cell_is (c : cell) (v : value) : bool := match c with CVal u => py_eq u v | CTime _ => false end.

Fixpoint replace_char (c : ascii) (by_ s : string) : string :=
  match s with
  | EmptyString => EmptyString
  | String a s => (if Ascii.eqb a c then by_ else String a EmptyString) +:+ replace_char c by_ s
  end.

Definition _utc_datetime (c : cell) (label : string) : result datetime :=
  c ← match c with
      | CVal (VStr s) =>
          d ← catch (λ c, bool_decide (c = ValueError)) (fromisoformat (replace_char "Z" "+00:00" s))
                (λ _, raise SeedError (label +:+ " is not an ISO-8601 timestamp"));
          Ok (CTime d)
      | c => Ok c
      end;
  match c with
  | CTime (DateTime t (Some off)) => astimezone_utc (DateTime t (Some off))
  | _ => raise SeedError (label +:+ " must be timezone-aware")
  end.

Definition _payload (c : cell) : result dict :=
  v ← match c with
      | CVal (VStr s) =>
          v ← catch (λ c, bool_decide (c ∈ [JSONDecodeError; ValueError])) (json_loads_hook plain_dict (λ _, raise ValueError "") s)
                (λ _, raise SeedError "history payload is not valid JSON");
          Ok (CVal v)
      | c => Ok c
      end;
  match v with
  | CVal (VDict d) => if keys_are d PAYLOAD_FIELDS then Ok d else raise SeedError "history payload does not match the exact CLOSED_BAR v1 envelope"
  | _ => raise SeedError "history payload does not match the exact CLOSED_BAR v1 envelope"
  end.

(** [math.isfinite] and [float] of the accepted types; both overflow on a large integer. *)
Definition _finite_number (payload : dict) (name : string) (positive : bool) : result flt :=
  f ← match dget name payload with
      | VInt z => float_of_int z
      | VFloat f => if float_isfinite f then Ok f else raise SeedError "history OHLCV values must be finite numbers"
      | _ => raise SeedError "history OHLCV values must be finite numbers"
      end;
  let v := match dget name payload with VInt z => NInt z | _ => NFloat f end in
  _ ← raise_if (positive && num_leb v (NInt 0)) SeedError "history OHLC values must be positive";
  _ ← raise_if (negb positive && num_ltb v (NInt 0)) SeedError "history volumes must be non-negative";
  Ok f.

(** ** Identities, anchors, limits *)
Record SourceIdentity := MkSource { si_database_name : string; si_epoch_id : string; si_read_only : bool; si_pinned_snapshot : bool }.
Record TargetIdentity := MkTarget {
  ti_database_name : string; ti_epoch_id : string; ti_schema_verified : bool; ti_fresh_non_trading_epoch : bool;
  ti_protected_source_or_shadow : bool;
}.
Record Anchor := MkAnchor { a_count : Z; a_first_open_time_ms : Z; a_last_open_time_ms : Z; a_last_close_time_ms : Z }.
#[global] Instance Anchor_eq_dec : EqDecision Anchor.
Proof. solve_decision. Defined.
Record SeedExpectation := MkExpectation { se_anchors : gmap string Anchor; se_digest : string }.
Record SeedLimits := MkLimits { maximum_rows : Z; maximum_bytes : Z; maximum_seconds : Z }.
Definition DEFAULT_SEED_LIMITS : SeedLimits := MkLimits MAX_ROWS MAX_TOTAL_BYTES MAX_SECONDS.

Definition validate_epoch_pair (source : SourceIdentity) (target : TargetIdentity) : result unit :=
  _ ← raise_if (negb (si_read_only source) || negb (si_pinned_snapshot source)) SeedError "source must be read-only and pinned to one epoch snapshot";
  _ ← raise_if (String.eqb (si_database_name source) "" || String.eqb (si_epoch_id source) "")
       SeedError "pinned source database and epoch identities are required";
  _ ← raise_if (String.eqb (ti_database_name target) (si_database_name source) || String.eqb (ti_epoch_id target) (si_epoch_id source))
       SeedError "target must be a separately named database and epoch";
  _ ← raise_if (negb (NEW_EPOCH_DB_RE (ti_database_name target))) SeedError "target database must have an explicitly new epoch name";
  _ ← raise_if (String.eqb (ti_epoch_id target) "" || negb (ti_schema_verified target) || negb (ti_fresh_non_trading_epoch target))
       SeedError "target must be a verified, fresh non-trading epoch";
  raise_if (ti_protected_source_or_shadow target) SeedError "primary and preserved shadow targets are forbidden".

(** ** The accumulator *)
Record accumulator := Acc {
  ac_expected_anchors : gmap string Anchor; ac_expected_digest : option string; ac_limits : SeedLimits; ac_started : flt;
  ac_rows : Z; ac_bytes : Z; ac_digest : string; ac_seen_ids : gset string;
  ac_previous : gmap string Z; ac_first : gmap string Z; ac_last : gmap string (Z * Z); ac_counts : gmap string Z;
}.

Definition _Accumulator (expected_anchors : gmap string Anchor) (expected_digest : option string) (limits : SeedLimits) (now : flt)
    : result accumulator :=
  _ ← raise_if (negb (bool_decide (dom expected_anchors = list_to_set SYMBOLS))) SeedError
       "exact expected anchors for all five symbols are required";
  _ ← raise_if (match expected_digest with Some d => negb (SHA256_RE d) | None => false end) SeedError "expected ordered source digest is invalid";
  _ ← raise_if (existsb (λ v, v <=? 0) [maximum_rows limits; maximum_bytes limits; maximum_seconds limits]) SeedError
       "positive bounded seed limits are required";
  Ok (Acc expected_anchors expected_digest limits now 0 0 EmptyString ∅ ∅ ∅ ∅ (list_to_map ((λ s, (s, 0)) <$> SYMBOLS))).

Definition in_bound (a : accumulator) (now : flt) : result unit :=
  raise_if (fltb (fz (maximum_seconds (ac_limits a))) (fsub now (ac_started a))) SeedError "history seed exceeded its time bound".

Definition ROW_KEYS : list string :=
  ["produced_at"; "message_id"; "topic"; "source"; "schema_version"; "correlation_id"; "causation_id"; "payload";
   "outbox_count"; "outbox_topic"; "outbox_producer"; "outbox_payload"; "stored_payload_sha256"].

(** [x not in SYMBOLS]; a member is one of the five texts. *)
Definition symbol_of (v : value) : option string :=
  match v with VStr s => if bool_decide (s ∈ SYMBOLS) then Some s else None | _ => None end.

(** The columns of the audit row, and the payload behind its timestamp *)
Definition audit_identity (raw : record) : result (datetime * dict) :=
  _ ← raise_if (negb (cell_is (ccell "topic" raw) (VStr TOPIC)) || negb (cell_is (ccell "source" raw) (VStr SOURCE))
                || negb (cell_is (ccell "schema_version" raw) (VStr SCHEMA_VERSION)))
       SeedError "source audit identity is not canonical CLOSED_BAR v1";
  produced_at ← _utc_datetime (ccell "produced_at" raw) "audit produced_at";
  payload ← _payload (ccell "payload" raw);
  differs ← (if negb (py_eq (dget "schema_version" payload) (VStr SCHEMA_VERSION)) || negb (py_eq (dget "source" payload) (VStr SOURCE))
                || negb (py_eq (dget "contract_version" payload) (VStr CONTRACT_VERSION)) || negb (py_eq (dget "venue" payload) (VStr "BINANCE_UM"))
                || negb (py_eq (dget "timeframe" payload) (VStr "1m")) || negb (is_true (dget "is_closed" payload))
                || existsb (λ k, negb (cell_is (ccell k raw) (dget k payload))) ["schema_version"; "message_id"; "correlation_id"; "causation_id"]
             then Ok true
             else p ← _utc_datetime (CVal (dget "produced_at" payload)) "payload produced_at"; Ok (negb (instant p =? instant produced_at)));
  _ ← raise_if differs SeedError "payload envelope does not match the source audit identity";
  Ok (produced_at, payload).

(** Symbol and times of the bar *)
Definition bar_times (payload : dict) : result (string * Z * Z) :=
  match symbol_of (dget "symbol" payload) with
  | None => raise SeedError "CLOSED_BAR symbol is outside the fixed five-symbol scope"
  | Some symbol =>
      match dget "open_time_ms" payload, dget "close_time_ms" payload with
      | VInt open_ms, VInt close_ms =>
          _ ← raise_if ((open_ms <? 0) || negb (open_ms mod MINUTE_MS =? 0) || negb (close_ms =? open_ms + MINUTE_MS - 1)) SeedError
               "bar timestamps must be minute-aligned and final";
          Ok (symbol, open_ms, close_ms)
      | _, _ => raise SeedError "bar timestamps must be integer milliseconds"
      end
  end.

Definition bar_numbers (payload : dict) : result unit :=
  open_price ← _finite_number payload "open" true;
  high ← _finite_number payload "high" true;
  low ← _finite_number payload "low" true;
  close ← _finite_number payload "close" true;
  base ← _finite_number payload "base_volume" false;
  quote ← _finite_number payload "quote_volume" false;
  taker_base ← _finite_number payload "taker_buy_base_volume" false;
  taker_quote ← _finite_number payload "taker_buy_quote_volume" false;
  _ ← raise_if (fltb high (fmax open_price close) || fltb (fmin open_price close) low || fltb high low) SeedError "bar OHLC geometry is invalid";
  raise_if (fltb base taker_base || fltb quote taker_quote) SeedError "bar taker-buy volume exceeds total volume".

(** The hash of the bar, which is its [message_id] *)
Definition bar_identity (raw : record) (payload : dict) : result string :=
  encoded ← _contract_canonical_json ((λ name, (name, dget name payload)) <$> BAR_IDENTITY_FIELDS);
  let bar_hash := sha256_hex encoded in
  _ ← raise_if (negb (py_eq (dget "bar_sha256" payload) (VStr bar_hash)) || negb (cell_is (ccell "message_id" raw) (VStr bar_hash))) SeedError
       "bar identity hash or message_id differs";
  Ok bar_hash.

(** The legacy outbox row: the hash it stores is that of the same payload. *)
Definition outbox_identity (raw : record) (payload : dict) : result string :=
  _ ← raise_if (negb (match ccell "outbox_count" raw with CVal (VInt n) => n =? 1 | _ => false end)) SeedError
       "source row must have exactly one immutable legacy outbox identity";
  _ ← raise_if (negb (cell_is (ccell "outbox_topic" raw) (VStr TOPIC)) || negb (cell_is (ccell "outbox_producer" raw) (VStr SOURCE))) SeedError
       "legacy outbox identity is not the matching CLOSED_BAR producer";
  outbox_payload ← _payload (ccell "outbox_payload" raw);
  _ ← raise_if (negb (py_eq (VDict outbox_payload) (VDict payload))) SeedError "legacy outbox and event audit payloads differ";
  encoded ← canonical_json (VDict payload);
  let calculated_hash := sha256_hex encoded in
  _ ← raise_if (negb (match ccell "stored_payload_sha256" raw with
                      | CVal (VStr s) => SHA256_RE s && String.eqb s calculated_hash | _ => false end)) SeedError
       "canonical payload hash differs from the stored outbox hash";
  Ok calculated_hash.

(** A row of [TARGET_INSERT_SQL] *)
Record audit_values := AuditValues {
  av_produced_at : datetime; av_message_id : string; av_topic : string; av_source : string; av_schema_version : string;
  av_correlation_id : cell; av_causation_id : cell; av_payload : string;
}.

Definition json_cell (c : cell) : result value :=
  match c with CVal v => Ok v | CTime _ => raise SeedError "history row is not canonical JSON data" end.

(** What is hashed for the ordered digest *)
Definition digest_row (raw : record) (produced_at : datetime) (message_id stored : string) (payload : dict) : result string :=
  correlation ← json_cell (ccell "correlation_id" raw);
  causation ← json_cell (ccell "causation_id" raw);
  canonical_json (VDict [("produced_at", VStr (isoformat produced_at)); ("message_id", VStr message_id); ("topic", VStr TOPIC);
    ("source", VStr SOURCE); ("schema_version", VStr SCHEMA_VERSION); ("correlation_id", correlation); ("causation_id", causation);
    ("payload", VDict payload); ("stored_payload_sha256", VStr stored)]).

Definition count_row (a : accumulator) (encoded : string) : accumulator :=
  Acc (ac_expected_anchors a) (ac_expected_digest a) (ac_limits a) (ac_started a) (ac_rows a + 1) (ac_bytes a + slen encoded)
      (ac_digest a) (ac_seen_ids a) (ac_previous a) (ac_first a) (ac_last a) (ac_counts a).
Definition record_row (a : accumulator) (encoded id symbol : string) (open_ms close_ms : Z) : accumulator :=
  Acc (ac_expected_anchors a) (ac_expected_digest a) (ac_limits a) (ac_started a) (ac_rows a) (ac_bytes a)
      (ac_digest a +:+ framed encoded) ({[id]} ∪ ac_seen_ids a) (<[symbol := open_ms]> (ac_previous a))
      (<[symbol := default open_ms (ac_first a !! symbol)]> (ac_first a)) (<[symbol := (open_ms, close_ms)]> (ac_last a))
      (<[symbol := default 0 (ac_counts a !! symbol) + 1]> (ac_counts a)).

(** [_Accumulator.add]; an item that is not a mapping is [None]. *)
Definition add (a : accumulator) (now : flt) (item : option record) : result (audit_values * accumulator) :=
  _ ← in_bound a now;
  match item with
  | None => raise SeedError "source export row is incomplete"
  | Some raw =>
      _ ← raise_if (negb (forallb (λ k, dmem k raw) ROW_KEYS)) SeedError "source export row is incomplete";
      '(produced_at, payload) ← audit_identity raw;
      '(symbol, open_ms, close_ms) ← bar_times payload;
      _ ← bar_numbers payload;
      message_id ← bar_identity raw payload;
      _ ← raise_if (bool_decide (message_id ∈ ac_seen_ids a)) SeedError "source message_id is duplicated";
      _ ← raise_if (match ac_previous a !! symbol with Some p => negb (open_ms =? p + MINUTE_MS) | None => false end) SeedError
           "per-symbol CLOSED_BAR sequence is not contiguous";
      stored ← outbox_identity raw payload;
      encoded ← digest_row raw produced_at message_id stored payload;
      let a := count_row a encoded in
      _ ← raise_if ((maximum_rows (ac_limits a) <? ac_rows a) || (maximum_bytes (ac_limits a) <? ac_bytes a) || (MAX_ROW_BYTES <? slen encoded)) SeedError
           "history seed exceeded its row or byte bound";
      text ← canonical_json (VDict payload);
      Ok (AuditValues produced_at message_id TOPIC SOURCE SCHEMA_VERSION (ccell "correlation_id" raw) (ccell "causation_id" raw) text,
          record_row a encoded message_id symbol open_ms close_ms)
  end.

Definition anchor_at (a : accumulator) (symbol : string) : result (string * Anchor) :=
  match ac_counts a !! symbol with
  | None => raise KeyError symbol
  | Some n =>
      _ ← raise_if (n =? 0) SeedError "source history is incomplete for a required symbol";
      match ac_first a !! symbol, ac_last a !! symbol with
      | Some first, Some (last_open, last_close) => Ok (symbol, MkAnchor n first last_open last_close)
      | _, _ => raise KeyError symbol
      end
  end.

Definition finish (a : accumulator) (now : flt) : result (string * gmap string Anchor) :=
  _ ← in_bound a now;
  actual ← mapR (anchor_at a) SYMBOLS;
  let actual : gmap string Anchor := list_to_map actual in
  let digest := sha256_hex (ac_digest a) in
  _ ← raise_if (negb (bool_decide (actual = ac_expected_anchors a))
                || match ac_expected_digest a with Some d => negb (String.eqb digest d) | None => false end) SeedError
       "source history counts, final anchors, or ordered digest differ";
  Ok (digest, actual).

(** ** The two passes *)
(** The rows a cursor yields, and how it ends. *)
Record source_rows := SourceRows { sr_items : list (option record); sr_end : result unit }.

(** The tables of the target as its connection sees them *)
Record target := Target { tg_audit : list audit_values; tg_outbox_rows : Z }.
(** The target with the numbers of clock readings and of remote calls made *)
Record seeding := Seeding { sg_target : target; sg_ticks : nat; sg_calls : nat }.

(** [clock n]: the reading [n] of [time.monotonic]; [fault n]: the exception of
    remote call [n], if it has one; [applied n]: whether a commit that raised as
    call [n] took effect nevertheless. *)
Context (clock : nat → flt) (fault : nat → option exc) (applied : nat → bool).

Definition now : M seeding flt := λ s, (Ret (clock (sg_ticks s)), Seeding (sg_target s) (S (sg_ticks s)) (sg_calls s)).
Definition set_target (t : target) (s : seeding) : seeding := Seeding t (sg_ticks s) (sg_calls s).

(** A remote call: it raises before it does anything, or runs [f] on the target. *)
Definition call {A} (f : target → A * target) : M seeding A := λ s,
  let s1 := Seeding (sg_target s) (sg_ticks s) (S (sg_calls s)) in
  match fault (sg_calls s) with
  | Some e => (Exn e, s1)
  | None => let '(a, t) := f (sg_target s) in (Ret a, set_target t s1)
  end.

(** [async with target.transaction(): m] *)
Definition transaction {A} (m : M seeding A) : M seeding A := λ s,
  match call (λ t, (tt, t)) s with
  | (Ret _, s0) =>
      match m s0 with
      | (Ret a, s1) =>
          match fault (sg_calls s1) with
          | None => (Ret a, Seeding (sg_target s1) (sg_ticks s1) (S (sg_calls s1)))
          | Some e => (Exn e, Seeding (if applied (sg_calls s1) then sg_target s1 else sg_target s0) (sg_ticks s1) (S (sg_calls s1)))
          end
      | (Exn e, s1) =>
          (Exn (default e (fault (sg_calls s1))), Seeding (sg_target s0) (sg_ticks s1) (S (sg_calls s1)))
      | (Fuel, s1) => (Fuel, s1)
      end
  | (Exn e, s0) => (Exn e, s0)
  | (Fuel, s0) => (Fuel, s0)
  end.

(** [TARGET_EMPTY_CHECK_SQL] and [executemany(TARGET_INSERT_SQL, batch)] *)
Definition empty_check : M seeding (Z * Z) := call (λ t, ((Z.of_nat (length (tg_audit t)), tg_outbox_rows t), t)).
Definition insert_rows (batch : list audit_values) : M seeding unit := call (λ t, (tt, Target (tg_audit t ++ batch) (tg_outbox_rows t))).

Definition add_item (a : accumulator) (item : option record) : M seeding (audit_values * accumulator) :=
  t ← now; liftR (add a t item).

Fixpoint measure_rows (a : accumulator) (items : list (option record)) : M seeding accumulator :=
  match items with
  | [] => mret a
  | item :: items => '(_, a) ← add_item a item; measure_rows a items
  end.

Definition measure_history (rows : source_rows) (expected_anchors : gmap string Anchor) (limits : SeedLimits) : M seeding SeedExpectation :=
  t ← now;
  a ← liftR (_Accumulator expected_anchors None limits t);
  a ← measure_rows a (sr_items rows);
  liftR (sr_end rows);;
  t ← now;
  '(digest, anchors) ← liftR (finish a t);
  mret (MkExpectation anchors digest).

(** The loop of [seed_history], with the rows read but not yet inserted and the
    number inserted *)
Fixpoint seed_rows (batch_size : Z) (a : accumulator) (batch : list audit_values) (inserted : Z) (items : list (option record))
    : M seeding (accumulator * list audit_values * Z) :=
  match items with
  | [] => mret (a, batch, inserted)
  | item :: items =>
      '(values, a) ← add_item a item;
      let batch := batch ++ [values] in
      if Z.of_nat (length batch) =? batch_size
      then insert_rows batch;; seed_rows batch_size a [] (inserted + Z.of_nat (length batch)) items
      else seed_rows batch_size a batch inserted items
  end.

Record SeedReceipt := MkReceipt {
  rc_rows : Z; rc_bytes : Z; rc_digest : string; rc_anchors : gmap string Anchor;
  rc_target_database : string; rc_target_epoch_id : string; rc_target_outbox_rows_after : Z;
}.

(** The body of the transaction *)
Definition seed_target (rows : source_rows) (a : accumulator) (batch_size : Z) (target : TargetIdentity) : M seeding SeedReceipt :=
  '(audit_rows, outbox_rows) ← empty_check;
  throw_if (negb (audit_rows =? 0) || negb (outbox_rows =? 0)) SeedError "fresh target must start with empty event_audit and message_outbox";;
  '(a, batch, inserted) ← seed_rows batch_size a [] 0 (sr_items rows);
  liftR (sr_end rows);;
  inserted ← (match batch with
              | [] => mret inserted
              | _ => insert_rows batch;; mret (inserted + Z.of_nat (length batch))
              end);
  t ← now;
  '(digest, anchors) ← liftR (finish a t);
  throw_if (negb (inserted =? ac_rows a)) SeedError "target audit insertion count is incomplete";;
  '(audit_rows, outbox_rows) ← empty_check;
  throw_if (negb (audit_rows =? inserted) || negb (outbox_rows =? 0)) SeedError "target post-seed audit/outbox counts differ";;
  mret (MkReceipt inserted (ac_bytes a) digest anchors (ti_database_name target) (ti_epoch_id target) 0).

Definition seed_history (rows : source_rows) (source : SourceIdentity) (target : TargetIdentity) (expected : SeedExpectation)
    (limits : SeedLimits) (batch_size : Z) : M seeding SeedReceipt :=
  liftR (validate_epoch_pair source target);;
  throw_if (negb ((1 <=? batch_size) && (batch_size <=? 1000))) SeedError "target insert batch must be bounded to 1..1000 rows";;
  t ← now;
  a ← liftR (_Accumulator (se_anchors expected) (Some (se_digest expected)) limits t);
  transaction (seed_target rows a batch_size target).

(** ** The mode [seed] of the worker *)
(** [datetime(2026, 9, 19, 15, 43, tzinfo=UTC).timestamp() * 1000] *)
Definition SEED_LAST_OPEN : Z := 1789832580000.
Definition seed_anchors : gmap string Anchor :=
  list_to_map ((λ s, let n := if String.eqb s "XRPUSDT" then 34632 else 34633 in
                     (s, MkAnchor n (SEED_LAST_OPEN - (n - 1) * MINUTE) SEED_LAST_OPEN (SEED_LAST_OPEN + MINUTE - 1))) <$> SYMBOLS).
Definition seed_limits : SeedLimits := MkLimits MAX_ROWS MAX_TOTAL_BYTES 600.

(** [first] and [second] are the rows of the two cursors over one snapshot. *)
Definition seed (source_verified target_verified : result unit) (read_only : result string) (first second : source_rows)
    (source_database database owner : string) : M seeding SeedReceipt :=
  liftR source_verified;;
  liftR target_verified;;
  mode ← liftR read_only;
  throw_if (negb (String.eqb mode "on")) EpochError "READONLY_SOURCE_REQUIRED";;
  expectation ← measure_history first seed_anchors seed_limits;
  seed_history second (MkSource source_database "accepted-backup-2408db1335dc" true true) (MkTarget database owner true true false)
    expectation seed_limits 1000.
End Seed.
