(* ===== verification/HistorySeedSpec.v ===== *)
(** * The seed is exact and all or nothing ([HistorySeed]) *)

From stdpp Require Import gmap strings.
From S2P Require Import Prelude PyStr Regex Sha256 PyVal PyTime Json Effects EpochPublication EpochSource HistoryStream HistorySeed.

Local Open Scope string_scope.
Local Open Scope list_scope.
Local Open Scope Z_scope.

Abbreviation len l := (Z.of_nat (length l)).

(** The minutes from [first] on *)
Definition minutes (first : Z) (n : nat) : list Z := (λ k, first + Z.of_nat k * MINUTE_MS) <$> seq 0 n.

Lemma minutes_S first n : minutes first (S n) = minutes first n ++ [first + Z.of_nat n * MINUTE_MS].
Proof. unfold minutes. by rewrite seq_S, fmap_app. Qed.

Lemma minutes_last first n : last (minutes first (S n)) = Some (first + Z.of_nat n * MINUTE_MS).
Proof. by rewrite minutes_S, last_snoc. Qed.

Lemma minutes_head first n : head (minutes first (S n)) = Some first.
Proof. unfold minutes. cbn. f_equal. lia. Qed.

Lemma list_cases_last {A} (l : list A) : l = [] ∨ ∃ k x, l = k ++ [x].
Proof. destruct l as [|x l] using rev_ind; eauto. Qed.

Definition digested (encs : list string) : string := sconcat (framed <$> encs).

(** ** Rows *)
(** What the checks make of one row *)
Record entry := Entry { en_symbol : string; en_open : Z; en_id : string; en_encoded : string; en_values : audit_values }.

Section Spec.
Context (orjson : option (dict → result string)).

(** The row [raw] passes every check that does not look at other rows, and is [e]. *)
Definition row_entry (raw : list (string * cell)) (e : entry) : Prop :=
  forallb (λ k, dmem k raw) ROW_KEYS = true ∧
  ∃ produced_at payload stored text,
    audit_identity raw = Ok (produced_at, payload) ∧
    bar_times payload = Ok (en_symbol e, en_open e, en_open e + MINUTE_MS - 1) ∧
    bar_numbers payload = Ok tt ∧ bar_identity orjson raw payload = Ok (en_id e) ∧ outbox_identity raw payload = Ok stored ∧
    digest_row raw produced_at (en_id e) stored payload = Ok (en_encoded e) ∧ slen (en_encoded e) <= MAX_ROW_BYTES ∧
    canonical_json (VDict payload) = Ok text ∧
    en_values e = AuditValues produced_at (en_id e) TOPIC SOURCE SCHEMA_VERSION (ccell "correlation_id" raw) (ccell "causation_id" raw) text.

Definition fits (a : accumulator) (e : entry) : Prop :=
  en_id e ∉ ac_seen_ids a ∧ (∀ p, ac_previous a !! en_symbol e = Some p → en_open e = p + MINUTE_MS) ∧
  ac_rows a + 1 <= maximum_rows (ac_limits a) ∧ ac_bytes a + slen (en_encoded e) <= maximum_bytes (ac_limits a).
Definition step (a : accumulator) (e : entry) : accumulator :=
  record_row (count_row a (en_encoded e)) (en_encoded e) (en_id e) (en_symbol e) (en_open e) (en_open e + MINUTE_MS - 1).

Lemma bar_times_Ok payload symbol open_ms close_ms :
  bar_times payload = Ok (symbol, open_ms, close_ms) → symbol ∈ SYMBOLS ∧ 0 <= open_ms ∧ open_ms mod MINUTE_MS = 0 ∧ close_ms = open_ms + MINUTE_MS - 1.
Proof.
  unfold bar_times. destruct (symbol_of _) as [s|] eqn:Es; [|done]. destruct (dget "open_time_ms" payload); try done.
  destruct (dget "close_time_ms" payload); try done. intros ([] & Hc%raise_if_Ok & [= -> -> ->])%bind_Ok.
  unfold symbol_of in Es. destruct (dget "symbol" payload); try done. destruct (bool_decide_reflect (s ∈ SYMBOLS)); [|done].
  injection Es as ->. rewrite !orb_false_iff, !negb_false_iff, Z.ltb_ge, !Z.eqb_eq in Hc. split_and!; try done; lia.
Qed.

Lemma add_Ok a now item values a' :
  add orjson a now item = Ok (values, a') ↔
  in_bound a now = Ok tt ∧ ∃ raw e, item = Some raw ∧ row_entry raw e ∧ fits a e ∧ values = en_values e ∧ a' = step a e.
Proof.
  unfold add, row_entry, fits. split.
  - intros ([] & Hb & H)%bind_Ok. split; [done|]. destruct item as [raw|]; [|done]. exists raw.
    apply bind_Ok in H as ([] & Hk%raise_if_Ok%negb_false_iff & H). apply bind_Ok in H as ([produced_at payload] & Ha & H).
    apply bind_Ok in H as ([[symbol open_ms] close_ms] & Ht & H). apply bind_Ok in H as ([] & Hn & H). apply bind_Ok in H as (id & Hi & H).
    apply bind_Ok in H as ([] & Hs%raise_if_Ok%bool_decide_eq_false & H). apply bind_Ok in H as ([] & Hp%raise_if_Ok & H).
    apply bind_Ok in H as (stored & Ho & H). apply bind_Ok in H as (encoded & He & H). apply bind_Ok in H as ([] & Hm%raise_if_Ok & H).
    apply bind_Ok in H as (text & Hx & [= <- <-]). pose proof (bar_times_Ok _ _ _ _ Ht) as (_ & _ & _ & ->). cbn in Hm.
    rewrite !orb_false_iff, !Z.ltb_ge in Hm. destruct Hm as [[Hm1 Hm2] Hm3].
    exists (Entry symbol open_ms id encoded (AuditValues produced_at id TOPIC SOURCE SCHEMA_VERSION (ccell "correlation_id" raw) (ccell "causation_id" raw) text)).
    split; [done|]. split; [split; [done|]; exists produced_at, payload, stored, text; done|]. split_and!; try done. cbn.
    intros p Hpp. rewrite Hpp in Hp. apply negb_false_iff, Z.eqb_eq in Hp. done.
  - intros [Hb (raw & e & -> & (Hk & produced_at & payload & stored & text & Ha & Ht & Hn & Hi & Ho & He & Hm & Hx & Hv) & (Hs & Hp & Hm1 & Hm2) & -> & ->)].
    rewrite Hb, bind_ret, Hk. cbn [negb raise_if]. rewrite bind_ret, Ha, bind_ret, Ht, bind_ret, Hn, bind_ret, Hi, bind_ret.
    rewrite bool_decide_false by done. cbn [raise_if]. rewrite bind_ret. destruct (ac_previous a !! en_symbol e) as [p|] eqn:Ep.
    + rewrite (Hp p eq_refl), Z.eqb_refl. cbn [raise_if negb]. rewrite bind_ret, Ho, bind_ret, He, bind_ret. cbn [count_row ac_limits ac_rows ac_bytes].
      rewrite !(proj2 (Z.ltb_ge _ _)) by lia. cbn [raise_if orb]. rewrite bind_ret, Hx, bind_ret, Hv. unfold step. by rewrite (Hp p eq_refl).
    + cbn [raise_if]. rewrite bind_ret, Ho, bind_ret, He, bind_ret. cbn [count_row ac_limits ac_rows ac_bytes].
      rewrite !(proj2 (Z.ltb_ge _ _)) by lia. cbn [raise_if orb]. by rewrite bind_ret, Hx, bind_ret, Hv.
Qed.

(** ** Sequences of rows *)
Fixpoint fit_all (a : accumulator) (es : list entry) : Prop :=
  match es with [] => True | e :: es => fits a e ∧ fit_all (step a e) es end.

Lemma fit_all_snoc a es e : fit_all a (es ++ [e]) ↔ fit_all a es ∧ fits (foldl step a es) e.
Proof. revert a; induction es as [|x es IH]; intros a; cbn; [tauto|]. rewrite IH. tauto. Qed.

(** The open times of a symbol, in the order of the rows *)
Definition opens (s : string) (es : list entry) : list Z := en_open <$> filter (λ e, en_symbol e = s) es.

Lemma opens_snoc s es e : opens s (es ++ [e]) = opens s es ++ (if decide (en_symbol e = s) then [en_open e] else []).
Proof. unfold opens. rewrite filter_app, fmap_app. cbn. by case_decide. Qed.

(** What an accumulator knows after the rows [es]. *)
Definition knows (a0 a : accumulator) (es : list entry) : Prop :=
  ac_expected_anchors a = ac_expected_anchors a0 ∧ ac_expected_digest a = ac_expected_digest a0 ∧ ac_limits a = ac_limits a0 ∧
  ac_started a = ac_started a0 ∧ ac_rows a = len es ∧ ac_bytes a = zsum (slen <$> (en_encoded <$> es)) ∧
  ac_digest a = digested (en_encoded <$> es) ∧ ac_seen_ids a = list_to_set (en_id <$> es) ∧ NoDup (en_id <$> es) ∧
  ∀ s, ac_previous a !! s = last (opens s es) ∧ ac_first a !! s = head (opens s es) ∧
    ac_last a !! s = (λ o, (o, o + MINUTE_MS - 1)) <$> last (opens s es) ∧
    (s ∈ SYMBOLS → ac_counts a !! s = Some (len (opens s es))) ∧
    ∃ first, opens s es = minutes first (length (opens s es)).

(** An accumulator that has seen nothing. *)
Definition fresh (a : accumulator) : Prop :=
  ac_rows a = 0 ∧ ac_bytes a = 0 ∧ ac_digest a = EmptyString ∧ ac_seen_ids a = ∅ ∧ ac_previous a = ∅ ∧ ac_first a = ∅ ∧ ac_last a = ∅ ∧
  ac_counts a = list_to_map ((λ s, (s, 0)) <$> SYMBOLS).

Lemma knows_nil a : fresh a → knows a a [].
Proof.
  intros (Hr & Hb & Hd & Hs & Hp & Hf & Hl & Hc). unfold knows. rewrite Hr, Hb, Hd, Hs, Hp, Hf, Hl, Hc. split_and!; try done; [constructor|].
  intros s. rewrite !lookup_empty. split_and!; try done; [|by exists 0].
  intros Hin. repeat (apply elem_of_cons in Hin as [->|Hin]; [by vm_compute|]). by apply elem_of_nil in Hin.
Qed.

Lemma knows_step a0 a es e :
  knows a0 a es → fits a e → en_symbol e ∈ SYMBOLS → knows a0 (step a e) (es ++ [e]).
Proof.
  intros (Hea & Hed & Hli & Hst & Hr & Hb & Hd & Hs & Hn & Hsym) (Hid & Hprev & Hm1 & Hm2) Hin. unfold knows.
  rewrite !fmap_app. cbn [step record_row count_row ac_expected_anchors ac_expected_digest ac_limits ac_started ac_rows ac_bytes ac_digest ac_seen_ids ac_previous ac_first ac_last ac_counts fmap list_fmap].
  split_and!; try done.
  - rewrite Hr, length_app. cbn. lia.
  - rewrite Hb, zsum_app. unfold zsum. cbn. lia.
  - rewrite Hd. unfold digested. rewrite fmap_app. symmetry. apply sconcat_snoc.
  - rewrite Hs, list_to_set_app_L. cbn. set_solver.
  - apply NoDup_app. split_and!; [done| |apply NoDup_singleton]. intros x Hx ->%list_elem_of_singleton. apply Hid. rewrite Hs. set_solver.
  - intros s. destruct (Hsym s) as (Hp & Hf & Hl & Hc & first & Ho). rewrite opens_snoc. destruct (decide (en_symbol e = s)) as [<-|Hne].
    + rewrite !lookup_insert_eq, last_snoc, (Hc Hin), Hf. split_and!; try done.
      * destruct (opens (en_symbol e) es); done.
      * intros _. cbn. f_equal. rewrite length_app. cbn. lia.
      * rewrite length_app, Nat.add_1_r. destruct (length (opens (en_symbol e) es)) as [|n] eqn:En.
        { apply nil_length_inv in En. rewrite En. exists (en_open e). unfold minutes. cbn. f_equal. lia. }
        exists first. rewrite minutes_S, <- Ho. do 2 f_equal. rewrite (Hprev (first + Z.of_nat n * MINUTE_MS)); [lia|].
        by rewrite Hp, Ho, minutes_last.
    + rewrite !lookup_insert_ne by done. rewrite app_nil_r. split_and!; try done. by exists first.
Qed.

Lemma row_entry_symbol raw e : row_entry raw e → en_symbol e ∈ SYMBOLS.
Proof. intros (_ & ? & ? & ? & ? & _ & Ht & _). apply bar_times_Ok in Ht as [Hin _]. exact Hin. Qed.

Lemma knows_all a es raws : fresh a → Forall2 row_entry raws es → fit_all a es → knows a (foldl step a es) es.
Proof.
  intros Hf Hr. revert raws Hr. induction es as [|e es IH] using rev_ind; intros raws Hr; [intros _; by apply knows_nil|].
  intros [Hfa Hfe]%fit_all_snoc. apply Forall2_app_inv_r in Hr as (raws1 & raws2 & Hr1 & Hr2 & ->).
  apply Forall2_cons_inv_r in Hr2 as (raw & ? & Hre & _ & ->). rewrite foldl_app. apply knows_step; [by eapply IH|done|].
  by eapply row_entry_symbol.
Qed.

(** ** The passes *)
Context (clock : nat → flt) (fault : nat → option exc) (applied : nat → bool).

Lemma add_item_Ret a item s values a' s' :
  add_item orjson clock a item s = (Ret (values, a'), s') →
  sg_target s' = sg_target s ∧ ∃ raw e, item = Some raw ∧ row_entry raw e ∧ fits a e ∧ values = en_values e ∧ a' = step a e.
Proof.
  intros (t & s1 & [= <- <-] & [(_ & He)%add_Ok ->]%liftR_Ret)%bind_Ret. done.
Qed.

Lemma call_Ret {A} (f : target → A * target) s a s' : call fault f s = (Ret a, s') → a = (f (sg_target s)).1 ∧ sg_target s' = (f (sg_target s)).2.
Proof. unfold call. destruct (fault _); [done|]. destruct (f (sg_target s)) as [b t]. by intros [= <- <-]. Qed.

Lemma seed_rows_Ret n a batch inserted items s a' batch' inserted' s' :
  seed_rows orjson clock fault n a batch inserted items s = (Ret (a', batch', inserted'), s') →
  ∃ raws es, items = Some <$> raws ∧ Forall2 row_entry raws es ∧ fit_all a es ∧ a' = foldl step a es ∧
    tg_audit (sg_target s') ++ batch' = tg_audit (sg_target s) ++ batch ++ (en_values <$> es) ∧
    tg_outbox_rows (sg_target s') = tg_outbox_rows (sg_target s) ∧ inserted' + len batch' = inserted + len batch + len es.
Proof.
  revert a batch inserted s; induction items as [|item items IH]; intros a batch inserted s; cbn [seed_rows].
  - intros [[= <- <- <-] ->]%mret_Ret. exists [], []. split_and!; try done; cbn; [by rewrite app_nil_r|lia].
  - intros ([values a1] & s1 & (Htg & raw & e & -> & Hre & Hf & -> & ->)%add_item_Ret & H)%bind_Ret.
    assert (∃ raws es, items = Some <$> raws ∧ Forall2 row_entry raws es ∧ fit_all (step a e) es ∧ a' = foldl step (step a e) es ∧
      tg_audit (sg_target s') ++ batch' = tg_audit (sg_target s1) ++ (batch ++ [en_values e]) ++ (en_values <$> es) ∧
      tg_outbox_rows (sg_target s') = tg_outbox_rows (sg_target s1) ∧ inserted' + len batch' = inserted + len (batch ++ [en_values e]) + len es)
      as (raws & es & -> & Hr & Hfa & -> & Hau & Hob & Hin).
    { destruct (Z.eqb _ _); [|by apply IH in H]. apply bind_Ret in H as ([] & s2 & [_ Hc]%call_Ret & H).
      apply IH in H as (raws & es & -> & Hr & Hfa & -> & Hau & Hob & Hin). rewrite Hc in Hau, Hob. exists raws, es. cbn in *.
      split_and!; try done; [|lia]. by rewrite Hau, <- !app_assoc. }
    exists (raw :: raws), (e :: es). rewrite Htg in Hau, Hob. split_and!; try done; [by constructor|cbn; by rewrite Hau, <- app_assoc|].
    rewrite length_app in Hin. cbn [length] in *. lia.
Qed.

(** The history that a completed seed leaves behind *)
Record seeded (items : list (option (list (string * cell)))) (expected : SeedExpectation) (limits : SeedLimits) (es : list entry) : Prop := {
  sd_rows : ∃ raws, items = Some <$> raws ∧ Forall2 row_entry raws es;
  sd_ids : NoDup (en_id <$> es);
  sd_anchors : dom (se_anchors expected) = list_to_set SYMBOLS;
  sd_chains : ∀ s, s ∈ SYMBOLS → ∃ first n, opens s es = minutes first (S n) ∧
    se_anchors expected !! s = Some (MkAnchor (Z.of_nat (S n)) first (first + Z.of_nat n * MINUTE_MS) (first + Z.of_nat (S n) * MINUTE_MS - 1));
  sd_digest : se_digest expected = sha256_hex (digested (en_encoded <$> es));
  sd_bounds : len es <= maximum_rows limits ∧ zsum (slen <$> (en_encoded <$> es)) <= maximum_bytes limits;
}.

Lemma accumulator_Ok anchors digest limits t a :
  _Accumulator anchors digest limits t = Ok a →
  fresh a ∧ ac_expected_anchors a = anchors ∧ ac_expected_digest a = digest ∧ ac_limits a = limits ∧
  dom anchors = list_to_set SYMBOLS ∧ 0 < maximum_rows limits ∧ 0 < maximum_bytes limits.
Proof.
  unfold _Accumulator. intros ([] & Hd%raise_if_Ok%negb_false_iff%bool_decide_eq_true & ([] & _ & ([] & Hl%raise_if_Ok & [= <-])%bind_Ok)%bind_Ok)%bind_Ok.
  cbn in Hl. rewrite !orb_false_iff, !Z.leb_gt in Hl. split_and!; try done; lia.
Qed.

Lemma finish_Ok a t digest anchors :
  finish a t = Ok (digest, anchors) →
  anchors = ac_expected_anchors a ∧ digest = sha256_hex (ac_digest a) ∧ (∀ d, ac_expected_digest a = Some d → d = digest) ∧
  ∀ s, s ∈ SYMBOLS → ∃ anchor, anchor_at a s = Ok (s, anchor) ∧ anchors !! s = Some anchor.
Proof.
  unfold finish. intros ([] & _ & (actual & Ha & ([] & Hc%raise_if_Ok & [= <- <-])%bind_Ok)%bind_Ok)%bind_Ok.
  apply orb_false_iff in Hc as [He%negb_false_iff%bool_decide_eq_true Hd]. split_and!; try done.
  - intros d Hdd. rewrite Hdd in Hd. by apply negb_false_iff, String.eqb_eq in Hd.
  - intros s Hs. apply mapR_Ok in Ha. apply list_elem_of_lookup in Hs as [i Hi].
    assert (Forall2 (λ s x, x.1 = s ∧ anchor_at a s = Ok x) SYMBOLS actual) as Hf.
    { eapply Forall2_impl; [exact Ha|]. intros s' [k x] Hx. split; [|done]. revert Hx. unfold anchor_at. destruct (ac_counts a !! s'); [|done].
      intros ([] & _ & H)%bind_Ok. destruct (ac_first a !! s'), (ac_last a !! s') as [[]|]; try done. by injection H as <- _. }
    destruct (Forall2_lookup_l _ _ _ _ _ Hf Hi) as ([k x] & Hk & Hk1 & Hx). cbn in Hk1. subst k. exists x. split; [done|].
    apply elem_of_list_to_map_1; [|by eapply list_elem_of_lookup_2].
    assert (actual.*1 = SYMBOLS) as ->; [|by_decide]. clear -Hf. induction Hf as [|s' [k x] l k' [Hk _] _ IH]; [done|]. cbn in *. by rewrite Hk, IH.
Qed.

Lemma anchor_at_chain a0 a es s anchor : knows a0 a es → s ∈ SYMBOLS → anchor_at a s = Ok (s, anchor) →
  ∃ first n, opens s es = minutes first (S n) ∧
    anchor = MkAnchor (Z.of_nat (S n)) first (first + Z.of_nat n * MINUTE_MS) (first + Z.of_nat (S n) * MINUTE_MS - 1).
Proof.
  intros (_ & _ & _ & _ & _ & _ & _ & _ & _ & Hsym) Hin. destruct (Hsym s) as (_ & Hf & Hl & Hc & first & Ho). unfold anchor_at.
  rewrite (Hc Hin). intros ([] & Hz%raise_if_Ok%Z.eqb_neq & H)%bind_Ok. destruct (length (opens s es)) as [|n] eqn:En; [lia|].
  rewrite Hf, Hl, Ho, minutes_head, minutes_last in H. cbn [fmap option_fmap option_map] in H. injection H as <-. exists first, n. split; [done|].
  f_equal. lia.
Qed.

Lemma knows_bounds a raws es : fresh a → 0 < maximum_rows (ac_limits a) → 0 < maximum_bytes (ac_limits a) →
  Forall2 row_entry raws es → fit_all a es →
  len es <= maximum_rows (ac_limits a) ∧ zsum (slen <$> (en_encoded <$> es)) <= maximum_bytes (ac_limits a).
Proof.
  intros Hf H1 H2 Hr Hfa. destruct (list_cases_last es) as [->|(es' & e & ->)]; [cbn; lia|].
  apply Forall2_app_inv_r in Hr as (raws1 & raws2 & Hr1 & _ & ->). apply fit_all_snoc in Hfa as [Hfa (_ & _ & Hm1 & Hm2)].
  destruct (knows_all a es' raws1 Hf Hr1 Hfa) as (_ & _ & Hli & _ & Hrw & Hb & _). rewrite Hrw, Hli in Hm1. rewrite Hb, Hli in Hm2.
  rewrite length_app, !fmap_app, zsum_app. unfold zsum in *. cbn in *. lia.
Qed.

(** The rows [es] have been seeded into an empty target, as [rc] says. *)
Definition completed (rows : source_rows) (tid : TargetIdentity) (expected : SeedExpectation) (limits : SeedLimits) (before after : target)
    (es : list entry) (rc : SeedReceipt) : Prop :=
  seeded (sr_items rows) expected limits es ∧ sr_end rows = Ok tt ∧ before = Target [] 0 ∧ after = Target (en_values <$> es) 0 ∧
  rc = MkReceipt (len es) (zsum (slen <$> (en_encoded <$> es))) (se_digest expected) (se_anchors expected)
         (ti_database_name tid) (ti_epoch_id tid) 0.

Lemma target_eta tg rows n : tg_audit tg = rows → tg_outbox_rows tg = n → tg = Target rows n.
Proof. destruct tg. cbn. by intros -> ->. Qed.
Lemma target_empty tg : len (tg_audit tg) = 0 → tg_outbox_rows tg = 0 → tg = Target [] 0.
Proof. intros Hl. apply target_eta. destruct (tg_audit tg); [done|cbn in Hl; lia]. Qed.

Lemma seed_target_Ret rows a n tid expected limits t s rc s' :
  _Accumulator (se_anchors expected) (Some (se_digest expected)) limits t = Ok a →
  seed_target orjson clock fault rows a n tid s = (Ret rc, s') →
  ∃ es, completed rows tid expected limits (sg_target s) (sg_target s') es rc.
Proof.
  intros (Hfr & Hea & Hed & Hli & Hdom & H1 & H2)%accumulator_Ok. unfold seed_target.
  intros ([n0 o0] & s1 & [[= -> ->] Ht1]%call_Ret & H)%bind_Ret. apply bind_Ret in H as ([] & s2 & [Hc ->]%throw_if_Ret & H).
  apply bind_Ret in H as ([[a' batch] inserted] & s3 & (raws & es & Hit & Hr & Hfa & -> & Hau & Hob & Hin)%seed_rows_Ret & H).
  apply bind_Ret in H as ([] & s4 & [Hend ->]%liftR_Ret & H). apply bind_Ret in H as (inserted' & s5 & Hins & H).
  assert (tg_audit (sg_target s5) = tg_audit (sg_target s1) ++ (en_values <$> es) ∧ tg_outbox_rows (sg_target s5) = tg_outbox_rows (sg_target s1)
          ∧ inserted' = len es) as (Hau5 & Hob5 & ->).
  { cbn [length] in Hin. destruct batch as [|v batch].
    - apply mret_Ret in Hins as [-> ->]. rewrite app_nil_r in Hau. cbn in *. split_and!; [done|done|lia].
    - apply bind_Ret in Hins as ([] & s6 & [_ Hc6]%call_Ret & [-> ->]%mret_Ret). rewrite Hc6. cbn in *. split_and!; [done|done|lia]. }
  apply bind_Ret in H as (t6 & s6 & [= <- <-] & H). apply bind_Ret in H as ([digest anchors] & s7 & [Hf ->]%liftR_Ret & H).
  apply bind_Ret in H as ([] & s8 & [_ ->]%throw_if_Ret & H). apply bind_Ret in H as ([n9 o9] & s9 & [[= -> ->] Ht9]%call_Ret & H).
  apply bind_Ret in H as ([] & s10 & [Hz ->]%throw_if_Ret & [-> ->]%mret_Ret). cbn in Ht1, Ht9, Hc, Hz.
  rewrite orb_false_iff, !negb_false_iff, !Z.eqb_eq in Hc. destruct Hc as [Hc1 Hc2].
  pose proof (knows_all a es raws Hfr Hr Hfa) as Hk. pose proof Hk as (Hkea & Hked & Hkli & _ & _ & Hkb & Hkd & _ & Hkn & _).
  apply finish_Ok in Hf as (-> & -> & Hdig & Hanch). rewrite Hked, Hed in Hdig. specialize (Hdig _ eq_refl).
  exists es. unfold completed. rewrite Hkea, Hea, Hkb, <- Hdig, Ht9. split; [|split; [exact Hend|split; [|split; [|reflexivity]]]].
  - constructor; [by exists raws|exact Hkn|exact Hdom| | |].
    + intros sy Hsy. destruct (Hanch sy Hsy) as (anchor & Ha & Hl). destruct (anchor_at_chain _ _ _ _ _ Hk Hsy Ha) as (first & k & Ho & ->).
      exists first, k. split; [done|]. by rewrite <- Hea, <- Hkea.
    + by rewrite Hdig, Hkd.
    + rewrite <- Hli. apply (knows_bounds a raws); [done|by rewrite Hli..|done|done].
  - by apply target_empty.
  - rewrite Ht1, (target_empty _ Hc1 Hc2) in Hau5, Hob5. by apply target_eta.
Qed.

(** The routines end. *)
Lemma settles_call {A} (f : target → A * target) : settles (call fault f).
Proof. intros s. unfold call. destruct (fault _); [done|]. by destruct (f _). Qed.
Lemma settles_add_item a item : settles (add_item orjson clock a item).
Proof. unfold add_item. apply settles_bind; [done|]. auto with settle. Qed.
Lemma settles_seed_rows n a batch inserted items : settles (seed_rows orjson clock fault n a batch inserted items).
Proof.
  revert a batch inserted; induction items as [|item items IH]; intros a batch inserted; [done|]. cbn [seed_rows].
  apply settles_bind; [apply settles_add_item|]. intros [values a1]. destruct (Z.eqb _ _); [|apply IH].
  apply settles_bind; [apply settles_call|intros []; apply IH].
Qed.
Lemma settles_seed_target rows a n tid : settles (seed_target orjson clock fault rows a n tid).
Proof.
  unfold seed_target. apply settles_bind; [apply settles_call|]. intros [? ?]. apply settles_bind; [apply settles_throw_if|]. intros [].
  apply settles_bind; [apply settles_seed_rows|]. intros [[? batch] ?]. apply settles_bind; [apply settles_liftR|]. intros [].
  apply settles_bind; [destruct batch; [done|apply settles_bind; [apply settles_call|done]]|]. intros ?. apply settles_bind; [done|]. intros ?.
  apply settles_bind; [apply settles_liftR|]. intros [? ?]. apply settles_bind; [apply settles_throw_if|]. intros [].
  apply settles_bind; [apply settles_call|]. intros [? ?]. apply settles_bind; [apply settles_throw_if|]. done.
Qed.

(** ** Seeding what was measured *)
(** The accumulator of the second pass: another start, an expected digest. *)
Definition rebase (digest : option string) (started : flt) (a : accumulator) : accumulator :=
  Acc (ac_expected_anchors a) digest (ac_limits a) started (ac_rows a) (ac_bytes a) (ac_digest a) (ac_seen_ids a)
      (ac_previous a) (ac_first a) (ac_last a) (ac_counts a).

Lemma foldl_step_rebase d t a es : foldl step (rebase d t a) es = rebase d t (foldl step a es).
Proof. revert a; induction es as [|e es IH]; intros a; [done|]. exact (IH (step a e)). Qed.
Lemma fit_all_rebase d t a es : fit_all (rebase d t a) es ↔ fit_all a es.
Proof. revert a; induction es as [|e es IH]; intros a; [done|]. cbn [fit_all]. rewrite <- (IH (step a e)). done. Qed.

Lemma measure_rows_Ret a items s a' s' :
  measure_rows orjson clock a items s = (Ret a', s') →
  ∃ raws es, items = Some <$> raws ∧ Forall2 row_entry raws es ∧ fit_all a es ∧ a' = foldl step a es ∧ sg_target s' = sg_target s.
Proof.
  revert a s; induction items as [|item items IH]; intros a s; cbn [measure_rows].
  - intros [-> ->]%mret_Ret. by exists [], [].
  - intros ([values a1] & s1 & (Htg & raw & e & -> & Hre & Hf & -> & ->)%add_item_Ret & H)%bind_Ret.
    apply IH in H as (raws & es & -> & Hr & Hfa & -> & Ht). exists (raw :: raws), (e :: es). rewrite Ht, Htg.
    split_and!; try done. by constructor.
Qed.

Context (limits : SeedLimits).
Hypothesis timely : ∀ i j, fltb (fz (maximum_seconds limits)) (fsub (clock j) (clock i)) = false.
Hypothesis reliable : ∀ n, fault n = None.

Definition on_time (a : accumulator) : Prop := ac_limits a = limits ∧ ∃ i, ac_started a = clock i.
Lemma on_time_bound a n : on_time a → in_bound a (clock n) = Ok tt.
Proof. intros [Hl [i Hi]]. unfold in_bound. by rewrite Hl, Hi, timely. Qed.

Lemma call_reliable {A} (f : target → A * target) s :
  call fault f s = (Ret (f (sg_target s)).1, Seeding (f (sg_target s)).2 (sg_ticks s) (S (sg_calls s))).
Proof. unfold call. rewrite reliable. by destruct (f (sg_target s)). Qed.

Lemma seed_rows_run n a batch inserted raws es s :
  on_time a → Forall2 row_entry raws es → fit_all a es →
  ∃ batch' inserted' s', seed_rows orjson clock fault n a batch inserted (Some <$> raws) s = (Ret (foldl step a es, batch', inserted'), s').
Proof.
  intros Ht Hr. revert a batch inserted s Ht; induction Hr as [|raw e raws es Hre Hr IH]; intros a batch inserted s Ht Hf.
  { cbn. by eexists _, _, _. }
  destruct Hf as [Hf Hfa]. cbn [fmap list_fmap seed_rows].
  assert (add_item orjson clock a (Some raw) s = (Ret (en_values e, step a e), Seeding (sg_target s) (S (sg_ticks s)) (sg_calls s))) as Ha.
  { unfold add_item, now, liftR, mbind, M_bind. rewrite (proj2 (add_Ok a (clock (sg_ticks s)) (Some raw) (en_values e) (step a e))); [done|].
    split; [by apply on_time_bound|]. by exists raw, e. }
  rewrite (bind_val _ _ _ _ _ Ha). destruct (Z.eqb _ _); [|by apply IH].
  unfold insert_rows. rewrite (bind_val _ _ _ _ _ (call_reliable _ _)). by apply IH.
Qed.

Lemma seed_target_run rows raws es a n tid x s :
  fresh a → on_time a → sr_items rows = Some <$> raws → sr_end rows = Ok tt → Forall2 row_entry raws es → fit_all a es →
  sg_target s = Target [] 0 → (∀ m, finish (foldl step a es) (clock m) = Ok x) →
  ∃ rc s', seed_target orjson clock fault rows a n tid s = (Ret rc, s').
Proof.
  intros Hfr Ht Hit Hend Hr Hfa He Hfin. unfold seed_target, empty_check, insert_rows.
  rewrite (bind_val _ _ _ _ _ (call_reliable _ _)), He. cbn [fst snd tg_audit tg_outbox_rows length Z.of_nat].
  rewrite (bind_val (throw_if _ _ _) _ _ tt _) by done. rewrite Hit.
  set (s1 := Seeding _ _ _). destruct (seed_rows_run n a [] 0 raws es s1 Ht Hr Hfa) as (batch & inserted & s2 & Hs).
  rewrite (bind_val _ _ _ _ _ Hs). apply seed_rows_Ret in Hs as (raws' & es' & Hraw & Hr' & _ & Hfold & Hau & Hob & Hin).
  assert (length es' = length es) as Hlen.
  { rewrite <- (Forall2_length _ _ _ Hr), <- (Forall2_length _ _ _ Hr'), <- (length_fmap Some raws), Hraw. by rewrite length_fmap. }
  rewrite (bind_val (liftR _) _ s2 tt s2) by (by rewrite Hend). cbn [length Z.of_nat app tg_audit s1 sg_target tg_outbox_rows] in Hau, Hob, Hin.
  destruct (knows_all a es raws Hfr Hr Hfa) as (_ & _ & _ & _ & Hrows & _).
  assert (∃ s3, (match batch with [] => mret inserted
      | _ => call fault (λ t, (tt, Target (tg_audit t ++ batch) (tg_outbox_rows t)));; mret (inserted + len batch) end : M seeding Z) s2 = (Ret (len es), s3)
      ∧ tg_audit (sg_target s3) = en_values <$> es' ∧ tg_outbox_rows (sg_target s3) = 0) as (s3 & Hins & Hau3 & Hob3).
  { destruct batch as [|v batch].
    - exists s2. rewrite app_nil_r in Hau. cbn [length] in Hin. split; [|done]. unfold mret, M_ret. do 2 f_equal. lia.
    - rewrite (bind_val _ _ _ _ _ (call_reliable _ _)). eexists. split; [unfold mret, M_ret; do 2 f_equal; lia|]. cbn [snd sg_target tg_audit tg_outbox_rows]. by split. }
  rewrite (bind_val _ _ _ _ _ Hins). unfold now. rewrite (bind_val (λ s, _) _ s3 (clock (sg_ticks s3)) (Seeding (sg_target s3) (S (sg_ticks s3)) (sg_calls s3))) by done.
  destruct x as [digest anchors]. rewrite (bind_val (liftR _) _ _ (digest, anchors) (Seeding (sg_target s3) (S (sg_ticks s3)) (sg_calls s3))) by (by rewrite Hfin).
  rewrite (bind_val (throw_if _ _ _) _ _ tt (Seeding (sg_target s3) (S (sg_ticks s3)) (sg_calls s3))) by (by rewrite Hrows, Z.eqb_refl).
  rewrite (bind_val _ _ _ _ _ (call_reliable _ _)). cbn [fst snd sg_target]. rewrite Hob3, Hau3, length_fmap, Hlen.
  rewrite (bind_val (throw_if _ _ _) _ _ tt _) by (by rewrite Z.eqb_refl). by eexists _, _.
Qed.
End Spec.

(** C2. The history seed is exact and all or nothing.  However the clock, the
    cursor and the remote calls behave, [seed_history] ends, and either it
    returns, and then the target was empty and now holds exactly the validated
    rows of the source in their order: distinct messages, for each of the five
    symbols an unbroken chain of minutes with the expected anchor, within the
    limits, with the expected digest; or it raises, and the target is as it was,
    except if the commit itself raised after it had taken effect, when the target
    holds that same complete seed. *)
Theorem seed_all_or_nothing orjson clock fault applied rows source tid expected limits batch_size s :
  let '(r, s') := seed_history orjson clock fault applied rows source tid expected limits batch_size s in
  match r with
  | Ret rc => ∃ es, completed orjson rows tid expected limits (sg_target s) (sg_target s') es rc
  | Exn e => sg_target s' = sg_target s ∨
      ∃ n es rc, fault n = Some e ∧ applied n = true ∧ completed orjson rows tid expected limits (sg_target s) (sg_target s') es rc
  | Fuel => False
  end.
Proof.
  unfold seed_history. unfold mbind at 1, M_bind at 1, liftR at 1. destruct (validate_epoch_pair source tid) as [[]|]; [|by left]. cbn [out_of].
  unfold mbind at 1, M_bind at 1, throw_if at 1, liftR at 1. destruct (raise_if _ _ _) as [[]|]; [|by left]. cbn [out_of].
  unfold mbind at 1, M_bind at 1, now at 1. cbn iota beta. unfold mbind at 1, M_bind at 1, liftR at 1.
  destruct (_Accumulator _ _ _ _) as [a|] eqn:Ea; [|by left]. cbn [out_of]. unfold transaction.
  unfold call at 1. cbn [sg_calls sg_target sg_ticks]. destruct (fault (sg_calls s)); [by left|]. unfold set_target. cbn [sg_ticks sg_calls sg_target].
  set (s1 := Seeding _ _ _). pose proof (settles_seed_target orjson clock fault rows a batch_size tid s1) as Hs.
  destruct (seed_target _ _ _ _ _ _ _ s1) as [[rc|e|] s2] eqn:Et; cbn in Hs; [|by left|done].
  apply (seed_target_Ret _ _ _ _ _ _ _ _ _ _ _ _ _ Ea) in Et as (es & Hc).
  destruct (fault (sg_calls s2)) as [e|] eqn:Ef; [|by exists es]. destruct (applied (sg_calls s2)) eqn:Ep; [|by left]. right. by exists (sg_calls s2), es, rc.
Qed.

Lemma accumulator_rebase anchors limits t t' a digest :
  _Accumulator anchors None limits t = Ok a → SHA256_RE digest = true → _Accumulator anchors (Some digest) limits t' = Ok (rebase (Some digest) t' a).
Proof.
  unfold _Accumulator. intros ([] & Hd & ([] & _ & ([] & Hl & [= <-])%bind_Ok)%bind_Ok)%bind_Ok Hs. rewrite Hd, bind_ret, Hs. cbn [negb raise_if]. by rewrite bind_ret, Hl.
Qed.

Lemma digest_SHA256_RE s : SHA256_RE (sha256_hex s) = true.
Proof. unfold SHA256_RE, hex. rewrite fullmatch_rep. apply sha256_hex_ok. Qed.

(** What was measured can be seeded.  If [measure_history] accepts the rows
    of a snapshot, then [seed_history] over the same rows with the expectation it
    returned, into an empty target of a valid pair, in time and without lost
    calls, returns, and reports the measured digest and anchors. *)
Theorem measured_history_seeds orjson clock fault applied rows anchors limits source tid batch_size s s1 s2 expected
  (timely : ∀ i j, fltb (fz (maximum_seconds limits)) (fsub (clock j) (clock i)) = false)
  (reliable : ∀ n, fault n = None)
  (Hmeasured : measure_history orjson clock rows anchors limits s = (Ret expected, s1))
  (Hpair : validate_epoch_pair source tid = Ok tt) (Hbatch : 1 <= batch_size <= 1000) (Hempty : sg_target s2 = Target [] 0) :
  ∃ rc s', seed_history orjson clock fault applied rows source tid expected limits batch_size s2 = (Ret rc, s') ∧
    rc_digest rc = se_digest expected ∧ rc_anchors rc = anchors.
Proof.
  unfold measure_history in Hmeasured. apply bind_Ret in Hmeasured as (t & s3 & [= <- <-] & H). apply bind_Ret in H as (a & s4 & [Ha ->]%liftR_Ret & H).
  apply bind_Ret in H as (a' & s5 & (raws & es & Hit & Hr & Hfa & -> & _)%measure_rows_Ret & H). apply bind_Ret in H as ([] & s6 & [Hend ->]%liftR_Ret & H).
  apply bind_Ret in H as (t & s7 & [= <- <-] & H). apply bind_Ret in H as ([digest anchors'] & s8 & [Hf ->]%liftR_Ret & [-> _]%mret_Ret).
  pose proof (accumulator_Ok _ _ _ _ _ Ha) as (Hfr & Hea & Hed & Hli & _). pose proof (finish_Ok _ _ _ _ Hf) as (Han & Hdi & _).
  destruct (knows_all orjson a es raws Hfr Hr Hfa) as (Hkea & _ & Hkli & _). rewrite Hkea, Hea in Han. subst anchors'.
  assert (SHA256_RE digest = true) as Hsha by (rewrite Hdi; apply digest_SHA256_RE).
  set (t' := clock (sg_ticks s2)). set (b := rebase (Some digest) t' a).
  assert (_Accumulator anchors (Some digest) limits t' = Ok b) as Hb by (by eapply accumulator_rebase).
  set (s9 := Seeding (sg_target s2) (S (sg_ticks s2)) (S (sg_calls s2))).
  destruct (seed_target_run orjson clock fault limits timely reliable rows raws es b batch_size tid (digest, anchors) s9) as (rc & s' & Hs);
    try done; [split; [exact Hli|by eexists]|by apply fit_all_rebase| |].
  { intros m. unfold b. rewrite foldl_step_rebase. unfold finish. rewrite (on_time_bound clock limits timely) by (split; [by rewrite <- Hli, <- Hkli|by eexists]).
    rewrite bind_ret. unfold finish in Hf. apply bind_Ok in Hf as ([] & _ & (actual & Hac & ([] & Hc%raise_if_Ok & [= Hsh Hmap])%bind_Ok)%bind_Ok).
    change (anchor_at (rebase (Some digest) t' (foldl step a es))) with (anchor_at (foldl step a es)). rewrite Hac, bind_ret.
    cbn [rebase ac_expected_anchors ac_expected_digest ac_digest]. apply orb_false_iff in Hc as [-> _]. rewrite Hsh, String.eqb_refl. cbn [negb orb raise_if]. by rewrite bind_ret, Hmap. }
  exists rc. pose proof Hs as Hs2. apply (seed_target_Ret orjson clock fault rows b batch_size tid (MkExpectation anchors digest) limits t') in Hs2 as (es' & _ & _ & _ & _ & ->); [|done].
  unfold seed_history. rewrite (bind_val (liftR _) _ s2 tt s2) by (by rewrite Hpair).
  rewrite (bind_val (throw_if _ _ _) _ s2 tt s2) by (rewrite !(proj2 (Z.leb_le _ _)) by lia; done).
  unfold now. rewrite (bind_val (λ s, _) _ s2 t' (Seeding (sg_target s2) (S (sg_ticks s2)) (sg_calls s2))) by done.
  rewrite (bind_val (liftR _) _ _ b (Seeding (sg_target s2) (S (sg_ticks s2)) (sg_calls s2))) by (unfold liftR; cbn [se_anchors se_digest]; by rewrite Hb).
  unfold transaction. rewrite (call_reliable fault reliable). cbn [sg_target sg_ticks sg_calls fst snd]. match goal with |- context [seed_target _ _ _ _ _ _ _ ?st] => change st with s9 end.
  rewrite Hs, reliable. by eexists.
Qed.

(** One bar of each symbol, as the source exports it. *)
Definition bar_fields (symbol : string) : dict :=
  [("schema_version", VStr SCHEMA_VERSION); ("correlation_id", VStr "c"); ("causation_id", VNone); ("produced_at", VStr "2026-09-19T15:43Z");
   ("source", VStr SOURCE); ("contract_version", VStr CONTRACT_VERSION); ("venue", VStr "BINANCE_UM"); ("symbol", VStr symbol);
   ("timeframe", VStr "1m"); ("open_time_ms", VInt 0); ("close_time_ms", VInt 59999); ("open", VInt 1); ("high", VInt 1); ("low", VInt 1);
   ("close", VInt 1); ("base_volume", VInt 0); ("quote_volume", VInt 0); ("taker_buy_base_volume", VInt 0);
   ("taker_buy_quote_volume", VInt 0); ("is_closed", VBool true)].
Definition bar_hash (symbol : string) : string :=
  match _contract_canonical_json None ((λ name, (name, dget name (bar_fields symbol))) <$> BAR_IDENTITY_FIELDS) with
  | Ok text => sha256_hex text | Err _ => "" end.
Definition bar_payload (symbol hash : string) : dict := bar_fields symbol ++ [("message_id", VStr hash); ("bar_sha256", VStr hash)].
Definition exported (symbol hash : string) (stored : string) : list (string * cell) :=
  [("produced_at", CVal (VStr "2026-09-19T15:43:00+00:00")); ("message_id", CVal (VStr hash)); ("topic", CVal (VStr TOPIC));
   ("source", CVal (VStr SOURCE)); ("schema_version", CVal (VStr SCHEMA_VERSION)); ("correlation_id", CVal (VStr "c"));
   ("causation_id", CVal VNone); ("payload", CVal (VDict (bar_payload symbol hash))); ("outbox_count", CVal (VInt 1));
   ("outbox_topic", CVal (VStr TOPIC)); ("outbox_producer", CVal (VStr SOURCE));
   ("outbox_payload", CVal (VDict (bar_payload symbol hash))); ("stored_payload_sha256", CVal (VStr stored))].
Definition stored_hash (symbol hash : string) : string :=
  match canonical_json (VDict (bar_payload symbol hash)) with Ok text => sha256_hex text | Err _ => "" end.
Definition five_rows : source_rows :=
  Eval vm_compute in SourceRows ((λ s, let h := bar_hash s in Some (exported s h (stored_hash s h))) <$> SYMBOLS) (Ok tt).
Definition five_anchors : gmap string Anchor := list_to_map ((λ s, (s, MkAnchor 1 0 0 59999)) <$> SYMBOLS).
Definition a_source : SourceIdentity := MkSource "kairos" "accepted" true true.
Definition a_target : TargetIdentity := MkTarget "kairos_epoch_0123456789ab" "epoch" true true false.
Definition empty_seeding : seeding := Seeding (Target [] 0) 0 0.

Lemma five_rows_measured : ∃ expected s1,
  measure_history None (λ _, fz 0) five_rows five_anchors seed_limits empty_seeding = (Ret expected, s1).
Proof.
  assert (match (measure_history None (λ _, fz 0) five_rows five_anchors seed_limits empty_seeding).1 with Ret _ => true | _ => false end = true)
    as Hr by (vm_compute; reflexivity).
  destruct (measure_history _ _ _ _ _ _) as [[expected|e|] s1]; [eauto|discriminate Hr|discriminate Hr].
Qed.

Lemma measured_history_seeds_witness :
  ∃ expected s1, measure_history None (λ _, fz 0) five_rows five_anchors seed_limits empty_seeding = (Ret expected, s1) ∧
  ∃ rc s', seed_history None (λ _, fz 0) (λ _, None) (λ _, false) five_rows a_source a_target expected seed_limits 2 empty_seeding = (Ret rc, s') ∧
    rc_digest rc = se_digest expected ∧ rc_anchors rc = five_anchors.
Proof.
  destruct five_rows_measured as (expected & s1 & Hm). exists expected, s1. split; [exact Hm|].
  apply (measured_history_seeds None (λ _, fz 0) (λ _, None) (λ _, false) five_rows five_anchors seed_limits a_source a_target 2
           empty_seeding s1 empty_seeding expected); [intros; by vm_compute|done|exact Hm|by vm_compute|lia|done].
Defined.
