(* ===== verification/ColdRedis.v ===== *)
(** * The read-only probe of a cold Redis clone ([scripts/cold_redis_acceptance.py])

    [RESPReader], a RESP2 reader over a socket with a cap on the bytes it
    receives, and [_inspect_stream], which pages through a stream with XRANGE
    and counts the entries that carry one payload, with the worker
    [_observer_worker] around it.  The socket, the clock and the identifiers
    answer as functions of the history.  [parse] bounds its own depth, which is
    its recursion; the loops of [_take], [_line] and the pages take fuel. *)

From stdpp Require Import strings.
From S2P Require Import Prelude PyStr Regex Sha256 PyVal PyTime Json PyBytes Effects RedisAof.

Local Open Scope string_scope.
Local Open Scope list_scope.
Local Open Scope Z_scope.
Local Open Scope regex_scope.

Definition MAX_XRANGE_ENTRIES : Z := 120000.
Definition MAX_XRANGE_BYTES : Z := 128 * 1024 ^ 2.
Definition XRANGE_PAGE_SIZE : Z := 500.

Definition name_char (c : ascii) : bool := is_alnum c || is_any ["."; "_"; ":"; "-"]%char c.
Definition SHA256 : regex := RRep 64 (RChar is_lower_hex).
Definition REDIS_RUN_ID : regex := RRep 40 (RChar is_lower_hex).
Definition STREAM_ID : regex := RRange 1 20 (RChar is_digit) ⋅ RLit "-" ⋅ RRange 1 10 (RChar is_digit).
Definition TOPIC : regex := RRange 1 250 (RChar name_char).
Definition MESSAGE_ID : regex := RRange 1 512 (RChar name_char).

(** ** The outside world *)
Inductive cop :=
  | CClock                               (* time.monotonic() *)
  | CProbeId | CUtcNow                   (* uuid.uuid4().hex, datetime.now(UTC) *)
  | CConnect (timeout : flt) | CSleep (seconds : flt)
  | CSetTimeout (seconds : flt) | CSendall (data : string) | CRecv (size : Z) | CClose.
Definition cres (o : cop) : Type :=
  match o with
  | CClock => flt
  | CProbeId => string
  | CUtcNow => datetime
  | CRecv _ => string
  | _ => unit
  end.

(** The attributes of [RESPReader] that change, and the history. *)
Record conn := Conn { cn_received : Z; cn_buffer : string; cn_hist : list (event cres) }.
Definition clog (e : event cres) (s : conn) : conn := Conn (cn_received s) (cn_buffer s) (cn_hist s ++ [e]).
Definition count_received (data : string) (s : conn) : conn := Conn (cn_received s + slen data) (cn_buffer s) (cn_hist s).
Definition set_buffer (b : string) (s : conn) : conn := Conn (cn_received s) b (cn_hist s).

(** What a reply is to Python: [None], an [int], [bytes], a list. *)
Inductive reply := ReNone | ReInt (z : Z) | ReBytes (b : string) | ReList (l : list reply).

Section Probe.
Context (env : environment cres) (fuel : nat).

Definition cask (o : cop) : M conn (cres o) := perform cres cn_hist clog env o.
Definition cold_error {A} (msg : string) : M conn A := throw ColdRedisError msg.

(** ** [RESPReader] *)
Section Reader.
Context (deadline : flt) (maximum_bytes : Z).

Definition _more : M conn unit :=
  now ← cask CClock;
  let remaining_time := fsub deadline now in
  received ← gets cn_received;
  let remaining_bytes := maximum_bytes - received in
  throw_if (fleb remaining_time (fz 0) || (remaining_bytes <=? 0)) ColdRedisError
    "Redis inspection exceeded its time or response-byte bound";;
  cask (CSetTimeout (fmin (fz 3) remaining_time));;
  data ← cask (CRecv (Z.min (64 * 1024) (remaining_bytes + 1)));
  throw_if (String.eqb data "") ColdRedisError "Redis inspection response ended unexpectedly";;
  modify (count_received data);;
  received ← gets cn_received;
  throw_if (maximum_bytes <? received) ColdRedisError "Redis inspection exceeded its response-byte bound";;
  modify (λ s, set_buffer (cn_buffer s +:+ data) s).

Definition _take (count : Z) : M conn string :=
  while fuel (gets (λ s, slen (cn_buffer s) <? count)) (_more;; mret None)
    (buffer ← gets cn_buffer;
     modify (set_buffer (sdrop (Z.to_nat count) buffer));;
     mret (stake (Z.to_nat count) buffer)).

Definition _line : M conn string :=
  while fuel (mret true)
    (buffer ← gets cn_buffer;
     match find_crlf buffer with
     | Some (line, rest) => modify (set_buffer rest);; mret (Some line)
     | None => _more;; mret None
     end)
    (throw AssertionError "unreachable").

(** [int(line)] with the error that its [ValueError] becomes *)
Definition int_or (msg : string) : M conn Z :=
  line ← _line;
  liftR (catch (λ c, bool_decide (c = ValueError)) (int_of_bytes line) (λ _, raise ColdRedisError msg)).

Definition parse_bulk : M conn reply :=
  length ← int_or "Redis bulk response length is malformed";
  if length =? -1 then mret ReNone
  else
    throw_if ((length <? 0) || (maximum_bytes <? length)) ColdRedisError "Redis bulk response length is outside its bound";;
    value ← _take (length + 2);
    let n := Z.to_nat length in
    throw_if (negb (String.eqb (sdrop n value) CRLF)) ColdRedisError "Redis bulk response terminator is malformed";;
    mret (ReBytes (stake n value)).

(** [parse] at depth [9 - levels] *)
Fixpoint parse (levels : nat) : M conn reply :=
  match levels with
  | O => cold_error "Redis response nesting exceeded its bound"
  | S levels =>
      prefix ← _take 1;
      if bool_decide (prefix ∈ ["+"; "-"; ":"]) then
        line ← _line;
        if String.eqb prefix "-" then cold_error "Redis returned an error for a read-only probe"
        else if String.eqb prefix ":" then
          n ← liftR (catch (λ c, bool_decide (c = ValueError)) (int_of_bytes line)
                       (λ _, raise ColdRedisError "Redis integer response is malformed"));
          mret (ReInt n)
        else mret (ReBytes line)
      else if String.eqb prefix "$" then parse_bulk
      else if String.eqb prefix "*" then
        count ← int_or "Redis array count is malformed";
        if count =? -1 then mret ReNone
        else
          throw_if ((count <? 0) || (MAX_XRANGE_ENTRIES * 8 + 16 <? count)) ColdRedisError "Redis array count is outside its bound";;
          items ← mapM (λ _, parse levels) (seq 0 (Z.to_nat count));
          mret (ReList items)
      else cold_error "Redis response type is unsupported"
  end.
End Reader.

Definition bulk (part : string) : string := "$" +:+ dec_of_Z (slen part) +:+ CRLF +:+ part +:+ CRLF.
Definition encode_command (parts : list string) : string :=
  "*" +:+ dec_of_Z (Z.of_nat (length parts)) +:+ CRLF +:+ sconcat (bulk <$> parts).

Definition _resp_command (deadline : flt) (maximum_bytes : Z) (parts : list string) : M conn reply :=
  encoded ← liftR (mapR encode_utf8 parts);
  cask (CSendall (encode_command encoded));;
  parse deadline maximum_bytes 9.

(** [None] where the bytes are no UTF-8; only [bytes] has a method [decode]. *)
Definition _decode (r : reply) : result (option string) :=
  match r with
  | ReNone => Ok None
  | ReBytes b => Ok (if utf8_ok b then Some b else None)
  | _ => raise AttributeError "decode"
  end.

Definition _canonical (v : value) : result string := text ← json_dumps canonical_style v; encode_utf8 text.

(** ** [_inspect_stream] *)
Section Inspect.
Context (topic message_id payload_sha256 : string) (deadline : flt) (include_evidence : bool).

Definition json_error (c : exc_class) : bool := bool_decide (c ∈ [UnicodeDecodeError; JSONDecodeError]).
Definition canonical_error (c : exc_class) : bool := bool_decide (c ∈ [TypeError; ValueError; UnicodeEncodeError]).

(** Is this the payload looked for? *)
Definition payload_accepted (data : string) : result bool :=
  payload ← catch json_error (Some <$> json_loads_bytes data) (λ _, Ok None);
  match payload with
  | Some (VDict d) =>
      if py_eq (dget "message_id" d) (VStr message_id) then
        digest ← catch canonical_error (text ← _canonical (VDict d); Ok (Some (sha256_hex text))) (λ _, Ok None);
        Ok (bool_decide (digest = Some payload_sha256))
      else Ok false
  | _ => Ok false
  end.

(** The values of the fields named [data]; the list is even. *)
Fixpoint data_fields (fields : list reply) : result (list reply) :=
  match fields with
  | name :: v :: fields =>
      name ← _decode name;
      rest ← data_fields fields;
      Ok (if bool_decide (name = Some "data") then v :: rest else rest)
  | _ => Ok []
  end.

Definition entry_id (entry : reply) : result (string * reply) :=
  match entry with
  | ReList [ReBytes raw; fields] =>
      if utf8_ok raw && fullmatch STREAM_ID raw then Ok (raw, fields) else raise ColdRedisError "Redis stream ID is malformed"
  | _ => raise ColdRedisError "Redis stream entry shape differs"
  end.

Definition fields_accepted (fields : reply) : result bool :=
  match fields with
  | ReList fields =>
      _ ← raise_if (Nat.odd (length fields)) ColdRedisError "Redis stream fields are malformed";
      data ← data_fields fields;
      match data with [ReBytes data] => payload_accepted data | _ => Ok false end
  | _ => raise ColdRedisError "Redis stream fields are malformed"
  end.

(** The local variables of the scan; [sc_received] is [received_total]. *)
Record scan := Scan { sc_cursor : string; sc_scanned : Z; sc_matches : list string; sc_received : Z; sc_complete : bool }.

Definition scan_entry (s : scan) (entry : reply) : result scan :=
  '(id, fields) ← entry_id entry;
  accepted ← fields_accepted fields;
  Ok (Scan id (sc_scanned s + 1) (if accepted : bool then sc_matches s ++ [id] else sc_matches s) (sc_received s) (sc_complete s)).

Definition set_received (n : Z) (s : scan) : scan := Scan (sc_cursor s) (sc_scanned s) (sc_matches s) n (sc_complete s).
Definition set_complete (s : scan) : scan := Scan (sc_cursor s) (sc_scanned s) (sc_matches s) (sc_received s) true.

Definition page_size (s : scan) : Z := Z.min XRANGE_PAGE_SIZE (MAX_XRANGE_ENTRIES - sc_scanned s).
Definition minimum (s : scan) : string := if String.eqb (sc_cursor s) "-" then "-" else "(" +:+ sc_cursor s.

(** One iteration of the page loop: [inr] to go on. *)
Definition scan_page (s : scan) : M conn (scan + scan) :=
  let count := page_size s in
  reply ← _resp_command deadline MAX_XRANGE_BYTES ["XRANGE"; topic; minimum s; "+"; "COUNT"; dec_of_Z count];
  received ← gets cn_received;
  let s := set_received received s in
  match reply with
  | ReList entries =>
      let n := Z.of_nat (length entries) in
      throw_if (count <? n) ColdRedisError "Redis XRANGE response shape or count differs";;
      if n =? 0 then mret (inl (set_complete s))
      else
        s ← liftR (foldR scan_entry s entries);
        if (1 <? length (sc_matches s))%nat then mret (inl s)
        else if n <? count then mret (inl (set_complete s))
        else mret (inr s)
  | _ => cold_error "Redis XRANGE response shape or count differs"
  end.

Fixpoint scan_pages (pages : nat) (s : scan) : M conn scan :=
  match pages with
  | O => λ w, (Fuel, w)
  | S pages =>
      if sc_scanned s <? MAX_XRANGE_ENTRIES then
        r ← scan_page s;
        match r with inl s => mret s | inr s => scan_pages pages s end
      else mret s
  end.
(** Every page that does not end the scan is full. *)
Definition PAGES : nat := 241.

(** [line.partition(":")[2].strip()] of the first line that begins with [run_id:] *)
Definition run_id_line (lines : list string) : option string :=
  match filter (λ l, startswith "run_id:" l = true) lines with
  | l :: _ => Some (strip (sdrop 7 l))
  | [] => None
  end.

Definition read_run_id : M conn string :=
  info ← _resp_command deadline MAX_XRANGE_BYTES ["INFO"; "server"];
  text ← liftR (_decode info);
  match text with
  | None => cold_error "Redis server identity response is malformed"
  | Some text =>
      match run_id_line (splitlines text) with
      | Some run_id => if fullmatch REDIS_RUN_ID run_id then mret run_id else cold_error "isolated Redis clone run_id is malformed"
      | None => cold_error "isolated Redis clone run_id is malformed"
      end
  end.

Definition verdict (s : scan) : string :=
  if (1 <? length (sc_matches s))%nat then "CONFLICT"
  else if sc_complete s && (length (sc_matches s) =? 1)%nat then "POSITIVE_ACCEPTED"
  else if sc_complete s then "INCONCLUSIVE_ZERO_MATCH"
  else "INCONCLUSIVE_SCAN_LIMIT".

(** The loop that waits for the server: is there a connection? *)
Definition wait_for_server (connect_deadline : flt) : M conn bool :=
  while fuel (now ← cask CClock; mret (fltb now connect_deadline))
    (try_except os_error
       (now ← cask CClock;
        cask (CConnect (fmin (fz 3) (fmax (float_of_dec false 1 (-1)) (fsub connect_deadline now))));;
        mret (Some true))
       (λ _, cask (CSleep (float_of_dec false 2 (-1)));; mret None))
    (mret false).

Definition probe_connected : M conn (string * scan) :=
  try_finally
    (run_id ← read_run_id;
     s ← scan_pages PAGES (Scan "-" 0 [] 0 false);
     mret (run_id, s))
    (cask CClose).

Definition probe : M conn (string * scan) :=
  try_except os_error
    (now ← cask CClock;
     connected ← wait_for_server (fmin deadline (fadd now (fz 10)));
     if (connected : bool) then probe_connected else cold_error "isolated Redis clone did not become ready")
    (λ _, cold_error "isolated Redis read-only inspection failed or timed out").

Definition utc_text (d : datetime) : string := replace_str "+00:00" "Z" (isoformat d).

Definition inspection_result (probe_run_id probed_at_utc run_id : string) (s : scan) : dict :=
  let state := verdict s in
  let n := length (sc_matches s) in
  [("state", VStr state); ("redis_server_run_id", VStr run_id); ("probe_run_id", VStr probe_run_id);
   ("probed_at_utc", VStr probed_at_utc); ("topic", VStr topic); ("message_id", VStr message_id);
   ("canonical_payload_sha256", VStr payload_sha256);
   ("match_count", if sc_complete s || (1 <? n)%nat then VInt (Z.of_nat n) else VNone);
   ("stream_ids", VList (VStr <$> take 16 (sc_matches s))); ("entries_scanned", VInt (sc_scanned s));
   ("scan_complete", VBool (sc_complete s)); ("response_bytes", VInt (sc_received s));
   ("xrange_limit", VInt MAX_XRANGE_ENTRIES); ("xrange_response_bytes_limit", VInt MAX_XRANGE_BYTES)]
  ++ (if String.eqb state "POSITIVE_ACCEPTED" && include_evidence then
        [("evidence", VDict [("schema", VStr "kairos.redis-acceptance-evidence.v1"); ("redis_server_run_id", VStr run_id);
           ("probe_run_id", VStr probe_run_id); ("probed_at_utc", VStr probed_at_utc); ("topic", VStr topic);
           ("message_id", VStr message_id); ("canonical_payload_sha256", VStr payload_sha256); ("match_count", VInt 1);
           ("stream_ids", VList (VStr <$> sc_matches s))])]
      else []).

Definition _inspect_stream : M conn dict :=
  probe_run_id ← cask CProbeId;
  now ← cask CUtcNow;
  '(run_id, s) ← probe;
  mret (inspection_result probe_run_id (utc_text now) run_id s).
End Inspect.

(** ** [_observer_worker]: the printed record and the exit status *)
Definition matched (r : regex) (v : value) : option string :=
  match v with VStr s => if fullmatch r s then Some s else None | _ => None end.

(** The argument is what [_read_json] answers. *)
Definition _observer_worker (config : result dict) : M conn (dict * Z) :=
  try_except is_exception
    (config ← liftR config;
     match matched TOPIC (dget "topic" config), matched MESSAGE_ID (dget "message_id" config),
           matched SHA256 (dget "canonical_payload_sha256" config), dgetd "historical_rdb_only" (VBool false) config with
     | Some topic, Some message_id, Some payload_sha256, VBool historical_rdb_only =>
         now ← cask CClock;
         result ← _inspect_stream topic message_id payload_sha256 (fadd now (fz 150)) (negb historical_rdb_only);
         mret (result, 0)
     | _, _, _, _ => cold_error "observer target metadata is invalid"
     end)
    (λ _, mret ([("state", VStr "OBSERVER_REJECTED"); ("error", VStr "bounded Redis read-only probe failed")], 1)).
End Probe.
