(* ===== verification/ColdRedisSpec.v ===== *)
(** * The probe of a cold Redis clone: what it reads and what it concludes ([ColdRedis])

    A server that answers every command with the encoding of its reply, handed
    over in any pieces, is read back exactly; the verdict on a stream is that of
    its first 120000 entries; and whatever answers, the probe sends reads only
    and ends. *)

From Stdlib Require Import Sorting.Sorted.
From stdpp Require Import strings sorting.
From S2P Require Import Prelude PyStr Regex Sha256 PyVal PyTime Json PyBytes Effects RedisAof RedisAofSpec ColdRedis.

Local Open Scope string_scope.
Local Open Scope list_scope.
Local Open Scope Z_scope.

(** ** Numerals read from bytes *)
Lemma lstrip_head p c s : p c = false → lstrip_c p (String c s) = String c s.
Proof. intros H. cbn. by rewrite H. Qed.

Lemma rstrip_none p s : sall (λ c, negb (p c)) s = true → rstrip_c p s = s.
Proof.
  induction s as [|c s IH]; [done|]. cbn. intros [Hc Hs]%andb_true_iff. rewrite (IH Hs). apply negb_true_iff in Hc.
  rewrite Hc. by destruct s.
Qed.

Lemma digit_not_space c : is_digit c = true → byte_space c = false.
Proof.
  unfold is_digit, in_range, byte_space, byte_in, is_one. rewrite andb_true_iff, !Z.leb_le.
  change (ord "0") with 48. change (ord "9") with 57. intros [H1 H2].
  apply orb_false_iff. split; [|apply Ascii.eqb_neq; intros <-; change (ord " ") with 32 in *; lia].
  apply andb_false_iff. right. apply Z.leb_gt. lia.
Qed.

Definition signed (neg : bool) (s : string) : string := if neg then String "-" s else s.

Lemma int_of_bytes_signed neg s :
  sall is_digit s = true → s ≠ EmptyString → slen s <= 4300 →
  int_of_bytes (signed neg s) = Ok (if neg then - dec_val s else dec_val s).
Proof.
  intros Hd Hne Hl. unfold int_of_bytes.
  assert (sall (λ c, negb (byte_space c)) (signed neg s) = true) as Hsp.
  { assert (sall (λ c, negb (byte_space c)) s = true) by (eapply sall_impl; [|exact Hd]; intros a Ha; by rewrite digit_not_space).
    by destruct neg. }
  assert (lstrip_c byte_space (signed neg s) = signed neg s) as ->.
  { destruct (signed neg s) as [|c t]; [done|]. cbn in Hsp. apply andb_true_iff in Hsp as [Hc%negb_true_iff _]. by apply lstrip_head. }
  rewrite rstrip_none by done.
  replace (match signed neg s with String "-" t => (true, t) | String "+" t => (false, t) | _ => (false, signed neg s) end) with (neg, s).
  2:{ destruct neg; [done|]. destruct s as [|c s]; [done|]. cbn [sall] in Hd. apply andb_true_iff in Hd as [Hc _].
      by destruct c as [[] [] [] [] [] [] [] []]. }
  rewrite split_on_free.
  - cbn [forallb sconcat foldr]. apply String.eqb_neq in Hne.
    rewrite app_nil_r_str, Hd, Hne. cbn [negb andb]. by rewrite (proj2 (Z.ltb_ge _ _)) by lia.
  - eapply sall_impl; [|exact Hd]. intros a Ha. apply negb_true_iff, Ascii.eqb_neq. by intros ->.
Qed.

Lemma dec_of_Z_nonempty n : 0 <= n → dec_of_Z n ≠ EmptyString.
Proof. intros H. by destruct (canonical_dec_digits _ (dec_of_Z_canonical n H)). Qed.

Lemma int_of_bytes_dec z : slen (dec_of_Z (Z.abs z)) <= 4300 → int_of_bytes (dec_of_Z z) = Ok z.
Proof.
  intros Hl. assert (dec_of_Z z = signed (z <? 0) (dec_of_Z (Z.abs z))) as -> by by destruct z.
  rewrite int_of_bytes_signed; [|apply dec_of_Z_digits; lia|apply dec_of_Z_nonempty; lia|done].
  rewrite dec_of_Z_val by lia. f_equal. destruct (Z.ltb_spec z 0); lia.
Qed.

Lemma dec_free_cr z : free_of "013" (dec_of_Z z) = true.
Proof.
  assert (dec_of_Z z = signed (z <? 0) (dec_of_Z (Z.abs z))) as -> by by destruct z.
  assert (free_of "013" (dec_of_Z (Z.abs z)) = true) by (apply digit_free_cr, dec_of_Z_digits; lia). by destruct (z <? 0).
Qed.

(** ** Text that encodes *)
Lemma utf8_ascii s : isascii s = true → utf8_ok s = true.
Proof.
  induction s as [|c s IH]; [done|]. unfold isascii. cbn [sall utf8_ok]. intros [Hc Hs]%andb_true_iff.
  unfold is_ascii7 in Hc. rewrite Hc. by apply IH.
Qed.

Lemma encode_parts parts : Forall (λ p, utf8_ok p = true) parts → mapR encode_utf8 parts = Ok parts.
Proof. induction 1 as [|p parts Hp _ IH]; [done|]. cbn [mapR].
  assert (encode_utf8 p = Ok p) as -> by (unfold encode_utf8; by rewrite Hp). rewrite bind_ret. by rewrite IH.
Qed.

Lemma ascii_dec z : 0 <= z → isascii (dec_of_Z z) = true.
Proof. intros H. eapply sall_impl; [apply is_digit_ascii|]. by apply dec_of_Z_digits. Qed.

Lemma stream_id_chars id : fullmatch STREAM_ID id = true → isascii id = true ∧ utf8_ok id = true.
Proof.
  intros H. assert (isascii id = true) as Ha; [|by split; [|apply utf8_ascii]].
  refine (fullmatch_chars is_ascii7 _ id _ H). by vm_compute.
Qed.

(** ** Strings that agree on a prefix *)
Lemma app_eq_prefix (x y a b : string) :
  x +:+ y = a +:+ b → (String.length a <= String.length x)%nat → ∃ c, x = a +:+ c ∧ b = c +:+ y.
Proof.
  revert x; induction a as [|k a IH]; intros x He Hl; [by exists x|].
  destruct x as [|k' x]; [cbn in Hl; lia|]. injection He as -> He. cbn in Hl.
  destruct (IH x He ltac:(lia)) as (c & -> & ->). by exists c.
Qed.

Lemma find_crlf_app s t a b : find_crlf s = Some (a, b) → find_crlf (s +:+ t) = Some (a, b +:+ t).
Proof.
  revert a b; induction s as [|c s IH]; intros a b; [done|]. rewrite find_crlf_cons.
  change (String c s +:+ t) with (String c (s +:+ t)). rewrite find_crlf_cons.
  destruct (startswith CRLF (String c s)) eqn:E.
  - apply prefix_app in E as [u Hu]. rewrite Hu. change (String c (s +:+ t)) with (String c s +:+ t). rewrite Hu.
    intros [= <- <-]. by rewrite <- app_assoc_str, startswith_app.
  - destruct (find_crlf s) as [[h r]|] eqn:F; [|done]. specialize (IH _ _ eq_refl). intros H. cbn in H.
    assert (a = String c h ∧ b = r) as [-> ->] by (split; congruence).
    destruct (startswith CRLF (String c (s +:+ t))) eqn:E'; [|by rewrite IH].
    exfalso. apply prefix_app in E' as [u Hu]. destruct s as [|c' s]; [done|]. injection Hu as -> -> Hu. by destruct s; vm_compute in E.
Qed.

(** ** RESP2 *)
Inductive wire := WLine (s : string) | WNum (z : Z) | WBulk (s : string) | WNoBulk | WNoArray | WArray (l : list wire).

Fixpoint encode (w : wire) : string :=
  match w with
  | WLine s => "+" +:+ s +:+ CRLF
  | WNum z => ":" +:+ dec_of_Z z +:+ CRLF
  | WBulk s => bulk s
  | WNoBulk => "$-1" +:+ CRLF
  | WNoArray => "*-1" +:+ CRLF
  | WArray l => "*" +:+ dec_of_Z (Z.of_nat (length l)) +:+ CRLF +:+ sconcat (map encode l)
  end.

Fixpoint value_of (w : wire) : reply :=
  match w with
  | WLine s | WBulk s => ReBytes s
  | WNum z => ReInt z
  | WNoBulk | WNoArray => ReNone
  | WArray l => ReList (map value_of l)
  end.

(** What the reader takes at [levels] levels of nesting and [maximum] bytes. *)
Fixpoint wire_ok (maximum : Z) (levels : nat) (w : wire) : Prop :=
  match levels with
  | O => False
  | S levels =>
      match w with
      | WLine s => free_of "013" s = true
      | WNum z => slen (dec_of_Z (Z.abs z)) <= 4300
      | WBulk s => slen s <= maximum
      | WNoBulk | WNoArray => True
      | WArray l => Z.of_nat (length l) <= MAX_XRANGE_ENTRIES * 8 + 16 ∧ Forall (wire_ok maximum levels) l
      end
  end.

Fixpoint wire_okb (maximum : Z) (levels : nat) (w : wire) : bool :=
  match levels with
  | O => false
  | S levels =>
      match w with
      | WLine s => free_of "013" s
      | WNum z => slen (dec_of_Z (Z.abs z)) <=? 4300
      | WBulk s => slen s <=? maximum
      | WNoBulk | WNoArray => true
      | WArray l => (Z.of_nat (length l) <=? MAX_XRANGE_ENTRIES * 8 + 16) && forallb (wire_okb maximum levels) l
      end
  end.
Lemma wire_okb_true maximum levels w : wire_okb maximum levels w = true → wire_ok maximum levels w.
Proof.
  revert w; induction levels as [|levels IH]; intros w; [done|]. destruct w as [s|z|s| | |l]; cbn [wire_okb wire_ok]; rewrite ?Z.leb_le; try done.
  rewrite andb_true_iff, Z.leb_le, forallb_forall. intros [H1 H2]. split; [done|]. apply Forall_forall. intros w Hw. apply IH, H2, list_elem_of_In, Hw.
Qed.

(** ** Steps of a run *)
Section Steps.
Context {S : Type}.
Lemma bind_gets {A B} (f : S → A) (g : A → M S B) s : (gets f ≫= g) s = g (f s) s.
Proof. done. Qed.
Lemma bind_modify {B} (f : S → S) (g : unit → M S B) s : (modify f ≫= g) s = g tt (f s).
Proof. done. Qed.
Lemma bind_pass {B} b cls msg (g : unit → M S B) s : b = false → (throw_if b cls msg ≫= g) s = g tt s.
Proof. by intros ->. Qed.
Lemma bind_liftR_ok {A B} (a : A) (g : A → M S B) s : (liftR (Ok a) ≫= g) s = g a s.
Proof. done. Qed.
Lemma post_try_out {A} (P : S → Prop) (Q : out A → S → Prop) cs (m : M S A) h :
  post P m Q → (∀ e, post (Q (Exn e)) (h e) Q) → post P (try_except cs m h) Q.
Proof.
  intros Hm Hh s Hs. specialize (Hm s Hs). unfold try_except. destruct (m s) as [[a|e|] s1]; [done| |done].
  destruct (cs (exc_cls e)); [exact (Hh e s1 Hm)|done].
Qed.
Lemma bind_assoc_run {A B C} (m : M S A) (f : A → M S B) (g : B → M S C) s : ((m ≫= f) ≫= g) s = (m ≫= λ a, f a ≫= g) s.
Proof. unfold mbind, M_bind. by destruct (m s) as [[]]. Qed.
Lemma bind_liftR {A B} r (a : A) (g : A → M S B) s : r = Ok a → (liftR r ≫= g) s = g a s.
Proof. by intros ->. Qed.
End Steps.

(** ** What the server still owes *)
Section Honest.
Context (env : environment cres) (serve : string → string) (fuel : nat) (deadline : flt) (maximum : Z).

(** The bytes sent in answer to the requests so far, less those received. *)
Definition settle (acc : string) (e : event cres) : string :=
  match e with
  | Ev o r =>
      match o return result (cres o) → string with
      | CSendall data => λ r, match r with Ok _ => acc +:+ serve data | Err _ => acc end
      | CRecv _ => λ r, match r with Ok data => sdrop (String.length data) acc | Err _ => acc end
      | _ => λ _, acc
      end r
  end.
Definition owed (h : list (event cres)) : string := foldl settle EmptyString h.

(** A server that hands over what it owes, piece by piece, before the deadline. *)
Record honest : Prop := {
  honest_clock h : ∃ t, env h CClock = Ok t ∧ fleb (fsub deadline t) (fz 0) = false;
  honest_timeout h f : env h (CSetTimeout f) = Ok tt;
  honest_send h data : env h (CSendall data) = Ok tt;
  honest_recv h n : owed h ≠ EmptyString → 0 < n →
    ∃ data rest, env h (CRecv n) = Ok data ∧ data ≠ EmptyString ∧ slen data <= n ∧ owed h = data +:+ rest;
  honest_close h : env h CClose = Ok tt;
}.
Context (Hh : honest) (Hfuel : (Z.to_nat maximum < fuel)%nat).

Definition to_read_at (s : conn) : string := cn_buffer s +:+ owed (cn_hist s).
(** [d] bytes are received or due. *)
Definition due_at (d : Z) (s : conn) : Prop := 0 <= cn_received s ∧ cn_received s + slen (owed (cn_hist s)) = d ∧ d <= maximum.

Lemma socket_owed_snoc h e : owed (h ++ [e]) = settle (owed h) e.
Proof. unfold owed. by rewrite foldl_app. Qed.

Lemma cask_val (o : cop) a s : env (cn_hist s) o = Ok a → cask env o s = (Ret a, clog (Ev o (Ok a)) s).
Proof. intros H. unfold cask, perform. by rewrite H. Qed.

Lemma more_honest d s :
  owed (cn_hist s) ≠ EmptyString → due_at d s →
  ∃ s', _more env deadline maximum s = (Ret tt, s') ∧ to_read_at s' = to_read_at s ∧ due_at d s' ∧
        slen (owed (cn_hist s')) < slen (owed (cn_hist s)).
Proof.
  intros Ho (H0 & Hd & Hm). unfold _more.
  assert (0 < slen (owed (cn_hist s))) as Hpos by (destruct (owed (cn_hist s)); [done|rewrite slen_cons; pose proof (slen_nonneg s0); lia]).
  destruct (honest_clock Hh (cn_hist s)) as (t & Ht & Hlate). rewrite (bind_val _ _ _ _ _ (cask_val CClock t s Ht)).
  set (s1 := clog _ s). 
  rewrite bind_gets, bind_pass by (rewrite Hlate; apply Z.leb_gt; change (cn_received s1) with (cn_received s); lia).
  rewrite (bind_val _ _ _ _ _ (cask_val (CSetTimeout _) tt s1 (honest_timeout Hh _ _))). set (s2 := clog _ s1).
  assert (owed (cn_hist s2) = owed (cn_hist s)) as Hs2 by (cbn; by rewrite !socket_owed_snoc).
  destruct (honest_recv Hh (cn_hist s2) (Z.min (64 * 1024) (maximum - cn_received s + 1))) as (data & rest & Hr & Hne & Hlen & Heq);
    [by rewrite Hs2|lia|].
  change (cn_received s1) with (cn_received s). rewrite (bind_val _ _ _ _ _ (cask_val (CRecv _) data s2 Hr)). set (s3 := clog _ s2).
  rewrite bind_pass by by apply String.eqb_neq. rewrite bind_modify, bind_gets. set (s4 := count_received data s3).
  rewrite Hs2 in Heq. assert (slen (owed (cn_hist s)) = slen data + slen rest) as Hsl by by rewrite Heq, slen_app.
  pose proof (slen_nonneg rest). rewrite bind_pass by (apply Z.ltb_ge; change (cn_received s4) with (cn_received s + slen data); lia).
  assert (owed (cn_hist s4) = rest) as Hs4 by (unfold s4, s3; cbn [cn_hist clog count_received]; rewrite socket_owed_snoc; unfold settle; by rewrite Hs2, Heq, sdrop_app).
  eexists. split; [reflexivity|]. unfold to_read_at, due_at. cbn [cn_hist cn_buffer cn_received set_buffer].
  rewrite Hs4, Heq. cbn [cn_buffer s4 s3 s2 s1 count_received clog cn_received].
  split_and!; [by rewrite <- app_assoc_str|pose proof (slen_nonneg data); lia|lia|done|].
  rewrite slen_app. destruct data; [done|]. rewrite slen_cons. pose proof (slen_nonneg data). lia.
Qed.

Lemma due_length d s : due_at d s → (String.length (owed (cn_hist s)) < fuel)%nat.
Proof. intros (H0 & Hd & Hm). unfold slen in Hd. lia. Qed.

(** Reading on until the buffer holds what is waited for. *)
Lemma take_honest d s a rest :
  due_at d s → to_read_at s = a +:+ rest →
  ∃ s', _take env fuel deadline maximum (slen a) s = (Ret a, s') ∧ due_at d s' ∧ to_read_at s' = rest.
Proof.
  unfold _take. intros Hd. pose proof (due_length d s Hd) as Hf. revert s Hd Hf.
  generalize fuel as f; induction f as [|f IH]; intros s Hd Hf He; [lia|]. cbn [while].
  rewrite bind_gets. destruct (Z.ltb_spec (slen (cn_buffer s)) (slen a)) as [Hlt|Hge].
  - destruct (more_honest d s) as (s' & Hm & Hr & Hd' & Hl); [|done|].
    { intros Ho. unfold to_read_at in He. rewrite Ho, app_nil_r_str in He. rewrite He, slen_app in Hlt. pose proof (slen_nonneg rest). lia. }
    rewrite (bind_val (_more env deadline maximum ≫= _) _ s None s') by by rewrite (bind_val _ _ _ _ _ Hm).
    apply IH; [done|unfold slen in Hl; lia|congruence].
  - apply app_eq_prefix in He as (c & Hb & Hc); [|unfold slen in Hge; lia].
    rewrite bind_gets, bind_modify. replace (Z.to_nat (slen a)) with (String.length a) by (unfold slen; lia).
    rewrite Hb, sdrop_app, stake_app. eexists. split; [reflexivity|]. split; [done|]. by rewrite Hc.
Qed.

Lemma line_honest d s l rest :
  due_at d s → free_of "013" l = true → to_read_at s = l +:+ CRLF +:+ rest →
  ∃ s', _line env fuel deadline maximum s = (Ret l, s') ∧ due_at d s' ∧ to_read_at s' = rest.
Proof.
  intros Hd Hl. unfold _line. pose proof (due_length d s Hd) as Hf. revert s Hd Hf.
  generalize fuel as f; induction f as [|f IH]; intros s Hd Hf He; [lia|]. cbn [while].
  rewrite (bind_val (mret true) _ s true s eq_refl), bind_assoc_run, bind_gets.
  destruct (find_crlf (cn_buffer s)) as [[x y]|] eqn:E.
  - rewrite bind_assoc_run, bind_modify. apply (find_crlf_app _ (owed (cn_hist s))) in E. fold (to_read_at s) in E.
    rewrite He, find_crlf_free in E by done. injection E as <- Hy. eexists. split; [reflexivity|]. split; [done|]. by rewrite Hy.
  - destruct (more_honest d s) as (s' & Hm & Hr & Hd' & Hlt); [|done|].
    { intros Ho. unfold to_read_at in He. rewrite Ho, app_nil_r_str in He. by rewrite He, find_crlf_free in E. }
    rewrite bind_assoc_run, (bind_val _ _ _ _ _ Hm). apply IH; [done|unfold slen in Hlt; lia|congruence].
Qed.

Lemma int_honest d s msg z rest :
  due_at d s → slen (dec_of_Z (Z.abs z)) <= 4300 → to_read_at s = dec_of_Z z +:+ CRLF +:+ rest →
  ∃ s', int_or env fuel deadline maximum msg s = (Ret z, s') ∧ due_at d s' ∧ to_read_at s' = rest.
Proof.
  intros Hd Hz He. destruct (line_honest d s _ _ Hd (dec_free_cr z) He) as (s' & Hl & Hd' & Hr).
  exists s'. split; [|done]. unfold int_or. by rewrite (bind_val _ _ _ _ _ Hl), int_of_bytes_dec.
Qed.

Lemma bulk_honest d s b rest :
  due_at d s → slen b <= maximum → maximum < 10 ^ 19 → to_read_at s = dec_of_Z (slen b) +:+ CRLF +:+ b +:+ CRLF +:+ rest →
  ∃ s', parse_bulk env fuel deadline maximum s = (Ret (ReBytes b), s') ∧ due_at d s' ∧ to_read_at s' = rest.
Proof.
  intros Hd Hb Hmx He. pose proof (slen_nonneg b) as Hp.
  destruct (int_honest d s "Redis bulk response length is malformed" (slen b) _ Hd ltac:(rewrite Z.abs_eq by lia; pose proof (dec_of_Z_len (slen b) 19 ltac:(lia) ltac:(lia)); lia) He)
    as (s1 & Hi & Hd1 & He1).
  rewrite app_assoc_str in He1. destruct (take_honest d s1 (b +:+ CRLF) rest Hd1 He1) as (s2 & Ht & Hd2 & He2).
  exists s2. split; [|done]. unfold parse_bulk. rewrite (bind_val _ _ _ _ _ Hi).
  rewrite (proj2 (Z.eqb_neq _ _)) by lia. rewrite bind_pass by (apply orb_false_iff; split; apply Z.ltb_ge; lia).
  rewrite slen_app in Ht. change (slen CRLF) with 2 in Ht. rewrite (bind_val _ _ _ _ _ Ht).
  replace (Z.to_nat (slen b)) with (String.length b) by (unfold slen; lia).
  rewrite sdrop_app, stake_app, bind_pass by done. done.
Qed.

Definition reads_back (levels : nat) (w : wire) : Prop := ∀ d s rest,
  due_at d s → to_read_at s = encode w +:+ rest →
  ∃ s', parse env fuel deadline maximum levels s = (Ret (value_of w), s') ∧ due_at d s' ∧ to_read_at s' = rest.

Lemma items_honest levels l d s rest :
  Forall (reads_back levels) l → due_at d s → to_read_at s = sconcat (map encode l) +:+ rest → ∀ k,
  ∃ s', mapM (λ _, parse env fuel deadline maximum levels) (seq k (length l)) s = (Ret (map value_of l), s') ∧ due_at d s' ∧ to_read_at s' = rest.
Proof.
  intros Hl. revert s; induction Hl as [|w l Hw Hl IH]; intros s Hd He k; [by exists s|].
  cbn [map sconcat foldr] in He. rewrite <- app_assoc_str in He.
  destruct (Hw d s _ Hd He) as (s1 & Hp & Hd1 & He1). destruct (IH s1 Hd1 He1 (S k)) as (s2 & Hm & Hd2 & He2).
  exists s2. split; [|done]. cbn [length seq mapM map]. by rewrite (bind_val _ _ _ _ _ Hp), (bind_val _ _ _ _ _ Hm).
Qed.

(** The branch of [parse] that a known prefix selects. *)
Ltac at_prefix :=
  cbn beta iota;
  repeat match goal with
  | |- context [bool_decide ?P] => let b := eval vm_compute in (bool_decide P) in change (bool_decide P) with b; cbn beta iota
  | |- context [String.eqb (String ?c "") (String ?k "")] => let b := eval vm_compute in (String.eqb (String c "") (String k "")) in
      change (String.eqb (String c "") (String k "")) with b; cbn beta iota
  end.

(** [parse] is the inverse of [encode], however the bytes are cut up. *)
Lemma parse_honest levels w : maximum < 10 ^ 19 → wire_ok maximum levels w → reads_back levels w.
Proof.
  intros Hmx. revert w; induction levels as [|levels IH]; intros w Hw d s rest Hd He; [done|].
  assert (∀ c body, to_read_at s = String c EmptyString +:+ body → ∃ s1, _take env fuel deadline maximum 1 s = (Ret (String c EmptyString), s1) ∧
            due_at d s1 ∧ to_read_at s1 = body) as Hone by (intros c body E; exact (take_honest d s (String c EmptyString) body Hd E)).
  destruct w as [l|z|b| | |l]; cbn [encode wire_ok value_of] in *; cbn [parse].
  - rewrite <- !app_assoc_str in He. destruct (Hone _ _ He) as (s1 & H1 & Hd1 & He1).
    destruct (line_honest d s1 l rest Hd1 Hw He1) as (s2 & H2 & Hd2 & He2). exists s2. split; [|done].
    rewrite (bind_val _ _ _ _ _ H1). at_prefix. by rewrite (bind_val _ _ _ _ _ H2).
  - rewrite <- !app_assoc_str in He. destruct (Hone _ _ He) as (s1 & H1 & Hd1 & He1).
    destruct (line_honest d s1 _ rest Hd1 (dec_free_cr z) He1) as (s2 & H2 & Hd2 & He2). exists s2. split; [|done].
    rewrite (bind_val _ _ _ _ _ H1). at_prefix. rewrite (bind_val _ _ _ _ _ H2). by rewrite int_of_bytes_dec.
  - unfold bulk in He. rewrite <- !app_assoc_str in He. destruct (Hone _ _ He) as (s1 & H1 & Hd1 & He1).
    destruct (bulk_honest d s1 b rest Hd1 Hw Hmx He1) as (s2 & H2 & Hd2 & He2). exists s2. split; [|done].
    rewrite (bind_val _ _ _ _ _ H1). at_prefix. done.
  - change ("$-1" +:+ CRLF) with ("$" +:+ dec_of_Z (-1) +:+ CRLF) in He. rewrite <- !app_assoc_str in He.
    destruct (Hone _ _ He) as (s1 & H1 & Hd1 & He1).
    destruct (int_honest d s1 "Redis bulk response length is malformed" (-1) rest Hd1 ltac:(vm_compute; discriminate) He1) as (s2 & H2 & Hd2 & He2).
    exists s2. split; [|done]. rewrite (bind_val _ _ _ _ _ H1). at_prefix. unfold parse_bulk. by rewrite (bind_val _ _ _ _ _ H2).
  - change ("*-1" +:+ CRLF) with ("*" +:+ dec_of_Z (-1) +:+ CRLF) in He. rewrite <- !app_assoc_str in He.
    destruct (Hone _ _ He) as (s1 & H1 & Hd1 & He1).
    destruct (int_honest d s1 "Redis array count is malformed" (-1) rest Hd1 ltac:(vm_compute; discriminate) He1) as (s2 & H2 & Hd2 & He2).
    exists s2. split; [|done]. rewrite (bind_val _ _ _ _ _ H1). at_prefix. by rewrite (bind_val _ _ _ _ _ H2).
  - destruct Hw as [Hn Hl]. rewrite <- !app_assoc_str in He. destruct (Hone _ _ He) as (s1 & H1 & Hd1 & He1).
    unfold MAX_XRANGE_ENTRIES in Hn.
    destruct (int_honest d s1 "Redis array count is malformed" (Z.of_nat (length l)) _ Hd1
      ltac:(rewrite Z.abs_eq by lia; pose proof (dec_of_Z_len (Z.of_nat (length l)) 19 ltac:(lia) ltac:(lia)); lia) He1) as (s2 & H2 & Hd2 & He2).
    destruct (items_honest levels l d s2 rest ltac:(eapply Forall_impl; [exact Hl|]; intros w; apply IH) Hd2 He2 0%nat) as (s3 & H3 & Hd3 & He3).
    exists s3. split; [|done]. rewrite (bind_val _ _ _ _ _ H1). at_prefix.
    rewrite (bind_val _ _ _ _ _ H2), (proj2 (Z.eqb_neq _ _)) by lia.
    rewrite bind_pass by (apply orb_false_iff; split; apply Z.ltb_ge; unfold MAX_XRANGE_ENTRIES; lia).
    by rewrite Nat2Z.id, (bind_val _ _ _ _ _ H3).
Qed.

Lemma command_honest d s parts w :
  Forall (λ p, utf8_ok p = true) parts → serve (encode_command parts) = encode w → wire_ok maximum 9 w →
  maximum < 10 ^ 19 → due_at d s → to_read_at s = EmptyString → d + slen (encode w) <= maximum →
  ∃ s', _resp_command env fuel deadline maximum parts s = (Ret (value_of w), s') ∧
        due_at (d + slen (encode w)) s' ∧ to_read_at s' = EmptyString ∧ cn_received s' = d + slen (encode w).
Proof.
  intros Hp Hs Hw Hmx Hd He Hb. unfold _resp_command. rewrite (bind_liftR _ _ _ _ (encode_parts _ Hp)).
  rewrite (bind_val _ _ _ _ _ (cask_val (CSendall _) tt s (honest_send Hh _ _))). set (s1 := clog _ s).
  unfold to_read_at in He. assert (cn_buffer s = EmptyString ∧ owed (cn_hist s) = EmptyString) as [Hb0 Ho0].
  { destruct (cn_buffer s); [by split|done]. }
  assert (owed (cn_hist s1) = encode w) as Ho1 by (cbn; by rewrite socket_owed_snoc, Ho0).
  destruct (parse_honest 9 w Hmx Hw (d + slen (encode w)) s1 EmptyString) as (s2 & H2 & Hd2 & He2).
  { destruct Hd as (H0 & H1 & H2). unfold due_at. rewrite Ho1. rewrite Ho0 in H1. cbn in *. change (slen "") with 0 in H1. lia. }
  { unfold to_read_at. rewrite Ho1. cbn. by rewrite Hb0, app_nil_r_str. }
  exists s2. split_and!; [done..|]. destruct Hd2 as (_ & Hr & _). unfold to_read_at in He2.
  destruct (cn_buffer s2); [|done]. cbn in He2. rewrite He2 in Hr. change (slen "") with 0 in Hr. lia.
Qed.
End Honest.

(** ** Streams and their pages *)
Record entry := Entry { e_id : string; e_fields : list (string * string) }.

Definition fields_wire (l : list (string * string)) : wire := WArray (concat ((λ f, [WBulk f.1; WBulk f.2]) <$> l)).
Definition entry_wire (e : entry) : wire := WArray [WBulk (e_id e); fields_wire (e_fields e)].
Definition page_wire (l : list entry) : wire := WArray (entry_wire <$> l).

(** The order of identifiers: by milliseconds, then by sequence number. *)
Definition id_key (id : string) : Z * Z := match split_once "-" id with Some (a, b) => (dec_val a, dec_val b) | None => (0, 0) end.
Definition id_ltb (a b : string) : bool :=
  let '(m, n) := id_key a in let '(m', n') := id_key b in (m <? m') || (m =? m') && (n <? n').
Definition in_order (stream : list entry) : Prop := StronglySorted (λ a b, id_ltb (e_id a) (e_id b) = true) stream.

(** XRANGE from ["-"], the first entry, or ["(id"], after [id], at most [count] entries. *)
Definition xrange (stream : list entry) (minimum : string) (count : nat) : list entry :=
  take count (match minimum with
              | String "(" id => filter (λ e, id_ltb id (e_id e) = true) stream
              | _ => stream
              end).

Lemma id_ltb_irrefl a : id_ltb a a = false.
Proof. unfold id_ltb. destruct (id_key a) as [m n]. by rewrite !Z.ltb_irrefl, andb_false_r. Qed.
Lemma id_ltb_asym a b : id_ltb a b = true → id_ltb b a = false.
Proof.
  unfold id_ltb. destruct (id_key a) as [m n], (id_key b) as [m' n'].
  rewrite orb_true_iff, andb_true_iff, orb_false_iff, andb_false_iff, !Z.ltb_lt, !Z.ltb_ge, Z.eqb_eq, Z.eqb_neq. lia.
Qed.

Lemma elem_of_take_sub {A} (x : A) n l : x ∈ take n l → x ∈ l.
Proof. intros H. rewrite <- (take_drop n l). apply elem_of_app. by left. Qed.
Lemma filter_all {A} (P : A → Prop) `{∀ x, Decision (P x)} l : Forall P l → filter P l = l.
Proof. induction 1 as [|x l Hx _ IH]; [done|]. by rewrite filter_cons_True, IH. Qed.
Lemma filter_none {A} (P : A → Prop) `{∀ x, Decision (P x)} l : Forall (λ x, ¬ P x) l → filter P l = [].
Proof. induction 1 as [|x l Hx _ IH]; [done|]. by rewrite filter_cons_False, IH. Qed.

(** After the last entry of a prefix comes the rest. *)
Lemma xrange_after l1 e l2 n :
  in_order ((l1 ++ [e]) ++ l2) → xrange ((l1 ++ [e]) ++ l2) ("(" +:+ e_id e) n = take n l2.
Proof.
  intros Hs. unfold xrange. cbn [String.append]. f_equal. rewrite !filter_app. unfold in_order in Hs.
  rewrite <- app_assoc in Hs. apply StronglySorted_app in Hs as (Hc & _ & H2). apply StronglySorted_inv in H2 as [_ H2].
  rewrite (filter_all _ l2) by done.
  rewrite (filter_none _ l1), (filter_none _ [e]); [done| |].
  - constructor; [|constructor]. by rewrite id_ltb_irrefl.
  - apply Forall_forall. intros x Hx. specialize (Hc x e Hx ltac:(left)). apply id_ltb_asym in Hc. by rewrite Hc.
Qed.

(** ** Which entries count *)
Lemma jdump_errors st v : ∀ depth x, jdump st depth v = Err x → canonical_error (exc_cls x) = true.
Proof.
  revert v. fix IH 1. intros v depth x. destruct v as [| b | z | f | s | s | l | l | d]; cbn [jdump]; try done.
  - unfold int_text. destruct (_ <? _); [|done]. by intros [= <-].
  - destruct (_ || _); [done|]. by intros [= <-].
  - by intros [= <-].
  - intros [H|(? & _ & [=])]%bind_Err. revert x H. induction l as [|v l IHl]; intros x; [done|].
    intros [H|(s & _ & [H|(? & _ & [=])]%bind_Err)]%bind_Err; [exact (IH v _ _ H)|exact (IHl _ H)].
  - intros [H|(? & _ & [=])]%bind_Err. revert x H. induction l as [|v l IHl]; intros x; [done|].
    intros [H|(s & _ & [H|(? & _ & [=])]%bind_Err)]%bind_Err; [exact (IH v _ _ H)|exact (IHl _ H)].
  - intros [H|(? & _ & [=])]%bind_Err. revert x H. induction d as [|[k v] d IHd]; intros x; [done|].
    intros [H|(s & _ & [H|(? & _ & [=])]%bind_Err)]%bind_Err; [exact (IH v _ _ H)|exact (IHd _ H)].
Qed.

Lemma canonical_errors v x : _canonical v = Err x → canonical_error (exc_cls x) = true.
Proof.
  unfold _canonical. intros [H|(t & _ & H)]%bind_Err; [by eapply jdump_errors|].
  unfold encode_utf8 in H. destruct (utf8_ok t); [done|]. by injection H as <-.
Qed.

Definition values_of (name : string) (fields : list (string * string)) : list string := snd <$> filter (λ f, f.1 = name) fields.

Section Matching.
Context (message_id payload_sha256 : string).

(** One field [data], a JSON object of that message id whose canonical text has that digest. *)
Definition carries (e : entry) : Prop := ∃ data d text,
  values_of "data" (e_fields e) = [data] ∧ json_loads_bytes data = Ok (VDict d) ∧ dget "message_id" d = VStr message_id ∧
  _canonical (VDict d) = Ok text ∧ sha256_hex text = payload_sha256.

(** [json.loads] fails with the errors that the scan passes over, if it fails. *)
Definition readable (e : entry) : Prop := ∀ data x,
  values_of "data" (e_fields e) = [data] → json_loads_bytes data = Err x → json_error (exc_cls x) = true.

Definition carriesb (e : entry) : bool :=
  match values_of "data" (e_fields e) with
  | [data] =>
      match json_loads_bytes data with
      | Ok (VDict d) =>
          py_eq (dget "message_id" d) (VStr message_id) &&
          match _canonical (VDict d) with Ok text => String.eqb (sha256_hex text) payload_sha256 | Err _ => false end
      | _ => false
      end
  | _ => false
  end.

Lemma carries_spec e : carriesb e = true ↔ carries e.
Proof.
  unfold carriesb, carries. split.
  - destruct (values_of "data" (e_fields e)) as [|data [|]]; [done| |done].
    destruct (json_loads_bytes data) as [[| | | | | | | |d]|] eqn:Ej; try done. intros [Hm Hc]%andb_true_iff.
    destruct (_canonical (VDict d)) as [text|] eqn:Ec; [|done]. apply String.eqb_eq in Hc. apply py_eq_str in Hm. by exists data, d, text.
  - intros (data & d & text & -> & -> & -> & -> & <-). by rewrite py_eq_refl_str, String.eqb_refl.
Qed.
#[global] Instance carries_dec e : Decision (carries e).
Proof. refine (cast_if (decide (carriesb e = true))); by rewrite <- carries_spec. Defined.

Lemma data_fields_wire l :
  data_fields (map value_of (concat ((λ f, [WBulk f.1; WBulk f.2]) <$> l))) = Ok (ReBytes <$> values_of "data" l).
Proof.
  induction l as [|[n v] l IH]; [done|]. cbn [fmap list_fmap concat map app data_fields value_of]. unfold _decode. rewrite bind_ret.
  rewrite IH, bind_ret. unfold values_of. rewrite filter_cons. cbn [fst snd]. destruct (decide (n = "data")) as [->|Hn]; [done|].
  rewrite bool_decide_false; [done|]. by destruct (utf8_ok n); [intros [= ?]|].
Qed.

Lemma fields_wire_even (l : list (string * string)) : Nat.odd (length (map value_of (concat ((λ f, [WBulk f.1; WBulk f.2]) <$> l)))) = false.
Proof. induction l as [|f l IH]; [done|]. exact IH. Qed.

Lemma payload_accepted_Ok data :
  (∀ x, json_loads_bytes data = Err x → json_error (exc_cls x) = true) →
  payload_accepted message_id payload_sha256 data = Ok (carriesb (Entry "" [("data", data)])).
Proof.
  intros Hr. unfold payload_accepted, carriesb. change (values_of "data" _) with [data]. cbn beta iota. destruct (json_loads_bytes data) as [v|x] eqn:Ej.
  - cbn [fmap result_fmap catch]. rewrite bind_ret. destruct v as [| | | | | | | |d]; try done.
    destruct (py_eq (dget "message_id" d) (VStr message_id)); [|done]. cbn [andb].
    destruct (_canonical (VDict d)) as [text|y] eqn:Ec.
    + cbn [mbind result_bind catch]. f_equal. destruct (String.eqb_spec (sha256_hex text) payload_sha256) as [->|Hn]; [by rewrite bool_decide_true|].
      rewrite bool_decide_false; [done|]. by intros [=].
    + cbn [mbind result_bind catch]. by rewrite (canonical_errors _ _ Ec).
  - cbn [fmap result_fmap catch]. by rewrite (Hr x eq_refl).
Qed.

Lemma fields_accepted_wire e :
  readable e → fields_accepted message_id payload_sha256 (value_of (fields_wire (e_fields e))) = Ok (bool_decide (carries e)).
Proof.
  intros Hr. unfold fields_accepted, fields_wire. cbn [value_of]. rewrite raise_if_pass by apply fields_wire_even.
  rewrite data_fields_wire, bind_ret. pose proof (carries_spec e) as Hs. unfold readable in Hr.
  assert (bool_decide (carries e) = carriesb e) as ->.
  { destruct (carriesb e); [by apply bool_decide_true, Hs|]. apply bool_decide_false. by intros ?%Hs. }
  unfold carriesb. destruct (values_of "data" (e_fields e)) as [|data [|]]; [done| |done]. cbn [fmap list_fmap].
  rewrite payload_accepted_Ok by by intros x; apply Hr. done.
Qed.

Definition found_in (l : list entry) : list string := e_id <$> filter carries l.

Lemma found_app l1 l2 : found_in (l1 ++ l2) = found_in l1 ++ found_in l2.
Proof. unfold found_in. by rewrite filter_app, fmap_app. Qed.

Definition after_page_in (s : scan) (l : list entry) : scan :=
  Scan (default (sc_cursor s) (e_id <$> last l)) (sc_scanned s + Z.of_nat (length l)) (sc_matches s ++ found_in l) (sc_received s) (sc_complete s).

Lemma scan_entries_wire l s :
  Forall (λ e, fullmatch STREAM_ID (e_id e) = true ∧ readable e) l →
  foldR (scan_entry message_id payload_sha256) s (map value_of (entry_wire <$> l)) = Ok (after_page_in s l).
Proof.
  induction l as [|e l IH] using rev_ind; intros Hl.
  - unfold after_page_in. cbn. rewrite app_nil_r, Z.add_0_r. by destruct s.
  - apply Forall_app in Hl as [Hl He]. apply Forall_cons in He as [[Hi Hr] _].
    rewrite fmap_app, map_app, foldR_app, IH, bind_ret by done. cbn [fmap list_fmap map foldR]. unfold scan_entry, entry_wire.
    cbn [value_of map entry_id]. destruct (stream_id_chars _ Hi) as [_ Hu]. rewrite Hu, Hi. cbn [andb]. rewrite bind_ret. cbn beta iota.
    change (ReList _) with (value_of (fields_wire (e_fields e))). rewrite (fields_accepted_wire e Hr), bind_ret.
    cbn [mbind result_bind]. f_equal. unfold after_page_in. cbn [sc_cursor sc_scanned sc_matches sc_received sc_complete].
    rewrite last_snoc, length_app, found_app. cbn [length fmap option_fmap option_map default from_option]. f_equal; [lia|].
    unfold found_in. destruct (decide (carries e)) as [Hc|Hc].
    + rewrite bool_decide_true, filter_cons_True by done. by rewrite <- app_assoc.
    + rewrite bool_decide_false, filter_cons_False by done. by rewrite !app_nil_r.
Qed.
End Matching.

(** ** The scan of an honest server's stream *)
Definition cost (l : list entry) : Z := zsum ((λ e, slen (encode (entry_wire e))) <$> l).
Definition STREAM_LIMIT : nat := Z.to_nat MAX_XRANGE_ENTRIES.
Definition PAGE : nat := Z.to_nat XRANGE_PAGE_SIZE.

Lemma cost_app l1 l2 : cost (l1 ++ l2) = cost l1 + cost l2.
Proof. unfold cost. by rewrite fmap_app, zsum_app. Qed.
Lemma cost_nonneg l : 0 <= cost l.
Proof.
  induction l as [|e l IH]; [done|]. change (e :: l) with ([e] ++ l). rewrite cost_app. unfold cost at 1. cbn [fmap list_fmap zsum foldr].
  pose proof (slen_nonneg (encode (entry_wire e))). lia.
Qed.

Lemma page_wire_size l : (length l <= 500)%nat → slen (encode (page_wire l)) <= 6 + cost l.
Proof.
  intros Hl. unfold page_wire. cbn [encode]. rewrite !slen_app, length_fmap.
  pose proof (dec_of_Z_len (Z.of_nat (length l)) 3 ltac:(lia) ltac:(lia)). change (slen "*") with 1. change (slen CRLF) with 2.
  assert (slen (sconcat (map encode (entry_wire <$> l))) = cost l) as ->; [|lia]. clear. unfold cost.
  induction l as [|e l IH]; [done|]. cbn [fmap list_fmap map sconcat foldr zsum]. rewrite slen_app. unfold sconcat, zsum in *. by rewrite <- IH.
Qed.

(** A server with this answer to INFO and this stream under the topic *)
Record serves (serve : string → string) (topic info : string) (stream : list entry) : Prop := {
  serves_info : serve (encode_command ["INFO"; "server"]) = encode (WBulk info);
  serves_pages minimum count :
    minimum = "-" ∨ (∃ e, e ∈ stream ∧ minimum = "(" +:+ e_id e) → (count <= 500)%nat →
    serve (encode_command ["XRANGE"; topic; minimum; "+"; "COUNT"; dec_of_Z (Z.of_nat count)]) =
    encode (page_wire (xrange stream minimum count));
}.

Section Scan.
Context (env : environment cres) (serve : string → string) (fuel : nat) (deadline : flt).
Context (topic info message_id payload_sha256 : string) (stream : list entry).
Context (Hh : honest env serve deadline) (Hfuel : (Z.to_nat MAX_XRANGE_BYTES < fuel)%nat).
Context (Hs : serves serve topic info stream) (Htopic : utf8_ok topic = true) (Hord : in_order stream).
Context (Hids : Forall (λ e, fullmatch STREAM_ID (e_id e) = true ∧ readable e) stream).
Context (Hwire : Forall (λ e, wire_ok MAX_XRANGE_BYTES 8 (entry_wire e)) stream).
Context (Hcost : slen (encode (WBulk info)) + cost (take STREAM_LIMIT stream) + 2048 <= MAX_XRANGE_BYTES).

Abbreviation found := (found_in message_id payload_sha256).
Abbreviation after_page := (after_page_in message_id payload_sha256).
Abbreviation due := (due_at serve MAX_XRANGE_BYTES).
Abbreviation to_read := (to_read_at serve).

(** After [j] full pages, the entries [l1], before [l2]. *)
Record scanned (j : nat) (l1 l2 : list entry) (s : scan) (w : conn) : Prop := {
  sn_split : stream = l1 ++ l2;
  sn_length : length l1 = (500 * j)%nat;
  sn_count : sc_scanned s = Z.of_nat (500 * j);
  sn_cursor : sc_cursor s = default "-" (e_id <$> last l1);
  sn_matches : sc_matches s = found l1;
  sn_few : (length (found l1) <= 1)%nat;
  sn_open : sc_complete s = false;
  sn_buffer : to_read w = EmptyString;
  sn_due : ∃ d, due d w ∧ d <= slen (encode (WBulk info)) + cost l1 + 6 * Z.of_nat j;
}.

Lemma minimum_scanned j l1 l2 s w :
  scanned j l1 l2 s w →
  (minimum s = "-" ∨ ∃ e, e ∈ stream ∧ minimum s = "(" +:+ e_id e) ∧ xrange stream (minimum s) 500 = take 500 l2 ∧
  isascii (minimum s) = true.
Proof.
  intros [Hsp _ _ Hc _ _ _ _ _]. unfold minimum. rewrite Hc. destruct l1 as [|e l1 _] using rev_ind.
  - cbn. split_and!; [by left|rewrite Hsp; done|done].
  - rewrite last_snoc. change (default "-" (e_id <$> Some e)) with (e_id e). assert (e ∈ stream) as He by (rewrite Hsp; set_solver).
    destruct (proj1 (Forall_forall _ _) Hids e He) as [Hid _]. destruct (String.eqb_spec (e_id e) "-") as [E|_]; [rewrite E in Hid; by vm_compute in Hid|].
    destruct (stream_id_chars _ Hid) as [Ha _]. split_and!; [right; by exists e| |by rewrite isascii_app, Ha].
    rewrite Hsp at 1. apply xrange_after. by rewrite <- Hsp.
Qed.

Lemma scan_page_honest j l1 l2 s w :
  scanned j l1 l2 s w → (j < 240)%nat →
  let page := take 500 l2 in
  ∃ w', to_read w' = EmptyString ∧ (∃ d, due d w' ∧ d <= slen (encode (WBulk info)) + cost (l1 ++ page) + 6 * Z.of_nat (S j)) ∧
    let s0 := set_received (cn_received w') s in
    let s1 := after_page s0 page in
    scan_page env fuel topic message_id payload_sha256 deadline s w =
      (Ret (if decide (page = []) then inl (set_complete s0)
            else if (1 <? length (sc_matches s1))%nat then inl s1
            else if (length page <? 500)%nat then inl (set_complete s1) else inr s1), w').
Proof.
  intros Hsc Hj page. pose proof (minimum_scanned _ _ _ _ _ Hsc) as (Hmin & Hx & Ha). destruct Hsc as [Hsp Hl Hn Hc Hm Hf Ho Hb (d & Hd & Hle)].
  assert (length page <= 500)%nat as Hpl by (unfold page; rewrite length_take; lia).
  assert (page_size s = Z.of_nat 500) as Hps by (unfold page_size; rewrite Hn; unfold XRANGE_PAGE_SIZE, MAX_XRANGE_ENTRIES; lia).
  assert (Forall (λ e, e ∈ stream) page) as Hin.
  { apply Forall_forall. intros e He. rewrite Hsp. apply elem_of_app. right. by eapply elem_of_take_sub. }
  assert (cost (l1 ++ page) <= cost (take STREAM_LIMIT stream)) as Hct.
  { assert (l1 ++ page = take (500 * j + 500) stream) as ->.
    { rewrite Hsp, take_app, Hl, take_ge by lia. do 2 f_equal. unfold page. f_equal. lia. }
    rewrite <- (take_drop (500 * j + 500) (take STREAM_LIMIT stream)), take_take, cost_app.
    rewrite Nat.min_l by (unfold STREAM_LIMIT, MAX_XRANGE_ENTRIES; lia). pose proof (cost_nonneg (drop (500 * j + 500) (take STREAM_LIMIT stream))). lia. }
  pose proof (page_wire_size page Hpl) as Hsz. rewrite cost_app in *.
  destruct (command_honest env serve fuel deadline MAX_XRANGE_BYTES Hh Hfuel d w ["XRANGE"; topic; minimum s; "+"; "COUNT"; dec_of_Z (page_size s)] (page_wire page))
    as (w' & Hr & Hd' & Hb' & Hrec); [| | |by vm_compute|done|done|lia|].
  { repeat constructor; try done; apply utf8_ascii; [done|]. apply ascii_dec. rewrite Hps. lia. }
  { by rewrite Hps, (serves_pages _ _ _ _ Hs) by (done || lia); rewrite Hx. }
  { split; [rewrite length_fmap; unfold MAX_XRANGE_ENTRIES; lia|]. apply Forall_fmap. eapply Forall_impl; [exact Hin|].
    intros e He. exact (proj1 (Forall_forall _ _) Hwire e He). }
  exists w'. split; [done|]. split; [eexists; split; [exact Hd'|]; lia|]. cbn zeta.
  unfold scan_page. rewrite (bind_val _ _ _ _ _ Hr), bind_gets. cbn [value_of page_wire]. rewrite length_map, length_fmap.
  rewrite bind_pass by (apply Z.ltb_ge; rewrite Hps; lia). rewrite Hps.
  destruct (decide (page = [])) as [->|Hne]; [done|].
  assert (length page ≠ 0)%nat by by destruct page. rewrite (proj2 (Z.eqb_neq _ _)) by lia.
  rewrite (bind_liftR _ (after_page (set_received (cn_received w') s) page)).
  2:{ apply scan_entries_wire. eapply Forall_impl; [exact Hin|]. intros e He. exact (proj1 (Forall_forall _ _) Hids e He). }
  destruct (1 <? _)%nat; [done|]. destruct (Nat.ltb_spec (length page) 500) as [Hlt|Hge].
  - by rewrite (proj2 (Z.ltb_lt _ _)) by lia.
  - by rewrite (proj2 (Z.ltb_ge _ _)) by lia.
Qed.

(** How a scan ends: on a second match, at the end of the stream, or at the limit. *)
Definition scan_ended (s : scan) : Prop := ∃ l1 l2,
  stream = l1 ++ l2 ∧ (length l1 <= STREAM_LIMIT)%nat ∧ sc_matches s = found l1 ∧ sc_scanned s = Z.of_nat (length l1) ∧
  ((1 < length (found l1))%nat ∨
   (length (found l1) <= 1)%nat ∧ sc_complete s = true ∧ l2 = [] ∧ (length l1 < STREAM_LIMIT)%nat ∨
   (length (found l1) <= 1)%nat ∧ sc_complete s = false ∧ length l1 = STREAM_LIMIT).

Lemma scan_pages_honest n j l1 l2 s w :
  scanned j l1 l2 s w → (j + n = 240)%nat →
  ∃ s' w', scan_pages env fuel topic message_id payload_sha256 deadline (S n) s w = (Ret s', w') ∧ scan_ended s'.
Proof.
  revert j l1 l2 s w; induction n as [|n IH]; intros j l1 l2 s w Hsc Hj.
  - exists s, w. destruct Hsc as [Hsp Hl Hn Hc Hm Hf Ho _ _]. cbn [scan_pages]. rewrite Hn.
    rewrite (proj2 (Z.ltb_ge _ _)) by (unfold MAX_XRANGE_ENTRIES; lia). split; [done|].
    exists l1, l2. rewrite Hn, Hl. unfold STREAM_LIMIT, MAX_XRANGE_ENTRIES. split_and!; try done; try lia. right. right. split_and!; [done..|lia].
  - destruct (scan_page_honest j l1 l2 s w Hsc) as (w' & Hb' & Hd' & Hp); [lia|]. cbn zeta in Hp.
    destruct Hsc as [Hsp Hl Hn Hc Hm Hf Ho _ _]. remember (S n) as m eqn:Em. cbn [scan_pages]. subst m.
    rewrite Hn. rewrite (proj2 (Z.ltb_lt _ _)) by (unfold MAX_XRANGE_ENTRIES; lia). rewrite (bind_val _ _ _ _ _ Hp).
    set (page := take 500 l2) in *. set (s1 := after_page (set_received (cn_received w') s) page).
    assert (sc_matches s1 = found (l1 ++ page)) as Hm1 by (cbn; by rewrite Hm, found_app).
    assert (sc_scanned s1 = Z.of_nat (length (l1 ++ page))) as Hn1 by (cbn; rewrite Hn, length_app; lia).
    assert (length page <= 500)%nat as Hpl by (unfold page; rewrite length_take; lia).
    assert (length page < 500 → drop 500 l2 = [])%nat as Hlast by (unfold page; rewrite length_take; intros; apply drop_ge; lia).
    assert (stream = (l1 ++ page) ++ drop 500 l2) as Hsp1 by (rewrite <- app_assoc; unfold page; by rewrite take_drop).
    destruct (decide (page = [])) as [Hnil|Hnil]; [|destruct (Nat.ltb_spec 1 (length (sc_matches s1))); [|destruct (Nat.ltb_spec (length page) 500)]].
    + eexists _, w'. split; [reflexivity|]. exists l1, []. cbn [set_complete set_received sc_matches sc_scanned sc_complete].
      rewrite Hlast in Hsp1 by (rewrite Hnil; cbn; lia). rewrite Hnil, app_nil_r in Hsp1. unfold STREAM_LIMIT, MAX_XRANGE_ENTRIES.
      split_and!; [done|lia|done|lia|]. right. left. split_and!; (done || lia).
    + eexists _, w'. split; [reflexivity|]. exists (l1 ++ page), (drop 500 l2). rewrite <- Hm1, <- Hn1.
      split_and!; [done|rewrite length_app; unfold STREAM_LIMIT, MAX_XRANGE_ENTRIES; lia|done..|by left].
    + eexists _, w'. split; [reflexivity|]. exists (l1 ++ page), []. cbn [set_complete sc_matches sc_scanned sc_complete]. rewrite <- Hm1, <- Hn1.
      rewrite Hlast in Hsp1 by done. rewrite length_app. unfold STREAM_LIMIT, MAX_XRANGE_ENTRIES.
      split_and!; [done|lia|done..|]. right. left. split_and!; (done || lia).
    + apply (IH (S j) (l1 ++ page) (drop 500 l2)); [|lia]. destruct Hd' as (d & Hd & Hle).
      split; [done|rewrite length_app; lia|rewrite Hn1, length_app; lia| |done|rewrite <- Hm1; lia|done|done|by exists d].
      cbn [s1 after_page_in sc_cursor set_received]. rewrite last_app. destruct page as [|e page _] using rev_ind; [done|]. by rewrite last_snoc.
Qed.

Context (run_id : string) (Hinfo : utf8_ok info = true) (Hline : run_id_line (splitlines info) = Some run_id)
  (Hrun : fullmatch REDIS_RUN_ID run_id = true).

Lemma read_run_id_honest w :
  due 0 w → to_read w = EmptyString →
  ∃ w', read_run_id env fuel deadline w = (Ret run_id, w') ∧ to_read w' = EmptyString ∧ due (slen (encode (WBulk info))) w'.
Proof.
  intros Hd Hb. pose proof (cost_nonneg (take STREAM_LIMIT stream)).
  assert (slen info <= slen (encode (WBulk info))) as Hil.
  { cbn [encode]. unfold bulk. rewrite !slen_app. pose proof (slen_nonneg (dec_of_Z (slen info))). change (slen "$") with 1. change (slen CRLF) with 2. lia. }
  destruct (command_honest env serve fuel deadline MAX_XRANGE_BYTES Hh Hfuel 0 w ["INFO"; "server"] (WBulk info))
    as (w' & Hr & Hd' & Hb' & _); [by repeat constructor|exact (serves_info _ _ _ _ Hs)|cbn; lia|by vm_compute|done|done|lia|].
  exists w'. split; [|done]. unfold read_run_id. rewrite (bind_val _ _ _ _ _ Hr). cbn [value_of].
  rewrite (bind_liftR _ (Some info)) by (unfold _decode; by rewrite Hinfo). by rewrite Hline, Hrun.
Qed.

Lemma probe_connected_honest w :
  due 0 w → to_read w = EmptyString →
  ∃ s' w', probe_connected env fuel topic message_id payload_sha256 deadline w = (Ret (run_id, s'), w') ∧ scan_ended s'.
Proof.
  intros Hd Hb. destruct (read_run_id_honest w Hd Hb) as (w1 & H1 & Hb1 & Hd1).
  destruct (scan_pages_honest 240 0 [] stream (Scan "-" 0 [] 0 false) w1) as (s' & w2 & H2 & He).
  { split; try done; [cbn; lia|]. exists (slen (encode (WBulk info))). split; [done|]. change (cost []) with 0. lia. }
  { done. }
  eexists s', _. split; [|done]. unfold probe_connected, try_finally. rewrite (bind_val _ _ _ _ _ H1).
  unfold PAGES. rewrite (bind_val _ _ _ _ _ H2). unfold mret, M_ret.
  by rewrite (cask_val _ CClose tt _ (honest_close _ _ _ Hh _)).
Qed.

(** The identifiers are there and the server accepts a connection in time. *)
Definition connects (env : environment cres) (fuel : nat) (deadline : flt) : Prop := ∃ id now t w,
  env [] CProbeId = Ok id ∧ env [Ev CProbeId (Ok id)] CUtcNow = Ok now ∧
  env [Ev CProbeId (Ok id); Ev CUtcNow (Ok now)] CClock = Ok t ∧
  wait_for_server env fuel (fmin deadline (fadd t (fz 10)))
    (Conn 0 EmptyString [Ev CProbeId (Ok id); Ev CUtcNow (Ok now); Ev CClock (Ok t)]) = (Ret true, w).

(** Nothing is received or owed before the first request. *)
Definition idle (w : conn) : Prop := cn_received w = 0 ∧ cn_buffer w = EmptyString ∧ owed serve (cn_hist w) = EmptyString.

Lemma keeps_idle o : (∀ acc r, settle serve acc (Ev o r) = acc) → keeps idle (cask env o).
Proof.
  intros Hq w (Hr & Hb & Ho). unfold cask, perform, idle. cbn [snd cn_received cn_buffer cn_hist clog].
  by rewrite socket_owed_snoc, Hq.
Qed.

Lemma wait_idle cd w r w' : wait_for_server env fuel cd w = (r, w') → idle w → idle w'.
Proof.
  intros H Hw. assert (keeps idle (wait_for_server env fuel cd)) as Hk.
  { unfold wait_for_server. keeps_walk; apply keeps_idle; done. }
  specialize (Hk w Hw). by rewrite H in Hk.
Qed.

Definition expected_state (n : nat) (stream : list entry) : string :=
  if (1 <? n)%nat then "CONFLICT" else if (STREAM_LIMIT <=? length stream)%nat then "INCONCLUSIVE_SCAN_LIMIT"
  else if (n =? 1)%nat then "POSITIVE_ACCEPTED" else "INCONCLUSIVE_ZERO_MATCH".

(** The verdict on the entries that were scanned is that on the first 120000. *)
Lemma ended_verdict s :
  scan_ended s → let ids := found (take STREAM_LIMIT stream) in
  verdict s = expected_state (length ids) stream ∧
  ((length ids <= 1)%nat → sc_matches s = ids ∧ sc_scanned s = Z.of_nat (Nat.min STREAM_LIMIT (length stream)) ∧
                       sc_complete s = (length stream <? STREAM_LIMIT)%nat).
Proof.
  intros (l1 & l2 & Hsp & Hl & Hm & Hn & Hcase) ids. unfold verdict, expected_state. rewrite Hm, Hn.
  assert (take STREAM_LIMIT stream = l1 ++ take (STREAM_LIMIT - length l1) l2) as Ht by (rewrite Hsp, take_app, take_ge by done; done).
  assert (length ids = length (found l1) + length (found (take (STREAM_LIMIT - length l1) l2)))%nat as Hlen
    by (unfold ids; by rewrite Ht, found_app, length_app).
  assert (length stream = length l1 + length l2)%nat as Hls by (by rewrite Hsp, length_app).
  destruct Hcase as [Htwo|[(Hfew & Hc & -> & Hlt)|(Hfew & Hc & Heq)]].
  - rewrite !(proj2 (Nat.ltb_lt _ _)) by lia. split; [done|lia].
  - cbn [length] in Hls. assert (ids = found l1) as -> by (unfold ids; by rewrite Ht, take_nil, app_nil_r).
    rewrite (proj2 (Nat.ltb_ge _ _)) by lia. rewrite (proj2 (Nat.leb_gt _ _)) by lia. rewrite Hc. cbn [andb].
    split; [done|]. intros _. rewrite (proj2 (Nat.ltb_lt _ _)) by lia. split_and!; [done| |done]. lia.
  - assert (ids = found l1) as -> by (unfold ids; by rewrite Ht, Heq, Nat.sub_diag, take_0, app_nil_r).
    rewrite (proj2 (Nat.ltb_ge _ _)) by lia. rewrite (proj2 (Nat.leb_le _ _)) by lia. rewrite Hc. cbn [andb].
    split; [done|]. intros _. rewrite (proj2 (Nat.ltb_ge _ _)) by lia. split_and!; [done| |done]. lia.
Qed.

(** C13. Over a server that hands over its answers in any pieces before the
    deadline, the probe of a stream finds [CONFLICT] if two of its first 120000
    entries carry the payload, else [INCONCLUSIVE_SCAN_LIMIT] if there are as many
    entries, else [POSITIVE_ACCEPTED] if exactly one does and
    [INCONCLUSIVE_ZERO_MATCH] if none does; short of a conflict it reports those
    entries and how many it read. *)
Theorem inspection_exact (include_evidence : bool) :
  connects env fuel deadline →
  let ids := found (take STREAM_LIMIT stream) in
  ∃ r w, _inspect_stream env fuel topic message_id payload_sha256 deadline include_evidence (Conn 0 EmptyString []) = (Ret r, w) ∧
    dget "state" r = VStr (expected_state (length ids) stream) ∧ dget "redis_server_run_id" r = VStr run_id ∧
    ((length ids <= 1)%nat → dget "stream_ids" r = VList (VStr <$> ids) ∧
                         dget "entries_scanned" r = VInt (Z.of_nat (Nat.min STREAM_LIMIT (length stream))) ∧
                         dget "scan_complete" r = VBool (length stream <? STREAM_LIMIT)%nat).
Proof.
  intros (id & now & t & w & Hid & Hnow & Ht & Hwait) ids.
  assert (idle w) as (Hr0 & Hb0 & Ho0) by by eapply wait_idle; [exact Hwait|].
  pose proof (cost_nonneg (take STREAM_LIMIT stream)). pose proof (slen_nonneg (encode (WBulk info))).
  destruct (probe_connected_honest w) as (s & w' & Hp & He).
  { unfold due_at. rewrite Hr0, Ho0. change (slen "") with 0. lia. }
  { unfold to_read_at. by rewrite Hb0, Ho0. }
  destruct (ended_verdict s He) as [Hv Hfew]. exists (inspection_result topic message_id payload_sha256 include_evidence id (utc_text now) run_id s), w'.
  split; [|split_and!; [cbn; by rewrite Hv|done|]].
  - unfold _inspect_stream. rewrite (bind_val _ _ _ _ _ (cask_val env CProbeId id (Conn 0 EmptyString []) Hid)).
    set (s1 := clog _ _). rewrite (bind_val _ _ _ _ _ (cask_val env CUtcNow now s1 Hnow)). set (s2 := clog _ s1).
    rewrite (bind_val (probe _ _ _ _ _ _) _ _ (run_id, s) w'); [done|].
    unfold probe, try_except. rewrite (bind_val _ _ _ _ _ (cask_val env CClock t s2 Ht)).
    rewrite (bind_val _ _ _ _ _ Hwait). by rewrite Hp.
  - intros Hl. destruct (Hfew Hl) as (Hm & Hn & Hc). cbn. rewrite Hm, Hn, Hc, take_ge by (fold ids; lia). done.
Qed.
End Scan.

(** ** A server of three entries, which hands over seven bytes at a time *)
Definition demo_text : string := sq "{'message_id':'m1','x':1}".
Definition demo_stream : list entry :=
  [Entry "5-0" [("note", "n"); ("data", sq "{'x': 1, 'message_id': 'm1'}")]; Entry "5-1" [("data", "oops")];
   Entry "12-0" [("data", sq "{'message_id': 'm2'}")]].
Definition demo_run_id : string := sconcat (replicate 40 "a").
Definition demo_info : string := unlines ["# Server"; "run_id:" +:+ demo_run_id].

Definition demo_serve (data : string) : string :=
  match next_command (Reader data 0 1) with
  | Ok (Some ["INFO"; "server"], _) => encode (WBulk demo_info)
  | Ok (Some ["XRANGE"; _; minimum; _; _; count], _) => encode (page_wire (xrange demo_stream minimum (Z.to_nat (dec_val count))))
  | _ => EmptyString
  end.

Definition demo_env : environment cres := λ h o,
  match o return result (cres o) with
  | CClock => Ok (fz 0)
  | CProbeId => Ok "p"
  | CUtcNow => Ok (DateTime 0 (Some 0))
  | CRecv n => Ok (stake (Z.to_nat (Z.min 7 n)) (owed demo_serve h))
  | CConnect _ | CSleep _ | CSetTimeout _ | CSendall _ | CClose => Ok tt
  end.

Lemma stake_short n s : (String.length (stake n s) <= n)%nat.
Proof. revert s; induction n as [|n IH]; intros [|c s]; cbn; try lia. specialize (IH s). lia. Qed.

Lemma demo_honest : honest demo_env demo_serve (fz 100).
Proof.
  split; try done.
  - intros h. exists (fz 0). by split.
  - intros h n Ho Hn. exists (stake (Z.to_nat (Z.min 7 n)) (owed demo_serve h)), (sdrop (Z.to_nat (Z.min 7 n)) (owed demo_serve h)).
    rewrite stake_sdrop. pose proof (stake_short (Z.to_nat (Z.min 7 n)) (owed demo_serve h)). split_and!; [done| |unfold slen; lia|done].
    destruct (owed demo_serve h) as [|c s]; [done|]. destruct (Z.to_nat (Z.min 7 n)) eqn:E; [lia|done].
Qed.

Lemma demo_serves : serves demo_serve "t" demo_info demo_stream.
Proof.
  split; [by vm_compute|]. intros m count Hm Hc. unfold demo_serve.
  pose proof (dec_of_Z_len (Z.of_nat count) 3 ltac:(lia) ltac:(lia)) as Hl.
  assert (slen m <= 5) as Hml.
  { destruct Hm as [->|(e & He & ->)]; [by vm_compute|]. unfold demo_stream in He. rewrite !elem_of_cons in He.
    destruct He as [->|[->|[->|[]%elem_of_nil]]]; by vm_compute. }
  pose proof (next_command_encode ["XRANGE"; "t"; m; "+"; "COUNT"; dec_of_Z (Z.of_nat count)] EmptyString 0 1) as Hn.
  rewrite app_nil_r_str in Hn. change (RedisAofSpec.encode_command ?l) with (encode_command l) in Hn. rewrite Hn; [|clear Hn|lia].
  - by rewrite dec_of_Z_val, Nat2Z.id by lia.
  - unfold command_ok, MAX_TOKEN_BYTES. cbn [forallb]. rewrite !andb_true_iff, !Z.leb_le. split_and!; try done; lia.
Qed.

Lemma demo_found : found_in "m1" (sha256_hex demo_text) (take STREAM_LIMIT demo_stream) = ["5-0"].
Proof. rewrite take_ge; [by vm_compute|]. unfold STREAM_LIMIT, MAX_XRANGE_ENTRIES. cbn [length demo_stream]. lia. Qed.

Lemma demo_entries :
  Forall (λ e, fullmatch STREAM_ID (e_id e) = true ∧ readable e) demo_stream ∧
  Forall (λ e, wire_ok MAX_XRANGE_BYTES 8 (entry_wire e)) demo_stream ∧ in_order demo_stream.
Proof.
  split_and!.
  - repeat (apply Forall_cons; split; [split; [by vm_compute|]|]); [| | |by constructor];
      intros data x [= <-] H; vm_compute in H; (discriminate || by injection H as <-).
  - repeat (apply Forall_cons; split; [apply wire_okb_true; by vm_compute|]). by constructor.
  - repeat constructor.
Qed.

Definition demo_fuel : nat := S (S (Z.to_nat MAX_XRANGE_BYTES)).

Lemma inspection_exact_witness :
  connects demo_env demo_fuel (fz 100) ∧
  ∃ r w, _inspect_stream demo_env demo_fuel "t" "m1" (sha256_hex demo_text) (fz 100) true (Conn 0 EmptyString []) = (Ret r, w) ∧
    dget "state" r = VStr "POSITIVE_ACCEPTED".
Proof.
  assert (connects demo_env demo_fuel (fz 100)) as Hc.
  { exists "p", (DateTime 0 (Some 0)), (fz 0). eexists. split_and!; [done..|]. reflexivity. }
  split; [exact Hc|]. destruct demo_entries as (Hi & Hw & Ho).
  destruct (inspection_exact demo_env demo_serve demo_fuel (fz 100) "t" demo_info "m1" (sha256_hex demo_text) demo_stream
    demo_honest ltac:(unfold demo_fuel; lia) demo_serves eq_refl Ho Hi Hw) with (run_id := demo_run_id) (include_evidence := true) as (r & w & Hr & Hs & _);
    [|by vm_compute|by vm_compute|by vm_compute|exact Hc|].
  { rewrite take_ge by (unfold STREAM_LIMIT, MAX_XRANGE_ENTRIES; cbn [length demo_stream]; lia). by vm_compute. }
  exists r, w. split; [exact Hr|]. rewrite Hs, demo_found. unfold expected_state. cbn [length Nat.ltb Nat.leb Nat.eqb].
  by rewrite (proj2 (Nat.leb_gt _ _)) by (unfold STREAM_LIMIT, MAX_XRANGE_ENTRIES; cbn [length demo_stream]; lia).
Defined.

(** ** Whatever answers: the requests sent, and that the probe ends *)
Definition sends (e : event cres) : list string := match ev_op e with CSendall data => [data] | _ => [] end.
Definition requests (h : list (event cres)) : list string := concat (sends <$> h).

(** The commands of a read: the server's identity, or a page of the topic. *)
Definition read_only (topic data : string) : Prop :=
  data = encode_command ["INFO"; "server"] ∨
  ∃ m n, (m = "-" ∨ ∃ id, m = "(" +:+ id ∧ fullmatch STREAM_ID id = true) ∧ 1 <= n <= XRANGE_PAGE_SIZE ∧
         data = encode_command ["XRANGE"; topic; m; "+"; "COUNT"; dec_of_Z n].

Lemma requests_snoc h e : requests (h ++ [e]) = requests h ++ sends e.
Proof. unfold requests. rewrite fmap_app, concat_app. cbn. by rewrite app_nil_r. Qed.

Lemma encode_parts_same parts l : mapR encode_utf8 parts = Ok l → l = parts.
Proof.
  revert l; induction parts as [|p parts IH]; intros l H; cbn [mapR] in H; ok_inv H; [done|].
  unfold encode_utf8 in Hok. destruct (utf8_ok p); [|done]. injection Hok as <-. by rewrite (IH _ Hok0).
Qed.

Section Anyone.
Context (env : environment cres) (fuel : nat) (deadline : flt) (topic message_id payload_sha256 : string).

Definition reading (w : conn) : Prop := Forall (read_only topic) (requests (cn_hist w)).

Lemma keeps_quiet (P : list string → Prop) o :
  match o with CSendall _ => False | _ => True end → keeps (λ w, P (requests (cn_hist w))) (cask env o).
Proof.
  intros Ho w Hw. unfold cask, perform. cbn [snd cn_hist clog]. rewrite requests_snoc. unfold sends. cbn [ev_op].
  destruct o; try done; by rewrite app_nil_r.
Qed.
Lemma keeps_local (P : list string → Prop) f :
  (∀ w, cn_hist (f w) = cn_hist w) → keeps (λ w, P (requests (cn_hist w))) (@modify conn f).
Proof. intros Hf. apply keeps_modify. intros w. by rewrite Hf. Qed.

Section Quiet.
Context (P : list string → Prop).
Abbreviation quiet := (keeps (λ w, P (requests (cn_hist w)))).
#[local] Hint Extern 1 (quiet (cask _ _)) => (apply keeps_quiet; exact I) : keeps.
#[local] Hint Extern 1 (quiet (modify _)) => (apply keeps_local; done) : keeps.

Lemma quiet_more m : quiet (_more env deadline m).
Proof. unfold _more. keeps_walk. Qed.
#[local] Hint Resolve quiet_more : keeps.
Lemma quiet_take m n : quiet (_take env fuel deadline m n).
Proof. unfold _take. keeps_walk. Qed.
Lemma quiet_line m : quiet (_line env fuel deadline m).
Proof. unfold _line. keeps_walk. Qed.
#[local] Hint Resolve quiet_take quiet_line : keeps.
Lemma quiet_int m msg : quiet (int_or env fuel deadline m msg).
Proof. unfold int_or. keeps_walk. Qed.
#[local] Hint Resolve quiet_int : keeps.
Lemma quiet_bulk m : quiet (parse_bulk env fuel deadline m).
Proof. unfold parse_bulk. keeps_walk. Qed.
#[local] Hint Resolve quiet_bulk : keeps.
Lemma quiet_parse m levels : quiet (parse env fuel deadline m levels).
Proof. induction levels as [|levels IH]; cbn [parse]; [unfold cold_error; keeps_walk|]. unfold cold_error. keeps_walk. Qed.
Lemma quiet_wait cd : quiet (wait_for_server env fuel cd).
Proof. unfold wait_for_server. keeps_walk. Qed.
End Quiet.

Lemma reading_command m parts : read_only topic (encode_command parts) → keeps reading (_resp_command env fuel deadline m parts).
Proof.
  intros Hp w Hw. unfold _resp_command, liftR. destruct (mapR encode_utf8 parts) as [l|e] eqn:E; [|done].
  apply encode_parts_same in E as ->. revert w Hw. change (keeps reading (cask env (CSendall (encode_command parts));; parse env fuel deadline m 9)).
  apply keeps_bind; [|intros ?; apply (quiet_parse (Forall (read_only topic)))].
  intros w Hw. unfold cask, perform, reading. cbn [snd cn_hist clog]. rewrite requests_snoc. apply Forall_app. split; [done|].
  by constructor.
Qed.

(** *** The scan *)
Definition cursor_ok (s : scan) : Prop := sc_cursor s = "-" ∨ fullmatch STREAM_ID (sc_cursor s) = true.

Lemma entry_scanned s e s' :
  scan_entry message_id payload_sha256 s e = Ok s' → fullmatch STREAM_ID (sc_cursor s') = true ∧ sc_scanned s' = sc_scanned s + 1.
Proof.
  unfold scan_entry. intros H. ok_inv H. split; [|done]. cbn [sc_cursor]. clear Hok0. unfold entry_id in Hok.
  repeat (case_match; try done; subst). bool_inv. by injection Hok as <- _.
Qed.

Lemma entries_scanned l s s' :
  foldR (scan_entry message_id payload_sha256) s l = Ok s' →
  sc_scanned s' = sc_scanned s + Z.of_nat (length l) ∧ (cursor_ok s → cursor_ok s').
Proof.
  revert s; induction l as [|e l IH]; intros s H; cbn [foldR] in H; ok_inv H; [split; [cbn; lia|done]|].
  apply entry_scanned in Hok as [Hc Hn]. destruct (IH _ H) as [Hn' Hc']. split; [cbn [length]; lia|]. intros _. apply Hc'. by right.
Qed.

Lemma minimum_ok s : cursor_ok s → minimum s = "-" ∨ ∃ id, minimum s = "(" +:+ id ∧ fullmatch STREAM_ID id = true.
Proof.
  unfold minimum. intros [->|H]; [by left|]. destruct (String.eqb _ _); [by left|]. right. eauto.
Qed.

Lemma page_request s : cursor_ok s → sc_scanned s < MAX_XRANGE_ENTRIES →
  read_only topic (encode_command ["XRANGE"; topic; minimum s; "+"; "COUNT"; dec_of_Z (page_size s)]).
Proof.
  intros Hc Hn. right. exists (minimum s), (page_size s). split_and!; [by apply minimum_ok| | |done]; unfold page_size, XRANGE_PAGE_SIZE; lia.
Qed.

Lemma reading_page s : cursor_ok s → sc_scanned s < MAX_XRANGE_ENTRIES →
  post reading (scan_page env fuel topic message_id payload_sha256 deadline s)
    (λ r w, reading w ∧ match r with Ret (inr s') => cursor_ok s' | _ => True end).
Proof.
  intros Hc Hn. unfold scan_page.
  eapply post_bind; [apply (reading_command MAX_XRANGE_BYTES _ (page_request s Hc Hn))| |by intros; split..].
  intros reply w Hw. rewrite bind_gets. destruct reply as [| | |entries]; try by split.
  unfold throw_if, raise_if. destruct (page_size s <? _); [by split|]. rewrite bind_liftR_ok. cbn beta iota.
  destruct (_ =? 0); [by split|]. destruct (foldR _ _ _) as [s'|e] eqn:E; [|by split].
  rewrite bind_liftR_ok. apply entries_scanned in E as [_ Hc'].
  destruct (1 <? _)%nat; [by split|]. destruct (_ <? _); [by split|]. split; [done|]. by apply Hc'.
Qed.

Lemma reading_pages n s : cursor_ok s → keeps reading (scan_pages env fuel topic message_id payload_sha256 deadline n s).
Proof.
  revert s; induction n as [|n IH]; intros s Hc; [by intros w Hw|]. cbn [scan_pages].
  destruct (Z.ltb_spec (sc_scanned s) MAX_XRANGE_ENTRIES); [|apply keeps_ret].
  eapply post_bind; [by apply reading_page| |by intros ? ? [? _]|by intros ? [? _]].
  intros [s'|s'] w [Hw Hs]; [done|by apply IH].
Qed.

Lemma reading_run_id : keeps reading (read_run_id env fuel deadline).
Proof.
  unfold read_run_id. apply keeps_bind; [apply reading_command; by left|]. intros info. unfold cold_error. keeps_walk.
Qed.

Lemma reading_probe : keeps reading (probe_connected env fuel topic message_id payload_sha256 deadline).
Proof.
  unfold probe_connected. apply keeps_finally; [|apply (keeps_quiet (Forall (read_only topic)) CClose I)].
  apply keeps_bind; [apply reading_run_id|]. intros run_id. apply keeps_bind; [apply reading_pages; by left|]. intros s. apply keeps_ret.
Qed.

(** The last thing done with a connection is to close it. *)
Definition closed (w : conn) : Prop := ∃ h a, cn_hist w = h ++ [@Ev cop cres CClose a].

Lemma probe_closes w r w' :
  probe_connected env fuel topic message_id payload_sha256 deadline w = (r, w') → r = Fuel ∨ closed w'.
Proof.
  unfold probe_connected, try_finally. match goal with |- match ?m w with _ => _ end = _ → _ => destruct (m w) as [r0 w0] end.
  assert (closed (snd (cask env CClose w0))) as Hc by (exists (cn_hist w0); eexists; reflexivity).
  destruct (cask env CClose w0) as [r1 w1]. cbn [snd] in Hc. destruct r0, r1; intros [= <- <-]; auto.
Qed.

(** What holds at every end of the probe: only reads were sent, and they were closed off. *)
Definition settled {A} (r : out A) (w : conn) : Prop := reading w ∧ (r = Fuel ∨ requests (cn_hist w) = [] ∨ closed w).
Definition unsent (w : conn) : Prop := requests (cn_hist w) = [].

Lemma settled_unsent {A} (r : out A) w : unsent w → settled r w.
Proof. intros H. split; [|by right; left]. unfold reading. by rewrite H. Qed.
Lemma settled_as {A B} (r : out A) (r' : out B) w : (r = Fuel → r' = Fuel) → settled r w → settled r' w.
Proof. intros Hr [Hw Hc]. split; [done|]. destruct Hc as [->|Hc]; [left; by apply Hr|by right]. Qed.

Lemma settled_probe : post unsent (probe env fuel topic message_id payload_sha256 deadline) settled.
Proof.
  assert (∀ o, match o with CSendall _ => False | _ => True end → keeps unsent (cask env o)) as Hq by (intros o; apply (keeps_quiet (λ l, l = []))).
  unfold probe. eapply (post_try_out _ settled).
  - eapply post_bind; [apply (Hq CClock I)|intros now|by intros; apply settled_unsent..].
    eapply post_bind; [apply (quiet_wait (λ l, l = []))| |by intros; apply settled_unsent..].
    intros [|]; [|intros w Hw; by apply settled_unsent].
    intros w Hw. destruct (probe_connected _ _ _ _ _ _ w) as [r w'] eqn:E. cbn [fst snd]. split; [|apply probe_closes in E; tauto].
    pose proof (reading_probe w) as Hr. rewrite E in Hr. apply Hr. unfold reading. by rewrite Hw.
  - intros e w Hs. by eapply settled_as; [|exact Hs].
Qed.

(** C37. Whatever the socket, the clock and the server answer, the only bytes the
    probe ever sends are the requests INFO and XRANGE over the topic, with a page of
    at most 500 entries after ["-"] or a well-formed identifier; and unless nothing
    was sent, the connection is closed at the end. *)
Theorem inspection_reads_only (include_evidence : bool) :
  let '(out, w) := _inspect_stream env fuel topic message_id payload_sha256 deadline include_evidence (Conn 0 EmptyString []) in
  Forall (read_only topic) (requests (cn_hist w)) ∧ (out = Fuel ∨ requests (cn_hist w) = [] ∨ closed w).
Proof.
  assert (post unsent (_inspect_stream env fuel topic message_id payload_sha256 deadline include_evidence) settled) as H.
  - assert (∀ o, match o with CSendall _ => False | _ => True end → keeps unsent (cask env o)) as Hq by (intros o; apply (keeps_quiet (λ l, l = []))).
    unfold _inspect_stream. eapply post_bind; [apply (Hq CProbeId I)|intros id|by intros; apply settled_unsent..].
    eapply post_bind; [apply (Hq CUtcNow I)|intros now|by intros; apply settled_unsent..].
    eapply post_bind; [apply settled_probe| |by intros ? w; apply settled_as|by intros w; apply settled_as].
    intros [run_id s] w. by apply settled_as.
  - specialize (H (Conn 0 EmptyString []) eq_refl). by destruct (_inspect_stream _ _ _ _ _ _ _ _) as [out w].
Qed.
End Anyone.

(** ** The probe ends *)
Section Ends.
Context (env : environment cres) (fuel : nat) (deadline : flt) (topic message_id payload_sha256 : string).
Context (Hfuel : (Z.to_nat MAX_XRANGE_BYTES + 1 < fuel)%nat).

(** No loop is cut off. *)
Definition lasts {A} (m : M conn A) : Prop := post (λ w, 0 <= cn_received w) m (λ r w, r ≠ Fuel ∧ 0 <= cn_received w).

Lemma lasts_bind {A B} (m : M conn A) (f : A → M conn B) : lasts m → (∀ a, lasts (f a)) → lasts (m ≫= f).
Proof.
  intros Hm Hf. eapply post_bind; [exact Hm| | |].
  - intros a w [_ Hw]. by apply Hf.
  - by intros e w [_ Hw].
  - by intros w [? _].
Qed.
Lemma lasts_ret {A} (a : A) : lasts (mret a).
Proof. by intros w Hw. Qed.
Lemma lasts_gets {A} (f : conn → A) : lasts (gets f).
Proof. by intros w Hw. Qed.
Lemma lasts_liftR {A} (r : result A) : lasts (liftR r).
Proof. intros w Hw. by destruct r. Qed.
Lemma lasts_cask o : lasts (cask env o).
Proof. intros w Hw. unfold cask, perform. by destruct (env (cn_hist w) o). Qed.
Lemma lasts_buffer b : lasts (modify (set_buffer b)).
Proof. by intros w Hw. Qed.
Lemma lasts_mapM {A B} (f : A → M conn B) l : (∀ a, lasts (f a)) → lasts (mapM f l).
Proof.
  intros Hf. induction l as [|a l IH]; [apply lasts_ret|]. cbn [mapM]. apply lasts_bind; [done|]. intros b.
  apply lasts_bind; [done|]. intros l'. apply lasts_ret.
Qed.

(** Reading more either fails or brings bytes, below the maximum. *)
Lemma more_progress m w :
  0 <= cn_received w →
  let '(r, w') := _more env deadline m w in
  match r with
  | Ret _ => cn_received w < cn_received w' <= m
  | Exn _ => 0 <= cn_received w'
  | Fuel => False
  end.
Proof.
  intros Hw. unfold _more, cask, perform, mbind, M_bind. destruct (env (cn_hist w) CClock) as [t|]; [|done]. cbn [out_of].
  unfold gets, throw_if, liftR. cbn [cn_received clog]. destruct (raise_if _ _ _) as [[]|] eqn:E; [|done]. cbn [out_of].
  match goal with |- context [env ?h (CSetTimeout ?f)] => destruct (env h (CSetTimeout f)) as [[]|]; [|done] end. cbn [out_of].
  match goal with |- context [env ?h (CRecv ?n)] => destruct (env h (CRecv n)) as [data|]; [|done] end. cbn [out_of].
  destruct (raise_if (String.eqb data "") _ _) as [[]|] eqn:Ed; [|done]. apply raise_if_Ok, String.eqb_neq in Ed. cbn [out_of].
  cbn [modify cn_received count_received clog]. assert (0 < slen data) by (destruct data; [done|rewrite slen_cons; pose proof (slen_nonneg data); lia]).
  destruct (raise_if (m <? _) _ _) as [[]|] eqn:El; [|cbn; lia]. apply raise_if_Ok, Z.ltb_ge in El. cbn. lia.
Qed.

Lemma after_more {A} (f : unit → M conn A) w :
  0 <= cn_received w →
  (∀ w', cn_received w < cn_received w' <= MAX_XRANGE_BYTES → (f tt w').1 ≠ Fuel ∧ 0 <= cn_received (f tt w').2) →
  ((_more env deadline MAX_XRANGE_BYTES ≫= f) w).1 ≠ Fuel ∧ 0 <= cn_received ((_more env deadline MAX_XRANGE_BYTES ≫= f) w).2.
Proof.
  intros Hw Hf. pose proof (more_progress MAX_XRANGE_BYTES w Hw) as Hm. unfold mbind, M_bind.
  destruct (_more _ _ _ w) as [[[]|e|] w']; [by apply Hf|done|done].
Qed.

Lemma take_lasts n : lasts (_take env fuel deadline MAX_XRANGE_BYTES n).
Proof.
  intros w Hw. unfold _take. assert (Z.to_nat (MAX_XRANGE_BYTES - cn_received w) + 1 < fuel)%nat as Hf by lia. revert w Hw Hf.
  generalize fuel as f; induction f as [|f IH]; intros w Hw Hf; [lia|]. cbn [while]. rewrite bind_gets.
  destruct (_ <? n); [|by apply (lasts_bind _ _ (lasts_gets cn_buffer)); [intros b; apply lasts_bind; [apply lasts_buffer|intros ?; apply lasts_ret]|]].
  rewrite bind_assoc_run. apply (after_more _ w Hw). intros w' Hw'. apply IH; lia.
Qed.

Lemma line_lasts : lasts (_line env fuel deadline MAX_XRANGE_BYTES).
Proof.
  intros w Hw. unfold _line. assert (Z.to_nat (MAX_XRANGE_BYTES - cn_received w) + 1 < fuel)%nat as Hf by lia. revert w Hw Hf.
  generalize fuel as f; induction f as [|f IH]; intros w Hw Hf; [lia|]. cbn [while].
  rewrite (bind_val (mret true) _ w true w eq_refl), bind_assoc_run, bind_gets. destruct (find_crlf _) as [[a b]|]; [done|].
  rewrite bind_assoc_run. apply (after_more _ w Hw). intros w' Hw'. apply IH; lia.
Qed.

Lemma int_lasts msg : lasts (int_or env fuel deadline MAX_XRANGE_BYTES msg).
Proof. unfold int_or. apply lasts_bind; [apply line_lasts|]. intros l. apply lasts_liftR. Qed.

Lemma parse_lasts levels : lasts (parse env fuel deadline MAX_XRANGE_BYTES levels).
Proof.
  induction levels as [|levels IH]; cbn [parse]; [apply lasts_liftR|]. apply lasts_bind; [apply take_lasts|]. intros prefix.
  case_match.
  - apply lasts_bind; [apply line_lasts|]. intros l. case_match; [apply lasts_liftR|]. case_match; [|apply lasts_ret].
    apply lasts_bind; [apply lasts_liftR|]. intros n. apply lasts_ret.
  - case_match.
    + unfold parse_bulk. apply lasts_bind; [apply int_lasts|]. intros n. case_match; [apply lasts_ret|].
      apply lasts_bind; [apply lasts_liftR|]. intros _. apply lasts_bind; [apply take_lasts|]. intros v.
      apply lasts_bind; [apply lasts_liftR|]. intros _. apply lasts_ret.
    + case_match; [|apply lasts_liftR]. apply lasts_bind; [apply int_lasts|]. intros n. case_match; [apply lasts_ret|].
      apply lasts_bind; [apply lasts_liftR|]. intros _. apply lasts_bind; [by apply lasts_mapM|]. intros l. apply lasts_ret.
Qed.

Lemma command_lasts parts : lasts (_resp_command env fuel deadline MAX_XRANGE_BYTES parts).
Proof.
  apply lasts_bind; [apply lasts_liftR|]. intros l. apply lasts_bind; [apply lasts_cask|]. intros _. apply parse_lasts.
Qed.

Lemma page_lasts s : lasts (scan_page env fuel topic message_id payload_sha256 deadline s).
Proof.
  apply lasts_bind; [apply command_lasts|]. intros reply. apply lasts_bind; [apply lasts_gets|]. intros n.
  case_match; try apply lasts_liftR. apply lasts_bind; [apply lasts_liftR|]. intros _. case_match; [apply lasts_ret|].
  apply lasts_bind; [apply lasts_liftR|]. intros s'. repeat case_match; apply lasts_ret.
Qed.

(** A page after which the scan goes on is full. *)
Lemma page_full s w s' w' :
  scan_page env fuel topic message_id payload_sha256 deadline s w = (Ret (inr s'), w') → sc_scanned s' = sc_scanned s + page_size s.
Proof.
  unfold scan_page. intros H. run_inv H. destruct a; run_inv H; try done. case_match; run_inv H; [done|].
  apply entries_scanned in Hrun1 as [Hn _]. cbn [set_received sc_scanned] in Hn.
  case_match; run_inv H; [done|]. case_match; run_inv H; [done|]. injection H as <-. bool_inv. lia.
Qed.

Lemma pages_last n j s :
  sc_scanned s = Z.of_nat (500 * j) → (j + n = 240)%nat → lasts (scan_pages env fuel topic message_id payload_sha256 deadline (S n) s).
Proof.
  revert j s; induction n as [|n IH]; intros j s Hs Hj w Hw.
  - cbn [scan_pages]. rewrite Hs. by rewrite (proj2 (Z.ltb_ge _ _)) by (unfold MAX_XRANGE_ENTRIES; lia).
  - remember (S n) as m eqn:Em. cbn [scan_pages]. rewrite Hs. destruct (Z.ltb_spec (Z.of_nat (500 * j)) MAX_XRANGE_ENTRIES) as [Hlt|]; [|done].
    pose proof (page_lasts s w Hw) as [Hf Hw']. unfold mbind, M_bind.
    destruct (scan_page _ _ _ _ _ _ s w) as [[[s'|s']|e|] w'] eqn:E; try done. apply page_full in E. subst m.
    apply (IH (S j)); [|lia|done]. rewrite E, Hs. unfold page_size. rewrite Hs. unfold XRANGE_PAGE_SIZE, MAX_XRANGE_ENTRIES in *. lia.
Qed.

Lemma probe_connected_lasts : lasts (probe_connected env fuel topic message_id payload_sha256 deadline).
Proof.
  intros w Hw. unfold probe_connected, try_finally.
  assert (lasts (run_id ← read_run_id env fuel deadline;
     s ← scan_pages env fuel topic message_id payload_sha256 deadline PAGES (Scan "-" 0 [] 0 false); mret (run_id, s))) as Hm.
  { apply lasts_bind.
    - apply lasts_bind; [apply command_lasts|]. intros info. apply lasts_bind; [apply lasts_liftR|]. intros text.
      repeat case_match; apply lasts_liftR || apply lasts_ret.
    - intros run_id. apply lasts_bind; [|intros s; apply lasts_ret]. apply (pages_last 240 0); [done|lia]. }
  specialize (Hm w Hw). match goal with |- context [match ?m w with _ => _ end] => destruct (m w) as [r w1] end. destruct Hm as [Hr Hw1]. cbn [fst snd] in *.
  pose proof (lasts_cask CClose w1 Hw1) as [Hc Hw2]. destruct r; [| |done]; by destruct (cask env CClose w1) as [[] w2].
Qed.

Lemma bind_lasts {A B} (m : M conn A) (f : A → M conn B) w :
  (m w).1 ≠ Fuel → (∀ a w1, m w = (Ret a, w1) → (f a w1).1 ≠ Fuel) → ((m ≫= f) w).1 ≠ Fuel.
Proof. intros Hm Hf. unfold mbind, M_bind. destruct (m w) as [[a|e|] w1]; [by apply Hf|done|done]. Qed.
Lemma try_lasts {A} cs (m : M conn A) h w : (m w).1 ≠ Fuel → (∀ e w1, (h e w1).1 ≠ Fuel) → (try_except cs m h w).1 ≠ Fuel.
Proof. intros Hm Hh. unfold try_except. destruct (m w) as [[a|e|] w1]; [done| |done]. destruct (cs (exc_cls e)); [apply Hh|done]. Qed.
Lemma cask_lasts o w : (cask env o w).1 ≠ Fuel.
Proof. unfold cask, perform. cbn [fst]. by destruct (env (cn_hist w) o). Qed.
Lemma cask_Ret o w a w1 : cask env o w = (Ret a, w1) → env (cn_hist w) o = Ok a ∧ w1 = clog (Ev o (Ok a)) w.
Proof. unfold cask, perform. destruct (env (cn_hist w) o); [|done]. by intros [= -> <-]. Qed.

(** The wait for a connection is not cut off. *)
Definition wait_ends : Prop := ∀ id now t,
  env [] CProbeId = Ok id → env [Ev CProbeId (Ok id)] CUtcNow = Ok now → env [Ev CProbeId (Ok id); Ev CUtcNow (Ok now)] CClock = Ok t →
  (wait_for_server env fuel (fmin deadline (fadd t (fz 10)))
     (Conn 0 EmptyString [Ev CProbeId (Ok id); Ev CUtcNow (Ok now); Ev CClock (Ok t)])).1 ≠ Fuel.

Lemma wait_received cd : keeps (λ w, 0 <= cn_received w) (wait_for_server env fuel cd).
Proof.
  assert (∀ o, keeps (λ w, 0 <= cn_received w) (cask env o)) as Hk by by intros o w Hw. unfold wait_for_server. keeps_walk; apply Hk.
Qed.

(** C38. The probe ends, whatever the socket, the clock and the server answer, once
    the wait for a connection does: fuel for one more byte than the cap on received
    bytes is enough for the reader's loops, and 241 pages for the scan. *)
Theorem inspection_ends (include_evidence : bool) :
  wait_ends →
  (_inspect_stream env fuel topic message_id payload_sha256 deadline include_evidence (Conn 0 EmptyString [])).1 ≠ Fuel.
Proof.
  intros Hwait. apply bind_lasts; [exact (cask_lasts CProbeId _)|]. intros id w1 Hid. apply (cask_Ret CProbeId) in Hid as [Hid ->].
  apply bind_lasts; [exact (cask_lasts CUtcNow _)|]. intros now w2 Hnow. apply (cask_Ret CUtcNow) in Hnow as [Hnow ->].
  apply bind_lasts; [|by intros [run_id s] w3 _]. apply try_lasts; [|done].
  apply bind_lasts; [exact (cask_lasts CClock _)|]. intros t w3 Ht. apply (cask_Ret CClock) in Ht as [Ht ->].
  apply bind_lasts; [exact (Hwait id now t Hid Hnow Ht)|]. intros [|] w4 Hw4; [|done].
  apply probe_connected_lasts. refine (post_run (λ w, 0 <= cn_received w) (λ w, 0 <= cn_received w) _ _ _ _ (wait_received _) _ Hw4). exact (Z.le_refl 0).
Qed.
End Ends.

Lemma inspection_ends_witness :
  wait_ends demo_env demo_fuel (fz 100) ∧
  (_inspect_stream demo_env demo_fuel "t" "m1" (sha256_hex demo_text) (fz 100) true (Conn 0 EmptyString [])).1 ≠ Fuel.
Proof.
  assert (wait_ends demo_env demo_fuel (fz 100)) as Hw by (intros id now t _ _ [= <-]; discriminate).
  split; [exact Hw|]. apply (inspection_ends demo_env demo_fuel (fz 100) "t" "m1" (sha256_hex demo_text)); [unfold demo_fuel; lia|exact Hw].
Defined.
