(* ===== verification/ColdLayout.v ===== *)
(** * Persistence lineage of a cold volume ([scripts/cold_redis_acceptance.py])

    [_persistence_layout], which accepts the files of a stopped Redis volume as a
    multipart AOF, a legacy AOF or an RDB image, and the diagnostics of its
    rejections: how a worker reports them ([_copy_worker]) and what the
    controller lets through ([BoundedDocker.call]).  A volume is the contents of
    its files by relative path; the historical mode's check of [dump.rdb] is a
    parameter. *)

From stdpp Require Import strings.
From S2P Require Import Prelude PyStr Regex Sha256 PyVal ColdRedis.

Local Open Scope string_scope.
Local Open Scope list_scope.
Local Open Scope Z_scope.
Local Open Scope regex_scope.

Definition MAX_SOURCE_BYTES : Z := 256 * 1024 ^ 2.
Definition MAX_SOURCE_FILES : Z := 4096.

Definition PERSISTENCE_ERROR_CODES : list string :=
  ["MANIFEST_INVENTORY_UNSUPPORTED"; "MANIFEST_TOO_LARGE"; "MANIFEST_NON_ASCII"; "MANIFEST_ENTRY_UNSUPPORTED";
   "MANIFEST_SEQUENCE_TYPE_CONFLICT"; "MANIFEST_OFFSETS_INVALID"; "COMPONENT_MISSING"; "BASE_CARDINALITY";
   "UNREFERENCED_COMPONENT"; "ORPHANED_APPENDONLYDIR"; "NO_PERSISTENCE_IMAGE"].
Definition WORKER_REJECTION_FIELDS : list string := ["state"; "error"; "stage"; "exception_class"; "error_code"; "diagnostic"].
Definition WORKER_REJECTION_ERROR : string := "bounded read-only copy check failed".
Definition WORKER_REJECTION_STAGES : list string :=
  ["prepare_target_mkdir"; "prepare_target_empty_check"; "prepare_target_chmod"; "prepare_target_chown"; "manifest_source";
   "manifest_bounds"; "manifest_persistence"; "copy_source_manifest"; "copy_persistence_before"; "copy_bounds";
   "copy_target_empty_check"; "copy_tree"; "copy_source_manifest_after"; "copy_target_manifest"; "copy_persistence_after"; "worker_mode"].
Definition WORKER_EXCEPTION_CLASSES : list string :=
  ["AssertionError"; "ColdRedisError"; "FileExistsError"; "FileNotFoundError"; "IsADirectoryError"; "NotADirectoryError"; "OSError";
   "OverflowError"; "PermissionError"; "RuntimeError"; "TimeoutError"; "TypeError"; "ValueError"; "OtherError"].

Definition component_re : regex := RLit "base.rdb" ∣ RLit "incr.aof".
Definition PERSISTENCE_FILENAME : regex := RLit "appendonly.aof." ⋅ RRange 1 10 (RChar is_digit) ⋅ RLit "." ⋅ component_re.

(** ** Errors with a code and a diagnostic *)
(** [ColdRedisError(message, error_code=code, diagnostic=diagnostic)], or another exception *)
Inductive failure := Coded (message : string) (code : string) (diagnostic : option dict) | Plain (e : exc).
Definition checked (A : Type) : Type := (failure + A)%type.
#[global] Instance checked_ret : MRet checked := λ A, inr.
#[global] Instance checked_bind : MBind checked := λ A B f m, match m with inl e => inl e | inr a => f a end.
Definition plain {A} (r : result A) : checked A := match r with Ok a => inr a | Err e => inl (Plain e) end.

(** The attributes [error_code] and [diagnostic] of the exception *)
Definition error_code (f : failure) : option string :=
  match f with Coded _ code _ => if bool_decide (code ∈ PERSISTENCE_ERROR_CODES) then Some code else None | Plain _ => None end.
Definition diagnostic (f : failure) : option dict :=
  match f with Coded _ _ d => match error_code f with Some _ => d | None => None end | Plain _ => None end.

(** [_validate_persistence_diagnostic] *)
Definition diagnostic_item (kv : string * value) : bool :=
  let '(key, item) := kv in
  if String.eqb key "manifest_sha256" then match item with VStr s => fullmatch SHA256 s | _ => false end
  else if bool_decide (key ∈ ["entry_count"; "recognized_file_count"; "sequence"]) then
    match item with VInt n => (0 <=? n) && (n <=? (if String.eqb key "sequence" then 9999999999 else MAX_SOURCE_FILES)) | _ => false end
  else if String.eqb key "filename" then match item with VStr s => fullmatch PERSISTENCE_FILENAME s | _ => false end
  else if String.eqb key "component_type" then match item with VStr s => bool_decide (s ∈ ["base"; "incremental"]) | _ => false end
  else false.

Definition _validate_persistence_diagnostic (v : value) : result (option dict) :=
  match v with
  | VNone => Ok None
  | VDict d =>
      if (6 <? length d)%nat || negb (forallb diagnostic_item d) then raise ColdRedisError "bounded persistence diagnostic is invalid"
      else Ok (Some d)
  | _ => raise ColdRedisError "bounded persistence diagnostic is invalid"
  end.

(** ** [_persistence_layout] *)
Definition volume : Type := list (string * string).

(** [Path(path).name] *)
Definition basename (path : string) : string := default path (last (split_on "/" path)).

Definition MANIFEST : string := "appendonlydir/appendonly.aof.manifest".
Definition MANIFEST_BYTES : Z := 1024 * 1024.

(** The groups of a manifest entry *)
Record entry_match := EntryMatch {
  em_filename : string; em_filename_sequence : string; em_kind : string; em_sequence : string; em_type : string;
  em_startoffset : option string; em_endoffset : option string;
}.

(** [(\d+)\.(base\.rdb|incr\.aof)]; the line is ASCII *)
Definition component_parts (s : string) : option (string * string) :=
  '(digits, kind) ← split_once "." s;
  if sall is_digit digits && negb (String.eqb digits "") && bool_decide (kind ∈ ["base.rdb"; "incr.aof"]) then Some (digits, kind) else None.

Definition OFFSET : regex := RLit "0" ∣ RChar (in_range "1" "9") ⋅ RUpto 18 (RChar is_digit).

Definition entry_head (file filename seq_ sequence type_ entry_type : string) (start finish : option string) : option entry_match :=
  if String.eqb file "file" && startswith "appendonly.aof." filename && String.eqb seq_ "seq" && sall is_digit sequence
     && negb (String.eqb sequence "") && String.eqb type_ "type" && bool_decide (entry_type ∈ ["b"; "i"])
     && forallb (fullmatch OFFSET) (option_list start ++ option_list finish)
  then '(digits, kind) ← component_parts (sdrop 15 filename); Some (EntryMatch filename digits kind sequence entry_type start finish)
  else None.

(** [re.fullmatch] of an entry: its fields are separated by single spaces. *)
Definition match_entry (line : string) : option entry_match :=
  match split_on " " line with
  | [file; filename; seq_; sequence; type_; entry_type] => entry_head file filename seq_ sequence type_ entry_type None None
  | [file; filename; seq_; sequence; type_; entry_type; word; start] =>
      if String.eqb word "startoffset" then entry_head file filename seq_ sequence type_ entry_type (Some start) None else None
  | [file; filename; seq_; sequence; type_; entry_type; word; start; word'; finish] =>
      if String.eqb word "startoffset" && String.eqb word' "endoffset"
      then entry_head file filename seq_ sequence type_ entry_type (Some start) (Some finish) else None
  | _ => None
  end.

Section Layout.
Context (files : volume).

Definition recognized_count : Z := Z.of_nat (length (filter (λ p, fullmatch PERSISTENCE_FILENAME (basename p) = true) (dkeys files))).

Definition reject {A} (manifest_sha256 : option string) (code message : string) (metadata : dict) : checked A :=
  inl (Coded message code
    (Some ([("recognized_file_count", VInt (Z.min recognized_count MAX_SOURCE_FILES))] ++ metadata
           ++ match manifest_sha256 with Some h => [("manifest_sha256", VStr h)] | None => [] end))).

Definition entries_seen (n : Z) : string * value := ("entry_count", VInt (Z.min n MAX_SOURCE_FILES)).
Definition type_name (base : bool) : value := VStr (if base then "base" else "incremental").

(** The local variables of the loop over the lines *)
Record progress := Progress { pg_seen : list (Z * string); pg_entries : Z; pg_multipart : list string }.

Definition INT64_MAX : Z := 9223372036854775807.

(** The offsets of an entry are those of an increment, in order and in range. *)
Definition offsets_ok (m : entry_match) : result bool :=
  match em_startoffset m with
  | None => Ok true
  | Some start =>
      start ← int_of_digits start;
      finish ← match em_endoffset m with Some e => Some <$> int_of_digits e | None => Ok None end;
      Ok (String.eqb (em_type m) "i" && (start <=? INT64_MAX)
          && match finish with Some e => (e <=? INT64_MAX) && (start <=? e) | None => true end)
  end.

Definition entry_metadata (n : Z) (m : entry_match) (base : bool) (sequence : Z) : dict :=
  [entries_seen n; ("filename", VStr (em_filename m)); ("component_type", type_name base); ("sequence", VInt (Z.min sequence 9999999999))].

Definition layout_line (hash : string) (p : progress) (line : string) : checked progress :=
  if String.eqb (strip line) "" then mret p
  else
    let n := pg_entries p + 1 in
    match match_entry line with
    | None => reject (Some hash) "MANIFEST_ENTRY_UNSUPPORTED" "Redis AOF manifest entry is unsupported" [entries_seen n]
    | Some m =>
        sequence ← plain (int_of_digits (em_sequence m));
        if negb (String.eqb (em_type m) (if String.eqb (em_kind m) "base.rdb" then "b" else "i"))
           || negb (String.eqb (em_filename_sequence m) (em_sequence m)) || bool_decide ((sequence, em_type m) ∈ pg_seen p)
        then reject (Some hash) "MANIFEST_SEQUENCE_TYPE_CONFLICT" "Redis AOF manifest sequence or type conflicts"
               (entry_metadata n m (String.eqb (em_type m) "b") sequence)
        else
          ok ← plain (offsets_ok m);
          if negb ok then
            reject (Some hash) "MANIFEST_OFFSETS_INVALID" "Redis AOF manifest offset metadata conflicts"
              (entry_metadata n m (String.eqb (em_type m) "b") sequence)
          else
            let relative := "appendonlydir/" +:+ em_filename m in
            if negb (dmem relative files) then
              reject (Some hash) "COMPONENT_MISSING" "Redis AOF manifest references a missing persistence file"
                (entry_metadata n m (String.eqb (em_kind m) "base.rdb") sequence)
            else mret (Progress (pg_seen p ++ [(sequence, em_type m)]) n (pg_multipart p ++ [relative]))
    end.

Fixpoint layout_lines (hash : string) (p : progress) (lines : list string) : checked progress :=
  match lines with
  | [] => mret p
  | line :: lines => p ← layout_line hash p line; layout_lines hash p lines
  end.

Definition aof_named : list string := filter (λ p, startswith "appendonlydir/" p = true) (dkeys files).

(** The branch with a manifest: its hash, and the files it lists *)
Definition multipart_layout (manifests : list string) : checked (string * list string) :=
  if negb (bool_decide (manifests = [MANIFEST])) then
    reject None "MANIFEST_INVENTORY_UNSUPPORTED" "Redis AOF manifest inventory is ambiguous or unsupported" []
  else
    let raw := default "" (dlookup MANIFEST files) in
    if MANIFEST_BYTES <? slen raw then reject None "MANIFEST_TOO_LARGE" "Redis AOF manifest exceeds its metadata bound" []
    else
      let hash := sha256_hex raw in
      if negb (isascii raw) then
        reject (Some hash) "MANIFEST_NON_ASCII" "Redis AOF manifest metadata is not ASCII" [("entry_count", VInt 0)]
      else
        p ← layout_lines hash (Progress [] 0 []) (splitlines raw);
        let multipart := pg_multipart p in
        if negb (length (filter (λ q, endswith ".base.rdb" q = true) multipart) =? 1)%nat then
          reject (Some hash) "BASE_CARDINALITY" "Redis multipart AOF manifest has no unique base file" [entries_seen (pg_entries p)]
        else if negb (same_set aof_named (multipart ++ manifests)) then
          reject (Some hash) "UNREFERENCED_COMPONENT" "Redis multipart AOF directory has unreferenced persistence files"
            [entries_seen (pg_entries p)]
        else mret (hash, multipart).

Definition file_hash (path : string) : checked value :=
  let content := default "" (dlookup path files) in
  if MAX_SOURCE_BYTES <? slen content then plain (raise ColdRedisError "accepted receipt artifact is missing or exceeds its size bound")
  else mret (VDict [("relative_path", VStr path); ("sha256", VStr (sha256_hex content))]).

Fixpoint file_hashes (paths : list string) : checked (list value) :=
  match paths with
  | [] => mret []
  | p :: paths => h ← file_hash p; l ← file_hashes paths; mret (h :: l)
  end.

(** [_root_rdb_metadata(root, required=True)], asked in the historical mode *)
Context (root_rdb : option (checked dict)).

Definition _persistence_layout : checked dict :=
  let manifests := filter (λ p, endswith ".manifest" p = true) (dkeys files) in
  '(format, hash, multipart) ←
    match manifests with
    | _ :: _ => '(hash, multipart) ← multipart_layout manifests; mret ("REDIS_MULTIPART_AOF", Some hash, multipart)
    | [] =>
        match aof_named with
        | _ :: _ => reject None "ORPHANED_APPENDONLYDIR" "Redis appendonlydir files have no controlling manifest" []
        | [] =>
            if dmem "appendonly.aof" files then mret ("REDIS_LEGACY_AOF", None, ["appendonly.aof"])
            else if dmem "dump.rdb" files then mret ("REDIS_RDB_FALLBACK", None, [])
            else reject None "NO_PERSISTENCE_IMAGE" "Redis volume has no recognized persistence image" []
        end
    end;
  hashes ← file_hashes multipart;
  let report := [("format", VStr format); ("aof_manifest_sha256", match hash with Some h => VStr h | None => VNone end);
                 ("aof_file_hashes", VList hashes); ("rdb_present", VBool (dmem "dump.rdb" files))] in
  match root_rdb with
  | None => mret report
  | Some rdb => rdb ← rdb; mret (report ++ [("historical_root_rdb", VDict rdb)])
  end.
End Layout.

(** ** A worker's rejection, from the exception to the controller *)
(** The record that the [except] clause of [_copy_worker] prints; [type_name] is
    [type(exc).__name__].  It is handed on as a value, without the JSON text in between. *)
Definition rejection_record (type_name stage : string) (f : failure) : dict :=
  let exception_class := if bool_decide (type_name ∈ WORKER_EXCEPTION_CLASSES) then type_name else "OtherError" in
  let code := error_code f in
  let '(code, diagnostic) :=
    match _validate_persistence_diagnostic
            (match code, diagnostic f with Some _, Some d => VDict d | _, _ => VNone end) with
    | Ok d => (code, d)
    | Err _ => (None, None)
    end in
  [("state", VStr "COPY_REJECTED"); ("error", VStr WORKER_REJECTION_ERROR); ("stage", VStr stage);
   ("exception_class", VStr exception_class); ("error_code", match code with Some c => VStr c | None => VNone end);
   ("diagnostic", match diagnostic with Some d => VDict d | None => VNone end)].

Definition text_in (l : list string) (v : value) : option string :=
  match v with VStr s => if bool_decide (s ∈ l) then Some s else None | _ => None end.

(** What [BoundedDocker.call] raises on a worker's failure whose output is this JSON value *)
Definition worker_rejection (rejection : value) : failure :=
  let invalid := Plain (Exc ColdRedisError "bounded worker rejection record is invalid") in
  match rejection with
  | VDict d =>
      if negb (keys_are d WORKER_REJECTION_FIELDS) || negb (py_eq (dget "state" d) (VStr "COPY_REJECTED"))
         || negb (py_eq (dget "error" d) (VStr WORKER_REJECTION_ERROR)) then invalid
      else
        match text_in WORKER_REJECTION_STAGES (dget "stage" d), text_in WORKER_EXCEPTION_CLASSES (dget "exception_class" d) with
        | Some stage, Some cls =>
            let head := "WORKER_REJECTED:" +:+ stage +:+ ":" +:+ cls in
            match dget "error_code" d with
            | VNone =>
                match _validate_persistence_diagnostic (dget "diagnostic" d) with
                | Err e => Plain e
                | Ok (Some _) => invalid
                | Ok None => Plain (Exc ColdRedisError head)
                end
            | v =>
                match text_in PERSISTENCE_ERROR_CODES v with
                | None => invalid
                | Some code =>
                    match _validate_persistence_diagnostic (dget "diagnostic" d) with
                    | Err e => Plain e
                    | Ok diagnostic => Coded (head +:+ ":" +:+ code) code diagnostic
                    end
                end
            end
        | _, _ => invalid
        end
  | _ => invalid
  end.
