(* ===== verification/ColdLayoutSpec.v ===== *)
(** * Which volumes are accepted, and what becomes of a rejection ([ColdLayout]) *)

From stdpp Require Import strings.
From S2P Require Import Prelude PyStr Regex Sha256 PyVal ColdRedis ColdLayout.

Local Open Scope string_scope.
Local Open Scope list_scope.
Local Open Scope Z_scope.
Local Open Scope regex_scope.

(** ** The grammar of a manifest entry *)
Definition D : regex := RChar is_digit.
Definition ENTRY : regex :=
  RLit "file appendonly.aof." ⋅ RPlus D ⋅ RLit "." ⋅ component_re ⋅ RLit " seq " ⋅ RPlus D ⋅ RLit " type " ⋅ (RLit "b" ∣ RLit "i")
    ⋅ ROpt (RLit " startoffset " ⋅ OFFSET ⋅ ROpt (RLit " endoffset " ⋅ OFFSET)).

Definition spaced (l : list string) : string := join " " l.

Lemma free_space_digits s : sall is_digit s = true → free_of " " s = true.
Proof. apply sall_impl. intros c Hc. apply negb_true_iff, Ascii.eqb_neq. by intros ->. Qed.
Lemma free_dot_digits s : sall is_digit s = true → free_of "." s = true.
Proof. apply sall_impl. intros c Hc. apply negb_true_iff, Ascii.eqb_neq. by intros ->. Qed.

Lemma offset_digits s : fullmatch OFFSET s = true → sall is_digit s = true.
Proof. intros H. refine (fullmatch_chars is_digit _ s _ H). by vm_compute. Qed.

Lemma matches_kind s : matches component_re s ↔ s ∈ ["base.rdb"; "incr.aof"].
Proof. unfold component_re. rewrite matches_alt, !matches_lit, !elem_of_cons, elem_of_nil. tauto. Qed.

(** An entry by its groups *)
Definition filename_of (digits kind : string) : string := "appendonly.aof." +:+ digits +:+ "." +:+ kind.
Definition match_of (digits kind sequence entry_type : string) (start finish : option string) : entry_match :=
  EntryMatch (filename_of digits kind) digits kind sequence entry_type start finish.
Definition offset_fields (start finish : option string) : list string :=
  match start with
  | None => []
  | Some a => ["startoffset"; a] ++ match finish with None => [] | Some b => ["endoffset"; b] end
  end.
Definition entry_fields (m : entry_match) : list string :=
  ["file"; em_filename m; "seq"; em_sequence m; "type"; em_type m] ++ offset_fields (em_startoffset m) (em_endoffset m).
Definition entry_line (m : entry_match) : string := join " " (entry_fields m).

Definition digits_ok (s : string) : Prop := sall is_digit s = true ∧ s ≠ "".
Record entry_ok (m : entry_match) : Prop := {
  eo_filename : em_filename m = filename_of (em_filename_sequence m) (em_kind m);
  eo_digits : digits_ok (em_filename_sequence m);
  eo_kind : em_kind m ∈ ["base.rdb"; "incr.aof"];
  eo_sequence : digits_ok (em_sequence m);
  eo_type : em_type m ∈ ["b"; "i"];
  eo_offsets : em_startoffset m = None → em_endoffset m = None;
  eo_offset s : s ∈ option_list (em_startoffset m) ++ option_list (em_endoffset m) → fullmatch OFFSET s = true;
}.

Lemma digits_bool s : digits_ok s ↔ sall is_digit s && negb (String.eqb s "") = true.
Proof. unfold digits_ok. by rewrite andb_true_iff, negb_true_iff, String.eqb_neq. Qed.

Lemma component_parts_spec s digits kind :
  component_parts s = Some (digits, kind) ↔ s = digits +:+ "." +:+ kind ∧ digits_ok digits ∧ kind ∈ ["base.rdb"; "incr.aof"].
Proof.
  unfold component_parts. split.
  - destruct (split_once "." s) as [[a b]|] eqn:E; [|done]. apply split_once_app in E as ->. cbn [mbind option_bind].
    destruct (sall is_digit a && _) eqn:Ea; [|done]. cbn [andb]. destruct (bool_decide _) eqn:Eb; [|done].
    intros [= <- <-]. apply bool_decide_eq_true in Eb. by apply digits_bool in Ea.
  - intros (-> & Hd & Hk). change (digits +:+ "." +:+ kind) with (digits +:+ String "." kind).
    rewrite split_once_free by (apply free_dot_digits, Hd). cbn [mbind option_bind]. apply digits_bool in Hd. rewrite Hd.
    by rewrite bool_decide_true.
Qed.

Lemma entry_head_spec f name q n t e start finish m :
  (start = None → finish = None) →
  entry_head f name q n t e start finish = Some m ↔
  f = "file" ∧ q = "seq" ∧ t = "type" ∧ em_filename m = name ∧ em_sequence m = n ∧ em_type m = e ∧
  em_startoffset m = start ∧ em_endoffset m = finish ∧ entry_ok m.
Proof.
  intros Hnone. unfold entry_head. split.
  - destruct (_ && _) eqn:E; [|done]. rewrite !andb_true_iff, !String.eqb_eq in E.
    destruct E as [[[[[[[-> Hst] ->] Hn1] Hn2] ->] He%bool_decide_eq_true] Hof].
    assert (digits_ok n) as Hnd by (apply digits_bool; by rewrite Hn1, Hn2).
    destruct (component_parts (sdrop 15 name)) as [[digits kind]|] eqn:Ec; [|done]. cbn [mbind option_bind]. intros [= <-].
    apply component_parts_spec in Ec as (Hn & Hd & Hk).
    assert (name = filename_of digits kind) as Hname.
    { apply prefix_app in Hst as [u ->]. change 15%nat with (String.length "appendonly.aof.") in Hn. rewrite sdrop_app in Hn. by rewrite Hn. }
    split_and!; try done. split; cbn; try done. intros s Hs. rewrite forallb_forall in Hof. apply Hof. by apply list_elem_of_In.
  - destruct m as [name' digits kind n' e' start' finish'].
    cbn [em_filename em_filename_sequence em_kind em_sequence em_type em_startoffset em_endoffset].
    intros (-> & -> & -> & <- & <- & <- & <- & <- & [Hf Hd Hk Hs Ht Ho Hof]).
    cbn [em_filename em_filename_sequence em_kind em_sequence em_type em_startoffset em_endoffset] in *.
    apply digits_bool in Hs as Hs'. apply andb_true_iff in Hs' as [Hs1 Hs2].
    rewrite ?String.eqb_refl, Hs1, Hs2, bool_decide_true by done. rewrite Hf. unfold filename_of. rewrite startswith_app. cbn [andb].
    rewrite (proj2 (forallb_forall _ _)) by (intros s Hin; apply Hof; by apply list_elem_of_In).
    change 15%nat with (String.length "appendonly.aof."). rewrite sdrop_app.
    by rewrite (proj2 (component_parts_spec _ digits kind)).
Qed.

Lemma free_literal s : forallb (λ c, negb (Ascii.eqb c " ")) (String.list_ascii_of_string s) = true → free_of " " s = true.
Proof. induction s as [|c s IH]; [done|]. cbn. intros [Hc Hs]%andb_true_iff. unfold free_of. cbn [sall]. rewrite Hc. by apply IH. Qed.

Lemma entry_fields_free m : entry_ok m → forallb (free_of " ") (entry_fields m) = true.
Proof.
  intros [Hf Hd Hk Hs Ht Ho Hof]. assert (free_of " " (em_filename m) = true) as Hn.
  { rewrite Hf. unfold filename_of, free_of. rewrite !sall_app. pose proof (free_space_digits _ (proj1 Hd)) as Hd'. unfold free_of in Hd'. rewrite Hd'.
    rewrite !elem_of_cons in Hk. by destruct Hk as [->|[->|[]%elem_of_nil]]. }
  assert (free_of " " (em_type m) = true) as Hty by (rewrite !elem_of_cons in Ht; by destruct Ht as [->|[->|[]%elem_of_nil]]).
  assert (∀ s, s ∈ option_list (em_startoffset m) ++ option_list (em_endoffset m) → free_of " " s = true) as Hoff
    by (intros s Hin; by apply free_space_digits, offset_digits, Hof).
  unfold entry_fields. rewrite forallb_app. cbn [forallb]. rewrite Hn, Hty, (free_space_digits _ (proj1 Hs)). cbn.
  destruct (em_startoffset m) as [a|]; [|done]. cbn. rewrite Hoff by (cbn; by left). cbn.
  destruct (em_endoffset m) as [b|]; [|done]. cbn. rewrite Hoff by (cbn; right; by left). done.
Qed.

(** The matched lines are the texts of well-formed entries. *)
Lemma match_entry_spec line m : match_entry line = Some m ↔ line = entry_line m ∧ entry_ok m.
Proof.
  split.
  - intros H. assert (∀ l, split_on " " line = l → line = join " " l) as Hj by (intros l <-; symmetry; apply join_split_on).
    unfold match_entry in H. destruct (split_on " " line) as [|x0 [|x1 [|x2 [|x3 [|x4 [|x5 l]]]]]] eqn:E; try done.
    specialize (Hj _ eq_refl). destruct l as [|x6 l].
    + apply entry_head_spec in H as (-> & -> & -> & <- & <- & <- & Hs & He & Hok); [|done].
      unfold entry_line, entry_fields. by rewrite Hs.
    + destruct l as [|x7 [|x8 [|x9 [|]]]]; try done.
      * destruct (String.eqb_spec x6 "startoffset") as [->|]; [|done].
        apply entry_head_spec in H as (-> & -> & -> & <- & <- & <- & Hs & He & Hok); [|done].
        unfold entry_line, entry_fields. by rewrite Hs, He.
      * destruct (String.eqb_spec x6 "startoffset") as [->|]; [|done]. destruct (String.eqb_spec x8 "endoffset") as [->|]; [|done].
        apply entry_head_spec in H as (-> & -> & -> & <- & <- & <- & Hs & He & Hok); [|done].
        unfold entry_line, entry_fields. by rewrite Hs, He.
  - intros [-> Hok]. unfold match_entry, entry_line. rewrite split_on_join; [|done|by apply entry_fields_free].
    unfold entry_fields. pose proof (eo_offsets m Hok) as Hn. unfold offset_fields.
    destruct (em_startoffset m) as [a|] eqn:Es; [destruct (em_endoffset m) as [b|] eqn:Ee|specialize (Hn eq_refl)]; cbn [app];
      apply entry_head_spec; try done.
Qed.

(** ** The lines of a manifest *)
Lemma plain_inr {A} (r : result A) a : plain r = inr a ↔ r = Ok a.
Proof. destruct r; cbn; split; congruence. Qed.
Lemma checked_bind_inr {A B} (m : checked A) (f : A → checked B) b : m ≫= f = inr b ↔ ∃ a, m = inr a ∧ f a = inr b.
Proof. destruct m as [e|a]; cbn; [split; [done|by intros (? & [=] & _)]|]. split; [eauto|]. by intros (? & [= ->] & ?). Qed.

(** The number and the type agree with the file name; only increments have offsets, in order and in 64 bits. *)
Record consistent (m : entry_match) : Prop := {
  co_digits : slen (em_sequence m) <= 4300;
  co_sequence : em_filename_sequence m = em_sequence m;
  co_type : em_type m = (if String.eqb (em_kind m) "base.rdb" then "b" else "i");
  co_start a : em_startoffset m = Some a → em_type m = "i" ∧ dec_val a <= INT64_MAX;
  co_finish a b : em_startoffset m = Some a → em_endoffset m = Some b → dec_val a <= dec_val b <= INT64_MAX;
}.

Definition sequence_key (m : entry_match) : Z * string := (dec_val (em_sequence m), em_type m).
Definition component (m : entry_match) : string := "appendonlydir/" +:+ em_filename m.

Lemma offset_short s : fullmatch OFFSET s = true → slen s <= 19.
Proof.
  rewrite fullmatch_spec. unfold OFFSET. rewrite matches_alt, matches_lit, matches_seq. intros [->|(a & b & -> & Ha & Hb)]; [by vm_compute|].
  apply matches_char in Ha as (c & -> & _). apply matches_upto_char in Hb as [Hb _]. rewrite slen_app. change (slen (String c "")) with 1.
  unfold slen. lia.
Qed.

Lemma offsets_ok_spec m : entry_ok m →
  offsets_ok m = Ok true ↔ (∀ a, em_startoffset m = Some a → em_type m = "i" ∧ dec_val a <= INT64_MAX) ∧
                           (∀ a b, em_startoffset m = Some a → em_endoffset m = Some b → dec_val a <= dec_val b <= INT64_MAX).
Proof.
  intros Hok. assert (∀ s, s ∈ option_list (em_startoffset m) ++ option_list (em_endoffset m) → int_of_digits s = Ok (dec_val s)) as Hint.
  { intros s Hs. apply (eo_offset m Hok), offset_short in Hs. unfold int_of_digits. by rewrite (proj2 (Z.ltb_ge _ _)) by lia. }
  unfold offsets_ok. destruct (em_startoffset m) as [a|]; [|by split; [intros _; split; intros ?; [|intros ?]|]].
  rewrite Hint by (cbn; by left). rewrite bind_ret. destruct (em_endoffset m) as [b|].
  - rewrite Hint by (cbn; right; by left). cbn [fmap result_fmap]. rewrite bind_ret.
    split.
    + intros [= H]. bool_inv. split; [by intros ? [= <-]|by intros ?? [= <-] [= <-]].
    + intros [H1 H2]. destruct (H1 a eq_refl) as [-> H3]. destruct (H2 a b eq_refl eq_refl). f_equal.
      rewrite !(proj2 (Z.leb_le _ _)) by lia. done.
  - rewrite bind_ret, andb_true_r. split.
    + intros [= H]. bool_inv. split; [by intros ? [= <-]|by intros ?? ? [=]].
    + intros [H1 _]. destruct (H1 a eq_refl) as [-> H3]. f_equal. by rewrite (proj2 (Z.leb_le _ _)) by lia.
Qed.

Section Lines.
Context (files : volume) (hash : string).

Definition step_to (p : progress) (m : entry_match) : progress :=
  Progress (pg_seen p ++ [sequence_key m]) (pg_entries p + 1) (pg_multipart p ++ [component m]).

Lemma layout_line_spec p line p' :
  strip line ≠ "" →
  layout_line files hash p line = inr p' ↔
  ∃ m, line = entry_line m ∧ entry_ok m ∧ consistent m ∧ sequence_key m ∉ pg_seen p ∧ dmem (component m) files = true ∧ p' = step_to p m.
Proof.
  intros Hne%String.eqb_neq. unfold layout_line. rewrite Hne. split.
  - destruct (match_entry line) as [m|] eqn:E; [|done]. apply match_entry_spec in E as [-> Hok].
    intros (n & Hn & H)%checked_bind_inr. apply plain_inr in Hn. unfold int_of_digits in Hn. destruct (Z.ltb_spec 4300 (slen (em_sequence m))); [done|].
    injection Hn as <-. destruct (_ || _) eqn:Ec; [done|]. rewrite !orb_false_iff, !negb_false_iff, !String.eqb_eq, bool_decide_eq_false in Ec.
    destruct Ec as [[Ht Hs] Hin]. apply checked_bind_inr in H as (ok & Ho & H). apply plain_inr in Ho. destruct ok; [|done]. cbn [negb] in H.
    apply (offsets_ok_spec m Hok) in Ho as [H1 H2]. destruct (dmem _ files) eqn:Em; [|done]. injection H as <-. exists m. by split_and!.
  - intros (m & -> & Hok & [Hl Hs Ht H1 H2] & Hin & Hm & ->). rewrite (proj2 (match_entry_spec _ m)) by done.
    unfold int_of_digits. rewrite (proj2 (Z.ltb_ge _ _)) by lia. cbn [plain mbind checked_bind].
    assert (negb (String.eqb (em_type m) (if String.eqb (em_kind m) "base.rdb" then "b" else "i")) || negb (String.eqb (em_filename_sequence m) (em_sequence m))
            || bool_decide ((dec_val (em_sequence m), em_type m) ∈ pg_seen p) = false) as ->.
    { by rewrite <- Ht, Hs, !String.eqb_refl, bool_decide_false. }
    rewrite (proj2 (offsets_ok_spec m Hok)) by done. cbn [plain mbind checked_bind negb]. change ("appendonlydir/" +:+ em_filename m) with (component m).
    by rewrite Hm.
Qed.

Definition steps_to (p : progress) (l : list entry_match) : progress := foldl step_to p l.
Definition printed (lines : list string) : list string := filter (λ l, strip l ≠ "") lines.

Lemma layout_lines_spec lines p p' :
  layout_lines files hash p lines = inr p' ↔
  ∃ l, printed lines = entry_line <$> l ∧ Forall (λ m, entry_ok m ∧ consistent m ∧ dmem (component m) files = true) l ∧
       (∀ m, m ∈ l → sequence_key m ∉ pg_seen p) ∧ NoDup (sequence_key <$> l) ∧ p' = steps_to p l.
Proof.
  revert p; induction lines as [|line lines IH]; intros p; cbn [layout_lines].
  - split; [intros [= <-]; exists []; split_and!; [done..|set_solver|constructor|done]|].
    intros (l & Hl & _ & _ & _ & ->). by destruct l.
  - rewrite checked_bind_inr. setoid_rewrite IH. unfold printed. destruct (decide (strip line = "")) as [Hb|Hb].
    + rewrite filter_cons_False by tauto. unfold layout_line at 1. apply String.eqb_eq in Hb. rewrite Hb.
      split; [intros (p1 & [= <-] & H); exact H|intros H; by exists p].
    + rewrite filter_cons_True by done. setoid_rewrite layout_line_spec; [|done]. split.
      * intros (p1 & (m & -> & Hok & Hc & Hin & Hm & ->) & l & Hl & Hf & Hd & Hn & ->). exists (m :: l).
        split_and!; [cbn; by rewrite <- Hl|by constructor| |constructor; [|done]|done].
        -- intros m' [->|Hm']%elem_of_cons; [done|]. specialize (Hd m' Hm'). cbn [step_to pg_seen] in Hd. set_solver.
        -- intros (m' & He & Hm')%list_elem_of_fmap. apply (Hd m' Hm'). cbn [step_to pg_seen]. rewrite He. set_solver.
      * intros (l & Hl & Hf & Hd & Hn & ->). destruct l as [|m l]; [done|]. cbn [fmap list_fmap] in Hl. injection Hl as -> Hl.
        apply Forall_cons in Hf as [(Hok & Hc & Hm) Hf]. cbn [fmap list_fmap] in Hn. apply NoDup_cons in Hn as [Hx Hn].
        exists (step_to p m). split; [exists m; split_and!; try done; apply Hd; by left|].
        exists l. split_and!; try done. intros m' Hm' Hin. cbn [step_to pg_seen] in Hin. apply elem_of_app in Hin as [Hin|Hin%list_elem_of_singleton].
        -- apply (Hd m'); [by right|done].
        -- apply Hx. rewrite <- Hin. by apply list_elem_of_fmap_2.
Qed.
End Lines.

(** ** The layout of a multipart AOF *)
Lemma steps_to_app l p :
  steps_to p l = Progress (pg_seen p ++ (sequence_key <$> l)) (pg_entries p + Z.of_nat (length l)) (pg_multipart p ++ (component <$> l)).
Proof.
  unfold steps_to. revert p; induction l as [|m l IH]; intros p; cbn [foldl].
  - cbn. rewrite !app_nil_r, Z.add_0_r. by destruct p.
  - rewrite IH. unfold step_to. cbn [pg_seen pg_entries pg_multipart fmap list_fmap length]. rewrite <- !app_assoc. f_equal. lia.
Qed.

Lemma app_suffix (a b c d : string) : a +:+ b = c +:+ d → String.length b = String.length d → b = d.
Proof.
  intros H Hl. pose proof (f_equal String.length H) as Hn. rewrite !app_length_str in Hn.
  assert (sdrop (String.length a) (a +:+ b) = sdrop (String.length c) (c +:+ d)) as Hd by (rewrite H; f_equal; lia).
  by rewrite !sdrop_app in Hd.
Qed.

Definition is_base (m : entry_match) : Prop := em_kind m = "base.rdb".
#[global] Instance is_base_dec m : Decision (is_base m).
Proof. unfold is_base. apply _. Defined.

Lemma component_base m : entry_ok m → endswith ".base.rdb" (component m) = true ↔ is_base m.
Proof.
  intros [Hf _ Hk _ _ _ _]. unfold component, is_base. rewrite Hf. unfold filename_of.
  replace ("appendonlydir/" +:+ "appendonly.aof." +:+ em_filename_sequence m +:+ "." +:+ em_kind m)
    with (("appendonlydir/" +:+ "appendonly.aof." +:+ em_filename_sequence m) +:+ ("." +:+ em_kind m)) by by rewrite <- !app_assoc_str.
  rewrite !elem_of_cons in Hk. destruct Hk as [->|[->|[]%elem_of_nil]].
  - split; [done|]. intros _. apply endswith_app.
  - split; [|done]. intros H%endswith_split. apply app_suffix in H; [discriminate H|done].
Qed.

Lemma base_components l :
  Forall entry_ok l → length (filter (λ q, endswith ".base.rdb" q = true) (component <$> l)) = length (filter is_base l).
Proof.
  induction 1 as [|m l Hm _ IH]; [done|]. cbn [fmap list_fmap]. destruct (decide (is_base m)) as [Hb|Hb].
  - rewrite !filter_cons_True; [cbn; by rewrite IH|done|by apply component_base].
  - rewrite !filter_cons_False; [done|done|]. by rewrite component_base.
Qed.

Definition content (files : volume) (path : string) : string := default "" (dlookup path files).

(** What a multipart AOF is: one manifest, of at most a mebibyte of ASCII, whose
    lines are well-formed entries with distinct numbers per type, one of them the
    base, and which names the other files of its directory, all within bounds. *)
Record lineage (files : volume) (l : list entry_match) : Prop := {
  li_manifest : filter (λ p, endswith ".manifest" p = true) (dkeys files) = [MANIFEST];
  li_ascii : isascii (content files MANIFEST) = true;
  li_size : slen (content files MANIFEST) <= MANIFEST_BYTES;
  li_lines : printed (splitlines (content files MANIFEST)) = entry_line <$> l;
  li_entries : Forall (λ m, entry_ok m ∧ consistent m) l;
  li_distinct : NoDup (sequence_key <$> l);
  li_base : length (filter is_base l) = 1%nat;
  li_files path : path ∈ aof_named files ↔ path = MANIFEST ∨ ∃ m, m ∈ l ∧ path = component m;
  li_bounded m : m ∈ l → slen (content files (component m)) <= MAX_SOURCE_BYTES;
}.

Definition lineage_report (files : volume) (l : list entry_match) : dict :=
  [("format", VStr "REDIS_MULTIPART_AOF"); ("aof_manifest_sha256", VStr (sha256_hex (content files MANIFEST)));
   ("aof_file_hashes", VList ((λ m, VDict [("relative_path", VStr (component m)); ("sha256", VStr (sha256_hex (content files (component m))))]) <$> l));
   ("rdb_present", VBool (dmem "dump.rdb" files))].

Lemma file_hashes_spec files paths l :
  file_hashes files paths = inr l ↔
  (∀ p, p ∈ paths → slen (content files p) <= MAX_SOURCE_BYTES) ∧
  l = (λ p, VDict [("relative_path", VStr p); ("sha256", VStr (sha256_hex (content files p)))]) <$> paths.
Proof.
  revert l; induction paths as [|p paths IH]; intros l; cbn [file_hashes].
  - split; [intros [= <-]; split; [set_solver|done]|by intros [_ ->]].
  - rewrite checked_bind_inr. setoid_rewrite checked_bind_inr. setoid_rewrite IH. unfold file_hash. fold (content files p).
    destruct (Z.ltb_spec MAX_SOURCE_BYTES (slen (content files p))) as [Hlt|Hge]; cbn [plain raise].
    + split; [by intros (? & [=] & _)|]. intros [Hb _]. specialize (Hb p ltac:(left)). lia.
    + split.
      * intros (v & [= <-] & l' & [Hb ->] & [= <-]). split; [|done]. intros q [->|Hq]%elem_of_cons; [lia|by apply Hb].
      * intros [Hb ->]. eexists. split; [done|]. eexists. split; [split; [|done]|done]. intros q Hq. apply Hb. by right.
Qed.

Lemma dmem_keys {A} k (d : list (string * A)) : dmem k d = true ↔ k ∈ dkeys d.
Proof.
  unfold dmem. rewrite bool_decide_eq_true. destruct (dlookup k d) as [v|] eqn:E.
  - apply dlookup_elem in E. split; [|by intros _]. intros _. unfold dkeys. apply list_elem_of_fmap. by exists (k, v).
  - apply dlookup_None in E. by split; [intros [? [=]]|].
Qed.

Lemma component_named files m : component m ∈ dkeys files ↔ component m ∈ aof_named files.
Proof. unfold aof_named. rewrite list_elem_of_filter. unfold component. rewrite startswith_app. tauto. Qed.

Lemma multipart_layout_spec files manifests hash multipart :
  multipart_layout files manifests = inr (hash, multipart) ↔
  manifests = [MANIFEST] ∧ hash = sha256_hex (content files MANIFEST) ∧ isascii (content files MANIFEST) = true ∧
  slen (content files MANIFEST) <= MANIFEST_BYTES ∧
  ∃ l, printed (splitlines (content files MANIFEST)) = entry_line <$> l ∧ multipart = component <$> l ∧
       Forall (λ m, entry_ok m ∧ consistent m ∧ dmem (component m) files = true) l ∧ NoDup (sequence_key <$> l) ∧
       length (filter is_base l) = 1%nat ∧ (∀ path, path ∈ aof_named files ↔ path ∈ (component <$> l) ++ [MANIFEST]).
Proof.
  unfold multipart_layout. fold (content files MANIFEST). destruct (decide (manifests = [MANIFEST])) as [->|Hne].
  2:{ rewrite bool_decide_false by done. split; [done|]. by intros [? _]. }
  rewrite bool_decide_true by done. cbn [negb]. destruct (Z.ltb_spec MANIFEST_BYTES (slen (content files MANIFEST))) as [|Hs].
  { split; [done|]. intros (_ & _ & _ & ? & _). lia. }
  destruct (isascii (content files MANIFEST)) eqn:Ha; cbn [negb]; [|by split; [|intros (_ & _ & ? & _)]].
  rewrite checked_bind_inr. setoid_rewrite layout_lines_spec. split.
  - intros (p & (l & Hl & Hf & _ & Hn & ->) & H). rewrite steps_to_app in H. cbn [pg_multipart pg_entries app] in H.
    rewrite base_components in H by (eapply Forall_impl; [exact Hf|]; by intros m (? & ? & ?)).
    destruct (Nat.eqb_spec (length (filter is_base l)) 1) as [Hb|]; [|done]. cbn [negb] in H.
    destruct (same_set _ _) eqn:Eset; [|done]. injection H as <- <-. rewrite same_set_true in Eset. split_and!; try done. by exists l.
  - intros (_ & -> & _ & _ & l & Hl & -> & Hf & Hn & Hb & Hset). eexists. split; [exists l; split_and!; try done; set_solver|].
    rewrite steps_to_app. cbn [pg_multipart pg_entries app]. rewrite base_components by (eapply Forall_impl; [exact Hf|]; by intros m (? & ? & ?)).
    rewrite Hb. cbn [Nat.eqb negb]. by rewrite (proj2 (same_set_true _ _) Hset).
Qed.

(** C24. A volume is accepted as a multipart AOF exactly when it is one: a single
    manifest whose lines are well-formed entries with distinct numbers per type, one
    of them the base, naming exactly the other files of its directory, everything
    within the size bounds; the report lists the entries' files in the manifest's order
    with their digests. *)
Theorem layout_exact (files : volume) (r : dict) :
  _persistence_layout files None = inr r ∧ dget "format" r = VStr "REDIS_MULTIPART_AOF" ↔
  ∃ l, lineage files l ∧ r = lineage_report files l.
Proof.
  unfold _persistence_layout. rewrite checked_bind_inr. split.
  - intros [([[format hash] multipart] & H & Hr) Hformat]. cbn beta iota in Hr.
    apply checked_bind_inr in Hr as (hashes & Hh%file_hashes_spec & [= <-]). destruct Hh as [Hbound ->]. injection Hformat as ->.
    destruct (filter (λ p, endswith ".manifest" p = true) (dkeys files)) as [|p ps] eqn:Em.
    { exfalso. destruct (aof_named files); [|done]. destruct (dmem "appendonly.aof" files); [done|]. by destruct (dmem "dump.rdb" files). }
    apply checked_bind_inr in H as ([h mp] & H & [= <- <-]). apply multipart_layout_spec in H as (Hm & -> & Ha & Hs & l & Hl & -> & Hf & Hn & Hb & Hset).
    exists l. split; [split; try done|].
    + congruence.
    + eapply Forall_impl; [exact Hf|]. by intros m (? & ? & ?).
    + intros path. rewrite Hset, elem_of_app, list_elem_of_singleton, list_elem_of_fmap. naive_solver.
    + intros m Hin. apply Hbound. by apply list_elem_of_fmap_2.
    + unfold lineage_report. by rewrite <- list_fmap_compose.
  - intros (l & [Hm Ha Hs Hl He Hn Hb Hf Hbd] & ->). rewrite Hm. split; [|done].
    exists ("REDIS_MULTIPART_AOF", Some (sha256_hex (content files MANIFEST)), component <$> l). split.
    + apply checked_bind_inr. exists (sha256_hex (content files MANIFEST), component <$> l). split; [|done].
      apply multipart_layout_spec. split_and!; try done. exists l. split_and!; try done.
      * apply Forall_forall. intros m Hin. destruct (proj1 (Forall_forall _ _) He m Hin). split_and!; try done.
        apply dmem_keys, component_named, Hf. right. by exists m.
      * intros path. rewrite Hf, elem_of_app, list_elem_of_singleton, list_elem_of_fmap. naive_solver.
    + cbn beta iota. apply checked_bind_inr. eexists. split; [apply file_hashes_spec; split; [|done]|].
      * intros p (m & -> & Hin)%list_elem_of_fmap. by apply Hbd.
      * unfold lineage_report. by rewrite <- list_fmap_compose.
Qed.

(** ** Rejections and their diagnostics *)
(** The file name in a diagnostic has a sequence of at most ten digits. *)
Definition short_names (d : dict) : Prop := ∀ n, ("filename", VStr n) ∈ d → fullmatch PERSISTENCE_FILENAME n = true.

Definition sound_failure (f : failure) : Prop :=
  match f with
  | Coded _ code (Some d) => code ∈ PERSISTENCE_ERROR_CODES ∧ (length d <= 6)%nat ∧ (short_names d → forallb diagnostic_item d = true)
  | Coded _ _ None => False
  | Plain _ => True
  end.
Definition sound {A} (m : checked A) : Prop := ∀ f, m = inl f → sound_failure f.

Lemma sound_ret {A} (a : A) : sound (mret a).
Proof. by intros f [=]. Qed.
Lemma sound_plain {A} (r : result A) : sound (plain r).
Proof. intros f H. destruct r; [done|]. by injection H as <-. Qed.
Lemma sound_bind {A B} (m : checked A) (f : A → checked B) : sound m → (∀ a, m = inr a → sound (f a)) → sound (m ≫= f).
Proof. intros Hm Hf e H. destruct m as [e'|a]; [|by apply (Hf a)]. injection H as ->. by apply Hm. Qed.

(** Items of the diagnostic which [reject] adds to *)
Definition metadata_ok (metadata : dict) : Prop :=
  (length metadata <= 4)%nat ∧ ∀ kv, kv ∈ metadata → diagnostic_item kv = true ∨ ∃ n, kv = ("filename", VStr n).

Lemma count_item k n : k ∈ ["entry_count"; "recognized_file_count"] → 0 <= n <= MAX_SOURCE_FILES → diagnostic_item (k, VInt n) = true.
Proof.
  rewrite !elem_of_cons, elem_of_nil. intros [->|[->|[]]] Hn; change ((0 <=? n) && (n <=? MAX_SOURCE_FILES) = true);
    rewrite andb_true_iff, !Z.leb_le; lia.
Qed.
Lemma sequence_item n : 0 <= n <= 9999999999 → diagnostic_item ("sequence", VInt n) = true.
Proof. intros Hn. change ((0 <=? n) && (n <=? 9999999999) = true). rewrite andb_true_iff, !Z.leb_le. lia. Qed.

Lemma reject_sound {A} files hash code message metadata :
  code ∈ PERSISTENCE_ERROR_CODES → metadata_ok metadata → (∀ h, hash = Some h → fullmatch SHA256 h = true) →
  sound (@reject files A hash code message metadata).
Proof.
  intros Hc [Hl Hm] Hh f [= <-]. cbn [sound_failure]. split; [done|]. split.
  - cbn. rewrite length_app. destruct hash; cbn; lia.
  - intros Hs. apply forallb_forall. intros kv Hin%list_elem_of_In. cbn in Hin. rewrite elem_of_cons, elem_of_app in Hin.
    destruct Hin as [->|[Hin|Hin]].
    + apply count_item; [by right; left|]. unfold recognized_count, MAX_SOURCE_FILES. lia.
    + destruct (Hm kv Hin) as [H|(n & ->)]; [done|]. unfold diagnostic_item. cbn. apply Hs. cbn. right. apply elem_of_app. by left.
    + destruct hash as [h|]; [|by apply elem_of_nil in Hin]. apply list_elem_of_singleton in Hin as ->. unfold diagnostic_item. cbn. by apply Hh.
Qed.

Lemma sha_SHA256 s : fullmatch SHA256 (sha256_hex s) = true.
Proof. destruct (sha256_hex_ok s) as [Hl Hh]. by apply fullmatch_rep. Qed.

Lemma entries_seen_ok n : 0 <= n → metadata_ok [entries_seen n].
Proof.
  intros Hn. split; [cbn; lia|]. intros kv ->%list_elem_of_singleton. left. apply count_item; [by left|]. unfold MAX_SOURCE_FILES. lia.
Qed.

Lemma entry_metadata_ok n m base sequence : 0 <= n → 0 <= sequence → metadata_ok (entry_metadata n m base sequence).
Proof.
  intros Hn Hs. split; [done|]. intros kv Hin. unfold entry_metadata in Hin. rewrite !elem_of_cons in Hin.
  destruct Hin as [->|[->|[->|[->|[]%elem_of_nil]]]]; [left|right; eauto|left; by destruct base|left].
  - apply count_item; [by left|]. unfold MAX_SOURCE_FILES. lia.
  - apply sequence_item. lia.
Qed.

Section Sound.
Context (files : volume).

Lemma layout_line_sound s p line : 0 <= pg_entries p → sound (layout_line files (sha256_hex s) p line).
Proof.
  intros Hp. unfold layout_line. destruct (String.eqb _ _); [apply sound_ret|].
  assert (∀ h, Some (sha256_hex s) = Some h → fullmatch SHA256 h = true) as Hh by (intros h [= <-]; apply sha_SHA256).
  destruct (match_entry line) as [m|] eqn:E; [|apply reject_sound; [by_decide|apply entries_seen_ok; lia|done]].
  apply match_entry_spec in E as [_ Hok]. apply sound_bind; [apply sound_plain|]. intros n Hn%plain_inr.
  assert (0 <= n) as Hn0.
  { unfold int_of_digits in Hn. destruct (_ <? _); [done|]. injection Hn as <-. apply dec_val_bounds, (eo_sequence m Hok). }
  destruct (_ || _); [apply reject_sound; [by_decide|apply entry_metadata_ok; lia|done]|].
  apply sound_bind; [apply sound_plain|]. intros ok _. destruct (negb ok); [apply reject_sound; [by_decide|apply entry_metadata_ok; lia|done]|].
  destruct (negb _); [apply reject_sound; [by_decide|apply entry_metadata_ok; lia|done]|apply sound_ret].
Qed.

Lemma layout_line_entries hash p line p' : layout_line files hash p line = inr p' → pg_entries p <= pg_entries p' <= pg_entries p + 1.
Proof.
  destruct (decide (strip line = "")) as [Hb|Hb].
  - unfold layout_line. apply String.eqb_eq in Hb. rewrite Hb. intros [= <-]. lia.
  - intros (m & _ & _ & _ & _ & _ & ->)%layout_line_spec; [|done]. cbn. lia.
Qed.

Lemma layout_lines_sound s p lines :
  0 <= pg_entries p → sound (layout_lines files (sha256_hex s) p lines) ∧
  ∀ p', layout_lines files (sha256_hex s) p lines = inr p' → 0 <= pg_entries p'.
Proof.
  revert p; induction lines as [|line lines IH]; intros p Hp; cbn [layout_lines].
  - split; [apply sound_ret|]. by intros p' [= <-].
  - split.
    + apply sound_bind; [by apply layout_line_sound|]. intros p1 H1%layout_line_entries. apply IH. lia.
    + intros p' (p1 & H1%layout_line_entries & H2)%checked_bind_inr. refine (proj2 (IH p1 _) p' H2). lia.
Qed.

Lemma multipart_sound manifests : sound (multipart_layout files manifests).
Proof.
  unfold multipart_layout. destruct (negb _); [apply reject_sound; [by_decide|split; [cbn; lia|set_solver]|done]|].
  destruct (_ <? _); [apply reject_sound; [by_decide|split; [cbn; lia|set_solver]|done]|]. set (raw := default "" (dlookup MANIFEST files)).
  assert (∀ h, Some (sha256_hex raw) = Some h → fullmatch SHA256 h = true) as Hh by (intros h [= <-]; apply sha_SHA256).
  destruct (negb (isascii raw)); [apply reject_sound; [by_decide|by apply (entries_seen_ok 0)|done]|].
  destruct (layout_lines_sound raw (Progress [] 0 []) (splitlines raw) ltac:(done)) as [Hs Hn].
  apply sound_bind; [done|]. intros p Hp%Hn.
  destruct (negb _); [apply reject_sound; [by_decide|by apply entries_seen_ok|done]|].
  destruct (negb _); [apply reject_sound; [by_decide|by apply entries_seen_ok|done]|apply sound_ret].
Qed.

Lemma layout_sound : sound (_persistence_layout files None).
Proof.
  unfold _persistence_layout. apply sound_bind.
  - destruct (filter _ (dkeys files)).
    + destruct (aof_named files); [|apply reject_sound; [by_decide|split; [cbn; lia|set_solver]|done]].
      destruct (dmem _ files); [apply sound_ret|]. destruct (dmem _ files); [apply sound_ret|].
      apply reject_sound; [by_decide|split; [cbn; lia|set_solver]|done].
    + apply sound_bind; [apply multipart_sound|]. intros [hash mp] _. apply sound_ret.
  - intros [[format hash] mp] _. apply sound_bind; [|intros; apply sound_ret].
    induction mp as [|q mp IH]; cbn [file_hashes]; [apply sound_ret|]. apply sound_bind.
    + unfold file_hash. destruct (_ <? _); [apply sound_plain|apply sound_ret].
    + intros h _. apply sound_bind; [exact IH|]. intros l _. apply sound_ret.
Qed.
End Sound.

Lemma long_name_invalid d n : ("filename", VStr n) ∈ d → fullmatch PERSISTENCE_FILENAME n = false → forallb diagnostic_item d = false.
Proof.
  intros Hin Hn. apply not_true_iff_false. intros H. rewrite forallb_forall in H. apply list_elem_of_In, H in Hin.
  change (fullmatch PERSISTENCE_FILENAME n = true) in Hin. congruence.
Qed.

(** C34. A rejection of a volume with an error code reaches the controller as the
    worker raised it, with its code and its diagnostic, if the file name in the
    diagnostic has a sequence of at most ten digits; with a longer one the worker
    drops the code and the diagnostic, and only the stage is left of it. *)
Theorem rejection_transported (files : volume) (stage message code : string) (d : dict) :
  _persistence_layout files None = inl (Coded message code (Some d)) → stage ∈ WORKER_REJECTION_STAGES →
  let head := "WORKER_REJECTED:" +:+ stage +:+ ":" +:+ "ColdRedisError" in
  let transported := worker_rejection (VDict (rejection_record "ColdRedisError" stage (Coded message code (Some d)))) in
  (short_names d → transported = Coded (head +:+ ":" +:+ code) code (Some d)) ∧
  (∀ n, ("filename", VStr n) ∈ d → fullmatch PERSISTENCE_FILENAME n = false → transported = Plain (Exc ColdRedisError head)).
Proof.
  intros H Hstage head transported. apply layout_sound in H as (Hc & Hl & Hd). unfold transported, rejection_record, diagnostic, error_code.
  rewrite (bool_decide_true (code ∈ _)) by done. split.
  - intros Hs. specialize (Hd Hs). assert (_validate_persistence_diagnostic (VDict d) = Ok (Some d)) as Hv.
    { unfold _validate_persistence_diagnostic. rewrite Hd, (proj2 (Nat.ltb_ge _ _)) by lia. done. }
    rewrite Hv, bool_decide_true by by_decide. unfold worker_rejection.
    cbn -[_validate_persistence_diagnostic WORKER_REJECTION_STAGES PERSISTENCE_ERROR_CODES WORKER_EXCEPTION_CLASSES text_in].
    unfold text_in. rewrite !bool_decide_true by (done || by_decide). rewrite Hv. done.
  - intros n Hin Hn. assert (_validate_persistence_diagnostic (VDict d) = raise ColdRedisError "bounded persistence diagnostic is invalid") as Hv.
    { unfold _validate_persistence_diagnostic. by rewrite (long_name_invalid d n Hin Hn), orb_true_r. }
    rewrite Hv, bool_decide_true by by_decide. unfold worker_rejection.
    cbn -[WORKER_REJECTION_STAGES WORKER_EXCEPTION_CLASSES text_in]. unfold text_in. by rewrite !bool_decide_true by (done || by_decide).
Qed.

(** A base that is listed as an increment, under a number of three digits *)
Definition demo_entry (digits : string) : string := "file appendonly.aof." +:+ digits +:+ ".base.rdb seq " +:+ digits +:+ " type i".
Definition demo_volume (digits : string) : volume := [(MANIFEST, demo_entry digits +:+ LF); ("dump.rdb", "")].

Lemma rejection_transported_witness :
  ∃ message d, _persistence_layout (demo_volume "001") None = inl (Coded message "MANIFEST_SEQUENCE_TYPE_CONFLICT" (Some d)) ∧
    worker_rejection (VDict (rejection_record "ColdRedisError" "manifest_persistence" (Coded message "MANIFEST_SEQUENCE_TYPE_CONFLICT" (Some d)))) =
    Coded "WORKER_REJECTED:manifest_persistence:ColdRedisError:MANIFEST_SEQUENCE_TYPE_CONFLICT" "MANIFEST_SEQUENCE_TYPE_CONFLICT" (Some d).
Proof.
  assert (_persistence_layout (demo_volume "001") None = inl (Coded "Redis AOF manifest sequence or type conflicts" "MANIFEST_SEQUENCE_TYPE_CONFLICT"
    (Some [("recognized_file_count", VInt 0); ("entry_count", VInt 1); ("filename", VStr "appendonly.aof.001.base.rdb");
           ("component_type", VStr "incremental"); ("sequence", VInt 1); ("manifest_sha256", VStr (sha256_hex (demo_entry "001" +:+ LF)))]))) as H
    by (vm_compute; reflexivity).
  eexists _, _. split; [exact H|].
  refine (proj1 (rejection_transported _ "manifest_persistence" _ _ _ H _) _); [by_decide|].
  intros n Hin. rewrite !elem_of_cons in Hin. destruct Hin as [[=]|[[=]|[[= ->]|[[=]|[[=]|[[=]|[]%elem_of_nil]]]]]]. by vm_compute.
Defined.
