(* ===== verification/ColdClone.v ===== *)
(** * The cold clone and its resources ([scripts/cold_redis_acceptance.py])

    The Docker commands of one run: the bounded adapter [BoundedDocker.call], the
    inspections of the stopped source, the owned volume and containers, and the
    part of [execute] that begins once the lease is taken and the script is
    snapshotted: the work under [try], the cleanup under [finally], and the
    receipt.  Docker, the clock and the file system answer as functions of the
    history.  What [execute] does before (revision, target, lease) is the
    argument [run]. *)

From stdpp Require Import strings.
From S2P Require Import Prelude PyStr Regex Sha256 PyVal PyTime Json PyBytes Effects ColdRedis ColdLayout.

Local Open Scope string_scope.
Local Open Scope list_scope.
Local Open Scope Z_scope.
Local Open Scope regex_scope.

Definition SOURCE_CONTAINER_ID : string := "cba271ac26764f553cf8319aff992200226c62d02c9c8ca94db4622afd05147a".
Definition SOURCE_IMAGE_ID : string := "sha256:a7859ed111db3c1f5404a973a4747505d559fb5ca32d37e447afc0ef845a2103".
Definition SOURCE_VOLUME : string := "kairos-paper-gate_paper-redis-data".
Definition RUNNER_DIGEST : string := "sha256:2e10e9e936eae3a4a411f65d8b0bd14670ba808368eeff94b4e24021aa291077".
Definition RUNNER_IMAGE : string := "ghcr.io/kairos-cryptoai/kairos-runtime-schema-profile-runner@" +:+ RUNNER_DIGEST.
Definition OWNER_LABEL : string := "com.kairos.cold-redis.owner".
Definition SCOPE_LABEL : string := "com.kairos.cold-redis.scope".
Definition SCOPE : string := "cold-redis-acceptance-v1".
Definition KIND : string := "kairos.cold-redis-acceptance.v1".
Definition HISTORICAL_RDB_KIND : string := "kairos.cold-redis-historical-rdb-observation.v1".
Definition MAX_SECONDS : Z := 240.
Definition CLEANUP_SECONDS : Z := 60.
Definition MAX_STDOUT : Z := 256 * 1024.

(** [s.split(c, n)] *)
Fixpoint split_max (n : nat) (c : ascii) (s : string) : list string :=
  match n with
  | O => [s]
  | S n => match split_once c s with Some (a, b) => a :: split_max n c b | None => [s] end
  end.

(** ** The run, its names and the outside world *)
Record run := Run {
  rn_owner : string;            (* uuid4().hex *)
  rn_target : dict;             (* _target_from_inspection *)
  rn_historical : bool; rn_revision : string; rn_script_sha : string;
  rn_script : string;           (* the path of the script snapshot *)
  rn_target_json : string;      (* the path of target.json *)
}.
Definition role_name (r : run) (role : string) : string := "kairos-cold-redis-" +:+ role +:+ "-" +:+ stake 12 (rn_owner r).
Definition volume_name (r : run) : string := role_name r "data".
Definition redis_name (r : run) : string := role_name r "server".

Inductive dop :=
  | DClock                                                                   (* time.monotonic() *)
  | DVerifyHead                                                              (* _verify_deploy_head(revision), which returns nothing or raises *)
  | DSnapshot                                                                (* the digest of the script snapshot, a plain file *)
  | DNative (arguments : list string) (deadline seconds : flt) (allow_failure : bool)   (* Native.call *)
  | DWriteTarget (data : string)
  | DUtcNow
  | DWriteReceipt (data : value).
Definition dres (o : dop) : Type :=
  match o with DClock => flt | DSnapshot => string | DNative _ _ _ _ => Z * string | DUtcNow => datetime | _ => unit end.

(** The attributes of [BoundedDocker], the locals of [execute] that outlive an
    exception, the attributes of the last coded error, and the history. *)
Record clone := Clone {
  cl_deadline : flt; cl_snapshot : bool; cl_attempted : list string;
  cl_metadata : option dict; cl_copy : option dict; cl_observation : option value;
  cl_coded : option (string * option dict); cl_clean : bool; cl_hist : list (event dres);
}.
Definition dlog (e : event dres) (s : clone) : clone :=
  Clone (cl_deadline s) (cl_snapshot s) (cl_attempted s) (cl_metadata s) (cl_copy s) (cl_observation s) (cl_coded s) (cl_clean s) (cl_hist s ++ [e]).
Definition attempt (role : string) (s : clone) : clone :=
  Clone (cl_deadline s) (cl_snapshot s) (cl_attempted s ++ [role]) (cl_metadata s) (cl_copy s) (cl_observation s) (cl_coded s) (cl_clean s) (cl_hist s).
Definition set_metadata (d : dict) (s : clone) : clone :=
  Clone (cl_deadline s) (cl_snapshot s) (cl_attempted s) (Some d) (cl_copy s) (cl_observation s) (cl_coded s) (cl_clean s) (cl_hist s).
Definition set_copy (d : dict) (s : clone) : clone :=
  Clone (cl_deadline s) (cl_snapshot s) (cl_attempted s) (cl_metadata s) (Some d) (cl_observation s) (cl_coded s) (cl_clean s) (cl_hist s).
Definition set_observation (d : value) (s : clone) : clone :=
  Clone (cl_deadline s) (cl_snapshot s) (cl_attempted s) (cl_metadata s) (cl_copy s) (Some d) (cl_coded s) (cl_clean s) (cl_hist s).
Definition set_coded (c : string * option dict) (s : clone) : clone :=
  Clone (cl_deadline s) (cl_snapshot s) (cl_attempted s) (cl_metadata s) (cl_copy s) (cl_observation s) (Some c) (cl_clean s) (cl_hist s).

Definition set_unclean (s : clone) : clone :=
  Clone (cl_deadline s) (cl_snapshot s) (cl_attempted s) (cl_metadata s) (cl_copy s) (cl_observation s) (cl_coded s) false (cl_hist s).

Section Clone.
Context (env : environment dres) (r : run).

Definition dask (o : dop) : M clone (dres o) := perform dres cl_hist dlog env o.
Definition cold {A} (msg : string) : M clone A := throw ColdRedisError msg.
Definition cold_if (b : bool) (msg : string) : M clone unit := throw_if b ColdRedisError msg.

(** [json.loads] whose [JSONDecodeError] becomes an error with this message *)
Definition loads_or (msg text : string) : M clone value :=
  liftR (catch (λ c, bool_decide (c = JSONDecodeError)) (json_loads text) (λ _, raise ColdRedisError msg)).

(** ** [BoundedDocker] *)
(** [begin_cleanup], which is called once: the reserve is added to the deadline. *)
Definition begin_cleanup (s : clone) : clone :=
  Clone (fadd (cl_deadline s) (fz CLEANUP_SECONDS)) false (cl_attempted s) (cl_metadata s) (cl_copy s) (cl_observation s) (cl_coded s) (cl_clean s) (cl_hist s).

Definition raise_failure {A} (f : failure) : M clone A :=
  match f with
  | Plain e => liftR (Err e)
  | Coded msg _ _ =>
      (match error_code f with Some c => modify (set_coded (c, diagnostic f)) | None => mret tt end);; cold msg
  end.

Definition worker_name : regex := RLit "kairos-cold-redis-" ⋅ RAny ["prepare"; "copy"; "verify"] ⋅ RLit "-" ⋅ hex 12.
Definition worker_start (arguments : list string) : bool :=
  match arguments with
  | ["start"; "--attach"; "--interactive"; name] => fullmatch worker_name name
  | _ => false
  end.

Definition call_with (arguments : list string) (seconds : flt) (allow_worker_rejection : bool) : M clone string :=
  snapshot ← gets cl_snapshot;
  (if (snapshot : bool) then
     sha ← dask DSnapshot;
     cold_if (negb (String.eqb sha (rn_script_sha r))) "cold-clone script snapshot changed before a native call"
   else mret tt);;
  cold_if (allow_worker_rejection && negb (worker_start arguments)) "worker rejection capture is only valid for an owned worker start";;
  deadline ← gets cl_deadline;
  now ← dask DClock;
  let remaining := fsub deadline now in
  cold_if (fleb remaining (fz 4)) "global cold clone deadline exhausted";;
  '(exit_code, output) ← try_except is_exception (dask (DNative arguments deadline (fmin seconds (fsub remaining (fz 3))) allow_worker_rejection))
                           (λ _, cold "bounded Docker operation failed or exceeded its deadline");
  data ← liftR (encode_utf8 output);
  cold_if (MAX_STDOUT <? slen data) "bounded Docker output exceeded its size limit";;
  if exit_code =? 0 then mret output
  else
    cold_if (negb allow_worker_rejection) "bounded Docker operation returned nonzero";;
    rejection ← loads_or "bounded worker rejection record is malformed" output;
    raise_failure (worker_rejection rejection).

Definition call (arguments : list string) : M clone string := call_with arguments (fz 20) false.
Definition call_for (seconds : Z) (arguments : list string) : M clone string := call_with arguments (fz seconds) false.

(** ** Inspections *)
Definition _inspect_source : M clone dict :=
  raw ← call ["inspect"; "--format";
    "{{.Id}}|{{.Image}}|{{.State.Status}}|{{.State.Running}}|{{.State.Paused}}|{{.State.Restarting}}|{{.State.Dead}}|{{json .Mounts}}";
    SOURCE_CONTAINER_ID];
  match split_max 7 "|" raw with
  | [id; image; status; running; paused; restarting; dead; mounts] =>
      mounts ← loads_or "source Redis mount metadata is malformed" mounts;
      let stopped := String.eqb id SOURCE_CONTAINER_ID && String.eqb image SOURCE_IMAGE_ID && String.eqb status "exited"
                     && forallb (String.eqb "false") [running; paused; restarting; dead] in
      match mounts with
      | VList mounts =>
          cold_if (negb stopped) "the exact original Redis container is not stopped or identity-matched";;
          let data := filter (λ m, match m with VDict d => py_eq (dget "Destination" d) (VStr "/data") | _ => false end = true) mounts in
          match data with
          | [VDict d] =>
              cold_if (negb (py_eq (dget "Type" d) (VStr "volume")) || negb (py_eq (dget "Name" d) (VStr SOURCE_VOLUME)))
                "the exact Redis source volume is not mounted at /data";;
              mret [("container_id", VStr id); ("image_id", VStr image); ("state", VStr status); ("volume", VStr SOURCE_VOLUME);
                    ("mount_target", VStr "/data")]
          | _ => cold "the exact Redis source volume is not mounted at /data"
          end
      | _ => cold "the exact original Redis container is not stopped or identity-matched"
      end
  | _ => cold "source Redis metadata is malformed"
  end.

Definition _volume_metadata (name : string) : M clone dict :=
  raw ← call ["volume"; "inspect"; "--format"; "{{.Name}}|{{.Driver}}|{{.Scope}}|{{.CreatedAt}}|{{json .Labels}}|{{json .Options}}"; name];
  match split_max 5 "|" raw with
  | [name'; driver; scope; created_at; labels; options] =>
      cold_if (negb (String.eqb name' name)) "Redis volume metadata differs";;
      labels ← loads_or "Redis volume metadata is malformed" labels;
      options ← loads_or "Redis volume metadata is malformed" options;
      mret [("name", VStr name'); ("driver", VStr driver); ("scope", VStr scope); ("created_at", VStr created_at);
            ("labels", py_or labels (VDict [])); ("options", py_or options (VDict []))]
  | _ => cold "Redis volume metadata differs"
  end.

(** ** Commands *)
Definition owner_labels : list string := ["--label"; OWNER_LABEL +:+ "=" +:+ rn_owner r; "--label"; SCOPE_LABEL +:+ "=" +:+ SCOPE].
Definition labels_value : value := VDict [(OWNER_LABEL, VStr (rn_owner r)); (SCOPE_LABEL, VStr SCOPE)].

Definition confinement (network : list string) : list string :=
  network ++ ["--read-only"; "--cap-drop=ALL"; "--security-opt=no-new-privileges:true"; "--memory=512m"; "--memory-swap=512m"; "--cpus=1";
              "--pids-limit=64"; "--tmpfs"; "/tmp:rw,noexec,nosuid,nodev,size=32m"].
Definition script_mount : list string := ["--mount"; "type=bind,src=" +:+ rn_script r +:+ ",dst=/work/cold_redis_acceptance.py,readonly"].

Definition target_re : regex := RLit "kairos-cold-redis-data-" ⋅ hex 12.

(** [_worker_command], without the options that its callers put after [create] *)
Definition _worker_command (mode : string) (source target : option string) (historical : bool) : result (list string) :=
  _ ← raise_if (historical && negb (bool_decide (mode ∈ ["copy-hash"; "manifest-only"]))) ColdRedisError
       "historical RDB mode is limited to source lineage workers";
  user ← (if String.eqb mode "prepare-target" then
            _ ← raise_if (bool_decide (is_Some source) || negb (match target with Some t => fullmatch target_re t | None => false end)) ColdRedisError
                 "preparation requires only a new owned target volume";
            Ok ["--user=0:0"; "--cap-add=CHOWN"]
          else Ok []);
  Ok (confinement ["--network=none"] ++ ["--pull=never"; "--entrypoint"; "python"] ++ user
      ++ match source with Some s => ["--mount"; "type=volume,src=" +:+ s +:+ ",dst=/source,readonly"] | None => [] end
      ++ match target with Some t => ["--mount"; "type=volume,src=" +:+ t +:+ ",dst=/data"] | None => [] end
      ++ script_mount ++ [RUNNER_IMAGE; "-B"; "/work/cold_redis_acceptance.py"; "--worker"; mode]
      ++ (if historical then ["--historical-root-rdb-only"] else [])).

Definition named (name : string) : list string := ["--name"; name] ++ owner_labels.

Definition _create_new_owned_volume : M clone dict :=
  let name := volume_name r in
  cold_if (negb (fullmatch (hex 32) (rn_owner r))) "new snapshot volume identity is invalid";;
  existing ← call ["volume"; "ls"; "--format"; "{{.Name}}"; "--filter"; "name=^" +:+ name +:+ "$"];
  cold_if (negb (String.eqb (strip existing) "")) "snapshot volume name already exists; never adopt it";;
  modify (attempt "volume");;
  created ← call (["volume"; "create"] ++ owner_labels ++ [name]);
  metadata ← _volume_metadata name;
  cold_if (negb (String.eqb (strip created) name) || negb (py_eq (dget "name" metadata) (VStr name))
           || negb (py_eq (dget "driver" metadata) (VStr "local")) || negb (py_eq (dget "scope" metadata) (VStr "local"))
           || py_truthy (dget "options" metadata) || negb (py_eq (dget "labels" metadata) labels_value))
    "new snapshot volume ownership is unverified";;
  mret metadata.

Definition copy_verified (msg : string) (v : value) : M clone dict :=
  match v with
  | VDict d => if py_eq (dget "state" d) (VStr "COPY_VERIFIED") then mret d else cold msg
  | _ => cold msg
  end.

(** [_run_worker] as [execute] calls it, to copy *)
Definition run_copy : M clone dict :=
  let name := role_name r "copy" in
  command ← liftR (_worker_command "copy-hash" (Some SOURCE_VOLUME) (Some (volume_name r)) (rn_historical r));
  _ ← call (["create"; "--user"; "999:999"] ++ named name ++ command);
  raw ← call_with ["start"; "--attach"; "--interactive"; name] (fz 60) true;
  v ← loads_or "bounded Redis volume worker returned malformed metadata" raw;
  copy_verified "bounded Redis volume copy did not pass source/snapshot integrity" v.

Definition _worker_manifest : M clone dict :=
  let name := role_name r "verify" in
  command ← liftR (_worker_command "manifest-only" (Some SOURCE_VOLUME) None (rn_historical r));
  _ ← call (["create"; "--user"; "999:999"] ++ named name ++ command);
  raw ← call_for 60 ["start"; "--attach"; "--interactive"; name];
  v ← loads_or "bounded source manifest worker returned malformed metadata" raw;
  copy_verified "bounded source manifest check did not pass" v.

Definition watchdog_script (seconds : Z) : string :=
  bt "redis-server `$@` & redis_pid=$!; (sleep " +:+ dec_of_Z seconds +:+ bt "; kill `$redis_pid` 2>/dev/null) & watchdog_pid=$!; "
  +:+ bt "trap 'kill `$redis_pid` 2>/dev/null; kill `$watchdog_pid` 2>/dev/null; wait `$redis_pid` 2>/dev/null; exit 0' TERM INT; "
  +:+ bt "wait `$redis_pid`; status=$?; kill `$watchdog_pid` 2>/dev/null; exit `$status`".

Definition redis_arguments (watchdog_seconds : Z) : list string :=
  ["-c"; watchdog_script watchdog_seconds; "cold-redis-watchdog"; "--bind"; "127.0.0.1"; "--protected-mode"; "yes"; "--port"; "6379";
   "--dir"; "/data"; "--appendonly"; if rn_historical r then "no" else "yes"; "--aof-load-truncated"; "no"; "--daemonize"; "no";
   "--auto-aof-rewrite-percentage"; "0"; "--save"; ""]
  ++ (if rn_historical r then ["--dbfilename"; "dump.rdb"] else []) ++ ["--loglevel"; "warning"].

(** [_metadata_only_docker_command] *)
Definition redis_command (watchdog_seconds : Z) : result (list string) :=
  _ ← raise_if (negb ((30 <=? watchdog_seconds) && (watchdog_seconds <=? MAX_SECONDS))) ColdRedisError
       "Redis clone mode or watchdog is outside its explicit bound";
  Ok (["create"; "--name"; redis_name r; "--user=999:999"; "--network=none"; "--read-only"; "--cap-drop=ALL";
       "--security-opt=no-new-privileges:true"; "--stop-timeout=2"; "--memory=512m"; "--memory-swap=512m"; "--cpus=1"; "--pids-limit=64";
       "--tmpfs"; "/tmp:rw,noexec,nosuid,nodev,size=32m"; "--mount";
       "type=volume,src=" +:+ volume_name r +:+ ",dst=/data" +:+ (if rn_historical r then ",readonly" else "")]
      ++ owner_labels ++ ["--entrypoint"; "sh"; SOURCE_IMAGE_ID] ++ redis_arguments watchdog_seconds).

Definition at_data (m : value) : result bool := d ← py_get "Destination" m; Ok (py_eq d (VStr "/data")).
Fixpoint filterR {A} (f : A → result bool) (l : list A) : result (list A) :=
  match l with
  | [] => Ok []
  | x :: l => b ← f x; l ← filterR f l; Ok (if b : bool then x :: l else l)
  end.

Definition _validate_clone_metadata (expected_cmd : list string) : M clone dict :=
  raw ← call ["inspect"; "--format";
    "{{.Id}}|{{.Image}}|{{.State.Running}}|{{.HostConfig.NetworkMode}}|{{.HostConfig.ReadonlyRootfs}}|{{.HostConfig.Memory}}|{{.HostConfig.MemorySwap}}|{{.HostConfig.NanoCpus}}|{{.HostConfig.PidsLimit}}|{{json .Mounts}}|{{json .Config.Labels}}|{{json .Config.Cmd}}";
    redis_name r];
  match split_max 11 "|" raw with
  | [id; image; running; network; read_only; memory; swap; cpus; pids; mounts; labels; cmd] =>
      mounts ← loads_or "owned Redis clone metadata is malformed" mounts;
      labels ← loads_or "owned Redis clone metadata is malformed" labels;
      cmd ← loads_or "owned Redis clone metadata is malformed" cmd;
      let bounds := forallb (λ p, String.eqb p.1 p.2)
        [(image, SOURCE_IMAGE_ID); (running, "false"); (network, "none"); (read_only, "true"); (memory, dec_of_Z (512 * 1024 ^ 2));
         (swap, dec_of_Z (512 * 1024 ^ 2)); (cpus, dec_of_Z 1000000000); (pids, "64")] in
      match mounts, labels with
      | VList mounts, VDict labels =>
          cold_if (negb bounds || negb (py_eq cmd (VList (VStr <$> expected_cmd))) || negb (py_eq (dget OWNER_LABEL labels) (VStr (rn_owner r)))
                   || negb (py_eq (dget SCOPE_LABEL labels) (VStr SCOPE))) "owned Redis clone security or resource bounds differ";;
          data ← liftR (filterR at_data mounts);
          match data with
          | [m] =>
              name ← liftR (py_get "Name" m);
              rw ← liftR (py_get "RW" m);
              cold_if (negb (py_eq name (VStr (volume_name r))) || negb (match rw with VBool b => Bool.eqb b (negb (rn_historical r)) | _ => false end))
                "owned Redis clone is not using the exact snapshot volume";;
              mret [("container_id", VStr id); ("image_id", VStr image); ("network", VStr network); ("volume", VStr (volume_name r))]
          | _ => cold "owned Redis clone is not using the exact snapshot volume"
          end
      | _, _ => cold "owned Redis clone security or resource bounds differ"
      end
  | _ => cold "owned Redis clone metadata is malformed"
  end.

(** [_remove_owned]: what the inspection must have shown, and the removal *)
Definition owned_volume (name raw : string) : M clone unit :=
  match split_max 1 "|" raw with
  | [name'; labels] =>
      labels ← loads_or "owned volume identity cannot be verified for cleanup" labels;
      cold_if (negb (String.eqb name' name) || negb (py_eq labels labels_value)) "refused cleanup of a volume outside this cold-clone lease"
  | _ => cold "owned volume identity cannot be verified for cleanup"
  end.

Definition owned_container (name raw : string) : M clone unit :=
  match split_max 1 "|" raw with
  | [name'; labels] =>
      labels ← loads_or "owned container identity cannot be verified for cleanup" labels;
      match labels with
      | VDict d =>
          cold_if (negb (String.eqb name' ("/" +:+ name)) || negb (py_eq (dget OWNER_LABEL d) (VStr (rn_owner r)))
                   || negb (py_eq (dget SCOPE_LABEL d) (VStr SCOPE))) "refused cleanup of a container outside this cold-clone lease"
      | _ => cold "refused cleanup of a container outside this cold-clone lease"
      end
  | _ => cold "owned container identity cannot be verified for cleanup"
  end.

Definition _remove_owned (name : string) (volume : bool) : M clone unit :=
  if volume then
    raw ← call_for 10 ["volume"; "inspect"; "--format"; "{{.Name}}|{{json .Labels}}"; name];
    owned_volume name raw;;
    _ ← call_for 10 ["volume"; "rm"; name]; mret tt
  else
    raw ← call_for 10 ["inspect"; "--format"; "{{.Name}}|{{json .Config.Labels}}"; name];
    owned_container name raw;;
    _ ← call_for 10 ["rm"; "--force"; name]; mret tt.

(** ** [execute] *)
(** [type(exc).__name__] *)
Context (type_name : exc → string).

Definition observer_command : list string :=
  ["create"; "--name"; role_name r "observer"] ++ confinement ["--network"; "container:" +:+ redis_name r]
  ++ ["--pull=never"; "--entrypoint"; "python"] ++ script_mount
  ++ ["--mount"; "type=bind,src=" +:+ rn_target_json r +:+ ",dst=/run/target.json,readonly"] ++ owner_labels
  ++ [RUNNER_IMAGE; "-B"; "/work/cold_redis_acceptance.py"; "--worker"; "observe"; "/run/target.json"].

Definition observed_states : list string := ["POSITIVE_ACCEPTED"; "CONFLICT"; "INCONCLUSIVE_ZERO_MATCH"; "INCONCLUSIVE_SCAN_LIMIT"].

(** The volume and its preparation *)
Definition prepare_volume : M clone unit :=
  runner_image_id ← call ["image"; "inspect"; "--format"; "{{.Id}}"; RUNNER_IMAGE];
  cold_if (negb (String.eqb runner_image_id RUNNER_DIGEST)) "cached observer runner image differs from the pinned digest";;
  _ ← _create_new_owned_volume;
  command ← liftR (_worker_command "prepare-target" None (Some (volume_name r)) false);
  modify (attempt "prepare");;
  _ ← call (["create"] ++ named (role_name r "prepare") ++ command);
  prepared ← call_with ["start"; "--attach"; "--interactive"; role_name r "prepare"] (fz 20) true;
  v ← liftR (json_loads prepared);
  done ← liftR (py_get "prepared" v);
  cold_if (negb (is_true done)) "owned snapshot volume preparation did not complete".

(** The copy, and that the source is as it was *)
Definition copy_source (source_before volume_before : dict) : M clone unit :=
  modify (attempt "copy");;
  proof ← run_copy;
  modify (set_copy proof);;
  volume_after ← _volume_metadata SOURCE_VOLUME;
  source_after ← _inspect_source;
  cold_if (negb (py_eq (VDict source_after) (VDict source_before)) || negb (py_eq (VDict volume_after) (VDict volume_before)))
    "original Redis container or volume metadata changed during clone copy".

(** The server over the copy *)
Definition start_clone (deadline : flt) : M clone unit :=
  now ← dask DClock;
  left ← liftR (int_of_float (fsub (fsub deadline now) (fz 20)));
  let watchdog_seconds := Z.min 150 left in
  modify (attempt "redis");;
  command ← liftR (redis_command watchdog_seconds);
  _ ← call command;
  metadata ← _validate_clone_metadata (redis_arguments watchdog_seconds);
  modify (set_metadata metadata);;
  _ ← call_for 30 ["start"; redis_name r];
  mret tt.

(** The probe in a container of its own, on the server's network *)
Definition observe : M clone unit :=
  config ← liftR (_canonical (VDict (dset "historical_rdb_only" (VBool (rn_historical r)) (rn_target r))));
  dask (DWriteTarget (config +:+ LF));;
  modify (attempt "observer");;
  _ ← call observer_command;
  raw ← call_for 80 ["start"; "--attach"; "--interactive"; role_name r "observer"];
  v ← loads_or "Redis observer returned invalid payload-free evidence" raw;
  modify (set_observation v);;
  match v with
  | VDict d =>
      _ ← liftR (raise_if (negb (hashable (dget "state" d))) TypeError "unhashable type");
      cold_if (negb (match dget "state" d with VStr s => bool_decide (s ∈ observed_states) | _ => false end))
        "Redis observer returned an unsupported evidence classification"
  | _ => cold "Redis observer returned an unsupported evidence classification"
  end.

(** The source once more *)
Definition recheck_source (source_before volume_before : dict) : M clone unit :=
  modify (attempt "verify");;
  manifest ← _worker_manifest;
  proof ← gets cl_copy;
  let proof := default [] proof in
  cold_if (negb (py_eq (dget "manifest_sha256" manifest) (dget "source_manifest_sha256" proof))
           || negb (py_eq (dget "persistence" manifest) (dget "persistence" proof)))
    "original Redis volume file or persistence manifest changed after probe";;
  sha ← liftR (py_item "manifest_sha256" (VDict manifest));
  modify (set_copy (dset "source_after_probe_manifest_sha256" sha proof));;
  source ← _inspect_source;
  changed ← (if negb (py_eq (VDict source) (VDict source_before)) then mret true
             else volume ← _volume_metadata SOURCE_VOLUME; mret (negb (py_eq (VDict volume) (VDict volume_before))));
  cold_if changed "original Redis source changed during clone observation".

Definition work (deadline : flt) (source_before volume_before : dict) : M clone unit :=
  prepare_volume;; copy_source source_before volume_before;; start_clone deadline;; observe;; recheck_source source_before volume_before.

(** [error_category] and [error_diagnostic] *)
Definition failed (e : exc) : M clone (option string * option dict) :=
  if bool_decide (exc_cls e = ColdRedisError) then
    coded ← gets cl_coded;
    diagnostic ← liftR (_validate_persistence_diagnostic (match coded with Some (_, Some d) => VDict d | _ => VNone end));
    mret (Some (exc_msg e), diagnostic)
  else mret (Some (type_name e), None).

(** One removal of the cleanup, whose failure is only noted *)
Definition cleanup_one (role : string) (removal : M clone unit) : M clone unit :=
  attempted ← gets cl_attempted;
  if bool_decide (role ∈ attempted) then try_except is_exception removal (λ _, modify set_unclean) else mret tt.

Definition cleanup : M clone unit :=
  modify begin_cleanup;;
  forM ["verify"; "observer"; "copy"; "prepare"] (λ role, cleanup_one role (_remove_owned (role_name r role) false));;
  cleanup_one "redis" (_remove_owned (redis_name r) false);;
  cleanup_one "volume" (_remove_owned (volume_name r) true).

Definition _receipt_classification (state : value) : result string :=
  if rn_historical r then
    _ ← raise_if (negb (hashable state)) TypeError "unhashable type";
    Ok (match state with
        | VStr s => default "FAILED_CLOSED" (dlookup s
            [("POSITIVE_ACCEPTED", "HISTORICAL_RDB_MATCH_OBSERVED_ONLY"); ("CONFLICT", "HISTORICAL_RDB_CONFLICT_NO_ADMISSION");
             ("INCONCLUSIVE_ZERO_MATCH", "HISTORICAL_RDB_INCONCLUSIVE_ZERO_MATCH");
             ("INCONCLUSIVE_SCAN_LIMIT", "HISTORICAL_RDB_INCONCLUSIVE_SCAN_LIMIT")])
        | _ => "FAILED_CLOSED"
        end)
  else Ok (match state with VStr s => s | _ => "FAILED_CLOSED" end).

(** [observation.get(k) if observation else None]: of an answer that is no object, an [AttributeError] *)
Definition observed (s : clone) (k : string) : result value :=
  match cl_observation s with Some v => if py_truthy v then py_get k v else Ok VNone | None => Ok VNone end.

Definition dict_or_none (d : option dict) (k : string) : value := match d with Some d => dget k d | None => VNone end.
Definition text_or_none (s : option string) : value := match s with Some s => VStr s | None => VNone end.

(** The receipt but for its own digest; [before] and [after] are the source's and its volume's metadata. *)
Definition receipt (created_at : string) (before : dict * dict) (after : option dict * option dict) (hash_before : string) (hash_after : option string)
    (category : option string) (diagnostic : option dict) (s : clone) (classification : string) (clone_run_id : value) : dict :=
  let identity (historical current : string) := VStr (if rn_historical r then historical else current) in
  let copy_proof := cl_copy s in
  let unchanged := match after with (Some a, Some v) => py_eq (VDict a) (VDict before.1) && py_eq (VDict v) (VDict before.2) | _ => false end in
  [("schema_version", VInt 1); ("kind", identity HISTORICAL_RDB_KIND KIND);
   ("persistence_identity", identity "ROOT_DUMP_RDB_HISTORICAL_NOT_CURRENT_STATE" "CURRENT_REDIS_PERSISTENCE_DEFAULT");
   ("observation_identity", identity "ROOT_DUMP_RDB_HISTORICAL_NOT_CURRENT_STATE" "CURRENT_REDIS_PERSISTENCE_DEFAULT");
   ("result", VStr (if match cl_observation s with Some v => py_truthy v | None => false end && bool_decide (category = None) then classification else "FAILED_CLOSED"));
   ("owner", VStr (rn_owner r)); ("created_at_utc", VStr created_at); ("expected_deploy_revision", VStr (rn_revision r));
   ("implementation_sha256", VStr (rn_script_sha r));
   ("accepted_clone_receipt_sha256", dget "accepted_clone_receipt_sha256" (rn_target r));
   ("native_inspection_sha256", dget "native_inspection_sha256" (rn_target r));
   ("source", VDict (dmerge before.1
      [("volume_metadata_sha256_before", VStr hash_before); ("volume_metadata_sha256_after", text_or_none hash_after);
       ("file_manifest_sha256_before_copy", dict_or_none copy_proof "source_manifest_sha256");
       ("file_manifest_sha256_after_copy", dict_or_none copy_proof "source_after_manifest_sha256");
       ("file_manifest_sha256_after_probe", dict_or_none copy_proof "source_after_probe_manifest_sha256");
       ("source_unchanged", VBool unchanged)]));
   ("cold_clone", VDict
      [("snapshot_volume", VStr (volume_name r)); ("snapshot_content_sha256", dict_or_none copy_proof "snapshot_content_sha256");
       ("snapshot_file_count", dict_or_none copy_proof "file_count"); ("snapshot_bytes", dict_or_none copy_proof "total_bytes");
       ("persistence_lineage", dict_or_none copy_proof "persistence");
       ("redis_instance_identity", identity "ISOLATED_HISTORICAL_ROOT_RDB_CLONE_NOT_CURRENT_STATE" "ISOLATED_COLD_CLONE_NOT_ORIGINAL_SERVER");
       ("clone_container_id", dict_or_none (cl_metadata s) "container_id");
       ("clone_run_id", clone_run_id);
       ("native_container_removed", VBool (cl_clean s)); ("snapshot_volume_removed", VBool (cl_clean s))]);
   ("redis_server_identity_scope", identity "ISOLATED_HISTORICAL_ROOT_RDB_CLONE_NOT_CURRENT_STATE" "ISOLATED_COLD_CLONE_NOT_ORIGINAL_SERVER");
   ("cold_redis_sha256", dict_or_none copy_proof "snapshot_content_sha256");
   ("target_identity", VDict ((λ k, (k, dget k (rn_target r))) <$> ["topic"; "message_id"; "canonical_payload_sha256"; "reconciliation_id"]));
   ("observation", default VNone (cl_observation s));
   ("primary_database_contacted", VBool false); ("original_redis_started", VBool false); ("original_redis_commands", VInt 0);
   ("credentials_read", VBool false); ("payload_in_receipt", VBool false); ("publisher_calls", VInt 0); ("automatic_resolution", VBool false);
   ("error_category", text_or_none category); ("error_diagnostic", match diagnostic with Some d => VDict d | None => VNone end)].

(** After the cleanup: the source again, and the verdict on it *)
Definition source_again : M clone (option dict * option dict * option string) :=
  clean ← gets cl_clean;
  if negb (clean : bool) then mret (None, None, None)
  else try_except (λ c, bool_decide (c = ColdRedisError))
         (source ← _inspect_source;
          try_except (λ c, bool_decide (c = ColdRedisError))
            (volume ← _volume_metadata SOURCE_VOLUME; mret (Some source, Some volume, None))
            (λ _, mret (Some source, None, Some "ORIGINAL_REDIS_SOURCE_UNVERIFIED")))
         (λ _, mret (None, None, Some "ORIGINAL_REDIS_SOURCE_UNVERIFIED")).

Definition same_dict (a : option dict) (b : dict) : bool := match a with Some d => py_eq (VDict d) (VDict b) | None => false end.

(** What precedes the work: the deadline, and the source as it is found *)
Definition begin_run : M clone (flt * dict * dict) :=
  now ← dask DClock;
  let deadline := fsub (fadd now (fz MAX_SECONDS)) (fz CLEANUP_SECONDS) in
  modify (λ s, Clone deadline true (cl_attempted s) (cl_metadata s) (cl_copy s) (cl_observation s) (cl_coded s) (cl_clean s) (cl_hist s));;
  dask DVerifyHead;;
  sha ← dask DSnapshot;
  cold_if (negb (String.eqb sha (rn_script_sha r))) "cold-clone script snapshot changed before Linux worker invocation";;
  source_before ← _inspect_source;
  volume_before ← _volume_metadata SOURCE_VOLUME;
  mret (deadline, source_before, volume_before).

(** [error_category] and [error_diagnostic] when the cleanup is over *)
Definition guarded_work (deadline : flt) (source_before volume_before : dict) : M clone (option string * option dict) :=
  try_finally (try_except is_exception (work deadline source_before volume_before;; mret (None, None)) failed) cleanup.

Definition final_category (clean : bool) (source_before volume_before : dict) (source_after volume_after : option dict)
    (category unverified : option string) : option string :=
  let category := if clean then category else Some "OWNED_CLONE_CLEANUP_UNVERIFIED" in
  let category := match unverified with Some c => Some c | None => category end in
  if clean && (negb (same_dict source_after source_before) || negb (same_dict volume_after volume_before))
  then Some "ORIGINAL_REDIS_SOURCE_CHANGED" else category.

Definition finish_run (source_before volume_before : dict) (category : option string) (diagnostic : option dict) : M clone dict :=
  clean ← gets cl_clean;
  '(source_after, volume_after, unverified) ← source_again;
  let category := final_category clean source_before volume_before source_after volume_after category unverified in
  s ← get;
  state ← liftR (observed s "state");
  classification ← liftR (_receipt_classification state);
  created_at ← dask DUtcNow;
  hash_before ← liftR (_canonical (VDict volume_before));
  hash_after ← (match volume_after with
                | Some (_ :: _ as v) => text ← liftR (_canonical (VDict v)); mret (Some (sha256_hex text))
                | _ => mret None
                end);
  run_id ← liftR (observed s "redis_server_run_id");
  let result := receipt (utc_text created_at) (source_before, volume_before) (source_after, volume_after) (sha256_hex hash_before) hash_after
                  category diagnostic s classification run_id in
  text ← liftR (_canonical (VDict result));
  let result := result ++ [("receipt_sha256", VStr (sha256_hex text))] in
  dask (DWriteReceipt (VDict result));;
  mret result.

Definition execute_clone : M clone dict :=
  '(deadline, source_before, volume_before) ← begin_run;
  '(category, diagnostic) ← guarded_work deadline source_before volume_before;
  finish_run source_before volume_before category diagnostic.
End Clone.

(** The state in which a run begins *)
Definition clone0 : clone := Clone (fz 0) false [] None None None None true [].

(** The exit status of [main] for a receipt *)
Definition accepted_results : list string :=
  ["POSITIVE_ACCEPTED"; "CONFLICT"; "INCONCLUSIVE_ZERO_MATCH"; "INCONCLUSIVE_SCAN_LIMIT"; "HISTORICAL_RDB_MATCH_OBSERVED_ONLY";
   "HISTORICAL_RDB_CONFLICT_NO_ADMISSION"; "HISTORICAL_RDB_INCONCLUSIVE_ZERO_MATCH"; "HISTORICAL_RDB_INCONCLUSIVE_SCAN_LIMIT"].
Definition exit_status (d : dict) : Z := match dget "result" d with VStr s => if bool_decide (s ∈ accepted_results) then 0 else 1 | _ => 1 end.
