(* ===== verification/ColdCloneSpec.v ===== *)
(** * What a cold-clone run may do to Docker ([ColdClone])

    For every answer of Docker, the clock and the file system, the run creates
    only confined resources of its own, starts only those, and removes one only
    when the call just before showed it as its own. *)

From stdpp Require Import strings.
From S2P Require Import Prelude PyStr Regex Sha256 PyVal PyTime Json PyBytes Effects ColdRedis ColdLayout ColdClone.

Local Open Scope string_scope.
Local Open Scope list_scope.
Local Open Scope Z_scope.

(** ** The Docker calls of a history *)
Abbreviation docker_call := (list string * result (Z * string))%type.

Definition native (e : event dres) : option docker_call :=
  match e with
  | Ev o a => match o return result (dres o) → option docker_call with
              | DNative args _ _ _ => λ a, Some (args, a)
              | _ => λ _, None
              end a
  end.
Definition calls (s : clone) : list docker_call := omap native (cl_hist s).

(** Commands that change nothing *)
Definition observing (args : list string) : bool :=
  existsb (λ p, bool_decide (take (length p) args = p)) [["inspect"]; ["volume"; "inspect"]; ["volume"; "ls"]; ["image"; "inspect"]].

Fixpoint value_after (key : string) (args : list string) : option string :=
  match args with
  | k :: args => if String.eqb k key then head args else value_after key args
  | [] => None
  end.

(** The container or volume that a command creates *)
Definition created_name (args : list string) : option string :=
  match args with
  | "create" :: rest => value_after "--name" rest
  | "volume" :: "create" :: rest => last rest
  | _ => None
  end.

Definition removal (volume : bool) (name : string) : list string := if volume then ["volume"; "rm"; name] else ["rm"; "--force"; name].

Section Spec.
Context (env : environment dres) (r : run).

Definition roles : list string := ["verify"; "observer"; "copy"; "prepare"; "redis"; "volume"].
Definition name_of (role : string) : string :=
  if String.eqb role "redis" then redis_name r else if String.eqb role "volume" then volume_name r else role_name r role.

(** The mounts of the containers a run creates: the source's volume can only be read. *)
Definition mounts : list string :=
  ["type=volume,src=" +:+ SOURCE_VOLUME +:+ ",dst=/source,readonly"; "type=volume,src=" +:+ volume_name r +:+ ",dst=/data";
   "type=volume,src=" +:+ volume_name r +:+ ",dst=/data,readonly"; "type=bind,src=" +:+ rn_script r +:+ ",dst=/work/cold_redis_acceptance.py,readonly";
   "type=bind,src=" +:+ rn_target_json r +:+ ",dst=/run/target.json,readonly"].

Definition confined_create (name : string) (args : list string) : Prop :=
  head args = Some "create" ∧ created_name args = Some name ∧
  (∃ role, role ∈ roles ∧ name = name_of role) ∧
  "--read-only" ∈ args ∧ "--cap-drop=ALL" ∈ args ∧ "--security-opt=no-new-privileges:true" ∈ args ∧
  ("--network=none" ∈ args ∨ value_after "--network" args = Some ("container:" +:+ redis_name r)) ∧
  (∀ m, m ∈ args → startswith "type=" m = true → m ∈ mounts).

(** What an inspection showed *)
Definition shown (volume : bool) (name raw : string) : Prop :=
  ∃ text labels, json_loads text = Ok labels ∧
    if volume then split_max 1 "|" raw = [name; text] ∧ py_eq labels (labels_value r) = true
    else split_max 1 "|" raw = ["/" +:+ name; text] ∧
         ∃ d, labels = VDict d ∧ dget OWNER_LABEL d = VStr (rn_owner r) ∧ dget SCOPE_LABEL d = VStr SCOPE.
Definition identity_query (volume : bool) (name : string) : list string :=
  if volume then ["volume"; "inspect"; "--format"; "{{.Name}}|{{json .Labels}}"; name]
  else ["inspect"; "--format"; "{{.Name}}|{{json .Config.Labels}}"; name].

Definition server_shown (raw : string) : Prop :=
  ∃ id mounts labels cmd, split_max 11 "|" raw =
    [id; SOURCE_IMAGE_ID; "false"; "none"; "true"; "536870912"; "536870912"; "1000000000"; "64"; mounts; labels; cmd].

(** What may be called after the calls [pre] *)
Definition authorised (pre : list docker_call) (args : list string) : Prop :=
  observing args = true
  ∨ args = ["volume"; "create"] ++ owner_labels r ++ [volume_name r]
  ∨ (∃ name, confined_create name args)
  ∨ (∃ name cargs raw, args = ["start"; "--attach"; "--interactive"; name] ∧ last pre = Some (cargs, Ok (0, raw)) ∧ confined_create name cargs)
  ∨ (args = ["start"; redis_name r] ∧ ∃ query raw, last pre = Some (["inspect"; "--format"; query; redis_name r], Ok (0, raw)) ∧ server_shown raw)
  ∨ (∃ volume role raw, role ∈ roles ∧ args = removal volume (name_of role) ∧
       last pre = Some (identity_query volume (name_of role), Ok (0, raw)) ∧ shown volume (name_of role) raw).

Definition authorised_calls (l : list docker_call) : Prop := ∀ pre args a post, l = pre ++ (args, a) :: post → authorised pre args.

Lemma authority_snoc l args a : authorised_calls l → authorised l args → authorised_calls (l ++ [(args, a)]).
Proof.
  intros Hl Ha pre args' a' post. destruct post as [|e post _] using rev_ind.
  - intros [-> [= -> ->]]%app_inj_tail. exact Ha.
  - rewrite app_comm_cons, app_assoc. intros [Heq _]%app_inj_tail. by eapply Hl.
Qed.

(** ** One call *)
(** Operations other than [DNative] leave the calls as they are. *)
Definition quiet (I : clone → Prop) : Prop := ∀ s s', calls s' = calls s → cl_attempted s' = cl_attempted s → cl_clean s' = cl_clean s → I s → I s'.

Lemma calls_dlog e s : calls (dlog e s) = calls s ++ option_list (native e).
Proof. unfold calls, dlog. cbn. rewrite omap_app. cbn. by destruct (native e). Qed.

Lemma keeps_quiet_ask (I : clone → Prop) o : quiet I → (∀ a, native (Ev o a) = None) → keeps I (dask env o).
Proof.
  intros HI Ho s Hs. unfold dask, perform. cbn. apply (HI s); [|done..|done].
  rewrite calls_dlog, Ho. cbn. by rewrite app_nil_r.
Qed.

Lemma keeps_cold {A} I msg : keeps I (cold (A:=A) msg).
Proof. apply keeps_throw. Qed.
Lemma keeps_cold_if I b msg : keeps I (cold_if b msg).
Proof. apply keeps_throw_if. Qed.
Lemma keeps_loads I msg text : keeps I (loads_or msg text).
Proof. apply keeps_liftR. Qed.
#[local] Hint Resolve keeps_cold keeps_cold_if keeps_loads : keeps.

Lemma keeps_coded (I : clone → Prop) c : quiet I → keeps I (modify (set_coded c)).
Proof. intros HI. apply keeps_modify. intros s. by apply HI. Qed.

(** [s] comes of a state in [I] by the call [args], answered with [a]. *)
Definition after (I : clone → Prop) (args : list string) (a : result (Z * string)) (s : clone) : Prop :=
  ∃ s0, I s0 ∧ calls s = calls s0 ++ [(args, a)] ∧ cl_attempted s = cl_attempted s0 ∧ cl_clean s = cl_clean s0.

Lemma quiet_after I args a : quiet (after I args a).
Proof. intros s s' H1 H2 H3 (s0 & ? & ? & ? & ?). exists s0. by rewrite H1, H2, H3. Qed.

Lemma native_call args deadline seconds w (I : clone → Prop) :
  post I (try_except is_exception (dask env (DNative args deadline seconds w))
            (λ _, cold "bounded Docker operation failed or exceeded its deadline"))
    (ends (λ x s, after I args (Ok x) s) (λ s, ∃ a, after I args a s)).
Proof.
  intros s Hs. unfold try_except, dask, perform. set (a := env (cl_hist s) _).
  assert (after I args a (dlog (Ev (DNative args deadline seconds w) a) s)) as Ha by (exists s; by rewrite calls_dlog).
  clearbody a. destruct a as [x|e]; cbn; [done|]. by destruct (is_exception (exc_cls e)); eexists.
Qed.

Lemma keeps_snapshot I (snapshot : bool) : quiet I →
  keeps I (if snapshot then sha ← dask env DSnapshot;
    cold_if (negb (String.eqb sha (rn_script_sha r))) "cold-clone script snapshot changed before a native call" else mret tt).
Proof. intros HI. destruct snapshot; keeps_walk. by apply keeps_quiet_ask. Qed.

(** A call that returns was answered with exit status 0 and this output. *)
Lemma call_post args seconds w (I : clone → Prop) :
  quiet I →
  post I (call_with env r args seconds w)
    (ends (λ raw s, after I args (Ok (0, raw)) s) (λ s, I s ∨ ∃ a, after I args a s)).
Proof.
  intros HI. unfold call_with. set (E := λ s, I s ∨ ∃ a, after I args a s).
  eapply post_step; [apply (post_keeps I E); [keeps_walk|by left]; auto with keeps|intros snapshot].
  eapply post_step; [apply (post_keeps I E); [by apply keeps_snapshot|by left]|intros []].
  eapply post_step; [apply (post_keeps I E); [keeps_walk|by left]|intros []].
  eapply post_step; [apply (post_keeps I E); [keeps_walk|by left]|intros deadline].
  eapply post_step; [apply (post_keeps I E); [by apply keeps_quiet_ask|by left]|intros now].
  eapply post_step; [apply (post_keeps I E); [keeps_walk|by left]|intros []].
  apply (post_step _ (λ x s, after I args (Ok x) s)); [eapply post_weaken; [apply native_call|done|]; intros [x| |] s; [done|by right..]|].
  intros [code out]. assert (∀ s, after I args (Ok (code, out)) s → E s) as HE by (right; eauto).
  pose proof (quiet_after I args (Ok (code, out))) as Hq.
  eapply post_step; [apply (post_keeps _ E); [keeps_walk|done]|intros data].
  eapply post_step; [apply (post_keeps _ E); [keeps_walk|done]|intros []].
  destruct (Z.eqb_spec code 0) as [->|]; [by intros s Hs|].
  eapply post_step; [apply (post_keeps _ E); [keeps_walk|done]|intros []].
  eapply post_step; [apply (post_keeps _ E); [keeps_walk|done]|intros v].
  intros s Hs. assert (keeps (after I args (Ok (code, out))) (raise_failure (A:=string) (worker_rejection v))) as Hk.
  { unfold raise_failure. destruct (worker_rejection v); [|keeps_walk]. apply keeps_bind; [|intros; unfold cold; keeps_walk].
    destruct (error_code _); [by apply keeps_coded|keeps_walk]. }
  specialize (Hk s Hs). assert (∀ x, (raise_failure (A:=string) (worker_rejection v) s).1 ≠ Ret x) as Hr.
  { unfold raise_failure. destruct (worker_rejection v); [|done]. by destruct (error_code _). }
  destruct (raise_failure _ s) as [[x|e|] s']; cbn in *; [by destruct (Hr x)|by apply HE..].
Qed.

(** ** The run keeps to its authority *)
Definition safe (s : clone) : Prop := authorised_calls (calls s).

Lemma quiet_safe : quiet safe.
Proof. intros s s' H _ _. unfold safe. by rewrite H. Qed.

Lemma call_safe args seconds w (P : clone → Prop) :
  quiet P → (∀ s, P s → safe s ∧ authorised (calls s) args) →
  post P (call_with env r args seconds w)
    (ends (λ raw s, safe s ∧ last (calls s) = Some (args, Ok (0, raw))) safe).
Proof.
  intros HP Ha. eapply post_weaken; [apply (call_post _ _ _ P HP)|done|].
  assert (∀ a s, after P args a s → safe s ∧ last (calls s) = Some (args, a)) as H.
  { intros a s (s0 & H0 & Hc & _). destruct (Ha s0 H0) as [Hs Hau]. unfold safe. rewrite Hc, last_snoc.
    split; [by apply authority_snoc|done]. }
  intros [raw|e|] s; cbn; [apply H| |]; (intros [H0|[a Hs]]; [by apply Ha|by apply H in Hs as []]).
Qed.

Lemma keeps_docker_call args seconds w : (∀ pre, authorised pre args) → keeps safe (call_with env r args seconds w).
Proof.
  intros Ha. eapply post_weaken; [apply (call_safe args seconds w safe quiet_safe); auto|done|].
  by intros [raw|e|] s; cbn; [intros []|..].
Qed.

(** The creations *)
Definition fine (m : string) : Prop := startswith "type=" m = true → m ∈ mounts.

Ltac each_mount := repeat first [apply Forall_nil; exact I | apply Forall_app; split | apply Forall_cons; split];
  let Ht := fresh "Ht" in intros Ht; first [discriminate Ht | unfold mounts; member].

Lemma fine_confinement network : Forall fine network → Forall fine (confinement network).
Proof. intros H. apply Forall_app. split; [done|]. each_mount. Qed.

Lemma fine_named name : startswith "type=" name = false → Forall fine (named r name).
Proof. intros H. unfold named, owner_labels. cbn [app]. each_mount. congruence. Qed.

Lemma worker_fine mode source target historical command :
  _worker_command r mode source target historical = Ok command → startswith "type=" mode = false →
  source = None ∨ source = Some SOURCE_VOLUME → target = None ∨ target = Some (volume_name r) →
  Forall fine command ∧ ∃ rest, command = confinement ["--network=none"] ++ rest.
Proof.
  intros Hc Hm Hs Ht. unfold _worker_command in Hc. ok_inv Hc. subst.
  assert (Forall fine a0) as Ha by (destruct (String.eqb mode "prepare-target"); ok_inv Hok0; each_mount).
  split; [|by eexists]. apply Forall_app. split; [apply fine_confinement; each_mount|].
  apply Forall_app. split; [each_mount|]. apply Forall_app. split; [done|].
  apply Forall_app. split; [destruct Hs as [->| ->]; each_mount|]. apply Forall_app. split; [destruct Ht as [->| ->]; each_mount|].
  apply Forall_app. split; [unfold script_mount; each_mount|].
  repeat (apply Forall_cons; split; [by intros H; first [discriminate H|rewrite Hm in H]|]). destruct historical; each_mount.
Qed.

Lemma worker_confined mode source target historical command user role :
  _worker_command r mode source target historical = Ok command → startswith "type=" mode = false →
  source = None ∨ source = Some SOURCE_VOLUME → target = None ∨ target = Some (volume_name r) →
  user = [] ∨ user = ["--user"; "999:999"] → role ∈ ["verify"; "copy"; "prepare"] →
  confined_create (role_name r role) (["create"] ++ user ++ named r (role_name r role) ++ command).
Proof.
  intros Hc Hm Hs Ht Hu Hr. destruct (worker_fine _ _ _ _ _ Hc Hm Hs Ht) as [Hf [rest ->]].
  unfold confined_create. split; [done|]. split; [by destruct Hu as [->| ->]|]. split.
  { exists role. unfold roles, name_of. rewrite !elem_of_cons in *.
    split; [naive_solver|]. by destruct Hr as [->|[->|[->|[]%elem_of_nil]]]. }
  split_and!; [by destruct Hu as [->| ->]; member..|left; by destruct Hu as [->| ->]; member|].
  apply (Forall_forall fine). apply Forall_cons. split; [done|]. apply Forall_app. split; [destruct Hu as [->| ->]; each_mount|].
  apply Forall_app. split; [by apply fine_named|done].
Qed.

Lemma redis_confined seconds command : redis_command r seconds = Ok command → confined_create (redis_name r) command.
Proof.
  unfold redis_command. intros H. ok_inv H. subst. unfold confined_create.
  split; [done|]. split; [done|]. split; [exists "redis"; split; [unfold roles; member|done]|].
  split_and!; [member..|left; member|].
  apply (Forall_forall fine). unfold owner_labels. cbn [app].
  repeat (apply Forall_cons; split;
    [intros Ht; first [discriminate Ht | unfold mounts; destruct (rn_historical r); [apply list_elem_of_further, list_elem_of_further, list_elem_of_here|
                                                           apply list_elem_of_further, list_elem_of_here]]|]).
  destruct (rn_historical r); each_mount.
Qed.

Lemma observer_confined : confined_create (role_name r "observer") (observer_command r).
Proof.
  unfold confined_create. split; [done|]. split; [done|]. split; [exists "observer"; split; [unfold roles; member|done]|].
  split_and!; [member..|by right|]. apply (Forall_forall fine). unfold observer_command.
  apply Forall_app. split; [each_mount|]. apply Forall_app. split; [apply fine_confinement; each_mount|].
  unfold script_mount, owner_labels. each_mount.
Qed.

(** The routines *)
Lemma keeps_observe args seconds w : observing args = true → keeps safe (call_with env r args seconds w).
Proof. intros H. apply keeps_docker_call. by left. Qed.

Lemma keeps_ask o : (∀ a, native (Ev o a) = None) → keeps safe (dask env o).
Proof. apply keeps_quiet_ask, quiet_safe. Qed.

Lemma keeps_set (f : clone → clone) : (∀ s, cl_hist (f s) = cl_hist s) → keeps safe (modify f).
Proof. intros H. apply keeps_modify. intros s. unfold safe, calls. by rewrite H. Qed.

#[local] Hint Extern 1 (keeps safe (dask _ _)) => (apply keeps_ask; done) : keeps.
#[local] Hint Extern 1 (keeps safe (modify _)) => (apply keeps_set; done) : keeps.
#[local] Hint Extern 1 (keeps safe (call_with _ _ _ _ _)) => (apply keeps_observe; reflexivity) : keeps.

Lemma keeps_inspect_source : keeps safe (_inspect_source env r).
Proof. unfold _inspect_source, call. keeps_walk. Qed.

Lemma keeps_volume_metadata name : keeps safe (_volume_metadata env r name).
Proof. unfold _volume_metadata, call. keeps_walk. Qed.
#[local] Hint Resolve keeps_inspect_source keeps_volume_metadata : keeps.

Lemma keeps_create_volume : keeps safe (_create_new_owned_volume env r).
Proof.
  unfold _create_new_owned_volume, call. keeps_walk; [apply keeps_docker_call; intros pre; by right; left|keeps_walk..].
Qed.

(** A container is created and started. *)
Lemma keeps_create_start {A} name command seconds seconds' w w' (k : string → M clone A) :
  confined_create name command → (∀ raw, keeps safe (k raw)) →
  keeps safe (_ ← call_with env r command seconds w; raw ← call_with env r ["start"; "--attach"; "--interactive"; name] seconds' w'; k raw).
Proof.
  intros Hc Hk. assert (∀ pre, authorised pre command) as Ha by (intros pre; do 2 right; left; eauto).
  eapply post_weaken; [eapply (post_step _ _ (λ _, safe) safe)|done|by intros []].
  - apply (call_safe _ _ _ safe quiet_safe). auto.
  - intros created. cbn beta.
    apply (post_step _ (λ _, safe)); [|intros raw; apply (post_keeps safe safe); auto].
    eapply post_strengthen; [apply call_safe|by intros ? ? []].
    + intros s s' H _ _ [Hs Hl]. unfold safe in *. by rewrite H.
    + intros s [Hs Hl]. split; [done|]. do 3 right. left. eauto 10.
Qed.

Lemma keeps_copy_verified msg v : keeps safe (copy_verified msg v).
Proof. unfold copy_verified. keeps_walk. Qed.
#[local] Hint Resolve keeps_copy_verified : keeps.

Lemma keeps_run_copy : keeps safe (run_copy env r).
Proof.
  apply keeps_pure. intros command Hc. apply keeps_create_start; [|intros raw; keeps_walk].
  eapply (worker_confined "copy-hash" _ _ _ _ ["--user"; "999:999"]); [exact Hc|done|by right|by right|by right|member].
Qed.

Lemma keeps_worker_manifest : keeps safe (_worker_manifest env r).
Proof.
  apply keeps_pure. intros command Hc. apply keeps_create_start; [|intros raw; keeps_walk].
  eapply (worker_confined "manifest-only" _ _ _ _ ["--user"; "999:999"]); [exact Hc|done|by right|by left|by right|member].
Qed.

Lemma keeps_prepare_volume : keeps safe (prepare_volume env r).
Proof.
  unfold prepare_volume, call. keeps_step; [keeps_walk|]. keeps_step; [keeps_walk|]. keeps_step; [apply keeps_create_volume|].
  apply keeps_pure. intros command Hc. keeps_step; [keeps_walk|]. apply keeps_create_start; [|intros raw; keeps_walk].
  eapply (worker_confined "prepare-target" _ _ _ _ []); [exact Hc|done|by left|by right|by left|member].
Qed.

Lemma keeps_copy_source before volume : keeps safe (copy_source env r before volume).
Proof. unfold copy_source. keeps_walk; apply keeps_run_copy. Qed.

Lemma keeps_observe_probe : keeps safe (observe env r).
Proof.
  unfold observe, call. do 3 (keeps_step; [keeps_walk|]).
  apply keeps_create_start; [apply observer_confined|intros raw; keeps_walk].
Qed.

Lemma keeps_recheck before volume : keeps safe (recheck_source env r before volume).
Proof. unfold recheck_source. keeps_walk; apply keeps_worker_manifest. Qed.

(** The server is started when the inspection just before showed its confinement. *)
Lemma validate_shows cmd :
  post safe (_validate_clone_metadata env r cmd)
    (ends (λ _ s, safe s ∧ ∃ query raw, last (calls s) = Some (["inspect"; "--format"; query; redis_name r], Ok (0, raw)) ∧ server_shown raw) safe).
Proof.
  eapply post_step; [eapply post_strengthen; [apply (call_safe _ _ _ safe quiet_safe); intros s Hs; split; [done|by left]|]|].
  { intros raw s H. exact H. }
  intros raw s [Hs Hl]. cbn beta.
  match goal with |- ends _ _ (?m s).1 _ => assert (keeps (eq s) m) as Hk by keeps_walk; specialize (Hk s eq_refl);
    destruct (m s) as [[d|e|] s'] eqn:E end; cbn [fst snd] in Hk; subst s'; cbn [fst snd ends]; [|done..].
  split; [done|]. do 2 eexists. split; [exact Hl|]. unfold server_shown.
  destruct (split_max 11 "|" raw) as [|? [|? [|? [|? [|? [|? [|? [|? [|? [|? [|? [|? [|]]]]]]]]]]]]] eqn:Es; try discriminate E.
  run_inv E. destruct a, a0; try discriminate E. cbn zeta in E.
  apply bind_Ret in E as (u & s15 & Hg & _). apply throw_if_Ret in Hg as [Hg _].
  cbn [forallb fst snd] in Hg. bool_inv. subst. by do 4 eexists.
Qed.

Lemma keeps_start_clone deadline : keeps safe (start_clone env r deadline).
Proof.
  unfold start_clone, call. keeps_step; [keeps_walk|]. keeps_step; [keeps_walk|]. keeps_step; [keeps_walk|].
  apply keeps_pure. intros command Hc.
  keeps_step; [apply keeps_docker_call; intros pre; do 2 right; left; eexists; by apply (redis_confined _ _ Hc)|].
  eapply post_weaken; [eapply (post_step _ _ (λ _, safe) safe); [apply validate_shows|intros metadata]|done|by intros []].
  eapply post_step; [apply post_keeps; [apply keeps_modify|by intros s []]|].
  { intros s H. exact H. }
  intros [].
  eapply post_step; [apply call_safe|intros raw].
  - intros s s' H _ _. unfold safe. rewrite H. tauto.
  - intros s [Hs Hl]. split; [done|]. do 4 right. by left.
  - intros s Hs. by destruct Hs.
Qed.

(** A resource is removed when the inspection just before showed it as this owner's. *)
Lemma loads_or_Ret msg text s v s' : loads_or msg text s = (Ret v, s') → json_loads text = Ok v ∧ s' = s.
Proof. unfold loads_or. rewrite liftR_Ret, catch_Ok. intros [[H|(? & ? & ? & H)] ->]; [done|]. by apply raise_Ok in H. Qed.

Lemma owned_volume_post name raw (P : clone → Prop) :
  post P (owned_volume r name raw) (ends (λ _ s, P s ∧ shown true name raw) P).
Proof.
  unfold owned_volume. intros s Hs.
  destruct (split_max 1 "|" raw) as [|a [|b [|]]] eqn:E; try done.
  unfold mbind, M_bind. destruct (loads_or _ b s) as [[v|e|] s1] eqn:H.
  - apply loads_or_Ret in H as [Hv ->]. unfold cold_if, throw_if, liftR, raise_if. destruct (_ || _) eqn:Hb; cbn; [done|].
    split; [done|]. bool_inv. subst. exists b, v. by rewrite E.
  - unfold loads_or, liftR in H. injection H as H <-. cbn. done.
  - unfold loads_or, liftR in H. injection H as H <-. cbn. done.
Qed.

Lemma owned_container_post name raw (P : clone → Prop) :
  post P (owned_container r name raw) (ends (λ _ s, P s ∧ shown false name raw) P).
Proof.
  unfold owned_container. intros s Hs.
  destruct (split_max 1 "|" raw) as [|a [|b [|]]] eqn:E; try done.
  unfold mbind, M_bind. destruct (loads_or _ b s) as [[v|e|] s1] eqn:H.
  - apply loads_or_Ret in H as [Hv ->]. destruct v as [| | | | | | |d|]; try done.
    unfold cold_if, throw_if, liftR, raise_if. destruct (_ || _) eqn:Hb; cbn; [done|].
    split; [done|]. bool_inv. subst. exists b, (VDict d). rewrite E. split; [done|]. split; [done|]. exists d. split; [done|]. by split; apply py_eq_str.
  - unfold loads_or, liftR in H. injection H as H <-. cbn. done.
  - unfold loads_or, liftR in H. injection H as H <-. cbn. done.
Qed.

Definition inspect_and_remove (volume : bool) (name : string) : M clone unit :=
  raw ← call_with env r (identity_query volume name) (fz 10) false;
  (if volume then owned_volume r name raw else owned_container r name raw);;
  _ ← call_with env r (removal volume name) (fz 10) false; mret tt.

Lemma remove_owned_eq name volume : _remove_owned env r name volume = inspect_and_remove volume name.
Proof. by destruct volume. Qed.

Lemma remove_post role volume :
  role ∈ roles → keeps safe (_remove_owned env r (name_of role) volume).
Proof.
  intros Hr. rewrite remove_owned_eq. unfold keeps.
  eapply post_weaken; [eapply (post_step _ _ (λ _, safe) safe)|done|by intros []].
  - apply (call_safe _ _ _ safe quiet_safe). intros s H. split; [done|]. left. by destruct volume.
  - intros raw.
    apply (post_step _ (λ _ s, (safe s ∧ last (calls s) = Some (identity_query volume (name_of role), Ok (0, raw))) ∧ shown volume (name_of role) raw)).
    { destruct volume; (eapply post_weaken; [first [apply owned_volume_post|apply owned_container_post]|intros s H; exact H|intros [] s; cbn; tauto]). }
    intros u. eapply post_step; [apply call_safe|intros raw'; by intros s []].
    + intros s s' H _ _. unfold safe. rewrite H. tauto.
    + intros s [[H1 H2] H3]. split; [done|]. do 5 right. eauto 10.
Qed.

Lemma keeps_cleanup_one role name volume : role ∈ roles → name = name_of role → keeps safe (cleanup_one role (_remove_owned env r name volume)).
Proof. intros Hr ->. unfold cleanup_one. keeps_walk. by apply remove_post. Qed.

Lemma keeps_cleanup : keeps safe (cleanup env r).
Proof.
  unfold cleanup. cbn [forM].
  repeat first [apply keeps_cleanup_one; [unfold roles; member|reflexivity] | keeps_step].
Qed.

Context (type_name : exc → string).

Lemma keeps_work deadline before volume : keeps safe (work env r deadline before volume).
Proof.
  unfold work. keeps_walk; first [apply keeps_prepare_volume|apply keeps_copy_source|apply keeps_start_clone|apply keeps_observe_probe|apply keeps_recheck].
Qed.

Lemma keeps_source_again : keeps safe (source_again env r).
Proof. unfold source_again. keeps_walk. Qed.

Lemma keeps_execute : keeps safe (execute_clone env r type_name).
Proof.
  unfold execute_clone, begin_run, guarded_work, finish_run, failed. keeps_walk; first [apply keeps_work|apply keeps_cleanup|apply keeps_source_again].
Qed.
End Spec.

(** C5. Authority over Docker: whatever Docker, the clock and the files answer,
    and however the run ends, each of its Docker commands is an inspection; or
    creates the run's own volume; or creates one of its own containers,
    read-only, with [--cap-drop=ALL] (what the worker that prepares the target
    adds back is not bounded), on no network but the clone's own, with no
    volume but the run's and, read-only, the source's; or starts a worker just
    created so, or the clone's server when the inspection just before showed it
    stopped and confined; or removes one of its own resources when the
    inspection just before showed this run's labels on it. *)
Theorem docker_authority (env : environment dres) (r : run) (type_name : exc → string) :
  authorised_calls r (calls (execute_clone env r type_name clone0).2).
Proof. apply (keeps_execute env r type_name clone0). by intros [|? ?] ? ? ? [=]. Qed.
