(* ===== verification/ColdReceiptSpec.v ===== *)
(** * What the receipt of a cold-clone run says ([ColdClone])

    A receipt that says the run's resources are removed comes after a removal of
    each that Docker acknowledged; and a run whose exit status is 0 saw the
    source stopped, of the expected identity and unchanged throughout. *)

From stdpp Require Import strings.
From S2P Require Import Prelude PyStr Regex Sha256 PyVal PyTime Json PyBytes Effects ColdRedis ColdLayout ColdClone ColdCloneSpec.

Local Open Scope string_scope.
Local Open Scope list_scope.
Local Open Scope Z_scope.

(** ** What a run leaves behind *)
Section Removal.
Context (env : environment dres) (r : run) (type_name : exc → string).

Definition creates (c : docker_call) : option string := created_name c.1.

(** Every creation is of a resource that [execute] had noted as attempted; those of [R] are noted. *)
Definition noted (R : list string) (s : clone) : Prop :=
  (∀ c name, c ∈ calls s → creates c = Some name → ∃ role, role ∈ cl_attempted s ∧ role ∈ roles ∧ name = name_of r role) ∧
  ∀ role, role ∈ R → role ∈ cl_attempted s.

Lemma quiet_noted R : quiet (noted R).
Proof. intros s s' H1 H2 _ [Ha Hb]. unfold noted. by rewrite H1, H2. Qed.

Lemma keeps_noted_call R args seconds w :
  (∀ name, created_name args = Some name → ∃ role, role ∈ R ∧ role ∈ roles ∧ name = name_of r role) →
  keeps (noted R) (call_with env r args seconds w).
Proof.
  intros H. assert (∀ a s, after (noted R) args a s → noted R s) as Ha.
  { intros a s (s0 & [H1 H2] & Hc & Hat & _). split; rewrite Hat; [|done]. intros c name Hin Hn. rewrite Hc in Hin.
    apply elem_of_app in Hin as [Hin| ->%list_elem_of_singleton]; [eauto|].
    destruct (H _ Hn) as (role & Hr & ? & ->). exists role. auto. }
  eapply post_weaken; [apply (call_post env r args seconds w _ (quiet_noted R))|done|].
  intros [raw|e|] s; cbn; [apply Ha| |]; (intros [?|[a ?]]; [done|by eapply Ha]).
Qed.

Lemma keeps_attempt {A} R role (m : M clone A) : keeps (noted (role :: R)) m → keeps (noted R) (modify (attempt role);; m).
Proof.
  intros Hm. assert (∀ s, noted (role :: R) s → noted R s) as Hw by (intros s [H1 H2]; split; [done|set_solver]).
  apply (post_bind _ _ _ (λ _, noted (role :: R))); [|intros []|by auto..].
  - intros s [H1 H2]. cbn. split; cbn; [|set_solver]. intros c name Hin Hn. destruct (H1 c name Hin Hn) as (role' & ? & ? & ->).
    exists role'. set_solver.
  - eapply post_weaken; [apply Hm|done|]. intros x s. apply Hw.
Qed.

Lemma keeps_noted_ask R o : (∀ a, native (Ev o a) = None) → keeps (noted R) (dask env o).
Proof. apply keeps_quiet_ask, quiet_noted. Qed.

Lemma keeps_noted_set R (f : clone → clone) :
  (∀ s, cl_hist (f s) = cl_hist s) → (∀ s, cl_attempted (f s) = cl_attempted s) → keeps (noted R) (modify f).
Proof. intros H1 H2. apply keeps_modify. intros s. unfold noted, calls. by rewrite H1, H2. Qed.

#[local] Hint Resolve keeps_cold keeps_cold_if keeps_loads : keeps.
#[local] Hint Extern 1 (keeps (noted _) (dask _ _)) => (apply keeps_noted_ask; done) : keeps.
#[local] Hint Extern 1 (keeps (noted _) (modify (attempt _))) => fail : keeps.
#[local] Hint Extern 2 (keeps (noted _) (modify _)) => (apply keeps_noted_set; done) : keeps.
#[local] Hint Extern 1 (keeps (noted _) (call_with _ _ _ _ _)) => (apply keeps_noted_call; discriminate) : keeps.
(** The creation of [role]'s resource *)
Ltac creation := apply keeps_noted_call; intros ? [= <-]; eexists; split; [apply list_elem_of_here|split; [unfold roles; member|done]].

Ltac noted_walk :=
  as_keeps;
  repeat lazymatch goal with
  | |- keeps _ (modify (attempt _) ≫= _) => apply keeps_attempt
  | |- keeps _ (call_with _ _ _ _ _) => first [apply keeps_noted_call; discriminate | creation]
  | |- keeps _ _ => cbn beta iota zeta; keeps_step
  end.

Lemma noted_inspect R : keeps (noted R) (_inspect_source env r).
Proof. unfold _inspect_source, call. noted_walk. Qed.
Lemma noted_volume R name : keeps (noted R) (_volume_metadata env r name).
Proof. unfold _volume_metadata, call. noted_walk. Qed.
Lemma noted_validate R cmd : keeps (noted R) (_validate_clone_metadata env r cmd).
Proof. unfold _validate_clone_metadata, call. noted_walk. Qed.
Lemma noted_verified R msg v : keeps (noted R) (copy_verified msg v).
Proof. unfold copy_verified. noted_walk. Qed.
#[local] Hint Resolve noted_inspect noted_volume noted_validate noted_verified : keeps.

Lemma noted_prepare : keeps (noted []) (prepare_volume env r).
Proof. unfold prepare_volume, _create_new_owned_volume, call, call_for. noted_walk. Qed.
Lemma noted_copy before volume : keeps (noted []) (copy_source env r before volume).
Proof. unfold copy_source, run_copy, call, call_for. noted_walk. Qed.
Lemma noted_start deadline : keeps (noted []) (start_clone env r deadline).
Proof.
  unfold start_clone, call, call_for. do 2 (keeps_step; [noted_walk|]). cbn zeta. apply keeps_attempt. apply keeps_pure. intros command Hc.
  destruct (redis_confined r _ _ Hc) as (_ & Hn & _). keeps_step; [|noted_walk].
  apply keeps_noted_call. intros name. rewrite Hn. intros [= <-]. exists "redis".
  split; [apply list_elem_of_here|]. split; [unfold roles; member|done].
Qed.
Lemma noted_observe : keeps (noted []) (observe env r).
Proof. unfold observe, call, call_for. noted_walk. Qed.
Lemma noted_recheck before volume : keeps (noted []) (recheck_source env r before volume).
Proof. unfold recheck_source, _worker_manifest, call, call_for. noted_walk. Qed.
#[local] Hint Resolve noted_prepare noted_copy noted_start noted_observe noted_recheck : keeps.

Lemma noted_work deadline before volume : keeps (noted []) (work env r deadline before volume).
Proof. unfold work. noted_walk. Qed.

(** During the cleanup that began in [s0] nothing is created, and as long as all
    went well, the resources of [done] are removed. *)
Definition removed (role : string) (l : list docker_call) : Prop := ∃ volume raw, (removal volume (name_of r role), Ok (0, raw)) ∈ l.

Definition cleaning (s0 : clone) (done : list string) (s : clone) : Prop :=
  ∃ l, calls s = calls s0 ++ l ∧ Forall (λ c, creates c = None) l ∧ cl_attempted s = cl_attempted s0 ∧
    (cl_clean s = true → ∀ role, role ∈ done → role ∈ cl_attempted s0 → removed role l).

Lemma quiet_cleaning s0 d : quiet (cleaning s0 d).
Proof. intros s s' H1 H2 H3. unfold cleaning. by rewrite H1, H2, H3. Qed.

Lemma cleaning_after s0 d d' args a s :
  after (cleaning s0 d) args a s → created_name args = None →
  (∀ role, role ∈ d' → role ∈ d ∨ ∃ volume raw, args = removal volume (name_of r role) ∧ a = Ok (0, raw)) → cleaning s0 d' s.
Proof.
  intros (s1 & (l & Hl & Hf & Ha & Hr) & Hc & Hat & Hcl) Hn Hd. exists (l ++ [(args, a)]). rewrite Hc, Hl, Hat, Hcl, app_assoc.
  split; [done|]. split; [by apply Forall_app; split; [|by repeat constructor]|]. split; [done|].
  intros Hclean role Hin Hatt. destruct (Hd role Hin) as [Hin'|(volume & raw & -> & ->)].
  - destruct (Hr Hclean role Hin' Hatt) as (v & raw & H). exists v, raw. apply elem_of_app. by left.
  - exists volume, raw. apply elem_of_app. right. by apply list_elem_of_singleton.
Qed.

Lemma keeps_cleaning_call s0 d args seconds w : created_name args = None → keeps (cleaning s0 d) (call_with env r args seconds w).
Proof.
  intros Hn. eapply post_weaken; [apply (call_post env r args seconds w _ (quiet_cleaning s0 d))|done|].
  assert (∀ a s, after (cleaning s0 d) args a s → cleaning s0 d s) as H by (intros a s Ha; eapply cleaning_after; eauto).
  intros [raw|e|] s; cbn; [apply H| |]; (intros [?|[a ?]]; [done|by eapply H]).
Qed.

Lemma cleanup_one_post s0 d role (m : M clone unit) :
  post (cleaning s0 d) m (ends (λ _, cleaning s0 (role :: d)) (λ _, True)) → keeps (cleaning s0 d) m →
  post (cleaning s0 d) (cleanup_one role m) (ends (λ _, cleaning s0 (role :: d)) (λ _, True)).
Proof.
  intros Hm Hk s Hs. unfold cleanup_one, mbind, M_bind, gets. destruct (bool_decide_reflect (role ∈ cl_attempted s)) as [Hin|Hout].
  - specialize (Hm s Hs). specialize (Hk s Hs). unfold try_except. destruct (m s) as [[u|e|] s1]; cbn in *; [done| |done].
    destruct (is_exception (exc_cls e)); [|done]. destruct Hk as (l & ? & ? & ? & _). exists l. by split_and!.
  - cbn. destruct Hs as (l & ? & ? & Ha & Hr). exists l. split_and!; [done..|]. intros Hc role' [->|?]%elem_of_cons ?; [|by apply Hr].
    by rewrite Ha in Hout.
Qed.

Lemma remove_cleaning s0 d role volume :
  post (cleaning s0 d) (_remove_owned env r (name_of r role) volume) (ends (λ _, cleaning s0 (role :: d)) (λ _, True)) ∧
  keeps (cleaning s0 d) (_remove_owned env r (name_of r role) volume).
Proof.
  set (name := name_of r role). rewrite remove_owned_eq. unfold inspect_and_remove.
  assert (∀ raw, keeps (cleaning s0 d) (if volume then owned_volume r name raw else owned_container r name raw)) as Hk.
  { intros raw. unfold owned_volume, owned_container. keeps_walk. }
  assert (created_name (identity_query volume name) = None) as Hq by by destruct volume.
  assert (created_name (removal volume name) = None) as Hn by by destruct volume.
  split; [|keeps_walk; auto using keeps_cleaning_call].
  eapply post_step; [apply (post_keeps (cleaning s0 d)); [by apply keeps_cleaning_call|done]|intros raw].
  eapply post_step; [apply (post_keeps (cleaning s0 d)); [apply Hk|done]|intros []].
  apply (post_step _ (λ raw, after (cleaning s0 d) (removal volume name) (Ok (0, raw)))).
  - eapply post_weaken; [apply (call_post env r _ _ _ _ (quiet_cleaning s0 d))|done|]. by intros [] s.
  - intros raw' s Hs. cbn. eapply cleaning_after; [exact Hs|done|]. intros role' [->|?]%elem_of_cons; [right; by eexists _, _|by left].
Qed.

Lemma cleanup_removes s0 s : cleanup env r s0 = (Ret tt, s) → cleaning s0 roles s.
Proof.
  intros H. refine (ends_run (cleaning s0 []) (λ _, cleaning s0 roles) (cleanup env r) s0 tt s _ _ H).
  2:{ exists []. rewrite app_nil_r. split_and!; [done..|]. by intros _ role Hin%not_elem_of_nil. }
  assert (∀ d role name volume, name = name_of r role →
    post (cleaning s0 d) (cleanup_one role (_remove_owned env r name volume)) (ends (λ _, cleaning s0 (role :: d)) (λ _, True))) as Hone.
  { intros d role name volume ->. apply cleanup_one_post; apply remove_cleaning. }
  unfold cleanup. cbn [forM].
  eapply post_step; [apply (post_keeps (cleaning s0 [])); [by apply keeps_modify|done]|intros []].
  apply (post_step _ (λ _, cleaning s0 ["prepare"; "copy"; "observer"; "verify"])); [|intros []].
  - do 4 (eapply post_step; [by apply Hone|intros []]). by intros s' Hs'.
  - eapply post_step; [by apply Hone|intros []]. eapply post_strengthen; [by apply Hone|intros [] s'].
    intros (l & ? & ? & ? & Hr). exists l. split_and!; [done..|]. intros Hc role Hin. apply Hr; [done|]. unfold roles in Hin. set_solver.
Qed.

(** What follows the cleanup creates nothing and leaves the flag alone. *)
Definition settled (s0 s : clone) : Prop := ∃ l, calls s = calls s0 ++ l ∧ Forall (λ c, creates c = None) l ∧ cl_clean s = cl_clean s0.


Lemma quiet_settled s0 : quiet (settled s0).
Proof. intros s s' H1 _ H3. unfold settled. by rewrite H1, H3. Qed.

Lemma keeps_settled_call s0 args seconds w : created_name args = None → keeps (settled s0) (call_with env r args seconds w).
Proof.
  intros Hn. eapply post_weaken; [apply (call_post env r args seconds w _ (quiet_settled s0))|done|].
  assert (∀ a s, after (settled s0) args a s → settled s0 s) as H.
  { intros a s (s1 & (l & Hl & Hf & Hc) & Hcalls & _ & Hc1). exists (l ++ [(args, a)]). rewrite Hcalls, Hl, Hc1, app_assoc.
    split; [done|]. split; [by apply Forall_app; split; [|by repeat constructor]|done]. }
  intros [raw|e|] s; cbn; [apply H| |]; (intros [?|[a ?]]; [done|by eapply H]).
Qed.
#[local] Hint Extern 1 (keeps (settled _) (call_with _ _ _ _ _)) => (apply keeps_settled_call; reflexivity) : keeps.
#[local] Hint Extern 1 (keeps (settled _) (dask _ _)) => (apply keeps_quiet_ask; [apply quiet_settled|done]) : keeps.

Lemma settled_source_again s0 : keeps (settled s0) (source_again env r).
Proof. unfold source_again, _inspect_source, _volume_metadata, call. keeps_walk. Qed.
#[local] Hint Resolve settled_source_again : keeps.


Lemma noted_begin : keeps (noted []) (begin_run env r).
Proof. unfold begin_run. keeps_walk. Qed.

Lemma noted_failed e : keeps (noted []) (failed type_name e).
Proof. unfold failed. keeps_walk. Qed.

Lemma settled_finish s0 source volume category diagnostic : keeps (settled s0) (finish_run env r source volume category diagnostic).
Proof. unfold finish_run. keeps_walk. Qed.

(** A finished run: the beginning, the work with its handler, the cleanup, the receipt *)
Lemma execute_run s0 d s :
  execute_clone env r type_name s0 = (Ret d, s) →
  ∃ deadline source volume s1 category diagnostic s2 s3,
    begin_run env r s0 = (Ret (deadline, source, volume), s1) ∧
    try_except is_exception (work env r deadline source volume;; mret (None, None)) (failed type_name) s1 = (Ret (category, diagnostic), s2) ∧
    cleanup env r s2 = (Ret tt, s3) ∧ finish_run env r source volume category diagnostic s3 = (Ret d, s).
Proof.
  unfold execute_clone. intros H.
  apply bind_Ret in H as ([[deadline source] volume] & s1 & H1 & H).
  apply bind_Ret in H as ([category diagnostic] & s3 & H2 & H).
  unfold guarded_work, try_finally in H2.
  destruct (try_except _ _ _ s1) as [[out|e|] s2] eqn:E; [| |done]; destruct (cleanup env r s2) as [[[]|e'|] s4] eqn:Ec; try done.
  injection H2 as -> ->. eauto 15.
Qed.

Lemma create_in_front l0 l l1 c l2 name :
  Forall (λ c, creates c = None) l → l0 ++ l = l1 ++ c :: l2 → creates c = Some name → ∃ k, l0 = l1 ++ c :: k ∧ l2 = k ++ l.
Proof.
  intros Hf [(k & -> & Hk)|(k & -> & ->)]%app_eq_inv Hn.
  - destruct k as [|c' k]; [|injection Hk as <- ->; eauto]. cbn in Hk. subst. apply Forall_cons in Hf as [Hf _]. congruence.
  - apply Forall_app in Hf as [_ [Hf _]%Forall_cons]. congruence.
Qed.

(** *** The receipt *)
(** What the receipt is made of, in the state [s] *)
Definition evidence (s : clone) := (cl_metadata s, cl_copy s, cl_observation s).
Definition fields (s : clone) := (evidence s, cl_clean s).

Lemma fields_ask o v : keeps (λ s, fields s = v) (dask env o).
Proof. by intros s Hs. Qed.
Lemma fields_set (f : clone → clone) v : (∀ s, fields (f s) = fields s) → keeps (λ s, fields s = v) (modify f).
Proof. intros H. apply keeps_modify. intros s. by rewrite H. Qed.
#[local] Hint Extern 3 (keeps _ (dask _ _)) => (apply fields_ask) : keeps.
#[local] Hint Extern 3 (keeps _ (modify _)) => (apply fields_set; done) : keeps.

Lemma fields_call args seconds w v : keeps (λ s, fields s = v) (call_with env r args seconds w).
Proof. unfold call_with, raise_failure. keeps_walk. Qed.
#[local] Hint Resolve fields_call : keeps.

Lemma fields_source_again v : keeps (λ s, fields s = v) (source_again env r).
Proof. unfold source_again, _inspect_source, _volume_metadata, call. keeps_walk. Qed.

Lemma finish_shape source volume category diagnostic s d s' :
  finish_run env r source volume category diagnostic s = (Ret d, s') →
  fields s' = fields s ∧
  ∃ source' volume' unverified s1 created hash hash' state classification run_id own,
    source_again env r s = (Ret (source', volume', unverified), s1) ∧ fields s1 = fields s ∧
    observed s1 "state" = Ok state ∧ _receipt_classification r state = Ok classification ∧
    d = receipt r created (source, volume) (source', volume') hash hash'
          (final_category (cl_clean s) source volume source' volume' category unverified) diagnostic s1 classification run_id ++ [("receipt_sha256", own)].
Proof.
  intros H. split.
  - refine (post_run (λ x, fields x = fields s) (λ x, fields x = fields s) _ _ _ _ _ eq_refl H).
    unfold finish_run. keeps_walk. apply fields_source_again.
  - unfold finish_run in H. apply bind_Ret in H as (clean & s0 & [-> ->]%gets_Ret & H).
    apply bind_Ret in H as ([[source' volume'] unverified] & s1 & H1 & H). cbn zeta in H.
    apply bind_Ret in H as (sg & s1' & [= <- <-] & H).
    apply bind_Ret in H as (state & sb & [Hst ->]%liftR_Ret & H).
    apply bind_Ret in H as (classification & sb & [Hcl ->]%liftR_Ret & H).
    apply bind_Ret in H as (created & sb & _ & H). apply bind_Ret in H as (hash & sc & _ & H).
    apply bind_Ret in H as (hash' & sd & _ & H). apply bind_Ret in H as (run_id & se & _ & H).
    apply bind_Ret in H as (text & sf & _ & H). apply bind_Ret in H as ([] & sh & _ & [-> ->]%mret_Ret).
    do 11 eexists. split_and!; [exact H1| |exact Hst|exact Hcl|reflexivity].
    by refine (post_run (λ x, fields x = fields s) (λ x, fields x = fields s) _ _ _ _ (fields_source_again _) eq_refl H1).
Qed.

(** *** The work that came to its end *)
Lemma inspect_source_shape s d s' :
  _inspect_source env r s = (Ret d, s') →
  d = [("container_id", VStr SOURCE_CONTAINER_ID); ("image_id", VStr SOURCE_IMAGE_ID); ("state", VStr "exited"); ("volume", VStr SOURCE_VOLUME);
       ("mount_target", VStr "/data")].
Proof.
  unfold _inspect_source. intros (raw & w1 & _ & H)%bind_Ret.
  destruct (split_max 7 "|" raw) as [|? [|? [|? [|? [|? [|? [|? [|? [|]]]]]]]]]; try discriminate H.
  apply bind_Ret in H as (mounts & w2 & _ & H). cbn zeta in H. destruct mounts; try discriminate H.
  apply bind_Ret in H as ([] & w3 & [Hg _]%throw_if_Ret & H).
  destruct (filter _ _) as [|[] [|]]; try discriminate H.
  apply bind_Ret in H as ([] & w4 & _ & [-> _]%mret_Ret). bool_inv. by subst.
Qed.

Lemma begin_source s0 deadline source volume s1 :
  begin_run env r s0 = (Ret (deadline, source, volume), s1) →
  source = [("container_id", VStr SOURCE_CONTAINER_ID); ("image_id", VStr SOURCE_IMAGE_ID); ("state", VStr "exited"); ("volume", VStr SOURCE_VOLUME);
            ("mount_target", VStr "/data")].
Proof.
  unfold begin_run. intros H. apply bind_Ret in H as (now & w1 & _ & H). apply bind_Ret in H as ([] & w2 & _ & H).
  apply bind_Ret in H as ([] & w2' & _ & H). apply bind_Ret in H as (sha & w3 & _ & H). apply bind_Ret in H as ([] & w4 & _ & H). apply bind_Ret in H as (src & w5 & Hs & H).
  apply bind_Ret in H as (vol & w6 & _ & [[= -> -> ->] _]%mret_Ret). by eapply inspect_source_shape.
Qed.

(** The probe's answer, classified *)
Definition classified (s : clone) : Prop :=
  ∃ o state, cl_observation s = Some (VDict o) ∧ dget "state" o = VStr state ∧ state ∈ observed_states.

Lemma observe_classified : post (λ _, True) (observe env r) (ends (λ _, classified) (λ _, True)).
Proof.
  apply post_ends. intros s [] s' _ H. unfold observe in H.
  apply bind_Ret in H as (config & s1 & _ & H). apply bind_Ret in H as ([] & s2 & _ & H). apply bind_Ret in H as ([] & s3 & _ & H).
  apply bind_Ret in H as (c & s4 & _ & H). apply bind_Ret in H as (raw & s5 & _ & H). apply bind_Ret in H as (v & s6 & _ & H).
  apply bind_Ret in H as ([] & s7 & Hm & H). apply modify_Ret in Hm as ->. destruct v as [| | | | | | | |o]; try discriminate H.
  apply bind_Ret in H as ([] & s8 & [_ ->]%liftR_Ret & [Hg ->]%throw_if_Ret).
  apply negb_false_iff in Hg. destruct (dget "state" o) as [| | | |state| | | |] eqn:E; try discriminate Hg. bool_inv. by exists o, state.
Qed.

(** The manifests before and after the probe agree. *)
Definition rechecked (s : clone) : Prop :=
  ∃ p, cl_copy s = Some p ∧ py_eq (dget "source_after_probe_manifest_sha256" p) (dget "source_manifest_sha256" p) = true.

Lemma fields_worker_manifest v : keeps (λ s, fields s = v) (_worker_manifest env r).
Proof. unfold _worker_manifest, copy_verified, call, call_for. keeps_walk. Qed.
Lemma fields_inspect v : keeps (λ s, fields s = v) (_inspect_source env r).
Proof. unfold _inspect_source, call. keeps_walk. Qed.
Lemma fields_volume v name : keeps (λ s, fields s = v) (_volume_metadata env r name).
Proof. unfold _volume_metadata, call. keeps_walk. Qed.
#[local] Hint Resolve fields_worker_manifest fields_inspect fields_volume : keeps.

Lemma fields_attempt role v : keeps (λ s, fields s = v) (modify (attempt role)).
Proof. by apply fields_set. Qed.

Lemma recheck_agrees source volume :
  post classified (recheck_source env r source volume) (ends (λ _ s, classified s ∧ rechecked s) (λ _, True)).
Proof.
  apply post_ends. intros s [] s' Hs H. unfold recheck_source in H.
  apply bind_Ret in H as ([] & s1 & Hm & H). apply modify_Ret in Hm as ->.
  apply bind_Ret in H as (manifest & s2 & Hrun & H).
  pose proof (post_run _ _ _ _ _ _ (fields_worker_manifest (fields (attempt "verify" s))) eq_refl Hrun) as Hf.
  apply bind_Ret in H as (proof & s3 & [-> ->]%gets_Ret & H). cbn zeta in H.
  apply bind_Ret in H as ([] & s4 & [Hg ->]%throw_if_Ret & H).
  apply bind_Ret in H as (sha & s5 & [Hsha ->]%liftR_Ret & H). apply bind_Ret in H as ([] & s6 & Hm & H). apply modify_Ret in Hm as ->.
  set (sp := set_copy _ s2) in *.
  assert (fields s' = fields sp) as Hf'.
  { refine (post_run (λ x, fields x = fields sp) (λ x, fields x = fields sp) _ _ _ _ _ eq_refl H). keeps_walk. }
  unfold fields in Hf, Hf'. cbn in Hf, Hf'. injection Hf as _ Hcopy Hobs _. injection Hf' as _ Hcopy' Hobs' _.
  bool_inv. split.
  - destruct Hs as (o & state & Ho & ?). exists o, state. by rewrite Hobs', Hobs.
  - eexists. split; [exact Hcopy'|]. unfold dget at 1 2. rewrite !dlookup_dset. cbn [String.eqb Ascii.eqb Bool.eqb].
    unfold py_item in Hsha. destruct (dlookup "manifest_sha256" manifest) eqn:E; [|discriminate Hsha]. injection Hsha as ->.
    unfold dget in H0. rewrite E in H0. exact H0.
Qed.

Lemma work_done deadline source volume s s' : work env r deadline source volume s = (Ret tt, s') → classified s' ∧ rechecked s'.
Proof.
  unfold work. intros H. apply bind_Ret in H as ([] & s1 & _ & H). apply bind_Ret in H as ([] & s2 & _ & H).
  apply bind_Ret in H as ([] & s3 & _ & H). apply bind_Ret in H as ([] & s4 & H4 & H).
  refine (ends_run _ _ _ _ _ _ (recheck_agrees source volume) _ H). exact (ends_run _ _ _ _ _ _ observe_classified I H4).
Qed.

Lemma evidence_fields {A} (m : M clone A) v : (∀ v, keeps (λ s, fields s = v) m) → keeps (λ s, evidence s = v) m.
Proof. intros H s Hs. specialize (H (fields s) s eq_refl). apply (f_equal fst) in H. cbn in H. by rewrite H. Qed.

Lemma evidence_cleanup v : keeps (λ s, evidence s = v) (cleanup env r).
Proof.
  assert (∀ name volume, keeps (λ s, evidence s = v) (_remove_owned env r name volume)) as Hrm.
  { intros. apply evidence_fields. intros w. rewrite remove_owned_eq. unfold inspect_and_remove, owned_volume, owned_container. keeps_walk. }
  unfold cleanup, cleanup_one. keeps_walk; first [apply Hrm|by apply keeps_modify].
Qed.

Lemma final_category_None clean source volume source' volume' category unverified :
  final_category clean source volume source' volume' category unverified = None →
  clean = true ∧ category = None ∧ same_dict source' source = true ∧ same_dict volume' volume = true.
Proof.
  unfold final_category. destruct clean; [|by destruct unverified].
  destruct (same_dict source' source), (same_dict volume' volume); cbn; by destruct unverified, category.
Qed.

(** The work that left no error came to its end. *)
Lemma category_None deadline source volume s1 diagnostic s2 :
  try_except is_exception (work env r deadline source volume;; mret (None, None)) (failed type_name) s1 = (Ret (None, diagnostic), s2) →
  classified s2 ∧ rechecked s2.
Proof.
  unfold try_except. destruct ((work env r deadline source volume;; mret (None, None)) s1) as [[[c dg]|e|] s'] eqn:E; [| |done].
  - intros [= -> -> ->]. apply bind_Ret in E as ([] & s3 & Hw & [_ ->]%mret_Ret). by eapply work_done.
  - destruct (is_exception (exc_cls e)); [|done]. unfold failed. destruct (bool_decide _).
    + intros H. apply bind_Ret in H as (coded & s3 & _ & H). apply bind_Ret in H as (dg & s4 & _ & [[=] _]%mret_Ret).
    + by intros [[=] _]%mret_Ret.
Qed.
End Removal.

(** C12. Nothing is left behind: when a run ends with a receipt that its resources
    were removed, then after every Docker command of the run that created a
    container or volume, whatever Docker answered to it, comes a removal of that
    container or volume that Docker acknowledged. *)
Theorem clean_run_leaves_nothing (env : environment dres) (r : run) (type_name : exc → string) d s cold l1 args a l2 name :
  execute_clone env r type_name clone0 = (Ret d, s) →
  dget "cold_clone" d = VDict cold → dget "native_container_removed" cold = VBool true →
  calls s = l1 ++ (args, a) :: l2 → created_name args = Some name →
  ∃ volume raw, (removal volume name, Ok (0, raw)) ∈ l2.
Proof.
  intros H Hd Hcold Hl Hn.
  destruct (execute_run _ _ _ _ _ _ H) as (deadline & source & volume & s1 & category & diagnostic & s2 & s3 & H1 & H2 & H3 & H4).
  assert (cl_clean s3 = true) as Hclean.
  { destruct (finish_shape _ _ _ _ _ _ _ _ _ H4) as (_ & ? & ? & ? & s4 & ? & ? & ? & ? & ? & ? & ? & _ & Hf & _ & _ & ->).
    injection Hd as <-. injection Hcold as Hc. unfold fields in Hf. congruence. }
  assert (noted r [] s1) as N1.
  { eapply (post_run (noted r []) (noted r [])); [apply noted_begin| |exact H1]. split; [by intros c n' Hin%not_elem_of_nil|by intros role Hin%not_elem_of_nil]. }
  assert (noted r [] s2) as N2.
  { eapply (post_run (noted r []) (noted r [])); [|exact N1|exact H2]. apply keeps_try; [|apply noted_failed].
    apply keeps_bind; [apply noted_work|intros; apply keeps_ret]. }
  destruct (cleanup_removes env r s2 s3 H3) as (la & Hc3 & Hf3 & Ha3 & Hr3).
  destruct (post_run (settled s3) (settled s3) _ _ _ _ (settled_finish env r s3 source volume category diagnostic)
    ltac:(by exists []; rewrite app_nil_r) H4) as (lb & Hc & Hf & Hcl).
  rewrite Hc, Hc3, <- app_assoc in Hl. destruct (create_in_front _ _ _ _ _ name (proj2 (Forall_app _ _ _) (conj Hf3 Hf)) Hl Hn) as (k & Hk & ->).
  destruct (proj1 N2 (args, a) name) as (role & Hatt & Hrole & ->); [rewrite Hk; apply elem_of_app; right; left|done|].
  destruct (Hr3 Hclean role Hrole Hatt) as (v & raw & Hin). exists v, raw. rewrite !elem_of_app. auto.
Qed.

(** C16. A run of exit status 0: its receipt classifies the probe's answer, one of
    the four supported states; the container it describes is the expected one,
    stopped, whose metadata and volume were at the end as at the beginning; the
    manifest of the volume after the probe is the one before the copy; and the
    clone's resources are removed. *)
Theorem accepted_run (env : environment dres) (r : run) (type_name : exc → string) d s :
  execute_clone env r type_name clone0 = (Ret d, s) → exit_status d = 0 →
  ∃ o state result src cold,
    dget "observation" d = VDict o ∧ dget "state" o = VStr state ∧ state ∈ observed_states ∧
    _receipt_classification r (VStr state) = Ok result ∧ dget "result" d = VStr result ∧ dget "error_category" d = VNone ∧
    dget "source" d = VDict src ∧ dget "container_id" src = VStr SOURCE_CONTAINER_ID ∧ dget "state" src = VStr "exited" ∧
    dget "source_unchanged" src = VBool true ∧
    py_eq (dget "file_manifest_sha256_after_probe" src) (dget "file_manifest_sha256_before_copy" src) = true ∧
    dget "cold_clone" d = VDict cold ∧ dget "native_container_removed" cold = VBool true ∧ dget "snapshot_volume_removed" cold = VBool true.
Proof.
  intros H Hx. destruct (execute_run _ _ _ _ _ _ H) as (deadline & source & volume & s1 & category & diagnostic & s2 & s3 & H1 & H2 & H3 & H4).
  destruct (finish_shape _ _ _ _ _ _ _ _ _ H4) as (_ & source' & volume' & unverified & s4 & created & hash & hash' & state & classification & run_id & own & _ & Hf & Hst & Hcl & ->).
  set (c := final_category _ _ _ _ _ _ _) in *.
  set (d := receipt _ _ _ _ _ _ _ _ _ _ _) in *.
  assert (dget "result" (d ++ [("receipt_sha256", own)]) =
    VStr (if match cl_observation s4 with Some v => py_truthy v | None => false end && bool_decide (c = None) then classification else "FAILED_CLOSED"))
    as Hres by reflexivity.
  unfold exit_status in Hx. rewrite Hres in Hx.
  assert (c = None) as Hc.
  { destruct c as [k|]; [|done]. rewrite (bool_decide_eq_false_2 (Some k = None)), andb_false_r in Hx by done. discriminate Hx. }
  apply final_category_None in Hc as Hcat. destruct Hcat as (Hclean & -> & Hsrc & Hvol).
  destruct source' as [source'|]; [|done]. destruct volume' as [volume'|]; [|done]. cbn [same_dict] in Hsrc, Hvol.
  destruct (category_None _ _ _ _ _ _ _ _ _ H2) as [(o & st & Ho & Hst' & Hin) (p & Hp & Heq)].
  pose proof (post_run _ _ _ _ _ _ (evidence_cleanup env r (evidence s2)) eq_refl H3) as He. cbn beta in He.
  pose proof (f_equal fst Hf) as He'. cbn [fields fst] in He'. rewrite He in He'.
  apply (f_equal snd) in He' as Hobs. cbn in Hobs. apply (f_equal (λ x, x.1.2)) in He' as Hcopy. cbn in Hcopy.
  rewrite Ho in Hobs. rewrite Hp in Hcopy. apply (f_equal snd) in Hf as Hcl4. cbn in Hcl4. rewrite Hclean in Hcl4.
  assert (py_truthy (VDict o) = true) as Ht by (destruct o; [discriminate Hst'|done]).
  assert (state = VStr st) as -> by (unfold observed in Hst; rewrite Hobs, Ht in Hst; change (Ok (dget "state" o) = Ok state) in Hst; congruence).
  apply begin_source in H1 as ->.
  exists o, st, classification. subst d. unfold receipt. rewrite Hobs, Hcopy, Hcl4, Hc. cbn [fst snd] in *. rewrite Hsrc, Hvol.
  do 2 eexists. split_and!; try reflexivity; try done.
  by rewrite Ht.
Qed.

(** ** A run that is accepted *)
Definition run0 : run :=
  Run "0123456789abcdef0123456789abcdef" [("topic", VStr "t"); ("message_id", VStr "m"); ("canonical_payload_sha256", VStr "p"); ("reconciliation_id", VStr "r")]
    false "revision" "sha" "/work/script_snapshot.py" "/work/target.json".

Definition json0 (v : value) : string := match _canonical v with Ok s => s | Err _ => EmptyString end.
Definition labels0 : string := json0 (labels_value run0).

Definition attached0 (name : string) : string :=
  if String.eqb name (role_name run0 "prepare") then sq "{'prepared':true}"
  else if String.eqb name (role_name run0 "observer") then sq "{'state':'POSITIVE_ACCEPTED'}"
  else sq "{'state':'COPY_VERIFIED','manifest_sha256':'f','source_manifest_sha256':'f'}".

Definition server0 : string :=
  join "|" ["id"; SOURCE_IMAGE_ID; "false"; "none"; "true"; "536870912"; "536870912"; "1000000000"; "64";
            json0 (VList [VDict [("Destination", VStr "/data"); ("Name", VStr (volume_name run0)); ("RW", VBool true)]]);
            labels0; json0 (VList (VStr <$> redis_arguments run0 150))].

Definition docker0 (args : list string) : string :=
  match args with
  | ["volume"; "inspect"; _; query; name] =>
      if String.eqb query "{{.Name}}|{{json .Labels}}" then name +:+ "|" +:+ labels0
      else name +:+ "|local|local|today|" +:+ (if String.eqb name SOURCE_VOLUME then "{}" else labels0) +:+ "|{}"
  | "volume" :: "create" :: rest => default EmptyString (last rest)
  | "image" :: _ => RUNNER_DIGEST
  | ["inspect"; _; query; name] =>
      if String.eqb name SOURCE_CONTAINER_ID then
        join "|" [name; SOURCE_IMAGE_ID; "exited"; "false"; "false"; "false"; "false";
                  json0 (VList [VDict [("Destination", VStr "/data"); ("Name", VStr SOURCE_VOLUME); ("Type", VStr "volume")]])]
      else if String.eqb query "{{.Name}}|{{json .Config.Labels}}" then "/" +:+ name +:+ "|" +:+ labels0 else server0
  | ["start"; _; _; name] => attached0 name
  | _ => EmptyString
  end.

Definition world0 : environment dres := λ _ o,
  match o return result (dres o) with
  | DClock => Ok (fz 0)
  | DSnapshot => Ok "sha"
  | DNative args _ _ _ => Ok (0, docker0 args)
  | DUtcNow => Ok (DateTime 0 (Some 0))
  | DVerifyHead => Ok tt
  | DWriteTarget _ => Ok tt
  | DWriteReceipt _ => Ok tt
  end.

(** The receipt is accepted, says that the resources are removed, and the fifth Docker command created the volume. *)
Definition accepted0 (x : out dict * clone) : bool :=
  match x with
  | (Ret d, s) =>
      (exit_status d =? 0) &&
      match dget "cold_clone" d with VDict cold => is_true (dget "native_container_removed" cold) | _ => false end &&
      match calls s !! 4%nat with Some (args, _) => bool_decide (created_name args = Some (volume_name run0)) | None => false end
  | _ => false
  end.

Lemma run0_accepted : accepted0 (execute_clone world0 run0 (λ _, "Exception") clone0) = true.
Proof. vm_compute. reflexivity. Qed.

Lemma accepted0_true x :
  accepted0 x = true → ∃ d s cold l1 args a l2, x = (Ret d, s) ∧ exit_status d = 0 ∧ dget "cold_clone" d = VDict cold ∧
    dget "native_container_removed" cold = VBool true ∧ calls s = l1 ++ (args, a) :: l2 ∧ created_name args = Some (volume_name run0).
Proof.
  destruct x as [[d|e|] s]; [|done..]. unfold accepted0. intros H. bool_inv.
  destruct (dget "cold_clone" d) as [| | | | | | | |cold] eqn:Ec; try done.
  destruct (calls s !! 4%nat) as [[args a]|] eqn:E4; [|done]. bool_inv.
  exists d, s, cold, (take 4 (calls s)), args, a, (drop 5 (calls s)). split_and!; [done..| | |done].
  - destruct (dget "native_container_removed" cold) as [|[]| | | | | | |]; done.
  - symmetry. by apply take_drop_middle.
Qed.

Lemma accepted_run_witness : ∃ d s o state,
  execute_clone world0 run0 (λ _, "Exception") clone0 = (Ret d, s) ∧ dget "observation" d = VDict o ∧ dget "state" o = VStr state.
Proof.
  destruct (accepted0_true _ run0_accepted) as (d & s & _ & _ & _ & _ & _ & H & Hx & _).
  destruct (accepted_run _ _ _ d s H Hx) as (o & state & _ & _ & _ & Ho & Hs & _). exists d, s, o, state. auto.
Defined.

Lemma clean_run_leaves_nothing_witness : ∃ d s volume raw,
  execute_clone world0 run0 (λ _, "Exception") clone0 = (Ret d, s) ∧ (removal volume (volume_name run0), Ok (0, raw)) ∈ calls s.
Proof.
  destruct (accepted0_true _ run0_accepted) as (d & s & cold & l1 & args & a & l2 & H & _ & Hd & Hc & Hl & Hn).
  destruct (clean_run_leaves_nothing _ _ _ d s cold l1 args a l2 _ H Hd Hc Hl Hn) as (volume & raw & Hin).
  exists d, s, volume, raw. split; [exact H|]. rewrite Hl. apply elem_of_app. right. by right.
Defined.
