(* ===== verification/AlertDelivery.v ===== *)
(** * The alert channel and its one test message ([scripts/alert_delivery.py])

    The policy and the files rendered from it; [qualify], which sends one test
    message and keeps a journal of it; [_validated_terminal_journal], which reads
    such a journal back; [acknowledge] and [read_acknowledgement], the operator's
    statement about it.  The journal and the acknowledgement are two files of the
    state; any write may be torn, and a process may die at any operation (an
    exception that no handler catches).  The transport, the clock, the checks of
    paths and access lists, and the failures of the file system answer as
    functions of the history. *)

From stdpp Require Import strings.
From S2P Require Import Prelude PyStr Regex Sha256 PyVal PyTime Json PyBytes Effects.

Local Open Scope string_scope.
Local Open Scope list_scope.
Local Open Scope Z_scope.
Local Open Scope regex_scope.

Definition EXPECTED_BOT : string := "KairosCryptoAI_bot".
Definition EXPECTED_CHAT : Z := -5155583216.
Definition EXPECTED_TEST_CHAT : Z := -100447580288.
Definition ALERTMANAGER_IMAGE : string := "prom/alertmanager:v0.34.1@sha256:e9733bafb1bdef9b00e25a21f8f99dc26a22224bf16641ad754d1649f4c3357a".
Definition MAX_RESPONSE : Z := 65536.
Definition MAX_QUALIFICATION_JOURNAL_BYTES : Z := 128 * 1024.
Definition MAX_QUALIFICATION_JOURNAL_LINES : nat := 8.
Definition ACK_CONFIRMATION : string := "OWNER_SAW_QUALIFICATION_MESSAGE".
Definition TEST_MESSAGE : string :=
  "[KAIROS QUALIFICATION TEST] Проверка аварийного канала. Это тест, не торговый сигнал и не разрешение LIVE.".
Definition POLICY_FIELDS : list string :=
  ["schema_version"; "enabled"; "receiver"; "profile"; "source_sha256"; "expected_bot_username"; "expected_chat_id"; "group_wait_seconds";
   "group_interval_seconds"; "repeat_interval_seconds"].

Definition deliver {A} (category : string) : result A := raise DeliveryError category.
Definition deliver_if (b : bool) (category : string) : result unit := raise_if b DeliveryError category.

(** [sort_keys=True, separators=(",", ":"), ensure_ascii=False] *)
Definition delivery_style : dump_style := DumpStyle "," ":" None false true.
Definition canonical (v : value) : result string := text ← json_dumps delivery_style v; encode_utf8 text.

(** [path.read_text(encoding="utf-8")] of the bytes [b]: lines end with a line feed. *)
Fixpoint universal_newlines (s : string) : string :=
  match s with
  | EmptyString => EmptyString
  | String c t =>
      if Ascii.eqb c "013" then
        match t with String "010" u => String "010" (universal_newlines u) | _ => String "010" (universal_newlines t) end
      else String c (universal_newlines t)
  end.
Definition read_text (b : string) : result string :=
  if utf8_ok b then Ok (universal_newlines b) else raise UnicodeDecodeError "utf-8".

(** ** The policy and its files; [baseline] and [template] are the bytes of [monitoring/prometheus.yml] and
    [monitoring/alertmanager.yml.template]. *)
Definition limits : list (string * string * Z) :=
  [("group_wait_seconds", "INVALID_GROUP_WAIT_SECONDS", 300); ("group_interval_seconds", "INVALID_GROUP_INTERVAL_SECONDS", 3600);
   ("repeat_interval_seconds", "INVALID_REPEAT_INTERVAL_SECONDS", 86400)].
Definition in_limits (high : Z) (v : value) : bool := match v with VInt n => (1 <=? n) && (n <=? high) | _ => false end.
Definition error_if (b : bool) (e : string) : list string := if b then [e] else [].

Definition policy_errors (baseline : string) (policy : value) : list string :=
  match policy with
  | VDict p =>
      if negb (keys_are p POLICY_FIELDS) then ["INVALID_POLICY_FIELDS"]
      else
        error_if (negb (py_eq (dget "schema_version" p) (VInt 1)) || negb (is_exact_int (dget "schema_version" p))) "INVALID_POLICY_VERSION"
        ++ match dget "enabled" p with VBool b => error_if (negb b) "DELIVERY_DISABLED" | _ => ["INVALID_ENABLED"] end
        ++ error_if (negb (py_eq (dget "receiver" p) (VStr "telegram")) || negb (py_eq (dget "expected_bot_username" p) (VStr EXPECTED_BOT))
                     || negb (py_eq (dget "expected_chat_id" p) (VInt EXPECTED_CHAT)) || negb (is_exact_int (dget "expected_chat_id" p)))
             "RECEIVER_IDENTITY_MISMATCH"
        ++ error_if (negb (py_eq (dget "profile" p) (VStr "base") || py_eq (dget "profile" p) (VStr "paper"))) "INVALID_PROFILE"
        ++ error_if (match dget "source_sha256" p with VStr h => negb (fullmatch (hex 64) h) || negb (String.eqb h (sha256_hex baseline)) | _ => true end)
             "PROMETHEUS_SOURCE_UNBOUND"
        ++ flat_map (λ '(key, error, high), error_if (negb (in_limits high (dget key p))) error) limits
        ++ match dget "group_wait_seconds" p, dget "group_interval_seconds" p, dget "repeat_interval_seconds" p with
           | VInt _, VInt group, VInt repeat => error_if (repeat <? group) "REPEAT_BEFORE_GROUP_INTERVAL"
           | _, _, _ => []
           end
  | _ => ["INVALID_POLICY_FIELDS"]
  end.

Definition accepted_policy (baseline : string) (policy : value) : result unit :=
  match policy_errors baseline policy with e :: _ => deliver e | [] => Ok tt end.

(** [str(v)] of an accepted limit *)
Definition limit_text (policy : value) (key : string) : string :=
  match policy with VDict p => match dget key p with VInt n => dec_of_Z n | _ => EmptyString end | _ => EmptyString end.
Definition policy_text (policy : value) (key : string) : string :=
  match policy with VDict p => match dget key p with VStr s => s | _ => EmptyString end | _ => EmptyString end.

Definition render_alertmanager (baseline template : string) (policy : value) : result string :=
  _ ← accepted_policy baseline policy;
  source ← read_text template;
  let text := foldl (λ t '(name, by_), replace_str ("@@" +:+ name +:+ "@@") by_ t) source
    [("CHAT_ID", dec_of_Z EXPECTED_CHAT); ("GROUP_WAIT", limit_text policy "group_wait_seconds");
     ("GROUP_INTERVAL", limit_text policy "group_interval_seconds"); ("REPEAT_INTERVAL", limit_text policy "repeat_interval_seconds")] in
  _ ← deliver_if (contains "@@" text) "INVALID_NATIVE_TEMPLATE";
  Ok text.

(** [s.split(needle, 1)] *)
Fixpoint split_at (needle s : string) : option (string * string) :=
  if startswith needle s then Some (EmptyString, sdrop (String.length needle) s)
  else match s with EmptyString => None | String c s => '(a, b) ← split_at needle s; Some (String c a, b) end.

Definition GLOBAL : string := "global:" +:+ LF.
Definition ALERTING : string :=
  LF +:+ unlines ["alerting:"; "  alertmanagers:"; "    - api_version: v2"; "      static_configs:";
                  "        - targets: [kairos-ops-alertmanager:9093]"].

Definition render_prometheus (baseline : string) (policy : value) : result string :=
  _ ← accepted_policy baseline policy;
  source ← read_text baseline;
  let labels := unlines ["global:"; "  external_labels:"; "    kairos_project: kairos";
                         "    kairos_environment: " +:+ policy_text policy "profile";
                         "    kairos_source_sha256: " +:+ policy_text policy "source_sha256"] in
  match split_at GLOBAL source with
  | Some (before, after) =>
      _ ← deliver_if (contains GLOBAL after || contains "alerting:" source || contains "external_labels:" source) "PROMETHEUS_BASELINE_DRIFT";
      Ok (before +:+ labels +:+ after +:+ ALERTING)
  | None => deliver "PROMETHEUS_BASELINE_DRIFT"
  end.

(** ** The files and the outside world *)
(** Paths below [ops_root] *)
Definition scope_text : string := match canonical (VDict [("bot", VStr EXPECTED_BOT); ("chat", VInt EXPECTED_TEST_CHAT)]) with Ok s => s | Err _ => EmptyString end.
Definition _qualification_scope : string := sha256_hex scope_text.
Definition _qualification_path : string := "receipts/telegram-qualification-" +:+ _qualification_scope +:+ ".jsonl".
Definition _acknowledgement_path : string := "receipts/telegram-acknowledgement-" +:+ _qualification_scope +:+ ".json".
Definition TOKEN_PATH : string := "secrets/telegram_bot_token".

Inductive aop :=
  | ANoReparse (path : string) | APrivateAcl (path : string)   (* _no_reparse, _private_acl: nothing, or an exception *)
  | ATokenDedicated                                            (* the resolved token file is the dedicated one *)
  | AMkdir (path : string) | AIsDir (path : string) | AExists (path : string)
  | AReadSelf                                                  (* the bytes of the script *)
  | ANow                                                       (* datetime.now(timezone.utc), as its local time *)
  | ACreate (path : string)                                    (* os.open(..., O_EXCL): what else may fail *)
  | AOpenAppend (path : string)
  | AWrite (path data : string)                                (* write, flush, fsync *)
  | ASyncDir (path : string)
  | AStat (path : string) | ARead (path : string)              (* failures of the file system only *)
  | ATokenSize | ATokenText
  | AConnect (token : string)                                  (* TelegramTransport(token) *)
  | APost (token method parameters : string)                   (* the status of the response *)
  | ABody.                                                     (* response.read(MAX_RESPONSE + 1) *)
(** A write is whole ([None]), or stops after so many bytes with an exception. *)
Definition ares (o : aop) : Type :=
  match o with
  | ATokenDedicated | AIsDir _ | AExists _ => bool
  | AReadSelf | ATokenText | ABody => string
  | ANow | ATokenSize | APost _ _ _ => Z
  | AWrite _ _ => option (nat * exc)
  | _ => unit
  end.

(** The files, the locals [result] and [sending] of [qualify], and the history *)
Record ops := Ops { op_files : gmap string string; op_result : dict; op_sending : bool; op_hist : list (event ares) }.
Definition alog (e : event ares) (s : ops) : ops := Ops (op_files s) (op_result s) (op_sending s) (op_hist s ++ [e]).
Definition set_file (path content : string) (s : ops) : ops := Ops (<[path := content]> (op_files s)) (op_result s) (op_sending s) (op_hist s).
Definition set_result (d : dict) (s : ops) : ops := Ops (op_files s) d (op_sending s) (op_hist s).
Definition put (key : string) (v : value) (s : ops) : ops := set_result (dset key v (op_result s)) s.
Definition set_sending (s : ops) : ops := Ops (op_files s) (op_result s) true (op_hist s).

(** [datetime.now(timezone.utc)] for the clock's answer *)
Definition utc (t : Z) : datetime := DateTime t (Some 0).

Section Delivery.
Context (env : environment ares) (posix : bool).

Definition aask (o : aop) : M ops (ares o) := perform ares op_hist alog env o.
Definition fail {A} (category : string) : M ops A := throw DeliveryError category.
Definition fail_if (b : bool) (category : string) : M ops unit := throw_if b DeliveryError category.

(** The bytes that reach the file *)
Definition write (path data : string) : M ops unit :=
  torn ← aask (AWrite path data);
  s ← get;
  let old := default EmptyString (op_files s !! path) in
  match torn with
  | None => modify (set_file path (old +:+ data))
  | Some (k, e) => modify (set_file path (old +:+ stake k data));; liftR (Err e)
  end.

Definition _exclusive (path data : string) : M ops unit :=
  aask (ACreate path);;
  s ← get;
  throw_if (bool_decide (is_Some (op_files s !! path))) FileExistsError "File exists";;
  modify (set_file path EmptyString);;
  write path data;;
  if posix then aask (ASyncDir path) else mret tt.

Definition render_files (baseline template : string) (policy : value) (directory : string) : M ops dict :=
  native ← liftR (render_alertmanager baseline template policy);
  prometheus ← liftR (render_prometheus baseline policy);
  aask (ANoReparse directory);;
  existing ← aask (AExists directory);
  fail_if existing "OUTPUT_MUST_BE_NEW";;
  aask (AMkdir directory);;
  native_bytes ← liftR (encode_utf8 native);
  _exclusive (directory +:+ "/alertmanager.yml") native_bytes;;
  prometheus_bytes ← liftR (encode_utf8 prometheus);
  _exclusive (directory +:+ "/prometheus.yml") prometheus_bytes;;
  text ← liftR (canonical policy);
  mret [("status", VStr "PREPARED_CONFIG_ONLY"); ("policy_sha256", VStr (sha256_hex text)); ("alertmanager_sha256", VStr (sha256_hex native_bytes));
        ("prometheus_sha256", VStr (sha256_hex prometheus_bytes)); ("image", VStr ALERTMANAGER_IMAGE); ("operationally_qualified", VBool false)].

(** ** The transport *)
Definition METHODS : list string := ["getMe"; "getChat"; "sendMessage"].

(** [TelegramTransport.call] *)
Definition api_call (token method : string) (parameters : dict) : M ops dict :=
  fail_if (negb (bool_decide (method ∈ METHODS))) "METHOD_REJECTED";;
  data ← liftR (canonical (VDict parameters));
  parsed ← try_except (λ c, os_error c || value_error c)
    (status ← aask (APost token method data);
     fail_if (negb (status =? 200)) "HTTP_REJECTED";;
     body ← aask ABody;
     fail_if (MAX_RESPONSE <? slen body) "RESPONSE_TOO_LARGE";;
     liftR (json_loads_bytes body))
    (λ _, fail "TRANSPORT_FAILED");
  match parsed with
  | VDict d =>
      fail_if (negb (is_true (dget "ok" d))) "API_REJECTED";;
      match dget "result" d with VDict r => mret r | _ => fail "API_REJECTED" end
  | _ => fail "API_REJECTED"
  end.

(** ** [qualify] *)
Definition counts (me chat send : Z) : value := VDict [("getMe", VInt me); ("getChat", VInt chat); ("sendMessage", VInt send)].
Definition initial_result (implementation : string) : dict :=
  [("schema_version", VInt 1); ("implementation_sha256", VStr (sha256_hex implementation)); ("test_message_sha256", VStr (sha256_hex TEST_MESSAGE));
   ("expected_bot_username", VStr EXPECTED_BOT); ("expected_chat_id", VInt EXPECTED_TEST_CHAT);
   ("recipient_purpose", VStr "qualification_test_only"); ("stage", VStr "PRECHECK_STARTED"); ("send_attempts", VInt 0);
   ("http_method_counts", counts 0 0 0); ("transport_accepted", VBool false); ("human_acknowledged", VBool false);
   ("trading_authority", VBool false)].

(** [result["http_method_counts"][method] = 1] *)
Definition count_method (method : string) (s : ops) : ops :=
  match dget "http_method_counts" (op_result s) with
  | VDict c => put "http_method_counts" (VDict (dset method (VInt 1) c)) s
  | _ => s
  end.

Definition record (stage : string) (error : option string) : M ops unit :=
  modify (put "stage" (VStr stage));;
  modify (put "error_category" (match error with Some e => VStr e | None => VNone end));;
  result ← gets op_result;
  now ← aask ANow;
  let entry := dset "observed_at_utc" (VStr (isoformat (utc now))) result in
  aask (AOpenAppend _qualification_path);;
  s ← get;
  modify (set_file _qualification_path (default EmptyString (op_files s !! _qualification_path)));;
  text ← liftR (canonical (VDict entry));
  write _qualification_path (text +:+ LF).

Definition token_re : regex := RRange 5 20 (RChar is_digit) ⋅ RLit ":" ⋅ RRange 30 100 (RChar (λ c, is_alnum c || is_any ["_"; "-"]%char c)).

Definition MESSAGE_PARAMETERS : dict :=
  [("chat_id", VInt EXPECTED_TEST_CHAT); ("text", VStr TEST_MESSAGE); ("disable_notification", VBool false); ("protect_content", VBool true)].

(** [type(v) is int and v == n] *)
Definition is_int (n : Z) (v : value) : bool := match v with VInt m => m =? n | _ => false end.

(** What precedes the send *)
Definition precheck : M ops string :=
  size ← aask ATokenSize;
  fail_if (256 <? size) "INVALID_TOKEN_FILE";;
  text ← aask ATokenText;
  let token := strip text in
  fail_if (negb (fullmatch token_re token)) "INVALID_TOKEN_FILE";;
  aask (AConnect token);;
  modify (count_method "getMe");;
  identity ← api_call token "getMe" [];
  fail_if (negb (is_true (dget "is_bot" identity)) || negb (py_eq (dget "username" identity) (VStr EXPECTED_BOT))) "BOT_IDENTITY_MISMATCH";;
  modify (count_method "getChat");;
  chat ← api_call token "getChat" [("chat_id", VInt EXPECTED_TEST_CHAT)];
  fail_if (negb (is_int EXPECTED_TEST_CHAT (dget "id" chat))) "CHAT_IDENTITY_MISMATCH";;
  throw_if (negb (hashable (dget "type" chat))) TypeError "unhashable type";;
  fail_if (negb (py_eq (dget "type" chat) (VStr "group") || py_eq (dget "type" chat) (VStr "supergroup"))) "CHAT_IDENTITY_MISMATCH";;
  record "IDENTITY_VERIFIED" None;;
  modify (put "send_attempts" (VInt 1));;
  record "SEND_RESERVED" None;;
  mret token.

Definition send (token : string) : M ops unit :=
  modify set_sending;;
  modify (count_method "sendMessage");;
  sent ← api_call token "sendMessage" MESSAGE_PARAMETERS;
  let chat_ok := match dget "chat" sent with VDict c => is_int EXPECTED_TEST_CHAT (dget "id" c) | _ => false end in
  let id_ok := match dget "message_id" sent with VInt n => 0 <? n | _ => false end in
  fail_if (negb chat_ok || negb id_ok) "SEND_RESPONSE_IDENTITY_MISMATCH";;
  modify (put "transport_accepted" (VBool true));;
  modify (put "message_id" (dget "message_id" sent));;
  record "TRANSPORT_ACCEPTED" None.

Definition send_failed (e : exc) : M ops unit :=
  sending ← gets op_sending;
  let stage := if (sending : bool) then "SEND_OUTCOME_UNKNOWN" else "PRECHECK_FAILED" in
  if bool_decide (exc_cls e = DeliveryError) then record stage (Some (exc_msg e))
  else
    modify (put "stage" (VStr stage));;
    modify (put "transport_accepted" (VBool false));;
    modify (put "error_category" (VStr "LOCAL_FAILURE"));;
    try_except os_error (record stage (Some "LOCAL_FAILURE")) (λ _, mret tt).

Definition qualify (authorize_one_test : bool) : M ops dict :=
  fail_if (negb authorize_one_test) "EXPLICIT_TEST_AUTHORIZATION_REQUIRED";;
  aask (ANoReparse ".");;
  aask (ANoReparse TOKEN_PATH);;
  dedicated ← aask ATokenDedicated;
  fail_if (negb dedicated) "DEDICATED_TOKEN_FILE_REQUIRED";;
  aask (APrivateAcl ".");;
  aask (APrivateAcl TOKEN_PATH);;
  aask (ANoReparse "receipts");;
  aask (AMkdir "receipts");;
  aask (APrivateAcl "receipts");;
  implementation ← aask AReadSelf;
  modify (λ s, Ops (op_files s) (initial_result implementation) false (op_hist s));;
  text ← liftR (canonical (VDict (initial_result implementation)));
  try_except (λ c, bool_decide (c = FileExistsError)) (_exclusive _qualification_path (text +:+ LF))
    (λ _, fail "EXISTING_QUALIFICATION_REQUIRES_REVIEW");;
  aask (APrivateAcl _qualification_path);;
  try_except is_exception (token ← precheck; send token) send_failed;;
  gets op_result.

(** ** Reading the journal back *)
Definition _read_protected_file (path : string) (maximum : Z) : M ops string :=
  aask (ANoReparse path);;
  s ← get;
  fail_if (negb (bool_decide (is_Some (op_files s !! path)))) "QUALIFICATION_JOURNAL_REQUIRED";;
  aask (APrivateAcl path);;
  aask (AStat path);;
  s ← get;
  let size := slen (default EmptyString (op_files s !! path)) in
  fail_if (negb ((0 <? size) && (size <=? maximum))) "QUALIFICATION_JOURNAL_SIZE_REJECTED";;
  value ← try_except os_error
    (aask (ARead path);; s ← get; mret (stake (Z.to_nat (maximum + 1)) (default EmptyString (op_files s !! path))))
    (λ _, fail "QUALIFICATION_JOURNAL_READ_FAILED");
  fail_if (negb (slen value =? size) || (maximum <? slen value)) "QUALIFICATION_JOURNAL_CHANGED_DURING_READ";;
  mret value.
End Delivery.

(** [object_pairs_hook=unique_pairs], [parse_constant] that raises *)
Definition unique_pairs (ps : list (string * value)) : result value :=
  if no_dup ps.*1 then Ok (VDict ps) else raise ValueError "duplicate key".
Definition no_constant (f : spec_float) : result value := raise ValueError "nonfinite JSON".
Definition loads_strict (raw : string) : result value := json_loads_bytes_hook unique_pairs no_constant raw.

Definition _parse_utc_timestamp (v : value) (error : string) : result datetime :=
  match v with
  | VStr s =>
      d ← catch (λ c, bool_decide (c = ValueError)) (fromisoformat s) (λ _, deliver error);
      match dt_offset d with Some 0 => Ok d | _ => deliver error end
  | _ => deliver error
  end.

Definition JOURNAL_STAGES : list string := ["PRECHECK_STARTED"; "IDENTITY_VERIFIED"; "SEND_RESERVED"; "TRANSPORT_ACCEPTED"].
Definition common : dict :=
  [("schema_version", VInt 1); ("test_message_sha256", VStr (sha256_hex TEST_MESSAGE)); ("expected_bot_username", VStr EXPECTED_BOT);
   ("expected_chat_id", VInt EXPECTED_TEST_CHAT); ("recipient_purpose", VStr "qualification_test_only")].
Definition base_keys : list string :=
  dkeys common ++ ["implementation_sha256"; "human_acknowledged"; "trading_authority"; "stage"; "send_attempts"; "http_method_counts"; "transport_accepted"].
Definition expected_keys (index : nat) : list string :=
  base_keys ++ (if (0 <? index)%nat then ["error_category"; "observed_at_utc"] else []) ++ (if (index =? 3)%nat then ["message_id"] else []).
Definition expected_counts (index : nat) : value :=
  match index with 0%nat => counts 0 0 0 | 3%nat => counts 1 1 1 | _ => counts 1 1 0 end.

(** [key: value] is as expected, with the type [int] where the code asks for it. *)
Definition as_expected (ints : list string) (entry : dict) (kv : string * value) : bool :=
  py_eq (dget kv.1 entry) kv.2 && (negb (bool_decide (kv.1 ∈ ints)) || is_exact_int (dget kv.1 entry)).
Definition is_bool (b : bool) (v : value) : bool := match v with VBool c => Bool.eqb c b | _ => false end.

(** One iteration over the entries; the state is [previous_observed_at]. *)
Definition check_entry (message_id : Z) (previous : option datetime) (index : nat) (entry : dict) (stage : string) : result (option datetime) :=
  _ ← deliver_if (negb (keys_are entry (expected_keys index))) "QUALIFICATION_JOURNAL_SEQUENCE_REJECTED";
  _ ← deliver_if (negb (match dget "implementation_sha256" entry with VStr h => fullmatch (hex 64) h | _ => false end))
       "QUALIFICATION_JOURNAL_IDENTITY_REJECTED";
  _ ← deliver_if (negb (forallb (as_expected ["schema_version"; "expected_chat_id"] entry) common)) "QUALIFICATION_JOURNAL_IDENTITY_REJECTED";
  _ ← deliver_if (negb (is_bool false (dget "human_acknowledged" entry)) || negb (is_bool false (dget "trading_authority" entry)))
       "QUALIFICATION_JOURNAL_FLAGS_REJECTED";
  _ ← deliver_if (negb (py_eq (dget "stage" entry) (VStr stage))
                  || negb (as_expected ["send_attempts"] entry ("send_attempts", VInt (if (2 <=? index)%nat then 1 else 0))))
       "QUALIFICATION_JOURNAL_SEQUENCE_REJECTED";
  _ ← deliver_if (negb (py_eq (dget "http_method_counts" entry) (expected_counts index))
                  || match dget "http_method_counts" entry with VDict c => negb (forallb (λ kv, is_exact_int kv.2) c) | _ => false end)
       "QUALIFICATION_JOURNAL_COUNTERS_REJECTED";
  _ ← deliver_if (negb (is_bool (index =? 3)%nat (dget "transport_accepted" entry))) "QUALIFICATION_JOURNAL_FLAGS_REJECTED";
  _ ← (if (index =? 3)%nat then deliver_if (negb (is_int message_id (dget "message_id" entry))) "MESSAGE_ID_MISMATCH"
       else deliver_if (dmem "message_id" entry) "QUALIFICATION_JOURNAL_SEQUENCE_REJECTED");
  _ ← (if (index =? 0)%nat then deliver_if (dmem "error_category" entry) "QUALIFICATION_JOURNAL_SEQUENCE_REJECTED"
       else deliver_if (negb (is_none (dget "error_category" entry))) "QUALIFICATION_JOURNAL_NOT_SUCCESSFUL");
  if (0 <? index)%nat then
    observed_at ← _parse_utc_timestamp (dget "observed_at_utc" entry) "QUALIFICATION_JOURNAL_SEQUENCE_REJECTED";
    _ ← deliver_if (match previous with Some p => instant observed_at <? instant p | None => false end) "QUALIFICATION_JOURNAL_TIME_ORDER_REJECTED";
    Ok (Some observed_at)
  else Ok previous.

Fixpoint check_entries (message_id : Z) (previous : option datetime) (index : nat) (entries : list dict) (stages : list string) : result unit :=
  match entries, stages with
  | entry :: entries, stage :: stages =>
      previous ← check_entry message_id previous index entry stage; check_entries message_id previous (S index) entries stages
  | _, _ => Ok tt
  end.

Definition parse_entry (line : string) : result dict :=
  entry ← loads_strict line;
  match entry with VDict d => Ok d | _ => raise ValueError "entry is not an object" end.

Definition FINGERPRINT : list string :=
  ["implementation_sha256"; "test_message_sha256"; "expected_bot_username"; "expected_chat_id"; "recipient_purpose"].

Definition _validated_terminal_journal (raw : string) (message_id : value) : result (list dict) :=
  match message_id with
  | VInt id =>
      _ ← deliver_if (id <=? 0) "MESSAGE_ID_REQUIRED";
      _ ← deliver_if (negb (endswith LF raw)) "QUALIFICATION_JOURNAL_SEQUENCE_REJECTED";
      let lines := bsplitlines raw in
      _ ← deliver_if (negb (length lines =? 4)%nat || (MAX_QUALIFICATION_JOURNAL_LINES <? length lines)%nat) "QUALIFICATION_JOURNAL_SEQUENCE_REJECTED";
      entries ← catch value_error (mapR parse_entry lines) (λ _, deliver "QUALIFICATION_JOURNAL_INVALID");
      _ ← check_entries id None 0 entries JOURNAL_STAGES;
      let first := default [] (head entries) in
      _ ← deliver_if (existsb (λ entry, existsb (λ key, negb (py_eq (dget key entry) (dget key first))) FINGERPRINT) (tail entries))
           "QUALIFICATION_JOURNAL_DRIFT";
      Ok entries
  | _ => deliver "MESSAGE_ID_REQUIRED"
  end.

(** ** The acknowledgement *)
Definition receipt_fields (journal_sha256 : string) (message_id : Z) : dict :=
  [("schema_version", VInt 1); ("kind", VStr "kairos.telegram.local-operator-attestation.v1"); ("status", VStr "RECORDED_LOCAL_OPERATOR_ATTESTATION");
   ("basis", VStr "LOCAL_OPERATOR_ATTESTATION"); ("bot_username", VStr EXPECTED_BOT); ("chat_id", VInt EXPECTED_TEST_CHAT);
   ("recipient_purpose", VStr "qualification_test_only"); ("scope_sha256", VStr _qualification_scope);
   ("qualification_journal_sha256", VStr journal_sha256); ("message_id", VInt message_id); ("confirmation", VStr ACK_CONFIRMATION);
   ("human_acknowledged", VBool true); ("telegram_user_authenticated", VBool false); ("operationally_qualified", VBool false);
   ("trading_authority", VBool false)].
Definition boolean_fields : list (string * bool) :=
  [("human_acknowledged", true); ("telegram_user_authenticated", false); ("operationally_qualified", false); ("trading_authority", false)].

Section Acknowledgement.
Context (env : environment ares) (posix : bool).
Context (expected_journal_sha256 message_id : value).

(** The checks of the arguments, and the journal they name *)
Definition arguments : result (string * Z) :=
  match expected_journal_sha256 with
  | VStr h =>
      _ ← deliver_if (negb (fullmatch (hex 64) h)) "EXPECTED_JOURNAL_SHA256_REQUIRED";
      match message_id with
      | VInt n => _ ← deliver_if (n <=? 0) "MESSAGE_ID_REQUIRED"; Ok (h, n)
      | _ => deliver "MESSAGE_ID_REQUIRED"
      end
  | _ => deliver "EXPECTED_JOURNAL_SHA256_REQUIRED"
  end.

Definition read_journal (sha256 : string) (id : Z) : M ops (list dict) :=
  raw ← _read_protected_file env _qualification_path MAX_QUALIFICATION_JOURNAL_BYTES;
  fail_if (negb (String.eqb (sha256_hex raw) sha256)) "QUALIFICATION_JOURNAL_SHA256_MISMATCH";;
  liftR (_validated_terminal_journal raw (VInt id)).

Definition terminal_time (entries : list dict) : result datetime :=
  v ← py_item "observed_at_utc" (VDict (default [] (last entries)));
  _parse_utc_timestamp v "QUALIFICATION_JOURNAL_SEQUENCE_REJECTED".

(** The receipt that [read_acknowledgement] accepts *)
Definition check_receipt (sha256 : string) (id : Z) (receipt : value) : result dict :=
  let expected := receipt_fields sha256 id in
  match receipt with
  | VDict r =>
      _ ← deliver_if (negb (forallb (as_expected ["schema_version"; "chat_id"; "message_id"] r) expected)
                      || negb (forallb (λ kv, is_bool kv.2 (dget kv.1 r)) boolean_fields)
                      || negb (keys_are r (dkeys expected ++ ["attested_at_utc"]))) "ACKNOWLEDGEMENT_RECEIPT_MISMATCH";
      Ok r
  | _ => deliver "ACKNOWLEDGEMENT_RECEIPT_MISMATCH"
  end.

Definition read_acknowledgement : M ops dict :=
  '(sha256, id) ← liftR arguments;
  aask env (ANoReparse ".");;
  aask env (ANoReparse "receipts");;
  aask env (APrivateAcl ".");;
  aask env (APrivateAcl "receipts");;
  entries ← read_journal sha256 id;
  raw ← _read_protected_file env _acknowledgement_path (16 * 1024);
  receipt ← liftR (catch value_error (loads_strict raw) (λ _, deliver "ACKNOWLEDGEMENT_RECEIPT_INVALID"));
  r ← liftR (check_receipt sha256 id receipt);
  attested_at ← liftR (_parse_utc_timestamp (dget "attested_at_utc" r) "ACKNOWLEDGEMENT_RECEIPT_MISMATCH");
  terminal_at ← liftR (terminal_time entries);
  fail_if (instant attested_at <? instant terminal_at) "ACKNOWLEDGEMENT_TIME_ORDER_REJECTED";;
  mret (receipt_fields sha256 id ++ [("attested_at_utc", dget "attested_at_utc" r); ("receipt_path", VStr _acknowledgement_path)]).

Definition acknowledge (confirmation : string) : M ops dict :=
  fail_if (negb (String.eqb confirmation ACK_CONFIRMATION)) "EXPLICIT_ACKNOWLEDGEMENT_REQUIRED";;
  '(sha256, id) ← liftR arguments;
  aask env (ANoReparse ".");;
  aask env (ANoReparse "receipts");;
  is_dir ← aask env (AIsDir "receipts");
  fail_if (negb is_dir) "QUALIFICATION_JOURNAL_REQUIRED";;
  aask env (APrivateAcl ".");;
  aask env (APrivateAcl "receipts");;
  entries ← read_journal sha256 id;
  now ← aask env ANow;
  terminal_at ← liftR (terminal_time entries);
  fail_if (now <? instant terminal_at) "ACKNOWLEDGEMENT_TIME_ORDER_REJECTED";;
  aask env (ANoReparse _acknowledgement_path);;
  text ← liftR (canonical (VDict (receipt_fields sha256 id ++ [("attested_at_utc", VStr (isoformat (utc now)))])));
  try_except (λ c, bool_decide (c = FileExistsError)) (_exclusive env posix _acknowledgement_path (text +:+ LF))
    (λ _, fail "EXISTING_ACKNOWLEDGEMENT_REQUIRES_REVIEW");;
  aask env (APrivateAcl _acknowledgement_path);;
  read_acknowledgement.
End Acknowledgement.

(** ** Runs of the script, one after the other, on the same files *)
Inductive action :=
  | Render (baseline template : string) (policy : value) (directory : string)
  | Qualify (authorize_one_test : bool)
  | Acknowledge (expected_journal_sha256 message_id : value) (confirmation : string)
  | VerifyAck (expected_journal_sha256 message_id : value).

Definition act (env : environment ares) (posix : bool) (a : action) : M ops dict :=
  match a with
  | Render baseline template policy directory => render_files env posix baseline template policy directory
  | Qualify authorize => qualify env posix authorize
  | Acknowledge sha256 id confirmation => acknowledge env posix sha256 id confirmation
  | VerifyAck sha256 id => read_acknowledgement env sha256 id
  end.

Fixpoint runs (env : environment ares) (posix : bool) (l : list action) (s : ops) : ops :=
  match l with [] => s | a :: l => runs env posix l (act env posix a s).2 end.

(** The exit status of [main] for a result *)
Definition exit_status (r : dict) : Z :=
  if is_none (dget "stage" r) || py_eq (dget "stage" r) (VStr "TRANSPORT_ACCEPTED") || py_eq (dget "status" r) (VStr "RECORDED_LOCAL_OPERATOR_ATTESTATION")
  then 0 else 2.
