(* ===== verification/AlertDeliverySpec.v ===== *)
(** * The alert channel: one message at most, and a journal that reads back ([AlertDelivery]) *)

From stdpp Require Import strings.
From S2P Require Import Prelude PyStr Regex Sha256 PyVal PyTime Json PyBytes Effects AlertDelivery.

Local Open Scope string_scope.
Local Open Scope list_scope.
Local Open Scope Z_scope.

#[local] Opaque sha256_hex.

(** ** One message at most *)
Definition is_send (e : event ares) : bool := match ev_op e with APost _ method _ => String.eqb method "sendMessage" | _ => false end.
Definition sends (h : list (event ares)) : list (event ares) := filter (λ e, is_send e = true) h.

(** A journal line that reserves the send *)
Definition reserved_line (data : string) : Prop :=
  ∃ d text, dget "stage" d = VStr "SEND_RESERVED" ∧ dget "send_attempts" d = VInt 1 ∧ canonical (VDict d) = Ok text ∧ data = text +:+ LF.
(** The line is on the disk: written whole and flushed. *)
Definition reserved (h : list (event ares)) : Prop :=
  ∃ data, @Ev aop ares (AWrite _qualification_path data) (Ok None) ∈ h ∧ reserved_line data.
Definition reserved_first (h : list (event ares)) : Prop := ∀ h1 e h2, h = h1 ++ e :: h2 → is_send e = true → reserved h1.

Lemma sends_app a b : sends (a ++ b) = sends a ++ sends b.
Proof. apply filter_app. Qed.

Lemma sends_quiet l : Forall (λ e, is_send e = false) l → sends l = [].
Proof. induction 1 as [|e l He _ IH]; [done|]. unfold sends. rewrite filter_cons_False; [done|]. by rewrite He. Qed.

Lemma reserved_app h l : reserved h → reserved (h ++ l).
Proof. intros (data & Hin & Hd). exists data. split; [|done]. apply elem_of_app. by left. Qed.

Lemma reserved_first_quiet h l : reserved_first h → Forall (λ e, is_send e = false) l → reserved_first (h ++ l).
Proof.
  intros Hr Hl h1 e h2 [(k & -> & Hk)|(k & -> & ->)]%app_eq_inv He.
  - destruct k as [|e' k]; [|injection Hk as <- ->; by eapply Hr]. rewrite app_nil_r in Hr. cbn in Hk. subst.
    apply Forall_cons in Hl as [Hl _]. congruence.
  - apply Forall_app in Hl as [_ [Hl _]%Forall_cons]. congruence.
Qed.

Lemma reserved_first_send h e : reserved h → sends h = [] → reserved_first (h ++ [e]).
Proof.
  intros Hr Hs h1 e' h2 Heq He'. destruct h2 as [|x h2 _] using rev_ind.
  - apply app_inj_tail in Heq as [-> _]. done.
  - rewrite app_comm_cons, app_assoc in Heq. apply app_inj_tail in Heq as [-> _]. exfalso.
    rewrite sends_app in Hs. apply app_eq_nil in Hs as [_ Hs]. unfold sends in Hs. by rewrite filter_cons_True in Hs.
Qed.

Section OneSend.
Context (env : environment ares) (posix : bool).

Definition journalled (s : ops) : Prop := is_Some (op_files s !! _qualification_path).

(** Between runs; before the send; with the reservation; after the send *)
Definition between (s : ops) : Prop := (¬ journalled s → sends (op_hist s) = []) ∧ (length (sends (op_hist s)) <= 1)%nat ∧ reserved_first (op_hist s).
Definition unsent (s : ops) : Prop := journalled s ∧ sends (op_hist s) = [] ∧ reserved_first (op_hist s).
Definition ready (s : ops) : Prop := unsent s ∧ reserved (op_hist s).
Definition sent (s : ops) : Prop := journalled s ∧ (length (sends (op_hist s)) <= 1)%nat ∧ reserved_first (op_hist s).

(** Assertions that survive every step that sends nothing and removes no file *)
Definition calm (P : ops → Prop) : Prop :=
  ∀ s s' l, op_hist s' = op_hist s ++ l → Forall (λ e, is_send e = false) l → (journalled s → journalled s') → P s → P s'.

Lemma calm_between : calm between.
Proof.
  intros s s' l Hh Hl Hj (H1 & H2 & H3). unfold between. rewrite Hh, sends_app, (sends_quiet l) by done. rewrite app_nil_r.
  split_and!; [tauto|done|by apply reserved_first_quiet].
Qed.
Lemma calm_unsent : calm unsent.
Proof.
  intros s s' l Hh Hl Hj (H1 & H2 & H3). unfold unsent. rewrite Hh, sends_app, (sends_quiet l) by done. rewrite app_nil_r.
  split_and!; [tauto|done|by apply reserved_first_quiet].
Qed.
Lemma calm_ready : calm ready.
Proof. intros s s' l Hh Hl Hj [H1 H2]. split; [by eapply calm_unsent|]. rewrite Hh. by apply reserved_app. Qed.
Lemma calm_sent : calm sent.
Proof.
  intros s s' l Hh Hl Hj (H1 & H2 & H3). unfold sent. rewrite Hh, sends_app, (sends_quiet l) by done. rewrite app_nil_r.
  split_and!; [tauto|done|by apply reserved_first_quiet].
Qed.
#[local] Hint Resolve calm_between calm_unsent calm_ready calm_sent : core keeps.

Lemma sent_between s : sent s → between s.
Proof. intros (H1 & H2 & H3). by split_and!. Qed.
Lemma unsent_sent s : unsent s → sent s.
Proof. intros (H1 & H2 & H3). unfold sent. rewrite H2. split_and!; [done|cbn; lia|done]. Qed.

Lemma calm_ask P o : calm P → (∀ a, is_send (Ev o a) = false) → keeps P (aask env o).
Proof. intros HP Ho s Hs. eapply HP; [reflexivity| |done|exact Hs]. by repeat constructor. Qed.

Lemma calm_modify P (f : ops → ops) : calm P → (∀ s, op_hist (f s) = op_hist s) → (∀ s, journalled s → journalled (f s)) → keeps P (modify f).
Proof. intros HP H1 H2. apply keeps_modify. intros s Hs. eapply (HP s _ []); [by rewrite H1, app_nil_r|done|apply H2|done]. Qed.

Lemma calm_set_file P path content : calm P → keeps P (modify (set_file path content)).
Proof.
  intros HP. apply calm_modify; [done..|]. intros s Hs. unfold journalled. cbn.
  destruct (decide (path = _qualification_path)) as [->|]; [rewrite lookup_insert_eq|rewrite lookup_insert_ne by done]; eauto.
Qed.

Lemma calm_fail {A} P category : keeps P (fail (A:=A) category).
Proof. apply keeps_throw. Qed.
Lemma calm_fail_if P b category : keeps P (fail_if b category).
Proof. apply keeps_throw_if. Qed.
#[local] Hint Resolve calm_fail calm_fail_if : keeps.
#[local] Hint Extern 1 (keeps _ (aask _ _)) => (apply calm_ask; [by auto|done]) : keeps.
#[local] Hint Extern 1 (keeps _ (modify (set_file _ _))) => (apply calm_set_file; by auto) : keeps.
#[local] Hint Extern 2 (keeps _ (modify _)) => (apply calm_modify; [by auto|done|done]) : keeps.

Lemma calm_write P path data : calm P → keeps P (write env path data).
Proof. intros HP. unfold write. keeps_walk. Qed.
#[local] Hint Resolve calm_write : keeps.

Lemma calm_exclusive P path data : calm P → keeps P (_exclusive env posix path data).
Proof. intros HP. unfold _exclusive. keeps_walk. Qed.
#[local] Hint Resolve calm_exclusive : keeps.

Lemma calm_api P token method parameters : calm P → method ≠ "sendMessage" → keeps P (api_call env token method parameters).
Proof.
  intros HP Hm. apply String.eqb_neq in Hm. unfold api_call. keeps_walk.
Qed.

Lemma calm_record P stage error : calm P → keeps P (record env stage error).
Proof. intros HP. unfold record. keeps_walk. Qed.
#[local] Hint Resolve calm_record : keeps.

Lemma calm_send_failed P e : calm P → keeps P (send_failed env e).
Proof. intros HP. unfold send_failed. keeps_walk. Qed.

Lemma calm_read P path maximum : calm P → keeps P (_read_protected_file env path maximum).
Proof. intros HP. unfold _read_protected_file. keeps_walk. Qed.
#[local] Hint Resolve calm_read : keeps.

Lemma calm_read_journal P sha256 id : calm P → keeps P (read_journal env sha256 id).
Proof. intros HP. unfold read_journal. keeps_walk. Qed.
#[local] Hint Resolve calm_read_journal : keeps.

Lemma calm_read_ack P sha256 id : calm P → keeps P (read_acknowledgement env sha256 id).
Proof. intros HP. unfold read_acknowledgement. keeps_walk. Qed.
#[local] Hint Resolve calm_read_ack : keeps.

Lemma calm_acknowledge P sha256 id confirmation : calm P → keeps P (acknowledge env posix sha256 id confirmation).
Proof. intros HP. unfold acknowledge. keeps_walk. Qed.

Lemma calm_render P baseline template policy directory : calm P → keeps P (render_files env posix baseline template policy directory).
Proof. intros HP. unfold render_files. keeps_walk. Qed.

(** *** The stages of a qualification *)
Lemma exclusive_unsent data : post between (_exclusive env posix _qualification_path data) (ends (λ _, unsent) between).
Proof.
  unfold _exclusive. eapply post_step; [apply post_keeps; [keeps_walk|done]|intros []].
  apply (post_step _ (λ a s, a = s ∧ between s)); [by intros s Hs|intros s].
  apply (post_step _ (λ _ s', ¬ journalled s' ∧ between s')); [|intros []].
  { intros s' [-> Hs]. unfold throw_if, liftR. destruct (bool_decide_reflect (is_Some (op_files s' !! _qualification_path))); by cbn. }
  apply (post_step _ (λ _, unsent)); [|intros []].
  { intros s' [Hj (H1 & H2 & H3)]. cbn. split_and!; [|by apply H1|done]. unfold journalled. cbn. rewrite lookup_insert_eq. eauto. }
  eapply post_weaken; [apply (post_keeps unsent between)|done|by intros [[]| |]].
  - keeps_walk.
  - intros s' Hs'. by apply sent_between, unsent_sent.
Qed.

Lemma write_Ret path data s u s' :
  write env path data s = (Ret u, s') → op_hist s' = op_hist s ++ [@Ev aop ares (AWrite path data) (Ok None)] ∧
    op_files s' = <[path := default EmptyString (op_files s !! path) +:+ data]> (op_files s) ∧ op_result s' = op_result s.
Proof.
  unfold write. intros H. apply bind_Ret in H as (torn & s1 & H1 & H). apply bind_Ret in H as (s2 & s3 & [= <- <-] & H).
  unfold aask, perform in H1. destruct (env (op_hist s) (AWrite path data)) as [t|e] eqn:E; [|done].
  injection H1 as -> <-. destruct torn as [[k e]|].
  - by apply bind_Ret in H as (? & ? & _ & [[=] _]%liftR_Ret).
  - apply modify_Ret in H as ->. by cbn.
Qed.

Lemma record_Ret stage error s u s' :
  record env stage error s = (Ret u, s') →
  ∃ now text,
    canonical (VDict (dset "observed_at_utc" (VStr (isoformat (utc now)))
                        (dset "error_category" (match error with Some e => VStr e | None => VNone end) (dset "stage" (VStr stage) (op_result s))))) = Ok text
    ∧ @Ev aop ares (AWrite _qualification_path (text +:+ LF)) (Ok None) ∈ op_hist s'.
Proof.
  unfold record. intros (? & s1 & ->%modify_Ret & H)%bind_Ret.
  apply bind_Ret in H as (? & s2 & ->%modify_Ret & H).
  apply bind_Ret in H as (d & s3 & [-> ->]%gets_Ret & H).
  apply bind_Ret in H as (now & s4 & _ & H).
  apply bind_Ret in H as (? & s5 & _ & H).
  apply bind_Ret in H as (? & s6 & _ & H).
  apply bind_Ret in H as (? & s7 & _ & H).
  apply bind_Ret in H as (text & s8 & [E ->]%liftR_Ret & H).
  apply write_Ret in H as [Hh _]. exists now, text. split; [exact E|]. rewrite Hh. apply elem_of_app. right. by apply list_elem_of_singleton.
Qed.

Definition attempted (s : ops) : Prop := unsent s ∧ dget "send_attempts" (op_result s) = VInt 1.

Lemma record_reserves : post attempted (record env "SEND_RESERVED" None) (ends (λ _, ready) sent).
Proof.
  intros s [Hu Ha]. pose proof (calm_record unsent "SEND_RESERVED" None calm_unsent s Hu) as Hk.
  destruct (record env "SEND_RESERVED" None s) as [[[]|e|] s'] eqn:E; cbn in *; [|by apply unsent_sent..].
  split; [done|]. apply record_Ret in E as (now & text & Hc & Hin). exists (text +:+ LF). split; [exact Hin|].
  eexists _, text. split_and!; [| |exact Hc|done]; unfold dget in *; by rewrite !dlookup_dset.
Qed.

(** A quiet step before the request, and any step after it *)
Lemma quiet_then {A B} (P : ops → Prop) QE (m : M ops A) (f : A → M ops B) QR :
  keeps P m → (∀ s, P s → QE s) → (∀ a, post P (f a) (ends QR QE)) → post P (m ≫= f) (ends QR QE).
Proof. intros Hm HP Hf. by eapply post_step; [apply post_keeps|]. Qed.

Lemma sent_then {A B} (P : ops → Prop) (m : M ops A) (f : A → M ops B) :
  post P m (λ _, sent) → (∀ a, keeps sent (f a)) → post P (m ≫= f) (λ _, sent).
Proof. intros Hm Hf. by apply (post_seq _ sent). Qed.

Lemma ready_sent s : ready s → sent s.
Proof. intros [H _]. by apply unsent_sent. Qed.

(** The one request that sends *)
Lemma post_asks token data : post ready (aask env (APost token "sendMessage" data)) (λ _, sent).
Proof.
  intros s [[Hj [Hs Hr]] Hres]. unfold aask, perform.
  assert (∀ a, sent (alog (Ev (APost token "sendMessage" data) a) s)) as H.
  { intros a. split_and!; cbn; [exact Hj|rewrite sends_app, Hs; unfold sends; by rewrite filter_cons_True|by apply reserved_first_send]. }
  destruct (env (op_hist s) _); apply H.
Qed.

Lemma api_sends token (d : dict) : post ready (api_call env token "sendMessage" d) (λ _, sent).
Proof.
  unfold api_call. apply (post_seq _ ready); [apply keeps_throw_if|intros []|apply ready_sent].
  apply (post_seq _ ready); [apply keeps_liftR|intros data|apply ready_sent].
  apply sent_then; [|intros v; keeps_walk].
  apply (post_try _ sent); [|intros e; keeps_walk|done].
  eapply post_weaken; [apply sent_then; [apply post_asks|intros status; keeps_walk]|done|by intros []].
Qed.

Lemma send_sent token : post ready (send env token) (λ _, sent).
Proof.
  unfold send. apply (post_seq _ ready); [keeps_walk|intros []|apply ready_sent].
  apply (post_seq _ ready); [|intros []|apply ready_sent].
  { apply calm_modify; [apply calm_ready| |]; unfold count_method; intros s; by destruct (dget _ _). }
  apply sent_then; [apply api_sends|intros r; keeps_walk].
Qed.

Lemma precheck_reserves : post unsent (precheck env) (ends (λ _, ready) sent).
Proof.
  assert (∀ method, keeps unsent (modify (count_method method))) as Hc.
  { intros method. apply calm_modify; [apply calm_unsent| |]; unfold count_method; intros s; by destruct (dget _ _). }
  unfold precheck.
  repeat lazymatch goal with
    | |- post _ (modify (put _ _) ≫= _) _ => fail
    | |- post _ (modify (count_method _) ≫= _) _ => apply quiet_then; [apply Hc|apply unsent_sent|intros ?]
    | |- post _ (api_call _ _ _ _ ≫= _) _ => apply quiet_then; [apply calm_api; [apply calm_unsent|discriminate]|apply unsent_sent|intros ?]
    | _ => apply quiet_then; [keeps_walk|apply unsent_sent|intros ?; cbn zeta]
    end.
  apply (post_step _ (λ _, attempted)); [|intros []].
  { intros s Hs. split; [by apply (calm_modify unsent)|]. cbn. unfold dget. by rewrite dlookup_dset. }
  eapply post_step; [apply record_reserves|intros []]. by intros s Hs.
Qed.

Lemma qualify_between authorize : keeps between (qualify env posix authorize).
Proof.
  assert (∀ u s, ends (λ _ : unit, unsent) between u s → between s) as Hb.
  { intros [[]| |] s Hs; [|done..]. by apply sent_between, unsent_sent. }
  as_keeps. unfold qualify.
  repeat lazymatch goal with
    | |- post _ (try_except _ _ _ ≫= _) _ => fail
    | _ => apply (post_seq _ between); [keeps_walk|intros ?|done]
    end.
  eapply post_weaken with (Q' := ends (λ _ : dict, between) between); [|done|by intros []].
  apply (post_step _ (λ _, unsent)); [|intros []].
  { intros s Hs. pose proof (exclusive_unsent (a11 +:+ LF) s Hs) as H.
    unfold try_except. destruct (_exclusive env posix _qualification_path (a11 +:+ LF) s) as [[u|e|] s']; cbn in *; [done| |done].
    by destruct (bool_decide _). }
  apply quiet_then; [keeps_walk|intros s Hs; by apply sent_between, unsent_sent|intros ?].
  eapply post_weaken with (Q' := λ _, sent); [|done|intros [] s Hs; by apply sent_between].
  apply (post_seq _ sent); [|intros ?; keeps_walk|done].
  apply (post_try _ sent); [|intros e; apply calm_send_failed, calm_sent|done].
  eapply post_weaken with (Q' := ends (λ _, sent) sent); [|done|by intros []].
  eapply post_step; [apply precheck_reserves|intros token].
  eapply post_weaken; [apply send_sent|done|by intros []].
Qed.

Lemma act_between a : keeps between (act env posix a).
Proof.
  destruct a; cbn [act]; [apply calm_render|apply qualify_between|apply calm_acknowledge|apply calm_read_ack]; apply calm_between.
Qed.

Lemma runs_between l s : between s → between (runs env posix l s).
Proof. revert s. induction l as [|a l IH]; intros s Hs; [done|]. cbn. by apply IH, act_between. Qed.

(** C4. Whatever runs of the script follow one another on the same directory, starting with an empty one, and however each of them dies
    — at any request, at any operation of the file system, in the middle of a write — at most one message is ever sent, and before
    it a journal line that reserves it, with stage [SEND_RESERVED] and one attempt, was written whole and flushed. *)
Theorem one_send l d sending : let s := runs env posix l (Ops ∅ d sending []) in (length (sends (op_hist s)) <= 1)%nat ∧ reserved_first (op_hist s).
Proof.
  cbn zeta. apply runs_between. split_and!; [done|cbn; lia|]. intros h1 e h2 H. by destruct h1.
Qed.
End OneSend.

(** ** What the journal of a successful run says *)
Definition stage_at (index : nat) : string := nth index JOURNAL_STAGES EmptyString.
(** The object on line [index] *)
Definition entry_at (id : Z) (implementation observed : string) (index : nat) : dict :=
  common ++
  [("implementation_sha256", VStr implementation); ("human_acknowledged", VBool false); ("trading_authority", VBool false);
   ("stage", VStr (stage_at index)); ("send_attempts", VInt (if (2 <=? index)%nat then 1 else 0)); ("http_method_counts", expected_counts index);
   ("transport_accepted", VBool (index =? 3)%nat)] ++
  (if (0 <? index)%nat then [("error_category", VNone); ("observed_at_utc", VStr observed)] else []) ++
  (if (index =? 3)%nat then [("message_id", VInt id)] else []).

(** The same value; the counters in any order *)
Definition same (v w : value) : Prop :=
  match v with VDict c => ∃ d, w = VDict d ∧ length d = length c ∧ Forall (λ kv, dlookup kv.1 c = Some kv.2) d | _ => w = v end.
(** The same keys, with the same values *)
Definition is_entry (expected entry : dict) : Prop :=
  keys_are entry (dkeys expected) = true ∧ Forall (λ kv, same kv.2 (dget kv.1 entry)) expected.

Definition utc_time (s : string) (d : datetime) : Prop := fromisoformat s = Ok d ∧ dt_offset d = Some 0.

Lemma deliver_if_Ok b category u : deliver_if b category = Ok u ↔ b = false.
Proof. apply raise_if_Ok. Qed.

Lemma is_bool_true b v : is_bool b v = true ↔ v = VBool b.
Proof. destruct v; try done. cbn. rewrite eqb_true_iff. naive_solver. Qed.

Lemma is_int_true n v : is_int n v = true ↔ v = VInt n.
Proof. destruct v; try done. cbn. rewrite Z.eqb_eq. naive_solver. Qed.

Lemma is_exact_int_true v : is_exact_int v = true ↔ ∃ n, v = VInt n.
Proof. destruct v; naive_solver. Qed.

Lemma py_eq_int_refl n : py_eq (VInt n) (VInt n) = true.
Proof. cbn. unfold num_eqb. cbn. by rewrite Z.compare_refl. Qed.

Lemma py_eq_int_true v n : py_eq v (VInt n) && is_exact_int v = true ↔ v = VInt n.
Proof.
  rewrite andb_true_iff, is_exact_int_true. split; [intros [H [m ->]]; by apply py_eq_ints in H as ->|intros ->].
  split; [apply py_eq_int_refl|eauto].
Qed.

Lemma py_eq_str_true v s : py_eq v (VStr s) = true ↔ v = VStr s.
Proof. split; [apply py_eq_str|intros ->; apply py_eq_refl_str]. Qed.

Lemma is_none_true v : is_none v = true ↔ v = VNone.
Proof. by destruct v. Qed.

Lemma keys_are_dmem (d : dict) ks k : keys_are d ks = true → dmem k d = bool_decide (k ∈ ks).
Proof.
  intros Hk. unfold keys_are in Hk. rewrite same_set_true in Hk. apply bool_decide_ext. rewrite <- Hk.
  destruct (dlookup k d) as [v|] eqn:E; [|apply dlookup_None in E; naive_solver].
  split; [|by eauto]. intros _. apply dlookup_elem in E. unfold dkeys. by apply (list_elem_of_fmap_2 fst _ (k, v)).
Qed.

Lemma counts_same index v :
  (py_eq v (expected_counts index) = true ∧ match v with VDict c => forallb (λ kv, is_exact_int kv.2) c | _ => true end = true) ↔
  same (expected_counts index) v.
Proof.
  assert (∃ a b c, expected_counts index = VDict [("getMe", VInt a); ("getChat", VInt b); ("sendMessage", VInt c)]) as (a & b & c & ->).
  { unfold expected_counts, counts. destruct index as [|[|[|[|]]]]; eauto. }
  split.
  - intros [H1 H2]. destruct v as [| | | | | | | |d]; try done. exists d. split; [done|].
    cbn -[length] in H1. apply andb_true_iff in H1 as [Hl H1]. apply Nat.eqb_eq in Hl. split; [done|]. clear Hl.
    induction d as [|[k x] d IH]; [done|]. cbn [forallb] in H2. apply andb_true_iff in H2 as [Hx H2].
    apply andb_true_iff in H1 as [He H1]. constructor; [|by apply IH]. cbn in *.
    apply is_exact_int_true in Hx as [n ->].
    repeat case_match; simplify_eq; try done; by apply py_eq_ints in He as ->.
  - intros (d & -> & Hl & Hd). split.
    + cbn -[length]. rewrite Hl. cbn [Nat.eqb length andb]. clear Hl. induction Hd as [|[k x] d Hx _ IH]; [done|]. cbn in *.
      rewrite Hx, IH, andb_true_r. repeat case_match; simplify_eq; apply py_eq_int_refl.
    + clear Hl. induction Hd as [|[k x] d Hx _ IH]; [done|]. cbn in *. rewrite IH, andb_true_r. repeat case_match; by simplify_eq.
Qed.

Lemma as_expected_str ints entry k s : bool_decide (k ∈ ints) = false → as_expected ints entry (k, VStr s) = true ↔ same (VStr s) (dget k entry).
Proof. intros Hk. unfold as_expected. cbn [fst snd]. rewrite Hk, andb_true_r. apply py_eq_str_true. Qed.

Lemma as_expected_int ints entry k n : bool_decide (k ∈ ints) = true → as_expected ints entry (k, VInt n) = true ↔ same (VInt n) (dget k entry).
Proof. intros Hk. unfold as_expected. cbn [fst snd]. rewrite Hk. apply py_eq_int_true. Qed.

Lemma common_same entry : forallb (as_expected ["schema_version"; "expected_chat_id"] entry) common = true ↔ Forall (λ kv, same kv.2 (dget kv.1 entry)) common.
Proof.
  unfold common. cbn [forallb]. rewrite !andb_true_iff, !Forall_cons, Forall_nil.
  rewrite !as_expected_int, !as_expected_str by reflexivity. cbn [fst snd]. tauto.
Qed.

Definition in_order (previous : option datetime) (d : datetime) : Prop := match previous with Some p => instant p <= instant d | None => True end.

Lemma parse_utc_Ok v error d : _parse_utc_timestamp v error = Ok d ↔ ∃ s, v = VStr s ∧ utc_time s d.
Proof.
  unfold _parse_utc_timestamp, utc_time, deliver, raise. split.
  - destruct v as [| | | |s| | | |]; try done. destruct (fromisoformat s) as [d'|e] eqn:E; cbn.
    + destruct (dt_offset d') as [[]|] eqn:E'; try done. intros [= <-]. exists s. by rewrite E.
    + by destruct (bool_decide _).
  - intros (s & -> & -> & Hd). cbn. by rewrite Hd.
Qed.

Lemma deliver_then {B} b category (f : unit → result B) x : (deliver_if b category ≫= f) = Ok x ↔ b = false ∧ f tt = Ok x.
Proof. rewrite bind_Ok. setoid_rewrite deliver_if_Ok. split; [intros ([] & H); exact H|eauto]. Qed.

Lemma hex_string v : (match v with VStr h => fullmatch (hex 64) h | _ => false end) = true ↔ ∃ h, v = VStr h ∧ fullmatch (hex 64) h = true.
Proof. destruct v; naive_solver. Qed.

Lemma counts_rejected index v :
  negb (py_eq v (expected_counts index)) || match v with VDict c => negb (forallb (λ kv, is_exact_int kv.2) c) | _ => false end = false ↔
  same (expected_counts index) v.
Proof. rewrite <- counts_same, orb_false_iff, negb_false_iff. destruct v; [intuition congruence..|]. by rewrite negb_false_iff. Qed.

(** The conditions of one iteration, one by one *)
Lemma entry_at_same id implementation observed index entry :
  is_entry (entry_at id implementation observed index) entry ↔
  keys_are entry (expected_keys index) = true ∧ dget "implementation_sha256" entry = VStr implementation
  ∧ Forall (λ kv, same kv.2 (dget kv.1 entry)) common
  ∧ (dget "human_acknowledged" entry = VBool false ∧ dget "trading_authority" entry = VBool false)
  ∧ (dget "stage" entry = VStr (stage_at index) ∧ dget "send_attempts" entry = VInt (if (2 <=? index)%nat then 1 else 0))
  ∧ same (expected_counts index) (dget "http_method_counts" entry) ∧ dget "transport_accepted" entry = VBool (index =? 3)%nat
  ∧ (if (index =? 3)%nat then dget "message_id" entry = VInt id else True)
  ∧ (if (0 <? index)%nat then dget "error_category" entry = VNone ∧ dget "observed_at_utc" entry = VStr observed else True).
Proof.
  unfold is_entry. assert (dkeys (entry_at id implementation observed index) = expected_keys index) as ->.
  { unfold entry_at, expected_keys, base_keys, dkeys. rewrite !fmap_app, <- app_assoc. repeat f_equal; repeat case_match; done. }
  unfold entry_at. rewrite !Forall_app, !Forall_cons, Forall_nil. cbn [fst snd].
  destruct (index =? 3)%nat, (0 <? index)%nat; rewrite ?Forall_cons, ?Forall_nil; cbn [fst snd]; tauto.
Qed.

Lemma observed_then v error previous p :
  (d ← _parse_utc_timestamp v error;
   _ ← deliver_if (match previous with Some q => instant d <? instant q | None => false end) "QUALIFICATION_JOURNAL_TIME_ORDER_REJECTED"; Ok (Some d)) = Ok p
  ↔ ∃ observed, v = VStr observed ∧ ∃ d, p = Some d ∧ utc_time observed d ∧ in_order previous d.
Proof.
  rewrite bind_Ok. setoid_rewrite parse_utc_Ok. setoid_rewrite deliver_then. unfold in_order. split.
  - intros (d & (s & -> & Hd) & Ho & [= <-]). exists s. split; [done|]. exists d. split_and!; [done..|]. destruct previous; [lia|done].
  - intros (s & -> & d & -> & Hd & Ho). exists d. split; [eauto|]. split; [|done]. destruct previous; [lia|done].
Qed.

(** One line that passes the loop *)
Lemma check_entry_Ok id previous index entry p :
  (index < 4)%nat →
  check_entry id previous index entry (stage_at index) = Ok p ↔
  ∃ implementation observed, fullmatch (hex 64) implementation = true ∧ is_entry (entry_at id implementation observed index) entry ∧
    if (0 <? index)%nat then ∃ d, p = Some d ∧ utc_time observed d ∧ in_order previous d else p = previous.
Proof.
  intros Hi. setoid_rewrite entry_at_same. unfold check_entry.
  repeat (rewrite deliver_then; cbn beta). rewrite counts_rejected. rewrite !orb_false_iff, !negb_false_iff, hex_string, common_same, !is_bool_true, py_eq_str_true.
  rewrite as_expected_int by reflexivity. cbn [same].
  destruct (decide (keys_are entry (expected_keys index) = true)) as [Hk|]; [|naive_solver].
  pose proof (keys_are_dmem _ _ "message_id" Hk) as Hm. pose proof (keys_are_dmem _ _ "error_category" Hk) as He. 
  destruct index as [|[|[|[|]]]]; [..|lia]; cbn [Nat.ltb Nat.leb Nat.eqb]; repeat (rewrite deliver_then; cbn beta);
    rewrite ?Hm, ?He, ?observed_then, ?negb_false_iff, ?is_none_true, ?is_int_true.
  all: naive_solver.
Qed.

(** The four objects of the journal of a message [id] that was accepted *)
Definition journal_of (id : Z) (entries : list dict) : Prop :=
  ∃ implementation o1 o2 o3 d1 d2 d3,
    fullmatch (hex 64) implementation = true
    ∧ Forall2 is_entry (zip_with (entry_at id implementation) [EmptyString; o1; o2; o3] [0; 1; 2; 3]%nat) entries
    ∧ utc_time o1 d1 ∧ utc_time o2 d2 ∧ utc_time o3 d3 ∧ instant d1 <= instant d2 <= instant d3.

Definition drifted (first entry : dict) : bool := existsb (λ key, negb (py_eq (dget key entry) (dget key first))) FINGERPRINT.

Lemma entries_drifted id a b o o' i j first entry :
  is_entry (entry_at id a o i) first → is_entry (entry_at id b o' j) entry → drifted first entry = false ↔ b = a.
Proof.
  assert (∀ implementation observed index e, is_entry (entry_at id implementation observed index) e →
    dget "implementation_sha256" e = VStr implementation ∧ Forall (λ kv, dget kv.1 e = kv.2) common) as H.
  { intros implementation observed index e (_ & Hi & Hc & _)%entry_at_same. split; [done|].
    unfold common in *. rewrite !Forall_cons, Forall_nil in *. exact Hc. }
  intros [Ha Hca]%H [Hb Hcb]%H. unfold common in Hca, Hcb. rewrite !Forall_cons in Hca, Hcb. cbn [fst snd] in Hca, Hcb.
  unfold drifted, FINGERPRINT. cbn [existsb]. destruct_and!.
  repeat match goal with H : dget _ _ = _ |- _ => rewrite H; clear H end.
  rewrite !py_eq_refl_str, py_eq_int_refl. cbn [negb orb]. rewrite orb_false_r, negb_false_iff, py_eq_str_true. naive_solver.
Qed.

Lemma check_first id entry p :
  check_entry id None 0 entry (stage_at 0) = Ok p ↔ p = None ∧ ∃ a, fullmatch (hex 64) a = true ∧ is_entry (entry_at id a EmptyString 0) entry.
Proof. rewrite check_entry_Ok by lia. cbn [Nat.ltb Nat.leb]. split; [intros (a & o & ? & H & ->); split; [done|]; exists a; by split|naive_solver]. Qed.

Lemma check_next id previous index entry p :
  (index < 3)%nat →
  check_entry id previous (S index) entry (stage_at (S index)) = Ok p ↔
  ∃ d, p = Some d ∧ in_order previous d ∧ ∃ a o, fullmatch (hex 64) a = true ∧ is_entry (entry_at id a o (S index)) entry ∧ utc_time o d.
Proof. intros Hi. rewrite check_entry_Ok by lia. cbn [Nat.ltb Nat.leb]. naive_solver. Qed.

Lemma check_pass id previous index entry a o d :
  (index < 3)%nat → in_order previous d → fullmatch (hex 64) a = true → is_entry (entry_at id a o (S index)) entry → utc_time o d →
  check_entry id previous (S index) entry (stage_at (S index)) = Ok (Some d).
Proof. intros Hi Ho Ha He Hd. apply check_next; [done|]. exists d. split_and!; [done..|]. by exists a, o. Qed.

(** The loop over the four objects, and the comparison with the first *)
Lemma four_entries id e0 e1 e2 e3 u :
  check_entries id None 0 [e0; e1; e2; e3] JOURNAL_STAGES = Ok u ∧ existsb (drifted e0) [e1; e2; e3] = false ↔ journal_of id [e0; e1; e2; e3].
Proof.
  assert (JOURNAL_STAGES = [stage_at 0; stage_at 1; stage_at 2; stage_at 3]) as -> by done. destruct u.
  cbn [check_entries existsb]. rewrite !orb_false_iff. split.
  - intros [(p0 & [-> (a & Ha & H0)]%check_first & (p1 & H1 & (p2 & H2 & (p3 & H3 & _)%bind_Ok)%bind_Ok)%bind_Ok)%bind_Ok (D1 & D2 & D3 & _)].
    apply check_next in H1 as (d1 & -> & _ & b & o1 & _ & H1 & U1); [|lia]. apply check_next in H2 as (d2 & -> & O2 & c & o2 & _ & H2 & U2); [|lia].
    apply check_next in H3 as (d3 & -> & O3 & d & o3 & _ & H3 & U3); [|lia].
    apply (entries_drifted _ _ _ _ _ _ _ _ _ H0 H1) in D1 as ->. apply (entries_drifted _ _ _ _ _ _ _ _ _ H0 H2) in D2 as ->.
    apply (entries_drifted _ _ _ _ _ _ _ _ _ H0 H3) in D3 as ->.
    exists a, o1, o2, o3, d1, d2, d3. split_and!; [done| |done..]. cbn [zip_with].
    by repeat (apply Forall2_cons; split; [assumption|]).
  - intros (a & o1 & o2 & o3 & d1 & d2 & d3 & Ha & Hall & U1 & U2 & U3 & O2 & O3). cbn [zip_with] in Hall.
    rewrite !Forall2_cons in Hall. destruct Hall as (H0 & H1 & H2 & H3 & _). split.
    + rewrite bind_Ok. exists None. split; [apply check_first; eauto|]. rewrite bind_Ok. exists (Some d1). split; [eapply check_pass; first [eassumption|done|lia]|].
      rewrite bind_Ok. exists (Some d2). split; [eapply check_pass; first [eassumption|done|lia]|].
      rewrite bind_Ok. exists (Some d3). split; [eapply check_pass; first [eassumption|done|lia]|done].
    + by rewrite (entries_drifted _ _ _ _ _ _ _ _ _ H0 H1), (entries_drifted _ _ _ _ _ _ _ _ _ H0 H2), (entries_drifted _ _ _ _ _ _ _ _ _ H0 H3).
Qed.

Lemma terminal_journal raw id entries :
  _validated_terminal_journal raw (VInt id) = Ok entries ↔
  0 < id ∧ endswith LF raw = true ∧ mapR parse_entry (bsplitlines raw) = Ok entries ∧ journal_of id entries.
Proof.
  cbn [_validated_terminal_journal]. rewrite !deliver_then, negb_false_iff, orb_false_iff, negb_false_iff, Nat.eqb_eq, Z.leb_gt, bind_Ok.
  assert (∀ es, length es = 4%nat → (check_entries id None 0 es JOURNAL_STAGES ≫= λ _,
      deliver_if (existsb (drifted (default [] (head es))) (tail es)) "QUALIFICATION_JOURNAL_DRIFT" ≫= λ _, Ok es) = Ok entries ↔
    es = entries ∧ journal_of id es) as Hloop.
  { intros [|e0 [|e1 [|e2 [|e3 [|]]]]] Hl; try done. rewrite bind_Ok. setoid_rewrite deliver_then. split.
    - intros (u & Hc & Hd & [= <-]). split; [done|]. by apply (four_entries _ _ _ _ _ u).
    - intros [<- Hj]. apply (four_entries _ _ _ _ _ tt) in Hj as [Hc Hd]. exists tt. by split_and!. }
  split.
  - intros (Hid & Hend & [Hl _] & es & [Hes|(e & _ & _ & [=])]%catch_Ok & H). pose proof Hes as Hlen.
    apply mapR_Ok, Forall2_length in Hlen. apply Hloop in H as [<- Hj]; [done|congruence].
  - intros (Hid & Hend & Hes & Hj). pose proof Hes as Hlen. apply mapR_Ok, Forall2_length in Hlen.
    assert (length entries = 4%nat) as Hl. { destruct Hj as (a & o1 & o2 & o3 & d1 & d2 & d3 & _ & Hall & _). by apply Forall2_length in Hall. }
    split_and!; [done..|congruence| |].
    + by rewrite Hlen, Hl.
    + exists entries. split; [apply catch_Ok; by left|]. apply Hloop; done.
Qed.

(** C14. The journal of an accepted message, exactly: a file is accepted for the message [id] exactly if it ends with a line feed and has four
    lines of strict JSON whose objects have, each, the keys and the values that its stage requires — the same implementation on
    all four, one send attempt from the reservation on, the request counters of the stage, no flag of authority, the message id
    on the last line only — and whose three UTC times do not decrease. *)
Theorem journal_exact raw id entries :
  _validated_terminal_journal raw (VInt id) = Ok entries ↔
  0 < id ∧ endswith LF raw = true ∧ mapR parse_entry (bsplitlines raw) = Ok entries ∧ journal_of id entries.
Proof. apply terminal_journal. Qed.
