(* ===== verification/AlertJournalSpec.v ===== *)
(** * The journal that a successful test send writes is one that the reader accepts ([AlertDelivery]) *)

From stdpp Require Import strings.
From S2P Require Import Prelude PyStr Regex Sha256 PyVal PyTime Json PyBytes IsoText JsonText Effects AlertDelivery AlertDeliverySpec.

Local Open Scope string_scope.
Local Open Scope list_scope.
Local Open Scope Z_scope.

#[local] Opaque sha256_hex.

(** ** Lines *)
Lemma unlines_snoc ls s : unlines (ls ++ [s]) = unlines ls +:+ s +:+ LF.
Proof. induction ls as [|x ls IH]; [done|]. change (x +:+ LF +:+ unlines (ls ++ [s]) = (x +:+ LF +:+ unlines ls) +:+ s +:+ LF).
  rewrite IH. by rewrite <- !app_assoc_str.
Qed.

Lemma endswith_unlines ls s : endswith LF (unlines (ls ++ [s])) = true.
Proof. rewrite unlines_snoc, app_assoc_str. apply endswith_app. Qed.

(** ** One line *)
Lemma unique_pairs_distinct ps : NoDup ps.*1 → unique_pairs ps = Ok (VDict ps).
Proof. intros H. unfold unique_pairs. apply no_dup_true in H. by rewrite H. Qed.

Definition sorted_dict (d : dict) : dict := sort_dict ((λ kv, (kv.1, sorted kv.2)) <$> d).

Lemma canonical_line d text :
  plain (VDict d) = true → canonical (VDict d) = Ok text → sall line_char text = true ∧ parse_entry text = Ok (sorted_dict d).
Proof.
  intros Hp Hc. destruct (dumps_loads_bytes delivery_style unique_pairs no_constant (VDict d) eq_refl unique_pairs_distinct Hp) as (t & Hd & He & Hl & Hr).
  unfold canonical in Hc. rewrite Hd in Hc. cbn in Hc. rewrite He in Hc. injection Hc as <-. split; [done|].
  unfold parse_entry, loads_strict. by rewrite Hr.
Qed.

Lemma hex_clear s : sall jclear (sha256_hex s) = true.
Proof.
  destruct (sha256_hex_ok s) as [_ H]. eapply sall_impl; [|exact H]. intros c Hc. destruct c as [[] [] [] [] [] [] [] []]; (discriminate || done).
Qed.

Lemma sha_hex64 s : fullmatch (hex 64) (sha256_hex s) = true.
Proof. destruct (sha256_hex_ok s) as [Hl Hh]. by apply fullmatch_rep. Qed.

Lemma iso_clear t : 0 <= t < MAX_LOCAL → sall jclear (isoformat (utc t)) = true.
Proof.
  intros Ht. eapply sall_impl; [|by apply isoformat_chars]. intros c Hc. destruct c as [[] [] [] [] [] [] [] []]; (discriminate || done).
Qed.

(** ** The objects written *)
Definition noted (stage : string) (d : dict) : dict := dset "error_category" VNone (dset "stage" (VStr stage) d).
Definition observed (now : Z) (d : dict) : dict := dset "observed_at_utc" (VStr (isoformat (utc now))) d.
Definition counted (method : string) (d : dict) : dict :=
  match dget "http_method_counts" d with VDict c => dset "http_method_counts" (VDict (dset method (VInt 1) c)) d | _ => d end.

Definition identified (impl : string) : dict := noted "IDENTITY_VERIFIED" (counted "getChat" (counted "getMe" (initial_result impl))).
Definition reserving (impl : string) : dict := noted "SEND_RESERVED" (dset "send_attempts" (VInt 1) (identified impl)).
Definition accepted (impl : string) (id : Z) : dict :=
  noted "TRANSPORT_ACCEPTED" (dset "message_id" (VInt id) (dset "transport_accepted" (VBool true) (counted "sendMessage" (reserving impl)))).

(** The four of them are what the reader wants. *)
Definition written (impl : string) (id n1 n2 n3 : Z) : list dict :=
  [initial_result impl; observed n1 (identified impl); observed n2 (reserving impl); observed n3 (accepted impl id)].

Lemma written_plain impl id n1 n2 n3 :
  slen (dec_of_Z (Z.abs id)) <= 4300 → 0 <= n1 < MAX_LOCAL → 0 <= n2 < MAX_LOCAL → 0 <= n3 < MAX_LOCAL →
  Forall (λ d, plain (VDict d) = true) (written impl id n1 n2 n3).
Proof.
  intros Hid H1 H2 H3. unfold written, observed, accepted, reserving, identified, initial_result.
  pose proof (iso_clear n1 H1) as Ht1. pose proof (iso_clear n2 H2) as Ht2. pose proof (iso_clear n3 H3) as Ht3.
  pose proof (hex_clear impl) as Hh. pose proof (hex_clear TEST_MESSAGE) as Hg.
  revert Ht1 Ht2 Ht3 Hh Hg. generalize (isoformat (utc n1)) (isoformat (utc n2)) (isoformat (utc n3)) (sha256_hex impl) (sha256_hex TEST_MESSAGE).
  intros t1 t2 t3 h g Ht1 Ht2 Ht3 Hh Hg.
  apply Z.leb_le in Hid.
  repeat constructor; cbn -[slen Z.abs dec_of_Z Z.leb]; rewrite ?Hh, ?Hg, ?Ht1, ?Ht2, ?Ht3, ?Hid; reflexivity.
Qed.

Ltac entry_matches :=
  split; [vm_compute; reflexivity|];
  repeat (apply Forall_cons; split; [first
    [vm_compute; reflexivity
    |hnf; eexists; split; [vm_compute; reflexivity|split; [reflexivity|repeat (apply Forall_cons; split; [reflexivity|]); constructor]]]|]); constructor.

Lemma written_entries impl id n1 n2 n3 :
  Forall2 is_entry (zip_with (entry_at id (sha256_hex impl)) [EmptyString; isoformat (utc n1); isoformat (utc n2); isoformat (utc n3)] [0; 1; 2; 3]%nat)
    (sorted_dict <$> written impl id n1 n2 n3).
Proof.
  unfold written, observed, accepted, reserving, identified, initial_result, entry_at, common.
  generalize (isoformat (utc n1)) (isoformat (utc n2)) (isoformat (utc n3)) (sha256_hex impl) (sha256_hex TEST_MESSAGE). intros t1 t2 t3 h g.
  cbn [zip_with fmap list_fmap]. repeat (apply Forall2_cons; split); [..|constructor].
  all: entry_matches.
Qed.

Lemma jdump_member st depth d text k x : jdump st depth (VDict d) = Ok text → (k, x) ∈ d → ∃ t, jdump st (depth + 1) x = Ok t.
Proof.
  intros H Hin. cbn [jdump] in H. apply bind_Ok in H as (items & H & _). revert items H.
  induction d as [|[k' y] d IH]; [by apply not_elem_of_nil in Hin|]. intros items (t & Ht & H)%bind_Ok.
  apply bind_Ok in H as (r & H & _). apply elem_of_cons in Hin as [[= -> ->]|Hin]; [eauto|]. by eapply IH.
Qed.

Lemma canonical_int d text k z : canonical (VDict d) = Ok text → (k, VInt z) ∈ d → slen (dec_of_Z (Z.abs z)) <= 4300.
Proof.
  intros (t & Hd & _)%bind_Ok Hin. unfold json_dumps in Hd. destruct (jdump_member _ _ _ _ _ _ Hd Hin) as [u Hu].
  cbn in Hu. unfold int_text in Hu. destruct (Z.ltb_spec 4300 (slen (dec_of_Z (Z.abs z)))); [done|lia].
Qed.

Lemma iso_utc_time t : 0 <= t < MAX_LOCAL → utc_time (isoformat (utc t)) (utc t).
Proof. intros Ht. split; [by apply fromisoformat_isoformat|done]. Qed.

Lemma lines_read ds texts :
  Forall (λ d, plain (VDict d) = true) ds → Forall2 (λ d text, canonical (VDict d) = Ok text) ds texts →
  Forall (λ s, sall line_char s = true) texts ∧ mapR parse_entry texts = Ok (sorted_dict <$> ds).
Proof.
  intros Hp Hc. revert Hp. induction Hc as [|d text ds texts Hd _ IH]; [done|]. intros [Hp Hps]%Forall_cons.
  destruct (canonical_line d text Hp Hd) as [Hl Hr], (IH Hps) as [Hls Hrs]. split; [by constructor|]. cbn. by rewrite Hr, Hrs.
Qed.

(** The reader on the lines of the four objects *)
Lemma written_read impl id n1 n2 n3 texts :
  0 < id → 0 <= n1 < MAX_LOCAL → 0 <= n2 < MAX_LOCAL → 0 <= n3 < MAX_LOCAL → n1 <= n2 <= n3 →
  Forall2 (λ d text, canonical (VDict d) = Ok text) (written impl id n1 n2 n3) texts →
  _validated_terminal_journal (unlines texts) (VInt id) = Ok (sorted_dict <$> written impl id n1 n2 n3).
Proof.
  intros Hid H1 H2 H3 Hn Htexts.
  assert (slen (dec_of_Z (Z.abs id)) <= 4300) as Hlen.
  { assert (∃ text, canonical (VDict (observed n3 (accepted impl id))) = Ok text) as (text & Hc).
    { rewrite Forall2_lookup in Htexts. specialize (Htexts 3%nat). inversion Htexts; eauto. }
    eapply canonical_int; [exact Hc|]. apply (dlookup_elem "message_id"). reflexivity. }
  pose proof (written_plain impl id n1 n2 n3 Hlen H1 H2 H3) as Hplain.
  destruct (lines_read _ _ Hplain Htexts) as [Hlines Hread]. apply terminal_journal. rewrite bsplitlines_unlines by done.
  split_and!; [done| |done|].
  - destruct texts as [|x texts _] using rev_ind; [by inversion Htexts|]. apply endswith_unlines.
  - exists (sha256_hex impl), (isoformat (utc n1)), (isoformat (utc n2)), (isoformat (utc n3)), (utc n1), (utc n2), (utc n3).
    split_and!; [apply sha_hex64|apply written_entries|by apply iso_utc_time..|unfold instant; cbn; lia|unfold instant; cbn; lia].
Qed.

(** ** The run *)
Section Run.
Context (env : environment ares) (posix : bool).
(** The clock shows times of the years 1 to 9999 and does not go back. *)
Context (clock_range : ∀ h t, env h ANow = Ok t → 0 <= t < MAX_LOCAL).
Context (clock_mono : ∀ h k t t', env h ANow = Ok t → env (h ++ k) ANow = Ok t' → t <= t').

Definition shown (s : ops) (t : Z) : Prop := ∃ h k, op_hist s = h ++ k ∧ env h ANow = Ok t.

(** The result so far, the lines of the journal, the times that the clock showed *)
Definition progress (d : dict) (lines : list string) (times : list Z) (s : ops) : Prop :=
  op_result s = d ∧ op_files s !! _qualification_path = Some (unlines lines) ∧ Forall (shown s) times.

Lemma shown_later s s' l t : op_hist s' = op_hist s ++ l → shown s t → shown s' t.
Proof. intros Hh (h & k & E & Ht). exists h, (k ++ l). by rewrite Hh, E, app_assoc. Qed.

Lemma progress_still d ls ts s s' l :
  op_hist s' = op_hist s ++ l → op_files s' = op_files s → op_result s' = op_result s → progress d ls ts s → progress d ls ts s'.
Proof.
  intros Hh Hf Hr (H1 & H2 & H3). split_and!; [congruence|congruence|]. eapply Forall_impl; [exact H3|]. intros t. by apply (shown_later s s' l).
Qed.

Lemma still_ask d ls ts o : keeps (progress d ls ts) (aask env o).
Proof. intros s Hs. by eapply progress_still. Qed.

Lemma still_sending d ls ts : keeps (progress d ls ts) (modify set_sending).
Proof. intros s Hs. eapply (progress_still _ _ _ s _ []); [by rewrite app_nil_r|done..]. Qed.

Lemma still_fail {A} P category : keeps P (fail (A:=A) category).
Proof. apply keeps_throw. Qed.
Lemma still_fail_if P b category : keeps P (fail_if b category).
Proof. apply keeps_throw_if. Qed.
#[local] Hint Resolve still_sending still_fail still_fail_if : keeps.
#[local] Hint Extern 1 (keeps _ (aask _ _)) => (apply still_ask) : keeps.

Lemma still_api d ls ts token method parameters : keeps (progress d ls ts) (api_call env token method parameters).
Proof. unfold api_call. keeps_walk. Qed.

Lemma put_progress d ls ts key v : post (progress d ls ts) (modify (put key v)) (ends (λ _, progress (dset key v d) ls ts) (λ _, True)).
Proof. intros s (<- & H2 & H3). by split_and!. Qed.

Lemma count_progress d c ls ts method :
  dget "http_method_counts" d = VDict c → post (progress d ls ts) (modify (count_method method)) (ends (λ _, progress (counted method d) ls ts) (λ _, True)).
Proof. intros Hc s (<- & H2 & H3). cbn. unfold count_method, counted. rewrite Hc. by split_and!. Qed.

Lemma aask_Ret o s a s' : aask env o s = (Ret a, s') → env (op_hist s) o = Ok a ∧ s' = alog (Ev o (Ok a)) s.
Proof. unfold aask, perform. destruct (env (op_hist s) o) as [x|e]; [|done]. by intros [= -> <-]. Qed.

(** A line that was written *)
Definition noted_line (stage : string) (d : dict) (ls : list string) (ts : list Z) (s : ops) : Prop :=
  ∃ now text, 0 <= now < MAX_LOCAL ∧ Forall (λ t, t <= now) ts ∧ canonical (VDict (observed now (noted stage d))) = Ok text
    ∧ progress (noted stage d) (ls ++ [text]) (ts ++ [now]) s.

Lemma record_progress d ls ts stage : post (progress d ls ts) (record env stage None) (ends (λ _, noted_line stage d ls ts) (λ _, True)).
Proof.
  apply post_ends. intros s [] s' (Hd & Hf & Ht) H. unfold record in H.
  apply bind_Ret in H as (? & s1 & ->%modify_Ret & H). apply bind_Ret in H as (? & s2 & ->%modify_Ret & H).
  apply bind_Ret in H as (r & s3 & [-> ->]%gets_Ret & H). apply bind_Ret in H as (now & s4 & Hnow & H). apply (aask_Ret ANow) in Hnow as [Hnow ->].
  apply bind_Ret in H as (? & s5 & Ho & H). apply (aask_Ret (AOpenAppend _)) in Ho as [_ ->]. apply bind_Ret in H as (s5' & s6 & [= <- <-] & H).
  apply bind_Ret in H as (? & s7 & ->%modify_Ret & H). apply bind_Ret in H as (text & s8 & [Hc ->]%liftR_Ret & H).
  apply write_Ret in H as (Hh & Hfs & Hr).
  cbn [op_files op_hist op_result set_file alog put set_result] in *.
  rewrite Hf, lookup_insert_eq in Hfs. cbn [default from_option] in Hfs.
  exists now, text. split; [by eapply clock_range|]. split; [|split; [by rewrite <- Hd|split_and!]].
  - eapply Forall_impl; [exact Ht|]. intros t (h & k & E & Hth). eapply clock_mono; [exact Hth|]. by rewrite <- E.
  - by rewrite Hr, Hd.
  - by rewrite Hfs, lookup_insert_eq, unlines_snoc.
  - apply Forall_app. split; [eapply Forall_impl; [exact Ht|]; intros t; eapply shown_later; rewrite Hh, <- !app_assoc; reflexivity|].
    constructor; [|constructor]. eexists (op_hist s), _. split; [rewrite Hh, <- !app_assoc; reflexivity|exact Hnow].
Qed.
Lemma post_noted {A} stage d ls ts (m : M ops A) Q :
  (∀ now text, 0 <= now < MAX_LOCAL → Forall (λ t, t <= now) ts → canonical (VDict (observed now (noted stage d))) = Ok text →
    post (progress (noted stage d) (ls ++ [text]) (ts ++ [now])) m Q) → post (noted_line stage d ls ts) m Q.
Proof. intros H s (now & text & Hn & Ht & Hc & Hs). by eapply H. Qed.

Lemma post_pure {A} (H : Prop) P (m : M ops A) Q : (H → post P m Q) → post (λ s, H ∧ P s) m Q.
Proof. intros Hm s [HH Hs]. by apply Hm. Qed.

Lemma positive_int v : match v with VInt n => 0 <? n | _ => false end = true → ∃ n, v = VInt n ∧ 0 < n.
Proof. destruct v; try done. intros H. apply Z.ltb_lt in H. eauto. Qed.

Lemma post_fail_if {A} P b category (f : unit → M ops A) QR :
  (b = false → post P (f tt) (ends QR (λ _, True))) → post P (fail_if b category ≫= f) (ends QR (λ _, True)).
Proof. intros H s Hs. destruct b; [done|]. by apply H. Qed.

(** The first three lines *)
Definition two_lines (impl t0 : string) (s : ops) : Prop :=
  ∃ n1 x1 n2 x2, (0 <= n1 < MAX_LOCAL ∧ 0 <= n2 < MAX_LOCAL ∧ n1 <= n2)
    ∧ canonical (VDict (observed n1 (identified impl))) = Ok x1 ∧ canonical (VDict (observed n2 (reserving impl))) = Ok x2
    ∧ progress (reserving impl) [t0; x1; x2] [n1; n2] s.

Lemma precheck_writes impl t0 :
  post (progress (initial_result impl) [t0] []) (precheck env) (ends (λ _, two_lines impl t0) (λ _, True)).
Proof.
  unfold precheck.
  repeat lazymatch goal with
    | |- post _ (record _ _ _ ≫= _) _ => fail
    | |- post _ (modify (count_method _) ≫= _) _ => eapply post_step; [eapply count_progress; reflexivity|intros ?]
    | |- post _ (api_call _ _ _ _ ≫= _) _ => apply quiet_then; [apply still_api|done|intros ?]
    | _ => apply quiet_then; [keeps_walk|done|intros ?; cbn zeta]
    end.
  eapply post_step; [apply record_progress|intros []]. apply post_noted. intros n1 x1 Hn1 _ Hc1.
  eapply post_step; [apply put_progress|intros []]. eapply post_step; [apply record_progress|intros []].
  apply post_noted. intros n2 x2 Hn2 Ht Hc2. apply Forall_cons in Ht as [Ht _].
  intros s Hs. exists n1, x1, n2, x2.
  split; [by repeat (split; [assumption|])|]. split; [exact Hc1|]. split; [exact Hc2|exact Hs].
Qed.

Definition three_lines (impl : string) (s : ops) : Prop :=
  ∃ id n1 n2 n3 texts, 0 < id ∧ (0 <= n1 < MAX_LOCAL ∧ 0 <= n2 < MAX_LOCAL ∧ 0 <= n3 < MAX_LOCAL ∧ n1 <= n2 <= n3)
    ∧ Forall2 (λ d text, canonical (VDict d) = Ok text) (written impl id n1 n2 n3) texts ∧ progress (accepted impl id) texts [n1; n2; n3] s.

Lemma send_writes impl t0 token :
  canonical (VDict (initial_result impl)) = Ok t0 → post (two_lines impl t0) (send env token) (ends (λ _, three_lines impl) (λ _, True)).
Proof.
  intros Hc0 s0 (n1 & x1 & n2 & x2 & (Hn1 & Hn2 & H12) & Hc1 & Hc2 & Hs0). revert s0 Hs0.
  match goal with |- ∀ s, progress ?d ?l ?t s → ?Q (?m s).1 _ => change (post (progress d l t) m Q) end.
  unfold send. apply quiet_then; [apply still_sending|done|intros []].
  eapply post_step; [eapply count_progress; reflexivity|intros []]. apply quiet_then; [apply still_api|done|intros r].
  apply post_fail_if. intros [_ Hid]%orb_false_iff. apply negb_false_iff in Hid. apply positive_int in Hid as (id & -> & Hid).
  eapply post_step; [apply put_progress|intros []]. eapply post_step; [apply put_progress|intros []].
  eapply post_strengthen; [apply record_progress|]. intros _ s (n3 & x3 & Hn3 & Ht & Hc3 & Hs).
  apply Forall_cons in Ht as [_ Ht]. apply Forall_cons in Ht as [H23 _].
  exists id, n1, n2, n3, [t0; x1; x2; x3]. split; [exact Hid|]. split; [by repeat (split; [assumption|])|]. split; [|exact Hs].
  repeat (apply Forall2_cons; split; [assumption|]). constructor.
Qed.

Lemma exclusive_writes d data :
  post (λ s, op_result s = d) (_exclusive env posix _qualification_path (data +:+ LF)) (ends (λ _, progress d [data] []) (λ _, True)).
Proof.
  apply post_ends. intros s [] s' Hd H. unfold _exclusive in H.
  apply bind_Ret in H as (? & s1 & Ho & H). apply (aask_Ret (ACreate _)) in Ho as [_ ->].
  apply bind_Ret in H as (s2 & s3 & [= <- <-] & H). apply bind_Ret in H as (? & s3 & [_ ->]%throw_if_Ret & H).
  apply bind_Ret in H as (? & s4 & ->%modify_Ret & H). apply bind_Ret in H as (? & s5 & (Hh & Hf & Hr)%write_Ret & H).
  assert (progress d [data] [] s5) as Hp.
  { split; [rewrite Hr; exact Hd|]. split; [|constructor]. rewrite Hf. cbn [op_files set_file alog]. rewrite !lookup_insert_eq. reflexivity. }
  destruct posix; [|by apply mret_Ret in H as [_ ->]]. apply (aask_Ret (ASyncDir _)) in H as [_ ->]. by eapply progress_still.
Qed.

(** A failure is on record as one. *)
Definition not_accepted (s : ops) : Prop := dget "stage" (op_result s) ≠ VStr "TRANSPORT_ACCEPTED".

Definition stage_is (stage : string) (s : ops) : Prop := dget "stage" (op_result s) = VStr stage.

Lemma keeps_stage_ask stage o : keeps (stage_is stage) (aask env o).
Proof. by intros s Hs. Qed.
Lemma keeps_stage_file stage path content : keeps (stage_is stage) (modify (set_file path content)).
Proof. by intros s Hs. Qed.
Lemma keeps_stage_put stage key v : key ≠ "stage" → keeps (stage_is stage) (modify (put key v)).
Proof.
  intros Hk s Hs. unfold stage_is in *. cbn [modify snd op_result put set_result]. unfold dget in *. rewrite dlookup_dset.
  destruct (String.eqb_spec "stage" key); [congruence|done].
Qed.
#[local] Hint Extern 1 (keeps _ (aask _ _)) => (apply keeps_stage_ask) : keeps.
#[local] Hint Extern 1 (keeps _ (modify (set_file _ _))) => (apply keeps_stage_file) : keeps.
#[local] Hint Extern 1 (keeps _ (modify (put _ _))) => (apply keeps_stage_put; discriminate) : keeps.

Lemma put_stage stage : post (λ _, True) (modify (put "stage" (VStr stage))) (λ _, stage_is stage).
Proof. intros s _. unfold stage_is. cbn [modify snd op_result put set_result]. unfold dget. by rewrite dlookup_dset. Qed.

Lemma record_stage stage error : post (λ _, True) (record env stage error) (λ _, stage_is stage).
Proof.
  unfold record. apply (post_bind _ _ _ (λ _, stage_is stage)); [apply put_stage|intros []; unfold write; keeps_walk|done|done].
Qed.

Lemma failed_stage e : post (λ _, True) (send_failed env e) (λ _, not_accepted).
Proof.
  assert (∀ stage s, stage = "SEND_OUTCOME_UNKNOWN" ∨ stage = "PRECHECK_FAILED" → stage_is stage s → not_accepted s) as Hn.
  { unfold stage_is, not_accepted. intros stage s [->| ->] ->; discriminate. }
  assert (∀ stage error, post (stage_is stage) (try_except os_error (record env stage error) (λ _, mret tt)) (λ _, stage_is stage)) as Htry.
  { intros stage error. apply (post_try _ (stage_is stage)); [|by intros ? ?|done].
    eapply post_weaken; [apply record_stage|done|by intros []]. }
  intros s _. unfold send_failed.
  change ((gets op_sending ≫= ?k) s) with (k (op_sending s) s). cbn beta.
  set (stage := if op_sending s then "SEND_OUTCOME_UNKNOWN" else "PRECHECK_FAILED").
  apply (Hn stage); [unfold stage; destruct (op_sending s); auto|].
  destruct (bool_decide (exc_cls e = DeliveryError)); [by apply record_stage|].
  refine (post_bind (λ _, True) _ _ (λ _, stage_is stage) (λ _, stage_is stage) _ _ _ _ s I); [apply put_stage| |done|done]. intros [].
  apply (post_seq _ (stage_is stage)); [keeps_walk|intros []|done]. apply (post_seq _ (stage_is stage)); [keeps_walk|intros []|done]. apply Htry.
Qed.

Lemma qualify_writes authorize :
  post (λ _, True) (qualify env posix authorize)
    (ends (λ r s, r = op_result s ∧ ((∃ impl, three_lines impl s) ∨ not_accepted s)) (λ _, True)).
Proof.
  unfold qualify.
  repeat lazymatch goal with
    | |- post _ (modify _ ≫= _) _ => fail
    | _ => apply (quiet_then (λ _, True)); [done|done|intros ?]
    end.
  apply (post_step _ (λ _ s, op_result s = initial_result a9)); [done|intros []].
  eapply post_step; [by apply (post_liftR _ (λ _, True))|intros t0]. cbn beta.
  apply post_pure. intros Hc.
  apply (post_step _ (λ _, progress (initial_result a9) [t0] [])).
  { intros s Hs. pose proof (exclusive_writes _ t0 s Hs) as H. unfold try_except.
    destruct (_exclusive env posix _qualification_path (t0 +:+ LF) s) as [[u|e|] s']; cbn [fst snd ends] in *; [exact H| |done].
    by destruct (bool_decide _). }
  intros []. apply quiet_then; [apply still_ask|done|intros _u]. apply (post_step _ (λ _ s, (∃ impl, three_lines impl s) ∨ not_accepted s)).
  - intros s Hs. assert (post (progress (initial_result a9) [t0] []) (precheck env ≫= λ token, send env token) (ends (λ _, three_lines a9) (λ _, True))) as H.
    { eapply post_step; [apply precheck_writes|intros token; by apply send_writes]. }
    specialize (H s Hs). unfold try_except. destruct ((precheck env ≫= λ token, send env token) s) as [[u|e|] s']; cbn [fst snd ends] in *; [by left; exists a9| |done].
    destruct (is_exception (exc_cls e)); [|done]. pose proof (failed_stage e s' I) as Hf. destruct (send_failed env e s') as [[] s2]; cbn in *; auto.
  - intros []. by intros s Hs.
Qed.

(** C15. The writer and the reader agree: if a run of [qualify] ends with the stage [TRANSPORT_ACCEPTED], then the file that it left is a
    journal that [_validated_terminal_journal] accepts for the message id of its result — the four lines, serialised with sorted
    keys and appended one by one, parse back to the objects the reader compares with, times included.  The clock shows years 1 to
    9999 and does not go back. *)
Theorem accepted_journal_reads_back authorize s r s' :
  qualify env posix authorize s = (Ret r, s') → dget "stage" r = VStr "TRANSPORT_ACCEPTED" →
  ∃ raw id entries, op_files s' !! _qualification_path = Some raw ∧ dget "message_id" r = VInt id ∧
    _validated_terminal_journal raw (VInt id) = Ok entries ∧ length entries = 4%nat.
Proof.
  intros Hq Hr. pose proof (qualify_writes authorize s I) as H. rewrite Hq in H. cbn [fst snd ends] in H.
  destruct H as [-> [(impl & id & n1 & n2 & n3 & texts & Hid & (Hn1 & Hn2 & Hn3 & Hn) & Htexts & Hres & Hf & _)|H]]; [|by destruct (H Hr)].
  exists (unlines texts), id, (sorted_dict <$> written impl id n1 n2 n3). split; [exact Hf|]. split; [by rewrite Hres|].
  split; [by apply written_read|done].
Qed.
End Run.

(** *** A run that is accepted *)
Definition demo_answer (method : string) : string :=
  sq (if String.eqb method "getMe" then "{'ok':true,'result':{'is_bot':true,'username':'KairosCryptoAI_bot'}}"
      else if String.eqb method "getChat" then "{'ok':true,'result':{'id':-100447580288,'type':'group'}}"
      else "{'ok':true,'result':{'chat':{'id':-100447580288},'message_id':42}}").
Definition demo_time : Z := days_of 2026 3 4 * US_DAY + 12345678901.
Definition demo_env : environment ares := λ h o,
  match o with
  | ATokenDedicated | AIsDir _ => Ok true
  | AExists _ => Ok false
  | AReadSelf => Ok "source"
  | ATokenText => Ok "12345:abcdefghijabcdefghijabcdefghij"
  | ABody => Ok (match last h with Some (Ev (APost _ method _) _) => demo_answer method | _ => EmptyString end)
  | ANow => Ok demo_time
  | ATokenSize => Ok 36
  | APost _ _ _ => Ok 200
  | AWrite _ _ => Ok None
  | _ => Ok tt
  end.
Definition demo_run : out dict * ops := qualify demo_env true true (Ops ∅ [] false []).
Definition returned {A S} (x : out A * S) (a : A) : A := match x.1 with Ret b => b | _ => a end.

Lemma returned_Ret {A S} (x : out A * S) a : (match x.1 with Ret _ => true | _ => false end) = true → x = (Ret (returned x a), x.2).
Proof. destruct x as [[b|e|] s]; done. Qed.

Lemma accepted_journal_reads_back_witness :
  ∃ raw id entries, op_files demo_run.2 !! _qualification_path = Some raw ∧ dget "message_id" (returned demo_run []) = VInt id ∧
    _validated_terminal_journal raw (VInt id) = Ok entries ∧ length entries = 4%nat.
Proof.
  apply (accepted_journal_reads_back demo_env true) with (authorize := true) (s := Ops ∅ [] false []).
  - intros h t [= <-]. vm_compute. by split.
  - intros h k t t' [= <-] [= <-]. apply Z.le_refl.
  - apply (returned_Ret demo_run []). vm_compute. reflexivity.
  - vm_compute. reflexivity.
Defined.
