(* ===== verification/EpochControl.v ===== *)
(** * What the epoch controller checks and writes ([scripts/runtime_epoch_controller.py])

    Names, worker configurations, the end of a catch-up batch, the Redis ACL,
    the scratch mounts and status of a worker, the inventory of a container. *)

From stdpp Require Import strings.
From S2P Require Import Prelude PyStr Regex Sha256 PyVal PyTime Json PyBytes RedisAof EpochBoot.

Local Open Scope string_scope.
Local Open Scope list_scope.
Local Open Scope Z_scope.
Local Open Scope regex_scope.

Definition DUMP_SHA256 : string := "2408db1335dc856122750e4604f14a436184f54a7f4ffab22bc35eb69747a7bc".
Definition EPOCH_SCOPE : string := "kairos-nontrading-runtime-epoch-v1".
Definition EPOCH_LABEL : string := "com.kairos.runtime-epoch.owner".
Definition SCOPE_LABEL : string := "com.kairos.runtime-epoch.scope".
Definition MAX_CATCHUP_BARS : Z := 150000.
Definition WORKER_PATH_IN_IMAGE : string := "/operator/runtime_epoch_worker.py".
Definition CONFIG_PATH_IN_CONTAINER : string := "/config/epoch.json".
Definition OUTPUT_PATH_IN_CONTAINER : string := "/output".
Definition CONTINUATION_OWNER : string := "69893dc7b7c647f49967387e7efca9fb".
Definition CLOSED_BAR_TOPIC : string := "kairos.market.closed_bar.v1".
Definition PUBLICATION_KEY_PREFIX : string := "kairos.runtime.".
Definition SYMBOLS : list string := ["BTCUSDT"; "ETHUSDT"; "SOLUSDT"; "BNBUSDT"; "XRPUSDT"].
Definition MINUTE_MS : Z := 60000.

Definition reject {A} (msg : string) : result A := raise Rejected msg.
Definition reject_if (b : bool) (msg : string) : result unit := raise_if b Rejected msg.
Definition reject_ifR (c : result bool) (msg : string) : result unit := raise_ifR c Rejected msg.

(** ** Names *)
Definition owner_name (owner : value) : result string :=
  match owner with
  | VStr s => _ ← reject_if (negb (fullmatch (hex 32) s)) "EPOCH_OWNER_REQUIRED"; Ok s
  | _ => reject "EPOCH_OWNER_REQUIRED"
  end.

(** [owner[:12]] behind the two prefixes *)
Definition owned (owner suffix : string) : string := "kairos-epoch-" +:+ stake 12 owner +:+ suffix.
Definition epoch_database (owner : string) : string := "kairos_epoch_" +:+ stake 12 owner.

Record names := Names {
  n_network : string; n_target_volume : string; n_source_volume : string; n_restore_volume : string; n_redis_volume : string;
  n_target_pg : string; n_source_pg : string; n_restore_pg : string; n_redis : string; n_serve : string;
}.
Definition names_of (owner : string) : names :=
  Names (owned owner "-private") (owned owner "-pg-data") (owned owner "-source-data") (owned owner "-restore-data") (owned owner "-redis-data")
    (owned owner "-pg") (owned owner "-source") (owned owner "-restore") (owned owner "-redis") (owned owner "-serve").
Definition resource_names (owner : value) : result names := o ← owner_name owner; Ok (names_of o).

Definition continuation_worker_name (owner : value) (attempt : string) : result string :=
  _ ← reject_if (negb (among attempt ["01"; "02"; "03"; "04"])) "EXACT_CONTINUATION_ATTEMPT_REQUIRED";
  o ← owner_name owner;
  Ok (owned o ("-continue-" +:+ attempt +:+ "-verify-restore-precontinuation")).

(** ** Worker configurations *)
Definition common_fields : list string := ["owner"; "database"; "pg_host"; "redis_host"].
Definition runtime_fields : list string := common_fields ++ ["producer_password"; "consumer_password"; "redis_producer_password"; "redis_consumer_password"].
Definition admin_fields : list string := common_fields ++ ["admin_password"].
Definition restore_fields : list string := admin_fields ++ ["restore_host"; "restore_database"; "restore_admin_password"; "expected_seed"].
Definition worker_fields : list (string * list string) :=
  [("prepare", admin_fields ++ ["source_host"; "source_database"; "source_admin_password"; "source_password"; "history_password";
                                "producer_password"; "consumer_password"]);
   ("seed", common_fields ++ ["source_host"; "source_database"; "source_password"; "history_password"; "seed_expectation"; "source_dump_sha256"]);
   ("catchup", common_fields ++ ["history_password"; "end_exclusive_ms"; "maximum_bars"]);
   ("rotate-history", admin_fields ++ ["history_password"]);
   ("history-state", admin_fields);
   ("boot-state", admin_fields);
   ("incident-state", admin_fields ++ ["producer_password"; "consumer_password"; "redis_producer_password"; "redis_consumer_password"]);
   ("incident-drain", admin_fields ++ ["producer_password"; "consumer_password"; "redis_producer_password"; "redis_consumer_password"; "expected_state"]);
   ("incident-verify-restore", restore_fields);
   ("boot-redis-state", runtime_fields);
   ("boot-redis-clone", runtime_fields);
   ("boot-catchup", common_fields ++ ["history_password"; "end_exclusive_ms"; "maximum_bars"; "expected_seed"]);
   ("boot-verify-restore", restore_fields);
   ("verify-restore", restore_fields);
   ("qualify", runtime_fields);
   ("serve", runtime_fields)].

(** [re.fullmatch(r, str(v))] of a class of hexadecimal digits: the text of any
    other value than a string or an integer holds a further character. *)
Definition hex_text (n : nat) (v : value) : bool :=
  match v with VStr s => fullmatch (hex n) s | VInt z => fullmatch (hex n) (dec_of_Z z) | _ => false end.

Definition host_re : regex := RChar (λ c, is_lower c || is_digit c) ⋅ RRange 0 62 (RChar (λ c, is_lower c || is_digit c || is_one "-" c)).
Definition private_host (v : value) : bool := match v with VStr s => fullmatch host_re s | _ => false end.
Definition new_secret (v : value) : bool := match v with VStr s => (32 <=? Z.of_nat (length (uchars s)))%Z | _ => false end.
Definition is_hex64 (v : value) : bool := match v with VStr s => fullmatch (hex 64) s | _ => false end.

(** [except RuntimeError] and [except (ValueError, TypeError)], with the classes that the scripts derive from them *)
Definition runtime_error (c : exc_class) : bool :=
  bool_decide (c ∈ [RuntimeError; RecursionError; EpochError; Rejected; FreshRejected; GateError; StateGateError; ColdRedisError; SuccessorRejected;
                    CurrentEpochRejected; CurrentBootRejected; SnapshotError; AtomicError; WorkerError; PreflightError; UpgradeError; RehearsalError]).
Definition value_or_type_error (c : exc_class) : bool := value_error c || bool_decide (c ∈ [TypeError; SeedError; AofError; EvidenceSchemaError; ProbeError]).

(** The restore hosts that the code lists *)
Definition listed_restore_hosts (mode owner : string) : list string :=
  let incident n := owned CONTINUATION_OWNER ("-restore-" +:+ n) in
  owned owner "-restore"
  :: (if String.eqb owner CONTINUATION_OWNER && negb (String.eqb mode "verify-restore")
      then incident <$> ["incident03"; "transport03"; "transport04"; "transport05"; "transport06"] else [])
  ++ (if String.eqb owner CONTINUATION_OWNER && String.eqb mode "boot-verify-restore" then incident <$> ["transport07"; "transport08"] else []).

Section Config.
(** The validators of the r5, r6 and r7 profiles *)
Context (validate_read_profile : string → value → result unit).

Definition read_profile (mode : string) (v : value) : option (result unit) :=
  if among mode ["r7-state"; "r7-verify-restore"; "r7-drain"] then
    Some (catch (λ c, runtime_error c || value_or_type_error c) (validate_read_profile mode v) (λ _, reject "EXACT_R7_WORKER_CONFIG_REQUIRED"))
  else if among mode ["r6-state"; "r6-verify-restore"; "r6-drain"] then
    Some (catch (λ c, runtime_error c || value_or_type_error c) (validate_read_profile mode v) (λ _, reject "EXACT_R6_WORKER_CONFIG_REQUIRED"))
  else if among mode ["r5-state"; "r5-verify-restore"; "r5-drain"] then
    Some (catch runtime_error (validate_read_profile mode v) (λ _, reject "EXACT_R5_WORKER_CONFIG_REQUIRED"))
  else None.

Definition current_boot (mode schema : string) : bool := String.eqb schema "current-controlled-v1" && String.eqb mode "boot-state".
Definition fields_of (mode schema : string) : option (list string) :=
  (λ l, if current_boot mode schema then l ++ ["database_identity"] else l) <$> dlookup mode worker_fields.

Definition identity_ok (v : value) : bool :=
  match v with
  | VDict d => keys_are d ["count"; "sha256"] && is_exact_int (dget "count" d) && py_eq (dget "count" d) (VInt 1) && hex_text 64 (dgetd "sha256" (VStr "") d)
  | _ => false
  end.

(** The profile of the worker's module *)
Definition reviewed_restore_host (schema owner : string) (host : value) : result bool :=
  p ← schema_profile schema; Ok (is_reviewed_boot_restore_host p owner host).

(** The part after the identity of owner, database, hosts and secrets *)
Definition mode_checks (mode schema owner : string) (v : dict) : result unit :=
  let at_ := String.eqb mode in
  let is_ key text := py_eq (dget key v) (VStr text) in
  _ ← (if among mode ["catchup"; "boot-catchup"] then
         match dget "end_exclusive_ms" v with
         | VInt n =>
             _ ← reject_if (n <=? 0) "CLOSED_END_EXCLUSIVE_REQUIRED";
             reject_if (negb (n mod 60000 =? 0) || negb (py_eq (dget "maximum_bars" v) (VInt MAX_CATCHUP_BARS))) "FIXED_GLOBAL_CATCHUP_CAP_REQUIRED"
         | _ => reject "CLOSED_END_EXCLUSIVE_REQUIRED"
         end
       else Ok tt);
  _ ← reject_if (at_ "seed" && (negb (is_ "source_dump_sha256" DUMP_SHA256) || negb (is_dict (dget "seed_expectation" v)))) "PINNED_SEED_PROVENANCE_REQUIRED";
  _ ← (if among mode ["verify-restore"; "boot-verify-restore"; "incident-verify-restore"] then
         let host := dget "restore_host" v in
         _ ← raise_if (negb (hashable host)) TypeError "unhashable type";
         reject_ifR (Ok (negb (existsb (λ h, py_eq host (VStr h)) (listed_restore_hosts mode owner)))
                     &&? (reviewed ← (if at_ "boot-verify-restore" then reviewed_restore_host schema owner host else Ok false); Ok (negb reviewed))
                     ||? Ok (negb (is_ "restore_database" ("kairos_recovery_" +:+ stake 12 owner +:+ "_epochrestore")) || negb (is_dict (dget "expected_seed" v))))
           "ISOLATED_RESTORE_IDENTITY_REQUIRED"
       else Ok tt);
  _ ← reject_if (at_ "rotate-history"
        && (negb (is_ "pg_host" (owned owner "-pg")) || py_eq (dget "history_password" v) (dget "admin_password" v) || negb (is_hex64 (dget "history_password" v))))
      "EXACT_NEW_EPOCH_HISTORY_ROTATION_REQUIRED";
  _ ← reject_if (at_ "history-state" && (negb (is_ "pg_host" (owned owner "-pg")) || negb (is_hex64 (dget "admin_password" v))))
      "EXACT_READ_ONLY_HISTORY_STATE_IDENTITY_REQUIRED";
  _ ← reject_if (among mode ["boot-redis-state"; "boot-redis-clone"]
        && (negb (is_ "pg_host" (owned owner "-pg"))
            || negb (is_ "redis_host" (owned owner (if at_ "boot-redis-clone" then "-redisclone" else "-redis")))))
      "EXACT_READ_ONLY_REDIS_PROOF_HOSTS_REQUIRED";
  reject_if (among mode ["incident-state"; "incident-drain"; "incident-verify-restore"]
        && (negb (String.eqb owner CONTINUATION_OWNER) || negb (is_ "pg_host" (owned CONTINUATION_OWNER "-pg"))
            || negb (is_ "redis_host" (owned CONTINUATION_OWNER "-redis")) || (at_ "incident-drain" && negb (is_dict (dget "expected_state" v)))))
    "EXACT_INCIDENT_TARGET_REQUIRED".

Definition validate_worker_config (config : value) (mode schema : string) : result value :=
  _ ← reject_if (negb (among schema ["historical-default"; "current-controlled-v1"])) "UNKNOWN_WORKER_SCHEMA_PROFILE";
  match read_profile mode config with
  | Some r => _ ← r; Ok config
  | None =>
      _ ← reject_if (current_boot mode schema && negb (identity_ok (match config with VDict v => dget "database_identity" v | _ => VNone end)))
          "CURRENT_BOOT_DATABASE_IDENTITY_REQUIRED";
      match fields_of mode schema, config with
      | Some fields, VDict v =>
          _ ← reject_if (negb (keys_are v fields)) "EXACT_WORKER_CONFIG_FIELDS_REQUIRED";
          _ ← reject_if (negb (hex_text 32 (dgetd "owner" (VStr "") v))) "EPOCH_OWNER_REQUIRED";
          match dget "owner" v with
          | VStr owner =>
              _ ← reject_if (negb (py_eq (dget "database" v) (VStr (epoch_database owner)))) "EPOCH_DATABASE_IDENTITY_REQUIRED";
              _ ← reject_if (negb (forallb (λ key, private_host (dget key v)) ["pg_host"; "redis_host"])) "PRIVATE_EPOCH_HOST_IDENTITY_REQUIRED";
              _ ← reject_if (negb (forallb (λ key, negb (endswith "password" key) || new_secret (dget key v)) fields)) "NEW_EPOCH_SECRET_REQUIRED";
              _ ← mode_checks mode schema owner v;
              Ok config
          | _ => raise TypeError "object is not subscriptable"
          end
      | _, _ => reject "EXACT_WORKER_CONFIG_FIELDS_REQUIRED"
      end
  end.

(** [private_worker_projection]; the owner is not looked at. *)
Definition private_worker_projection (mode : string) (config : value) : result value := validate_worker_config config mode "historical-default".
End Config.

Definition WORKER_MODES : list string :=
  ["prepare"; "seed"; "catchup"; "rotate-history"; "verify-restore"; "history-state"; "boot-state"; "incident-state"; "incident-drain";
   "incident-verify-restore"; "r5-state"; "r5-verify-restore"; "r5-drain"; "r6-state"; "r6-verify-restore"; "r6-drain"; "r7-state";
   "r7-verify-restore"; "r7-drain"; "boot-redis-state"; "boot-redis-clone"; "boot-catchup"; "boot-verify-restore"; "qualify"; "serve"].

Definition build_worker_argv (mode config_path output_path : string) : result (list string) :=
  _ ← reject_if (negb (among mode WORKER_MODES)) "WORKER_MODE_REQUIRED";
  _ ← reject_if (negb (String.eqb config_path CONFIG_PATH_IN_CONTAINER) || negb (String.eqb output_path OUTPUT_PATH_IN_CONTAINER)) "FIXED_WORKER_PATHS_REQUIRED";
  Ok ["python"; "-B"; WORKER_PATH_IN_IMAGE; "--mode"; mode; "--config"; config_path; "--output"; output_path].

(** ** The scratch mounts of a worker *)
Definition WORKER_TMPFS : list (string * list string) :=
  [("/tmp", ["rw"; "nosuid"; "nodev"; "noexec"; "size=64m"]); ("/runtime-libs", ["rw"; "nosuid"; "nodev"; "exec"; "size=128m"])].

(** [set(str(v).split(","))]; [str] of a value that is not a text has none of the tokens. *)
Definition tmpfs_tokens (v : value) : list string := match v with VStr s => split_on "," s | _ => [] end.

Definition validate_worker_tmpfs (v : value) : result value :=
  match v with
  | VDict d =>
      _ ← reject_if (negb (keys_are d WORKER_TMPFS.*1)) "EXACT_WORKER_TMPFS_SET_REQUIRED";
      _ ← reject_if (negb (forallb (λ '(destination, tokens), same_set (tmpfs_tokens (dget destination d)) tokens) WORKER_TMPFS)) "EXECUTABLE_LIBRARY_TMPFS_REQUIRED";
      Ok v
  | _ => reject "EXACT_WORKER_TMPFS_SET_REQUIRED"
  end.

(** ** The end of a catch-up batch *)
(** [last_close + 1] of one anchor *)
Definition first_open (record : value) : result Z :=
  match record with
  | VDict r =>
      match dget "last_open_time_ms" r, dget "last_close_time_ms" r, dget "count" r with
      | VInt last_open, VInt last_close, VInt count =>
          _ ← reject_if ((count <? 1) || negb (last_open mod MINUTE_MS =? 0) || negb (last_close =? last_open + MINUTE_MS - 1)) "SEED_ANCHOR_FINALITY_REQUIRED";
          Ok (last_close + 1)
      | _, _, _ => reject "SEED_ANCHOR_FINALITY_REQUIRED"
      end
  | _ => reject "SEED_ANCHOR_SHAPE_REQUIRED"
  end.

(** The bars that the end [proposed] asks for *)
Definition required_bars (starts : list Z) (proposed : Z) : Z := zsum ((λ start, Z.max 0 ((proposed - start) / MINUTE_MS)) <$> starts).

(** [while required > append_limit]; [None] is a loop cut off. *)
Fixpoint shrink (fuel : nat) (starts : list Z) (append_limit proposed : Z) : option Z :=
  if append_limit <? required_bars starts proposed then
    match fuel with O => None | S fuel => shrink fuel starts append_limit (proposed - MINUTE_MS) end
  else Some proposed.

Definition zmin (l : list Z) : Z := match l with [] => 0 | x :: l => foldr Z.min x l end.

Definition seed_anchors (seed : value) : result dict :=
  match seed with
  | VDict s =>
      match dget "anchors" s with
      | VDict anchors => _ ← reject_if (negb (keys_are anchors SYMBOLS)) "EXACT_FIVE_SYMBOL_SEED_ANCHORS_REQUIRED"; Ok anchors
      | _ => reject "EXACT_FIVE_SYMBOL_SEED_ANCHORS_REQUIRED"
      end
  | _ => reject "EXACT_FIVE_SYMBOL_SEED_ANCHORS_REQUIRED"
  end.

Definition catchup_end_exclusive_ms (fuel : nat) (seed target append_limit : value) : result (option Z) :=
  match append_limit with
  | VInt limit =>
      _ ← reject_if (negb ((1 <=? limit) && (limit <=? MAX_CATCHUP_BARS))) "FIXED_GLOBAL_CATCHUP_CAP_REQUIRED";
      match target with
      | VInt target =>
          _ ← reject_if ((target <=? 0) || negb (target mod MINUTE_MS =? 0)) "CLOSED_END_EXCLUSIVE_REQUIRED";
          anchors ← seed_anchors seed;
          starts ← mapR first_open anchors.*2;
          let earliest := zmin starts in
          match shrink fuel starts limit (Z.min target (earliest + limit / Z.of_nat (length SYMBOLS) * MINUTE_MS)) with
          | Some proposed => _ ← reject_if (proposed <=? earliest) "CATCHUP_MADE_NO_BOUNDED_PROGRESS"; Ok (Some proposed)
          | None => Ok None
          end
      | _ => reject "CLOSED_END_EXCLUSIVE_REQUIRED"
      end
  | _ => reject "FIXED_GLOBAL_CATCHUP_CAP_REQUIRED"
  end.

(** ** The Redis ACL *)
Definition acl_rule (user password : string) (keys commands : list string) : string :=
  "user " +:+ user +:+ " on #" +:+ sha256_hex password +:+ " " +:+ join " " keys +:+ " " +:+ join " " ((λ c, "+" +:+ c) <$> commands).
Definition PRODUCER_COMMANDS : list string :=
  ["auth"; "hello"; "client|setinfo"; "ping"; "eval"; "hget"; "hset"; "xadd"; "xrange"; "xlen"; "xinfo|groups"].
Definition CONSUMER_COMMANDS : list string :=
  ["auth"; "hello"; "client|setinfo"; "ping"; "xgroup|create"; "xreadgroup"; "xautoclaim"; "xpending"; "xack"].

Definition redis_acl_text (owner admin_password producer_password consumer_password : value) : result string :=
  o ← owner_name owner;
  match admin_password, producer_password, consumer_password with
  | VStr a, VStr p, VStr c =>
      _ ← reject_if (negb (forallb (fullmatch (hex 64)) [a; p; c]) || negb (no_dup [a; p; c])) "DISTINCT_NEW_EPOCH_SECRETS_REQUIRED";
      let key := PUBLICATION_KEY_PREFIX +:+ o +:+ ".publication" in
      default_user ← replay_default_acl owner;
      Ok (unlines [default_user;
                   acl_rule "kairos_epoch_admin" a ["~*"] ["@all"];
                   acl_rule "kairos_epoch_producer" p ["~" +:+ CLOSED_BAR_TOPIC; "~" +:+ key] PRODUCER_COMMANDS;
                   acl_rule "kairos_epoch_consumer" c ["~" +:+ CLOSED_BAR_TOPIC] CONSUMER_COMMANDS])
  | _, _, _ => reject "DISTINCT_NEW_EPOCH_SECRETS_REQUIRED"
  end.

(** ** The status that the serving worker writes *)
(** [datetime.fromisoformat(value["observed_at_utc"].replace("Z", "+00:00"))] *)
Definition observed_at (d : dict) : result datetime :=
  v ← py_item "observed_at_utc" (VDict d);
  match v with VStr s => fromisoformat (replace_str "Z" "+00:00" s) | _ => raise AttributeError "replace" end.
Definition timestamp_error (c : exc_class) : bool := value_or_type_error c || bool_decide (c ∈ [KeyError; AttributeError]).

(** [a - b] of two times in microseconds: both aware or both naive *)
Definition minus (a b : datetime) : result Z :=
  match dt_offset a, dt_offset b with
  | Some _, Some _ | None, None => Ok (instant a - instant b)
  | _, _ => raise TypeError "can't subtract offset-naive and offset-aware datetimes"
  end.

Definition watermarks_ok (v : value) : bool :=
  match v with
  | VDict w => keys_are w SYMBOLS && forallb (λ kv, match kv.2 with VInt n => 0 <? n | _ => false end) w
  | _ => false
  end.

(** [a <= b] of two numbers *)
Definition le_value (a b : value) : result bool :=
  match num_of a, num_of b with Some x, Some y => Ok (num_leb x y) | _, _ => raise TypeError "'<=' not supported" end.

(** [now] is [datetime.now(UTC)]. *)
Definition validate_running_status (now : datetime) (value : value) (owner : string) (previous : option dict) : result dict :=
  match value with
  | VDict v =>
      _ ← reject_if (negb (py_eq (dget "state" v) (VStr "RUNNING_NONTRADING")) || negb (py_eq (dget "owner" v) (VStr owner))) "NONTRADING_SERVE_STATUS_REQUIRED";
      _ ← reject_if (negb (watermarks_ok (dget "watermarks_ms" v))) "FIVE_SYMBOL_SERVE_WATERMARKS_REQUIRED";
      _ ← reject_if (negb (forallb (λ key, is_false (dget key v)) ["PAPER_QUALIFIED"; "ALPHA_READY"; "LIVE_READY"])
            || negb (py_eq (dget "STRATEGY_POLICY" v) (VStr "REJECT_ALL"))
            || negb (forallb (λ key, py_eq (dget key v) (VInt 0)) ["pending_outbox"; "unresolved_inbox"; "uncompleted_publications"]))
          "NONTRADING_SERVE_HEALTH_BOUNDARY_REQUIRED";
      '(observed, age) ← catch timestamp_error (o ← observed_at v; a ← minus now o; Ok (o, a)) (λ _, reject "SERVE_STATUS_TIMESTAMP_REQUIRED");
      _ ← reject_if ((age <? -5 * US_SECOND) || (120 * US_SECOND <? age)) "SERVE_STATUS_FRESHNESS_REQUIRED";
      match previous with
      | None => Ok v
      | Some previous =>
          let watermark key := match dget "watermarks_ms" v with VDict w => dget key w | _ => VNone end in
          _ ← match dget "watermarks_ms" previous with
              | VDict old =>
                  reject_ifR (Ok (negb (keys_are old SYMBOLS)) ||? anyR (λ s, le_value (watermark s) (dget s old)) SYMBOLS)
                    "SERVE_RESTART_WATERMARK_ADVANCE_REQUIRED"
              | _ => reject "SERVE_RESTART_WATERMARK_ADVANCE_REQUIRED"
              end;
          old_time ← catch timestamp_error (observed_at previous) (λ _, reject "PREVIOUS_SERVE_TIMESTAMP_REQUIRED");
          difference ← minus observed old_time;
          _ ← reject_if (difference <=? 0) "SERVE_RESTART_FRESH_STATUS_REQUIRED";
          Ok v
      end
  | _ => reject "NONTRADING_SERVE_STATUS_REQUIRED"
  end.

(** ** The inventory of a container *)
(** [sorted(rows, key=...)]: a stable sort *)
Definition sort_rows (rows : list (string * value)) : list value := (sort_dict rows).*2.

Definition normalize_container_metadata (v : value) : result dict :=
  match v with
  | VDict d =>
      match dget "mounts" d with
      | VList mounts =>
          destinations ← mapR (λ row, match row with
                                      | VDict r => match dget "Destination" r with VStr s => _ ← reject_if (String.eqb s "") "EXACT_CONTAINER_MOUNT_INVENTORY_REQUIRED"; Ok s
                                                   | _ => reject "EXACT_CONTAINER_MOUNT_INVENTORY_REQUIRED" end
                                      | _ => reject "EXACT_CONTAINER_MOUNT_INVENTORY_REQUIRED"
                                      end) mounts;
          _ ← reject_if (negb (no_dup destinations)) "EXACT_CONTAINER_MOUNT_INVENTORY_REQUIRED";
          keyed ← mapR (λ row, key ← json_dumps compact_style row; Ok (key, row)) mounts;
          Ok (dset "mounts" (VList (sort_rows keyed)) d)
      | _ => reject "EXACT_CONTAINER_MOUNT_INVENTORY_REQUIRED"
      end
  | _ => reject "EXACT_CONTAINER_MOUNT_INVENTORY_REQUIRED"
  end.

(** ** [CurrentEpochBuildProfile] *)
Record build_profile := BuildProfile {
  bp_worker_image : string; bp_wheel_manifest_sha256 : string; bp_core_revision : string; bp_persistence_revision : string;
  bp_quant_revision : string; bp_schema_profile : string;
}.
Definition post_init (b : build_profile) : result build_profile :=
  _ ← reject_if (negb (fullmatch (RLit "sha256:" ⋅ hex 64) (bp_worker_image b)) || negb (fullmatch (hex 64) (bp_wheel_manifest_sha256 b))
                 || negb (forallb (fullmatch (hex 40)) [bp_core_revision b; bp_persistence_revision b; bp_quant_revision b])
                 || negb (String.eqb (bp_schema_profile b) "current-controlled-v1")) "EXACT_CURRENT_BUILD_PROFILE_REQUIRED";
  Ok b.
Definition wheel_revisions (b : build_profile) : list (string * string) :=
  [("kairos-core", bp_core_revision b); ("kairos-persistence", bp_persistence_revision b)].

(** [_failure_category] of an exception; [type_name] is [type(exc).__name__] *)
Definition category_re : regex := RRange 1 96 (RChar (λ c, is_upper c || is_digit c || is_one "_" c)).
Definition class_re : regex := RChar is_upper ⋅ RRange 0 47 (RChar (λ c, is_upper c || is_digit c || is_one "_" c)).
Definition _failure_category (type_name : exc → string) (e : exc) : string :=
  if bool_decide (exc_cls e = Rejected) && fullmatch category_re (exc_msg e) then exc_msg e
  else let text := bupper (type_name e) in if fullmatch class_re text then text else "OPERATIONFAILED".
