(* ===== verification/EpochControlSpec.v ===== *)
(** * What the epoch controller's checks guarantee ([EpochControl])

    The end of a catch-up batch in closed form, the configurations that controller
    and worker both accept, and the Redis ACL. *)

From stdpp Require Import strings.
From S2P Require Import Prelude PyStr Regex Sha256 PyVal PyTime Json PyBytes JsonText RedisAof RedisAofSpec EpochBoot EpochControl.

Local Open Scope string_scope.
Local Open Scope list_scope.
Local Open Scope Z_scope.

(** ** The end of a catch-up batch *)
Lemma zmin_le l x : x ∈ l → zmin l ≤ x.
Proof.
  destruct l as [|y l]; [by intros ?%elem_of_nil|]. cbn [zmin]. intros H.
  revert y H. induction l as [|z l IH]; intros y H; cbn [foldr].
  - apply list_elem_of_singleton in H as ->. done.
  - rewrite !elem_of_cons in H. destruct H as [->|[->|H]].
    + specialize (IH y ltac:(by left)). lia.
    + lia.
    + specialize (IH y ltac:(by right)). lia.
Qed.

Lemma zmin_elem l : l ≠ [] → zmin l ∈ l.
Proof.
  destruct l as [|y l]; [done|]. intros _. cbn [zmin]. induction l as [|z l IH]; cbn [foldr]; [by left|].
  destruct (Z.min_spec z (foldr Z.min y l)) as [[_ ->]|[_ ->]]; [by right; left|].
  apply elem_of_cons in IH as [->|IH]; [by left|by right; right].
Qed.

Lemma zsum_le_bound (l : list Z) b : Forall (λ x, x ≤ b) l → zsum l ≤ Z.of_nat (length l) * b.
Proof. induction 1 as [|x l Hx Hl IH]; cbn [zsum foldr length]; [lia|]. fold (zsum l). lia. Qed.

(** A batch that ends at most [share] minutes after the earliest start asks every
    symbol for at most [share] bars. *)
Lemma required_bound starts proposed share :
  0 ≤ share → proposed ≤ zmin starts + share * MINUTE_MS → required_bars starts proposed ≤ Z.of_nat (length starts) * share.
Proof.
  intros Hs Hp. unfold required_bars. rewrite <- (length_fmap (λ start, Z.max 0 ((proposed - start) / MINUTE_MS))).
  apply zsum_le_bound, Forall_fmap, Forall_forall. intros start Hstart%zmin_le. unfold compose.
  apply Z.max_lub; [done|]. apply Z.div_le_upper_bound; unfold MINUTE_MS in *; lia.
Qed.

Lemma first_open_minute record start : first_open record = Ok start → start mod MINUTE_MS = 0.
Proof.
  unfold first_open. intros H. destruct record as [| | | | | | | |r]; try discriminate H.
  destruct (dget "last_open_time_ms" r); try discriminate H. destruct (dget "last_close_time_ms" r); try discriminate H.
  destruct (dget "count" r); try discriminate H. ok_inv H. unfold reject_if in Hok. apply raise_if_Ok in Hok. bool_inv. subst.
  replace (z + MINUTE_MS - 1 + 1) with (z + 1 * MINUTE_MS) by lia. by rewrite Z_mod_plus_full.
Qed.

(** The end of a batch, for the theorems that use it *)
Lemma catchup_end_closed (fuel : nat) (seed : value) (target limit : Z) (anchors : dict) (starts : list Z) :
  1 ≤ limit ≤ MAX_CATCHUP_BARS → 0 < target → target mod MINUTE_MS = 0 →
  seed_anchors seed = Ok anchors → NoDup (dkeys anchors) → mapR first_open anchors.*2 = Ok starts →
  let end_ := Z.min target (zmin starts + limit / 5 * MINUTE_MS) in
  catchup_end_exclusive_ms fuel seed (VInt target) (VInt limit)
    = (if end_ <=? zmin starts then reject "CATCHUP_MADE_NO_BOUNDED_PROGRESS" else Ok (Some end_)) ∧
  required_bars starts end_ ≤ limit ∧ end_ mod MINUTE_MS = 0.
Proof.
  intros Hl Ht Hm Ha Hnd Hs end_.
  assert (Hk : keys_are anchors SYMBOLS = true).
  { unfold seed_anchors in Ha. destruct seed as [| | | | | | | |s]; try discriminate Ha.
    destruct (dget "anchors" s); try discriminate Ha. ok_inv Ha. apply raise_if_Ok in Hok. bool_inv. congruence. }
  assert (Hlen : length starts = 5%nat).
  { apply mapR_Ok in Hs as Hf. apply Forall2_length in Hf. rewrite length_fmap in Hf.
    unfold keys_are in Hk. rewrite same_set_true in Hk. rewrite <- Hf, <- (length_fmap fst). change 5%nat with (length SYMBOLS).
    apply Permutation_length, NoDup_Permutation; [done| |done]. unfold SYMBOLS. by_decide. }
  assert (Hmin : zmin starts mod MINUTE_MS = 0).
  { assert (zmin starts ∈ starts) as He by (apply zmin_elem; by destruct starts).
    apply mapR_Ok in Hs. apply list_elem_of_lookup in He as [i Hi]. eapply Forall2_lookup_r in Hi as (r & _ & Hr); [|exact Hs].
    by apply first_open_minute in Hr. }
  assert (Hreq : required_bars starts end_ ≤ limit).
  { transitivity (5 * (limit / 5)); [|by apply Z.mul_div_le]. change 5 with (Z.of_nat 5) at 1. rewrite <- Hlen. apply required_bound; [by apply Z.div_pos; lia|]. subst end_. lia. }
  split_and!; [|done|].
  - unfold catchup_end_exclusive_ms. unfold reject_if, raise_if.
    rewrite (proj2 (andb_true_iff _ _)) by (split; lia). cbn [negb mbind result_bind].
    destruct (Z.leb_spec target 0); [lia|]. rewrite Hm. cbn [Z.eqb negb orb].
    rewrite Ha. cbn [mbind result_bind]. rewrite Hs. cbn [mbind result_bind].
    change (Z.of_nat (length SYMBOLS)) with 5. fold end_.
    assert (shrink fuel starts limit end_ = Some end_) as ->.
    { destruct fuel; cbn [shrink]; destruct (Z.ltb_spec limit (required_bars starts end_)); [lia|done|lia|done]. }
    by destruct (end_ <=? zmin starts).
  - subst end_. destruct (Z.min_spec target (zmin starts + limit / 5 * MINUTE_MS)) as [[_ ->]|[_ ->]]; [done|].
    by rewrite Z_mod_plus_full.
Qed.

(** C31. The end of a catch-up batch in closed form.  For a target and a cap in
    range and seed anchors of the five symbols, the batch ends at the target or
    [append_limit // 5] minutes after the earliest first open, whichever is
    earlier; it asks for at most [append_limit] bars over all symbols, so that
    the loop that would shorten it never runs, whatever the fuel; the end is a
    minute boundary after the earliest start, and it is refused only when there
    is none. *)
Theorem catchup_end_exact (fuel : nat) (seed : value) (target limit : Z) (anchors : dict) (starts : list Z) :
  1 ≤ limit ≤ MAX_CATCHUP_BARS → 0 < target → target mod MINUTE_MS = 0 →
  seed_anchors seed = Ok anchors → NoDup (dkeys anchors) → mapR first_open anchors.*2 = Ok starts →
  let end_ := Z.min target (zmin starts + limit / 5 * MINUTE_MS) in
  catchup_end_exclusive_ms fuel seed (VInt target) (VInt limit)
    = (if end_ <=? zmin starts then reject "CATCHUP_MADE_NO_BOUNDED_PROGRESS" else Ok (Some end_)) ∧
  required_bars starts end_ ≤ limit ∧ end_ mod MINUTE_MS = 0.
Proof. apply catchup_end_closed. Qed.

(** ** The Redis ACL *)
Lemma mapR_all_ascii ls : Forall (λ l, isascii l = true) ls → mapR (λ line, _ascii line "ACL_INPUT_INVALID") ls = Ok ls.
Proof. induction 1 as [|l ls Hl Hls IH]; [done|]. cbn [mapR]. by rewrite (proj2 (ascii_Ok l _ l)), bind_ret, IH. Qed.

(** A line of plain text: blanks and visible ASCII characters *)
Definition plain (s : string) : bool := sall (in_range " " "~") s.

Lemma plain_char c : in_range " " "~" c = true →
  is_ascii7 c = true ∧ is_one "000" c = false ∧
  String.eqb (String c EmptyString) (String "013" EmptyString) || String.eqb (String c EmptyString) (String "010" EmptyString) = false.
Proof. destruct c as [[] [] [] [] [] [] [] []]; done. Qed.

Lemma plain_line s : plain s = true → sall line_char s = true.
Proof. apply sall_impl. intros [[] [] [] [] [] [] [] []]; done. Qed.

Lemma plain_app a b : plain (a +:+ b) = plain a && plain b.
Proof. apply sall_app. Qed.

Lemma hex_plain_text n s : fullmatch (hex n) s = true → plain s = true.
Proof. intros [_ H]%fullmatch_rep. eapply sall_impl; [|exact H]. intros [[] [] [] [] [] [] [] []]; done. Qed.

Lemma plain_ascii s : plain s = true → isascii s = true.
Proof. apply sall_impl. intros c Hc. by apply plain_char. Qed.

Lemma unlines_plain c ls : in_range " " "~" c = false → c ≠ "010"%char → Forall (λ l, plain l = true) ls → free_of c (unlines ls) = true.
Proof.
  intros Hc Hn. induction 1 as [|l ls Hl Hls IH]; [done|]. cbn [unlines foldr]. fold (unlines ls). unfold free_of in *.
  rewrite !sall_app, IH. cbn [LF sall]. apply Ascii.eqb_neq in Hn. rewrite Ascii.eqb_sym, Hn. cbn [negb andb].
  rewrite !andb_true_r. eapply sall_impl; [|exact Hl]. intros d Hd. apply negb_true_iff, Ascii.eqb_neq. intros ->. congruence.
Qed.

Lemma sha_plain s : plain (sha256_hex s) = true.
Proof. apply (hex_plain_text 64), fullmatch_rep, sha256_hex_ok. Qed.

Lemma acl_rule_plain user password keys commands :
  plain user = true → Forall (λ l, plain l = true) keys → Forall (λ l, plain l = true) commands →
  plain (acl_rule user password keys commands) = true.
Proof.
  intros Hu Hk Hc. assert (∀ l, Forall (λ l, plain l = true) l → plain (join " " l) = true) as Hj.
  { induction 1 as [|x l Hx Hl IH]; [done|]. destruct l as [|y l]; [done|]. rewrite join_cons, !plain_app, Hx, IH. done. }
  unfold acl_rule. rewrite !plain_app, Hu, sha_plain, (Hj keys) by done.
  rewrite Hj; [done|]. apply Forall_fmap. eapply Forall_impl; [exact Hc|]. intros c Hc'. exact Hc'.
Qed.

(** What [candidate_acl] makes of a file with the former first line *)
Lemma candidate_of_users owner o default_line users names :
  _owner (VStr owner) = Ok o → replay_default_acl (VStr owner) = Ok default_line →
  Forall (λ l, plain l = true ∧ l ≠ EmptyString) users → foldR acl_check [] users = Ok names →
  same_set names expected_users = true → length names = length expected_users →
  candidate_acl (VBytes (unlines ("user default off" :: users))) (VStr owner) = Ok (unlines (default_line :: users)).
Proof.
  intros Ho Hd Hu Hn Hs Hl. unfold candidate_acl, fail_if. rewrite Ho, bind_ret.
  assert (Hp : Forall (λ l, plain l = true) users) by (eapply Forall_impl; [exact Hu|]; by intros ? []).
  rewrite guard_pass.
  2: { apply not_true_iff_false. intros Hz. unfold sany in Hz. apply negb_true_iff in Hz.
       pose proof (unlines_plain "000" ("user default off" :: users) eq_refl ltac:(done) ltac:(by constructor)) as Hf.
       apply (sall_impl _ (λ c, negb (is_one "000" c))) in Hf; [congruence|]. intros c. unfold is_one. by rewrite Ascii.eqb_sym. }
  change (unlines ("user default off" :: users)) with ("user default off" +:+ String "010" (unlines users)).
  rewrite split_once_free by done. cbv zeta iota.
  change (endswith (String "013" EmptyString) "user default off") with false. cbv iota.
  rewrite (proj2 (ascii_Ok "user default off" _ _)), bind_ret by done.
  rewrite bsplitlines_unlines by (eapply Forall_impl; [exact Hp|apply plain_line]).
  assert (filter (λ l, negb (String.eqb l EmptyString)) users = users) as Hfil.
  { clear -Hu. induction Hu as [|l ls [_ Hl] Hls IH]; [done|]. rewrite filter_cons_True, IH; [done|]. apply Is_true_true, negb_true_iff. by apply String.eqb_neq. }
  rewrite Hfil. rewrite (mapR_all_ascii users), bind_ret by (eapply Forall_impl; [exact Hp|apply plain_ascii]). rewrite guard_pass by done.
  rewrite Hn, bind_ret, Hs, Hl. cbn [negb orb Nat.eqb length expected_users]. cbn [raise_if mbind result_bind].
  rewrite guard_pass by done. by rewrite Hd.
Qed.

(** C32. The ACL that the controller writes is the one that the recovery of the
    append-only file makes of the former ACL.  For an owner and three distinct
    new secrets the text has four lines: the replay rule of the default user and
    one line for each of the three users of the epoch; when the first line is
    "user default off" instead, as in the epochs begun before, [candidate_acl]
    rewrites exactly that line and returns this text. *)
Theorem acl_text_is_candidate (owner : string) (admin producer consumer text : string) :
  redis_acl_text (VStr owner) (VStr admin) (VStr producer) (VStr consumer) = Ok text →
  ∃ default_line users,
    replay_default_acl (VStr owner) = Ok default_line ∧ text = unlines (default_line :: users) ∧
    mapR line_user users = Ok ["kairos_epoch_admin"; "kairos_epoch_producer"; "kairos_epoch_consumer"] ∧
    candidate_acl (VBytes (unlines ("user default off" :: users))) (VStr owner) = Ok text.
Proof.
  unfold redis_acl_text, reject_if. intros H. ok_inv H.
  set (key := "~" +:+ PUBLICATION_KEY_PREFIX +:+ a +:+ ".publication").
  assert (fullmatch (hex 32) a = true ∧ owner = a) as [Ho ->].
  { unfold owner_name, reject_if in Hok. ok_inv Hok. by bool_inv. }
  assert (plain key = true) as Hk by (subst key; rewrite !plain_app; by rewrite (hex_plain_text _ _ Ho)).
  eexists _, [_; _; _]. split_and!; [exact Hok1|done|reflexivity|].
  assert (_owner (VStr a) = Ok a) as Hown by (unfold _owner, fail_if; change _OWNER with (hex 32); by rewrite Ho).
  eapply candidate_of_users; [exact Hown|exact Hok1| |reflexivity|reflexivity|reflexivity].
  repeat (apply Forall_cons; split; [split; [apply acl_rule_plain; [done|repeat constructor; done|repeat constructor; done]|done]|]).
  constructor.
Qed.

(** ** Witnesses *)
Definition sample_anchor (last_open : Z) : value :=
  VDict [("count", VInt 34633); ("last_open_time_ms", VInt last_open); ("last_close_time_ms", VInt (last_open + 59999))].
Definition sample_seed : value :=
  VDict [("anchors", VDict ((λ s, (s, sample_anchor (if String.eqb s "BNBUSDT" then 1789832580000 else 1789880340000))) <$> SYMBOLS))].

(** One anchor of five is behind: the batch reaches 30000 minutes past it. *)
Theorem catchup_end_exact_witness :
  catchup_end_exclusive_ms 0 sample_seed (VInt 1800000000000) (VInt MAX_CATCHUP_BARS) = Ok (Some 1791632640000) ∧
  required_bars [1789880400000; 1789880400000; 1789880400000; 1789832640000; 1789880400000] 1791632640000 ≤ MAX_CATCHUP_BARS ∧
  1791632640000 mod MINUTE_MS = 0.
Proof.
  apply (catchup_end_exact 0 sample_seed 1800000000000 MAX_CATCHUP_BARS
           ((λ s, (s, sample_anchor (if String.eqb s "BNBUSDT" then 1789832580000 else 1789880340000))) <$> SYMBOLS)
           [1789880400000; 1789880400000; 1789880400000; 1789832640000; 1789880400000]); [split; by vm_compute|done|reflexivity..| |reflexivity].
  by_decide.
Defined.

Theorem acl_text_is_candidate_witness :
  ∃ text default_line users,
    replay_default_acl (VStr "00112233445566778899aabbccddeeff") = Ok default_line ∧ text = unlines (default_line :: users) ∧
    mapR line_user users = Ok ["kairos_epoch_admin"; "kairos_epoch_producer"; "kairos_epoch_consumer"] ∧
    candidate_acl (VBytes (unlines ("user default off" :: users))) (VStr "00112233445566778899aabbccddeeff") = Ok text.
Proof.
  eexists. eapply (acl_text_is_candidate "00112233445566778899aabbccddeeff"
    "00000000000000000000000000000000000000000000000000000000000000aa"
    "00000000000000000000000000000000000000000000000000000000000000bb"
    "00000000000000000000000000000000000000000000000000000000000000cc"). reflexivity.
Defined.
