(* ===== verification/EpochDocker.v ===== *)
(** * The resources of an epoch ([EpochController] of [scripts/runtime_epoch_controller.py])

    The network, volumes, databases, Redis and workers that the controller
    creates, inspects, starts and removes through the Docker CLI.  The CLI adapter
    ([Native.call], which [GateNative] models), the clocks and the files answer as
    functions of the history. *)

From stdpp Require Import strings.
From S2P Require Import Prelude PyStr Regex Sha256 PyVal PyTime Json PyBytes Effects EpochBoot EpochControl.

Local Open Scope string_scope.
Local Open Scope list_scope.
Local Open Scope Z_scope.
Local Open Scope regex_scope.

Definition PG_IMAGE : string := "timescale/timescaledb:2.29.1-pg16@sha256:252a443e2936039b83dd8da1373d01e59e932d1054fa6adf1bc061f1d56ae60a".
Definition REDIS_IMAGE : string := "redis:8.2.8-alpine3.22@sha256:a7859ed111db3c1f5404a973a4747505d559fb5ca32d37e447afc0ef845a2103".
Definition AUX_NUMPY : string := "numpy-2.4.6-cp311-cp311-manylinux_2_27_x86_64.manylinux_2_28_x86_64.whl".
Definition MAX_EPOCH_DUMP_BYTES : Z := 64 * 1024 * 1024.
Definition MAX_EPOCH_DUMP_STDERR_BYTES : Z := 256 * 1024.
Definition EPOCH_DUMP_TIMEOUT_SECONDS : Z := 240.
Definition TREE_SECONDS : Z := 4.
Definition DOCKER : string := "C:\Program Files\Docker\Docker\resources\bin\docker.exe".
Definition ENDPOINT : string := "npipe:////./pipe/dockerDesktopLinuxEngine".

(** [fresh.SOURCE] and what identifies it *)
Definition SOURCE : string := "kairos-paper-gate-timescaledb-1".
Definition SOURCE_ID : string := "dfe9c96b3307f07c7f88bb6cdae46dba903ebb1e7243c2534199da2843229774".
Definition SOURCE_IMAGE_ID : string := "sha256:252a443e2936039b83dd8da1373d01e59e932d1054fa6adf1bc061f1d56ae60a".
Definition SOURCE_NETWORK : string := "kairos-paper-gate_paper-data".
Definition SOURCE_VOLUME : string := "kairos-paper-gate_paper-ts-data".
Definition LEGACY_REDIS : string := "kairos-paper-gate-redis-1".

(** [fresh.VIEW] *)
Definition VIEW : string := bt (
  "{`id`:{{json .Id}},`name`:{{json .Name}},`image`:{{json .Image}},"
  +:+ "`state`:{{json .State}},`labels`:{{json .Config.Labels}},"
  +:+ "`mounts`:{{json .Mounts}},`network`:{{json .HostConfig.NetworkMode}},"
  +:+ "`networks`:{{json .NetworkSettings.Networks}},`privileged`:{{json .HostConfig.Privileged}},"
  +:+ "`ports`:{{json .HostConfig.PortBindings}},`memory`:{{json .HostConfig.Memory}},"
  +:+ "`swap`:{{json .HostConfig.MemorySwap}},`cpus`:{{json .HostConfig.NanoCpus}},"
  +:+ "`readonly`:{{json .HostConfig.ReadonlyRootfs}},`caps`:{{json .HostConfig.CapDrop}}}").

(** ** Paths, the controller, the outside world *)
(** [parent / name], both in the form that [str] gives on Windows *)
Record path := Path { p_parent : string; p_name : string }.
#[global] Instance path_eq_dec : EqDecision path.
Proof. solve_decision. Defined.
Definition path_text (p : path) : string := p_parent p +:+ "\" +:+ p_name p.

Record controller := Controller {
  ct_owner : string; ct_build : option build_profile; ct_worker_image : string; ct_work : string;
  ct_attempt : option string;    (* continuation_attempt *)
  ct_deadline : flt;
  ct_operator : option path; ct_quant : option path; ct_wheelhouse : option path;   (* the snapshots of [prepare_snapshots] *)
  ct_aux : path;
}.
Definition ct_names (c : controller) : names := names_of (ct_owner c).
Definition ct_schema (c : controller) : string := match ct_build c with Some b => bp_schema_profile b | None => "historical-default" end.
Definition in_work (c : controller) (name : string) : path := Path (ct_work c) name.

(** What one run of [pg_dump] in its job leaves *)
Record dump_run := DumpRun {
  dr_failed : bool; dr_timed_out : bool; dr_overflow : bool;
  dr_proof : value; dr_exit_code : value;       (* [None] when there is none *)
  dr_plain : bool;                              (* backup.is_file() and not backup.is_symlink() *)
  dr_size : Z; dr_stderr : Z; dr_elapsed : flt;
}.

Inductive eop :=
  | EClock                                                                    (* time.monotonic() *)
  | ETime                                                                     (* time.time() *)
  | ENow                                                                      (* datetime.now(UTC) *)
  | ESleep
  | ENative (arguments : list string) (deadline seconds : flt) (allow_failure : bool)   (* native.call *)
  | EDiagnostic (category operation : string)                                 (* first-cli-failure.json, unless it exists *)
  | EFile (p : path)                                                          (* is_file() and not is_symlink() *)
  | EDir (p : path)                                                           (* is_dir() and not is_symlink() *)
  | EExists (p : path)                                                        (* exists() or is_symlink() *)
  | EMkdir (p : path)
  | EWrite (p : path) (data : string)                                         (* fresh.write, which creates *)
  | ESave (p : path) (v : value)                                              (* fresh.save *)
  | ERead (p : path)                                                          (* read_text(encoding="utf-8") *)
  | ESha (p : path)
  | ESequence                                                                 (* native.sequence += 1 *)
  | EDump (command : list string) (backup : path) (deadline : flt)
  | EOperation (v : value).                                                   (* native.operations.append *)
Definition eres (o : eop) : Type :=
  match o with
  | EClock | ETime => flt
  | ENow => datetime
  | ENative _ _ _ _ => Z * string
  | EFile _ | EDir _ | EExists _ => bool
  | ERead _ | ESha _ => string
  | ESequence => Z
  | EDump _ _ _ => dump_run
  | _ => unit
  end.

Record epoch := Epoch {
  ep_created : list string; ep_proofs : dict; ep_phase : string; ep_index : Z; ep_hist : list (event eres);
}.
Definition elog (e : event eres) (s : epoch) : epoch := Epoch (ep_created s) (ep_proofs s) (ep_phase s) (ep_index s) (ep_hist s ++ [e]).
Definition set_created (f : list string → list string) (s : epoch) : epoch := Epoch (f (ep_created s)) (ep_proofs s) (ep_phase s) (ep_index s) (ep_hist s).
Definition set_proof (key : string) (v : value) (s : epoch) : epoch := Epoch (ep_created s) (dset key v (ep_proofs s)) (ep_phase s) (ep_index s) (ep_hist s).
Definition set_phase (phase : string) (s : epoch) : epoch := Epoch (ep_created s) (ep_proofs s) phase (ep_index s) (ep_hist s).
Definition next_index (s : epoch) : epoch := Epoch (ep_created s) (ep_proofs s) (ep_phase s) (ep_index s + 1) (ep_hist s).

(** [l.remove(x)], [ValueError] when it is not there *)
Fixpoint remove_first (x : string) (l : list string) : result (list string) :=
  match l with
  | [] => raise ValueError "list.remove(x): x not in list"
  | y :: l => if String.eqb x y then Ok l else l ← remove_first x l; Ok (y :: l)
  end.

(** [s.rsplit(needle, 1)[-1]] *)
Fixpoint after_last (needle s : string) : option string :=
  match s with
  | EmptyString => None
  | String _ s' =>
      match after_last needle s' with
      | Some t => Some t
      | None => if startswith needle s then Some (sdrop (String.length needle) s) else None
      end
  end.
Definition rsplit_last (needle s : string) : string := default s (after_last needle s).
Definition after_at (image : string) : string := match split_once "@" image with Some (_, b) => b | None => image end.

(** [int(memory[:-1]) * (1024**3 if memory.endswith("g") else 1024**2)] *)
Definition memory_bytes (memory : string) : result Z :=
  n ← int_of_decimal (stake (String.length memory - 1) memory);
  Ok (n * (if endswith "g" memory then 1024 ^ 3 else 1024 ^ 2)).
(** [int(float(cpus) * 10**9)] of a number as JSON writes it *)
Definition nano_cpus (cpus : string) : result Z :=
  v ← json_loads cpus;
  match v with
  | VInt n => int_of_float (SFmul f64_prec f64_emax (fz n) (fz (10 ^ 9)))
  | VFloat f => int_of_float (SFmul f64_prec f64_emax f (fz (10 ^ 9)))
  | _ => raise ValueError "could not convert string to float"
  end.

(** [l ← v.get(EPOCH_LABEL)], both labels those of [owner] *)
Definition owner_labelled (owner : string) (labels : value) : result bool :=
  l ← py_get EPOCH_LABEL labels;
  s ← py_get SCOPE_LABEL labels;
  Ok (py_eq l (VStr owner) && py_eq s (VStr EPOCH_SCOPE)).
Definition or_dict (v : value) : value := py_or v (VDict []).

(** [value in set]: of texts *)
Definition in_texts (v : value) (l : list string) : result bool :=
  _ ← raise_if (negb (hashable v)) TypeError "unhashable type";
  Ok (existsb (λ s, py_eq v (VStr s)) l).

(** ** The stopped sources *)
Definition legacy_image (name : string) : string :=
  if String.eqb name SOURCE then SOURCE_IMAGE_ID else "sha256:" +:+ rsplit_last "sha256:" REDIS_IMAGE.

Definition mounts_of (view : dict) : list value := match dget "mounts" view with VList l => l | _ => [] end.
Definition volume_at (name destination : string) (mount : value) : result bool :=
  (t ← py_get "Type" mount; Ok (py_eq t (VStr "volume")))
  &&? (n ← py_get "Name" mount; Ok (py_eq n (VStr name)))
  &&? (d ← py_get "Destination" mount; Ok (py_eq d (VStr destination))).

(** The source database is that of its Compose project. *)
Definition source_differs (view : dict) (labels : value) : result bool :=
  (p ← py_get "com.docker.compose.project" labels; Ok (negb (py_eq p (VStr "kairos-paper-gate"))))
  ||? (s ← py_get "com.docker.compose.service" labels; Ok (negb (py_eq s (VStr "timescaledb"))))
  ||? match or_dict (dget "networks" view) with VDict d => Ok (negb (keys_are d [SOURCE_NETWORK])) | _ => no_attr "keys" end
  ||? (found ← anyR (volume_at SOURCE_VOLUME "/var/lib/postgresql/data") (mounts_of view); Ok (negb found)).

Definition legacy_differs (name identifier : string) (view : dict) : result bool :=
  let state := or_dict (dget "state" view) in
  Ok (negb (py_eq (dget "id" view) (VStr identifier)) || negb (py_eq (dget "image" view) (VStr (legacy_image name))))
  ||? (s ← py_get "Status" state; Ok (negb (py_eq s (VStr "exited"))))
  ||? anyR (λ key, v ← py_get key state; Ok (py_truthy v)) ["Running"; "Paused"; "Restarting"; "Dead"; "Pid"]
  ||? Ok (py_truthy (dget "ports" view) || py_truthy (dget "privileged" view))
  ||? (if String.eqb name SOURCE then source_differs view (or_dict (dget "labels" view)) else Ok false).

(** [fresh.digest] *)
Definition digest (v : value) : result string := s ← json_dumps compact_style v; Ok (sha256_hex s).

(** [fresh.mount_identity] *)
Definition drive_path (s : string) : option string :=
  match s with
  | String a (String "/" rest) => if is_lower a then Some (String a (":" +:+ "/" +:+ rest)) else None
  | _ => None
  end.
Definition mount_identity (casefold : string → string) (v : value) : result string :=
  match v with
  | VStr s =>
      let text := casefold (replace_str "\" "/" s) in
      _ ← raise_if (existsb (λ part, among part ["."; ".."]) (split_on "/" text)) FreshRejected "NONCANONICAL_MOUNT_PATH";
      let under prefix := if startswith prefix text then drive_path (sdrop (String.length prefix) text) else None in
      Ok (match under "/run/desktop/mnt/host/" with
          | Some t => t
          | None => match under "/host_mnt/" with Some t => t | None => text end
          end)
  | _ => no_attr "replace"
  end.

(** The loop over the mounts of a container: each has the identity of one of the
    [expected] sources, the destination and access of its entry, and no
    destination occurs twice; in the end all of them are there.  [expected] maps a
    source to its destination and whether it is writable. *)
Definition check_mounts (msg incomplete : string) (identity : value → result value) (canonical : string → result string)
    (expected : list (string * (string * bool))) (mounts : list value) : result unit :=
  actual ← foldR (λ (actual : list string) mount,
    destination ← py_get "Destination" mount;
    id ← identity mount;
    found ← (fix next (l : list (string * (string * bool))) : result (option (string * bool)) :=
               match l with
               | [] => Ok None
               | (source, entry) :: l => c ← canonical source; if py_eq (VStr c) id then Ok (Some entry) else next l
               end) expected;
    match found with
    | None => reject msg
    | Some (d, writable) =>
        rw ← py_get "RW" mount;
        _ ← reject_if (negb (py_eq destination (VStr d)) || negb (match rw with VBool b => Bool.eqb b writable | _ => false end) || among d actual) msg;
        Ok (d :: actual)
    end) [] mounts;
  reject_if (negb (same_set actual ((λ e, e.2.1) <$> expected))) incomplete.

(** ** [EpochController] *)
Section Controller.
Context (env : environment eres) (fuel : nat) (ct : controller).
(** [type(exc).__name__] and [str.casefold] *)
Context (type_name : exc → string) (casefold : string → string).
(** The validators of the r5, r6 and r7 profiles *)
Context (validate_read_profile : string → value → result unit).

Notation owner := (ct_owner ct).
Notation nm := (ct_names ct).

Definition eask (o : eop) : M epoch (eres o) := perform eres ep_hist elog env o.
Definition rej {A} (msg : string) : M epoch A := throw Rejected msg.
Definition rej_if (b : bool) (msg : string) : M epoch unit := throw_if b Rejected msg.
Definition rej_ifR (c : result bool) (msg : string) : M epoch unit := liftR (raise_ifR c Rejected msg).

Definition _safe_docker_operation_category (arguments : list string) : string :=
  match arguments with
  | ["start"; name] =>
      if String.eqb name (n_target_pg nm) then "DOCKER_START_TARGET_PG"
      else if String.eqb name (n_redis nm) then "DOCKER_START_TARGET_REDIS"
      else if String.eqb name (n_serve nm) then "DOCKER_START_TARGET_SERVE"
      else "DOCKER_OTHER"
  | _ => "DOCKER_OTHER"
  end.

(** The handler of [docker]: a diagnostic of fixed texts, whose own failure is ignored *)
Definition docker_failed {A} (arguments : list string) (e : exc) : M epoch A :=
  let category := if among (exc_msg e) ["NATIVE_OPERATION_OR_CLI_CLEANUP_UNKNOWN"; "NATIVE_DOCKER_OPERATION_FAILED"]
                  then exc_msg e else "PRIVATE_CLI_DIAGNOSTIC_WITHHELD" in
  try_except is_exception (eask (EDiagnostic category (_safe_docker_operation_category arguments))) (λ _, mret tt);;
  rej ("BOUNDED_DOCKER_OPERATION_FAILED_" +:+ bupper (type_name e)).

Definition docker_with (arguments : list string) (seconds : Z) (allow_failure : bool) : M epoch string :=
  rej_if (bool_decide (arguments = [])) "DOCKER_ARGUMENTS_REQUIRED";;
  try_except is_exception ('(_, output) ← eask (ENative arguments (ct_deadline ct) (fz seconds) allow_failure); mret output)
    (docker_failed arguments).
Definition docker (arguments : list string) : M epoch string := docker_with arguments 20 false.
Definition docker_for (seconds : Z) (arguments : list string) : M epoch string := docker_with arguments seconds false.

Definition inspect_container (name : string) : M epoch dict :=
  raw ← docker ["inspect"; "--format"; VIEW; name];
  view ← liftR (json_loads raw);
  liftR (normalize_container_metadata view).

Definition legacy_snapshot (name identifier : string) : M epoch string :=
  rej_if (negb (fullmatch (hex 64) identifier)) "EXACT_STOPPED_SOURCE_CONTAINER_IDS_REQUIRED";;
  view ← inspect_container name;
  rej_ifR (legacy_differs name identifier view) "EXACT_STOPPED_LEGACY_SOURCE_REQUIRED";;
  liftR (digest (VDict view)).

Definition assert_legacy_sources_stopped (legacy_redis_id : string) : M epoch dict :=
  pg ← legacy_snapshot SOURCE SOURCE_ID;
  redis ← legacy_snapshot LEGACY_REDIS legacy_redis_id;
  mret [("legacy_pg", VStr SOURCE_ID); ("legacy_redis", VStr legacy_redis_id); ("state", VStr "stopped");
        ("metadata_sha256", VDict [(SOURCE, VStr pg); (LEGACY_REDIS, VStr redis)])].

Definition owner_labels : list string := ["--label"; EPOCH_LABEL +:+ "=" +:+ owner; "--label"; SCOPE_LABEL +:+ "=" +:+ EPOCH_SCOPE].
Definition push_created (name : string) : M epoch unit := modify (set_created (λ l, l ++ [name])).

Definition create_network : M epoch unit :=
  _ ← docker (["network"; "create"; "--driver"; "bridge"] ++ owner_labels ++ [n_network nm]);
  push_created (n_network nm);;
  raw ← docker ["network"; "inspect"; "--format"; "{{json .}}"; n_network nm];
  network ← liftR (json_loads raw);
  labels ← liftR (or_dict <$> py_get "Labels" network);
  rej_ifR (match network with
           | VDict d =>
               Ok (negb (py_eq (dget "Name" d) (VStr (n_network nm))) || negb (py_eq (dget "Driver" d) (VStr "bridge")) || negb (is_false (dget "Internal" d)))
               ||? (o ← owner_labelled owner labels; Ok (negb o))
               ||? Ok (py_truthy (dget "Containers" d))
           | _ => no_attr "get"
           end) "PRIVATE_EPOCH_EGRESS_BRIDGE_REQUIRED".

Definition owned_volumes : list string := [n_target_volume nm; n_source_volume nm; n_restore_volume nm; n_redis_volume nm].

(** What [docker volume inspect] shows of a volume *)
Definition volume_differs (name : string) (metadata : value) : result bool :=
  labels ← (or_dict <$> py_get "Labels" metadata);
  (n ← py_get "Name" metadata; Ok (negb (py_eq n (VStr name)))) ||? (o ← owner_labelled owner labels; Ok (negb o)).

Definition create_volume (name : string) : M epoch unit :=
  rej_if (negb (among name owned_volumes)) "UNOWNED_VOLUME_NAME";;
  _ ← docker (["volume"; "create"] ++ owner_labels ++ [name]);
  push_created name;;
  raw ← docker ["volume"; "inspect"; "--format"; "{{json .}}"; name];
  metadata ← liftR (json_loads raw);
  rej_ifR (volume_differs name metadata) "CREATED_VOLUME_OWNERSHIP_REQUIRED".

Definition INITIALIZER_TMPFS : string := "rw,nosuid,nodev,noexec,size=1m".
Definition PGDATA : string := "/var/lib/postgresql/data".

Definition initializer_name (uid : Z) : string :=
  owned owner ("-volume-init-" +:+ dec_of_Z uid)
  +:+ match ct_attempt ct with Some a => if String.eqb a "" then "" else "-continue-" +:+ a | None => "" end.

Definition initializer_command (helper name : string) (uid : Z) : list string :=
  ["create"; "--pull=never"; "--name"; helper; "--network=none"; "--user=0"; "--read-only"; "--cap-drop=ALL"; "--cap-add=CHOWN";
   "--cap-add=FOWNER"; "--security-opt=no-new-privileges:true"; "--memory=64m"; "--memory-swap=64m"; "--cpus=0.25"; "--pids-limit=16"]
  ++ owner_labels
  ++ ["--tmpfs"; PGDATA +:+ ":" +:+ INITIALIZER_TMPFS; "--mount"; "type=volume,src=" +:+ name +:+ ",dst=/owned"; "--entrypoint"; "/bin/sh"; PG_IMAGE; "-c";
      "chmod 0700 /owned && chown " +:+ dec_of_Z uid +:+ ":" +:+ dec_of_Z uid +:+ " /owned"].

Definition tmpfs_of (name : string) : M epoch value :=
  raw ← docker ["inspect"; "--format"; "{{json .HostConfig.Tmpfs}}"; name];
  v ← liftR (json_loads raw);
  mret (or_dict v).

Definition initialize_volume (name : string) (uid : Z) : M epoch unit :=
  rej_if (negb (among name owned_volumes) || negb (bool_decide (uid ∈ [70; 999]))) "NEW_VOLUME_INITIALIZATION_SCOPE_REQUIRED";;
  let helper := initializer_name uid in
  created ← gets ep_created;
  rej_if (among helper created) "UNIQUE_VOLUME_INITIALIZER_REQUIRED";;
  _ ← docker (initializer_command helper name uid);
  push_created helper;;
  _ ← docker ["start"; "--attach"; helper];
  inspection ← inspect_container helper;
  let state := dgetd "state" (VDict []) inspection in
  rej_ifR ((c ← py_get "ExitCode" state; Ok (negb (py_eq c (VInt 0)))) ||? (r ← py_get "Running" state; Ok (py_truthy r))) "VOLUME_INITIALIZER_FAILED";;
  tmpfs ← tmpfs_of helper;
  rej_if (negb (py_eq tmpfs (VDict [(PGDATA, VStr INITIALIZER_TMPFS)]))) "INITIALIZER_IMAGE_VOLUME_MUST_BE_TMPFS";;
  rej_ifR (anyR (λ mount, (t ← py_get "Type" mount; Ok (py_eq t (VStr "volume"))) &&? (d ← py_get "Destination" mount; Ok (py_eq d (VStr PGDATA))))
             (mounts_of inspection)) "INITIALIZER_ANONYMOUS_DATA_VOLUME_REJECTED";;
  _ ← docker ["rm"; helper];
  created ← gets ep_created;
  left ← liftR (remove_first helper created);
  modify (set_created (λ _, left)).

(** The options of [_create_container] *)
Record shape := Shape {
  sh_options : list string; sh_command : list string; sh_start : bool; sh_user : option string;
  sh_memory : string; sh_cpus : string; sh_tmpfs : list string;
}.
Definition owned_prefix : string := owned owner "-".

Definition create_arguments (name image : string) (sh : shape) : list string :=
  ["create"; "--pull=never"; "--name"; name; "--network"; n_network nm; "--network-alias"; name; "--read-only"; "--cap-drop=ALL";
   "--security-opt=no-new-privileges:true"; "--memory=" +:+ sh_memory sh; "--memory-swap=" +:+ sh_memory sh; "--cpus=" +:+ sh_cpus sh;
   "--pids-limit=128"] ++ owner_labels
  ++ match sh_user sh with Some u => if String.eqb u "" then [] else ["--user"; u] | None => [] end
  ++ mjoin ((λ t, ["--tmpfs"; t]) <$> sh_tmpfs sh)
  ++ sh_options sh ++ [image] ++ sh_command sh.

Definition container_differs (name image : string) (memory cpus : Z) (view : dict) : result bool :=
  let is_ key v := py_eq (dget key view) v in
  Ok (negb (is_ "name" (VStr ("/" +:+ name))))
  ||? (known ← in_texts (dget "image" view) [image; after_at image; "sha256:" +:+ rsplit_last "sha256:" image]; Ok (negb known))
  ||? Ok (py_truthy (dget "ports" view) || negb (is_ "network" (VStr (n_network nm))) || negb (is_ "memory" (VInt memory)) || negb (is_ "swap" (VInt memory)))
  ||? Ok (negb (is_ "cpus" (VInt cpus)) || negb (is_true (dget "readonly" view)) || negb (is_ "caps" (VList [VStr "ALL"])) || is_true (dget "privileged" view))
  ||? (o ← owner_labelled owner (or_dict (dget "labels" view)); Ok (negb o)).

Definition _create_container (name image : string) (sh : shape) : M epoch unit :=
  rej_if (negb (startswith owned_prefix name)) "OWNER_BOUND_CONTAINER_NAME_REQUIRED";;
  rej_if (bool_decide (sh_tmpfs sh = [])) "BOUNDED_TMPFS_REQUIRED";;
  _ ← docker (create_arguments name image sh);
  push_created name;;
  view ← inspect_container name;
  memory ← liftR (memory_bytes (sh_memory sh));
  cpus ← liftR (nano_cpus (sh_cpus sh));
  rej_ifR (container_differs name image memory cpus view) "CREATED_CONTAINER_IDENTITY_OR_NO_PORTS_REQUIRED";;
  if sh_start sh then _ ← docker ["start"; name]; mret tt else mret tt.

Definition is_volume (mount : value) : result bool := t ← py_get "Type" mount; Ok (py_eq t (VStr "volume")).

Definition require_mount_set (container : string) (expected : list (string * (string * bool))) : M epoch unit :=
  view ← inspect_container container;
  created ← gets ep_created;
  liftR (check_mounts "CREATED_CONTAINER_MOUNT_SET_REJECTED" "CREATED_CONTAINER_MOUNT_SET_REJECTED"
    (λ mount, v ← is_volume mount;
              if (v : bool) then py_get "Name" mount
              else s ← py_get "Source" mount; VStr <$> mount_identity casefold (py_or s (VStr "")))
    (λ candidate, if among candidate created then Ok candidate else mount_identity casefold (VStr candidate))
    expected (mounts_of view)).

Definition PG_COMMAND : list string :=
  ["postgres"; "-c"; "shared_buffers=64MB"; "-c"; "work_mem=4MB"; "-c"; "max_connections=20"; "-c"; "max_worker_processes=8"; "-c";
   "timescaledb.max_background_workers=0"; "-c"; "timescaledb.telemetry_level=off"].

Definition database_options (volume : string) (password_path : path) (database : string) (extra_mounts : list string) : list string :=
  ["--mount"; "type=volume,src=" +:+ volume +:+ ",dst=/var/lib/postgresql/data"; "--mount";
   "type=bind,src=" +:+ path_text password_path +:+ ",dst=/run/secrets/epoch_admin_password,readonly"; "--env"; "POSTGRES_USER=kairos"; "--env";
   "POSTGRES_DB=" +:+ database; "--env"; "POSTGRES_PASSWORD_FILE=/run/secrets/epoch_admin_password"; "--env";
   "POSTGRES_INITDB_ARGS=--auth-host=scram-sha-256 --auth-local=trust"; "--tmpfs"; "/var/run/postgresql:rw,nosuid,nodev,size=8m,uid=70,gid=70"]
  ++ extra_mounts.

(** [dict(field.split("=", 1) for field in fields if "=" in field)] *)
Definition mount_fields (fields : list string) : list (string * string) := foldl (λ d f, match split_once "=" f with Some (k, v) => dset k v d | None => d end) [] fields.

Definition extra_mount_expected (extra_mounts : list string) : result (list (string * (string * bool))) :=
  match extra_mounts with
  | ["--mount"; text] =>
      let fields := split_on "," text in
      let at_ key := default "" (dlookup key (mount_fields fields)) in
      _ ← reject_if (negb (String.eqb (at_ "type") "bind") || String.eqb (at_ "src") "" || String.eqb (at_ "dst") "") "EXACT_RESTORE_DUMP_MOUNT_REQUIRED";
      Ok [(at_ "src", (at_ "dst", negb (among "readonly" fields)))]
  | _ => Ok []
  end.

Definition create_database (name volume : string) (password_path : path) (database : string) (extra_mounts : list string) (watchdog_seconds : option Z)
    : M epoch unit :=
  plain ← (if String.eqb (p_parent password_path) (ct_work ct) then eask (EFile password_path) else mret false);
  rej_if (negb plain) "PRIVATE_POSTGRES_PASSWORD_FILE_REQUIRED";;
  '(options, command) ← liftR (match watchdog_seconds with
    | Some seconds =>
        _ ← reject_if (negb (seconds =? 1500)) "FINITE_DISPOSABLE_POSTGRES_WATCHDOG_REQUIRED";
        Ok (["--entrypoint"; "/bin/sh"],
            ["-c"; "(sleep " +:+ dec_of_Z seconds +:+ "; kill -TERM 1) & exec /usr/local/bin/docker-entrypoint.sh " +:+ join " " PG_COMMAND])
    | None => Ok ([], PG_COMMAND)
    end);
  _create_container name PG_IMAGE
    (Shape (database_options volume password_path database extra_mounts ++ options) command true (Some "70:70") "4g" "1"
       ["/tmp:rw,nosuid,nodev,size=384m,uid=70,gid=70"]);;
  extra ← liftR (extra_mount_expected extra_mounts);
  require_mount_set name
    (foldl (λ d e, dset e.1 e.2 d)
       (dset (path_text password_path) ("/run/secrets/epoch_admin_password", false) [(volume, ("/var/lib/postgresql/data", true))]) extra).

(** [while time.monotonic() < end: …; time.sleep(2)] and an error when the time is up *)
Definition poll {A} (seconds margin : Z) (body : M epoch (option A)) (msg : string) : M epoch A :=
  now ← eask EClock;
  let end_ := fmin (fadd now (fz seconds)) (fsub (ct_deadline ct) (fz margin)) in
  while fuel (now ← eask EClock; mret (fltb now end_)) body (rej msg).

Definition wait_postgres (name : string) : M epoch unit :=
  poll 120 30
    (result ← docker_with ["exec"; name; "pg_isready"; "-h"; "127.0.0.1"; "-p"; "5432"; "-U"; "kairos"; "-d"; "postgres"] 5 true;
     if endswith "accepting connections" (strip result) then mret (Some tt) else eask ESleep;; mret None)
    "NEW_POSTGRES_READINESS_TIMEOUT".

Definition psql (container database : string) (rest : list string) : list string :=
  ["exec"; container; "psql"; "-U"; "kairos"; "-d"; database] ++ rest.

Definition restore_accepted_dump (container database : string) : M epoch unit :=
  _ ← docker_for 30 (psql container database ["-v"; "ON_ERROR_STOP=1"; "-c"; "CREATE EXTENSION IF NOT EXISTS timescaledb; SELECT timescaledb_pre_restore();"]);
  _ ← docker_for 180 ["exec"; container; "pg_restore"; "--exit-on-error"; "--no-owner"; "--no-privileges"; "--username=kairos";
                      "--dbname=" +:+ database; "/archive.dump"];
  _ ← docker_for 30 (psql container database ["-v"; "ON_ERROR_STOP=1"; "-c"; "SELECT timescaledb_post_restore();"]);
  state ← docker_for 15 (psql container database
    ["-Atqc"; "SELECT current_setting('timescaledb.restoring')||'|'||current_setting('timescaledb.max_background_workers');"]);
  rej_if (negb (String.eqb (strip state) "off|0")) "SOURCE_RESTORE_BACKGROUND_WORKERS_NOT_DISABLED".

Definition REDIS_COMMAND : list string :=
  ["redis-server"; "--appendonly"; "yes"; "--appendfsync"; "always"; "--aclfile"; "/run/config/users.acl"; "--protected-mode"; "yes"; "--bind";
   "0.0.0.0"; "--maxmemory"; "192mb"; "--maxmemory-policy"; "noeviction"].

Definition create_redis (acl_path : path) (volume : string) : M epoch unit :=
  plain ← (if String.eqb (p_parent acl_path) (ct_work ct) then eask (EFile acl_path) else mret false);
  rej_if (negb plain) "PRIVATE_REDIS_ACL_FILE_REQUIRED";;
  _create_container (n_redis nm) REDIS_IMAGE
    (Shape ["--mount"; "type=volume,src=" +:+ volume +:+ ",dst=/data"; "--mount"; "type=bind,src=" +:+ path_text acl_path +:+ ",dst=/run/config/users.acl,readonly"]
       REDIS_COMMAND true (Some "999:999") "256m" "0.5" ["/tmp:rw,nosuid,nodev,size=128m"]);;
  require_mount_set (n_redis nm) (dset (path_text acl_path) ("/run/config/users.acl", false) [(volume, ("/data", true))]).

Definition running (view : dict) : result bool := s ← py_get "Status" (or_dict (dget "state" view)); Ok (py_eq s (VStr "running")).

Definition stop_owned_serve : M epoch unit :=
  let name := n_serve nm in
  view ← try_except (λ c, bool_decide (c = Rejected)) (view ← inspect_container name; mret (Some view)) (λ _, mret None);
  match view with
  | None => mret tt
  | Some view =>
      rej_ifR (o ← owner_labelled owner (or_dict (dget "labels" view)); Ok (negb o)) "OWNER_SERVE_CONTAINER_REQUIRED_FOR_STOP";;
      up ← liftR (running view);
      if (up : bool) then _ ← docker_for 25 ["stop"; "--time=15"; name]; mret tt else mret tt
  end.

(** [current_status.get(key)] and [status["watermarks_ms"][symbol]] *)
Definition watermark (status : value) (symbol : string) : result value := w ← py_item "watermarks_ms" status; py_item symbol w.
Definition advanced (first status : value) : result bool :=
  behind ← anyR (λ s, a ← watermark status s; b ← watermark first s; more ← py_lt b a; Ok (negb more)) SYMBOLS; Ok (negb behind).

Definition json_or_os_error (c : exc_class) : bool := os_error c || bool_decide (c = JSONDecodeError).

(** One look at the status file: [Some] of the validated status, [None] to look
    again after the two seconds that follow in either case *)
Definition look_restarted (status_path : path) (first : value) : M epoch (option value) :=
  text ← eask (ERead status_path);
  current_status ← liftR (json_loads text);
  old ← liftR (py_get "observed_at_utc" first);
  seen ← liftR (py_get "observed_at_utc" current_status);
  if py_eq seen old then mret None
  else
    now ← eask ENow;
    _ ← liftR (validate_running_status now current_status owner None);
    ahead ← liftR (advanced first current_status);
    if negb ahead then mret None
    else
      now ← eask ENow;
      validated ← liftR (validate_running_status now current_status owner (Some (match first with VDict d => d | _ => [] end)));
      view ← inspect_container (n_serve nm);
      up ← liftR (running view);
      rej_if (negb up) "NONTRADING_SERVE_RESTART_NOT_RUNNING";;
      mret (Some (VDict validated)).

Definition restart_serve_and_validate (status_path : path) (first : value) : M epoch value :=
  now ← eask ENow;
  _ ← liftR (validate_running_status now first owner None);
  _ ← docker_for 25 ["stop"; "--time=15"; n_serve nm];
  stopped ← inspect_container (n_serve nm);
  status ← liftR (py_get "Status" (or_dict (dget "state" stopped)));
  rej_if (negb (py_eq status (VStr "exited"))) "NONTRADING_SERVE_STOP_FOR_RESTART_FAILED";;
  _ ← docker ["start"; n_serve nm];
  poll 180 15
    (plain ← eask (EFile status_path);
     seen ← (if (plain : bool) then try_except json_or_os_error (look_restarted status_path first) (λ _, mret None) else mret None);
     match seen with Some v => mret (Some v) | None => eask ESleep;; mret None end)
    "NONTRADING_SERVE_RESTART_FRESHNESS_TIMEOUT".

(** ** Workers *)
Definition expected_states : list (string * string) :=
  [("prepare", "PREPARED_EMPTY_NONTRADING_EPOCH"); ("seed", "VERIFIED_HISTORY_SEEDED_AUDIT_ONLY"); ("catchup", "AUDIT_ONLY_CATCHUP_COMPLETE");
   ("verify-restore", "PASS_ISOLATED_EPOCH_RESTORE"); ("qualify", "NONTRADING_RUNTIME_QUALIFIED"); ("rotate-history", "HISTORY_CREDENTIAL_ROTATED");
   ("history-state", "VERIFIED_AUDIT_ONLY_HISTORY_STATE"); ("boot-state", "PASS_BOOT_STATE"); ("incident-state", "PASS_INCIDENT_STATE");
   ("incident-drain", "PASS_EXACT_INCIDENT_DRAIN"); ("incident-verify-restore", "PASS_INCIDENT_ISOLATED_RESTORE"); ("r5-state", "PASS_R5_STATE");
   ("r5-verify-restore", "PASS_R5_ISOLATED_RESTORE"); ("r5-drain", "PASS_EXACT_R5_INBOX_RECOVERY"); ("boot-redis-state", "PASS_BOOT_REDIS_STATE");
   ("boot-redis-clone", "PASS_BOOT_REDIS_STATE"); ("boot-catchup", "AUDIT_ONLY_CATCHUP_COMPLETE"); ("boot-verify-restore", "PASS_BOOT_ISOLATED_RESTORE");
   ("r6-state", "PASS_R6_STATE"); ("r6-verify-restore", "PASS_R6_ISOLATED_RESTORE"); ("r6-drain", "PASS_EXACT_R6_PUBLICATION_AND_DRAIN");
   ("r7-state", "PASS_R7_STATE"); ("r7-verify-restore", "PASS_R7_ISOLATED_RESTORE"); ("r7-drain", "PASS_EXACT_R7_INBOX_RECOVERY")].

Definition dashed (suffix : string) : string := if String.eqb suffix "" then "" else "-" +:+ suffix.
Definition worker_name (mode suffix : string) : string :=
  if String.eqb mode "serve" then n_serve nm
  else owned owner (match ct_attempt ct with Some a => if String.eqb a "" then "" else "-continue-" +:+ a | None => "" end +:+ "-" +:+ mode +:+ dashed suffix).

(** The binds of a worker: the source, the destination and whether it is read-only *)
Definition bind (source : string) (destination : string) (readonly : bool) : list string :=
  ["--mount"; "type=bind,src=" +:+ source +:+ ",dst=" +:+ destination +:+ if readonly then ",readonly" else ""].

Definition slow (mode : string) : bool := among mode ["catchup"; "boot-catchup"; "qualify"].
Definition worker_script (mode : string) : result string :=
  argv ← build_worker_argv mode CONFIG_PATH_IN_CONTAINER OUTPUT_PATH_IN_CONTAINER;
  let invocation := argv ++ match ct_build ct with Some b => ["--schema-profile"; bp_schema_profile b] | None => [] end in
  Ok ("set -eu; export PIP_NO_INDEX=1 PIP_DISABLE_PIP_VERSION_CHECK=1 PYTHONDONTWRITEBYTECODE=1; /usr/local/bin/python -m pip install --no-index --no-deps --no-compile --target /runtime-libs/installed /wheelhouse/*.whl /aux-wheels/"
      +:+ AUX_NUMPY +:+ " >/dev/null 2>&1; export PYTHONPATH=/runtime-libs/installed:/operator:/quant; "
      +:+ (if String.eqb mode "serve" then "exec " +:+ join " " invocation
           else "/usr/bin/timeout -s KILL " +:+ (if slow mode then "1800" else "600") +:+ " python -B " +:+ join " " (drop 2 invocation))).

(** Source, destination, writable *)
Definition worker_mounts (config_path output_dir operator runtime_wheelhouse quant : path) : list (string * (string * bool)) :=
  foldl (λ d e, dset e.1 e.2 d) []
    [(path_text config_path, (CONFIG_PATH_IN_CONTAINER, false)); (path_text output_dir, ("/output", true)); (path_text operator, ("/operator", false));
     (path_text runtime_wheelhouse, ("/wheelhouse", false)); (path_text quant, ("/quant", false)); (path_text (ct_aux ct), ("/aux-wheels", false))].

Definition worker_options (config_path output_dir operator runtime_wheelhouse quant : path) : list string :=
  bind (path_text config_path) CONFIG_PATH_IN_CONTAINER true ++ bind (path_text output_dir) "/output" false
  ++ ["--env"; "PYTHONDONTWRITEBYTECODE=1"]
  ++ bind (path_text operator) "/operator" true ++ bind (path_text runtime_wheelhouse) "/wheelhouse" true
  ++ bind (path_text quant) "/quant" true ++ bind (path_text (ct_aux ct)) "/aux-wheels" true
  ++ ["--entrypoint"; "/bin/sh"].

(** [all] of some questions to the file system, the first [False] ends it *)
Fixpoint all_ask (l : list (M epoch bool)) : M epoch bool :=
  match l with [] => mret true | m :: l => b ← m; if (b : bool) then all_ask l else mret false end.

Definition QUALIFICATION_PROOFS : dict :=
  [("redis_acceptance_replay_same_id", VBool true); ("hash_conflict_refused", VBool true); ("duplicate_delivery_acked_without_new_inbox", VBool true)].

(** The receipt that a worker must have written *)
Definition receipt_ok (mode : string) (receipt : value) : result dict :=
  match receipt with
  | VDict r =>
      let is_ key v := py_eq (dget key r) v in
      _ ← reject_if (negb (is_ "owner" (VStr owner)) || negb (is_ "mode" (VStr mode)) || negb (is_ "new_epoch_database" (VStr (epoch_database owner)))
                     || negb (is_ "state" (match dlookup mode expected_states with Some s => VStr s | None => VNone end)))
            ("WORKER_RECEIPT_NOT_ACCEPTED_" +:+ bupper mode);
      _ ← reject_if (match ct_build ct with
                     | Some b => negb (is_ "schema_profile" (VStr (bp_schema_profile b))) || negb (is_ "schema_migration_count" (VInt 19))
                                 || negb (is_ "schema_public_table_count" (VInt 33))
                     | None => false
                     end) "CURRENT_WORKER_PROFILE_RECEIPT_REQUIRED";
      _ ← reject_if (String.eqb mode "qualify" && negb (is_ "qualification_proofs" (VDict QUALIFICATION_PROOFS))) "QUALIFICATION_IDEMPOTENCY_PROOFS_REQUIRED";
      Ok r
  | _ => reject ("WORKER_RECEIPT_NOT_ACCEPTED_" +:+ bupper mode)
  end.

Definition drop_created (name : string) : M epoch unit :=
  created ← gets ep_created;
  if among name created then left ← liftR (remove_first name created); modify (set_created (λ _, left)) else mret tt.

(** The checks of [run_worker] before it creates anything *)
Definition worker_inputs (config_path output_dir : path) : M epoch (path * path * path) :=
  rej_if (negb (String.eqb (p_parent config_path) (ct_work ct)) || negb (String.eqb (p_parent output_dir) (ct_work ct))) "OWNER_PRIVATE_WORKER_FILES_REQUIRED";;
  ok ← all_ask [eask (EFile config_path); eask (EDir output_dir)];
  rej_if (negb ok) "WORKER_INPUT_OUTPUT_FILES_REQUIRED";;
  ok ← eask (EDir output_dir);
  rej_if (negb ok || String.eqb (path_text output_dir) (ct_work ct)) "ISOLATED_PHASE_OUTPUT_DIRECTORY_REQUIRED";;
  match ct_operator ct, ct_quant ct with
  | Some operator, Some quant =>
      match ct_wheelhouse ct with
      | Some wheelhouse =>
          ok ← all_ask ((λ p, eask (EDir p) : M epoch bool) <$> [operator; quant; wheelhouse; ct_aux ct]);
          rej_if (negb ok) "READONLY_WORKER_SOURCE_DIRECTORY_REQUIRED";;
          mret (operator, quant, wheelhouse)
      | None => rej "PRIVATE_OFFLINE_RUNTIME_WHEELHOUSE_REQUIRED"
      end
  | _, _ => rej "SIGNED_OPERATOR_WHEEL_QUANT_SNAPSHOTS_REQUIRED"
  end.

(** The worker is created, and started once the inspection shows its mounts. *)
Definition start_worker (name mode : string) (config_path output_dir : path) : M epoch unit :=
  '(operator, quant, wheelhouse) ← worker_inputs config_path output_dir;
  script ← liftR (worker_script mode);
  _create_container name (ct_worker_image ct)
    (Shape (worker_options config_path output_dir operator wheelhouse quant) ["-c"; script] false (Some "0:0") "512m" "1"
       ["/tmp:rw,nosuid,nodev,noexec,size=64m"; "/runtime-libs:rw,nosuid,nodev,exec,size=128m"]);;
  view ← inspect_container name;
  liftR (check_mounts "WORKER_MOUNT_IDENTITY_OR_ACCESS_REJECTED" "EXACT_WORKER_MOUNT_SET_REQUIRED"
    (λ mount, s ← py_getd "Source" (VStr "") mount; VStr <$> mount_identity casefold s)
    (λ source, mount_identity casefold (VStr source))
    (worker_mounts config_path output_dir operator wheelhouse quant) (mounts_of view));;
  tmpfs ← tmpfs_of name;
  _ ← liftR (validate_worker_tmpfs tmpfs);
  _ ← docker ["start"; name];
  mret tt.

Definition run_worker (mode : string) (config_path output_dir : path) (suffix : string) : M epoch value :=
  let name := worker_name mode suffix in
  start_worker name mode config_path output_dir;;
  if String.eqb mode "serve" then
    modify (set_proof "serve_container" (VStr name));;
    view ← inspect_container name;
    status ← liftR (py_get "Status" (dgetd "state" (VDict []) view));
    rej_if (negb (py_eq status (VStr "running"))) "NONTRADING_SERVE_DID_NOT_REMAIN_RUNNING";;
    mret (VDict [("state", VStr "RUNNING_NONTRADING"); ("container", VStr name)])
  else
    result ← docker_for (if slow mode then 1810 else 610) ["wait"; name];
    rej_if (negb (String.eqb (strip result) "0")) ("WORKER_MODE_FAILED_" +:+ bupper mode);;
    let output_path := Path (path_text output_dir) (if String.eqb mode "history-state" then "history-state.json" else mode +:+ ".json") in
    plain ← eask (EFile output_path);
    rej_if (negb plain) "WORKER_RECEIPT_FILE_REQUIRED";;
    text ← eask (ERead output_path);
    receipt ← liftR (json_loads text);
    r ← liftR (receipt_ok mode receipt);
    modify (set_proof mode (VDict r));;
    _ ← docker ["rm"; name];
    drop_created name;;
    mret (VDict r).

Definition phase (mode : string) (config : value) (suffix : string) : M epoch value :=
  let tag := mode +:+ dashed suffix in
  modify (set_phase tag);;
  _ ← liftR (validate_worker_config validate_read_profile config mode (ct_schema ct));
  modify next_index;;
  index ← gets ep_index;
  let record state := VDict [("owner", VStr owner); ("phase", VStr tag); ("state", VStr state)] in
  eask (ESave (in_work ct ("phase-" +:+ pad 3 index +:+ ".json")) (record "IN_PROGRESS"));;
  let config_path := in_work ct ("config-" +:+ tag +:+ ".json") in
  let output_dir := in_work ct ("output-" +:+ tag) in
  eask (ESave config_path config);;
  eask (EMkdir output_dir);;
  receipt ← run_worker mode config_path output_dir suffix;
  eask (ESave (in_work ct ("phase-" +:+ pad 3 index +:+ "-complete.json")) (record "COMPLETE"));;
  mret receipt.

(** ** Removal *)
Definition remove_owned_clone (container volume : string) : M epoch unit :=
  view ← inspect_container container;
  rej_ifR (o ← owner_labelled owner (or_dict (dget "labels" view)); Ok (negb o)) "OWNED_DISPOSABLE_CLONE_REQUIRED_FOR_CLEANUP";;
  _ ← docker ["rm"; "-f"; container];
  modify (set_created (filter (λ n, n ≠ container)));;
  raw ← docker ["volume"; "inspect"; "--format"; "{{json .}}"; volume];
  volume_view ← liftR (json_loads raw);
  rej_ifR (volume_differs volume volume_view) "OWNED_DISPOSABLE_VOLUME_REQUIRED_FOR_CLEANUP";;
  _ ← docker ["volume"; "rm"; volume];
  modify (set_proof (if String.eqb container (n_source_pg nm) then "temporary_source_cleanup_verified" else "temporary_restore_cleanup_verified") (VBool true)).

(** One candidate of [stop_owned_after_failure] *)
Definition stop_candidate (name : string) : M epoch unit :=
  view ← try_except is_exception (view ← inspect_container name; mret (Some view)) (λ _, mret None);
  match view with
  | None => mret tt
  | Some view =>
      mine ← liftR (owner_labelled owner (or_dict (dget "labels" view)));
      if negb mine then mret tt
      else
        up ← liftR (running view);
        if (up : bool) then try_except is_exception (_ ← docker_for 25 ["stop"; "--time=15"; name]; mret tt) (λ _, mret tt) else mret tt
  end.

Definition stop_owned_after_failure : M epoch unit :=
  created ← gets ep_created;
  let candidates := [n_source_pg nm; n_restore_pg nm; n_serve nm] ++ filter (λ n, startswith owned_prefix n = true) created in
  forM (sort_str (remove_dups (filter (λ n, n ≠ n_target_pg nm ∧ n ≠ n_redis nm) candidates))) stop_candidate.
End Controller.
