(* ===== verification/EpochDockerSpec.v ===== *)
(** * What the epoch controller may do to Docker ([EpochDocker])

    For every answer of Docker, the clocks and the files, the controller creates
    only confined resources that bear its owner's name and labels, starts only
    what it created, and stops or removes a thing it did not create only when the
    inspection just before showed its owner's labels. *)

From stdpp Require Import strings.
From S2P Require Import Prelude PyStr Regex Sha256 PyVal PyTime Json PyBytes Effects EpochBoot EpochControl EpochDocker.

Local Open Scope string_scope.
Local Open Scope list_scope.
Local Open Scope Z_scope.

(** ** The Docker commands of a history *)
Abbreviation docker_call := (list string * result (Z * string))%type.

(** A command with its answer; of [pg_dump], which is run without the adapter,
    the command alone. *)
Definition native (e : event eres) : option docker_call :=
  match e with
  | Ev o a => match o return result (eres o) → option docker_call with
              | ENative args _ _ _ => λ a, Some (args, a)
              | EDump command _ _ => λ _, Some (drop 5 command, Ok (0, ""))
              | _ => λ _, None
              end a
  end.
Definition calls (s : epoch) : list docker_call := omap native (ep_hist s).

(** Commands that change nothing *)
Definition observing (args : list string) : bool :=
  existsb (λ p, bool_decide (take (length p) args = p)) [["inspect"]; ["volume"; "inspect"]; ["network"; "inspect"]].

Fixpoint value_after (key : string) (args : list string) : option string :=
  match args with
  | k :: args => if String.eqb k key then head args else value_after key args
  | [] => None
  end.

(** The container that a command creates *)
Definition created_container (args : list string) : option string :=
  match args with "create" :: rest => value_after "--name" rest | _ => None end.
(** One of the calls created it, and Docker answered. *)
Definition created_before (pre : list docker_call) (name : string) : Prop :=
  ∃ args answer, (args, Ok answer) ∈ pre ∧ created_container args = Some name.

(** The options of [docker create] that would give a container a privilege, a
    device or a port, or mount something without naming it in a [--mount] of its own *)
Definition grant (option : string) : bool :=
  existsb (λ p, startswith p option) ["--cap-add"; "--privileged"; "--device"; "--publish"; "-p"; "-P"; "--volume"; "-v"; "--mount="].

(** A word that is neither such an option nor a mount *)
Definition plain_word (s : string) : Prop := startswith "type=" s = false ∧ grant s = false.

Section Spec.
Context (ct : controller).

Definition own_name (name : string) : Prop := startswith (owned_prefix ct) name = true.

(** The mounts of the containers of an epoch: its own volumes; of the host,
    directories and files that can only be read, and the output directory. *)
Definition ok_mount (m : string) : Prop :=
  (∃ volume destination, volume ∈ owned_volumes ct ∧ m = "type=volume,src=" +:+ volume +:+ ",dst=" +:+ destination) ∨
  (startswith "type=bind," m = true ∧
   (endswith ",readonly" m = true ∨ ∃ name, m = "type=bind,src=" +:+ path_text (in_work ct name) +:+ ",dst=/output")).
Definition ok_argument (m : string) : Prop := (startswith "type=" m = true → ok_mount m) ∧ grant m = false.

(** All capabilities are dropped.  The initializer of a volume, which no network
    reaches and which mounts that volume alone, has back those to own its files. *)
Definition initializes (args : list string) : Prop :=
  "--network=none" ∈ args ∧
  ∃ volume, volume ∈ owned_volumes ct ∧ filter (λ m, startswith "type=" m = true) args = ["type=volume,src=" +:+ volume +:+ ",dst=/owned"].
Definition granted (args : list string) : Prop :=
  filter (λ a, grant a = true) args = [] ∨
  (filter (λ a, grant a = true) args = ["--cap-add=CHOWN"; "--cap-add=FOWNER"] ∧ initializes args).

Definition confined_create (name : string) (args : list string) : Prop :=
  head args = Some "create" ∧ created_container args = Some name ∧ own_name name ∧
  EPOCH_LABEL +:+ "=" +:+ ct_owner ct ∈ args ∧ SCOPE_LABEL +:+ "=" +:+ EPOCH_SCOPE ∈ args ∧
  "--read-only" ∈ args ∧ "--cap-drop=ALL" ∈ args ∧ "--security-opt=no-new-privileges:true" ∈ args ∧
  ("--network=none" ∈ args ∨ value_after "--network" args = Some (n_network (ct_names ct))) ∧
  Forall (λ m, startswith "type=" m = true → ok_mount m) args ∧ granted args.

(** What an inspection showed *)
Definition labelled (v : value) : Prop :=
  ∃ labels, v = VDict labels ∧ dget EPOCH_LABEL labels = VStr (ct_owner ct) ∧ dget SCOPE_LABEL labels = VStr EPOCH_SCOPE.
Definition container_shown (raw : string) : Prop := ∃ view, json_loads raw = Ok (VDict view) ∧ labelled (dget "labels" view).
Definition volume_shown (name raw : string) : Prop :=
  ∃ view, json_loads raw = Ok (VDict view) ∧ dget "Name" view = VStr name ∧ labelled (dget "Labels" view).
Definition just_shown (pre : list docker_call) (name : string) : Prop :=
  ∃ code raw, last pre = Some (["inspect"; "--format"; VIEW; name], Ok (code, raw)) ∧ container_shown raw.

(** What may be called after the calls [pre] *)
Inductive authorised (pre : list docker_call) : list string → Prop :=
  | may_observe args : observing args = true → authorised pre args
  | may_create_network : authorised pre (["network"; "create"; "--driver"; "bridge"] ++ owner_labels ct ++ [n_network (ct_names ct)])
  | may_create_volume name : name ∈ owned_volumes ct → authorised pre (["volume"; "create"] ++ owner_labels ct ++ [name])
  | may_create name args : confined_create name args → authorised pre args
  | may_start name attach : own_name name → created_before pre name → attach ∈ [[]; ["--attach"]] → authorised pre (["start"] ++ attach ++ [name])
  | may_exec name args : name ∈ [n_source_pg (ct_names ct); n_target_pg (ct_names ct); n_restore_pg (ct_names ct)] → created_before pre name → authorised pre (["exec"; name] ++ args)
  | may_wait name : own_name name → created_before pre name → authorised pre ["wait"; name]
  | may_stop name : own_name name → created_before pre name ∨ just_shown pre name → authorised pre ["stop"; "--time=15"; name]
  | may_remove name : own_name name → created_before pre name → authorised pre ["rm"; name]
  | may_remove_clone name : own_name name → just_shown pre name → authorised pre ["rm"; "-f"; name]
  | may_remove_volume name code raw :
      name ∈ owned_volumes ct → last pre = Some (["volume"; "inspect"; "--format"; "{{json .}}"; name], Ok (code, raw)) → volume_shown name raw →
      authorised pre ["volume"; "rm"; name].

Definition authorised_calls (l : list docker_call) : Prop := ∀ pre args a post, l = pre ++ (args, a) :: post → authorised pre args.

Lemma authority_call l args a : authorised_calls l → authorised l args → authorised_calls (l ++ [(args, a)]).
Proof.
  intros Hl Ha pre args' a' post. destruct post as [|e post _] using rev_ind.
  - intros [-> [= -> ->]]%app_inj_tail. exact Ha.
  - rewrite app_comm_cons, app_assoc. intros [Heq _]%app_inj_tail. by eapply Hl.
Qed.

(** ** Assertions on the calls made *)
Definition later (s s' : epoch) : Prop := ∃ l, calls s' = calls s ++ l.
Class Stable (Q : epoch → Prop) : Prop := stable s s' : later s s' → Q s → Q s'.

Definition made (name : string) (s : epoch) : Prop := created_before (calls s) name.
#[global] Instance stable_true : Stable (λ _, True).
Proof. done. Qed.
#[global] Instance stable_and Q R `{!Stable Q, !Stable R} : Stable (λ s, Q s ∧ R s).
Proof. intros s s' H [H1 H2]. split; by eapply stable. Qed.
#[global] Instance stable_made name : Stable (made name).
Proof. intros s s' [l Hl] (args & x & Hc & Hn). exists args, x. rewrite Hl. split; [by apply elem_of_app; left|done]. Qed.

Definition safe (Q : epoch → Prop) (s : epoch) : Prop := authorised_calls (calls s) ∧ Q s.

(** An assertion that only looks at the calls *)
Definition quiet (P : epoch → Prop) : Prop := ∀ s s', calls s' = calls s → P s → P s'.
Lemma safe_quiet Q `{!Stable Q} : quiet (safe Q).
Proof. intros s s' H [H1 H2]. split; [by rewrite H|]. eapply stable; [|exact H2]. exists []. by rewrite app_nil_r. Qed.

Lemma safe_weaken Q R s : safe (λ s, Q s ∧ R s) s → safe Q s.
Proof. intros [? []]. by split. Qed.
End Spec.

(** ** One command *)
Section Controller.
Context (env : environment eres) (fuel : nat) (ct : controller) (type_name : exc → string) (casefold : string → string).
Context (vrp : string → value → result unit).

Notation safe := (safe ct).
Notation docker_with := (docker_with env ct type_name).
Notation owner := (ct_owner ct).
Notation nm := (ct_names ct).

Lemma calls_elog e s : calls (elog e s) = calls s ++ option_list (native e).
Proof. unfold calls, elog. cbn. rewrite omap_app. cbn. by destruct (native e). Qed.

Lemma keeps_quiet_eask (P : epoch → Prop) o : quiet P → (∀ a, native (Ev o a) = None) → keeps P (eask env o).
Proof.
  intros HP Ho s Hs. unfold eask, perform. cbn. apply (HP s); [|done]. rewrite calls_elog, Ho. cbn. by rewrite app_nil_r.
Qed.

Lemma keeps_quiet_modify (P : epoch → Prop) (f : epoch → epoch) : quiet P → (∀ s, ep_hist (f s) = ep_hist s) → keeps P (modify f).
Proof. intros HP Hf. apply keeps_modify. intros s. apply HP. unfold calls. by rewrite Hf. Qed.

Lemma keeps_rej {A} P msg : keeps P (rej (A:=A) msg).
Proof. apply keeps_throw. Qed.
Lemma keeps_rej_if P b msg : keeps P (rej_if b msg).
Proof. apply keeps_throw_if. Qed.
Lemma keeps_rej_ifR P c msg : keeps P (rej_ifR c msg).
Proof. apply keeps_liftR. Qed.

(** A guard that is passed *)
Lemma post_guard {A} (P QE : epoch → Prop) QR b msg (f : unit → M epoch A) :
  (∀ s, P s → QE s) → (b = false → post P (f tt) (ends QR QE)) → post P (rej_if b msg ≫= f) (ends QR QE).
Proof. intros HE Hf. destruct b; [intros s Hs; by apply HE|by apply Hf]. Qed.
Lemma keeps_guard {A} P b msg (f : unit → M epoch A) : (b = false → keeps P (f tt)) → keeps P (rej_if b msg ≫= f).
Proof. intros Hf. destruct b; [by intros s Hs|by apply Hf]. Qed.

Lemma keeps_docker_failed {A} P args e : quiet P → keeps P (docker_failed (A:=A) env ct type_name args e).
Proof.
  intros HP. unfold docker_failed. apply keeps_bind; [|intros; apply keeps_rej].
  apply keeps_try; [by apply keeps_quiet_eask|intros ?; apply keeps_ret].
Qed.

(** What follows from a command that may be called *)
Lemma docker_post Q `{!Stable Q} args seconds allow (P : epoch → Prop) :
  (∀ s, safe Q s → P s → authorised ct (calls s) args) →
  post (λ s, safe Q s ∧ P s) (docker_with args seconds allow)
    (ends (λ raw s, safe Q s ∧ ∃ pre code, calls s = pre ++ [(args, Ok (code, raw))]) (safe Q)).
Proof.
  intros Ha. unfold docker_with. apply post_guard; [by intros s []|]. intros _ s [Hs HP].
  unfold try_except. match goal with |- context[match ?x s with _ => _ end] => set (m := x) end.
  set (a := env (ep_hist s) (ENative args (ct_deadline ct) (fz seconds) allow)). set (s1 := elog (Ev _ a) s).
  assert (m s = (match a with Ok x => Ret x.2 | Err e => Exn e end, s1)) as ->.
  { unfold m, eask, perform, mbind, M_bind. fold a s1. by destruct a as [[]|]. }
  assert (calls s1 = calls s ++ [(args, a)]) as Hc by (subst s1; by rewrite calls_elog).
  assert (safe Q s1) as Hs1.
  { split; [|eapply stable; [by eexists|apply Hs]]. rewrite Hc. apply authority_call; [apply Hs|by apply Ha]. }
  clearbody a s1. destruct a as [[code raw]|e]; cbn [snd ends fst]; [by eauto|].
  destruct (is_exception (exc_cls e)); [|done].
  pose proof (keeps_docker_failed (A:=string) (safe Q) args e (safe_quiet ct Q) s1 Hs1) as Hk.
  destruct (docker_failed _ _ _ args e s1) as [[x|e'|] s2] eqn:E; [|done..].
  unfold docker_failed in E. apply bind_Ret in E as (? & ? & _ & E). by apply throw_Ret in E.
Qed.

Lemma keeps_docker Q `{!Stable Q} args seconds allow :
  (∀ pre, authorised ct pre args) → keeps (safe Q) (docker_with args seconds allow).
Proof.
  intros Ha. eapply post_weaken; [apply (docker_post Q args seconds allow (λ _, True)); auto|done|].
  by intros [raw|e|] s; cbn; [intros []|..].
Qed.

Lemma keeps_look Q `{!Stable Q} args seconds allow : observing args = true → keeps (safe Q) (docker_with args seconds allow).
Proof. intros H. apply keeps_docker; [done|]. intros pre. by apply may_observe. Qed.

Lemma keeps_made Q `{!Stable Q} name args seconds allow :
  (∀ pre, created_before pre name → authorised ct pre args) → keeps (safe (λ s, Q s ∧ made name s)) (docker_with args seconds allow).
Proof.
  intros Ha. eapply post_weaken; [eapply (docker_post (λ s, Q s ∧ made name s) args seconds allow (λ _, True))|by intros s H|].
  - intros s [_ [_ H]] _. by apply Ha.
  - by intros [raw|e|] s; cbn; [intros []|..].
Qed.

(** A creation *)
Lemma docker_creates Q `{!Stable Q} name args seconds allow :
  confined_create ct name args →
  post (safe Q) (docker_with args seconds allow) (ends (λ _, safe (λ s, Q s ∧ made name s)) (safe Q)).
Proof.
  intros Hc. eapply post_weaken; [apply (docker_post Q args seconds allow (λ _, True))|done|].
  - intros s _ _. by eapply may_create.
  - intros [raw|e|] s; cbn; [|done..]. intros [[H1 H2] (pre & code & Hl)]. split; [done|]. split; [done|].
    exists args, (code, raw). rewrite Hl. split; [apply elem_of_app; right; by left|]. apply Hc.
Qed.

(** What was kept up to here is kept with less. *)
Lemma keeps_drop {A} Q R (m : M epoch A) :
  keeps (safe (λ s, Q s ∧ R s)) m → post (safe (λ s, Q s ∧ R s)) m (ends (λ _, safe (λ s, Q s ∧ R s)) (safe Q)).
Proof. intros H. apply post_keeps; [done|]. intros s. apply safe_weaken. Qed.

#[local] Hint Resolve keeps_rej keeps_rej_if keeps_rej_ifR : keeps.
#[local] Hint Extern 1 (keeps (safe _) (eask _ _)) => (apply keeps_quiet_eask; [apply safe_quiet; apply _|done]) : keeps.
#[local] Hint Extern 1 (keeps (safe _) (modify _)) => (apply keeps_quiet_modify; [apply safe_quiet; apply _|done]) : keeps.
#[local] Hint Extern 1 (keeps (safe _) (EpochDocker.docker_with _ _ _ _ _ _)) => (apply keeps_look; [apply _|reflexivity]) : keeps.

Lemma keeps_inspect Q `{!Stable Q} name : keeps (safe Q) (inspect_container env ct type_name name).
Proof. unfold inspect_container, docker. keeps_walk. Qed.
#[local] Hint Extern 1 (keeps (safe _) (inspect_container _ _ _ _)) => (apply keeps_inspect; apply _) : keeps.

Lemma keeps_tmpfs Q `{!Stable Q} name : keeps (safe Q) (tmpfs_of env ct type_name name).
Proof. unfold tmpfs_of, docker. keeps_walk. Qed.
#[local] Hint Extern 1 (keeps (safe _) (tmpfs_of _ _ _ _)) => (apply keeps_tmpfs; apply _) : keeps.

Lemma keeps_legacy Q `{!Stable Q} id : keeps (safe Q) (assert_legacy_sources_stopped env ct type_name id).
Proof. unfold assert_legacy_sources_stopped, legacy_snapshot. keeps_walk. Qed.

Lemma keeps_create_network Q `{!Stable Q} : keeps (safe Q) (create_network env ct type_name).
Proof.
  unfold create_network, push_created, docker. keeps_step; [apply keeps_docker; [apply _|]; intros pre; apply may_create_network|]. keeps_walk.
Qed.

Lemma keeps_epoch_volume Q `{!Stable Q} name : keeps (safe Q) (create_volume env ct type_name name).
Proof.
  unfold create_volume, push_created, docker. apply keeps_guard. intros Hn%negb_false_iff%bool_decide_eq_true.
  keeps_step; [apply keeps_docker; [apply _|]; intros pre; by apply may_create_volume|]. keeps_walk.
Qed.

(** ** The creations *)
Lemma ok_plain m : plain_word m → ok_argument ct m.
Proof. intros [H Hg]. split; [congruence|done]. Qed.

Lemma ok_type m : (startswith "type=" m = true → ok_mount ct m) → grant m = false → ok_argument ct m.
Proof. by split. Qed.

Lemma ok_volume volume rest :
  volume ∈ owned_volumes ct → startswith ",dst=" rest = true → ok_argument ct ("type=volume,src=" +:+ volume +:+ rest).
Proof. intros H Hr. apply ok_type; [|done]. intros _. left. apply prefix_app in Hr as [d ->]. eauto. Qed.

Lemma ok_readonly source rest : endswith ",readonly" rest = true → ok_argument ct ("type=bind,src=" +:+ source +:+ rest).
Proof.
  intros Hr. apply ok_type; [|done]. intros _. right. split; [done|]. left. apply endswith_split in Hr. rewrite Hr, !app_assoc_str. apply endswith_app.
Qed.

Lemma own_head name : own_name ct name → ∃ rest, name = String "k" rest.
Proof.
  unfold own_name, owned_prefix, owned. cbn [String.append]. intros [rest ->]%prefix_app. by eexists.
Qed.

Lemma own_plain name : own_name ct name → plain_word name.
Proof. intros [rest ->]%own_head. done. Qed.

Lemma own_not_option name option : own_name ct name → startswith "-" option = true → String.eqb name option = false.
Proof. by intros [rest ->]%own_head [o ->]%prefix_app. Qed.

Lemma own_suffix suffix : own_name ct (owned owner (String "-" suffix)).
Proof.
  unfold own_name, owned_prefix, owned, startswith. rewrite (app_assoc_str "kairos-epoch-"), (app_assoc_str "kairos-epoch-").
  generalize ("kairos-epoch-" +:+ stake 12 owner). intros p. induction p as [|c p IH]; [by destruct suffix|].
  cbn [String.append String.prefix]. by destruct (Ascii.ascii_dec c c).
Qed.

Lemma filter_false (P : string → bool) (l : list string) : Forall (λ m, P m = false) l → filter (λ m, P m = true) l = [].
Proof. induction 1 as [|m l Hm _ IH]; [done|]. by rewrite filter_cons_False by congruence. Qed.

Lemma ok_confined args : Forall (ok_argument ct) args → Forall (λ m, startswith "type=" m = true → ok_mount ct m) args ∧ granted ct args.
Proof.
  intros H. split; [eapply Forall_impl; [exact H|]; by intros m []|]. left. apply filter_false. eapply Forall_impl; [exact H|]. by intros m [].
Qed.

Ltac ok_arguments := repeat first
  [ assumption
  | apply Forall_nil; exact I
  | apply Forall_app; split
  | apply Forall_cons; split; [first [assumption | apply ok_plain; first [by split|assumption] | apply ok_readonly; reflexivity | apply ok_volume; [assumption|reflexivity] | by apply ok_plain, own_plain]|] ].

Lemma create_confined name image sh :
  own_name ct name → plain_word image → Forall (ok_argument ct) (sh_options sh) → Forall (ok_argument ct) (sh_command sh) →
  Forall (ok_argument ct) (sh_tmpfs sh) → match sh_user sh with Some u => plain_word u | None => True end →
  confined_create ct name (create_arguments ct name image sh).
Proof.
  intros Hn Hi Ho Hc Ht Hu. assert (Forall (ok_argument ct) (create_arguments ct name image sh)) as [Hm Hg]%ok_confined.
  { unfold create_arguments, owner_labels. cbn [app]. ok_arguments.
    - destruct (sh_user sh) as [u|]; [|by constructor]. destruct (String.eqb u ""); [by constructor|]. ok_arguments.
    - induction Ht as [|t l Ht Hl IH]; [by constructor|]. cbn [fmap list_fmap mjoin list_join app]. ok_arguments. }
  unfold confined_create. split; [done|]. split; [done|]. split; [done|]. split_and!; [member..|right|done|done].
  unfold create_arguments. cbn [app value_after]. rewrite (own_not_option name "--network") by done. reflexivity.
Qed.

Lemma initializer_own uid : own_name ct (initializer_name ct uid).
Proof.
  unfold initializer_name. unfold owned. rewrite <- !app_assoc_str. apply (own_suffix (_ +:+ _)).
Qed.

Ltac none_of := repeat (apply Forall_cons; split; [first [reflexivity|assumption]|]); apply Forall_nil; exact I.
Lemma filter_around (P : string → bool) (a m b : list string) :
  Forall (λ x, P x = false) a → Forall (λ x, P x = true) m → Forall (λ x, P x = false) b → filter (λ x, P x = true) (a ++ m ++ b) = m.
Proof.
  intros Ha Hm Hb. rewrite !filter_app, (filter_false P a), (filter_false P b), app_nil_r by done. cbn [app].
  induction Hm as [|x m Hx _ IH]; [done|]. by rewrite filter_cons_True, IH.
Qed.

Lemma initializer_confined name uid : name ∈ owned_volumes ct → confined_create ct (initializer_name ct uid) (initializer_command ct (initializer_name ct uid) name uid).
Proof.
  intros Hn. pose proof (initializer_own uid) as Ho. set (helper := initializer_name ct uid) in *. clearbody helper.
  destruct (own_plain _ Ho) as [H1 H2]. set (args := initializer_command ct helper name uid).
  assert (filter (λ m, startswith "type=" m = true) args = ["type=volume,src=" +:+ name +:+ ",dst=/owned"]) as Ht.
  { apply (filter_around (startswith "type=") (take 22 args) ["type=volume,src=" +:+ name +:+ ",dst=/owned"] (drop 23 args)); none_of. }
  assert (filter (λ m, grant m = true) args = ["--cap-add=CHOWN"; "--cap-add=FOWNER"]) as Hg.
  { apply (filter_around grant (take 8 args) ["--cap-add=CHOWN"; "--cap-add=FOWNER"] (drop 10 args)); none_of. }
  unfold confined_create. split; [done|]. split; [done|]. split; [done|].
  assert ("--network=none" ∈ args) as Hnet by (unfold args; member).
  split_and!; [unfold args; member..|by left| |].
  - apply Forall_forall. intros m Hm Hty. assert (m ∈ filter (λ m, startswith "type=" m = true) args) as Hf by (by apply list_elem_of_filter).
    rewrite Ht in Hf. apply list_elem_of_singleton in Hf as ->. left. by exists name, "/owned".
  - right. split; [done|]. split; [done|]. by exists name.
Qed.

Lemma keeps_initialize_volume Q `{!Stable Q} name uid : keeps (safe Q) (initialize_volume env ct type_name name uid).
Proof.
  unfold initialize_volume, push_created, docker. apply keeps_guard. intros [Hn _]%orb_false_iff.
  apply negb_false_iff, bool_decide_eq_true in Hn. cbv zeta. do 2 (keeps_step; [keeps_walk|]).
  set (helper := initializer_name ct uid). unfold keeps.
  eapply post_weaken; [eapply (post_step _ _ (λ _, safe Q) (safe Q)); [apply docker_creates; [apply _|by apply initializer_confined]|]|done|by intros []].
  intros raw. cbn beta. eapply post_weaken; [apply (keeps_drop Q (made helper))|done|intros [] s; cbn; [apply safe_weaken|done..]].
  keeps_step; [keeps_walk|].
  keeps_step; [apply keeps_made; [apply _|]; intros pre Hp; apply (may_start _ pre helper ["--attach"]); [apply initializer_own|done|member]|].
  keeps_walk. apply keeps_made; [apply _|]. intros pre Hp. apply may_remove; [apply initializer_own|done].
Qed.

Lemma create_container_post Q `{!Stable Q} name image sh :
  (own_name ct name → confined_create ct name (create_arguments ct name image sh)) →
  post (safe Q) (_create_container env ct type_name name image sh) (ends (λ _, safe (λ s, Q s ∧ made name s)) (safe Q)).
Proof.
  intros Hc. unfold _create_container, push_created, docker. apply post_guard; [done|]. intros Hn%negb_false_iff.
  apply post_guard; [done|]. intros _.
  eapply post_step; [apply docker_creates; [apply _|by apply Hc]|]. intros raw. cbn beta. apply keeps_drop.
  do 5 (keeps_step; [keeps_walk|]). keeps_walk. apply keeps_made; [apply _|]. intros pre Hp. apply (may_start _ pre name []); [done|done|member].
Qed.

Lemma keeps_create_container Q `{!Stable Q} name image sh :
  (own_name ct name → confined_create ct name (create_arguments ct name image sh)) → keeps (safe Q) (_create_container env ct type_name name image sh).
Proof.
  intros Hc. eapply post_weaken; [by apply create_container_post|done|]. intros [] s; cbn; [apply safe_weaken|done..].
Qed.

Lemma keeps_mount_set Q `{!Stable Q} name expected : keeps (safe Q) (require_mount_set env ct type_name casefold name expected).
Proof. unfold require_mount_set. keeps_walk. Qed.

Lemma create_database_post Q `{!Stable Q} name volume password_path database extra watchdog :
  volume ∈ owned_volumes ct → Forall (ok_argument ct) extra →
  post (safe Q) (create_database env ct type_name casefold name volume password_path database extra watchdog)
    (ends (λ _, safe (λ s, Q s ∧ made name s)) (safe Q)).
Proof.
  intros Hv He. unfold create_database. do 2 (eapply post_step; [apply post_keeps; [solve [keeps_walk]|done]|intros ?; cbn beta]).
  eapply post_step; [apply post_liftR; intros s H; exact H|]. intros [options command] s0 [Hopt H0]. revert s0 H0.
  assert (Forall (ok_argument ct) options ∧ Forall (ok_argument ct) command) as [Ho Hc].
  { destruct watchdog as [w|]; [|injection Hopt as <- <-; split; unfold PG_COMMAND; ok_arguments].
    unfold reject_if in Hopt. ok_inv Hopt. split; ok_arguments. }
  eapply post_step.
  - apply create_container_post; [apply _|]. intros Hn. apply create_confined; cbn [sh_options sh_command sh_tmpfs sh_user]; try done.
    + unfold database_options. cbn [app]. ok_arguments.
    + ok_arguments.
  - intros []. cbn beta. apply keeps_drop. keeps_walk. by apply keeps_mount_set; apply _.
Qed.

(** A command in a database that was created before *)
Lemma keeps_exec Q `{!Stable Q} container args seconds allow :
  container ∈ [n_source_pg nm; n_target_pg nm; n_restore_pg nm] →
  keeps (safe (λ s, Q s ∧ made container s)) (docker_with (["exec"; container] ++ args) seconds allow).
Proof. intros H. apply keeps_made; [apply _|]. intros pre Hp. by apply may_exec. Qed.

Lemma keeps_poll {A} Q `{!Stable Q} seconds margin (body : M epoch (option A)) msg :
  keeps (safe Q) body → keeps (safe Q) (poll env fuel ct seconds margin body msg).
Proof. intros H. unfold poll. keeps_walk. Qed.

Lemma keeps_wait_postgres Q `{!Stable Q} name :
  name ∈ [n_source_pg nm; n_target_pg nm; n_restore_pg nm] → keeps (safe (λ s, Q s ∧ made name s)) (wait_postgres env fuel ct type_name name).
Proof.
  intros H. unfold wait_postgres. apply keeps_poll; [apply _|]. keeps_step; [by apply (keeps_exec Q name)|]. keeps_walk.
Qed.

Lemma keeps_restore Q `{!Stable Q} container database :
  container ∈ [n_source_pg nm; n_target_pg nm; n_restore_pg nm] → keeps (safe (λ s, Q s ∧ made container s)) (restore_accepted_dump env ct type_name container database).
Proof.
  intros H. unfold restore_accepted_dump, docker_for, psql. repeat (keeps_step; [by apply (keeps_exec Q container)|]). keeps_walk.
Qed.

Lemma keeps_create_redis Q `{!Stable Q} acl_path volume :
  volume ∈ owned_volumes ct → keeps (safe Q) (create_redis env ct type_name casefold acl_path volume).
Proof.
  intros Hv. unfold create_redis. do 2 (keeps_step; [keeps_walk|]). keeps_step.
  - apply keeps_create_container; [apply _|]. intros Hn. apply create_confined; cbn [sh_options sh_command sh_tmpfs sh_user]; try done.
    + ok_arguments.
    + unfold REDIS_COMMAND. ok_arguments.
    + ok_arguments.
  - by apply keeps_mount_set.
Qed.

(** ** Inspections that show an owner *)
(** The last call was the inspection that [view] was read from. *)
Definition shows (name : string) (view : dict) (s : epoch) : Prop :=
  ∃ code raw, last (calls s) = Some (["inspect"; "--format"; VIEW; name], Ok (code, raw)) ∧
  ∃ d, json_loads raw = Ok (VDict d) ∧ dget "labels" d = dget "labels" view.

Lemma inspected_post Q `{!Stable Q} name :
  post (safe Q) (inspect_container env ct type_name name) (ends (λ view s, safe Q s ∧ shows name view s) (safe Q)).
Proof.
  unfold inspect_container, docker. eapply post_step.
  { eapply post_weaken; [apply (docker_post Q ["inspect"; "--format"; VIEW; name] 20 false (λ _, True))|done|intros r s H; exact H].
    intros s _ _. by apply may_observe. }
  intros raw s [Hs (pre & code & Hl)]. unfold mbind, M_bind. destruct (json_loads raw) as [v|e] eqn:Hv; [|done]. cbn.
  destruct (normalize_container_metadata v) as [view|e] eqn:Hn; [|done]. cbn. split; [done|].
  exists code, raw. split; [by rewrite Hl, last_snoc|].
  destruct v as [| | | | | | | |d]; try discriminate Hn. exists d. split; [done|].
  unfold normalize_container_metadata in Hn. destruct (dget "mounts" d); try discriminate Hn. ok_inv Hn.
  unfold dget. by rewrite dlookup_dset.
Qed.

Lemma owner_labelled_true labels : owner_labelled owner (or_dict labels) = Ok true → labelled ct labels.
Proof.
  unfold owner_labelled. intros H. ok_inv H. bool_inv. apply py_eq_str in H, H0. subst.
  unfold or_dict, py_or in *. destruct (py_truthy labels) eqn:Ht.
  - destruct labels; try discriminate Hok. unfold py_get, py_getd in *. injection Hok as Hok. injection Hok0 as Hok0. by eexists.
  - unfold py_get, py_getd in *. cbn in Hok. discriminate Hok.
Qed.

(** An inspection that passes the check of the labels *)
Definition shown_last (name : string) (s : epoch) : Prop := just_shown ct (calls s) name.

Lemma shown_of_view Q name code raw d view :
  json_loads raw = Ok (VDict d) → dget "labels" d = dget "labels" view → owner_labelled owner (or_dict (dget "labels" view)) = Ok true →
  ∀ s, safe Q s → last (calls s) = Some (["inspect"; "--format"; VIEW; name], Ok (code, raw)) → shown_last name s.
Proof.
  intros Hd He Ho s _ Hl. exists code, raw. split; [done|]. exists d. split; [done|]. rewrite He. by apply owner_labelled_true.
Qed.

(** ** Workers *)
Lemma keeps_all_ask Q (l : list (M epoch bool)) : Forall (keeps (safe Q)) l → keeps (safe Q) (all_ask l).
Proof. induction 1 as [|m l Hm Hl IH]; cbn [all_ask]; [keeps_walk|]. keeps_step; [done|]. keeps_walk. Qed.

Ltac each_keeps := repeat first [apply Forall_nil; exact I | apply Forall_cons; split; [solve [auto with keeps nocore]|]].

Lemma keeps_worker_inputs Q `{!Stable Q} config_path output_dir : keeps (safe Q) (worker_inputs env ct config_path output_dir).
Proof.
  unfold worker_inputs. keeps_step; [keeps_walk|]. keeps_step.
  { apply keeps_all_ask. each_keeps. }
  do 3 (keeps_step; [keeps_walk|]). destruct (ct_operator ct), (ct_quant ct), (ct_wheelhouse ct); keeps_walk.
  apply keeps_all_ask. each_keeps.
Qed.

Lemma worker_own mode suffix : own_name ct (worker_name ct mode suffix).
Proof.
  unfold worker_name. destruct (String.eqb mode "serve"); [apply own_suffix|].
  destruct (ct_attempt ct) as [a|]; [destruct (String.eqb a "")|]; apply own_suffix.
Qed.

Lemma worker_script_plain mode script : worker_script ct mode = Ok script → plain_word script.
Proof. unfold worker_script. intros H. ok_inv H. by subst. Qed.

Context (Himage : plain_word (ct_worker_image ct)).

Lemma ok_output name : ok_argument ct ("type=bind,src=" +:+ path_text (in_work ct name) +:+ ",dst=/output").
Proof. apply ok_type; [|done]. intros _. right. split; [done|]. right. eauto. Qed.

Lemma start_worker_post Q `{!Stable Q} name mode config_path output :
  own_name ct name →
  post (safe Q) (start_worker env ct type_name casefold name mode config_path (in_work ct output))
    (ends (λ _, safe (λ s, Q s ∧ made name s)) (safe Q)).
Proof.
  intros Hn. unfold start_worker. eapply post_step; [apply post_keeps; [by apply keeps_worker_inputs|done]|].
  intros [[operator quant] wheelhouse]. eapply post_step; [apply post_liftR; intros s H; exact H|].
  intros script. eapply post_step.
  { intros s [Hs%worker_script_plain H]. revert s H. apply create_container_post; [apply _|]. intros _.
    apply create_confined; cbn [sh_options sh_command sh_tmpfs sh_user]; try done.
    - unfold worker_options, bind. cbn [app]. ok_arguments. apply Forall_cons; split; [apply ok_output|ok_arguments].
    - ok_arguments.
    - ok_arguments. }
  intros []. cbn beta. apply keeps_drop. unfold docker. repeat (keeps_step; [solve [keeps_walk]|]).
  keeps_step; [apply keeps_made; [apply _|]; intros pre Hp; apply (may_start _ pre name []); [done|done|member]|]. keeps_walk.
Qed.

Lemma keeps_drop_created Q `{!Stable Q} name : keeps (safe Q) (drop_created name).
Proof. unfold drop_created. keeps_walk. Qed.

Lemma run_worker_post Q `{!Stable Q} mode config_path output suffix :
  post (safe Q) (run_worker env ct type_name casefold mode config_path (in_work ct output) suffix)
    (ends (λ _, safe (λ s, Q s ∧ made (worker_name ct mode suffix) s)) (safe Q)).
Proof.
  pose proof (worker_own mode suffix) as Hn. unfold run_worker. cbv zeta. set (name := worker_name ct mode suffix) in *. clearbody name.
  eapply post_step; [by apply start_worker_post|]. intros []. cbn beta. apply keeps_drop.
  destruct (String.eqb mode "serve"); [keeps_walk|]. unfold docker_for, docker.
  keeps_step; [apply keeps_made; [apply _|]; intros pre Hp; by apply may_wait|].
  repeat (keeps_step; [solve [keeps_walk]|]).
  keeps_step; [apply keeps_made; [apply _|]; intros pre Hp; by apply may_remove|].
  keeps_step; [by apply keeps_drop_created; apply _|]. keeps_walk.
Qed.

Lemma phase_post Q `{!Stable Q} mode config suffix :
  post (safe Q) (phase env ct type_name casefold vrp mode config suffix)
    (ends (λ _, safe (λ s, Q s ∧ made (worker_name ct mode suffix) s)) (safe Q)).
Proof.
  unfold phase. cbv zeta.
  repeat (eapply post_step; [apply post_keeps; [solve [keeps_walk]|done]|intros ?; cbn beta]).
  eapply post_step; [by apply run_worker_post|]. intros receipt. cbn beta. apply keeps_drop. keeps_walk.
Qed.

Lemma keeps_phase Q `{!Stable Q} mode config suffix : keeps (safe Q) (phase env ct type_name casefold vrp mode config suffix).
Proof. eapply post_weaken; [by apply phase_post|done|]. intros [] s; cbn; [apply safe_weaken|done..]. Qed.

(** ** Removal and stopping *)
(** A call right after such an inspection *)
Lemma after_shown Q `{!Stable Q} name args seconds allow :
  (∀ pre, just_shown ct pre name → authorised ct pre args) →
  post (λ s, safe Q s ∧ shown_last name s) (docker_with args seconds allow) (ends (λ _, safe Q) (safe Q)).
Proof.
  intros Ha. eapply post_weaken; [apply (docker_post Q args seconds allow (shown_last name)); intros s _; apply Ha|done|].
  by intros [raw|e|] s; cbn; [intros []|..].
Qed.

Lemma labels_post Q name view msg :
  post (λ s, safe Q s ∧ shows name view s)
    (rej_ifR (o ← owner_labelled owner (or_dict (dget "labels" view)); Ok (negb o)) msg)
    (ends (λ _ s, safe Q s ∧ shown_last name s) (safe Q)).
Proof.
  intros s [Hs (code & raw & Hl & d & Hd & He)]. unfold rej_ifR, liftR.
  destruct (raise_ifR _ _ _) as [u|] eqn:E; [|done]. apply raise_ifR_Ok in E. cbn. split; [done|].
  apply bind_Ok in E as (o & Ho & [= Hb]). destruct o; [|done]. by eapply shown_of_view.
Qed.

Lemma volume_differs_false name v : volume_differs ct name v = Ok false → ∃ view, v = VDict view ∧ dget "Name" view = VStr name ∧ labelled ct (dget "Labels" view).
Proof.
  unfold volume_differs. intros H. apply bind_Ok in H as (labels & Hl & H). apply orR_Ok_false in H as [Hn Ho].
  destruct v as [| | | | | | | |view]; try discriminate Hl. exists view. split; [done|].
  unfold py_get, py_getd in *. cbn in Hl, Hn. injection Hl as <-. split.
  - injection Hn as Hn. apply negb_false_iff in Hn. by apply py_eq_str in Hn.
  - apply bind_Ok in Ho as (o & Ho & [= Hb]). destruct o; [|done]. by apply owner_labelled_true.
Qed.

Definition volume_shown_last (name : string) (s : epoch) : Prop :=
  ∃ code raw, last (calls s) = Some (["volume"; "inspect"; "--format"; "{{json .}}"; name], Ok (code, raw)) ∧ volume_shown ct name raw.

Lemma remove_volume_post Q `{!Stable Q} volume (f : epoch → epoch) :
  volume ∈ owned_volumes ct → (∀ s, ep_hist (f s) = ep_hist s) →
  keeps (safe Q) (raw ← docker_with ["volume"; "inspect"; "--format"; "{{json .}}"; volume] 20 false;
    volume_view ← liftR (json_loads raw);
    rej_ifR (volume_differs ct volume volume_view) "OWNED_DISPOSABLE_VOLUME_REQUIRED_FOR_CLEANUP";;
    _ ← docker_with ["volume"; "rm"; volume] 20 false; modify f).
Proof.
  intros Hv Hf. eapply post_weaken; [eapply (post_step _ _ (λ _, safe Q) (safe Q))|done|by intros []].
  { eapply post_weaken; [apply (docker_post Q ["volume"; "inspect"; "--format"; "{{json .}}"; volume] 20 false (λ _, True))|done|intros r s H; exact H].
    intros s _ _. by apply may_observe. }
  intros raw. cbn beta. eapply post_step; [apply post_liftR; by intros s []|]. intros view.
  eapply (post_step _ (λ _ s, safe Q s ∧ volume_shown_last volume s)).
  { intros s (Hj & Hs & pre & code & Hl). unfold rej_ifR, liftR. destruct (raise_ifR _ _ _) as [u|] eqn:E; [|done].
    apply raise_ifR_Ok in E. cbn. split; [done|]. apply volume_differs_false in E as (d & -> & H1 & H2).
    exists code, raw. split; [by rewrite Hl, last_snoc|]. by exists d. }
  intros []. eapply (post_step _ (λ _, safe Q)).
  - eapply post_weaken; [apply (docker_post Q ["volume"; "rm"; volume] 20 false (volume_shown_last volume))|done|].
    + intros s _ (code & raw' & Hl & Hsh). by eapply may_remove_volume.
    + by intros [raw'|e|] s; cbn; [intros []|..].
  - intros raw'. apply post_keeps; [|done]. apply keeps_quiet_modify; [by apply safe_quiet|done].
Qed.

Lemma keeps_remove_clone Q `{!Stable Q} container volume :
  own_name ct container → volume ∈ owned_volumes ct → keeps (safe Q) (remove_owned_clone env ct type_name container volume).
Proof.
  intros Hc Hv. unfold remove_owned_clone, docker.
  eapply post_weaken; [eapply (post_step _ _ (λ _, safe Q) (safe Q)); [by apply inspected_post|]|done|by intros []].
  intros view. cbn beta. eapply post_step; [apply labels_post|]. intros [].
  eapply post_step; [apply after_shown; [apply _|]; intros pre Hp; by apply may_remove_clone|]. intros raw. cbn beta.
  apply post_keeps; [|done]. keeps_step; [keeps_walk|]. by apply remove_volume_post.
Qed.

Lemma after_labels Q `{!Stable Q} name view args seconds allow :
  owner_labelled owner (or_dict (dget "labels" view)) = Ok true → (∀ pre, just_shown ct pre name → authorised ct pre args) →
  post (λ s, safe Q s ∧ shows name view s) (docker_with args seconds allow) (ends (λ _, safe Q) (safe Q)).
Proof.
  intros Ho Ha. eapply post_weaken; [by apply (after_shown Q name)| |done].
  intros s [Hs (code & raw & Hl & d & Hd & He)]. split; [done|]. by eapply shown_of_view.
Qed.

Lemma try_inspect_post Q `{!Stable Q} cs name :
  post (safe Q) (try_except cs (view ← inspect_container env ct type_name name; mret (Some view)) (λ _, mret None))
    (ends (λ o s, safe Q s ∧ match o with Some view => shows name view s | None => True end) (safe Q)).
Proof.
  intros s Hs. pose proof (inspected_post Q name s Hs) as H. unfold try_except, mbind, M_bind.
  destruct (inspect_container _ _ _ name s) as [[view|e|] s1]; cbn in *; [done| |done]. by destruct (cs (exc_cls e)).
Qed.

Lemma stop_post Q `{!Stable Q} name view cs :
  own_name ct name → owner_labelled owner (or_dict (dget "labels" view)) = Ok true →
  post (λ s, safe Q s ∧ shows name view s)
    (try_except cs (_ ← docker_for env ct type_name 25 ["stop"; "--time=15"; name]; mret tt) (λ _, mret tt)) (λ _, safe Q).
Proof.
  intros Hn Ho. apply (post_try _ (safe Q)); [|intros e; apply keeps_ret|done].
  eapply post_weaken; [eapply (post_step (λ s, safe Q s ∧ shows name view s) (λ _, safe Q) (λ _, safe Q) (safe Q))|done|by intros []].
  - apply (after_labels Q name view); [done|]. intros pre Hp. apply may_stop; [done|by right].
  - intros raw. by apply post_keeps; [apply keeps_ret|].
Qed.

Lemma keeps_stop_candidate Q `{!Stable Q} name : own_name ct name → keeps (safe Q) (stop_candidate env ct type_name name).
Proof.
  intros Hn. unfold stop_candidate. apply (post_bind _ _ _ _ _ (try_inspect_post Q _ name)); [|done|done].
  intros [view|]; [|by intros s []]. intros s [Hs Hsh]. unfold mbind, M_bind, liftR.
  destruct (owner_labelled _ _) as [[|]|] eqn:Ho; cbn; [|done..]. destruct (running view) as [[|]|]; cbn; [|done..].
  by apply (stop_post Q name view is_exception Hn Ho s).
Qed.

Lemma keeps_stop_owned_serve Q `{!Stable Q} : keeps (safe Q) (stop_owned_serve env ct type_name).
Proof.
  unfold stop_owned_serve. apply (post_bind _ _ _ _ _ (try_inspect_post Q _ (n_serve nm))); [|done|done].
  intros [view|]; [|by intros s []]. intros s [Hs Hsh]. unfold mbind, M_bind, liftR, rej_ifR.
  destruct (raise_ifR _ _ _) as [u|] eqn:E; cbn; [|done]. apply raise_ifR_Ok in E. destruct (owner_labelled _ _) as [[|]|] eqn:Ho; try discriminate E.
  destruct (running view) as [[|]|]; cbn; [|done..].
  pose proof (after_labels Q (n_serve nm) view ["stop"; "--time=15"; n_serve nm] 25 false Ho
    ltac:(intros pre Hp; apply may_stop; [apply own_suffix|by right]) s (conj Hs Hsh)) as H.
  unfold docker_for. by destruct (EpochDocker.docker_with _ _ _ _ _ _ s) as [[raw|e|] s1].
Qed.

Lemma keeps_stop_owned Q `{!Stable Q} : keeps (safe Q) (stop_owned_after_failure env ct type_name).
Proof.
  unfold stop_owned_after_failure. keeps_step; [keeps_walk|]. cbv zeta. match goal with |- keeps _ (forM ?l _) => assert (Forall (own_name ct) l) as Hl end.
  { apply Forall_forall. intros n Hn. rewrite sort_str_perm in Hn. apply elem_of_remove_dups, list_elem_of_filter in Hn as [_ Hn].
    apply elem_of_app in Hn as [Hn|Hn]; [|by apply list_elem_of_filter in Hn as []].
    rewrite !elem_of_cons, elem_of_nil in Hn. destruct_or! Hn; try done; subst n; apply own_suffix. }
  induction Hl as [|n l Hn Hl IH]; cbn [forM]; [keeps_walk|]. keeps_step; [by apply keeps_stop_candidate|exact IH].
Qed.

Lemma keeps_restart Q `{!Stable Q} status_path first :
  keeps (safe (λ s, Q s ∧ made (n_serve nm) s)) (restart_serve_and_validate env fuel ct type_name status_path first).
Proof.
  unfold restart_serve_and_validate, docker_for, docker. do 2 (keeps_step; [keeps_walk|]).
  keeps_step; [apply keeps_made; [apply _|]; intros pre Hp; apply may_stop; [apply own_suffix|by left]|].
  do 3 (keeps_step; [keeps_walk|]).
  keeps_step; [apply keeps_made; [apply _|]; intros pre Hp; apply (may_start _ pre (n_serve nm) []); [apply own_suffix|done|member]|].
  apply keeps_poll; [apply _|]. unfold look_restarted. keeps_walk.
Qed.
End Controller.
