(* ===== verification/EpochRun.v ===== *)
(** * One run of the epoch controller ([scripts/runtime_epoch_controller.py])

    The dump of the target and its verification in a disposable restore,
    [run_epoch] from the stopped sources to the restarted server, and what [main]
    does with its outcome.  What [main] does before (admission, lease, private
    directory, secrets, snapshots) is the argument [ct] and [secret]. *)

From stdpp Require Import strings.
From S2P Require Import Prelude PyStr Regex Sha256 PyVal PyTime Json PyBytes Effects EpochRuntime EpochBoot EpochControl EpochDocker.

Local Open Scope string_scope.
Local Open Scope list_scope.
Local Open Scope Z_scope.
Local Open Scope regex_scope.

Definition LEGACY_REDIS_ID : string := "cba271ac26764f553cf8319aff992200226c62d02c9c8ca94db4622afd05147a".
Definition DUMP : string :=
  "D:\Kairos\kairos-deploy\backups\controlled-runtime-transition-20261010\primary-run-78bf32d0ac9e44ca8d4a7e246136db89\primary-after.dump".
Definition ROOT : string := "D:\Kairos\kairos-deploy\backups\runtime-epoch-20261011".
Definition ACTIVE_LEASE : path := Path ROOT "runtime-epoch.active".
Definition DUMP_NAMES : list string :=
  ["epoch-history.dump"; "epoch-history-precontinuation.dump"; "epoch-history-postcatchup.dump"; "epoch-history-bootbefore.dump";
   "epoch-history-bootafter.dump"].
Definition VERIFICATION_MODES : list string :=
  ["verify-restore"; "boot-verify-restore"; "incident-verify-restore"; "r5-verify-restore"; "r6-verify-restore"; "r7-verify-restore"].

(** ** The seed and its anchors *)
Definition seed_count (symbol : string) : Z := if String.eqb symbol "XRPUSDT" then 34632 else 34633.
Definition SEED_LAST_OPEN : Z := 1789832580000.

(** The checks of the seed's receipt *)
Definition accepted_anchor (kv : string * value) : result unit :=
  let differs key n := v ← py_get key kv.2; Ok (negb (py_eq v (VInt n))) in
  reject_ifR (differs "count" (seed_count kv.1)
              ||? differs "first_open_time_ms" (SEED_LAST_OPEN - (seed_count kv.1 - 1) * MINUTE_MS)
              ||? differs "last_open_time_ms" SEED_LAST_OPEN
              ||? differs "last_close_time_ms" (SEED_LAST_OPEN + MINUTE_MS - 1)) "EXACT_ACCEPTED_FIVE_SYMBOL_SEED_REQUIRED".
Definition accepted_seed (seed : value) : result dict :=
  match seed with
  | VDict s =>
      match dget "anchors" s with
      | VDict anchors =>
          _ ← reject_if (negb (py_eq (dget "target_outbox_rows_after" s) (VInt 0)) || negb (py_eq (dget "rows" s) (VInt (zsum (seed_count <$> SYMBOLS))))
                         || negb (hex_text 64 (dgetd "ordered_digest_sha256" (VStr "") s)) || negb (keys_are anchors SYMBOLS))
                "SEEDED_TARGET_OUTBOX_MUST_REMAIN_EMPTY";
          _ ← mapR accepted_anchor anchors;
          Ok s
      | _ => reject "SEEDED_TARGET_OUTBOX_MUST_REMAIN_EMPTY"
      end
  | _ => no_attr "get"
  end.

(** [v + n] *)
Definition plus (v : value) (n : Z) : result value :=
  match v with
  | VInt z => Ok (VInt (z + n))
  | VBool b => Ok (VInt ((if b then 1 else 0) + n))
  | VFloat f => g ← float_of_int n; Ok (VFloat (fadd f g))
  | _ => raise TypeError "unsupported operand type(s) for +"
  end.

(** [min(anchor["last_close_time_ms"] + 1 for …) < target]: some of them is *)
Definition lagging (rolling : dict) (target : Z) : result bool :=
  anchors ← py_item "anchors" (VDict rolling);
  match anchors with
  | VDict d =>
      starts ← mapR (λ kv, last ← py_item "last_close_time_ms" kv.2; plus last 1) d;
      _ ← raise_if (bool_decide (starts = [])) ValueError "min() arg is an empty sequence";
      Ok (existsb (λ v, match num_of v with Some x => num_ltb x (NInt target) | None => false end) starts)
  | _ => no_attr "values"
  end.

(** The receipt of one batch *)
Definition appended_ok (v : value) : option dict :=
  match v with
  | VDict d =>
      if keys_are d SYMBOLS && forallb (λ kv, match kv.2 with VInt n => 0 <=? n | _ => false end) d
         && (zsum ((λ kv, match kv.2 with VInt n => n | _ => 0 end) <$> d) <=? MAX_CATCHUP_BARS)
      then Some d else None
  | _ => None
  end.

(** The anchors after a batch up to [end_] *)
Definition roll_anchor (end_ : Z) (appended : dict) (kv : string * value) : result (string * value) :=
  count ← py_item "count" kv.2;
  count ← plus count (match dget kv.1 appended with VInt n => n | _ => 0 end);
  match kv.2 with
  | VDict a => Ok (kv.1, VDict (dset "last_close_time_ms" (VInt (end_ - 1)) (dset "last_open_time_ms" (VInt (end_ - MINUTE_MS)) (dset "count" count a))))
  | _ => raise TypeError "object does not support item assignment"
  end.
Definition roll (end_ : Z) (appended : dict) (rolling : dict) : result dict :=
  match dget "anchors" rolling with
  | VDict d => anchors ← mapR (roll_anchor end_ appended) d; Ok (dset "anchors" (VDict anchors) rolling)
  | _ => no_attr "items"
  end.

(** [self.names] *)
Definition names_dict (n : names) : dict :=
  [("network", VStr (n_network n)); ("target_volume", VStr (n_target_volume n)); ("source_volume", VStr (n_source_volume n));
   ("restore_volume", VStr (n_restore_volume n)); ("redis_volume", VStr (n_redis_volume n)); ("target_pg", VStr (n_target_pg n));
   ("source_pg", VStr (n_source_pg n)); ("restore_pg", VStr (n_restore_pg n)); ("redis", VStr (n_redis n)); ("serve", VStr (n_serve n))].
Definition all_names (n : names) : list string :=
  [n_network n; n_target_volume n; n_source_volume n; n_restore_volume n; n_redis_volume n; n_target_pg n; n_source_pg n; n_restore_pg n; n_redis n; n_serve n].

Definition encode_ascii (s : string) : result string := if isascii s then Ok s else raise UnicodeEncodeError "ascii".

Section Run.
Context (env : environment eres) (fuel : nat) (ct : controller).
Context (type_name : exc → string) (casefold : string → string).
Context (validate_read_profile : string → value → result unit).
(** [secrets_map[key]], which has every key that is asked for *)
Context (secret : string → string).

Notation owner := (ct_owner ct).
Notation nm := (ct_names ct).
Notation docker_for := (docker_for env ct type_name).
Notation phase := (phase env ct type_name casefold validate_read_profile).
Notation create_database := (create_database env ct type_name casefold).
Notation wait_postgres := (wait_postgres env fuel ct type_name).
Notation restore_accepted_dump := (restore_accepted_dump env ct type_name).
Notation remove_owned_clone := (remove_owned_clone env ct type_name).

Definition database : string := epoch_database owner.
Definition source_database : string := "kairos_recovery_" +:+ stake 12 owner +:+ "_epoch".
Definition restore_database : string := "kairos_recovery_" +:+ stake 12 owner +:+ "_epochrestore".

(** ** Backup *)
Definition dump_command (database : string) : list string :=
  [DOCKER; "--config"; ct_work ct +:+ "\docker-config"; "--host"; ENDPOINT; "exec"; n_target_pg nm; "/usr/bin/timeout"; "-s"; "KILL";
   dec_of_Z (EPOCH_DUMP_TIMEOUT_SECONDS - 5); "pg_dump"; "--format=custom"; "--no-owner"; "--no-privileges"; "--username=kairos"; "--dbname=" +:+ database].

Definition dump_operation (sequence : Z) (d : dump_run) : dict :=
  [("sequence", VInt sequence); ("exit_code", dr_exit_code d); ("timed_out", VBool (dr_timed_out d));
   ("overflow", VBool (dr_overflow d || (MAX_EPOCH_DUMP_BYTES <? dr_size d) || (MAX_EPOCH_DUMP_STDERR_BYTES <? dr_stderr d)));
   ("cli_tree", dr_proof d); ("elapsed_seconds", VFloat (round_digits 6 (dr_elapsed d))); ("binary_stdout_bytes", VInt (dr_size d));
   ("stderr_bytes", VInt (dr_stderr d))].
Definition dump_accepted (d : dump_run) : bool :=
  negb (dr_failed d) && negb (dr_timed_out d)
  && negb (dr_overflow d || (MAX_EPOCH_DUMP_BYTES <? dr_size d) || (MAX_EPOCH_DUMP_STDERR_BYTES <? dr_stderr d))
  && match dr_proof d with
     | VDict p => is_true (dget "assigned_before_resume" p) && py_eq (dget "active_processes_after" p) (VInt 0)
     | _ => false
     end
  && py_eq (dr_exit_code d) (VInt 0) && dr_plain d && (0 <? dr_size d) && (dr_size d <=? MAX_EPOCH_DUMP_BYTES).

Definition stream_private_pg_dump (backup : path) (database : string) : M epoch dict :=
  taken ← (if among (p_name backup) DUMP_NAMES && String.eqb (p_parent backup) (ct_work ct) then eask env (EExists backup) else mret true);
  rej_if (taken || negb (fullmatch (RLit "kairos_epoch_" ⋅ hex 12) database) || negb (String.eqb database (epoch_database owner)))
    "PRIVATE_CREATE_ONLY_EPOCH_DUMP_REQUIRED";;
  sequence ← eask env ESequence;
  taken ← eask env (EExists (in_work ct ("cli-" +:+ pad 3 sequence +:+ ".stderr")));
  rej_if taken "CREATE_ONLY_EPOCH_DUMP_DIAGNOSTIC_REQUIRED";;
  now ← eask env EClock;
  let deadline := fmin (fadd now (fz EPOCH_DUMP_TIMEOUT_SECONDS)) (fsub (ct_deadline ct) (fz TREE_SECONDS)) in
  rej_if (fleb (fsub deadline now) (fz TREE_SECONDS)) "INSUFFICIENT_EPOCH_DUMP_PROCESS_BUDGET";;
  d ← eask env (EDump (dump_command database) backup deadline);
  eask env (EOperation (VDict (dump_operation sequence d)));;
  rej_if (negb (dump_accepted d)) "BOUNDED_BINARY_EPOCH_DUMP_FAILED";;
  sha ← eask env (ESha backup);
  mret (dset "sha256" (VStr sha) (dump_operation sequence d)).

Definition archive_mount (dump : string) : list string := ["--mount"; "type=bind,src=" +:+ dump +:+ ",dst=/archive.dump,readonly"].
Definition amcheck_command : list string :=
  ["exec"; n_restore_pg nm; "pg_amcheck"; "--install-missing"; "--database=" +:+ restore_database; "--username=kairos"; "--heapallindexed";
   "--parent-check"; "--rootdescend"].

(** The disposable database that the dump is restored into *)
Definition restore_clone (backup restore_secret : path) : M epoch unit :=
  create_database (n_restore_pg nm) (n_restore_volume nm) restore_secret restore_database (archive_mount (path_text backup)) (Some 1500);;
  wait_postgres (n_restore_pg nm);;
  restore_accepted_dump (n_restore_pg nm) restore_database.

Definition common : dict :=
  [("owner", VStr owner); ("database", VStr database); ("pg_host", VStr (n_target_pg nm)); ("redis_host", VStr (n_redis nm))].
Definition verify_config (admin_password restore_password : string) (seed : value) : dict :=
  common ++ [("admin_password", VStr admin_password); ("restore_host", VStr (n_restore_pg nm)); ("restore_database", VStr restore_database);
                    ("restore_admin_password", VStr restore_password); ("expected_seed", seed)].

Definition write_text (p : path) (s : string) : M epoch unit := data ← liftR (encode_ascii s); eask env (EWrite p data).

(** The row counts that the restored history must show *)
Definition restored_rows (tag : string) (verification seed : value) : M epoch unit :=
  tables ← liftR (py_get "tables" verification);
  audit ← liftR (py_get "event_audit" (or_dict tables));
  let audit_table := or_dict audit in
  rej_ifR (Ok (String.eqb tag "precontinuation")
           &&? (c ← py_get "count" audit_table; r ← py_get "rows" seed; Ok (negb (py_eq c r)))) "PRECONTINUATION_SEED_ROW_COUNT_REQUIRED";;
  rej_ifR (Ok (String.eqb tag "postcatchup")
           &&? (c ← py_getd "count" (VInt 0) audit_table; r ← py_getd "rows" (VInt 0) seed; py_lt c r)) "POSTCATCHUP_HISTORY_ROW_COUNT_REQUIRED".

Definition backup_and_verify (admin_password : string) (seed : value) (restore_password tag verification_mode : string) : M epoch string :=
  rej_if (negb (among verification_mode VERIFICATION_MODES)) "EXACT_BACKUP_VERIFICATION_MODE_REQUIRED";;
  let backup := in_work ct ("epoch-history-" +:+ tag +:+ ".dump") in
  operation ← stream_private_pg_dump backup database;
  dump_hash ← eask env (ESha backup);
  modify (set_proof (tag +:+ "_binary_dump") (VDict operation));;
  let restore_secret := in_work ct ("restore-admin-password-" +:+ tag) in
  write_text restore_secret restore_password;;
  restore_clone backup restore_secret;;
  verification ← phase verification_mode (VDict (verify_config admin_password restore_password seed)) tag;
  restored_rows tag verification seed;;
  _ ← docker_for 240 amcheck_command;
  remove_owned_clone (n_restore_pg nm) (n_restore_volume nm);;
  mret dump_hash.

(** ** [run_epoch] *)
Definition prepare_config : dict :=
  common ++ [("admin_password", VStr (secret "admin_password")); ("source_host", VStr (n_source_pg nm)); ("source_database", VStr source_database);
    ("source_admin_password", VStr (secret "source_admin_password")); ("source_password", VStr (secret "source_password"));
    ("history_password", VStr (secret "history_password")); ("producer_password", VStr (secret "producer_password"));
    ("consumer_password", VStr (secret "consumer_password"))].
Definition seed_config : dict :=
  common ++ [("source_host", VStr (n_source_pg nm)); ("source_database", VStr source_database); ("source_password", VStr (secret "source_password"));
    ("history_password", VStr (secret "history_password")); ("seed_expectation", VDict [("accepted_dump_sha256", VStr DUMP_SHA256)]);
    ("source_dump_sha256", VStr DUMP_SHA256)].
Definition catchup_config (end_ : Z) : dict :=
  common ++ [("history_password", VStr (secret "history_password")); ("end_exclusive_ms", VInt end_); ("maximum_bars", VInt MAX_CATCHUP_BARS)].
Definition runtime_config : dict :=
  common ++ [("producer_password", VStr (secret "producer_password")); ("consumer_password", VStr (secret "consumer_password"));
    ("redis_producer_password", VStr (secret "redis_producer_password")); ("redis_consumer_password", VStr (secret "redis_consumer_password"))].

(** The private files *)
Definition write_secrets : M epoch unit :=
  write_text (in_work ct "target-admin-password") (secret "admin_password");;
  write_text (in_work ct "source-admin-password") (secret "source_admin_password");;
  write_text (in_work ct "restore-admin-password") (secret "restore_admin_password");;
  acl ← liftR (redis_acl_text (VStr owner) (VStr (secret "redis_admin_password")) (VStr (secret "redis_producer_password")) (VStr (secret "redis_consumer_password")));
  write_text (in_work ct "redis-users.acl") acl.

(** Network, volumes, the source database with the accepted dump, the target
    database and Redis *)
Definition create_resources : M epoch unit :=
  create_network env ct type_name;;
  forM (owned_volumes ct) (create_volume env ct type_name);;
  forM [(n_target_volume nm, 70); (n_source_volume nm, 70); (n_restore_volume nm, 70); (n_redis_volume nm, 999)]
       (λ p, initialize_volume env ct type_name p.1 p.2);;
  create_database (n_source_pg nm) (n_source_volume nm) (in_work ct "source-admin-password") source_database (archive_mount DUMP) (Some 1500);;
  wait_postgres (n_source_pg nm);;
  restore_accepted_dump (n_source_pg nm) source_database;;
  create_database (n_target_pg nm) (n_target_volume nm) (in_work ct "target-admin-password") database [] None;;
  wait_postgres (n_target_pg nm);;
  create_redis env ct type_name casefold (in_work ct "redis-users.acl") (n_redis_volume nm).

(** A loop that was cut off *)
Definition cut_off {A} : M epoch A := λ s, (Fuel, s).

(** The catch-up batches until no anchor is behind [target]: the anchors they
    end with and their number.  [limit] and [prefix] are those of one of the two
    loops of [run_epoch]. *)
Fixpoint catch_up (fuel : nat) (limit_msg receipt_msg prefix : string) (target : Z) (rolling : dict) (batches : Z) : M epoch (dict * Z) :=
  behind ← liftR (lagging rolling target);
  if negb behind then mret (rolling, batches)
  else match fuel with
    | O => cut_off
    | S fuel' =>
        bound ← liftR (catchup_end_exclusive_ms fuel' (VDict rolling) (VInt target) (VInt MAX_CATCHUP_BARS));
        match bound with
        | None => cut_off
        | Some end_ =>
            let batches := batches + 1 in
            rej_if (32 <? batches) limit_msg;;
            receipt ← phase "catchup" (VDict (catchup_config end_)) (prefix +:+ pad 2 batches);
            appended ← liftR (py_get "appended" receipt);
            match appended_ok appended with
            | None => rej receipt_msg
            | Some appended =>
                rolled ← liftR (roll end_ appended rolling);
                catch_up fuel' limit_msg receipt_msg prefix target rolled batches
            end
        end
    end.
Definition catch_up_history : Z → dict → M epoch (dict * Z) := λ target rolling,
  catch_up fuel "FIXED_CATCHUP_BATCH_COUNT_EXCEEDED" "BOUNDED_CATCHUP_RECEIPT_REQUIRED" "" target rolling 0.
Definition catch_up_final : Z → dict → M epoch (dict * Z) := λ target rolling,
  catch_up fuel "FINAL_CATCHUP_BATCH_COUNT_EXCEEDED" "FINAL_BOUNDED_CATCHUP_RECEIPT_REQUIRED" "final-" target rolling 0.

(** The audit-only history is dumped, and the dump restored and compared. *)
Definition verify_history (rolling : dict) : M epoch unit :=
  let backup := in_work ct "epoch-history.dump" in
  operation ← stream_private_pg_dump backup database;
  sha ← eask env (ESha backup);
  modify (set_proof "audit_backup_sha256" (VStr sha));;
  modify (set_proof "audit_binary_dump" (VDict operation));;
  restore_clone backup (in_work ct "restore-admin-password");;
  _ ← phase "verify-restore" (VDict (verify_config (secret "admin_password") (secret "restore_admin_password") (VDict rolling))) "";
  _ ← docker_for 240 amcheck_command;
  remove_owned_clone (n_restore_pg nm) (n_restore_volume nm).

(** [((int(time.time() * 1000) - 5_000) // MINUTE_MS) * MINUTE_MS] *)
Definition closed_minute (now : flt) : result Z := ms ← milliseconds now; Ok ((ms - 5000) / MINUTE_MS * MINUTE_MS).

(** The seed, verified, and brought up to [end_exclusive_ms] and then to the present *)
Definition seed_and_catch_up (end_exclusive_ms : Z) : M epoch Z :=
  _ ← phase "prepare" (VDict prepare_config) "";
  seed ← phase "seed" (VDict seed_config) "";
  seed ← liftR (accepted_seed seed);
  remove_owned_clone (n_source_pg nm) (n_source_volume nm);;
  '(rolling, batches) ← catch_up_history end_exclusive_ms seed;
  modify (set_proof "catchup_batches" (VInt batches));;
  verify_history rolling;;
  now ← eask env ETime;
  final_end ← liftR (closed_minute now);
  '(_, final_batches) ← catch_up_final final_end rolling;
  modify (set_proof "finality_catchup_batches" (VInt final_batches));;
  modify (set_proof "finality_catchup_end_exclusive_ms" (VInt final_end));;
  mret batches.

Definition status_path : path := Path (path_text (in_work ct "output-serve")) "status.json".

(** The first status that says the worker is running *)
Definition first_status : M epoch value :=
  poll env fuel ct 180 15
    (plain ← eask env (EFile status_path);
     seen ← (if (plain : bool)
             then try_except json_or_os_error
                    (text ← eask env (ERead status_path);
                     candidate ← liftR (json_loads text);
                     state ← liftR (py_get "state" candidate);
                     mret (if py_eq state (VStr "RUNNING_NONTRADING") then Some candidate else None))
                    (λ _, mret None)
             else mret None);
     match seen with Some v => mret (Some v) | None => eask env ESleep;; mret None end)
    "PERSISTENT_NONTRADING_SERVE_STATUS_REQUIRED".

(** Qualification, the server, its restart *)
Definition serve_and_restart : M epoch value :=
  qualified ← phase "qualify" (VDict runtime_config) "";
  state ← liftR (py_get "state" qualified);
  rej_if (negb (py_eq state (VStr "NONTRADING_RUNTIME_QUALIFIED"))) "NONTRADING_RUNTIME_QUALIFICATION_REQUIRED";;
  _ ← phase "serve" (VDict runtime_config) "";
  status ← first_status;
  now ← eask env ENow;
  _ ← liftR (validate_running_status now status owner None);
  restart_serve_and_validate env fuel ct type_name status_path status.

Definition run_epoch (end_exclusive_ms : Z) : M epoch dict :=
  write_secrets;;
  before ← assert_legacy_sources_stopped env ct type_name LEGACY_REDIS_ID;
  modify (set_proof "legacy_before" (VDict before));;
  create_resources;;
  batches ← seed_and_catch_up end_exclusive_ms;
  restarted_status ← serve_and_restart;
  after ← assert_legacy_sources_stopped env ct type_name LEGACY_REDIS_ID;
  rej_if (negb (py_eq (VDict before) (VDict after))) "PRESERVED_LEGACY_SOURCE_IDENTITY_CHANGED";;
  modify (set_proof "legacy_after" (VDict after));;
  modify (set_proof "serve_restart_status" restarted_status);;
  proofs ← gets ep_proofs;
  mret [("result", VStr "PASS_NONTRADING_RUNTIME_EPOCH"); ("owner", VStr owner); ("database", VStr database); ("resources", VDict (names_dict nm));
        ("catchup_batches", VInt batches); ("audit_backup_sha256", dget "audit_backup_sha256" proofs); ("serve_container", VStr (n_serve nm));
        ("proofs", VDict proofs)].

(** ** What [main] does with the outcome *)
Definition run_directory : path := Path ROOT ("run-" +:+ owner).

(** [_persist_failure_receipt] of a private directory and a controller: the path
    of the receipt, if one was written *)
Definition failure_receipt (phase category : string) (created : list string) (leased : bool) : value :=
  VDict [("result", VStr "FAILED_CLOSED"); ("owner", VStr owner); ("phase", VStr phase); ("error_category", VStr category);
         ("resources", VDict (names_dict nm)); ("created_resources", VList (VStr <$> created)); ("preserved_forensics", VBool true);
         ("active_lease_preserved", VBool leased); ("trading_started", VBool false)].
Definition own_resources (created : list string) : list string :=
  sort_str (remove_dups (filter (λ n, among n (all_names nm) || startswith (owned_prefix ct) n = true) created)).

Definition _persist_failure_receipt (e : exc) : M epoch (option path) :=
  private ← eask env (EDir run_directory);
  if negb private then mret None
  else
    try_except is_exception (stop_owned_after_failure env ct type_name) (λ _, mret tt);;
    created ← gets ep_created;
    let receipt := in_work ct "runtime-epoch-failure.json" in
    taken ← eask env (EExists receipt);
    if (taken : bool) then mret None
    else
      try_except is_exception
        (phase ← gets ep_phase;
         leased ← eask env (EFile ACTIVE_LEASE);
         eask env (ESave receipt (failure_receipt phase (_failure_category type_name e) (own_resources created) leased));;
         mret (Some receipt))
        (λ _, mret None).

(** The end of [main]: its exit code *)
Definition launch (end_exclusive_ms : Z) : M epoch Z :=
  try_except (λ _, true)
    (result ← run_epoch end_exclusive_ms; eask env (ESave (in_work ct "runtime-epoch-receipt.json") (VDict result));; mret 0)
    (λ e, _ ← _persist_failure_receipt e; mret 2).
End Run.
