(* ===== verification/EpochConfigSpec.v ===== *)
(** * Controller and worker agree on the configurations of a run ([EpochRun], [EpochBoot])

    Every configuration that [run_epoch] writes passes both the check of the
    controller, which writes it, and the check of the worker, which reads it. *)

From stdpp Require Import strings.
From S2P Require Import Prelude PyStr Regex Sha256 PyVal PyTime Json PyBytes Effects EpochPublication EpochRuntime EpochBoot EpochBootSpec EpochControl EpochDocker EpochRun.

Local Open Scope string_scope.
Local Open Scope list_scope.
Local Open Scope Z_scope.
Local Open Scope regex_scope.

Lemma hex_chars n s : fullmatch (hex n) s = true ↔ String.length s = n ∧ sall is_lower_hex s = true.
Proof. apply fullmatch_rep. Qed.

Lemma stake_len n s : (String.length (stake n s) ≤ n)%nat.
Proof. revert s. induction n as [|n IH]; intros [|c s]; cbn; [lia..|]. specialize (IH s). lia. Qed.

Lemma stake_sall p n s : sall p s = true → sall p (stake n s) = true.
Proof.
  revert s. induction n as [|n IH]; intros [|c s]; cbn; [done..|]. intros [Hc Hs]%andb_true_iff. by rewrite Hc, IH.
Qed.

Definition host_char (c : ascii) : bool := is_lower c || is_digit c || is_one "-" c.

Section Configs.
Context (owner : string) (Howner : fullmatch (hex 32) owner = true).

Lemma owner_host_chars n : sall host_char (stake n owner) = true.
Proof.
  apply hex_chars in Howner as [_ Hh]. apply stake_sall. eapply sall_impl; [|exact Hh].
  intros [[] [] [] [] [] [] [] []]; done.
Qed.

(** The hosts, for the controller and for the worker *)
Lemma owned_private suffix :
  sall host_char suffix = true → (String.length suffix ≤ 38)%nat → private_host (VStr (owned owner suffix)) = true.
Proof.
  intros Hs Hl. unfold private_host, host_re. rewrite fullmatch_spec, matches_seq.
  exists "k", (sdrop 1 (owned owner suffix)). split; [done|]. split.
  - rewrite matches_char. by exists "k"%char.
  - unfold RRange. rewrite matches_seq. exists "", (sdrop 1 (owned owner suffix)). split; [done|].
    split; [by cbn [RRep]; apply matches_empty|]. rewrite matches_upto_char. unfold owned.
    cbn [String.append sdrop String.length sall]. rewrite app_length_str.
    split; [pose proof (stake_len 12 owner); lia|]. fold host_char. rewrite sall_app, Hs. by rewrite owner_host_chars.
Qed.

Lemma owned_worker name :
  name ≠ "" → sall is_lower name = true →
  match_value (RLit (("kairos-epoch-" +:+ stake 12 owner) +:+ "-") ⋅ RPlus (RChar is_lower)) (VStr (owned owner (String "-" name))) = Ok true.
Proof.
  intros Hn Hl. cbn [match_value]. f_equal. rewrite fullmatch_spec, matches_seq.
  exists (("kairos-epoch-" +:+ stake 12 owner) +:+ "-"), name. split; [unfold owned; by rewrite <- !app_assoc_str|].
  rewrite matches_lit, matches_plus_char. done.
Qed.
End Configs.

(** What the six configurations share *)
Definition keyed (v : dict) (ct : controller) : Prop :=
  dlookup "owner" v = Some (VStr (ct_owner ct)) ∧ dlookup "database" v = Some (VStr (epoch_database (ct_owner ct))) ∧
  dlookup "pg_host" v = Some (VStr (owned (ct_owner ct) "-pg")) ∧ dlookup "redis_host" v = Some (VStr (owned (ct_owner ct) "-redis")).

(** The secrets of a configuration, whatever their keys *)
Definition secret_ok (kv : string * value) : Prop := endswith "password" kv.1 = true → ∃ s, kv.2 = VStr s ∧ fullmatch (hex 64) s = true.

Lemma hex64_new_secret s : fullmatch (hex 64) s = true → new_secret (VStr s) = true.
Proof.
  intros [Hl Hh]%hex_chars. unfold new_secret. rewrite uchars_ascii, length_fmap.
  - rewrite length_list_ascii, Hl. done.
  - unfold isascii. eapply sall_impl; [|exact Hh]. intros [[] [] [] [] [] [] [] []]; done.
Qed.

Lemma mapR_units {A} (f : A → result unit) l : Forall (λ x, f x = Ok tt) l → mapR f l = Ok (replicate (length l) tt).
Proof. induction 1 as [|x l Hx Hl IH]; [done|]. cbn [mapR]. by rewrite Hx, IH. Qed.

Section Accept.
Context (ct : controller) (Howner : fullmatch (hex 32) (ct_owner ct) = true).
Context (vrp : string → value → result unit) (p : profile) (time : flt).

(** The controller's check up to what is special to a mode *)
Lemma controller_accepts (v : dict) mode schema fields :
  among schema ["historical-default"; "current-controlled-v1"] = true →
  read_profile vrp mode (VDict v) = None → current_boot mode schema = false → dlookup mode worker_fields = Some fields →
  keys_are v fields = true → keyed v ct → Forall secret_ok v → mode_checks mode schema (ct_owner ct) v = Ok tt →
  validate_worker_config vrp (VDict v) mode schema = Ok (VDict v).
Proof.
  intros Hs Hr Hb Hf Hk (Ho & Hd & Hp & Hre) Hsec Hm.
  unfold validate_worker_config, reject_if. rewrite Hr. unfold fields_of. rewrite Hf, Hb. cbn [andb fmap option_fmap option_map].
  rewrite (dgetd_Some _ _ _ _ Ho), (dget_Some _ _ _ Ho), (dget_Some _ _ _ Hd).
  rewrite guard_pass by (by rewrite Hs). rewrite guard_pass by done. rewrite guard_pass by (by rewrite Hk).
  rewrite guard_pass by (cbn [hex_text]; by rewrite Howner). rewrite guard_pass by (by rewrite py_eq_refl_str).
  rewrite guard_pass.
  2: { cbn [forallb]. rewrite (dget_Some _ _ _ Hp), (dget_Some _ _ _ Hre). by rewrite !owned_private by (done || (cbn; lia)). }
  rewrite guard_pass; [by rewrite Hm|]. apply negb_false_iff, forallb_forall. intros key Hkey%list_elem_of_In.
  destruct (endswith "password" key) eqn:He; [|done]. cbn [negb orb].
  unfold keys_are in Hk. rewrite same_set_true in Hk. apply Hk in Hkey.
  destruct (dlookup key v) as [x|] eqn:Hx; [|by apply dlookup_None in Hx].
  rewrite (dget_Some _ _ _ Hx). apply dlookup_elem in Hx. rewrite Forall_forall in Hsec.
  destruct (Hsec _ Hx He) as (s & Heq & Hh). cbn [snd] in Heq. subst x. by apply hex64_new_secret.
Qed.

(** The worker's *)
Lemma worker_accepts (v : dict) mode :
  among mode ["r7-state"; "r7-verify-restore"; "r7-drain"; "r6-state"; "r6-verify-restore"; "r6-drain";
              "r5-state"; "r5-verify-restore"; "r5-drain"] = false →
  among mode MODES = true → among mode ["boot-state"; "boot-verify-restore"; "boot-catchup"; "boot-redis-state"; "boot-redis-clone"] = false →
  keyed v ct → Forall secret_ok v → mode_config p time mode (ct_owner ct) v = Ok tt →
  validate_config p vrp time (VDict v) mode = Ok tt.
Proof.
  intros Hr Hmo Hb (Ho & Hd & Hp & Hre) Hsec Hm.
  unfold validate_config. rewrite Hr. unfold epoch_require. rewrite guard_pass by (by rewrite Hmo).
  assert (common_config p mode v = Ok (ct_owner ct)) as ->; [|done].
  unfold common_config, epoch_require.
  rewrite (dgetd_Some _ _ _ _ Ho), (dget_Some _ _ _ Ho), (dget_Some _ _ _ Hd). cbn [match_value]. rewrite Howner, bind_ret.
  rewrite guard_pass by done. rewrite guard_pass by (apply negb_false_iff, py_eq_refl_str).
  assert (String.eqb mode "boot-state" = false) as ->.
  { apply String.eqb_neq. intros ->. by apply bool_decide_eq_false in Hb as []; left. }
  cbn [andb]. rewrite bind_ret. cbn [mapR].
  rewrite (dgetd_Some _ _ _ _ Hp), (dgetd_Some _ _ _ _ Hre).
  rewrite (owned_worker (ct_owner ct) "pg"), (owned_worker (ct_owner ct) "redis") by done.
  cbn [mbind result_bind negb raise_if].
  rewrite (mapR_units _ v); [rewrite bind_ret, guard_pass; [done|by rewrite Hb]|].
  eapply Forall_impl; [exact Hsec|]. intros kv Hkv. destruct (endswith "password" kv.1) eqn:He; [|done].
  destruct (Hkv He) as (s & -> & Hs). cbn [match_value]. by rewrite Hs, bind_ret.
Qed.
End Accept.

(** ** The configurations of [run_epoch] *)
Definition run_configs (ct : controller) (secret : string → string) (end_ : Z) (rolling : dict) : list (string * dict) :=
  [("prepare", prepare_config ct secret); ("seed", seed_config ct secret); ("catchup", catchup_config ct secret end_);
   ("verify-restore", verify_config ct (secret "admin_password") (secret "restore_admin_password") (VDict rolling));
   ("qualify", runtime_config ct secret); ("serve", runtime_config ct secret)].

Lemma run_keyed ct secret end_ rolling mode v : (mode, v) ∈ run_configs ct secret end_ rolling → keyed v ct.
Proof. unfold run_configs. rewrite !elem_of_cons, elem_of_nil. intros H. by destruct_or! H; injection H as -> ->. Qed.

Lemma run_secrets ct secret end_ rolling mode v :
  (∀ key, fullmatch (hex 64) (secret key) = true) → (mode, v) ∈ run_configs ct secret end_ rolling → Forall secret_ok v.
Proof.
  intros Hs. unfold run_configs. rewrite !elem_of_cons, elem_of_nil. intros H.
  destruct_or! H; try done; injection H as -> ->; repeat constructor; intros He; first [discriminate He|eauto].
Qed.

Lemma run_controller_mode ct secret end_ rolling mode v :
  0 < end_ → end_ mod 60000 = 0 → (mode, v) ∈ run_configs ct secret end_ rolling → mode_checks mode (ct_schema ct) (ct_owner ct) v = Ok tt.
Proof.
  intros He Hm. unfold run_configs. rewrite !elem_of_cons, elem_of_nil. intros H.
  destruct_or! H; try done; injection H as -> ->.
  - reflexivity.
  - reflexivity.
  - unfold mode_checks. change (among "catchup" ["catchup"; "boot-catchup"]) with true. cbv iota.
    change (dget "end_exclusive_ms" (catchup_config ct secret end_)) with (VInt end_). cbv iota. unfold reject_if.
    apply Z.leb_gt in He. rewrite He, Hm. reflexivity.
  - unfold mode_checks. unfold listed_restore_hosts.
    change (String.eqb "verify-restore" "boot-verify-restore") with false. change (String.eqb "verify-restore" "verify-restore") with true.
    rewrite !andb_false_r. cbn [app existsb negb andb orb hashable fmap list_fmap].
    change (dget "restore_host" _) with (VStr (owned (ct_owner ct) "-restore")).
    change (dget "restore_database" _) with (VStr (restore_database ct)).
    change ("kairos_recovery_" +:+ stake 12 (ct_owner ct) +:+ "_epochrestore") with (restore_database ct).
    rewrite !py_eq_refl_str. reflexivity.
  - reflexivity.
  - reflexivity.
Qed.

Lemma run_worker_mode p time ms ct secret end_ rolling mode v :
  milliseconds time = Ok ms → end_ ≤ ms - FINALITY_MS → end_ mod 60000 = 0 →
  (∀ key, fullmatch (hex 64) (secret key) = true) →
  (mode, v) ∈ run_configs ct secret end_ rolling → mode_config p time mode (ct_owner ct) v = Ok tt.
Proof.
  intros Ht He Hm Hs. unfold run_configs. rewrite !elem_of_cons, elem_of_nil. intros H.
  assert (∀ key, py_truthy (VStr (secret key)) = true) as Htr.
  { intros key. specialize (Hs key). by destruct (secret key). }
  assert (runtime : ∀ m, m ∈ ["qualify"; "serve"] → mode_config p time m (ct_owner ct) (runtime_config ct secret) = Ok tt).
  { intros m Hin. unfold mode_config, epoch_require. rewrite !elem_of_cons, elem_of_nil in Hin.
    destruct_or! Hin; subst m; try done;
    (rewrite guard_pass by reflexivity;
     change (forallb _ _) with (py_truthy (VStr (secret "producer_password")) && (py_truthy (VStr (secret "consumer_password"))
       && (py_truthy (VStr (secret "redis_producer_password")) && (py_truthy (VStr (secret "redis_consumer_password")) && true))));
     rewrite !Htr; reflexivity). }
  destruct_or! H; try done; injection H as -> ->.
  - reflexivity.
  - reflexivity.
  - unfold mode_config, final_end. change (dget "end_exclusive_ms" _) with (VInt end_). cbv iota.
    assert (end_ <=? ms - FINALITY_MS = true) as Hb by (by apply Z.leb_le). rewrite Ht, bind_ret. cbv beta. rewrite Hb.
    unfold MINUTE. rewrite Hm. reflexivity.
  - reflexivity.
  - apply runtime. by left.
  - apply runtime. by right; left.
Qed.

(** C19. The controller writes only configurations that the worker takes.  For an
    owner of 32 hexadecimal digits and secrets of 64, a target that is a positive
    whole minute at least five seconds before the worker's clock, and either
    schema, every configuration of a run (prepare, seed, catch-up, restore
    verification, qualification, serving) passes the controller's check, which
    runs before anything is written, and the check with which the worker begins. *)
Theorem run_configs_accepted (vrp : string → value → result unit) (p : profile) (time : flt) (ms : Z) (ct : controller) (secret : string → string)
    (end_ : Z) (rolling : dict) (mode : string) (v : dict) :
  fullmatch (hex 32) (ct_owner ct) = true → (∀ key, fullmatch (hex 64) (secret key) = true) →
  0 < end_ → end_ mod 60000 = 0 → milliseconds time = Ok ms → end_ ≤ ms - FINALITY_MS →
  among (ct_schema ct) ["historical-default"; "current-controlled-v1"] = true →
  (mode, v) ∈ run_configs ct secret end_ rolling →
  validate_worker_config vrp (VDict v) mode (ct_schema ct) = Ok (VDict v) ∧
  validate_config p vrp time (VDict v) mode = Ok tt.
Proof.
  intros Ho Hs He Hm Ht Hf Hsch Hin.
  assert (mode ∈ ["prepare"; "seed"; "catchup"; "verify-restore"; "qualify"; "serve"]) as Hmode.
  { unfold run_configs in Hin. apply (list_elem_of_fmap_2 fst) in Hin. exact Hin. }
  pose proof (run_keyed _ _ _ _ _ _ Hin) as Hk. pose proof (run_secrets _ _ _ _ _ _ Hs Hin) as Hsec.
  split.
  - assert (∃ fields, read_profile vrp mode (VDict v) = None ∧ current_boot mode (ct_schema ct) = false ∧
      dlookup mode worker_fields = Some fields ∧ keys_are v fields = true) as (fields & H1 & H2 & H3 & H4).
    { unfold run_configs in Hin. rewrite !elem_of_cons, elem_of_nil in Hin.
      destruct_or! Hin; try done; injection Hin as -> ->; eexists; (split; [reflexivity|]); (split; [unfold current_boot; by rewrite andb_false_r|]);
        (split; [reflexivity|reflexivity]). }
    eapply controller_accepts; try eassumption. eapply run_controller_mode; eassumption.
  - eapply worker_accepts; try eassumption.
    + rewrite !elem_of_cons, elem_of_nil in Hmode. by destruct_or! Hmode; subst mode.
    + rewrite !elem_of_cons, elem_of_nil in Hmode. by destruct_or! Hmode; subst mode.
    + rewrite !elem_of_cons, elem_of_nil in Hmode. by destruct_or! Hmode; subst mode.
    + eapply run_worker_mode; eassumption.
Qed.

(** ** Witness *)
Definition sample_controller : controller :=
  Controller "00112233445566778899aabbccddeeff" None "image" "C:\work" None (fz 9000) None None None (Path "D:\aux" "wheels").
Definition sample_secret (key : string) : string := "00000000000000000000000000000000000000000000000000000000000000aa".

Theorem run_configs_accepted_witness :
  validate_worker_config (λ _ _, Ok tt) (VDict (catchup_config sample_controller sample_secret 60000)) "catchup" "historical-default"
    = Ok (VDict (catchup_config sample_controller sample_secret 60000)) ∧
  validate_config historical (λ _ _, Ok tt) (fz 65) (VDict (catchup_config sample_controller sample_secret 60000)) "catchup" = Ok tt.
Proof.
  apply (run_configs_accepted (λ _ _, Ok tt) historical (fz 65) 65000 sample_controller sample_secret 60000 []);
    [reflexivity|intros; reflexivity|done|reflexivity|reflexivity|done|reflexivity|].
  unfold run_configs. apply list_elem_of_further, list_elem_of_further, list_elem_of_here.
Defined.
