(* ===== verification/EpochRunSpec.v ===== *)
(** * One run of the epoch controller ([EpochRun])

    What [launch] may do to Docker, the batches of a catch-up, and what an
    accepted run has shown. *)

From stdpp Require Import strings.
From S2P Require Import Prelude PyStr Regex Sha256 PyVal PyTime Json PyBytes Effects EpochRuntime EpochBoot EpochControl EpochControlSpec EpochDocker EpochDockerSpec EpochRun.

Local Open Scope string_scope.
Local Open Scope list_scope.
Local Open Scope Z_scope.

(** ** Authority *)
Section Authority.
Context (env : environment eres) (fuel : nat) (ct : controller) (type_name : exc → string) (casefold : string → string).
Context (vrp : string → value → result unit) (secret : string → string).
Context (Himage : plain_word (ct_worker_image ct)).

Notation safe := (safe ct).
Notation nm := (ct_names ct).

#[local] Hint Resolve keeps_rej keeps_rej_if keeps_rej_ifR : keeps.
#[local] Hint Extern 1 (keeps (safe _) (eask _ _)) => (apply keeps_quiet_eask; [apply safe_quiet; apply _|done]) : keeps.
#[local] Hint Extern 1 (keeps (safe _) (modify _)) => (apply keeps_quiet_modify; [apply safe_quiet; apply _|done]) : keeps.
#[local] Hint Extern 1 (keeps (safe _) (phase _ _ _ _ _ _ _ _)) => (apply keeps_phase; [done|apply _]) : keeps.
#[local] Hint Extern 1 (keeps (safe _) (assert_legacy_sources_stopped _ _ _ _)) => (apply keeps_legacy; apply _) : keeps.
#[local] Hint Extern 1 (keeps (safe _) (remove_owned_clone _ _ _ _ _)) =>
  (apply keeps_remove_clone; [apply _|apply own_suffix|unfold owned_volumes; member]) : keeps.
#[local] Hint Extern 1 (keeps (safe _) (wait_postgres _ _ _ _ _)) => (apply keeps_wait_postgres; [apply _|member]) : keeps.
#[local] Hint Extern 1 (keeps (safe _) (restore_accepted_dump _ _ _ _ _)) => (apply keeps_restore; [apply _|member]) : keeps.

Lemma archive_ok dump : Forall (ok_argument ct) (archive_mount dump).
Proof.
  unfold archive_mount. constructor; [by apply ok_plain|]. constructor; [by apply ok_readonly|constructor].
Qed.

(** The dump runs in the target, which was created before. *)
Lemma keeps_dump Q `{!Stable Q} backup database :
  keeps (safe (λ s, Q s ∧ made (n_target_pg nm) s)) (stream_private_pg_dump env ct backup database).
Proof.
  unfold stream_private_pg_dump. do 7 (keeps_step; [keeps_walk|]).
  keeps_step; [|keeps_walk]. intros s [Ha [Hq Hm]]. unfold eask, perform. cbn [snd].
  set (s1 := elog _ s). assert (calls s1 = calls s ++ [(drop 5 (dump_command ct database), Ok (0, ""))]) as Hc by (subst s1; by rewrite calls_elog).
  assert (later s s1) as Hl by (by eexists). split; [|split; by eapply stable]. rewrite Hc. apply authority_call; [done|].
  apply (may_exec _ _ (n_target_pg nm)); [member|exact Hm].
Qed.

(** A routine under an assertion and what it adds *)
Lemma post_adds {A} Q `{!Stable Q} R (m : M epoch A) :
  post (safe Q) m (ends (λ _, safe (λ s, Q s ∧ R s)) (safe Q)) → keeps (safe Q) m.
Proof. intros H. eapply post_weaken; [exact H|done|]. intros [] s; cbn; [apply safe_weaken|done..]. Qed.
Lemma post_then {A B} Q `{!Stable Q} R (m : M epoch A) (f : A → M epoch B) :
  post (safe Q) m (ends (λ _, safe (λ s, Q s ∧ R s)) (safe Q)) → (∀ a, keeps (safe (λ s, Q s ∧ R s)) (f a)) → keeps (safe Q) (m ≫= f).
Proof.
  intros Hm Hf. apply (post_adds Q R). eapply post_step; [exact Hm|]. intros a. cbn beta. by apply keeps_drop.
Qed.

Lemma restore_clone_post Q `{!Stable Q} backup restore_secret :
  post (safe Q) (restore_clone env fuel ct type_name casefold backup restore_secret)
    (ends (λ _, safe (λ s, Q s ∧ made (n_restore_pg nm) s)) (safe Q)).
Proof.
  unfold restore_clone. eapply post_step; [apply create_database_post; [apply _|unfold owned_volumes; member|apply archive_ok]|].
  intros []. cbn beta. apply keeps_drop. keeps_walk.
Qed.

Lemma keeps_amcheck Q `{!Stable Q} : keeps (safe (λ s, Q s ∧ made (n_restore_pg nm) s)) (docker_for env ct type_name 240 (amcheck_command ct)).
Proof. apply (keeps_exec env ct type_name Q (n_restore_pg nm)). member. Qed.
#[local] Hint Extern 1 (keeps (safe _) (docker_for _ _ _ 240 _)) => (apply keeps_amcheck; apply _) : keeps.
#[local] Hint Extern 1 (keeps (safe _) (stream_private_pg_dump _ _ _ _)) => (apply keeps_dump; apply _) : keeps.

Lemma keeps_backup_and_verify Q `{!Stable Q} admin seed password tag mode :
  keeps (safe (λ s, Q s ∧ made (n_target_pg nm) s)) (backup_and_verify env fuel ct type_name casefold vrp admin seed password tag mode).
Proof.
  unfold backup_and_verify, write_text, restored_rows. cbv zeta. do 5 (keeps_step; [keeps_walk|]).
  eapply post_then; [apply _|by apply restore_clone_post; apply _|]. intros ?. keeps_walk.
Qed.

Lemma create_resources_post Q `{!Stable Q} :
  post (safe Q) (create_resources env fuel ct type_name casefold) (ends (λ _, safe (λ s, Q s ∧ made (n_target_pg nm) s)) (safe Q)).
Proof.
  unfold create_resources.
  do 3 (eapply post_step; [apply post_keeps; [|done]; first [by apply keeps_create_network; apply _
    |by apply keeps_forM; intros v; apply keeps_epoch_volume; apply _|by apply keeps_forM; intros v; apply keeps_initialize_volume; apply _]|intros ?; cbn beta]).
  eapply post_step; [apply create_database_post; [apply _|unfold owned_volumes; member|apply archive_ok]|]. intros ?; cbn beta.
  set (Q' := λ s, Q s ∧ made (n_source_pg nm) s).
  eapply post_weaken with (P' := safe Q') (Q' := ends (λ _, safe (λ s, Q' s ∧ made (n_target_pg nm) s)) (safe Q')); [|done|].
  - do 2 (eapply post_step; [apply post_keeps; [unfold Q'; solve [keeps_walk]|done]|intros ?; cbn beta]).
    eapply post_step; [apply create_database_post; [apply _|unfold owned_volumes; member|by apply Forall_nil]|]. intros ?; cbn beta.
    apply keeps_drop. keeps_step; [keeps_walk|]. by apply keeps_create_redis; [apply _|unfold owned_volumes; member].
  - intros [] s; cbn; [|apply safe_weaken..]. by intros [? [[] ?]].
Qed.

Lemma keeps_catch_up Q `{!Stable Q} n limit_msg receipt_msg prefix target rolling batches :
  keeps (safe Q) (catch_up env ct type_name casefold vrp secret n limit_msg receipt_msg prefix target rolling batches).
Proof.
  revert rolling batches. induction n as [|n IH]; intros rolling batches; cbn [catch_up]; keeps_walk; try (by intros s Hs); apply IH.
Qed.

#[local] Hint Extern 1 (keeps (safe _) (catch_up _ _ _ _ _ _ _ _ _ _ _ _ _)) => (apply keeps_catch_up; apply _) : keeps.

Lemma keeps_verify_history Q `{!Stable Q} rolling :
  keeps (safe (λ s, Q s ∧ made (n_target_pg nm) s)) (verify_history env fuel ct type_name casefold vrp secret rolling).
Proof.
  unfold verify_history. cbv zeta. do 4 (keeps_step; [keeps_walk|]).
  eapply post_then; [apply _|by apply restore_clone_post; apply _|]. intros ?. keeps_walk.
Qed.
#[local] Hint Extern 1 (keeps (safe _) (verify_history _ _ _ _ _ _ _ _)) => (apply keeps_verify_history; apply _) : keeps.

Lemma keeps_seed_and_catch_up Q `{!Stable Q} end_ :
  keeps (safe (λ s, Q s ∧ made (n_target_pg nm) s)) (seed_and_catch_up env fuel ct type_name casefold vrp secret end_).
Proof. unfold seed_and_catch_up, catch_up_history, catch_up_final. keeps_walk. Qed.

Lemma keeps_serve_and_restart Q `{!Stable Q} : keeps (safe Q) (serve_and_restart env fuel ct type_name casefold vrp secret).
Proof.
  unfold serve_and_restart, first_status. do 3 (keeps_step; [keeps_walk|]).
  unfold keeps. eapply post_weaken; [eapply (post_step (safe Q) _ (λ _, safe Q) (safe Q)); [by apply phase_post; [done|apply _]|]|done|by intros []].
  intros v. cbn beta. eapply post_weaken; [apply keeps_drop|done|intros [] s; cbn; [apply safe_weaken|done..]].
  keeps_step; [apply keeps_poll; [apply _|]; keeps_walk|]. do 2 (keeps_step; [keeps_walk|]). by apply keeps_restart; apply _.
Qed.

Lemma keeps_run_epoch Q `{!Stable Q} end_ : keeps (safe Q) (run_epoch env fuel ct type_name casefold vrp secret end_).
Proof.
  unfold run_epoch, write_secrets, write_text. do 3 (keeps_step; [solve [keeps_walk]|]).
  eapply post_then; [apply _|by apply create_resources_post; apply _|]. intros ?.
  keeps_walk; first [by apply keeps_seed_and_catch_up; apply _|by apply keeps_serve_and_restart; apply _].
Qed.

Lemma keeps_launch Q `{!Stable Q} end_ : keeps (safe Q) (launch env fuel ct type_name casefold vrp secret end_).
Proof.
  unfold launch, _persist_failure_receipt. keeps_walk; first [by apply keeps_run_epoch; apply _|by apply keeps_stop_owned; apply _].
Qed.
End Authority.

(** C6. Authority over Docker.  Whatever Docker, the clocks and the files answer,
    and whether the run is accepted, refused or cut off, each Docker command of a
    run of the epoch controller, the cleanup after a failure included, is an
    inspection; or creates its own network or one of its own four volumes; or
    creates a container of its own name and labels, read-only and with all
    capabilities dropped, on no network but its own, that has no privilege,
    device or port and mounts no volume but its own and, of the host, nothing
    that could be written but an output directory of its private directory, where
    only the initializer of a volume, which has no network and mounts that volume
    alone, has CHOWN and FOWNER back; or starts, waits for, stops or removes a
    container that it created before; or runs a command in one of its own three
    databases, which it created before; or stops one of its own name, or removes
    one by force, or removes one of its volumes, when the call just before showed
    its owner's labels on it.  (The image of the workers is the literal
    of the script or a digest that the build profile has checked; that it is
    neither an option nor a mount is enough.) *)
Theorem epoch_authority (env : environment eres) (fuel : nat) (ct : controller) (type_name : exc → string) (casefold : string → string)
    (vrp : string → value → result unit) (secret : string → string) (end_exclusive_ms : Z) (s : epoch) :
  plain_word (ct_worker_image ct) → ep_hist s = [] →
  authorised_calls ct (calls (launch env fuel ct type_name casefold vrp secret end_exclusive_ms s).2).
Proof.
  intros Hi Hs. apply (keeps_launch env fuel ct type_name casefold vrp secret Hi (λ _, True) end_exclusive_ms s).
  split; [|done]. unfold calls. rewrite Hs. by intros [|? ?] ? ? ? [=].
Qed.

(** ** The batches of a catch-up *)
Section CatchUp.
Context (env : environment eres) (ct : controller) (type_name : exc → string) (casefold : string → string).
Context (vrp : string → value → result unit) (secret : string → string).

Lemma settles_eask o : settles (eask env o).
Proof. apply settles_perform. Qed.
Lemma settles_rej {A} msg : settles (rej (A:=A) msg).
Proof. apply settles_throw. Qed.
Lemma settles_rej_if b msg : settles (rej_if b msg).
Proof. apply settles_throw_if. Qed.
Lemma settles_rej_ifR c msg : settles (rej_ifR c msg).
Proof. apply settles_liftR. Qed.
#[local] Hint Resolve settles_rej settles_rej_if settles_rej_ifR : settle.
Ltac settle_ask := match goal with |- settles (eask _ ?o) => exact (settles_eask o) end.
Ltac ask_walk := repeat (cbn beta iota zeta; first [settle_ask | settle_step]).
Lemma settles_docker args seconds allow : settles (docker_with env ct type_name args seconds allow).
Proof. unfold docker_with, docker_failed. ask_walk. Qed.
#[local] Hint Resolve settles_docker : settle.
Lemma settles_inspect name : settles (inspect_container env ct type_name name).
Proof. unfold inspect_container, docker. ask_walk. Qed.
#[local] Hint Resolve settles_inspect : settle.
Lemma settles_all_ask (l : list (M epoch bool)) : Forall settles l → settles (all_ask l).
Proof. induction 1 as [|m l Hm Hl IH]; cbn [all_ask]; [done|]. apply settles_bind; [done|]. by intros []. Qed.
Lemma settles_worker_inputs config output : settles (worker_inputs env ct config output).
Proof.
  unfold worker_inputs. do 2 (settle_step; [first [settle_ask|solve [ask_walk]|apply settles_all_ask; repeat constructor; settle_ask]|]).
  do 3 (settle_step; [solve [ask_walk]|]). destruct (ct_operator ct), (ct_quant ct), (ct_wheelhouse ct); ask_walk.
  apply settles_all_ask. repeat constructor; settle_ask.
Qed.
#[local] Hint Resolve settles_worker_inputs : settle.
Lemma settles_create_container name image sh : settles (_create_container env ct type_name name image sh).
Proof. unfold _create_container, push_created, docker. ask_walk. Qed.
#[local] Hint Resolve settles_create_container : settle.
Lemma settles_phase mode config suffix : settles (phase env ct type_name casefold vrp mode config suffix).
Proof. unfold phase, run_worker, start_worker, tmpfs_of, drop_created, docker_for, docker. ask_walk. Qed.

(** The anchors are chains of the five symbols that begin at [starts]. *)
Definition anchored (rolling : dict) (starts : list Z) : Prop :=
  ∃ anchors, dlookup "anchors" rolling = Some (VDict anchors) ∧ keys_are anchors SYMBOLS = true ∧ NoDup (dkeys anchors) ∧
             mapR first_open anchors.*2 = Ok starts.

(** The batches that lie between [from] and [target] *)
Definition batch_span : Z := 30000 * MINUTE_MS.
Definition batches_to (target from : Z) : Z := if from <? target then (target - from + batch_span - 1) / batch_span else 0.

Lemma batches_step target from : from < target → batches_to target from = 1 + batches_to target (Z.min target (from + batch_span)).
Proof.
  intros H. unfold batches_to. rewrite (proj2 (Z.ltb_lt from target)) by done.
  assert (0 < batch_span) as Hs by done. generalize dependent batch_span. intros sp Hs.
  destruct (Z.min_spec target (from + sp)) as [[Hm ->]|[Hm ->]].
  - rewrite Z.ltb_irrefl. symmetry. apply Z.div_unique with (target - from - 1); lia.
  - destruct (Z.ltb_spec (from + sp) target).
    + replace (target - from + sp - 1) with (target - (from + sp) + sp - 1 + 1 * sp) by lia. rewrite Z.div_add by lia. lia.
    + symmetry. apply Z.div_unique with (target - from - 1); lia.
Qed.

Lemma py_item_Some k (d : dict) v : dlookup k d = Some v → py_item k (VDict d) = Ok v.
Proof. unfold py_item. by intros ->. Qed.

Lemma first_open_Ok record start :
  first_open record = Ok start →
  ∃ r last_open count, record = VDict r ∧ dlookup "last_open_time_ms" r = Some (VInt last_open) ∧
    dlookup "last_close_time_ms" r = Some (VInt (start - 1)) ∧ dlookup "count" r = Some (VInt count) ∧ 1 ≤ count.
Proof.
  unfold first_open. intros H. destruct record as [| | | | | | | |r]; try discriminate H. unfold dget in H.
  destruct (dlookup "last_open_time_ms" r) as [[| |lo| | | | | |]|] eqn:E1; try discriminate H.
  destruct (dlookup "last_close_time_ms" r) as [[| |lc| | | | | |]|] eqn:E2; try discriminate H.
  destruct (dlookup "count" r) as [[| |c| | | | | |]|] eqn:E3; try discriminate H. cbn in H. unfold reject_if in H. ok_inv H. bool_inv.
  exists r, lo, c. replace (lc + 1 - 1) with lc by lia. done.
Qed.

Lemma lagging_anchored rolling starts target : anchored rolling starts → lagging rolling target = Ok (zmin starts <? target).
Proof.
  intros (anchors & Ha & Hk & _ & Hs). unfold lagging. rewrite (py_item_Some _ _ _ Ha), bind_ret. cbn beta iota.
  assert (mapR (λ kv : string * value, last ← py_item "last_close_time_ms" kv.2; plus last 1) anchors = Ok (VInt <$> starts)) as ->.
  { apply mapR_Ok in Hs. apply mapR_Ok. apply Forall2_fmap_l in Hs. apply Forall2_fmap_r. eapply Forall2_impl; [exact Hs|].
    intros kv start (r & lo & c & -> & _ & Hc & _)%first_open_Ok. rewrite (py_item_Some _ _ _ Hc), bind_ret. cbn [plus]. do 2 f_equal. lia. }
  rewrite bind_ret. assert (starts ≠ []) as Hne.
  { apply mapR_Ok, Forall2_length in Hs. intros ->. rewrite length_fmap in Hs. by destruct anchors. }
  rewrite guard_pass by (apply bool_decide_eq_false; by destruct starts). f_equal.
  apply eq_true_iff_eq. rewrite existsb_exists, Z.ltb_lt. split.
  - intros (v & Hv%list_elem_of_In & Hlt). apply list_elem_of_fmap in Hv as (x & -> & Hx). apply zmin_le in Hx.
    unfold num_of, num_ltb, num_cmp in Hlt. destruct (x ?= target) eqn:E; try discriminate Hlt. assert (x < target) by exact E. lia.
  - intros Hlt. exists (VInt (zmin starts)). split; [apply list_elem_of_In, list_elem_of_fmap_2, zmin_elem, Hne|].
    unfold num_of, num_ltb, num_cmp. by apply Z.compare_lt_iff in Hlt as ->.
Qed.

Lemma appended_count v appended symbol : appended_ok v = Some appended → symbol ∈ SYMBOLS → ∃ n, dget symbol appended = VInt n ∧ 0 ≤ n.
Proof.
  unfold appended_ok. destruct v as [| | | | | | | |d]; try done. destruct (_ && _) eqn:Hb; [|done]. intros [= <-] Hs. bool_inv.
  unfold keys_are in *. rewrite same_set_true in *. match goal with H : ∀ x, x ∈ _ ↔ _ |- _ => apply H in Hs end.
  destruct (dlookup symbol d) as [x|] eqn:Hx; [|by apply dlookup_None in Hx]. unfold dget. rewrite Hx. cbn.
  match goal with H : forallb _ d = true |- _ => rewrite forallb_forall in H; specialize (H (symbol, x)) end.
  apply dlookup_elem, list_elem_of_In in Hx. match goal with H : In _ _ → _ |- _ => specialize (H Hx); cbn in H end.
  destruct x as [| |n| | | | | |]; try done. exists n. split; [done|]. by apply Z.leb_le.
Qed.

Lemma dlookup_dset_ne {A} k k' (v : A) d : k ≠ k' → dlookup k (dset k' v d) = dlookup k d.
Proof. intros H. rewrite dlookup_dset. by apply String.eqb_neq in H as ->. Qed.

(** After a batch every chain begins at its end. *)
Lemma roll_anchored end_ v appended rolling starts :
  end_ mod MINUTE_MS = 0 → appended_ok v = Some appended → anchored rolling starts →
  ∃ rolled, roll end_ appended rolling = Ok rolled ∧ anchored rolled (replicate (length starts) end_).
Proof.
  intros Hm Hap (anchors & Ha & Hk & Hnd & Hs). unfold roll. rewrite (dget_Some _ _ _ Ha). cbn beta iota.
  assert (∃ rolled, mapR (roll_anchor end_ appended) anchors = Ok rolled ∧ dkeys rolled = dkeys anchors ∧
            mapR first_open rolled.*2 = Ok (replicate (length starts) end_)) as (rolled & -> & Hr & Hf).
  { assert (∀ k, k ∈ dkeys anchors → k ∈ SYMBOLS) as Hin by (intros k; unfold keys_are in Hk; rewrite same_set_true in Hk; apply Hk).
    clear Ha Hk Hnd. revert starts Hs. induction anchors as [|[k x] anchors IH]; intros starts Hs.
    - injection Hs as <-. by exists [].
    - cbn [fmap list_fmap snd mapR] in Hs. ok_inv Hs. apply first_open_Ok in Hok as (r & lo & c & -> & Hlo & Hlc & Hc & Hpos).
      destruct (IH ltac:(intros k' Hk'; apply Hin; by right) _ Hok0) as (rolled & H1 & H2 & H3).
      destruct (appended_count _ _ k Hap) as (n & Hn & Hn0); [apply Hin; by left|].
      set (r' := dset "last_close_time_ms" (VInt (end_ - 1)) (dset "last_open_time_ms" (VInt (end_ - MINUTE_MS)) (dset "count" (VInt (c + n)) r))).
      assert (roll_anchor end_ appended (k, VDict r) = Ok (k, VDict r')) as Hra.
      { unfold roll_anchor. cbn [snd fst]. by rewrite (py_item_Some _ _ _ Hc), bind_ret, Hn. }
      cbn [mapR]. rewrite Hra, bind_ret, H1, bind_ret. eexists. split; [reflexivity|]. split; [by apply (f_equal (cons k)) in H2|].
      change (((k, VDict r') :: rolled).*2) with (VDict r' :: rolled.*2). cbn [mapR].
      assert (first_open (VDict r') = Ok end_) as ->; [|by rewrite bind_ret, H3].
      unfold r', first_open, dget. rewrite !dlookup_dset. cbn [String.eqb Ascii.eqb Bool.eqb default from_option].
      unfold reject_if, id. cbn iota. rewrite guard_pass; [f_equal; lia|]. rewrite !orb_false_iff, !negb_false_iff, Z.ltb_ge, !Z.eqb_eq.
      split_and!; [lia| |lia]. replace (end_ - MINUTE_MS) with (end_ + (-1) * MINUTE_MS) by lia. by rewrite Z_mod_plus_full. }
  rewrite bind_ret. eexists. split; [reflexivity|]. exists rolled. split_and!; [|by unfold keys_are; rewrite Hr|by rewrite Hr|done].
  by rewrite dlookup_dset, String.eqb_refl.
Qed.

Lemma zmin_replicate n z : (0 < n)%nat → zmin (replicate n z) = z.
Proof. intros Hn. assert (zmin (replicate n z) ∈ replicate n z) as He by (apply zmin_elem; destruct n; [lia|done]). apply elem_of_replicate_inv in He. done. Qed.

(** One batch, when some chain is behind *)
Lemma catch_up_run n limit_msg receipt_msg prefix target rolling starts batches s :
  anchored rolling starts → 0 < target → target mod MINUTE_MS = 0 → 0 ≤ batches ≤ 32 → 33 - batches ≤ Z.of_nat n →
  let '(r, _) := catch_up env ct type_name casefold vrp secret n limit_msg receipt_msg prefix target rolling batches s in
  r ≠ Fuel ∧ ∀ rolled k, r = Ret (rolled, k) →
    k = batches + batches_to target (zmin starts) ∧ k ≤ 32 ∧
    if zmin starts <? target then anchored rolled (replicate (length starts) target) else rolled = rolling.
Proof.
  intros Ha Ht Hm. revert rolling starts batches s Ha. induction n as [|n IH]; intros rolling starts batches s Ha Hb Hn; [lia|].
  destruct (Z.ltb_spec (zmin starts) target) as [Hl|Hl].
  2: { assert (zmin starts <? target = false) as Hf by (by apply Z.ltb_ge). unfold batches_to. rewrite Hf.
       cbn [catch_up]. rewrite (lagging_anchored _ _ _ Ha), Hf. cbn. split; [done|]. intros rolled k [= <- <-]. split_and!; [lia|lia|done]. }
  cbn [catch_up]. assert (zmin starts <? target = true) as Hf by (by apply Z.ltb_lt). rewrite (lagging_anchored _ _ _ Ha), Hf.
  set (end_ := Z.min target (zmin starts + batch_span)).
  assert (Hend : catchup_end_exclusive_ms n (VDict rolling) (VInt target) (VInt MAX_CATCHUP_BARS) = Ok (Some end_) ∧ end_ mod MINUTE_MS = 0).
  { destruct Ha as (anchors & Hd & Hk & Hnd & Hs).
    destruct (catchup_end_closed n (VDict rolling) target MAX_CATCHUP_BARS anchors starts) as (-> & _ & Hm'); try done.
    - unfold seed_anchors. rewrite (dget_Some _ _ _ Hd). by rewrite Hk.
    - split; [|done]. change (MAX_CATCHUP_BARS / 5 * MINUTE_MS) with batch_span. fold end_.
      destruct (Z.leb_spec end_ (zmin starts)) as [Hle|]; [|done]. assert (0 < batch_span) by done. subst end_. lia. }
  destruct Hend as [Hend Hem]. rewrite (bind_val (liftR (Ok true)) _ s true s eq_refl). cbn [negb]. rewrite Hend.
  rewrite (bind_val (liftR (Ok (Some end_))) _ s (Some end_) s eq_refl). cbn beta iota zeta.
  destruct (Z.ltb_spec 32 (batches + 1)) as [Hb'|Hb']; [by cbn; split; [done|intros ? ? [=]]|].
  rewrite (bind_val (rej_if false limit_msg) _ s tt s eq_refl). cbn beta.
  pose proof (settles_phase "catchup" (VDict (catchup_config ct secret end_)) (prefix +:+ pad 2 (batches + 1)) s) as Hset.
  destruct (phase _ _ _ _ _ _ _ _ s) as [[receipt|e|] s1] eqn:E; rewrite (bind_out _ _ _ _ _ E); [|by split; [done|intros ? ? [=]]|by destruct Hset].
  destruct (py_get "appended" receipt) as [v|e]; [|by cbn; split; [done|intros ? ? [=]]].
  rewrite (bind_val (liftR (Ok v)) _ s1 v s1 eq_refl). cbn beta.
  destruct (appended_ok v) as [appended|] eqn:Hap; [|by cbn; split; [done|intros ? ? [=]]].
  destruct (roll_anchored end_ v appended rolling starts Hem Hap Ha) as (rolled & -> & Har).
  rewrite (bind_val (liftR (Ok rolled)) _ s1 rolled s1 eq_refl). cbn beta.
  assert (0 < length starts)%nat as Hpos.
  { destruct Ha as (anchors & _ & Hk & _ & Hs). apply mapR_Ok, Forall2_length in Hs. rewrite <- Hs, length_fmap. destruct anchors; [done|cbn; lia]. }
  pose proof (IH rolled _ (batches + 1) s1 Har ltac:(lia) ltac:(lia)) as H. rewrite (zmin_replicate _ end_) in H by done.
  destruct (catch_up _ _ _ _ _ _ n _ _ _ _ _ _ s1) as [r s2]. destruct H as [Hr H]. split; [done|].
  intros rolled' k Hk. destruct (H rolled' k Hk) as (-> & Hk32 & Hlast). split; [rewrite (batches_step target (zmin starts)) by done; fold end_; lia|].
  split; [done|]. rewrite length_replicate in Hlast.
  destruct (Z.ltb_spec end_ target) as [|Hge]; [done|]. replace target with end_ by (subst end_; lia). by subst rolled'.
Qed.
End CatchUp.

(** C18. The catch-up ends, and with the least number of batches.  For anchors
    that are chains of the five symbols and a target that is a positive whole
    minute, 33 rounds are enough for the loop, whatever Docker, the clocks and the
    workers answer: it raises an error or returns; when it returns, the number of
    batches is the distance from the earliest chain to the target in spans of
    30000 minutes, rounded up, and at most 32, and every chain then ends just
    before the target (or, if none was behind, the anchors are as they were). *)
Theorem catch_up_exact (env : environment eres) (fuel : nat) (ct : controller) (type_name : exc → string) (casefold : string → string)
    (vrp : string → value → result unit) (secret : string → string) (limit_msg receipt_msg prefix : string) (target : Z) (rolling : dict)
    (starts : list Z) (s : epoch) :
  anchored rolling starts → 0 < target → target mod MINUTE_MS = 0 → (33 ≤ fuel)%nat →
  let '(r, _) := catch_up env ct type_name casefold vrp secret fuel limit_msg receipt_msg prefix target rolling 0 s in
  r ≠ Fuel ∧ ∀ rolled batches, r = Ret (rolled, batches) →
    batches = batches_to target (zmin starts) ∧ batches ≤ 32 ∧
    if zmin starts <? target then anchored rolled (replicate (length starts) target) else rolled = rolling.
Proof.
  intros Ha Ht Hm Hf.
  pose proof (catch_up_run env ct type_name casefold vrp secret fuel limit_msg receipt_msg prefix target rolling starts 0 s Ha Ht Hm
    ltac:(lia) ltac:(lia)) as H.
  destruct (catch_up _ _ _ _ _ _ _ _ _ _ _ _ _ _) as [r s']. by setoid_rewrite Z.add_0_l in H.
Qed.

(** ** Witnesses *)
Definition sample_controller : controller :=
  Controller "00112233445566778899aabbccddeeff" None "image" "C:\work" None (fz 9000) None None None (Path "D:\aux" "wheels").
Definition sample_secret (key : string) : string := "00000000000000000000000000000000000000000000000000000000000000aa".
Definition broken : environment eres := λ _ o, raise OSError "no answer".
Definition epoch0 : epoch := Epoch [] [] "ADMISSION" 0 [].

Theorem epoch_authority_witness :
  authorised_calls sample_controller
    (calls (launch broken 100 sample_controller (λ _, "OSError") (λ s, s) (λ _ _, Ok tt) sample_secret 1790000000000 epoch0).2).
Proof. by apply epoch_authority. Defined.

(** The accepted seed and a target two batches away *)
Definition seeded (first : Z) : dict := [("anchors", VDict ((λ s, (s, sample_anchor first)) <$> SYMBOLS))].

Theorem catch_up_exact_witness :
  let '(r, _) := catch_up broken sample_controller (λ _, "OSError") (λ s, s) (λ _ _, Ok tt) sample_secret 33 "" "" "" 1792000020000
                   (seeded 1789832580000) 0 epoch0 in
  r ≠ Fuel ∧ ∀ rolled batches, r = Ret (rolled, batches) →
    batches = batches_to 1792000020000 (zmin (replicate 5 1789832640000)) ∧ batches ≤ 32 ∧
    if zmin (replicate 5 1789832640000) <? 1792000020000 then anchored rolled (replicate 5 1792000020000) else rolled = seeded 1789832580000.
Proof.
  apply (catch_up_exact broken 33 sample_controller (λ _, "OSError") (λ s, s) (λ _ _, Ok tt) sample_secret "" "" "" 1792000020000
           (seeded 1789832580000) (replicate 5 1789832640000) epoch0); [|done|reflexivity|done].
  eexists. split; [reflexivity|]. split; [reflexivity|]. split; [by_decide|reflexivity].
Defined.
