(* ===== verification/EpochTraceSpec.v ===== *)
(** * What a step of the epoch controller leaves in the history ([EpochDocker], [EpochRun])

    A step that returns has made certain calls, in a certain order, and what it
    returns was read in their answers: the stopped sources, the receipt of a
    worker that was started and waited for, the restart of the server. *)

From stdpp Require Import strings.
From S2P Require Import Prelude PyStr Regex Sha256 PyVal PyTime Json PyBytes Effects EpochRuntime EpochBoot EpochControl EpochDocker EpochDockerSpec EpochRun.

Local Open Scope string_scope.
Local Open Scope list_scope.
Local Open Scope Z_scope.

(** ** Parts of a history *)
Abbreviation history := (list (event eres)).

(** The events [l] follow one another somewhere in [h]. *)
Definition occurs (l h : history) : Prop := ∃ pre post, h = pre ++ l ++ post.
Lemma occurs_more l h h' : occurs l h → occurs l (h ++ h').
Proof. intros (pre & post & ->). exists pre, (post ++ h'). by rewrite <- !app_assoc. Qed.

(** An event that changes nothing in Docker *)
Definition watching (e : event eres) : Prop := match native e with Some c => observing c.1 = true | None => True end.

(** The state has grown out of the history [h] by watching. *)
Definition watched (h : history) (s : epoch) : Prop := ∃ l, ep_hist s = h ++ l ∧ Forall watching l.

Definition viewed (raw : string) (view : dict) : Prop := ∃ v, json_loads raw = Ok v ∧ normalize_container_metadata v = Ok view.
Definition status_is (view : dict) (status : string) : Prop := py_get "Status" (or_dict (dget "state" view)) = Ok (VStr status).

(** ** The status of a healthy server *)
Definition healthy (owner : string) (st : dict) : Prop :=
  dget "state" st = VStr "RUNNING_NONTRADING" ∧ dget "owner" st = VStr owner ∧ dget "STRATEGY_POLICY" st = VStr "REJECT_ALL" ∧
  Forall (λ key, dget key st = VBool false) ["PAPER_QUALIFIED"; "ALPHA_READY"; "LIVE_READY"] ∧
  Forall (λ key, py_eq (dget key st) (VInt 0) = true) ["pending_outbox"; "unresolved_inbox"; "uncompleted_publications"] ∧
  ∃ w, dget "watermarks_ms" st = VDict w ∧ ∀ s, s ∈ SYMBOLS → ∃ n, dlookup s w = Some (VInt n) ∧ 0 < n.

(** [st] is further than [first] in every symbol. *)
Definition further (first st : dict) : Prop :=
  ∃ v w, dget "watermarks_ms" first = VDict v ∧ dget "watermarks_ms" st = VDict w ∧
    ∀ s, s ∈ SYMBOLS → ∃ m n, dlookup s v = Some (VInt m) ∧ dlookup s w = Some (VInt n) ∧ m < n.

Lemma watermarks_ok_true v : watermarks_ok v = true → ∃ w, v = VDict w ∧ ∀ s, s ∈ SYMBOLS → ∃ n, dlookup s w = Some (VInt n) ∧ 0 < n.
Proof.
  unfold watermarks_ok. destruct v as [| | | | | | | |w]; try done. intros [Hk Hf]%andb_true_iff. exists w. split; [done|]. intros s Hs.
  unfold keys_are in Hk. rewrite same_set_true in Hk. apply Hk in Hs.
  destruct (dlookup s w) as [x|] eqn:Hx; [|by apply dlookup_None in Hx]. apply dlookup_elem, list_elem_of_In in Hx.
  rewrite forallb_forall in Hf. specialize (Hf _ Hx). cbn in Hf. destruct x as [| |n| | | | | |]; try done. exists n. split; [done|]. by apply Z.ltb_lt.
Qed.

Lemma running_healthy now v owner previous st :
  validate_running_status now v owner previous = Ok st → v = VDict st ∧ healthy owner st.
Proof.
  unfold validate_running_status, reject_if. destruct v as [| | | | | | | |d]; try done. intros H.
  apply bind_Ok in H as ([] & H1%raise_if_Ok & H). apply bind_Ok in H as ([] & H2%raise_if_Ok & H).
  apply bind_Ok in H as ([] & H3%raise_if_Ok & H). apply bind_Ok in H as ([o a] & _ & H). cbn beta iota in H.
  apply bind_Ok in H as ([] & _ & H).
  assert (st = d) as ->.
  { destruct previous as [p|]; [|by injection H as ->]. apply bind_Ok in H as ([] & _ & H). apply bind_Ok in H as (? & _ & H).
    apply bind_Ok in H as (? & _ & H). apply bind_Ok in H as ([] & _ & H). by injection H as ->. }
  split; [done|]. clear H. bool_inv.
  repeat match goal with H : py_eq _ (VStr _) = true |- _ => apply py_eq_str in H end.
  match goal with H : watermarks_ok _ = true |- _ => apply watermarks_ok_true in H end.
  unfold healthy. split_and!; try done.
  - apply Forall_forall. intros key Hkey%list_elem_of_In. rewrite forallb_forall in *. 
    match goal with H : ∀ x, In x ["PAPER_QUALIFIED"; _; _] → _ |- _ => specialize (H key Hkey) end. by destruct (dget key d) as [|[]| | | | | | |].
  - apply Forall_forall. intros key Hkey%list_elem_of_In. rewrite forallb_forall in *. auto.
Qed.

Lemma running_further now v owner previous st first :
  validate_running_status now v owner (Some previous) = Ok st → first = previous → healthy owner first → further first st.
Proof.
  intros H -> (_ & _ & _ & _ & _ & w0 & Hw0 & H0). destruct (running_healthy _ _ _ _ _ H) as [-> (_ & _ & _ & _ & _ & w & Hw & Hn)].
  exists w0, w. split; [done|]. split; [done|]. intros s Hs. destruct (H0 s Hs) as (m & Hm & _). destruct (Hn s Hs) as (n & Hn' & _).
  exists m, n. split; [done|]. split; [done|].
  unfold validate_running_status in H. apply bind_Ok in H as ([] & _ & H). apply bind_Ok in H as ([] & _ & H). apply bind_Ok in H as ([] & _ & H).
  apply bind_Ok in H as ([o a] & _ & H). apply bind_Ok in H as ([] & _ & H). apply bind_Ok in H as ([] & H & _).
  rewrite Hw0, Hw in H. unfold reject_ifR in H. apply raise_ifR_Ok, orR_Ok_false in H as [_ H].
  rewrite anyR_Ok_false in H. rewrite Forall_forall in H. specialize (H s Hs). cbn beta in H.
  rewrite (dget_Some _ _ _ Hm), (dget_Some _ _ _ Hn') in H. unfold le_value in H. cbn in H. injection H as H.
  unfold num_leb, num_cmp in H. destruct (n ?= m) eqn:E; try discriminate H. apply Z.compare_gt_iff in E. lia.
Qed.

Section Trace.
Context (env : environment eres) (fuel : nat) (ct : controller) (type_name : exc → string) (casefold : string → string).
Context (vrp : string → value → result unit) (secret : string → string).
Notation nm := (ct_names ct).

(** A Docker command that was answered, an inspection, the text of a file *)
Definition docker_event (seconds : Z) (args : list string) (answer : Z * string) : event eres :=
  Ev (ENative args (ct_deadline ct) (fz seconds) false) (Ok answer).
Definition inspect_event (name : string) (answer : Z * string) : event eres := docker_event 20 ["inspect"; "--format"; VIEW; name] answer.
Definition read_event (p : path) (text : string) : event eres := Ev (ERead p) (Ok text).

Lemma eask_Ret o s a s' : eask env o s = (Ret a, s') → s' = elog (Ev o (Ok a)) s.
Proof. unfold eask, perform. intros H. destruct (env (ep_hist s) o) as [x|e] eqn:E; [|done]. by injection H as <- <-. Qed.

Lemma docker_Ret args seconds s raw s' :
  docker_with env ct type_name args seconds false s = (Ret raw, s') → ∃ code, s' = elog (docker_event seconds args (code, raw)) s.
Proof.
  unfold docker_with, rej_if. intros H. run_inv H. unfold try_except in H.
  match type of H with match ?m with _ => _ end = _ => destruct m as [[x|e|] s1] eqn:F end; [|destruct (is_exception _)|]; try done.
  - injection H as -> ->. apply bind_Ret in F as ([code out] & s2 & F & H). apply (eask_Ret (ENative _ _ _ _)) in F. cbn in H. injection H as <- <-. exists code. by rewrite F.
  - unfold docker_failed in H. apply bind_Ret in H as (? & ? & _ & H). by apply throw_Ret in H.
Qed.

Lemma inspection_Ret name s view s' :
  inspect_container env ct type_name name s = (Ret view, s') → ∃ answer, s' = elog (inspect_event name answer) s ∧ viewed answer.2 view.
Proof.
  unfold inspect_container, docker. intros H. run_inv H. apply docker_Ret in Hrun as [code ->]. exists (code, a).
  split; [done|]. cbn. by eexists.
Qed.

(** ** The stopped sources *)
(** [raw] shows the container [name] as it was taken over: its identity and image,
    exited and without a process, port or privilege; [sha] is the digest of it. *)
Definition stopped (name identifier raw sha : string) : Prop :=
  ∃ view, viewed raw view ∧ dget "id" view = VStr identifier ∧ dget "image" view = VStr (legacy_image name) ∧ status_is view "exited" ∧
    Forall (λ key, ∃ v, py_get key (or_dict (dget "state" view)) = Ok v ∧ py_truthy v = false) ["Running"; "Paused"; "Restarting"; "Dead"; "Pid"] ∧
    py_truthy (dget "ports" view) = false ∧ py_truthy (dget "privileged" view) = false ∧ digest (VDict view) = Ok sha.

Definition legacy_look (d : dict) (l : history) : Prop :=
  ∃ pg redis answer answer',
    d = [("legacy_pg", VStr SOURCE_ID); ("legacy_redis", VStr LEGACY_REDIS_ID); ("state", VStr "stopped");
         ("metadata_sha256", VDict [(SOURCE, VStr pg); (LEGACY_REDIS, VStr redis)])] ∧
    l = [inspect_event SOURCE answer; inspect_event LEGACY_REDIS answer'] ∧
    stopped SOURCE SOURCE_ID answer.2 pg ∧ stopped LEGACY_REDIS LEGACY_REDIS_ID answer'.2 redis.

Lemma legacy_differs_false name identifier view :
  legacy_differs name identifier view = Ok false →
  dget "id" view = VStr identifier ∧ dget "image" view = VStr (legacy_image name) ∧ status_is view "exited" ∧
  Forall (λ key, ∃ v, py_get key (or_dict (dget "state" view)) = Ok v ∧ py_truthy v = false) ["Running"; "Paused"; "Restarting"; "Dead"; "Pid"] ∧
  py_truthy (dget "ports" view) = false ∧ py_truthy (dget "privileged" view) = false.
Proof.
  unfold legacy_differs. cbv zeta. intros [[[[H1 H2]%orR_Ok_false H3]%orR_Ok_false H4]%orR_Ok_false _]%orR_Ok_false.
  injection H1 as H1. injection H4 as H4. apply orb_false_iff in H1 as [Hid Him], H4 as [Hp Hpr].
  apply negb_false_iff, py_eq_str in Hid, Him. apply bind_Ok in H2 as (st & Hst & H2). injection H2 as H2. apply negb_false_iff, py_eq_str in H2. subst st.
  split_and!; try done. apply anyR_Ok_false in H3. eapply Forall_impl; [exact H3|]. intros key (v & Hv & H)%bind_Ok. exists v. by injection H.
Qed.

Lemma snapshot_Ret name identifier s sha s' :
  legacy_snapshot env ct type_name name identifier s = (Ret sha, s') →
  ∃ answer, s' = elog (inspect_event name answer) s ∧ stopped name identifier answer.2 sha.
Proof.
  unfold legacy_snapshot, rej_if, rej_ifR. intros H. run_inv H.
  match goal with Hi : inspect_container _ _ _ _ _ = _ |- _ => apply inspection_Ret in Hi as (answer & -> & Hv) end.
  exists answer. split; [done|]. match goal with E : raise_ifR _ _ _ = Ok _ |- _ => apply raise_ifR_Ok, legacy_differs_false in E as (?&?&?&?&?&?) end.
  eexists. by split_and!.
Qed.

Lemma legacy_Ret s d s' :
  assert_legacy_sources_stopped env ct type_name LEGACY_REDIS_ID s = (Ret d, s') →
  ep_proofs s' = ep_proofs s ∧ ∃ l, ep_hist s' = ep_hist s ++ l ∧ legacy_look d l.
Proof.
  unfold assert_legacy_sources_stopped. intros H. run_inv H. apply snapshot_Ret in Hrun as (a1 & -> & H1), Hrun0 as (a2 & -> & H2).
  split; [done|]. eexists. split; [cbn; by rewrite <- app_assoc|]. exists a, a0, a1, a2. by split_and!.
Qed.

(** The same record was made of the same digests. *)
Lemma legacy_same d d' l l' : legacy_look d l → legacy_look d' l' → py_eq (VDict d) (VDict d') = true → d' = d.
Proof.
  intros (pg & redis & ? & ? & -> & _) (pg' & redis' & ? & ? & -> & _) H.
  assert (pg = pg' ∧ redis = redis') as [-> ->]; [|done]. cbn in H. rewrite !andb_true_iff, !String.eqb_eq in H. by destruct H as [(-> & -> & _) _].
Qed.

(** ** The receipt of a worker *)
(** The worker of [mode] was started and ended with 0, and [v] was then read in
    the file that it writes to its own output directory. *)
Definition output_of (mode : string) : path := Path (path_text (in_work ct ("output-" +:+ mode))) (mode +:+ ".json").
Definition reported (mode : string) (v : value) (h : history) : Prop :=
  ∃ name started code out text, name = worker_name ct mode "" ∧ strip out = "0" ∧ json_loads text = Ok v ∧
    occurs [docker_event 20 ["start"; name] started; docker_event (if slow mode then 1810 else 610) ["wait"; name] (code, out);
            Ev (EFile (output_of mode)) (Ok true); read_event (output_of mode) text] h.

Lemma start_Ret name mode config output s s' :
  start_worker env ct type_name casefold name mode config output s = (Ret tt, s') →
  ∃ h answer, ep_hist s' = h ++ [docker_event 20 ["start"; name] answer].
Proof.
  unfold start_worker, docker. intros H. run_inv H.
  match goal with Hd : docker_with _ _ _ ["start"; _] _ _ _ = _ |- _ => apply docker_Ret in Hd as [code ->] end.
  by eexists _, _.
Qed.

Lemma drop_Ret name s u s' : drop_created name s = (Ret u, s') → ep_hist s' = ep_hist s ∧ ep_proofs s' = ep_proofs s.
Proof. unfold drop_created. intros H. run_inv H. destruct (among _ _); run_inv H; done. Qed.

Lemma receipt_same mode v r : receipt_ok ct mode v = Ok r → v = VDict r.
Proof.
  unfold receipt_ok. destruct v as [| | | | | | | |d]; try done. intros H.
  apply bind_Ok in H as (? & _ & H). apply bind_Ok in H as (? & _ & H). apply bind_Ok in H as (? & _ & H). by injection H as ->.
Qed.

Lemma worker_Ret mode config s v s' :
  mode ≠ "serve" → mode ≠ "history-state" →
  run_worker env ct type_name casefold mode config (in_work ct ("output-" +:+ mode)) "" s = (Ret v, s') →
  ∃ r, v = VDict r ∧ receipt_ok ct mode v = Ok r ∧ reported mode v (ep_hist s') ∧ dlookup mode (ep_proofs s') = Some v.
Proof.
  intros Hm%String.eqb_neq Hh%String.eqb_neq. unfold run_worker, docker_for, docker, rej_if. rewrite Hm, Hh. cbv zeta. intros H. run_inv H.
  match goal with Hs : start_worker _ _ _ _ _ _ _ _ _ = (Ret ?u, _) |- _ => destruct u; apply start_Ret in Hs as (h & started & Hh0) end.
  repeat match goal with Hd : docker_with _ _ _ _ _ _ _ = _ |- _ => apply docker_Ret in Hd as [? ->] end.
  match goal with Hf : eask _ (EFile _) _ = _ |- _ => apply (eask_Ret (EFile _)) in Hf as -> end.
  match goal with Hf : eask _ (ERead _) _ = _ |- _ => apply (eask_Ret (ERead _)) in Hf as -> end.
  match goal with Hr : receipt_ok _ _ ?w = Ok ?r |- _ => pose proof (receipt_same _ _ _ Hr) as ->; exists r end.
  match goal with Hd : drop_created _ _ = _ |- _ => apply drop_Ret in Hd as [E1 E2] end.
  split; [done|]. split; [done|]. split.
  - rewrite E1. cbn. rewrite Hh0.
    match goal with Hn : negb (String.eqb (strip _) "0") = false |- _ => apply negb_false_iff, String.eqb_eq in Hn; rename Hn into H0 end.
    match goal with Hn : negb ?b = false |- _ => apply negb_false_iff in Hn as -> end.
    eexists _, started, _, _, _. split; [reflexivity|]. split; [exact H0|]. split; [eassumption|].
    eexists h, [_]. rewrite <- !app_assoc. reflexivity.
  - rewrite E2. cbn. by rewrite dlookup_dset, String.eqb_refl.
Qed.

(** ** The restart of the server *)
Definition shows (raw status : string) : Prop := ∃ view, viewed raw view ∧ status_is view status.

(** The last events of [h]: a first status, of a healthy server, was read; the
    server was stopped, seen exited and started; and then, with nothing done to
    Docker in between, the status [v] was read, of a healthy server at another
    time and further in every symbol, and the server was seen running. *)
Definition restarted (v : value) (h : history) : Prop :=
  ∃ pre text now now' stop exited start wait text' later later' up first st,
    h = pre ++ [read_event (status_path ct) text; Ev ENow (Ok now); Ev ENow (Ok now'); docker_event 25 ["stop"; "--time=15"; n_serve nm] stop;
                inspect_event (n_serve nm) exited; docker_event 20 ["start"; n_serve nm] start] ++ wait ++
        [read_event (status_path ct) text'; Ev ENow (Ok later); Ev ENow (Ok later'); inspect_event (n_serve nm) up] ∧
    Forall watching wait ∧ json_loads text = Ok (VDict first) ∧ json_loads text' = Ok (VDict st) ∧ v = VDict st ∧
    healthy (ct_owner ct) first ∧ healthy (ct_owner ct) st ∧ further first st ∧
    py_eq (dget "observed_at_utc" st) (dget "observed_at_utc" first) = false ∧ shows exited.2 "exited" ∧ shows up.2 "running".

Section Watched.
Context (J : epoch → Prop) (HJ : ∀ s e, J s → watching e → J (elog e s)).

Lemma watched_ask o : (∀ a, watching (Ev o a)) → keeps J (eask env o).
Proof using HJ. intros Ho s Hs. unfold eask, perform. cbn. by apply HJ. Qed.
#[local] Hint Extern 1 (keeps J (eask _ _)) => (by apply watched_ask) : keeps.

Lemma watched_docker args seconds allow : observing args = true → keeps J (docker_with env ct type_name args seconds allow).
Proof using HJ. intros Ho. unfold docker_with, docker_failed, rej, rej_if. keeps_walk. Qed.

Lemma watched_inspect name : keeps J (inspect_container env ct type_name name).
Proof using HJ. unfold inspect_container, docker. keeps_step; [by apply watched_docker|]. keeps_walk. Qed.
#[local] Hint Resolve watched_inspect : keeps.

Lemma poll_ends {A} seconds margin (body : M epoch (option A)) msg (QR : A → epoch → Prop) :
  post J body (ends (λ r, match r with Some b => QR b | None => J end) (λ _, True)) →
  post J (poll env fuel ct seconds margin body msg) (ends QR (λ _, True)).
Proof using HJ.
  intros Hb. unfold poll. eapply post_step; [apply post_keeps; [solve [keeps_walk]|done]|]. intros ?; cbn beta.
  apply while_ends; [apply post_keeps; [keeps_walk|done]|exact Hb|]. by intros s Hs.
Qed.

(** One look of a poll *)
Lemma seen_ends {A} (look : M epoch (option A)) path (QR : A → epoch → Prop) :
  keeps J look → (∀ s v s', J s → look s = (Ret (Some v), s') → QR v s') →
  post J (plain ← eask env (EFile path);
          seen ← (if (plain : bool) then try_except json_or_os_error look (λ _, mret None) else mret None);
          match seen with Some v => mret (Some v) | None => eask env ESleep;; mret None end)
    (ends (λ r, match r with Some b => QR b | None => J end) (λ _, True)).
Proof using HJ.
  intros Hk HQ. eapply post_step; [apply post_keeps; [by apply watched_ask|done]|]. intros plain; cbn beta.
  eapply (post_step _ (λ r s, match r with Some b => QR b s | None => J s end)).
  - destruct plain; [|by intros s Hs]. intros s Hs. specialize (Hk s Hs). unfold try_except.
    destruct (look s) as [[[v|]|e|] s'] eqn:E; cbn in *; [by eapply HQ|done| |done]. by destruct (json_or_os_error _).
  - intros [v|]; [by intros s Hs|]. intros s Hs. pose proof (watched_ask ESleep (λ _, I) s Hs) as H.
    unfold mbind, M_bind. destruct (eask env ESleep s) as [[u|e|] s'] eqn:E; cbn in *; try done; by rewrite E in H.
Qed.

Lemma watched_restarted path first : keeps J (look_restarted env ct type_name path first).
Proof using HJ. unfold look_restarted, rej_if. keeps_walk. Qed.
End Watched.

(** ** The server, stopped and started *)
Lemma grown_more h s e : (∃ l, ep_hist s = h ++ l) → watching e → ∃ l, ep_hist (elog e s) = h ++ l.
Proof. intros [l Hl] _. exists (l ++ [e]). cbn. by rewrite Hl, app_assoc. Qed.
Lemma watched_more h s e : watched h s → watching e → watched h (elog e s).
Proof.
  intros (l & Hl & Hw) He. exists (l ++ [e]). split; [cbn; by rewrite Hl, app_assoc|]. apply Forall_app. split; [done|]. by constructor.
Qed.

Lemma first_status_ends h :
  post (λ s, ∃ l, ep_hist s = h ++ l) (first_status env fuel ct)
    (ends (λ v s, ∃ l text, ep_hist s = h ++ l ++ [read_event (status_path ct) text] ∧ json_loads text = Ok v) (λ _, True)).
Proof.
  unfold first_status. apply poll_ends; [apply grown_more|]. apply seen_ends; [apply grown_more| |].
  - keeps_step; [by apply (watched_ask _ (grown_more h) (ERead _))|]. keeps_walk.
  - intros s v s' [l Hl] H. run_inv H. apply (eask_Ret (ERead _)) in Hrun as ->.
    exists l, a. split; [cbn; by rewrite Hl, <- app_assoc|].
    match goal with F : Some _ = (if ?b then _ else _) |- _ => destruct b; [by injection F as ->|done] end.
Qed.

Lemma running_shows view : running view = Ok true → status_is view "running".
Proof. unfold running. intros (v & Hv & H)%bind_Ok. injection H as H%py_eq_str. by subst. Qed.

Lemma look_Ret path first s v s' :
  look_restarted env ct type_name path first s = (Ret (Some v), s') →
  ∃ text later later' up st, ep_hist s' = ep_hist s ++ [read_event path text; Ev ENow (Ok later); Ev ENow (Ok later'); inspect_event (n_serve nm) up] ∧
    json_loads text = Ok (VDict st) ∧ v = VDict st ∧ shows up.2 "running" ∧ healthy (ct_owner ct) st ∧
    ∀ d, first = VDict d → healthy (ct_owner ct) d → further d st ∧ py_eq (dget "observed_at_utc" st) (dget "observed_at_utc" d) = false.
Proof.
  unfold look_restarted, rej_if. intros H. run_inv H. destruct (py_eq _ _) eqn:Hold; [by run_inv H|]. run_inv H.
  match type of H with (if ?b then _ else _) _ = _ => destruct b; [by run_inv H|] end. run_inv H.
  apply (eask_Ret (ERead _)) in Hrun as ->. apply (eask_Ret ENow) in Hrun3 as ->, Hrun6 as ->. apply inspection_Ret in Hrun8 as (up & -> & Hview).
  apply negb_false_iff in Hrun10 as ->. apply running_shows in Hrun9. pose proof (running_healthy _ _ _ _ _ Hrun7) as [-> Hst].
  exists a, a3, a6, up, a7. split; [cbn; by rewrite <- !app_assoc|]. split; [done|]. split; [done|]. split; [by eexists|]. split; [done|].
  intros d -> Hd. split; [by eapply running_further|]. cbn in Hrun1, Hrun2. by injection Hrun1 as <-; injection Hrun2 as <-.
Qed.

Lemma restart_Ret path first s v s' :
  restart_serve_and_validate env fuel ct type_name path first s = (Ret v, s') →
  ∃ now stop exited start wait text later later' up d st, first = VDict d ∧ v = VDict st ∧
    ep_hist s' = ep_hist s ++ [Ev ENow (Ok now); docker_event 25 ["stop"; "--time=15"; n_serve nm] stop; inspect_event (n_serve nm) exited;
                               docker_event 20 ["start"; n_serve nm] start] ++ wait ++
                 [read_event path text; Ev ENow (Ok later); Ev ENow (Ok later'); inspect_event (n_serve nm) up] ∧
    Forall watching wait ∧ json_loads text = Ok (VDict st) ∧ healthy (ct_owner ct) d ∧ healthy (ct_owner ct) st ∧ further d st ∧
    py_eq (dget "observed_at_utc" st) (dget "observed_at_utc" d) = false ∧ shows exited.2 "exited" ∧ shows up.2 "running".
Proof.
  unfold restart_serve_and_validate, docker_for, docker, rej_if. intros H. run_inv H.
  repeat match goal with Hd : docker_with _ _ _ _ _ _ _ = _ |- _ => apply docker_Ret in Hd as [? ->] end.
  match goal with Hi : inspect_container _ _ _ _ _ = _ |- _ => apply inspection_Ret in Hi as (exited & -> & Hexited) end.
  match goal with Hn : eask _ ENow _ = _ |- _ => apply (eask_Ret ENow) in Hn as -> end.
  match goal with Hv : validate_running_status _ _ _ None = Ok _ |- _ => apply running_healthy in Hv as [-> Hfirst] end.
  match type of H with poll _ _ _ _ _ _ _ ?s0 = _ => set (h := ep_hist s0); assert (watched h s0) as Hw by (exists []; by rewrite app_nil_r) end.
  eapply (ends_run (watched h) (λ v s, ∃ s1, watched h s1 ∧ look_restarted env ct type_name path (VDict a0) s1 = (Ret (Some v), s))) in H as (s1 & (wait & Hs1 & Hwait) & H); [| |exact Hw].
  2: { apply poll_ends; [apply watched_more|]. apply seen_ends; [apply watched_more|by apply watched_restarted; [apply watched_more]|eauto]. }
  apply look_Ret in H as (text & later & later' & up & st & Hh & Htext & -> & Hup & Hst & Hd).
  destruct (Hd _ eq_refl Hfirst) as [Hfurther Hold].
  exists a, (x0, a1), exited, (x, a5), wait, text, later, later', up, a0, st. split; [done|]. split; [done|]. split.
  { rewrite Hh, Hs1. subst h. cbn. by rewrite <- !app_assoc. }
  apply negb_false_iff, py_eq_str in Hrun4. subst a3. split_and!; try done. by exists a2.
Qed.

End Trace.
