(* ===== verification/EpochAcceptSpec.v ===== *)
(** * What an accepted run of the epoch controller has shown ([EpochRun])

    The proofs that [run_epoch] records survive to its result, and what it read
    and did to come to them stays in the history: what was seeded, restored,
    qualified and restarted, and that the stopped sources are as they were. *)

From stdpp Require Import strings.
From S2P Require Import Prelude PyStr Regex Sha256 PyVal PyTime Json PyBytes Effects EpochRuntime EpochBoot EpochControl EpochDocker EpochDockerSpec EpochRun EpochTraceSpec.

Local Open Scope string_scope.
Local Open Scope list_scope.
Local Open Scope Z_scope.

(** The receipt of a seed that has the accepted history of the five symbols *)
Definition chain_of (symbol : string) (anchor : value) : Prop :=
  Forall (λ kv, ∃ v, py_get kv.1 anchor = Ok v ∧ py_eq v (VInt kv.2) = true)
    [("count", seed_count symbol); ("first_open_time_ms", SEED_LAST_OPEN - (seed_count symbol - 1) * MINUTE_MS);
     ("last_open_time_ms", SEED_LAST_OPEN); ("last_close_time_ms", SEED_LAST_OPEN + MINUTE_MS - 1)].
Definition seeded_receipt (v : value) : Prop :=
  ∃ s anchors, v = VDict s ∧ dget "anchors" s = VDict anchors ∧ py_eq (dget "target_outbox_rows_after" s) (VInt 0) = true ∧
    py_eq (dget "rows" s) (VInt 173164) = true ∧ hex_text 64 (dgetd "ordered_digest_sha256" (VStr "") s) = true ∧
    ∀ symbol, symbol ∈ SYMBOLS → ∃ a, dlookup symbol anchors = Some a ∧ chain_of symbol a.

Lemma differs_false key v n : (x ← py_get key v; Ok (negb (py_eq x (VInt n)))) = Ok false → ∃ x, py_get key v = Ok x ∧ py_eq x (VInt n) = true.
Proof. intros (x & Hx & H)%bind_Ok. exists x. split; [done|]. injection H as H. by apply negb_false_iff. Qed.

Lemma accepted_chain symbol a u : accepted_anchor (symbol, a) = Ok u → chain_of symbol a.
Proof.
  unfold accepted_anchor, reject_ifR. intros [[[H1 H2]%orR_Ok_false H3]%orR_Ok_false H4]%raise_ifR_Ok%orR_Ok_false.
  repeat constructor; by apply differs_false.
Qed.

Lemma accepted_seed_receipt v d : accepted_seed v = Ok d → v = VDict d ∧ seeded_receipt v.
Proof.
  unfold accepted_seed, reject_if. destruct v as [| | | | | | | |s]; try done. destruct (dget "anchors" s) as [| | | | | | | |anchors] eqn:Ha; try done.
  intros ([] & H1%raise_if_Ok & (us & Hus & H)%bind_Ok)%bind_Ok. injection H as ->. split; [done|].
  rewrite !orb_false_iff, !negb_false_iff in H1. destruct H1 as [[[H1 H2] H3] Hk]. exists d, anchors. split_and!; [done..|].
  intros symbol Hs. unfold keys_are in Hk. rewrite same_set_true in Hk. apply Hk in Hs.
  destruct (dlookup symbol anchors) as [a|] eqn:Hl; [|by apply dlookup_None in Hl]. exists a. split; [done|].
  apply dlookup_elem in Hl. apply mapR_Ok in Hus. apply list_elem_of_lookup in Hl as [i Hi].
  destruct (Forall2_lookup_l _ _ _ _ _ Hus Hi) as (u & _ & Hu). by eapply accepted_chain.
Qed.

(** ** What stays *)
(** [s'] comes later than [s] and has the proofs that it names in [keys]. *)
Definition passes (keys : list string) (s s' : epoch) : Prop :=
  (∀ k, k ∈ keys → dlookup k (ep_proofs s') = dlookup k (ep_proofs s)) ∧ ∃ l, ep_hist s' = ep_hist s ++ l.
(** An assertion on those proofs and on what has happened *)
Class Looks (keys : list string) (J : epoch → Prop) : Prop := looks s s' : passes keys s s' → J s → J s'.

Definition proved (k : string) (v : value) (s : epoch) : Prop := dlookup k (ep_proofs s) = Some v.
Definition grown (h : history) (s : epoch) : Prop := ∃ l, ep_hist s = h ++ l.
#[global] Instance looks_and keys J K `{!Looks keys J, !Looks keys K} : Looks keys (λ s, J s ∧ K s).
Proof. intros s s' H [H1 H2]. split; by eapply looks. Qed.
#[global] Instance looks_true keys : Looks keys (λ _, True).
Proof. done. Qed.
#[global] Instance looks_grown keys h : Looks keys (grown h).
Proof. intros s s' (_ & l & Hl) (l0 & H). exists (l0 ++ l). by rewrite Hl, H, app_assoc. Qed.
(** A proof, of which [P] says something that happened *)
Lemma looks_proved keys k (P : value → history → Prop) :
  k ∈ keys → (∀ v h l, P v h → P v (h ++ l)) → Looks keys (λ s, ∃ v, P v (ep_hist s) ∧ proved k v s).
Proof.
  intros Hk HP s s' [H (l & Hl)] (v & Hv & Hp). exists v. split; [rewrite Hl; by apply HP|]. unfold proved. by rewrite (H k Hk).
Qed.
Lemma looks_more k keys J : Looks keys J → Looks (k :: keys) J.
Proof. intros HJ s s' [H Hl]. apply HJ. split; [|done]. intros k' Hk. apply H. by right. Qed.

Section Frame.
Context (env : environment eres) (keys : list string) (J : epoch → Prop) (HJ : Looks keys J).

Lemma looks_ask o : keeps J (eask env o).
Proof. intros s Hs. apply (looks s); [|done]. split; [done|]. by eexists. Qed.
Lemma looks_modify f : (∀ s, ep_hist (f s) = ep_hist s ∧ ∀ k, k ∈ keys → dlookup k (ep_proofs (f s)) = dlookup k (ep_proofs s)) → keeps J (modify f).
Proof.
  intros Hf. apply keeps_modify. intros s Hs. destruct (Hf s) as [H1 H2]. apply (looks s); [|done]. split; [done|]. exists []. by rewrite app_nil_r.
Qed.
Lemma looks_set k v : k ∉ keys → keeps J (modify (set_proof k v)).
Proof.
  intros Hn. apply looks_modify. intros s. split; [done|]. intros k' Hk. cbn. rewrite dlookup_dset. by destruct (String.eqb_spec k' k) as [->|].
Qed.
Lemma looks_rej {A} msg : keeps J (rej (A:=A) msg).
Proof. apply keeps_throw. Qed.
Lemma looks_rej_if b msg : keeps J (rej_if b msg).
Proof. apply keeps_throw_if. Qed.
Lemma looks_rej_ifR c msg : keeps J (rej_ifR c msg).
Proof. apply keeps_liftR. Qed.
End Frame.

Section Accept.
Context (env : environment eres) (fuel : nat) (ct : controller) (type_name : exc → string) (casefold : string → string).
Context (vrp : string → value → result unit) (secret : string → string).
Notation nm := (ct_names ct).

#[local] Hint Extern 1 (keeps _ (eask _ _)) => (eapply looks_ask; eassumption) : keeps.
#[local] Hint Resolve looks_rej looks_rej_if looks_rej_ifR : keeps.
#[local] Hint Extern 1 (keeps _ (modify (set_proof _ _))) => (eapply looks_set; [eassumption|assumption]) : keeps.
#[local] Hint Extern 2 (keeps _ (modify _)) => (eapply looks_modify; [eassumption|by split]) : keeps.

Section Steps.
Context (keys : list string) (J : epoch → Prop) (HJ : Looks keys J).

Lemma looks_docker args seconds allow : keeps J (docker_with env ct type_name args seconds allow).
Proof using HJ. unfold docker_with, docker_failed. keeps_walk. Qed.
#[local] Hint Resolve looks_docker : keeps.
Lemma looks_inspect name : keeps J (inspect_container env ct type_name name).
Proof using HJ. unfold inspect_container, docker. keeps_walk. Qed.
#[local] Hint Resolve looks_inspect : keeps.
Lemma looks_create name image sh : keeps J (_create_container env ct type_name name image sh).
Proof using HJ. unfold _create_container, push_created, docker. keeps_walk. Qed.
#[local] Hint Resolve looks_create : keeps.
Lemma looks_mounts container expected : keeps J (require_mount_set env ct type_name casefold container expected).
Proof using HJ. unfold require_mount_set. keeps_walk. Qed.
#[local] Hint Resolve looks_mounts : keeps.
Lemma looks_database name volume password_path database extra watchdog :
  keeps J (create_database env ct type_name casefold name volume password_path database extra watchdog).
Proof using HJ. unfold create_database. keeps_walk. Qed.
#[local] Hint Resolve looks_database : keeps.
Lemma looks_poll {A} seconds margin (body : M epoch (option A)) msg : keeps J body → keeps J (poll env fuel ct seconds margin body msg).
Proof using HJ. intros Hb. unfold poll. keeps_walk. Qed.
Lemma looks_wait name : keeps J (wait_postgres env fuel ct type_name name).
Proof using HJ. apply looks_poll. keeps_walk. Qed.
Lemma looks_restore container database : keeps J (restore_accepted_dump env ct type_name container database).
Proof using HJ. unfold restore_accepted_dump, docker_for. keeps_walk. Qed.
#[local] Hint Resolve looks_wait looks_restore : keeps.
Lemma looks_clone backup password : keeps J (restore_clone env fuel ct type_name casefold backup password).
Proof using HJ. unfold restore_clone. keeps_walk. Qed.
Lemma looks_dump backup database : keeps J (stream_private_pg_dump env ct backup database).
Proof using HJ. unfold stream_private_pg_dump. keeps_walk. Qed.
#[local] Hint Resolve looks_clone looks_dump : keeps.
Lemma looks_all_ask (l : list (M epoch bool)) : Forall (keeps J) l → keeps J (all_ask l).
Proof using HJ. induction 1 as [|m l Hm Hl IH]; cbn [all_ask]; [keeps_walk|]. keeps_step; [done|]. keeps_walk. Qed.
Lemma looks_inputs config output : keeps J (worker_inputs env ct config output).
Proof using HJ.
  unfold worker_inputs. do 2 (keeps_step; [first [solve [keeps_walk]|apply looks_all_ask; repeat constructor; by eapply looks_ask]|]).
  do 3 (keeps_step; [solve [keeps_walk]|]). destruct (ct_operator ct), (ct_quant ct), (ct_wheelhouse ct); keeps_walk.
  apply looks_all_ask. repeat constructor; by eapply looks_ask.
Qed.
#[local] Hint Resolve looks_inputs : keeps.
Lemma looks_start name mode config output : keeps J (start_worker env ct type_name casefold name mode config output).
Proof using HJ. unfold start_worker, tmpfs_of, docker. keeps_walk. Qed.
#[local] Hint Resolve looks_start : keeps.
Lemma looks_drop name : keeps J (drop_created name).
Proof using HJ. unfold drop_created. keeps_walk. Qed.
#[local] Hint Resolve looks_drop : keeps.
Lemma looks_phase mode config suffix : mode ∉ keys → "serve_container" ∉ keys → keeps J (phase env ct type_name casefold vrp mode config suffix).
Proof using HJ. intros H1 H2. unfold phase, run_worker, docker_for, docker. keeps_walk. Qed.
Lemma looks_remove container volume :
  "temporary_source_cleanup_verified" ∉ keys → "temporary_restore_cleanup_verified" ∉ keys →
  keeps J (remove_owned_clone env ct type_name container volume).
Proof using HJ. intros H1 H2. unfold remove_owned_clone, docker. keeps_walk. case_match; by eapply looks_set. Qed.
Lemma looks_catch_up n limit_msg receipt_msg prefix target rolling batches :
  "catchup" ∉ keys → "serve_container" ∉ keys →
  keeps J (catch_up env ct type_name casefold vrp secret n limit_msg receipt_msg prefix target rolling batches).
Proof using HJ.
  intros H1 H2. revert rolling batches.
  induction n as [|n IH]; intros rolling batches; cbn [catch_up]; keeps_walk; first [by intros s Hs|by apply looks_phase|apply IH].
Qed.
Lemma looks_legacy id : keeps J (assert_legacy_sources_stopped env ct type_name id).
Proof using HJ. unfold assert_legacy_sources_stopped, legacy_snapshot. keeps_walk. Qed.
Lemma looks_restart path first : keeps J (restart_serve_and_validate env fuel ct type_name path first).
Proof using HJ.
  unfold restart_serve_and_validate, look_restarted, docker_for, docker. keeps_walk. apply looks_poll. keeps_walk.
Qed.
End Steps.

(** ** What a step adds *)
Definition receipted (mode : string) (v : value) : Prop :=
  ∃ r, v = VDict r ∧ dget "owner" r = VStr (ct_owner ct) ∧ dget "mode" r = VStr mode ∧
       dget "new_epoch_database" r = VStr (epoch_database (ct_owner ct)) ∧
       (∃ st, dlookup mode expected_states = Some st ∧ dget "state" r = VStr st) ∧
       (mode = "qualify" → py_eq (dget "qualification_proofs" r) (VDict QUALIFICATION_PROOFS) = true).

Lemma receipt_accepted mode v r st :
  dlookup mode expected_states = Some st → receipt_ok ct mode v = Ok r → receipted mode v.
Proof.
  intros Hst. unfold receipt_ok, reject_if. rewrite Hst. destruct v as [| | | | | | | |d]; try done. intros H.
  apply bind_Ok in H as ([] & H1%raise_if_Ok & H). apply bind_Ok in H as ([] & _ & H). apply bind_Ok in H as ([] & H2%raise_if_Ok & H).
  injection H as ->. rewrite !orb_false_iff, !negb_false_iff in H1. destruct H1 as [[[H1 H3] H4] H5].
  apply py_eq_str in H1, H3, H4, H5. exists r. split_and!; [done..|by exists st|].
  intros ->. by apply negb_false_iff in H2.
Qed.

(** Two assertions of the same run *)
Lemma post_both {A} (P P' : epoch → Prop) (m : M epoch A) Q Q' :
  post P m (ends Q (λ _, True)) → post P' m (ends Q' (λ _, True)) → post (λ s, P s ∧ P' s) m (ends (λ a s, Q a s ∧ Q' a s) (λ _, True)).
Proof. intros H H' s [Hs Hs']. specialize (H s Hs). specialize (H' s Hs'). by destruct (m s) as [[] ?]. Qed.

(** The receipt and how it came about *)
Definition worked (mode : string) (v : value) (h : history) : Prop := receipted mode v ∧ reported ct mode v h.
Lemma worked_more mode v h l : worked mode v h → worked mode v (h ++ l).
Proof.
  intros [Hr (name & started & code & out & text & H1 & H2 & H3 & H4)]. split; [done|]. exists name, started, code, out, text.
  split_and!; [done..|]. by apply occurs_more.
Qed.

Lemma phase_adds keys J mode config st :
  Looks keys J → mode ∉ keys → "serve_container" ∉ keys → mode ∉ ["serve"; "history-state"] → dlookup mode expected_states = Some st →
  post J (phase env ct type_name casefold vrp mode config "") (ends (λ v s, J s ∧ worked mode v (ep_hist s) ∧ proved mode v s) (λ _, True)).
Proof.
  intros HJ H1 H2 Hm Hst. apply post_with; [by eapply looks_phase|]. unfold phase. cbv zeta.
  do 7 (eapply post_step; [apply post_any|intros ?; cbn beta]).
  eapply (post_step _ (λ v s, worked mode v (ep_hist s) ∧ proved mode v s)).
  - apply post_ends. intros s v s' _ Hrun. replace (mode +:+ dashed "") with mode in Hrun by (by rewrite app_nil_r_str).
    rewrite !elem_of_cons, elem_of_nil in Hm. apply worker_Ret in Hrun as (r & -> & Hr & Hh & Hp); [|tauto..].
    split; [split; [by eapply receipt_accepted|done]|done].
  - intros receipt s0 [Hw Hp]. unfold mbind, M_bind, eask, perform. destruct (env _ _); cbn; [|done]. split; [by apply worked_more|done].
Qed.

Definition has (mode : string) (s : epoch) : Prop := ∃ v, worked mode v (ep_hist s) ∧ proved mode v s.
Definition has_seed (s : epoch) : Prop := ∃ v, (worked "seed" v (ep_hist s) ∧ seeded_receipt v) ∧ proved "seed" v s.
Definition histories (s : epoch) : Prop := (has "prepare" s ∧ has_seed s) ∧ has "verify-restore" s.

Lemma looks_has keys mode : mode ∈ keys → Looks keys (has mode).
Proof. intros Hk. apply looks_proved; [done|]. intros v h l. apply worked_more. Qed.
Lemma looks_seed keys : "seed" ∈ keys → Looks keys has_seed.
Proof.
  intros Hk. apply (looks_proved _ "seed" (λ v h, worked "seed" v h ∧ seeded_receipt v)); [done|]. intros v h l [Hw Hs]. split; [by apply worked_more|done].
Qed.
Lemma looks_and_has keys J mode : Looks keys J → Looks (mode :: keys) (λ s, J s ∧ has mode s).
Proof. intros HJ. apply looks_and; [by apply looks_more|apply looks_has; by left]. Qed.

(** The proofs that the steps between two phases write *)
Definition passing : list string :=
  ["audit_backup_sha256"; "audit_binary_dump"; "catchup"; "serve_container"; "temporary_source_cleanup_verified"; "temporary_restore_cleanup_verified";
   "catchup_batches"; "finality_catchup_batches"; "finality_catchup_end_exclusive_ms"].
Definition lasting (keys : list string) : Prop := Forall (λ k, k ∉ keys) passing.
Lemma lasting_more k keys : k ∉ passing → lasting keys → lasting (k :: keys).
Proof.
  unfold lasting. rewrite !Forall_forall. intros Hk H x Hx. specialize (H x Hx). rewrite elem_of_cons. intros [->|]; done.
Qed.
Lemma lasting_not k keys : lasting keys → k ∈ passing → k ∉ keys.
Proof. unfold lasting. rewrite Forall_forall. eauto. Qed.

Ltac passing := eapply lasting_not; [eassumption|by_decide].
Ltac kept_step lem := eapply post_step; [apply post_keeps; [eapply lem; first [eassumption|passing]|done]|intros ?; cbn beta].

Lemma verify_history_adds keys J rolling :
  Looks keys J → lasting keys → "verify-restore" ∉ keys →
  post J (verify_history env fuel ct type_name casefold vrp secret rolling) (ends (λ _ s, J s ∧ has "verify-restore" s) (λ _, True)).
Proof.
  intros HJ Hl Hv. unfold verify_history, docker_for. cbv zeta.
  kept_step looks_dump. kept_step looks_ask. do 2 kept_step looks_set. kept_step looks_clone.
  eapply (post_step _ (λ _ s, J s ∧ has "verify-restore" s)).
  { eapply post_strengthen; [eapply phase_adds; [done..|passing|by_decide|done]|]. intros v s (Hs & Hr & Hp). split; [done|by exists v]. }
  intros ?. pose proof (looks_and_has keys J "verify-restore" HJ) as HJ'.
  assert (lasting ("verify-restore" :: keys)) as Hl' by (apply lasting_more; [by_decide|done]).
  kept_step looks_docker. apply post_keeps; [eapply looks_remove; [exact HJ'|passing..]|done].
Qed.

Lemma seed_and_catch_up_adds keys J end_ :
  Looks keys J → lasting keys → Forall (λ k, k ∉ keys) ["prepare"; "seed"; "verify-restore"] →
  post J (seed_and_catch_up env fuel ct type_name casefold vrp secret end_) (ends (λ _ s, J s ∧ histories s) (λ _, True)).
Proof.
  intros HJ Hl. rewrite !Forall_cons. intros (H1 & H2 & H3 & _). unfold seed_and_catch_up.
  eapply (post_step _ (λ _ s, J s ∧ has "prepare" s)).
  { eapply post_strengthen; [eapply phase_adds; [done..|passing|by_decide|done]|]. intros v s (Hs & Hr & Hp). split; [done|by exists v]. }
  intros ?. pose proof (looks_and_has keys J "prepare" HJ) as HJ1.
  assert (lasting ("prepare" :: keys)) as Hl1 by (apply lasting_more; [by_decide|done]).
  eapply post_step; [eapply phase_adds; [exact HJ1|by rewrite elem_of_cons; intros [|]|passing|by_decide|done]|]. intros seed. cbn beta.
  apply post_bind_pure. intros d E. apply accepted_seed_receipt in E as [-> Hseed].
  assert (lasting ("seed" :: "prepare" :: keys)) as Hl2 by (apply lasting_more; [by_decide|done]).
  set (J2 := λ s, (J s ∧ has "prepare" s) ∧ has_seed s).
  assert (Looks ("seed" :: "prepare" :: keys) J2) as HJ2.
  { apply looks_and; [by apply looks_more|apply looks_seed; by left]. }
  eapply post_weaken with (P' := J2); [|intros s (Hs & Hr & Hp); split; [done|by exists (VDict d)]|done].
  kept_step looks_remove. unfold catch_up_history, catch_up_final.
  kept_step looks_catch_up. case_match. kept_step looks_set.
  eapply post_step; [eapply verify_history_adds; [exact HJ2|exact Hl2|rewrite !elem_of_cons; by intros [|[]]]|]. intros ?. cbn beta.
  pose proof (looks_and_has _ J2 "verify-restore" HJ2) as HJ3. set (J3 := λ s, J2 s ∧ has "verify-restore" s) in *.
  assert (lasting ("verify-restore" :: "seed" :: "prepare" :: keys)) as Hl3 by (apply lasting_more; [by_decide|done]).
  kept_step looks_ask. apply post_bind_pure. intros final_end _.
  kept_step looks_catch_up. case_match. do 2 kept_step looks_set.
  intros s (((? & ?) & ?) & ?). unfold histories. by split_and!.
Qed.

(** ** The server after its restart *)
(** The server is restarted after whatever [h] says. *)
Lemma restart_ends h :
  post (grown h)
    (status ← first_status env fuel ct; now ← eask env ENow; _ ← liftR (validate_running_status now status (ct_owner ct) None);
     restart_serve_and_validate env fuel ct type_name (status_path ct) status)
    (ends (λ v s, ∃ l, ep_hist s = h ++ l ∧ restarted ct v l) (λ _, True)).
Proof.
  eapply post_step; [apply first_status_ends|]. intros status. cbn beta. apply post_ends. intros s v s' (l & text & Hl & Htext) H. run_inv H.
  match goal with Hn : eask _ ENow _ = _ |- _ => apply (eask_Ret env ENow) in Hn as -> end.
  apply restart_Ret in H as (now & stop & exited & start & wait & text' & later & later' & up & d & st & -> & -> & Hh & Hrest).
  eexists. split; [rewrite Hh; cbn; rewrite Hl, <- !app_assoc; reflexivity|].
  eexists l, text, _, now, stop, exited, start, wait, text', later, later', up, d, st. split; [cbn; by rewrite <- ?app_assoc|]. naive_solver.
Qed.

Lemma serve_and_restart_adds keys J h :
  Looks keys J → lasting keys → "qualify" ∉ keys → "serve" ∉ keys →
  post (λ s, J s ∧ grown h s) (serve_and_restart env fuel ct type_name casefold vrp secret)
    (ends (λ v s, (J s ∧ has "qualify" s) ∧ ∃ l, ep_hist s = h ++ l ∧ restarted ct v l) (λ _, True)).
Proof.
  intros HJ Hl Hq Hs. unfold serve_and_restart.
  assert (Looks keys (λ s, J s ∧ grown h s)) as HJ0 by (apply looks_and; [done|apply looks_grown]).
  set (J1 := λ s, (J s ∧ grown h s) ∧ has "qualify" s).
  eapply (post_step _ (λ _, J1)).
  { eapply post_strengthen; [eapply phase_adds; [exact HJ0|done|passing|by_decide|done]|]. intros v s (H & Hw & Hp). split; [done|by exists v]. }
  intros ?. pose proof (looks_and_has keys _ "qualify" HJ0) as HJ1. fold J1 in HJ1.
  assert (lasting ("qualify" :: keys)) as Hl1 by (apply lasting_more; [by_decide|done]).
  apply post_bind_pure. intros state _.
  eapply post_step; [apply post_keeps; [apply looks_rej_if|done]|intros ?; cbn beta].
  eapply post_step; [apply post_keeps; [eapply looks_phase; [exact HJ1|by rewrite elem_of_cons; intros [|]|passing]|done]|intros ?; cbn beta].
  eapply post_weaken; [apply (post_both J1 (grown h)); [|apply restart_ends]| |].
  - unfold first_status. eapply post_step; [apply post_keeps; [eapply looks_poll; [exact HJ1|keeps_walk]|done]|intros status; cbn beta].
    kept_step looks_ask. apply post_bind_pure. intros first _. apply post_keeps; [by eapply looks_restart|done].
  - intros s H. split; [done|]. apply H.
  - intros [v|e|] s; cbn; [|done..]. intros [[[H _] Hq'] Hr]. by split.
Qed.

(** The stopped sources were looked at in the beginning. *)
Definition before_is (before : dict) (s : epoch) : Prop :=
  (∃ v, v = VDict before ∧ proved "legacy_before" v s) ∧ ∃ pre look rest, ep_hist s = pre ++ look ++ rest ∧ legacy_look ct before look.
Lemma looks_before keys before : "legacy_before" ∈ keys → Looks keys (before_is before).
Proof.
  intros Hk. apply looks_and.
  - apply (looks_proved _ "legacy_before" (λ v _, v = VDict before)); [done|auto].
  - intros s s' (_ & l & Hl) (pre & look & rest & H & Hlook). exists pre, look, (rest ++ l). split; [|done]. by rewrite Hl, H, <- !app_assoc.
Qed.

Lemma create_resources_keeps keys J : Looks keys J → keeps J (create_resources env fuel ct type_name casefold).
Proof.
  intros HJ. unfold create_resources, create_network, create_volume, initialize_volume, create_redis, tmpfs_of, push_created, docker.
  keeps_walk; first [by eapply looks_docker|by eapply looks_inspect|by eapply looks_create|by eapply looks_mounts|by eapply looks_database
                    |by eapply looks_wait|by eapply looks_restore].
Qed.
End Accept.

Lemma looks_histories ct keys J : Looks keys J → Looks ("verify-restore" :: "seed" :: "prepare" :: keys) (λ s, J s ∧ histories ct s).
Proof.
  intros HJ. apply looks_and; [by do 3 apply looks_more|].
  apply looks_and; [apply looks_and; [apply looks_has|apply looks_seed]|apply looks_has]; member.
Qed.

Lemma restarted_more ct v h l : restarted ct v l → restarted ct v (h ++ l).
Proof.
  intros (pre & H). exists (h ++ pre). destruct H as (? & ? & ? & ? & ? & ? & ? & ? & ? & ? & ? & ? & ? & -> & H).
  do 13 eexists. split; [by rewrite <- app_assoc|exact H].
Qed.

(** What an accepted run returns, and the history it leaves *)
Definition accepted (ct : controller) (result : dict) (h : history) : Prop :=
  let owner := ct_owner ct in
  ∃ proofs sources status prepare seed restore qualify,
    dlookup "result" result = Some (VStr "PASS_NONTRADING_RUNTIME_EPOCH") ∧ dlookup "owner" result = Some (VStr owner) ∧
    dlookup "proofs" result = Some (VDict proofs) ∧
    (dlookup "prepare" proofs = Some prepare ∧ worked ct "prepare" prepare h) ∧
    (dlookup "seed" proofs = Some seed ∧ worked ct "seed" seed h ∧ seeded_receipt seed) ∧
    (dlookup "verify-restore" proofs = Some restore ∧ worked ct "verify-restore" restore h) ∧
    (dlookup "qualify" proofs = Some qualify ∧ worked ct "qualify" qualify h) ∧
    dlookup "serve_restart_status" proofs = Some status ∧
    dlookup "legacy_before" proofs = Some (VDict sources) ∧ dlookup "legacy_after" proofs = Some (VDict sources) ∧
    ∃ start look run look', h = start ++ look ++ run ++ look' ∧ legacy_look ct sources look ∧ legacy_look ct sources look' ∧
      restarted ct status run.

Lemma run_accepted (env : environment eres) (fuel : nat) (ct : controller) (type_name : exc → string) (casefold : string → string)
    (vrp : string → value → result unit) (secret : string → string) (end_exclusive_ms : Z) :
  post (λ _, True) (run_epoch env fuel ct type_name casefold vrp secret end_exclusive_ms) (ends (λ r s, accepted ct r (ep_hist s)) (λ _, True)).
Proof.
  unfold run_epoch. eapply post_step; [apply post_any|intros ?; cbn beta].
  eapply (post_step _ (λ before s, ∃ pre look, ep_hist s = pre ++ look ∧ legacy_look ct before look)).
  { apply post_ends. intros s before s' _ (_ & l & Hl & Hlook)%legacy_Ret. eauto. }
  intros before; cbn beta. set (K := ["legacy_before"]). set (J := before_is ct before).
  assert (Looks K J) as HJ by (apply looks_before; member). assert (lasting K) as HK by by_decide.
  eapply (post_step _ (λ _, J)).
  { intros s0 (pre & look & Hh & Hlook). split.
    - eexists. split; [done|]. unfold proved. cbn. by rewrite dlookup_dset, String.eqb_refl.
    - exists pre, look, []. split; [|done]. cbn. by rewrite Hh, app_nil_r. }
  intros ?. eapply post_step; [apply post_keeps; [by eapply create_resources_keeps|done]|intros ?; cbn beta].
  eapply post_step; [eapply seed_and_catch_up_adds; [done|done|by_decide]|intros batches; cbn beta].
  pose proof (looks_histories ct K J HJ) as HJ1. set (J1 := λ s, J s ∧ histories ct s) in *.
  intros s1 Hs1. pose proof Hs1 as [[_ (start & look & rest & Hh & Hlook)] _].
  eapply (post_step (λ s, J1 s ∧ grown (ep_hist s1) s) _ _ (λ _, True) _ _ (serve_and_restart_adds env fuel ct type_name casefold vrp secret _ J1 (ep_hist s1) HJ1 ltac:(by_decide) ltac:(by_decide) ltac:(by_decide)));
    [|split; [exact Hs1|exists []; by rewrite app_nil_r]].
  intros status. cbn beta. apply post_ends. intros s2 result s3 [[[Hbefore [[(p & Hp1 & Hp2) (sd & [Hsd1 Hsd2] & Hsd3)] (r & Hr1 & Hr2)]] (q & Hq1 & Hq2)] (l & Hl & Hrestart)] H.
  unfold rej_if in H. run_inv H.
  match goal with Hleg : assert_legacy_sources_stopped _ _ _ _ _ = _ |- _ => apply legacy_Ret in Hleg as (Hproofs & look' & Hh' & Hlook') end.
  match goal with Hsame : negb (py_eq _ _) = false |- _ => apply negb_false_iff in Hsame; pose proof (legacy_same _ _ _ _ _ Hlook Hlook' Hsame) as -> end.
  destruct Hbefore as [(b & -> & Hb) _]. unfold proved in *.
  eexists _, before, status, p, sd, r, q. cbn [dlookup String.eqb Ascii.eqb Bool.eqb]. split; [reflexivity|]. split; [reflexivity|]. split; [reflexivity|].
  cbn [ep_proofs set_proof ep_hist]. rewrite !dlookup_dset. cbn [String.eqb Ascii.eqb Bool.eqb]. rewrite Hproofs, Hh'.
  split_and!; try done; try by apply worked_more.
  exists start, look, (rest ++ l), look'. split; [by rewrite Hl, Hh, <- !app_assoc|]. split_and!; [done..|by apply restarted_more].
Qed.

(** C7. What an accepted run has shown.  Whatever Docker, the clocks, the files and
    the workers answer, and whatever the fuel: when [run_epoch] returns, its
    result says so of this owner, and the proofs in it hold the receipts of the
    preparation, the seed, the restored backup and the qualification, each of
    this owner, epoch database and mode and of the state expected of it, and each
    read from the output file of a worker that was started, waited for and ended
    with 0 just before; the seed is the accepted history of the five symbols with
    an empty outbox; the qualification has the three idempotency proofs.  The
    history ends with the restart of the server and with the stopped legacy
    containers being inspected: after a status of a healthy server was read, the
    server was stopped, seen exited and started again, and then, with nothing but
    inspections in between, the status that the proofs hold was read, of a
    healthy server at another time and with every symbol further, and the server
    was seen running.  The legacy containers had been inspected before that, too,
    and both times they were the accepted ones, exited, with the same digests. *)
Theorem accepted_epoch (env : environment eres) (fuel : nat) (ct : controller) (type_name : exc → string) (casefold : string → string)
    (vrp : string → value → result unit) (secret : string → string) (end_exclusive_ms : Z) (s : epoch) :
  match run_epoch env fuel ct type_name casefold vrp secret end_exclusive_ms s with
  | (Ret result, s') => accepted ct result (ep_hist s')
  | _ => True
  end.
Proof.
  pose proof (run_accepted env fuel ct type_name casefold vrp secret end_exclusive_ms s I) as H. by destruct (run_epoch _ _ _ _ _ _ _ _ _) as [[] ?].
Qed.
