(* ===== verification/EpochSample.v ===== *)
(** * A run of the epoch controller that is accepted

    A small Docker, which keeps nothing but the history of commands: a container
    has the mounts, limits and scratch of the command that created it and the
    state of the last start or stop; a worker leaves the receipt of its mode.
    With it [run_epoch] returns, so that what [EpochAcceptSpec] says of the runs
    that return is said of some. *)

From stdpp Require Import strings.
From S2P Require Import Prelude PyStr Regex Sha256 PyVal PyTime Json PyBytes Effects EpochRuntime EpochBoot EpochControl EpochDocker EpochRun EpochTraceSpec EpochAcceptSpec.

Local Open Scope string_scope.
Local Open Scope list_scope.
Local Open Scope Z_scope.

Definition live : controller :=
  Controller "00112233445566778899aabbccddeeff" None "kairos/runner@sha256:00" "C:\work" None (fz 9000)
    (Some (Path "D:\snapshots" "operator")) (Some (Path "D:\snapshots" "quant")) (Some (Path "D:\snapshots" "wheels")) (Path "D:\aux" "wheels").
Notation owner := (ct_owner live).
Notation nm := (ct_names live).

Definition live_secret (key : string) : string :=
  "000000000000000000000000000000000000000000000000000000000000000" +:+
  (if String.eqb key "redis_admin_password" then "1" else if String.eqb key "redis_producer_password" then "2" else "3").

Definition text_of (v : value) : string := match json_dumps compact_style v with Ok s => s | Err _ => "" end.

(** ** The options of a command *)
Fixpoint options (key : string) (args : list string) : list string :=
  match args with k :: ((v :: _) as rest) => if String.eqb k key then v :: options key rest else options key rest | _ => [] end.
Definition setting (key : string) (args : list string) : string :=
  match filter (λ a, startswith key a = true) args with a :: _ => sdrop (String.length key) a | [] => "" end.
Definition mount_value (text : string) : value :=
  let fields := split_on "," text in
  let at_ key := default "" (dlookup key (mount_fields fields)) in
  let volume := String.eqb (at_ "type") "volume" in
  VDict [("Type", VStr (at_ "type")); (if volume then "Name" else "Source", VStr (at_ "src")); ("Destination", VStr (at_ "dst"));
         ("RW", VBool (negb (among "readonly" fields)))].

(** ** What the history says of a container *)
Definition commands (h : list (event eres)) : list (list string) := omap (λ e, match ev_op e with ENative args _ _ _ => Some args | _ => None end) h.
Definition creation (h : list (event eres)) (name : string) : list string :=
  match filter (λ args, bool_decide (head args = Some "create") && among name (options "--name" args) = true) (commands h) with args :: _ => args | [] => [] end.
Definition container_state (h : list (event eres)) (name : string) : string :=
  foldl (λ st args, if bool_decide (last args = Some name)
                    then if bool_decide (head args = Some "start") then "running" else if bool_decide (head args = Some "stop") then "exited" else st
                    else st) "created" (commands h).
Definition starts_of (h : list (event eres)) (name : string) : Z :=
  Z.of_nat (length (filter (λ args, args = ["start"; name]) (commands h))).

Definition labels_value : value := VDict [(EPOCH_LABEL, VStr owner); (SCOPE_LABEL, VStr EPOCH_SCOPE)].
Definition int_of (r : result Z) : value := match r with Ok n => VInt n | Err _ => VNone end.

Definition container_view (h : list (event eres)) (name : string) : value :=
  let args := creation h name in
  let memory := int_of (memory_bytes (setting "--memory=" args)) in
  VDict [("name", VStr ("/" +:+ name));
         ("image", VStr (match filter (λ i, among i args = true) [PG_IMAGE; REDIS_IMAGE; ct_worker_image live] with i :: _ => i | [] => "" end));
         ("state", VDict [("Status", VStr (container_state h name)); ("ExitCode", VInt 0)]); ("labels", labels_value);
         ("mounts", VList (mount_value <$> options "--mount" args)); ("network", VStr (n_network nm)); ("memory", memory); ("swap", memory);
         ("cpus", int_of (nano_cpus (setting "--cpus=" args))); ("readonly", VBool true); ("caps", VList [VStr "ALL"])].
Definition legacy_view (name : string) : value :=
  VDict ([("id", VStr (if String.eqb name SOURCE then SOURCE_ID else LEGACY_REDIS_ID)); ("image", VStr (legacy_image name));
          ("state", VDict [("Status", VStr "exited")])]
         ++ (if String.eqb name SOURCE
             then [("labels", VDict [("com.docker.compose.project", VStr "kairos-paper-gate"); ("com.docker.compose.service", VStr "timescaledb")]);
                   ("networks", VDict [(SOURCE_NETWORK, VNone)])] else [])
         ++ [("mounts", VList (if String.eqb name SOURCE then [mount_value ("type=volume,src=" +:+ SOURCE_VOLUME +:+ ",dst=/var/lib/postgresql/data")] else []))]).
Definition scratch (h : list (event eres)) (name : string) : value :=
  VDict ((λ t, match split_once ":" t with Some (d, o) => (d, VStr o) | None => (t, VNone) end) <$> options "--tmpfs" (creation h name)).

Definition docker_answer (h : list (event eres)) (args : list string) : string :=
  match args with
  | ["inspect"; "--format"; format; name] =>
      text_of (if String.eqb format VIEW then if among name [SOURCE; LEGACY_REDIS] then legacy_view name else container_view h name else scratch h name)
  | ["network"; "inspect"; _; _; name] => text_of (VDict [("Name", VStr name); ("Driver", VStr "bridge"); ("Internal", VBool false); ("Labels", labels_value)])
  | ["volume"; "inspect"; _; _; name] => text_of (VDict [("Name", VStr name); ("Labels", labels_value)])
  | "exec" :: _ :: "pg_isready" :: _ => "accepting connections"
  | "exec" :: _ :: "psql" :: _ :: _ :: _ :: _ :: "-Atqc" :: _ => "off|0"
  | ["wait"; _] => "0"
  | _ => ""
  end.

(** ** What the workers write *)
Definition live_anchor (symbol : string) : value :=
  VDict [("count", VInt (seed_count symbol)); ("first_open_time_ms", VInt (SEED_LAST_OPEN - (seed_count symbol - 1) * MINUTE_MS));
         ("last_open_time_ms", VInt SEED_LAST_OPEN); ("last_close_time_ms", VInt (SEED_LAST_OPEN + MINUTE_MS - 1))].
Definition live_receipt (mode : string) : value :=
  VDict ([("owner", VStr owner); ("mode", VStr mode); ("new_epoch_database", VStr (epoch_database owner));
          ("state", match dlookup mode expected_states with Some st => VStr st | None => VNone end)]
         ++ (if String.eqb mode "seed"
             then [("target_outbox_rows_after", VInt 0); ("rows", VInt 173164); ("ordered_digest_sha256", VStr (live_secret ""));
                   ("anchors", VDict ((λ s, (s, live_anchor s)) <$> SYMBOLS))] else [])
         ++ (if String.eqb mode "qualify" then [("qualification_proofs", VDict QUALIFICATION_PROOFS)] else [])).
Definition live_status (n : Z) : value :=
  VDict ([("state", VStr "RUNNING_NONTRADING"); ("owner", VStr owner); ("STRATEGY_POLICY", VStr "REJECT_ALL");
          ("observed_at_utc", VStr ("2026-09-19T12:00:0" +:+ dec_of_Z n +:+ "Z")); ("watermarks_ms", VDict ((λ s, (s, VInt n)) <$> SYMBOLS))]
         ++ ((λ k, (k, VBool false)) <$> ["PAPER_QUALIFIED"; "ALPHA_READY"; "LIVE_READY"])
         ++ ((λ k, (k, VInt 0)) <$> ["pending_outbox"; "unresolved_inbox"; "uncompleted_publications"])).

Definition live_now : datetime := match fromisoformat "2026-09-19T12:00:09+00:00" with Ok d => d | Err _ => DateTime 0 None end.
Definition live_dump : dump_run :=
  DumpRun false false false (VDict [("assigned_before_resume", VBool true); ("active_processes_after", VInt 0)]) (VInt 0) true 1 0 (fz 1).

Definition live_env : environment eres := λ h o,
  match o with
  | EClock => Ok (fz 0)
  | ETime => Ok (fz 1789832645)
  | ENow => Ok live_now
  | ENative args _ _ _ => Ok (0, docker_answer h args)
  | EFile _ | EDir _ => Ok true
  | EExists _ => Ok false
  | ERead p => Ok (text_of (if String.eqb (p_name p) "status.json" then live_status (starts_of h (n_serve nm))
                            else live_receipt (match split_once "." (p_name p) with Some (mode, _) => mode | None => "" end)))
  | ESha _ => Ok (live_secret "")
  | ESequence => Ok 1
  | EDump _ _ _ => Ok live_dump
  | ESleep | EDiagnostic _ _ | EMkdir _ | EWrite _ _ | ESave _ _ | EOperation _ => Ok tt
  end.

Definition live_run : M epoch dict := run_epoch live_env 5 live (λ _, "Error") (λ s, s) (λ _ _, Ok tt) live_secret 1789832640000.
Definition live_start : epoch := Epoch [] [] "ADMISSION" 0 [].

Definition returns {A} (r : out A) : bool := match r with Ret _ => true | _ => false end.
Lemma returned {A} P (m : M epoch A) QR s :
  post P m (ends QR (λ _, True)) → P s → returns (m s).1 = true → ∃ a s', m s = (Ret a, s') ∧ QR a s'.
Proof. intros Hm Hs Hr. specialize (Hm s Hs). destruct (m s) as [[a|e|] s']; [by exists a, s'|done..]. Qed.

Lemma live_run_returns : returns (live_run live_start).1 = true.
Proof. by vm_compute. Qed.

Lemma live_run_accepted : post (λ _, True) live_run (ends (λ r s, accepted live r (ep_hist s)) (λ _, True)).
Proof. apply run_accepted. Qed.

(** Some run is accepted. *)
Theorem some_epoch_accepted : ∃ result s, live_run live_start = (Ret result, s) ∧ accepted live result (ep_hist s).
Proof. exact (returned _ _ _ _ live_run_accepted I live_run_returns). Qed.
